(* ===== verification/_CoqProject ===== *)
-Q . S2P
Prelude.v
Bits.v
DList.v
Ticks.v
Timer.v
SchedTypes.v
Noop.v
Prio.v
Iorr.v
Bvt.v
Cbs.v
Rtds.v
Arinc653.v
Bfp.v
Schedule.v
Smart.v
Notify.v
PagePool.v
Pgtable.v
PgtableInv.v
PgtableOps.v
PgtableDel.v
Hooks.v
AddressSpace.v
Stage2.v
Stage2Vms.v
Stage2Walk.v
GuestMem.v
Trace.v
Vgic.v
VgicInv.v
VgicFlow.v
VgicFlush.v
Its.v
ItsTable.v
VgicOps.v
VgicMmio.v
VgicMmioInv.v
VgicQuery.v
VgicPm.v
VgicRun.v
VgicSpec.v
ItsSpec.v
VgicRegs.v
VgicRaces.v
