(* ===== verification/Prelude.v ===== *)
(** * BEAU hypervisor: verification of scheduling, memory and interrupt virtualization

    BEAU is a type-1 hypervisor for ARM64.  Its scheduler multiplexes vCPU threads
    on every physical CPU: a framework (src/core/schedule.c) keeps the state of the
    threads and calls one of eight policies (src/core/sched/) through the hooks of
    [struct acrn_scheduler]; the policies arm software timers (src/core/timer.c)
    with tick counts (src/core/ticks.c) and keep their queues in intrusive lists
    (src/include/lib/list.h); a hypercall gate (src/core/sched/smart.c) lets a
    service VM propose budgets.  Its memory is divided by page tables: a walker
    (src/core/mmu.c) maps, changes and unmaps ranges at four levels, takes table
    pages from a shared pool, and is used through hooks for the host's own
    translation (src/arch/arm64/mmu.c) and for the stage-2 translation of every
    VM (src/arch/arm64/guest/vm.c); guest memory is read and written through both
    stages (src/arch/arm64/guest/memory.c).  A virtual GICv3
    (src/arch/arm64/guest/vgicv3.c, vgicv3_its.c) delivers interrupts to the vCPUs:
    descriptors and pending bitmaps in software, list registers (LRs) in the
    hardware, which a sync reads back and a flush fills; the guest configures it
    through trapped registers and a command queue in its memory.  pCPUs call each other
    (src/core/notify.c) and log events (src/core/trace.c) without locks.  This library
    models these parts as executable definitions and proves what they promise.

    ** Files

    - [Prelude]: record update, machine integers with explicit wrap-around, the
      [outcome] of fallible code, queues as lists, [list_for_each_safe] with a
      proof rule for bodies that unlink and relink the node they are given.
    - [Bits]: the bit and bitmap operations of lib/bits.c and lib/bits.h.
    - [DList]: list.h on a store of [next]/[prev] cells.
    - [Ticks], [Timer]: ticks.c; timer.c with the per-pCPU list, the softirq and
      the view a policy has of its own timer ([timer_handle]).
    - [SchedTypes]: the structures of schedule.h, the view of a policy
      ([sched_view]), [sched_ops] for [struct acrn_scheduler], and the class
      [SchedPolicy] of what a policy promises to the framework.
    - [Noop], [Prio], [Iorr], [Bvt], [Cbs], [Rtds], [Arinc653], [Bfp]: one file per
      policy in src/core/sched/, each with its instance of [SchedPolicy].
    - [Schedule]: schedule.c.  The state is [sched_world]: the control of every
      pCPU with the private data of its policy, all threads, the registry, the
      quiesce slots and the events the code emits.  [sched_step] is one operation
      by some pCPU, [sched_reach] any interleaving of them.
    - [Smart]: smart.c, the scheduler advisor gate.
    - [PagePool]: the allocator of table pages in mmu.c.
    - [Pgtable]: the walker in mmu.c.  Its state [walk] is the memory of 64-bit
      words, the pool and the update batch of a deferred operation; [pgtable] is
      the record of hooks of [struct pgtable].
    - [PgtableInv]: what tables mean: [xlate] is the translation the hardware makes
      of a root, [wf] the tree invariant.
    - [PgtableOps], [PgtableDel]: adding a map; modifying and deleting one.  They
      are proved for any hooks of the classes [PgtableLaws] and [ReplaceLaw].
    - [Hooks]: the hooks of host stage 1 and guest stage 2 with their instances.
    - [AddressSpace]: the contract, a partial function from addresses to output
      addresses and attributes, and the refinement.
    - [Stage2]: the stage-2 operations of guest/vm.c on a VM ([stage2_vm]).
    - [Stage2Vms]: several VMs on one pool, as histories of these operations.
    - [Stage2Walk]: the walk snapshot, the memory type query and the statistics of
      guest/vm.c, on the tables of [Stage2].
    - [GuestMem]: memory.c; guest virtual addresses through the guest's own tables.
    - [Notify]: notify.c, [Trace]: trace.c, both as interleaved steps, one per access
      to a shared variable.
    - [Vgic]: the core of vgicv3.c.  The state [vgic_world] is the controller of a VM,
      the saved context of every vCPU, the CPU interface of every pCPU, which vCPU
      runs where, and the timer lines.  [VgicInv]: LRs as a map from interrupts, the
      frame of an operation and the invariant [wf].  [VgicFlow]: sync; [VgicFlush]: flush;
      [VgicOps]: the entry points, as sync, an update, and flush ([op]), and the
      invariant [inv].
    - [Its]: vgicv3_its.c.  [ItsTable]: its tables as three partial maps.
    - [VgicMmio]: the registers, from decoding to the trap handler; [VgicMmioInv]: that
      accesses keep the invariant.  [VgicPm]: suspend and resume.
    - [VgicQuery]: the scan of the pending bitmaps.  [VgicRun]: [vstep] is one operation
      of the hypervisor or the guest on the interrupts of a VM, [vreach] any run of
      them from the initialization on.
    - [VgicSpec], [ItsSpec], [VgicRegs]: the theorems about reachable states;
      [VgicRaces]: runs in which interrupts get lost or come back.

    Definitions keep the names of the C functions and structure fields; a helper
    with a name of its own is a loop body or a branch of the function that calls
    it.  A C pointer to a thread is a [tid]; a list of threads is a Rocq list
    except in [Arinc653], where a claim depends on the links themselves.

    ** Reading the model

    - Integers are [Z] with [u8] ... [u64], [s32], [s64] written where the C
      arithmetic wraps.
    - [Panic] is [panic()] or a failed [ASSERT] of a debug build (HV_DEBUG); release
      builds compile the assertions away.
    - A [clock] gives the successive readings of the counter in one operation.
    - Every operation of a policy runs under the scheduler lock of its pCPU, so an
      operation is one step; interleaving happens between operations.  The same holds
      for the virtual interrupt controller and the lock of its VM.  [Notify] and
      [Trace] have no lock: there a step is one access, in sequentially consistent
      order; [Trace] has a delayed store besides.
    - Loops that are not structural take fuel.  The fuel is computed from the state
      (the number of windows to cross, the length of the list, the source's own
      iteration bound) and is proved sufficient: [cbs_charge_exact],
      [cbs_calls_safe], [rtds_calls_safe], [iorr_round_robin] and
      [dlist_run_refines] show results, not only partial correctness.  A loop over
      the bits of a word takes 32 turns ([while_bits_spec]), the loop of a sync over the
      LRs one turn per LR ([sync_lrs_fuel]), the command queue of the ITS the 1024
      commands that the source allows ([its_queue_drains]).  [Hang] is
      what a loop that runs forever gives, and it is reachable in one case only
      ([arinc_reinit_diverges]).

    ** What the theorems show

    - Framework: every reachable state is consistent ([sched_reachable_consistent]),
      [schedule] runs only threads that may run ([schedule_runs_awake]), freezing
      loses no wake, quiescing is acknowledged exactly when the vCPU is off the
      pCPU, a reschedule request is dropped only when nobody waits.  They are
      proved against [SchedPolicy], so they hold for every policy and every mix of
      policies.
    - Policies: which thread each [pick_next] returns (earliest deadline, highest
      priority with budget, smallest virtual time, owner of the window, round
      robin, first of the highest priority); that charging of any length equals the
      period-by-period charge and terminates; that sleeping and waking earn nothing;
      that admission computes exact utilisations and worst-case response times.
    - Timers and lists: the list is sorted and the hardware programmed in time in
      every reachable state; the pointer operations refine the sequence operations.
    - Page tables: any sequence of operations on a root runs to its end and
      translates like the abstract address space ([address_space_refines]), leaves
      other roots of the pool alone ([address_space_isolated]), and lookup agrees
      with the translation.  The loops of the walker end by the index of a table
      or, at the root, by [root_fuel] (one step per root entry), proved enough;
      [tables_needed] and [splits_needed] bound the pool pages an operation takes.
      A VM boots with exactly its RAM window and the zero page; whatever windows
      are mapped and unmapped in whatever VMs, each VM translates as its own
      operations say and shares no table ([stage2_vms_refine]).  Unmapping is
      proved for a pool of 64 pages, the reach of the retired bitmap as it is
      used; [unmap_frees_foreign_tables] shows what happens beyond.
    - Guest memory: copies return, touch only memory of the VM that the guest may
      access, equal a translation byte by byte, and read back what was written; the
      walk snapshot reports the translation of [xlate].
    - Inter-processor calls and trace: as long as no call times out after
      publishing, a call that returns 0 has run on every pCPU it names, in every
      interleaving; a capture is an exact and frozen snapshot, with stores in order
      and no ring cleared under a writer; both waits end after their deadline.
    - Virtual interrupts: in every reachable state the bitmaps index the pending
      descriptors and the LRs are in order ([vgic_consistent]) with fields in range;
      injection delivers, or leaves the interrupt owed with the underflow interrupt
      armed ([vgic_inject_delivers]); exits lose nothing the guest left alone
      ([vgic_exit_lossless]); the timer interrupt follows its line; the wake-up query is exact;
      a suspend keeps what is owed.  Enable registers read back what was written,
      and re-routing moves an SPI.  ITS commands act as updates of maps
      ([its_commands_refine]), a message raises exactly the mapped LPI
      ([its_msi_translates]), the queue is worked off ([its_queue_drains]).  A
      register access is a step of [vreach] where [mmio_in_step] holds: the sync before
      it left the hardware LRs alone, or, without an ITS, the handler rewrites them at its
      end.
    - Gate: which proposals are accepted, and that only the advisor is served.

    Theorems named in the findings of the manifest show where the code departs from
    what it documents, each on a concrete state.

    ** Not modelled

    Locks and weak memory ordering, host stacks, pointer authentication and the
    context switch itself (assembly), the hardware counter and the physical
    interrupt controller, statistics of the virtual interrupt controller and the
    kick that makes another pCPU look at a request, what the hardware does with a list
    register beyond acknowledging and ending it, translation caches and their maintenance (the
    status of the SMMU synchronization is an input), memory tagging of table
    pages (the model is the configuration without it), the rest of the hypervisor
    (VM and vCPU life cycle, virtual devices, hypercalls other than the
    advisor's), and the vendored and service-VM trees under src/sdk. *)
From stdpp Require Export prelude gmap strings.
From Stdlib Require Export ZArith Lia Sorted.

#[global] Open Scope Z_scope.

(** ** Record update

    [r <| f := v |>] is the C assignment [r->f = v]: the record with one field
    replaced.  [Eta] lists a record's fields once; the setter of any field is
    derived from it. *)
Class Eta (R : Type) := eta : R -> R.
Class Setter {R E : Type} (getter : R -> E) := set_field : (E -> E) -> R -> R.
Arguments set_field {R E} getter {_} u r /.

Ltac build_setter getter :=
  lazymatch type of getter with
  | ?R -> ?E =>
    let e := constr:(eta (R := R)) in
    let inst := lazymatch e with @eta _ ?i => i end in
    let body := eval cbv delta [inst] in inst in
    exact (fun (u : E -> E) (r : R) =>
      ltac:(let b := eval cbv beta in (body r) in
            lazymatch b with
            | context C [getter r] =>
                let b' := context C [u (getter r)] in exact b'
            end))
  end.
#[export] Hint Extern 0 (Setter ?getter) => build_setter getter : typeclass_instances.

Declare Scope beau_scope.
Delimit Scope beau_scope with beau.
#[global] Open Scope beau_scope.
Notation "r <| f := v |>" := (set_field f (fun _ => v) r)
  (at level 1, f at level 10, left associativity, format "r <| f  :=  v |>") : beau_scope.

(** ** Machine integers

    A [w]-bit C integer is a [Z] in its range; the wrap-around of the C
    operators is written with these functions. *)
Abbreviation UINT64_MAX := 18446744073709551615 (only parsing).
Abbreviation UINT32_MAX := 4294967295 (only parsing).
Definition u64 (x : Z) : Z := x mod 18446744073709551616.
Definition u32 (x : Z) : Z := x mod 4294967296.
Definition u16 (x : Z) : Z := x mod 65536.
Definition u8 (x : Z) : Z := x mod 256.
Definition s64 (x : Z) : Z := (x + 9223372036854775808) mod 18446744073709551616 - 9223372036854775808.

Definition s32 (x : Z) : Z := (x + 2147483648) mod 4294967296 - 2147483648.

Definition in_u64 (x : Z) : Prop := 0 <= x <= UINT64_MAX.
Definition in_u32 (x : Z) : Prop := 0 <= x <= UINT32_MAX.
Definition in_s64 (x : Z) : Prop := -9223372036854775808 <= x < 9223372036854775808.

(** Error codes of include/lib/errno.h used by the modelled code. *)
Definition EPERM : Z := 1.
Definition EIO : Z := 5.
Definition EAGAIN : Z := 11.
Definition EACCES : Z := 13.
Definition EFAULT : Z := 14.
Definition ETIMEDOUT : Z := 110.
Definition EBUSY : Z := 16.
Definition ENODEV : Z := 19.
Definition EINVAL : Z := 22.
Definition ENOTSUP : Z := 95.

#[global] Arguments u64 : simpl never.
#[global] Arguments u32 : simpl never.
#[global] Arguments s64 : simpl never.
#[global] Arguments s32 : simpl never.

Create HintDb beau.

Lemma u64_small x : in_u64 x -> u64 x = x.
Proof. unfold in_u64, u64. intros. apply Z.mod_small. lia. Qed.

Lemma u64_range x : in_u64 (u64 x).
Proof. unfold in_u64, u64. pose proof (Z.mod_pos_bound x 18446744073709551616). lia. Qed.

Lemma u32_small x : in_u32 x -> u32 x = x.
Proof. unfold in_u32, u32. intros. apply Z.mod_small. lia. Qed.

Lemma u32_range x : in_u32 (u32 x).
Proof. unfold in_u32, u32. pose proof (Z.mod_pos_bound x 4294967296). lia. Qed.

Lemma s64_small x : in_s64 x -> s64 x = x.
Proof. unfold in_s64, s64. intros. rewrite Z.mod_small; lia. Qed.

Lemma s64_range x : in_s64 (s64 x).
Proof.
  unfold in_s64, s64.
  pose proof (Z.mod_pos_bound (x + 9223372036854775808) 18446744073709551616). lia.
Qed.

(** Subtraction of two 64-bit readings taken in order does not wrap. *)
Lemma u64_sub_small a b : in_u64 a -> in_u64 b -> b <= a -> u64 (a - b) = a - b.
Proof. unfold in_u64. intros. apply u64_small. unfold in_u64. lia. Qed.

#[export] Hint Resolve u64_range u32_range s64_range : beau.

(** [lia] after turning quotients and remainders into equations. *)
Ltac mlia := Z.div_mod_to_equations; lia.
Ltac mnia := Z.div_mod_to_equations; nia.

(** Case analysis on the boolean tests of the code. *)
Ltac zb :=
  repeat match goal with
  | H : context [Z.ltb ?a ?b] |- _ => destruct (Z.ltb_spec a b)
  | H : context [Z.leb ?a ?b] |- _ => destruct (Z.leb_spec a b)
  | H : context [Z.eqb ?a ?b] |- _ => destruct (Z.eqb_spec a b)
  | |- context [Z.ltb ?a ?b] => destruct (Z.ltb_spec a b)
  | |- context [Z.leb ?a ?b] => destruct (Z.leb_spec a b)
  | |- context [Z.eqb ?a ?b] => destruct (Z.eqb_spec a b)
  end.

(** ** Fallible code

    [panic()] and a failed [ASSERT] (HV_DEBUG builds) end the run; [Hang] is a
    loop that is still running when the fuel chosen for it is used up (the fuels
    are proved sufficient); every other operation returns. *)
Inductive outcome (A : Type) : Type :=
| Ret (a : A)
| Panic (why : string)
| Hang (loop : string).
Arguments Ret {A} a.
Arguments Panic {A} why.
Arguments Hang {A} loop.

#[export] Instance outcome_ret : MRet outcome := @Ret.
#[export] Instance outcome_bind : MBind outcome := fun A B f m =>
  match m with Ret a => f a | Panic s => Panic s | Hang s => Hang s end.
#[export] Instance outcome_fmap : FMap outcome := fun A B f m =>
  match m with Ret a => Ret (f a) | Panic s => Panic s | Hang s => Hang s end.

(** [ASSERT(x, ...)] of include/common/logmsg.h in an HV_DEBUG build. *)
Definition ASSERT (b : bool) (why : string) : outcome unit :=
  if b then Ret tt else Panic why.

(** The result of a fuelled loop. *)
Definition finished {A} (loop : string) (o : option A) : outcome A :=
  match o with Some a => Ret a | None => Hang loop end.

Lemma bind_Ret_inv {A B} (m : outcome A) (f : A -> outcome B) b :
  (m ≫= f) = Ret b -> exists a, m = Ret a /\ f a = Ret b.
Proof. destruct m; cbn; [eauto|discriminate..]. Qed.

Lemma bind_Ret {A B} (m : outcome A) (f : A -> outcome B) a :
  m = Ret a -> (m ≫= f) = f a.
Proof. by intros ->. Qed.

(** Run the binds of a hypothesis that an operation returned. *)
Ltac inv_ret :=
  repeat match goal with
  | H : (_ ≫= _) = Ret _ |- _ =>
      let a := fresh "r" in let E := fresh "E" in
      apply bind_Ret_inv in H as (a & E & H)
  | H : Ret _ = Ret _ |- _ => injection H as H
  | H : Panic _ = Ret _ |- _ => discriminate H
  | H : Hang _ = Ret _ |- _ => discriminate H
  end.

(** Successive readings of the system counter: [clk i] is the value returned
    by the [i]-th call of [cpu_ticks()] in an operation, in program order. *)
Definition clock := nat -> Z.
Definition clock_ok (clk : clock) : Prop :=
  (forall i, in_u64 (clk i)) /\ (forall i j, (i <= j)%nat -> clk i <= clk j).

(** ** Lists as queues *)
Section Queues.
Context {A : Type} `{EqDecision A}.
Implicit Types (l : list A) (x y : A) (test : A -> bool).

(** The insertion loop the queues share: walk from the head, link the new
    node in front of the first node that passes the test, else at the tail. *)
Fixpoint insert_before (test : A -> bool) (x : A) (l : list A) : list A :=
  match l with
  | [] => [x]
  | y :: l' => if test y then x :: y :: l' else y :: insert_before test x l'
  end.

(** [list_del_init]: unlink a node; no effect on a node that is on no list. *)
Definition list_del_init (x : A) (l : list A) : list A := filter (fun y => y <> x) l.

(** The node after [x] in the list, [None] when that is the list head. *)
Fixpoint next_of (x : A) (l : list A) : option A :=
  match l with
  | [] => None
  | y :: l' => if decide (x = y) then head l' else next_of x l'
  end.

Lemma list_filter_all (P : A -> Prop) `{!forall x, Decision (P x)} l :
  (forall x, x ∈ l -> P x) -> filter P l = l.
Proof.
  induction l as [|y l IH]; intros Hl; [done|].
  rewrite filter_cons, decide_True by (apply Hl; set_solver). f_equal. apply IH. set_solver.
Qed.

Lemma list_filter_none (P : A -> Prop) `{!forall x, Decision (P x)} l :
  (forall x, x ∈ l -> ~ P x) -> filter P l = [].
Proof.
  induction l as [|y l IH]; intros Hl; [done|].
  rewrite filter_cons, decide_False by (apply Hl; set_solver). apply IH. set_solver.
Qed.

(** The shape of an insertion: the nodes passed over fail the test, the node
    the new one is linked in front of passes it. *)
Lemma insert_before_split test x l :
  exists l1 l2, l = l1 ++ l2 /\ insert_before test x l = l1 ++ x :: l2 /\
    Forall (fun y => test y = false) l1 /\
    match l2 with [] => True | y :: _ => test y = true end.
Proof.
  induction l as [|y l (l1 & l2 & -> & E & H1 & H2)]; cbn.
  - by exists [], [].
  - destruct (test y) eqn:T.
    + by exists [], (y :: l1 ++ l2).
    + exists (y :: l1), l2. rewrite E. repeat split; auto.
Qed.

Lemma insert_before_perm test x l : insert_before test x l ≡ₚ x :: l.
Proof.
  destruct (insert_before_split test x l) as (l1 & l2 & -> & -> & _).
  by rewrite Permutation_middle.
Qed.

Lemma insert_before_elem test x l y :
  y ∈ insert_before test x l <-> y = x \/ y ∈ l.
Proof. rewrite (insert_before_perm test x l). apply elem_of_cons. Qed.

Lemma insert_before_NoDup test x l :
  x ∉ l -> NoDup l -> NoDup (insert_before test x l).
Proof. intros. rewrite insert_before_perm. by constructor. Qed.

Lemma insert_before_length test x l :
  length (insert_before test x l) = S (length l).
Proof. by rewrite (insert_before_perm test x l). Qed.

Lemma insert_before_ext test test' x l :
  (forall y, y ∈ l -> test y = test' y) ->
  insert_before test x l = insert_before test' x l.
Proof.
  induction l as [|y l IH]; intros H; [done|]. cbn.
  rewrite (H y) by set_solver. destruct (test' y); [done|].
  f_equal. apply IH. set_solver.
Qed.

(** Inserting in front of the first node that must come later keeps a queue
    sorted by a total preorder [R]. *)
Lemma insert_before_sorted (R : A -> A -> Prop) `{!Transitive R} test x l :
  (forall y, y ∈ l -> test y = true -> R x y) ->
  (forall y, y ∈ l -> test y = false -> R y x) ->
  StronglySorted R l -> StronglySorted R (insert_before test x l).
Proof.
  intros Ht Hf Hs. induction Hs as [|y l Hs IH Hall]; cbn.
  - by repeat constructor.
  - destruct (test y) eqn:T.
    + constructor; [by constructor|].
      assert (R x y) as Rxy by (apply Ht; [set_solver|done]).
      constructor; [done|]. eapply Forall_impl; [exact Hall|].
      intros z Hz. by etransitivity.
    + constructor.
      * apply IH; intros z Hz; [apply Ht|apply Hf]; set_solver.
      * apply Forall_forall. intros z Hz.
        apply insert_before_elem in Hz as [->|Hz].
        -- apply Hf; [set_solver|done].
        -- by eapply Forall_forall in Hall.
Qed.

(** In a queue sorted along the test, the insertion point splits the queue by
    the test. *)
Lemma insert_before_filter (R : A -> A -> Prop) test x l :
  (forall y z, R y z -> test y = true -> test z = true) ->
  StronglySorted R l ->
  insert_before test x l =
    filter (fun y => test y = false) l ++ x :: filter (fun y => test y = true) l.
Proof.
  intros Hm Hs. induction Hs as [|y l Hs IH Hall]; [done|]. cbn [insert_before].
  rewrite !filter_cons. destruct (test y) eqn:T.
  - rewrite decide_False, decide_True by congruence.
    assert (forall z, z ∈ l -> test z = true) as Ht.
    { intros z Hz. eapply Hm; [|exact T]. by eapply Forall_forall in Hall. }
    rewrite (list_filter_all (fun y => test y = true) l Ht).
    rewrite (list_filter_none (fun y => test y = false) l); [done|].
    intros z Hz. rewrite Ht by done. done.
  - rewrite decide_True, decide_False by congruence. by rewrite IH.
Qed.

Lemma list_del_init_elem x l y : y ∈ list_del_init x l <-> y ∈ l /\ y <> x.
Proof. unfold list_del_init. rewrite list_elem_of_filter. tauto. Qed.

Lemma list_del_init_insert_same test x l :
  list_del_init x (insert_before test x l) = list_del_init x l.
Proof.
  unfold list_del_init. induction l as [|y l IH]; cbn [insert_before].
  - rewrite filter_cons, decide_False by tauto. done.
  - destruct (test y).
    + by rewrite filter_cons, decide_False by tauto.
    + rewrite !filter_cons, IH. done.
Qed.

(** In a queue sorted along the test, removals and insertions commute. *)
Lemma list_del_init_insert_ne (R : A -> A -> Prop) test x y l :
  (forall y z, R y z -> test y = true -> test z = true) ->
  StronglySorted R l -> y <> x ->
  list_del_init x (insert_before test y l) = insert_before test y (list_del_init x l).
Proof.
  intros Hm Hs Hne.
  assert (StronglySorted R (list_del_init x l)) as Hs'.
  { unfold list_del_init. induction Hs as [|z l Hs IH Hall]; [constructor|].
    rewrite filter_cons. case_decide; [|done]. constructor; [done|].
    apply Forall_forall. intros w [_ Hw]%list_elem_of_filter. by eapply Forall_forall in Hall. }
  rewrite !(insert_before_filter R) by done. unfold list_del_init.
  rewrite filter_app, filter_cons, decide_True by done.
  rewrite !list_filter_filter. f_equal; [|f_equal]; apply list_filter_iff; tauto.
Qed.

Lemma list_del_init_NoDup x l : NoDup l -> NoDup (list_del_init x l).
Proof. apply NoDup_filter. Qed.

Lemma list_del_init_id x l : x ∉ l -> list_del_init x l = l.
Proof.
  unfold list_del_init. induction l as [|y l IH]; intros H; [done|].
  rewrite filter_cons. rewrite decide_True by set_solver.
  f_equal. apply IH. set_solver.
Qed.

Lemma list_del_init_sorted (R : A -> A -> Prop) x l :
  StronglySorted R l -> StronglySorted R (list_del_init x l).
Proof.
  unfold list_del_init. induction 1 as [|y l Hs IH Hall]; [constructor|].
  rewrite filter_cons. case_decide; [|done].
  constructor; [done|]. apply Forall_forall. intros z Hz.
  apply list_elem_of_filter in Hz as [_ Hz]. by eapply Forall_forall in Hall.
Qed.

Lemma list_del_init_app x l1 l2 :
  list_del_init x (l1 ++ l2) = list_del_init x l1 ++ list_del_init x l2.
Proof. apply filter_app. Qed.

Lemma list_del_init_singleton x y :
  list_del_init x [y] = if decide (y = x) then [] else [y].
Proof.
  unfold list_del_init. rewrite filter_cons, filter_nil. by repeat case_decide.
Qed.

Lemma list_del_init_middle x l1 l2 :
  x ∉ l1 -> x ∉ l2 -> list_del_init x (l1 ++ x :: l2) = l1 ++ l2.
Proof.
  intros. rewrite list_del_init_app. unfold list_del_init at 2.
  rewrite filter_cons, decide_False by tauto.
  fold (list_del_init x l2). by rewrite !list_del_init_id.
Qed.

Lemma list_del_init_head x l : NoDup (x :: l) -> list_del_init x (x :: l) = l.
Proof.
  intros [Hx _]%NoDup_cons. by apply (list_del_init_middle x [] l); [set_solver|].
Qed.

Lemma list_del_init_perm x l : NoDup l -> x ∈ l -> l ≡ₚ x :: list_del_init x l.
Proof.
  intros Hnd Hx. apply list_elem_of_split in Hx as (l1 & l2 & ->).
  rewrite list_del_init_middle; [by rewrite Permutation_middle| |];
    apply NoDup_app in Hnd as (_ & Hd & [Hn _]%NoDup_cons); set_solver.
Qed.

Lemma sorted_head_le (R : A -> A -> Prop) `{!Reflexive R} x l y :
  StronglySorted R (x :: l) -> y ∈ x :: l -> R x y.
Proof.
  intros Hs. apply StronglySorted_inv in Hs as [_ Hall].
  rewrite elem_of_cons. intros [->|Hy]; [reflexivity|].
  by eapply Forall_forall in Hall.
Qed.

Lemma StronglySorted_ext (R R' : A -> A -> Prop) l :
  (forall x y, x ∈ l -> y ∈ l -> R x y -> R' x y) ->
  StronglySorted R l -> StronglySorted R' l.
Proof.
  intros H Hs. induction Hs as [|x l Hs IH Hall]; constructor.
  - apply IH. intros. apply H; set_solver.
  - apply Forall_forall. intros y Hy. apply H; [set_solver..|].
    by eapply Forall_forall in Hall.
Qed.
End Queues.
#[global] Arguments list_del_init : simpl never.

(** ** [list_for_each_safe]

    The body of the loop may unlink the node it is given and link it elsewhere
    in the same list; the successor saved before the body runs is where the walk
    goes on.  [get] reads the list from the state, [body] may fail. *)
Section ForEachSafe.
Context {A S : Type} `{EqDecision A}.
Variable get : S -> list A.
Variable body : A -> S -> outcome S.

(** [pos->next]; the head is [None], a node on no list points to itself. *)
Definition link_next (x : A) (s : S) : option A :=
  if decide (x ∈ get s) then next_of x (get s) else Some x.

Fixpoint for_each_safe (fuel : nat) (pos n : option A) (s : S) : outcome S :=
  match pos with
  | None => Ret s
  | Some x =>
      match fuel with
      | O => Hang "list_for_each_safe"
      | Datatypes.S f =>
          s ← body x s;
          for_each_safe f n (n ≫= fun y => link_next y s) s
      end
  end.

Definition list_for_each_safe (fuel : nat) (s : S) : outcome S :=
  let pos := head (get s) in
  for_each_safe fuel pos (pos ≫= fun x => link_next x s) s.

Lemma next_of_elem (x y : A) l : next_of x l = Some y -> y ∈ l.
Proof.
  induction l as [|z l IH]; cbn; [done|]. case_decide; [|intros H'%IH; set_solver].
  intros E%head_Some_elem_of. set_solver.
Qed.

(** What every body preserves, the loop preserves; the nodes it visits come
    from the list ([Q]). *)
Lemma list_for_each_safe_preserve (P : S -> Prop) (Q : A -> Prop) fuel s s' :
  (forall s x, P s -> x ∈ get s -> Q x) ->
  (forall x s s', P s -> Q x -> body x s = Ret s' -> P s') ->
  P s -> list_for_each_safe fuel s = Ret s' -> P s'.
Proof.
  intros Hq Hb Hp.
  assert (forall s x y, P s -> Q x -> link_next x s = Some y -> Q y) as Hl.
  { intros r x y Hr Hx. unfold link_next. case_decide; [|congruence].
    intros E%next_of_elem. by eapply Hq. }
  unfold list_for_each_safe.
  assert (forall x, head (get s) = Some x -> Q x) as H1.
  { intros x E%head_Some_elem_of. by eapply Hq. }
  revert H1. generalize (head (get s)). revert s Hp.
  induction fuel as [|fuel IH]; intros s Hp [x|] H1 E; cbn in E; try congruence.
  apply bind_Ret_inv in E as (s1 & E1 & E).
  apply (IH s1) in E; [done|by eapply Hb; eauto|]. intros y. eapply Hl; eauto.
Qed.

(** Sufficient fuel and the final state, for bodies that leave nothing stale
    behind the cursor: every node costs one step, and one more while stale. *)
Variable stale : S -> A -> bool.
Variable Inv : S -> Prop.

Definition cost (s : S) (l : list A) : nat :=
  foldr (fun x n => (if stale s x then 2 else 1) + n)%nat O l.

Hypothesis inv_nodup : forall s, Inv s -> NoDup (get s).
Hypothesis body_ok : forall s pre x suf,
  Inv s -> get s = pre ++ x :: suf -> (forall y, y ∈ pre -> stale s y = false) ->
  exists s' pre' suf', body x s = Ret s' /\ Inv s' /\ get s' = pre' ++ suf' /\ head suf' = head suf /\ (forall y, y ∈ pre' -> stale s' y = false) /\
    (cost s' suf' < cost s (x :: suf))%nat.

Lemma next_of_middle (pre suf : list A) x :
  x ∉ pre -> next_of x (pre ++ x :: suf) = head suf.
Proof.
  induction pre as [|y pre IH]; intros Hx; cbn.
  - by rewrite decide_True.
  - rewrite decide_False by set_solver. apply IH. set_solver.
Qed.

Lemma link_next_middle s pre suf x :
  Inv s -> get s = pre ++ x :: suf -> link_next x s = head suf.
Proof.
  intros Hi Eg. unfold link_next. rewrite Eg, decide_True by set_solver.
  apply next_of_middle. apply inv_nodup in Hi. rewrite Eg in Hi.
  apply NoDup_app in Hi as (_ & Hd & _). intros Hx. apply (Hd x Hx). set_solver.
Qed.

Lemma for_each_safe_ok fuel : forall s pre suf,
  Inv s -> get s = pre ++ suf -> (forall y, y ∈ pre -> stale s y = false) ->
  (cost s suf <= fuel)%nat ->
  exists s', for_each_safe fuel (head suf) (head suf ≫= fun x => link_next x s) s = Ret s' /\ Inv s' /\ forall y, y ∈ get s' -> stale s' y = false.
Proof.
  induction fuel as [|fuel IH]; intros s pre suf Hi Eg Hp Hf.
  { destruct suf as [|x suf]; cbn in Hf; [|destruct (stale s x); lia].
    exists s. rewrite Eg, app_nil_r. done. }
  destruct suf as [|x suf].
  { exists s. rewrite Eg, app_nil_r. done. }
  destruct (body_ok s pre x suf Hi Eg Hp) as (s' & pre' & suf' & Eb & Hi' & Eg' & Eh & Hp' & Hc).
  cbn [head for_each_safe mbind option_bind]. rewrite (link_next_middle s pre suf x Hi Eg).
  cbn in Eb. rewrite Eb. cbn [mbind outcome_bind]. rewrite <- Eh.
  apply (IH s' pre' suf'); [done..|lia].
Qed.

Lemma list_for_each_safe_ok fuel s :
  Inv s -> (2 * length (get s) <= fuel)%nat ->
  exists s', list_for_each_safe fuel s = Ret s' /\ Inv s' /\ forall y, y ∈ get s' -> stale s' y = false.
Proof.
  intros Hi Hf. apply (for_each_safe_ok fuel s [] (get s)); [done..|set_solver|].
  etransitivity; [|exact Hf]. clear. induction (get s) as [|x l IH]; [done|].
  unfold cost in *. cbn [foldr length]. destruct (stale s x); lia.
Qed.
End ForEachSafe.

Section Cursor.
Context {A S : Type} `{EqDecision A}.
Variable get : S -> list A.
Variable stale : S -> A -> bool.
Notation cost := (cost stale).

Lemma cost_app s l1 l2 : cost s (l1 ++ l2) = (cost s l1 + cost s l2)%nat.
Proof. unfold Prelude.cost. induction l1 as [|y l1 IH]; [done|]. cbn in *. rewrite IH. lia. Qed.

Lemma cost_ext s s' l : (forall y, y ∈ l -> stale s' y = stale s y) -> cost s' l = cost s l.
Proof.
  unfold Prelude.cost. induction l as [|y l IH]; intros H; [done|]. cbn [foldr].
  rewrite H by set_solver. rewrite IH by set_solver. done.
Qed.

(** The three things a body does to the node it is given: leave it alone when
    it is not stale, take it off the list, or move it somewhere in the list
    with fresh data.  Each satisfies the condition on bodies. *)
Lemma cursor_keep s pre x suf :
  get s = pre ++ x :: suf -> (forall y, y ∈ pre -> stale s y = false) -> stale s x = false ->
  exists pre' suf', get s = pre' ++ suf' /\ head suf' = head suf /\
    (forall y, y ∈ pre' -> stale s y = false) /\ (cost s suf' < cost s (x :: suf))%nat.
Proof.
  intros Eg Hp Hx. exists (pre ++ [x]), suf. rewrite <- app_assoc. repeat split; [done| |].
  - set_solver.
  - unfold Prelude.cost. cbn. rewrite Hx. lia.
Qed.

Lemma cursor_drop s s' pre x suf :
  get s' = pre ++ suf -> (forall y, y ∈ pre -> stale s y = false) ->
  (forall y, y ∈ pre ++ suf -> stale s' y = stale s y) ->
  exists pre' suf', get s' = pre' ++ suf' /\ head suf' = head suf /\
    (forall y, y ∈ pre' -> stale s' y = false) /\ (cost s' suf' < cost s (x :: suf))%nat.
Proof.
  intros Eg Hp He. exists pre, suf. repeat split; [done| |].
  - intros y Hy. rewrite He by set_solver. auto.
  - rewrite (cost_ext s s') by set_solver. unfold Prelude.cost. cbn. destruct (stale s x); lia.
Qed.

Lemma cursor_move s s' pre x suf test :
  get s' = insert_before test x (pre ++ suf) -> (forall y, y ∈ pre -> stale s y = false) ->
  (forall y, y ∈ pre ++ suf -> stale s' y = stale s y) -> stale s x = true -> stale s' x = false ->
  exists pre' suf', get s' = pre' ++ suf' /\ head suf' = head suf /\
    (forall y, y ∈ pre' -> stale s' y = false) /\ (cost s' suf' < cost s (x :: suf))%nat.
Proof.
  intros Eg Hp He Hx Hx'.
  destruct (insert_before_split test x (pre ++ suf)) as (l1 & l2 & El & Ei & _).
  rewrite Ei in Eg.
  assert (cost s (x :: suf) = 2 + cost s suf)%nat as -> by (unfold Prelude.cost; cbn; by rewrite Hx).
  assert (cost s' suf = cost s suf) as Ec by (apply cost_ext; set_solver).
  assert (forall y, y ∈ pre -> stale s' y = false) as Hp'.
  { intros y Hy. rewrite He by set_solver. auto. }
  apply app_eq_inv in El as [(m & -> & ->)|(m & -> & ->)].
  - exists (l1 ++ x :: m), suf. rewrite Eg, <- app_assoc. repeat split; [|lia].
    intros y [Hy|[->|Hy]%elem_of_cons]%elem_of_app; [apply Hp'; set_solver|done|apply Hp'; set_solver].
  - destruct m as [|z m].
    + exists (pre ++ [x]), l2. rewrite Eg, app_nil_r, <- app_assoc.
      change ([] ++ l2) with l2 in *.
      repeat split; [|lia]. intros y [Hy|Hy%list_elem_of_singleton]%elem_of_app; subst; auto.
    + exists pre, ((z :: m) ++ x :: l2). rewrite Eg, <- app_assoc. repeat split; [done|].
      rewrite cost_app in *. rewrite <- Ec. unfold Prelude.cost at 2. cbn [foldr]. rewrite Hx'.
      fold (cost s' l2). lia.
Qed.
End Cursor.

#[export] Hint Resolve list_del_init_NoDup list_del_init_sorted : beau.

(** Membership of a node in the parts of a queue. *)
Ltac qset :=
  rewrite ?elem_of_app, ?elem_of_cons, ?elem_of_nil in *; first [tauto | intuition congruence].

(** Queues ordered by an integer key of each node. *)
Definition key_le {A} (key : A -> Z) (x y : A) : Prop := key x <= key y.
#[export] Instance key_le_refl {A} (key : A -> Z) : Reflexive (key_le key).
Proof. intros x. unfold key_le. lia. Qed.
#[export] Instance key_le_trans {A} (key : A -> Z) : Transitive (key_le key).
Proof. intros x y z. unfold key_le. lia. Qed.
