(* ===== verification/Bits.v ===== *)
(** * Bit operations of lib/bits.h and lib/bits.c

    A bitmap is an array of 64-bit words (a list of [Z]).  The operations take a
    pointer into the array, given here by the array and the word offset the
    pointer has; as in the source they act on that one word, with the bit number
    reduced modulo 64. *)
From S2P Require Import Prelude.

Definition INVALID_BIT_INDEX : Z := 65535.

(** [__builtin_ctzll]: the lowest set bit. *)
Fixpoint ffs_from (x : Z) (i : Z) (bits : nat) : Z :=
  match bits with
  | O => INVALID_BIT_INDEX
  | S n => if Z.testbit x i then i else ffs_from x (i + 1) n
  end.

(** [ffs64]: the lowest set bit, or [INVALID_BIT_INDEX]. *)
Definition ffs64 (x : Z) : Z := ffs_from x 0 64.

(** [~x] of a 64-bit word. *)
Definition not64 (x : Z) : Z := u64 (Z.lnot x).

(** [ffz64]: the lowest clear bit. *)
Definition ffz64 (x : Z) : Z := ffs64 (not64 x).

(** [1UL << n] for a bit number [n] below 64. *)
Definition bit64 (n : Z) : Z := u64 (Z.shiftl 1 n).

(** The word a pointer [addr + off] points to, and a store to it. *)
Definition word (addr : list Z) (off : Z) : Z := nth (Z.to_nat off) addr 0.
Definition set_word (addr : list Z) (off : Z) (w : Z) : list Z := <[Z.to_nat off := w]> addr.

(** The bit an operation with bit number [nr_arg] acts on. *)
Definition bit_nr (nr_arg : Z) : Z := Z.land (u32 nr_arg) 63.

Definition bitmap_test (nr_arg : Z) (addr : list Z) (off : Z) : bool :=
  negb (Z.land (word addr off) (bit64 (bit_nr nr_arg)) =? 0).

Definition bitmap_set_non_atomic (nr_arg : Z) (addr : list Z) (off : Z) : list Z :=
  set_word addr off (Z.lor (word addr off) (bit64 (bit_nr nr_arg))).

Definition bitmap_clear_non_atomic (nr_arg : Z) (addr : list Z) (off : Z) : list Z :=
  set_word addr off (Z.land (word addr off) (not64 (bit64 (bit_nr nr_arg)))).

(** [bitmap_weight]: [while (bits != 0) { bits &= bits - 1; weight++; }].  A word
    has 64 bits to clear. *)
Fixpoint weight_loop (fuel : nat) (bits weight : Z) : outcome Z :=
  if bits =? 0 then Ret weight
  else match fuel with
       | O => Hang "bitmap_weight"
       | S n => weight_loop n (Z.land bits (u64 (bits - 1))) (u16 (weight + 1))
       end.
Definition bitmap_weight (bits : Z) : outcome Z := weight_loop 64 bits 0.

#[global] Arguments word : simpl never.
#[global] Arguments set_word : simpl never.
#[global] Arguments bitmap_test : simpl never.
#[global] Arguments bitmap_set_non_atomic : simpl never.
#[global] Arguments bitmap_clear_non_atomic : simpl never.

(** ** Words as sets of bits *)
Lemma ffs_from_spec x : forall n i,
  let v := ffs_from x i n in
  (v = 65535 /\ forall j, i <= j < i + Z.of_nat n -> Z.testbit x j = false) \/
  (i <= v < i + Z.of_nat n /\ Z.testbit x v = true /\ forall j, i <= j < v -> Z.testbit x j = false).
Proof.
  induction n as [|n IH]; intros i; cbn [ffs_from]; cbn zeta; [left; split; [done|lia]|].
  destruct (Z.testbit x i) eqn:Ei; [right; split_and!; [lia|lia|done|lia]|].
  destruct (IH (i + 1)) as [[E H]|(H1 & H2 & H3)].
  - left. split; [done|]. intros j Hj. destruct (decide (j = i)) as [->|]; [done|]. apply H. lia.
  - right. split_and!; [lia|lia|done|]. intros j Hj. destruct (decide (j = i)) as [->|]; [done|]. apply H3. lia.
Qed.

Lemma shl_bit id : 0 <= id < 64 -> u64 (Z.shiftl 1 id) = 2 ^ id.
Proof.
  intros H. rewrite Z.shiftl_1_l. apply u64_small. unfold in_u64.
  assert (2 ^ id <= 2 ^ 63) by (apply Z.pow_le_mono_r; lia).
  assert (0 < 2 ^ id) by (apply Z.pow_pos_nonneg; lia). lia.
Qed.

Lemma land_pow2 m id : 0 <= id -> (Z.land m (2 ^ id) =? 0) = negb (Z.testbit m id).
Proof.
  intros H. destruct (Z.testbit m id) eqn:T; cbn.
  - apply Z.eqb_neq. intros E. apply (f_equal (fun z => Z.testbit z id)) in E.
    rewrite Z.land_spec, T, Z.pow2_bits_true, Z.bits_0 in E by lia. done.
  - apply Z.eqb_eq, Z.bits_inj'. intros n Hn. rewrite Z.land_spec, Z.pow2_bits_eqb, Z.bits_0 by lia.
    destruct (Z.eqb_spec id n) as [<-|]; [by rewrite T|by rewrite andb_false_r].
Qed.

Lemma lor_pow2 m id j : 0 <= id -> 0 <= j -> Z.testbit (Z.lor m (2 ^ id)) j = Z.testbit m j || (id =? j).
Proof. intros. rewrite Z.lor_spec, Z.pow2_bits_eqb by lia. done. Qed.

Lemma testbit_high w j : in_u64 w -> 64 <= j -> Z.testbit w j = false.
Proof.
  intros [H0 H1] Hj. destruct (decide (w = 0)) as [->|]; [apply Z.bits_0|].
  apply Z.bits_above_log2; [lia|].
  assert (Z.log2 w <= Z.log2 UINT64_MAX) by (apply Z.log2_le_mono; lia). change (Z.log2 UINT64_MAX) with 63 in *. lia.
Qed.

(** A non-negative number whose bits from 64 on are clear is a 64-bit word. *)
Lemma in_u64_bits w : 0 <= w -> (forall j, 64 <= j -> Z.testbit w j = false) -> in_u64 w.
Proof.
  intros H0 H. assert (w = w mod 2 ^ 64) as ->.
  { apply Z.bits_inj'. intros n Hn. destruct (Z.lt_ge_cases n 64).
    - by rewrite Z.mod_pow2_bits_low.
    - rewrite Z.mod_pow2_bits_high by lia. by apply H. }
  unfold in_u64. pose proof (Z.mod_pos_bound w (2 ^ 64)). lia.
Qed.

Lemma not64_bits x j : 0 <= j -> Z.testbit (not64 x) j = negb (Z.testbit x j) && (j <? 64).
Proof.
  intros Hj. unfold not64, u64. change 18446744073709551616 with (2 ^ 64). destruct (Z.ltb_spec j 64).
  - by rewrite Z.mod_pow2_bits_low, Z.lnot_spec, andb_true_r by lia.
  - by rewrite Z.mod_pow2_bits_high, andb_false_r by lia.
Qed.

Lemma land_u64 a b : in_u64 a -> 0 <= b -> in_u64 (Z.land a b).
Proof.
  intros Ha Hb. apply in_u64_bits; [apply Z.land_nonneg; right; done|].
  intros j Hj. by rewrite Z.land_spec, testbit_high.
Qed.

Lemma lor_u64 a b : in_u64 a -> in_u64 b -> in_u64 (Z.lor a b).
Proof.
  intros Ha Hb. apply in_u64_bits; [apply Z.lor_nonneg; split; [apply Ha|apply Hb]|].
  intros j Hj. by rewrite Z.lor_spec, !testbit_high.
Qed.

Lemma bit_nr_small n : 0 <= n < 64 -> bit_nr n = n.
Proof.
  intros H. unfold bit_nr. rewrite u32_small by (unfold in_u32; lia).
  change 63 with (Z.ones 6). rewrite Z.land_ones by lia. apply Z.mod_small. lia.
Qed.

Lemma bit_nr_range n : 0 <= bit_nr n < 64.
Proof. unfold bit_nr. change 63 with (Z.ones 6). rewrite Z.land_ones by lia. apply Z.mod_pos_bound. lia. Qed.

Lemma bit64_pow n : 0 <= n < 64 -> bit64 n = 2 ^ n.
Proof. apply shl_bit. Qed.

Lemma bit64_u64 n : in_u64 (bit64 n).
Proof. apply u64_range. Qed.

Lemma word_set addr off w i : 0 <= off < Z.of_nat (length addr) -> 0 <= i ->
  word (set_word addr off w) i = if i =? off then w else word addr i.
Proof.
  intros H Hi. unfold word, set_word. rewrite !nth_lookup. destruct (Z.eqb_spec i off) as [->|].
  - by rewrite list_lookup_insert_eq by lia.
  - rewrite list_lookup_insert_ne by lia. done.
Qed.

Lemma set_word_length addr off w : length (set_word addr off w) = length addr.
Proof. apply length_insert. Qed.

(** The effect of the operations on the bits of the addressed word. *)
Lemma bitmap_test_spec n addr off :
  bitmap_test n addr off = Z.testbit (word addr off) (bit_nr n).
Proof.
  unfold bitmap_test. pose proof (bit_nr_range n). by rewrite bit64_pow, land_pow2, negb_involutive by lia.
Qed.

Lemma set_bits n addr off j : 0 <= off < Z.of_nat (length addr) -> 0 <= j ->
  Z.testbit (word (bitmap_set_non_atomic n addr off) off) j = Z.testbit (word addr off) j || (bit_nr n =? j).
Proof.
  intros H Hj. pose proof (bit_nr_range n). unfold bitmap_set_non_atomic.
  by rewrite word_set, Z.eqb_refl, bit64_pow, lor_pow2 by lia.
Qed.

Lemma clear_bits n addr off j : 0 <= off < Z.of_nat (length addr) -> 0 <= j < 64 ->
  Z.testbit (word (bitmap_clear_non_atomic n addr off) off) j = Z.testbit (word addr off) j && negb (bit_nr n =? j).
Proof.
  intros H Hj. pose proof (bit_nr_range n). unfold bitmap_clear_non_atomic.
  rewrite word_set, Z.eqb_refl, Z.land_spec, not64_bits, bit64_pow, Z.pow2_bits_eqb by lia.
  by rewrite (proj2 (Z.ltb_lt j 64)), andb_true_r by lia.
Qed.

(** A word that is not all ones has a clear bit, and [ffz64] finds one. *)
Lemma ffz64_spec w : in_u64 w -> w <> UINT64_MAX -> 0 <= ffz64 w < 64 /\ Z.testbit w (ffz64 w) = false.
Proof.
  intros Hw Hne. unfold ffz64, ffs64. pose proof (ffs_from_spec (not64 w) 64 0) as Hs. cbn zeta in Hs.
  destruct Hs as [[_ H]|(H1 & H2 & _)].
  - exfalso. apply Hne. change UINT64_MAX with (Z.ones 64). apply Z.bits_inj'. intros j Hj.
    rewrite Z.testbit_ones by lia. destruct (Z.ltb_spec j 64) as [Hl|Hl].
    + specialize (H j ltac:(lia)). rewrite not64_bits, (proj2 (Z.ltb_lt j 64)), andb_true_r in H by lia.
      apply negb_false_iff in H. rewrite H. symmetry. apply andb_true_iff. split; [apply Z.leb_le|]; lia.
    + rewrite testbit_high by done. by rewrite andb_false_r.
  - split; [lia|]. rewrite not64_bits in H2 by lia. apply andb_true_iff in H2 as [H2 _]. by apply negb_true_iff.
Qed.

(** ** Counting *)

Lemma filter_length_ext {A} (P Q : A -> Prop) `{!forall x, Decision (P x)} `{!forall x, Decision (Q x)} (l : list A) :
  (forall y, y ∈ l -> P y <-> Q y) -> length (filter P l) = length (filter Q l).
Proof.
  induction l as [|z l IH]; intros HPQ; [done|]. rewrite !filter_cons.
  assert (P z <-> Q z) as Hz by (apply HPQ; set_solver).
  assert (length (filter P l) = length (filter Q l)) as E by (apply IH; intros; apply HPQ; set_solver).
  destruct (decide (P z)), (decide (Q z)); cbn; tauto || congruence.
Qed.

Lemma filter_length_fmap {A B} (f : A -> B) (P : B -> Prop) `{!forall x, Decision (P x)} (l : list A) :
  length (filter P (f <$> l)) = length (filter (fun x => P (f x)) l).
Proof.
  induction l as [|z l IH]; [done|]. rewrite fmap_cons, !filter_cons.
  destruct (decide (P (f z))); cbn; by rewrite IH.
Qed.

(** Removing one member from a filtered list makes it one shorter. *)
Lemma filter_length_remove {A} (P Q : A -> Prop) `{!forall x, Decision (P x)} `{!forall x, Decision (Q x)}
  (l : list A) x :
  NoDup l -> x ∈ l -> P x -> (forall y, y ∈ l -> Q y <-> P y /\ y <> x) ->
  length (filter P l) = S (length (filter Q l)).
Proof.
  induction 1 as [|y l Hy Hnd IH]; intros Hx HP HQ; [by apply elem_of_nil in Hx|].
  rewrite !filter_cons. apply elem_of_cons in Hx as [<-|Hx].
  - rewrite decide_True by done. rewrite decide_False by (rewrite HQ by set_solver; tauto). cbn. f_equal.
    apply filter_length_ext. intros z Hz. rewrite HQ by set_solver. set_solver.
  - assert (length (filter P l) = S (length (filter Q l))) as E by (apply IH; [done..|]; intros; apply HQ; set_solver).
    assert (y <> x) by (intros ->; done).
    destruct (decide (P y)) as [HPy|HPy].
    + rewrite decide_True by (apply HQ; [set_solver|done]). cbn. by rewrite E.
    + rewrite decide_False; [done|]. rewrite HQ by set_solver. tauto.
Qed.

(** The number of set bits of a word. *)
Definition popcount (w : Z) : nat := length (filter (fun j => Z.testbit w j = true) (seqZ 0 64)).

Lemma popcount_0 : popcount 0 = 0%nat.
Proof. reflexivity. Qed.

(** [w & (w - 1)] is [w] without its lowest set bit. *)
Lemma land_pred_bits w k : 0 <= k -> Z.testbit w k = true -> (forall j, 0 <= j < k -> Z.testbit w j = false) ->
  forall j, 0 <= j -> Z.testbit (Z.land w (w - 1)) j = Z.testbit w j && negb (j =? k).
Proof.
  intros Hk Hb Hlow j Hj. pose proof (Z.pow_pos_nonneg 2 k ltac:(lia) ltac:(lia)).
  assert (w mod 2 ^ k = 0) as Hm.
  { apply Z.bits_inj'. intros n Hn. rewrite Z.bits_0. destruct (Z.lt_ge_cases n k).
    - rewrite Z.mod_pow2_bits_low by lia. apply Hlow. lia.
    - apply Z.mod_pow2_bits_high. lia. }
  set (h := w / 2 ^ k). assert (w = h * 2 ^ k) as Ew by (subst h; pose proof (Z.div_mod w (2 ^ k)); lia).
  assert (Z.testbit h 0 = true) as Hh by (subst h; rewrite Z.div_pow2_bits by lia; done).
  assert (w - 1 = (h - 1) * 2 ^ k + (2 ^ k - 1)) as Ep by lia.
  rewrite Z.land_spec. destruct (Z.lt_trichotomy j k) as [Hl|[->|Hg]].
  - by rewrite Hlow by lia.
  - rewrite Hb, Z.eqb_refl. cbn.
    replace (Z.testbit (w - 1) k) with (Z.testbit ((w - 1) / 2 ^ k) 0) by (rewrite Z.div_pow2_bits by lia; done).
    rewrite Ep, Z.div_add_l, Z.div_small, Z.add_0_r by lia.
    rewrite Z.bit0_odd in *. rewrite Z.odd_sub, Hh. done.
  - rewrite (proj2 (Z.eqb_neq j k)), andb_true_r by lia.
    assert (forall x, Z.testbit x j = Z.testbit (x / 2 ^ k) (j - k)) as Hd.
    { intros x. rewrite Z.div_pow2_bits by lia. f_equal. lia. }
    rewrite (Hd (w - 1)), (Hd w), Ep, Z.div_add_l, (Z.div_small (2 ^ k - 1)), Z.add_0_r by lia. fold h.
    rewrite Z.bit0_odd in Hh. replace (h - 1) with (Z.clearbit h 0).
    + rewrite Z.clearbit_eqb, (proj2 (Z.eqb_neq 0 (j - k))), andb_true_r by lia. apply andb_diag.
    + apply Z.odd_spec in Hh as [q Hq]. rewrite Hq. apply Z.bits_inj'. intros n Hn.
      rewrite Z.clearbit_eqb by lia. replace (2 * q + 1 - 1) with (2 * q) by lia.
      destruct (Z.eqb_spec 0 n) as [<-|Hn0].
      * by rewrite andb_false_r, Z.testbit_even_0.
      * rewrite andb_true_r. replace n with (Z.succ (n - 1)) by lia.
        by rewrite Z.testbit_odd_succ, Z.testbit_even_succ by lia.
Qed.

Lemma weight_loop_count : forall fuel w n,
  in_u64 w -> (popcount w <= fuel)%nat -> 0 <= n -> n + Z.of_nat (popcount w) < 65536 ->
  weight_loop fuel w n = Ret (n + Z.of_nat (popcount w)).
Proof.
  intros fuel. induction fuel as [|fuel IH]; intros w n Hw Hf Hn Hb.
  all: cbn [weight_loop]; destruct (Z.eqb_spec w 0) as [->|Hne]; [rewrite popcount_0; f_equal; lia|].
  all: pose proof (ffs_from_spec w 64 0) as Hs; cbn zeta in Hs; set (k := ffs_from w 0 64) in *; clearbody k.
  all: destruct Hs as [[_ H]|(H1 & H2 & H3)];
    [exfalso; apply Hne, Z.bits_inj'; intros j Hj; rewrite Z.bits_0; destruct (Z.lt_ge_cases j 64);
      [apply H; lia|by apply testbit_high]|].
  all: assert (popcount w = S (popcount (Z.land w (w - 1)))) as E
    by (unfold popcount; apply (filter_length_remove _ _ _ k); [apply NoDup_seqZ|apply elem_of_seqZ; lia|done|];
        intros j Hj%elem_of_seqZ; rewrite (land_pred_bits w k) by (done || lia);
        rewrite andb_true_iff, negb_true_iff, Z.eqb_neq; done).
  - lia.
  - assert (0 < w) by (unfold in_u64 in Hw; lia). rewrite u64_small by (unfold in_u64 in *; lia).
    unfold u16. rewrite Z.mod_small by lia. rewrite IH; [f_equal; lia|apply land_u64; [done|lia]|lia..].
Qed.

Lemma popcount_le w : (popcount w <= 64)%nat.
Proof. unfold popcount. etransitivity; [apply length_filter|]. by rewrite length_seqZ. Qed.

(** The loop of [bitmap_weight] ends and counts the set bits. *)
Lemma bitmap_weight_spec w : in_u64 w -> bitmap_weight w = Ret (Z.of_nat (popcount w)).
Proof.
  intros Hw. pose proof (popcount_le w). unfold bitmap_weight. rewrite weight_loop_count; [f_equal; lia|done|lia..].
Qed.
