(* ===== verification/DList.v ===== *)
(** * Intrusive doubly linked lists (include/lib/list.h)

    The pointer operations of list.h on a store of [next]/[prev] cells, the
    predicate that a head node represents a sequence of nodes, and the
    refinement of every operation the schedulers and the timer use to the
    operation on sequences of [Prelude].  The components below work on
    sequences; this file is what entitles them to. *)
From S2P Require Import Prelude.

Section DList.
Context {N : Type} `{Countable N}.

(** The [next] and [prev] cells of every [struct list_head] in memory. *)
Record list_store := mk_store { next : gmap N N; prev : gmap N N }.

(** [p->next], [p->prev]; a node never initialised reads as itself. *)
Definition next_ptr (h : list_store) (p : N) : N := default p (next h !! p).
Definition prev_ptr (h : list_store) (p : N) : N := default p (prev h !! p).

Definition INIT_LIST_HEAD (p : N) (h : list_store) : list_store :=
  mk_store (<[p := p]> (next h)) (<[p := p]> (prev h)).

(** Four stores, in the order of the source; [next] and [prev] cells are
    distinct memory, so only the order within each map matters. *)
Definition list_add_node (new_node p n : N) (h : list_store) : list_store :=
  mk_store (<[p := new_node]> (<[new_node := n]> (next h)))
           (<[new_node := p]> (<[n := new_node]> (prev h))).

Definition list_add (new_node head : N) (h : list_store) : list_store :=
  list_add_node new_node head (next_ptr h head) h.

Definition list_add_tail (new_node head : N) (h : list_store) : list_store :=
  list_add_node new_node (prev_ptr h head) head h.

Definition list_del_node (p n : N) (h : list_store) : list_store :=
  mk_store (<[p := n]> (next h)) (<[n := p]> (prev h)).

Definition list_del_entry (e : N) (h : list_store) : list_store :=
  list_del_node (prev_ptr h e) (next_ptr h e) h.

Definition list_del_init_ptr (e : N) (h : list_store) : list_store :=
  INIT_LIST_HEAD e (list_del_entry e h).

Definition list_empty (head : N) (h : list_store) : bool :=
  bool_decide (next_ptr h head = head).

(** [list_for_each] with a search body: the first node, in link order from
    [pos], that passes [test].  [None] when the walk is still going after
    [fuel] nodes, [Some None] when it came back to the head. *)
Fixpoint list_find (fuel : nat) (test : N -> bool) (head pos : N) (h : list_store)
    : option (option N) :=
  match fuel with
  | O => None
  | S f => if decide (pos = head) then Some None
           else if test pos then Some (Some pos)
           else list_find f test head (next_ptr h pos) h
  end.

(** The sorted-insertion loop: [list_for_each] from the head, link in front
    of the first node that passes [test], at the tail otherwise. *)
Definition sorted_insert (fuel : nat) (test : N -> bool) (new_node head : N)
    (h : list_store) : option list_store :=
  match list_find fuel test head (next_ptr h head) h with
  | None => None
  | Some None => Some (list_add_tail new_node head h)
  | Some (Some pos) => Some (list_add_node new_node (prev_ptr h pos) pos h)
  end.

(** ** Representation *)
Definition link (h : list_store) (a b : N) : Prop :=
  next h !! a = Some b /\ prev h !! b = Some a.

(** [chain h a l b]: the nodes between [a] and [b] are exactly [l]. *)
Fixpoint chain (h : list_store) (a : N) (l : list N) (b : N) : Prop :=
  match l with
  | [] => link h a b
  | x :: l' => link h a x /\ chain h x l' b
  end.

(** [head] is the head of a circular list of the nodes [l]. *)
Definition represents (h : list_store) (head : N) (l : list N) : Prop :=
  NoDup (head :: l) /\ chain h head l head.

Definition self_linked (h : list_store) (p : N) : Prop := link h p p.

Lemma chain_app h a l1 x l2 b :
  chain h a (l1 ++ x :: l2) b <-> chain h a l1 x /\ chain h x l2 b.
Proof.
  revert a. induction l1 as [|y l1 IH]; intros a; cbn; [done|].
  rewrite IH. tauto.
Qed.

(** A chain reads the [next] cells of [a :: l] and the [prev] cells of
    [l ++ [b]] only. *)
Lemma chain_frame h h' a l b :
  (forall p, p ∈ a :: l -> next h' !! p = next h !! p) ->
  (forall p, p ∈ b :: l -> prev h' !! p = prev h !! p) ->
  chain h a l b -> chain h' a l b.
Proof.
  revert a. induction l as [|x l IH]; intros a Hn Hp; cbn; unfold link.
  - rewrite Hn, Hp by set_solver. done.
  - rewrite Hn, Hp by set_solver. intros [? ?]. split; [done|].
    apply IH; [set_solver..|done].
Qed.

Lemma chain_next h a l b : chain h a l b -> next_ptr h a = default b (head l).
Proof. unfold next_ptr. by destruct l as [|x l]; cbn; [intros [-> _]|intros [[-> _] _]]. Qed.

Lemma chain_prev h a l b : chain h a l b -> prev_ptr h b = default a (last l).
Proof.
  unfold prev_ptr. destruct l as [|x l] using rev_ind; [intros [_ ->]; done|].
  rewrite chain_app. intros [_ [_ Hp]]. by rewrite last_snoc, Hp.
Qed.

Lemma default_last_cons (a x : N) l : default a (last (x :: l)) = default x (last l).
Proof. rewrite last_cons. by destruct (last l). Qed.

Lemma default_last_elem (a : N) l : default a (last l) ∈ a :: l.
Proof.
  destruct (last l) as [y|] eqn:E; cbn; [|set_solver].
  apply last_Some in E as [l' ->]. set_solver.
Qed.

Lemma default_head_elem (b : N) l : default b (head l) ∈ b :: l.
Proof. destruct l; set_solver. Qed.

(** Linking a fresh node between two neighbours. *)
Lemma chain_add h a l1 l2 b n :
  NoDup (a :: l1 ++ l2) -> b ∉ l1 ++ l2 -> n ∉ a :: b :: l1 ++ l2 ->
  chain h a (l1 ++ l2) b ->
  chain (list_add_node n (default a (last l1)) (default b (head l2)) h) a (l1 ++ n :: l2) b.
Proof.
  revert a. induction l1 as [|x l1 IH]; intros a Hnd Hb Hn Hc.
  - destruct l2 as [|y l2]; cbn in *.
    + split; split; cbn; by simplify_map_eq by set_solver.
    + destruct Hc as [_ Hc]. apply NoDup_cons in Hnd as [? [? _]%NoDup_cons].
      split; [split; cbn; by simplify_map_eq by set_solver|].
      split; [split; cbn; by simplify_map_eq by set_solver|].
      eapply chain_frame; [| |exact Hc]; intros p ?; cbn;
        by rewrite !lookup_insert_ne by set_solver.
  - destruct Hc as [[? ?] Hc]. apply NoDup_cons in Hnd as [Ha Hnd].
    pose proof Hnd as [Hx _]%NoDup_cons.
    rewrite default_last_cons. pose proof (default_last_elem x l1).
    pose proof (default_head_elem b l2).
    split; [|apply IH; set_solver].
    split; cbn; by rewrite !lookup_insert_ne by set_solver.
Qed.

(** Unlinking a node between two neighbours. *)
Lemma chain_del h a l1 x l2 b :
  NoDup (a :: l1 ++ x :: l2) -> b ∉ l1 ++ x :: l2 ->
  chain h a (l1 ++ x :: l2) b ->
  chain (list_del_node (default a (last l1)) (default b (head l2)) h) a (l1 ++ l2) b.
Proof.
  revert a. induction l1 as [|y l1 IH]; intros a Hnd Hb Hc.
  - destruct Hc as [_ Hc]. apply NoDup_cons in Hnd as [? [? Hnd]%NoDup_cons].
    destruct l2 as [|z l2]; cbn in *.
    + split; cbn; by simplify_map_eq.
    + destruct Hc as [_ Hc]. apply NoDup_cons in Hnd as [? _].
      split; [split; cbn; by simplify_map_eq|].
      eapply chain_frame; [| |exact Hc]; intros p ?; cbn;
        by rewrite !lookup_insert_ne by set_solver.
  - destruct Hc as [[? ?] Hc]. apply NoDup_cons in Hnd as [Ha Hnd].
    pose proof Hnd as [Hx _]%NoDup_cons.
    rewrite default_last_cons. pose proof (default_last_elem y l1).
    pose proof (default_head_elem b l2).
    split; [|apply IH; set_solver].
    split; cbn; by rewrite !lookup_insert_ne by set_solver.
Qed.

(** ** Refinement of the operations *)
Lemma represents_init h head : represents (INIT_LIST_HEAD head h) head [].
Proof. split; [apply NoDup_singleton|]. split; cbn; by simplify_map_eq. Qed.

Lemma represents_add_node h hd l1 l2 n :
  n ∉ hd :: l1 ++ l2 -> represents h hd (l1 ++ l2) ->
  represents (list_add_node n (default hd (last l1)) (default hd (head l2)) h)
    hd (l1 ++ n :: l2).
Proof.
  intros Hn [Hnd Hc]. pose proof Hnd as [? ?]%NoDup_cons. split.
  - rewrite <- Permutation_middle, Permutation_swap. constructor; set_solver.
  - apply chain_add; set_solver.
Qed.

Lemma represents_add h hd l n :
  n ∉ hd :: l -> represents h hd l -> represents (list_add n hd h) hd (n :: l).
Proof.
  intros Hn Hr. unfold list_add. rewrite (chain_next _ _ _ _ (proj2 Hr)).
  by apply (represents_add_node h hd [] l n).
Qed.

Lemma represents_add_tail h hd l n :
  n ∉ hd :: l -> represents h hd l -> represents (list_add_tail n hd h) hd (l ++ [n]).
Proof.
  intros Hn Hr. unfold list_add_tail. rewrite (chain_prev _ _ _ _ (proj2 Hr)).
  apply (represents_add_node h hd l [] n); by rewrite app_nil_r.
Qed.

Lemma represents_neighbours h hd l1 x l2 :
  represents h hd (l1 ++ x :: l2) ->
  prev_ptr h x = default hd (last l1) /\ next_ptr h x = default hd (head l2).
Proof.
  intros [_ [H1 H2]%chain_app].
  split; [by eapply chain_prev|by eapply chain_next].
Qed.

Lemma represents_list_empty h hd l :
  represents h hd l -> list_empty hd h = true <-> l = [].
Proof.
  intros [Hnd Hc]. unfold list_empty. rewrite (chain_next _ _ _ _ Hc), bool_decide_eq_true.
  destruct l as [|x l]; cbn; [done|]. apply NoDup_cons in Hnd as [? _].
  split; [|done]. intros ->. set_solver.
Qed.

(** The walk over a well-formed list ends within [length l + 1] nodes and
    finds what a search of the sequence finds. *)
Lemma list_find_refines fuel test h hd l1 l2 :
  represents h hd (l1 ++ l2) -> (length l2 < fuel)%nat ->
  list_find fuel test hd (default hd (head l2)) h = Some (find test l2).
Proof.
  revert fuel l1. induction l2 as [|x l2 IH]; intros [|fuel] l1 Hr Hf; try (cbn in *; lia).
  - cbn. by rewrite decide_True.
  - cbn [list_find head default from_option id]. unfold id.
    assert (x <> hd) by (destruct Hr as [[? _]%NoDup_cons _]; set_solver).
    rewrite decide_False by done. cbn [find]. destruct (test x) eqn:T; [done|].
    destruct (represents_neighbours _ _ _ _ _ Hr) as [_ ->].
    apply (IH fuel (l1 ++ [x])); [|cbn in *; lia]. rewrite <- app_assoc. exact Hr.
Qed.

Lemma find_insert_before (test : N -> bool) x l :
  match find test l with
  | None => insert_before test x l = l ++ [x]
  | Some y => exists l1 l2, l = l1 ++ y :: l2 /\ insert_before test x l = l1 ++ x :: y :: l2
  end.
Proof.
  induction l as [|z l IH]; cbn; [done|]. destruct (test z).
  - by exists [], l.
  - destruct (find test l) as [y|].
    + destruct IH as (l1 & l2 & -> & ->). by exists (z :: l1), l2.
    + by rewrite IH.
Qed.

(** The pointer-level insertion loop terminates on a well-formed list and
    implements [insert_before]. *)
Lemma sorted_insert_refines fuel test h hd l n :
  represents h hd l -> n ∉ hd :: l -> (length l < fuel)%nat ->
  exists h', sorted_insert fuel test n hd h = Some h' /\ represents h' hd (insert_before test n l).
Proof.
  intros Hr Hn Hf. unfold sorted_insert. rewrite (chain_next _ _ _ _ (proj2 Hr)).
  rewrite (list_find_refines fuel test h hd [] l Hr Hf).
  pose proof (find_insert_before test n l) as Hi. destruct (find test l) as [y|].
  - destruct Hi as (l1 & l2 & -> & ->). eexists. split; [done|].
    destruct (represents_neighbours _ _ _ _ _ Hr) as [-> _].
    by apply (represents_add_node h hd l1 (y :: l2) n).
  - rewrite Hi. eexists. split; [done|]. by apply represents_add_tail.
Qed.

Lemma represents_del_init h hd l x :
  represents h hd l -> x ∈ l ->
  represents (list_del_init_ptr x h) hd (list_del_init x l) /\ self_linked (list_del_init_ptr x h) x.
Proof.
  intros Hr Hx. apply list_elem_of_split in Hx as (l1 & l2 & ->).
  pose proof Hr as [Hnd Hc].
  assert (x ∉ l1 /\ x ∉ l2 /\ x <> hd /\ NoDup (hd :: l1 ++ l2)) as (? & ? & ? & ?).
  { rewrite Permutation_middle in Hnd. rewrite <- Permutation_middle in Hnd.
    rewrite <- Permutation_middle, Permutation_swap in Hnd.
    apply NoDup_cons in Hnd as [? ?]. set_solver. }
  split; [|split; cbn; by simplify_map_eq].
  rewrite list_del_init_middle by done.
  unfold list_del_init_ptr, list_del_entry.
  destruct (represents_neighbours _ _ _ _ _ Hr) as [-> ->]. split; [done|].
  apply chain_frame with (h := list_del_node (default hd (last l1)) (default hd (head l2)) h).
  - intros p Hp. cbn. by rewrite lookup_insert_ne by set_solver.
  - intros p Hp. cbn. by rewrite lookup_insert_ne by set_solver.
  - pose proof Hnd as [? ?]%NoDup_cons. by apply chain_del in Hc; [|set_solver..].
Qed.

(** On a node that is on no list (self-linked) the deletion changes nothing. *)
Lemma del_init_self_linked h x : self_linked h x -> list_del_init_ptr x h = h.
Proof.
  intros [Hn Hp]. unfold list_del_init_ptr, list_del_entry, next_ptr, prev_ptr.
  rewrite Hn, Hp. destruct h as [nx pv]. unfold INIT_LIST_HEAD, list_del_node. cbn in *.
  f_equal; by rewrite !insert_id by (rewrite ?insert_id; done).
Qed.

(** A list is untouched by operations on nodes outside it. *)
Lemma represents_frame_init h hd l x :
  x ∉ hd :: l -> represents h hd l -> represents (INIT_LIST_HEAD x h) hd l.
Proof.
  intros Hx [Hnd Hc]. split; [done|].
  eapply chain_frame; [| |exact Hc]; intros p ?; cbn; by rewrite lookup_insert_ne by set_solver.
Qed.
(** ** Refinement of whole runs

    The nodes of a pool [pool] and a head, all initialised; a run is a sequence
    of the operations below, each on a node of the pool. *)
Inductive list_op :=
| Add (n : N)
| AddTail (n : N)
| Insert (test : N -> bool) (n : N)
| DelInit (n : N).

Definition run_op (fuel : nat) (hd : N) (h : list_store) (o : list_op) : option list_store :=
  match o with
  | Add n => Some (list_add n hd h)
  | AddTail n => Some (list_add_tail n hd h)
  | Insert test n => sorted_insert fuel test n hd h
  | DelInit n => Some (list_del_init_ptr n h)
  end.

Definition spec_op (l : list N) (o : list_op) : list N :=
  match o with
  | Add n => n :: l
  | AddTail n => l ++ [n]
  | Insert test n => insert_before test n l
  | DelInit n => list_del_init n l
  end.

(** A node is linked only while it is on no list; it may be unlinked anytime. *)
Definition op_allowed (pool l : list N) (o : list_op) : Prop :=
  match o with
  | Add n | AddTail n | Insert _ n => n ∈ pool /\ n ∉ l
  | DelInit n => n ∈ pool
  end.

Fixpoint ops_allowed (pool l : list N) (os : list list_op) : Prop :=
  match os with
  | [] => True
  | o :: os => op_allowed pool l o /\ ops_allowed pool (spec_op l o) os
  end.

Fixpoint run_ops (fuel : nat) (hd : N) (os : list list_op) (h : list_store) : option list_store :=
  match os with
  | [] => Some h
  | o :: os => h' ← run_op fuel hd h o; run_ops fuel hd os h'
  end.

Definition init_nodes (ns : list N) (h : list_store) : list_store := foldr INIT_LIST_HEAD h ns.

Definition pool_state (hd : N) (pool : list N) (h : list_store) (l : list N) : Prop :=
  represents h hd l /\ l ⊆ pool /\ forall y, y ∈ pool -> y ∉ l -> self_linked h y.

Lemma add_node_self_linked h n p q y :
  y <> n -> y <> p -> y <> q -> self_linked h y -> self_linked (list_add_node n p q h) y.
Proof. intros ??? [H1 H2]. split; cbn; by rewrite !lookup_insert_ne by congruence. Qed.

Lemma del_init_keeps_self_linked h hd l x y :
  represents h hd l -> x ∈ l -> y ∉ hd :: l -> self_linked h y -> self_linked (list_del_init_ptr x h) y.
Proof.
  intros Hr Hx Hy [H1 H2]. apply list_elem_of_split in Hx as (l1 & l2 & ->).
  unfold list_del_init_ptr, list_del_entry. destruct (represents_neighbours _ _ _ _ _ Hr) as [-> ->].
  pose proof (default_last_elem hd l1) as Ha. pose proof (default_head_elem hd l2) as Hb. revert Ha Hb.
  generalize (default hd (last l1)), (default hd (head l2)). intros a b Ha Hb.
  split; cbn; by rewrite !lookup_insert_ne by set_solver.
Qed.

(** Linking at any position keeps the state of the pool. *)
Lemma pool_add_node hd pool h l1 l2 n :
  hd ∉ pool -> n ∈ pool -> n ∉ l1 ++ l2 -> pool_state hd pool h (l1 ++ l2) ->
  pool_state hd pool (list_add_node n (default hd (last l1)) (default hd (head l2)) h) (l1 ++ n :: l2).
Proof.
  intros Hhd Hn Hni (Hr & Hsub & Hself). split_and!.
  - apply represents_add_node; [|done]. set_solver.
  - set_solver.
  - intros y Hy Hyl. pose proof (default_last_elem hd l1) as Ha. pose proof (default_head_elem hd l2) as Hb.
    revert Ha Hb. generalize (default hd (last l1)), (default hd (head l2)). intros a b Ha Hb.
    apply add_node_self_linked; [set_solver..|]. apply Hself; set_solver.
Qed.

Lemma pool_length hd pool h l : pool_state hd pool h l -> (length l <= length pool)%nat.
Proof.
  intros ([Hnd _] & Hsub & _). apply submseteq_length, NoDup_submseteq; [|done].
  by apply NoDup_cons in Hnd as [_ ?].
Qed.

Lemma run_op_refines hd pool h l o :
  hd ∉ pool -> pool_state hd pool h l -> op_allowed pool l o ->
  exists h', run_op (S (length pool)) hd h o = Some h' /\ pool_state hd pool h' (spec_op l o).
Proof.
  intros Hhd Hp Ho. pose proof (pool_length _ _ _ _ Hp) as Hlen. pose proof Hp as (Hr & Hsub & Hself).
  destruct o as [n|n|test n|n]; cbn [run_op spec_op] in *.
  - destruct Ho. eexists. split; [done|]. unfold list_add. rewrite (chain_next _ _ _ _ (proj2 Hr)).
    by apply (pool_add_node hd pool h [] l n).
  - destruct Ho. eexists. split; [done|]. unfold list_add_tail. rewrite (chain_prev _ _ _ _ (proj2 Hr)).
    apply (pool_add_node hd pool h l [] n); by rewrite ?app_nil_r.
  - destruct Ho as [Hn Hni]. unfold sorted_insert. rewrite (chain_next _ _ _ _ (proj2 Hr)).
    rewrite (list_find_refines _ test h hd [] l Hr) by lia.
    pose proof (find_insert_before test n l) as Hi. destruct (find test l) as [y|].
    + destruct Hi as (l1 & l2 & -> & ->). eexists. split; [done|].
      destruct (represents_neighbours _ _ _ _ _ Hr) as [-> _]. by apply (pool_add_node hd pool h l1 (y :: l2) n).
    + rewrite Hi. eexists. split; [done|]. unfold list_add_tail. rewrite (chain_prev _ _ _ _ (proj2 Hr)).
      apply (pool_add_node hd pool h l [] n); by rewrite ?app_nil_r.
  - eexists. split; [done|]. destruct (decide (n ∈ l)) as [Hin|Hni].
    + destruct (represents_del_init h hd l n Hr Hin) as [Hr' Hs']. split_and!; [done| |].
      * intros x. rewrite list_del_init_elem. set_solver.
      * intros y Hy Hyl. destruct (decide (y = n)) as [->|]; [done|].
        rewrite list_del_init_elem in Hyl. apply (del_init_keeps_self_linked h hd l); [done..| |apply Hself; tauto].
        set_solver.
    + rewrite del_init_self_linked by auto. by rewrite list_del_init_id.
Qed.

Lemma pool_init hd pool h : hd ∉ pool -> pool_state hd pool (init_nodes (hd :: pool) h) [].
Proof.
  intros Hhd. split_and!; [apply represents_init|set_solver|]. intros y Hy _. cbn.
  assert (forall ns, y ∈ ns -> self_linked (init_nodes ns h) y) as Hi.
  { induction ns as [|n ns IH]; [set_solver|]. intros Hy'. destruct (decide (n = y)) as [->|Hne].
    - split; cbn; by simplify_map_eq.
    - destruct IH as [? ?]; [set_solver|]. split; cbn; by simplify_map_eq. }
  apply (Hi (hd :: pool)). set_solver.
Qed.

(** C33: from initialised nodes, every run of [list_add], [list_add_tail], the
    sorted insertion loop and [list_del_init] that links only unlinked nodes
    terminates (one step per node of the pool suffices for each walk) and leaves
    a well-formed circular list of exactly the sequence the abstract operations
    give. *)
Theorem dlist_run_refines hd pool os h :
  hd ∉ pool -> ops_allowed pool [] os ->
  exists h', run_ops (S (length pool)) hd os (init_nodes (hd :: pool) h) = Some h' /\
    represents h' hd (foldl spec_op [] os).
Proof.
  intros Hhd. pose proof (pool_init hd pool h Hhd) as Hp. revert Hp.
  generalize (init_nodes (hd :: pool) h), (@nil N). induction os as [|o os IH]; intros g l Hp Ho.
  - exists g. by destruct Hp.
  - destruct Ho as [Ho Hos]. destruct (run_op_refines hd pool g l o Hhd Hp Ho) as (g' & E & Hp').
    cbn [run_ops foldl]. rewrite E. cbn. by apply IH.
Qed.
End DList.
Arguments list_store N {_ _}.

Definition ex_ops : list (list_op (N := Z)) :=
  [AddTail 3; Insert (fun x => 2 <? x) 2; Add 1; DelInit 3; DelInit 3].

Lemma dlist_run_refines_witness :
  foldl spec_op [] ex_ops = [1; 2] /\
  exists h, run_ops 4 0 ex_ops (init_nodes [0; 1; 2; 3] (mk_store ∅ ∅)) = Some h /\
    represents h 0 (foldl spec_op [] ex_ops).
Proof.
  split; [vm_compute; reflexivity|].
  apply (dlist_run_refines 0 [1; 2; 3] ex_ops (mk_store ∅ ∅)).
  - set_solver.
  - cbn. set_solver.
Defined.
