(* ===== verification/Ticks.v ===== *)
(** * Tick conversions (core/ticks.c)

    [arch_cpu_tickrate()] is the counter frequency in kHz, a 32-bit value; it is
    the parameter [khz] of the conversions. *)
From S2P Require Import Prelude.

Definition us_to_ticks (khz us : Z) : Z := u64 (us * khz) / 1000.

Definition ticks_to_us (khz ticks : Z) : Z :=
  if khz =? 0 then 0
  else
    let ms := ticks / khz in
    let rem_ticks := ticks mod khz in
    let rem_us := u64 (rem_ticks * 1000) / khz in
    if UINT64_MAX / 1000 <? ms then UINT64_MAX
    else
      let us := u64 (ms * 1000) in
      if UINT64_MAX - rem_us <? us then UINT64_MAX
      else u64 (us + rem_us).

Definition ticks_to_ms (khz ticks : Z) : Z := ticks / khz.

(** [TICKS_PER_MS] of include/common/ticks.h *)
Definition TICKS_PER_MS (khz : Z) : Z := us_to_ticks khz 1000.

Lemma us_to_ticks_nowrap khz us :
  in_u32 khz -> in_u32 us -> us_to_ticks khz us = us * khz / 1000.
Proof. unfold in_u32, us_to_ticks. intros. rewrite u64_small; [done|]. unfold in_u64. nia. Qed.

Lemma us_to_ticks_range khz us : in_u32 khz -> in_u32 us -> in_u64 (us_to_ticks khz us).
Proof.
  intros Hk Hu. rewrite us_to_ticks_nowrap by done. unfold in_u32, in_u64 in *.
  assert (0 <= us * khz <= 4294967295 * 4294967295) by nia. mlia.
Qed.

Lemma us_to_ticks_mono khz a b :
  in_u32 khz -> in_u32 a -> in_u32 b -> a <= b -> us_to_ticks khz a <= us_to_ticks khz b.
Proof.
  intros. rewrite !us_to_ticks_nowrap by done. apply Z.div_le_mono; [lia|].
  unfold in_u32 in *. nia.
Qed.

(** Half a millisecond is at least one tick from 2 kHz on. *)
Lemma us_to_ticks_pos khz us :
  in_u32 khz -> in_u32 us -> 1000 <= us * khz -> 0 < us_to_ticks khz us.
Proof. intros. rewrite us_to_ticks_nowrap by done. mlia. Qed.

(** Conversion of a sum never exceeds the sum of the conversions plus one per
    term; the direction used by the frame schedulers is the lower bound. *)
Lemma us_to_ticks_superadd khz a b :
  in_u32 khz -> in_u32 a -> in_u32 b -> in_u32 (a + b) ->
  us_to_ticks khz a + us_to_ticks khz b <= us_to_ticks khz (a + b).
Proof. intros. rewrite !us_to_ticks_nowrap by done. mlia. Qed.

(** The split quotient/remainder computation is the exact conversion
    [ticks * 1000 / khz], saturated at [UINT64_MAX]: no intermediate product
    wraps. *)
Lemma ticks_to_us_exact khz ticks :
  in_u32 khz -> 0 < khz -> in_u64 ticks ->
  ticks_to_us khz ticks = Z.min UINT64_MAX (ticks * 1000 / khz).
Proof.
  unfold in_u32, in_u64, ticks_to_us. intros Hk Hk0 Ht.
  rewrite (proj2 (Z.eqb_neq _ _)) by lia.
  pose proof (Z.mod_pos_bound ticks khz Hk0) as Hr.
  pose proof (Z.div_mod ticks khz ltac:(lia)) as Hdm.
  set (q := ticks / khz) in *. set (r := ticks mod khz) in *.
  assert (0 <= q) by (apply Z.div_pos; lia).
  assert (0 <= r * 1000 / khz < 1000) as Hrus.
  { split; [apply Z.div_pos; nia|apply Z.div_lt_upper_bound; nia]. }
  assert (ticks * 1000 / khz = q * 1000 + r * 1000 / khz) as E.
  { rewrite Hdm. replace ((khz * q + r) * 1000) with (r * 1000 + (q * 1000) * khz) by ring.
    rewrite Z.div_add by lia. lia. }
  rewrite (u64_small (r * 1000)) by (unfold in_u64; nia). rewrite E.
  destruct (Z.ltb_spec (UINT64_MAX / 1000) q).
  - change (UINT64_MAX / 1000) with 18446744073709551 in *. lia.
  - change (UINT64_MAX / 1000) with 18446744073709551 in *.
    rewrite (u64_small (q * 1000)) by (unfold in_u64; lia).
    destruct (Z.ltb_spec (UINT64_MAX - r * 1000 / khz) (q * 1000)); [lia|].
    rewrite u64_small by (unfold in_u64; lia). lia.
Qed.

(** converting to ticks and back loses at most one microsecond on a counter of
    at least 1 MHz, and nothing when the frequency is a whole number of MHz. *)
Theorem ticks_us_roundtrip khz us :
  in_u32 khz -> in_u32 us -> 1000 <= khz ->
  us - 1 <= ticks_to_us khz (us_to_ticks khz us) <= us /\
  (khz mod 1000 = 0 -> ticks_to_us khz (us_to_ticks khz us) = us).
Proof.
  intros Hk Hu Hmin. pose proof (us_to_ticks_range khz us Hk Hu) as Hr.
  rewrite ticks_to_us_exact by (done || lia). rewrite us_to_ticks_nowrap in * by done.
  unfold in_u32, in_u64 in *.
  set (t := us * khz / 1000) in *.
  assert (t * 1000 <= us * khz < t * 1000 + 1000) as Ht by (subst t; mlia).
  assert (us - 1 <= t * 1000 / khz) by (apply Z.div_le_lower_bound; nia).
  assert (t * 1000 / khz <= us) by (apply Z.div_le_upper_bound; nia).
  split; [lia|]. intros Hm.
  apply Z.div_exact in Hm; [|lia].
  assert (t = us * (khz / 1000)) as ->.
  { subst t. rewrite Hm at 1. replace (us * (1000 * (khz / 1000))) with ((us * (khz / 1000)) * 1000) by ring.
    by rewrite Z.div_mul by lia. }
  replace (us * (khz / 1000) * 1000) with (us * khz) in * by (rewrite Hm at 1; ring).
  rewrite Z.div_mul by lia. lia.
Qed.

Lemma ticks_us_roundtrip_witness :
  4000 <= ticks_to_us 62500 (us_to_ticks 62500 4001) <= 4001 /\
  ticks_to_us 62500 (us_to_ticks 62500 4001) = 4000.
Proof.
  split; [|vm_compute; reflexivity].
  exact (proj1 (ticks_us_roundtrip 62500 4001 ltac:(unfold in_u32; lia) ltac:(unfold in_u32; lia) ltac:(lia))).
Defined.
