(* ===== verification/Timer.v ===== *)
(** * Software timers (core/timer.c)

    One timer list per pCPU, sorted by timeout; the architecture timer is
    programmed with the earliest deadline of the local list.  The state of one
    pCPU is [per_cpu_timers]: the [hv_timer] objects, the list, and the last
    count written to the hardware.  A timer is started when it is on the list. *)
From S2P Require Import Prelude Ticks.

Definition MAX_TIMER_ACTIONS : nat := 32.
Definition MIN_TIMER_PERIOD_US : Z := 500.

Inductive tick_mode := TICK_MODE_ONESHOT | TICK_MODE_PERIODIC.

(** [func] is NULL or some callback; what the callback does is the parameter
    [cb] of the softirq. *)
Record hv_timer := mk_timer {
  mode : tick_mode;
  timeout : Z;
  period_in_cycle : Z;
  func : bool }.
#[export] Instance eta_hv_timer : Eta hv_timer :=
  fun t => mk_timer (mode t) (timeout t) (period_in_cycle t) (func t).
#[export] Instance hv_timer_inhabited : Inhabited hv_timer :=
  populate (mk_timer TICK_MODE_ONESHOT 0 0 false).

Record per_cpu_timers := mk_timers {
  timers : gmap Z hv_timer;
  timer_list : list Z;
  hw_count : option Z }.
#[export] Instance eta_per_cpu_timers : Eta per_cpu_timers :=
  fun s => mk_timers (timers s) (timer_list s) (hw_count s).

Definition timer_of (s : per_cpu_timers) (t : Z) : hv_timer := timers s !!! t.
Definition set_timer (t : Z) (x : hv_timer) (s : per_cpu_timers) : per_cpu_timers :=
  s <| timers := <[t := x]> (timers s) |>.

(** (expired, ticks left) *)
Definition timer_expired (x : hv_timer) (now : Z) : bool * Z :=
  if negb (timeout x =? 0) && (now <? timeout x) then (false, timeout x - now) else (true, 0).

Definition timer_is_started (s : per_cpu_timers) (t : Z) : bool :=
  bool_decide (t ∈ timer_list s).

Definition set_mode (timeout0 period : Z) (x : hv_timer) : hv_timer :=
  if 0 <? period
  then x <| timeout := timeout0 |> <| mode := TICK_MODE_PERIODIC |> <| period_in_cycle := period |>
  else x <| timeout := timeout0 |> <| mode := TICK_MODE_ONESHOT |> <| period_in_cycle := 0 |>.

Definition initialize_timer (has_func : bool) (timeout0 period : Z) : hv_timer :=
  set_mode timeout0 period (mk_timer TICK_MODE_ONESHOT 0 0 has_func).

Definition update_timer (t timeout0 period : Z) (s : per_cpu_timers) : per_cpu_timers :=
  set_timer t (set_mode timeout0 period (timer_of s t)) s.

Definition advance_periodic_timer (x : hv_timer) (now : Z) : hv_timer :=
  let next := u64 (timeout x + period_in_cycle x) in
  let next :=
    if next <=? now then
      let missed := u64 ((now - next) / period_in_cycle x + 1) in
      let next := u64 (next + missed * period_in_cycle x) in
      if next <=? now then u64 (now + period_in_cycle x) else next
    else next in
  x <| timeout := next |>.

Definition update_architecture_timer (s : per_cpu_timers) : per_cpu_timers :=
  match timer_list s with
  | [] => s
  | t :: _ => s <| hw_count := Some (timeout (timer_of s t)) |>
  end.

(** Walk past the timers that expire strictly earlier; true when the timer
    became the list head. *)
Definition local_add_timer (t : Z) (s : per_cpu_timers) : bool * per_cpu_timers :=
  let tsc := timeout (timer_of s t) in
  let later x := negb (timeout (timer_of s x) <? tsc) in
  (match timer_list s with [] => true | x :: _ => later x end,
   s <| timer_list := insert_before later t (timer_list s) |>).

Definition limit_period (khz : Z) (x : hv_timer) : hv_timer :=
  match mode x with
  | TICK_MODE_PERIODIC =>
      x <| period_in_cycle := Z.max (period_in_cycle x) (us_to_ticks khz MIN_TIMER_PERIOD_US) |>
  | TICK_MODE_ONESHOT => x
  end.

Definition add_timer (khz t : Z) (s : per_cpu_timers) : outcome (Z * per_cpu_timers) :=
  let x := timer_of s t in
  if negb (func x) || (timeout x =? 0) then Ret (- EINVAL, s)
  else
    _ ← ASSERT (negb (timer_is_started s t)) "add timer again!";
    let s := set_timer t (limit_period khz x) s in
    let '(at_head, s) := local_add_timer t s in
    Ret (0, if at_head then update_architecture_timer s else s).

Definition del_timer (t : Z) (s : per_cpu_timers) : per_cpu_timers :=
  if timer_is_started s t
  then s <| timer_list := list_del_init t (timer_list s) |> else s.

Section Softirq.
(** What the callback of a timer does to the local timers. *)
Variable cb : Z -> per_cpu_timers -> per_cpu_timers.

Definition run_timer (t : Z) (s : per_cpu_timers) : per_cpu_timers :=
  if func (timer_of s t) && negb (timeout (timer_of s t) =? 0) then cb t s else s.

(** [pos->next]: the following timer, [None] at the list head; the node of a
    timer that is on no list points to itself. *)
Definition next_node (t : Z) (s : per_cpu_timers) : option Z :=
  if timer_is_started s t then next_of t (timer_list s) else Some t.

(** The expiry of one timer: unlink, call back, then rearm or stop unless the
    callback rearmed it.  Returns the counter value the loop goes on with. *)
Definition expire_timer (t : Z) (now reread : Z) (s : per_cpu_timers) : Z * per_cpu_timers :=
  let s := del_timer t s in
  let s := run_timer t s in
  if timer_is_started s t then (now, s)
  else match mode (timer_of s t) with
       | TICK_MODE_PERIODIC =>
           let s := set_timer t (advance_periodic_timer (timer_of s t) reread) s in
           (reread, snd (local_add_timer t s))
       | TICK_MODE_ONESHOT => (now, set_timer t ((timer_of s t) <| timeout := 0 |>) s)
       end.

(** [list_for_each_safe] over the list; [tries] counts down from
    [MAX_TIMER_ACTIONS] and the iteration that brings it to 0 breaks. *)
Fixpoint timer_softirq_loop (tries : nat) (pos n : option Z) (now : Z) (clk : clock)
    (s : per_cpu_timers) : per_cpu_timers :=
  match tries, pos with
  | O, _ | _, None => s
  | S tries', Some t =>
      if (timeout (timer_of s t) <=? now) && negb (Nat.eqb tries' 0) then
        let '(now, s) := expire_timer t now (clk 0%nat) s in
        timer_softirq_loop tries' n (n ≫= fun t' => next_node t' s) now (fun i => clk (S i)) s
      else s
  end.

Definition timer_softirq (clk : clock) (s : per_cpu_timers) : per_cpu_timers :=
  let pos := head (timer_list s) in
  update_architecture_timer
    (timer_softirq_loop MAX_TIMER_ACTIONS pos (pos ≫= fun t => next_node t s)
       (clk 0%nat) (fun i => clk (S i)) s).
End Softirq.

(** ** Invariants *)

(** The list has no duplicates and is sorted by timeout. *)
Definition timers_sorted (s : per_cpu_timers) : Prop :=
  NoDup (timer_list s) /\
  StronglySorted (key_le (fun t => timeout (timer_of s t))) (timer_list s).

(** The architecture timer is programmed no later than the earliest deadline. *)
Definition hw_in_time (s : per_cpu_timers) : Prop :=
  match timer_list s with
  | [] => True
  | t :: _ => exists c, hw_count s = Some c /\ c <= timeout (timer_of s t)
  end.

Definition timers_ok (s : per_cpu_timers) : Prop := timers_sorted s /\ hw_in_time s.

Lemma timer_of_set s t x u :
  timer_of (set_timer t x s) u = if decide (t = u) then x else timer_of s u.
Proof.
  unfold timer_of, set_timer. cbn. case_decide as E.
  - subst. apply lookup_total_insert_eq.
  - by apply lookup_total_insert_ne.
Qed.

(** Writing a timer that is on no list keeps the list sorted. *)
Lemma set_timer_sorted t x s :
  t ∉ timer_list s -> timers_sorted s -> timers_sorted (set_timer t x s).
Proof.
  intros Ht [Hn Hs]. split; [done|]. eapply StronglySorted_ext; [|exact Hs].
  cbn. intros a b Ha Hb. unfold key_le. rewrite !timer_of_set.
  by rewrite !decide_False by congruence.
Qed.

Lemma set_timer_in_time t x s :
  t ∉ timer_list s -> hw_in_time s -> hw_in_time (set_timer t x s).
Proof.
  unfold hw_in_time. cbn. destruct (timer_list s) as [|y l]; [done|].
  intros Ht (c & Hc & Hle). exists c. split; [done|].
  rewrite timer_of_set, decide_False by set_solver. done.
Qed.

Lemma local_add_sorted t s :
  t ∉ timer_list s -> timers_sorted s -> timers_sorted (snd (local_add_timer t s)).
Proof.
  intros Ht [Hn Hs]. split; cbn.
  - by apply insert_before_NoDup.
  - apply (insert_before_sorted _ _ _ _); [..|exact Hs]; unfold key_le, timer_of; cbn;
      intros y _; zb; cbn; intros [=]; lia.
Qed.

Lemma del_timer_sorted t s : timers_sorted s -> timers_sorted (del_timer t s).
Proof.
  unfold del_timer. intros [Hn Hs]. destruct (timer_is_started s t); [|done].
  split; cbn; eauto with beau.
Qed.

Lemma del_timer_stopped t s : t ∉ timer_list (del_timer t s).
Proof.
  unfold del_timer, timer_is_started. case_bool_decide; [|done].
  cbn. rewrite list_del_init_elem. tauto.
Qed.

Lemma update_architecture_timer_ok s :
  timers_sorted s -> timers_ok (update_architecture_timer s).
Proof.
  unfold update_architecture_timer. intros Hs. destruct (timer_list s) as [|t l] eqn:E.
  - split; [done|]. unfold hw_in_time. by rewrite E.
  - split; [done|]. unfold hw_in_time. cbn. rewrite E. eexists. split; [done|].
    unfold timer_of. cbn. lia.
Qed.

(** Adding a timer keeps the list sorted and the hardware in time: it is
    reprogrammed exactly when the new timer became the head. *)
Lemma add_timer_ok khz t s s' r :
  add_timer khz t s = Ret (r, s') -> timers_ok s -> timers_ok s'.
Proof.
  unfold add_timer. destruct (_ || _); [by intros [= <- <-]|].
  unfold timer_is_started. case_bool_decide as Ht; [by cbn|]. cbn [ASSERT negb mbind outcome_bind].
  destruct (local_add_timer t _) as [h s1] eqn:E. intros [= <- <-] [Hs Hw].
  set (s0 := set_timer t (limit_period khz (timer_of s t)) s) in *.
  assert (timers_sorted s0) as Hs0 by by apply set_timer_sorted.
  assert (timers_sorted s1) as Hs1.
  { replace s1 with (snd (local_add_timer t s0)) by by rewrite E. by apply local_add_sorted. }
  destruct h; [by apply update_architecture_timer_ok|]. split; [done|].
  assert (hw_in_time s0) as Hw0 by by apply set_timer_in_time.
  unfold local_add_timer in E. injection E as Eh <-. unfold hw_in_time in *. cbn.
  change (timer_list s0) with (timer_list s) in *.
  destruct (timer_list s) as [|y l]; [done|]. cbn. by rewrite Eh.
Qed.

Lemma del_timer_ok t s : timers_ok s -> timers_ok (del_timer t s).
Proof.
  intros [Hs Hw]. split; [by apply del_timer_sorted|].
  unfold del_timer, timer_is_started. case_bool_decide as Ht; [|done].
  unfold hw_in_time in *. cbn. destruct (timer_list s) as [|y l] eqn:E; [done|].
  destruct Hw as (c & Hc & Hle). destruct Hs as [_ Hs]. rewrite E in Hs.
  destruct (list_del_init t (y :: l)) as [|z l'] eqn:El; [done|].
  exists c. split; [done|].
  assert (z ∈ y :: l) as Hz.
  { apply (list_del_init_elem t (y :: l) z). rewrite El. set_solver. }
  pose proof (sorted_head_le _ _ _ _ Hs Hz) as Hk. unfold key_le, timer_of in *. cbn in *. lia.
Qed.

(** a periodic timer is rearmed strictly in the future and, as long as the
    64-bit counter does not wrap, on the grid of its old timeout. *)
Theorem advance_periodic_future x now :
  in_u64 now -> 0 <= timeout x -> 0 < period_in_cycle x ->
  timeout x + period_in_cycle x + now + period_in_cycle x <= UINT64_MAX ->
  let x' := advance_periodic_timer x now in
  now < timeout x' /\ timeout x < timeout x' /\
  (timeout x' - timeout x) mod period_in_cycle x = 0 /\
  timeout x' <= Z.max (now + period_in_cycle x) (timeout x + period_in_cycle x).
Proof.
  unfold in_u64, advance_periodic_timer. intros Hn Ht Hp Hb. cbn.
  set (p := period_in_cycle x) in *. set (t := timeout x) in *.
  rewrite (u64_small (t + p)) by (unfold in_u64; lia).
  destruct (Z.leb_spec (t + p) now) as [Hle|Hgt].
  - set (m := (now - (t + p)) / p + 1).
    assert (0 < m /\ now < t + p + m * p <= now + p) as [Hm Hb'].
    { subst m. pose proof (Z.div_mod (now - (t + p)) p ltac:(lia)).
      pose proof (Z.mod_pos_bound (now - (t + p)) p Hp).
      assert (0 <= (now - (t + p)) / p) by (apply Z.div_pos; lia). nia. }
    assert (m <= now) by nia.
    rewrite (u64_small m) by (unfold in_u64; lia).
    rewrite (u64_small (t + p + m * p)) by (unfold in_u64; lia).
    destruct (Z.leb_spec (t + p + m * p) now); [lia|]. repeat split; try lia.
    replace (t + p + m * p - t) with ((m + 1) * p) by ring. by rewrite Z.mod_mul by lia.
  - repeat split; try lia. replace (t + p - t) with (1 * p) by ring. by rewrite Z.mod_mul by lia.
Qed.

Lemma advance_periodic_future_witness :
  let x' := advance_periodic_timer (mk_timer TICK_MODE_PERIODIC 100 1000 true) 5500 in
  timeout x' = 6100 /\ (timeout x' - 100) mod 1000 = 0.
Proof.
  cbn zeta. split; [vm_compute; reflexivity|].
  apply (advance_periodic_future (mk_timer TICK_MODE_PERIODIC 100 1000 true) 5500); unfold in_u64; cbn; lia.
Defined.

(** Callbacks see the local timers through [add_timer], [del_timer] and
    [update_timer] on stopped timers, so they keep the list sorted; under that
    contract the softirq keeps it sorted through every removal, rearming and
    callback, and leaves the hardware programmed for the new head. *)
Section SoftirqInvariant.
Variable cb : Z -> per_cpu_timers -> per_cpu_timers.
Hypothesis cb_sorted : forall t s, timers_sorted s -> timers_sorted (cb t s).

Lemma expire_timer_sorted t now reread s :
  timers_sorted s -> timers_sorted (snd (expire_timer cb t now reread s)).
Proof.
  intros Hs. unfold expire_timer.
  assert (timers_sorted (run_timer cb t (del_timer t s))) as H1.
  { unfold run_timer. destruct (_ && _); [apply cb_sorted|]; by apply del_timer_sorted. }
  set (s1 := run_timer cb t (del_timer t s)) in *.
  unfold timer_is_started. case_bool_decide as Ht; [done|].
  destruct (mode (timer_of s1 t)); cbn [snd].
  - by apply set_timer_sorted.
  - apply local_add_sorted; [done|]. by apply set_timer_sorted.
Qed.

Lemma timer_softirq_loop_sorted tries pos n now clk s :
  timers_sorted s -> timers_sorted (timer_softirq_loop cb tries pos n now clk s).
Proof.
  revert pos n now clk s. induction tries as [|tries IH]; intros pos n now clk s Hs; [by destruct pos|].
  destruct pos as [t|]; [|done]. cbn. destruct (_ && _); [|done].
  pose proof (expire_timer_sorted t now (clk 0%nat) s Hs) as H1.
  destruct (expire_timer cb t now (clk 0%nat) s) as [now' s']. by apply IH.
Qed.

Lemma timer_softirq_ok clk s : timers_sorted s -> timers_ok (timer_softirq cb clk s).
Proof.
  intros Hs. unfold timer_softirq. apply update_architecture_timer_ok.
  by apply timer_softirq_loop_sorted.
Qed.
End SoftirqInvariant.

(** ** Runs of the timer API

    [timer_init] leaves an empty list.  Timers are initialised, updated, added
    and removed by code of the pCPU and by callbacks in the softirq; a timer that
    is on the list is neither initialised nor updated. *)
Definition init_percpu_timer (s : per_cpu_timers) : per_cpu_timers := s <| timer_list := [] |>.

Inductive timer_op (khz : Z) (s : per_cpu_timers) : per_cpu_timers -> Prop :=
| op_initialize t f timeout0 period :
    t ∉ timer_list s -> timer_op khz s (set_timer t (initialize_timer f timeout0 period) s)
| op_update t timeout0 period : t ∉ timer_list s -> timer_op khz s (update_timer t timeout0 period s)
| op_add t r s' : add_timer khz t s = Ret (r, s') -> timer_op khz s s'
| op_del t : timer_op khz s (del_timer t s).

Inductive timer_event (khz : Z) (cb : Z -> per_cpu_timers -> per_cpu_timers) (s : per_cpu_timers)
    : per_cpu_timers -> Prop :=
| ev_op s' : timer_op khz s s' -> timer_event khz cb s s'
| ev_softirq clk : timer_event khz cb s (timer_softirq cb clk s).

Lemma timer_op_ok khz s s' : timer_op khz s s' -> timers_ok s -> timers_ok s'.
Proof.
  intros [t f a p Ht|t a p Ht|t r s1 E|t] [Hs Hw].
  - split; [by apply set_timer_sorted|by apply set_timer_in_time].
  - split; [by apply set_timer_sorted|by apply set_timer_in_time].
  - by eapply add_timer_ok.
  - by apply del_timer_ok.
Qed.

(** Sortedness alone, which holds while the softirq has not yet reprogrammed
    the hardware. *)
Lemma timer_op_sorted khz s s' : timer_op khz s s' -> timers_sorted s -> timers_sorted s'.
Proof.
  intros [t f a p Ht|t a p Ht|t r s1 E|t] Hs; [by apply set_timer_sorted..| |by apply del_timer_sorted].
  unfold add_timer in E. destruct (_ || _); [by injection E as <- <-|].
  unfold timer_is_started in E. case_bool_decide as Ht; [done|]. cbn [ASSERT negb mbind outcome_bind] in E.
  pose proof (local_add_sorted t (set_timer t (limit_period khz (timer_of s t)) s) Ht
    (set_timer_sorted t _ s Ht Hs)) as H1.
  destruct (local_add_timer t _) as [h s2]. injection E as <- <-. cbn in H1.
  destruct h; [|done]. by apply update_architecture_timer_ok.
Qed.

Lemma timers_ok_all s t : timers_ok s -> t ∈ timer_list s ->
  exists c, hw_count s = Some c /\ c <= timeout (timer_of s t).
Proof.
  intros [[_ Hs] Hw] Ht. unfold hw_in_time in Hw. destruct (timer_list s) as [|y l]; [by apply elem_of_nil in Ht|].
  destruct Hw as (c & Hc & Hle). exists c. split; [done|].
  pose proof (sorted_head_le _ _ _ _ Hs Ht) as Hk. unfold key_le in Hk. lia.
Qed.


(** Timer 1 is periodic, its callback rearms the one-shot timer 2. *)
Definition ex_cb (t : Z) (s : per_cpu_timers) : per_cpu_timers :=
  if t =? 1 then update_timer 2 5000 0 (del_timer 2 s) else s.
Definition ex_timers : per_cpu_timers :=
  mk_timers (<[1 := initialize_timer true 100 1000]> (<[2 := initialize_timer true 50 0]> ∅)) [] None.
Definition ex_run : per_cpu_timers :=
  match add_timer 1000 1 ex_timers with
  | Ret (_, s) => timer_softirq ex_cb (fun i => 200 + Z.of_nat i) s | _ => ex_timers end.


(** The softirq keeps the successor it saved before the callback: when a callback
    removes exactly that timer, the removed timer still fires, and a periodic one
    is put back on the list. *)
Definition ex_cancel (t : Z) (s : per_cpu_timers) : per_cpu_timers := if t =? 1 then del_timer 2 s else s.
Definition ex_two : per_cpu_timers :=
  mk_timers (<[1 := initialize_timer true 100 0]> (<[2 := initialize_timer true 110 1000]> ∅)) [1; 2] (Some 100).

Theorem softirq_revives_cancelled :
  timers_ok ex_two /\ 2 ∉ timer_list (ex_cancel 1 ex_two) /\
  timer_list (timer_softirq ex_cancel (fun i => 200) ex_two) = [2].
Proof.
  split_and!; [|vm_compute; set_solver|by vm_compute].
  split; [split; [by apply (bool_decide_unpack _)|]|by exists 100].
  repeat constructor; by vm_compute.
Qed.

(** ** A scheduler's own timer

    A policy owns one timer and drives it with the operations above.  Its view
    of the timer is the object and whether it is started; the operations on
    that view are the projections of the operations on the list. *)
Record timer_handle := mk_handle { th_timer : hv_timer; th_started : bool }.
#[export] Instance eta_timer_handle : Eta timer_handle :=
  fun h => mk_handle (th_timer h) (th_started h).

Definition handle_of (t : Z) (s : per_cpu_timers) : timer_handle :=
  mk_handle (timer_of s t) (timer_is_started s t).

Definition handle_init (timeout0 period : Z) : timer_handle :=
  mk_handle (initialize_timer true timeout0 period) false.
Definition handle_update (timeout0 period : Z) (h : timer_handle) : timer_handle :=
  h <| th_timer := set_mode timeout0 period (th_timer h) |>.
Definition handle_del (h : timer_handle) : timer_handle := h <| th_started := false |>.
Definition handle_add (khz : Z) (h : timer_handle) : outcome (Z * timer_handle) :=
  if negb (func (th_timer h)) || (timeout (th_timer h) =? 0) then Ret (- EINVAL, h)
  else
    _ ← ASSERT (negb (th_started h)) "add timer again!";
    Ret (0, mk_handle (limit_period khz (th_timer h)) true).

Lemma handle_update_refines t timeout0 period s :
  handle_of t (update_timer t timeout0 period s) = handle_update timeout0 period (handle_of t s).
Proof.
  unfold handle_of, handle_update, update_timer, timer_is_started.
  cbn. by rewrite timer_of_set, decide_True.
Qed.

Lemma handle_del_refines t s : handle_of t (del_timer t s) = handle_del (handle_of t s).
Proof.
  unfold handle_of, handle_del. cbn. f_equal.
  - unfold del_timer. by destruct (timer_is_started s t).
  - unfold timer_is_started at 1. by rewrite bool_decide_eq_false_2 by apply del_timer_stopped.
Qed.

Lemma handle_add_refines khz t s :
  (fun r => (fst r, handle_of t (snd r))) <$> add_timer khz t s = handle_add khz (handle_of t s).
Proof.
  unfold add_timer, handle_add. cbn [th_timer th_started handle_of].
  destruct (_ || _); [done|]. destruct (timer_is_started s t) eqn:St; [done|]. cbn.
  f_equal. f_equal. unfold handle_of. f_equal.
  - transitivity (timer_of (set_timer t (limit_period khz (timer_of s t)) s) t).
    + destruct (match timer_list s with [] => true | x :: _ => _ end); [|done].
      unfold update_architecture_timer. by destruct (timer_list _).
    + by rewrite timer_of_set, decide_True.
  - unfold timer_is_started. apply bool_decide_eq_true. cbn.
    destruct (match timer_list s with [] => true | x :: _ => _ end);
      unfold update_architecture_timer; cbn; [destruct (insert_before _ _ _) eqn:E; cbn|];
      try rewrite <- E; apply insert_before_elem || idtac; tauto.
Qed.
