(* ===== verification/SchedTypes.v ===== *)
(** * Scheduler data and the policy interface (include/common/schedule.h)

    The structures the scheduler framework and the policies share, the view a
    policy has of the framework while it runs under the pCPU's scheduler lock,
    and [sched_ops], the model of [struct acrn_scheduler]. *)
From S2P Require Import Prelude.

(** ** Identities *)

(** A pointer to a [thread_object]: the idle object embedded in a pCPU's
    [per_cpu_region], or any other thread. *)
Inductive tid := Idle (pcpu : Z) | Thread (n : Z).
#[export] Instance tid_eq_dec : EqDecision tid.
Proof. solve_decision. Defined.
#[export] Instance tid_countable : Countable tid.
Proof.
  refine (inj_countable' (fun t => match t with Idle p => inl p | Thread n => inr n end)
    (fun s => match s with inl p => Idle p | inr n => Thread n end) _).
  by intros [].
Defined.

(** Build-time constants (Bconfig of the qemu platform, asm/vconfig.h). *)
Definition MAX_PCPU_NUM : Z := 8.
Definition CONFIG_MAX_VM_NUM : Z := 16.
Definition MAX_VCPUS_PER_VM : Z := MAX_PCPU_NUM.
Definition NEED_RESCHEDULE : Z := 1.

(** ** Configuration *)
Inductive sched_policy_id :=
| SCHED_POLICY_NONE | SCHED_POLICY_NOOP | SCHED_POLICY_IORR | SCHED_POLICY_BVT
| SCHED_POLICY_RTDS | SCHED_POLICY_CBS | SCHED_POLICY_PRIO | SCHED_POLICY_ARINC653
| SCHED_POLICY_BFP.
#[export] Instance sched_policy_id_eq_dec : EqDecision sched_policy_id.
Proof. solve_decision. Defined.

Definition PRIO_IDLE : Z := 0.

Record sched_params := mk_params {
  prio : Z;
  bvt_weight : Z;
  bvt_warp_value : Z;
  bvt_warp_limit : Z;
  bvt_unwarp_period : Z;
  cbs_period_us : Z;
  cbs_budget_us : Z;
  bfp_period_us : Z;
  bfp_budget_us : Z }.

Record sched_cpupool_config := mk_pool {
  pool_configured : bool;
  has_pcpu_mask : bool;
  pcpu_mask : Z;
  policy : sched_policy_id;
  period_us : Z;
  budget_us : Z;
  ai_assist : bool;
  ai_min_budget_us : Z;
  ai_max_budget_us : Z;
  ai_max_step_us : Z;
  ai_min_update_ms : Z }.

Record sched_platform_config := mk_plat_config {
  configured : bool;
  strict_placement : bool;
  exclusive : sched_cpupool_config;
  shared : sched_cpupool_config }.

(** The fields of [struct acrn_vm_config] the schedulers read. *)
Record acrn_vm_config := mk_vm_config {
  name_empty : bool;             (* name[0] == 0 *)
  cpu_affinity : Z;
  cpu_affinity_num : Z;
  cpu_affinity_order : list Z;
  vm_sched_params : sched_params }.

(** What the platform provides: counter frequency, pCPU count, DTS scheduler
    configuration and the static VM configurations (indexed by VM id). *)
Record platform := mk_platform {
  tickrate : Z;
  pcpu_nums : Z;
  sched_config : sched_platform_config;
  vm_configs : list acrn_vm_config }.

Definition AFFINITY_CPU (n : Z) : Z := u64 (Z.shiftl 1 n).

Definition sched_cpupool_contains (pool : sched_cpupool_config) (pcpu : Z) : bool :=
  pool_configured pool && has_pcpu_mask pool &&
  negb (Z.land (pcpu_mask pool) (AFFINITY_CPU pcpu) =? 0).

Definition sched_get_pcpu_pool_config (cfg : sched_platform_config) (pcpu : Z)
    : option sched_cpupool_config :=
  if configured cfg then
    if sched_cpupool_contains (exclusive cfg) pcpu then Some (exclusive cfg)
    else if sched_cpupool_contains (shared cfg) pcpu then Some (shared cfg)
    else None
  else None.

(** [cpu_affinity_order[0 .. num-1]] contains the pCPU, or the bitmap does when
    no order is given (cbs.c, bfp.c and smart.c share this test). *)
Definition vm_affinity_uses_pcpu (cfg : acrn_vm_config) (pcpu : Z) : bool :=
  if negb (cpu_affinity_num cfg =? 0)
  then existsb (Z.eqb pcpu) (take (Z.to_nat (cpu_affinity_num cfg)) (cpu_affinity_order cfg))
  else negb (Z.land (cpu_affinity cfg) (AFFINITY_CPU pcpu) =? 0).

(** ** Threads *)
Inductive thread_object_state :=
| THREAD_STS_RUNNING | THREAD_STS_RUNNABLE | THREAD_STS_BLOCKED.
#[export] Instance thread_object_state_eq_dec : EqDecision thread_object_state.
Proof. solve_decision. Defined.

Record sched_latency_stats := mk_latency {
  switches : Z;
  last_wait_ticks : Z;
  max_wait_ticks : Z;
  state_since : Z;
  runnable_since : Z;
  runtime_ticks : Z;
  wait_hist : list Z }.
#[export] Instance eta_latency : Eta sched_latency_stats := fun l =>
  mk_latency (switches l) (last_wait_ticks l) (max_wait_ticks l) (state_since l)
    (runnable_since l) (runtime_ticks l) (wait_hist l).

(** [memset(&obj->latency, 0, ...)] *)
Definition latency_zero : sched_latency_stats := mk_latency 0 0 0 0 0 0 (replicate 8 0).

(** [struct thread_object] without the host stack fields and the policy-private
    [data], which the policies keep.  [sched_ctl] is NULL or the control of
    [pcpu_id]; [switch_out]/[switch_in] are NULL or the vCPU context hooks. *)
Record thread_object := mk_thread {
  name : list Z;
  pcpu_id : Z;
  sched_ctl : bool;
  status : thread_object_state;
  be_blocking : bool;
  is_vcpu : bool;
  priority_pending : bool;
  freeze_epoch : Z;
  deferred_wake : bool;
  vm_id : Z;
  vcpu_id : Z;
  ptrauth_return_authenticated : bool;
  switch_out : bool;
  switch_in : bool;
  latency : sched_latency_stats }.
#[export] Instance eta_thread : Eta thread_object := fun t =>
  mk_thread (name t) (pcpu_id t) (sched_ctl t) (status t) (be_blocking t) (is_vcpu t)
    (priority_pending t) (freeze_epoch t) (deferred_wake t) (vm_id t) (vcpu_id t)
    (ptrauth_return_authenticated t) (switch_out t) (switch_in t) (latency t).
#[export] Instance thread_inhabited : Inhabited thread_object :=
  populate (mk_thread [] 0 false THREAD_STS_BLOCKED false false false 0 false 0 0 false
    false false latency_zero).

(** ** The view of a policy

    Every policy operation runs with the scheduler lock of its pCPU held.  It
    reads the framework's state and changes its own only. *)
Record sched_view := mk_view {
  v_plat : platform;
  v_pcpu : Z;                        (* ctl->pcpu_id *)
  v_cpu : Z;                         (* get_pcpu_id() of the caller *)
  v_curr : option tid;               (* ctl->curr_obj *)
  v_threads : gmap tid thread_object }.

Definition thr (v : sched_view) (t : tid) : thread_object := v_threads v !!! t.
Definition v_khz (v : sched_view) : Z := tickrate (v_plat v).
Definition v_pool (v : sched_view) : option sched_cpupool_config :=
  sched_get_pcpu_pool_config (sched_config (v_plat v)) (v_pcpu v).

(** [obj == &per_cpu(idle, obj->pcpu_id)] *)
Definition is_idle_thread (v : sched_view) (t : tid) : bool :=
  bool_decide (t = Idle (pcpu_id (thr v t))).

(** [ctl->curr_obj == obj] *)
Definition is_current (v : sched_view) (t : tid) : bool := bool_decide (v_curr v = Some t).

(** The test rtds.c, cbs.c and bfp.c share: current and not about to block, or
    runnable. *)
Definition is_active (v : sched_view) (t : tid) : bool :=
  negb (is_idle_thread v t) &&
  ((is_current v t && negb (be_blocking (thr v t))) ||
   bool_decide (status (thr v t) = THREAD_STS_RUNNABLE)).

(** A thread that may be given the pCPU: bound to it, not its idle thread,
    neither blocked nor about to block. *)
Definition awake (v : sched_view) (t : tid) : Prop :=
  pcpu_id (thr v t) = v_pcpu v /\ t <> Idle (v_pcpu v) /\
  status (thr v t) <> THREAD_STS_BLOCKED /\ be_blocking (thr v t) = false.

(** ** The operations of a policy ([struct acrn_scheduler])

    A NULL hook is [None].  [tick] is the callback [init] registers with the
    policy's timer; it reports whether it raised a reschedule request. *)
Record sched_ops (priv : Type) := mk_ops {
  op_init : sched_view -> clock -> priv -> outcome (Z * priv);
  op_init_data : option (sched_view -> clock -> tid -> sched_params -> priv -> outcome priv);
  op_pick_next : option (sched_view -> clock -> priv -> outcome (tid * priv));
  op_sleep : option (sched_view -> clock -> tid -> priv -> outcome priv);
  op_wake : option (sched_view -> clock -> tid -> priv -> outcome priv);
  op_prioritize : option (sched_view -> clock -> tid -> priv -> outcome priv);
  op_deinit_data : option (sched_view -> clock -> tid -> priv -> outcome priv);
  op_deinit : option (sched_view -> clock -> priv -> outcome priv);
  op_suspend : option (sched_view -> clock -> priv -> outcome priv);
  op_resume : option (sched_view -> clock -> priv -> outcome (bool * priv));
  op_tick : option (sched_view -> clock -> priv -> outcome (bool * priv)) }.
Arguments mk_ops {priv} _ _ _ _ _ _ _ _ _ _ _.
Arguments op_init {priv} _.
Arguments op_init_data {priv} _.
Arguments op_pick_next {priv} _.
Arguments op_sleep {priv} _.
Arguments op_wake {priv} _.
Arguments op_prioritize {priv} _.
Arguments op_deinit_data {priv} _.
Arguments op_deinit {priv} _.
Arguments op_suspend {priv} _.
Arguments op_resume {priv} _.
Arguments op_tick {priv} _.

(** ** What a policy promises

    [pol_inv p]: the private state is well formed; [init] establishes it.
    [queued p t]: the policy may hand out [t] without looking at the thread
    again.  The framework relies on a policy never inventing runnable threads:
    a thread enters the policy's queues through [wake], through [prioritize]
    (called on awake threads only), or because it is the current thread and
    active; [sleep] takes it out; and [pick_next] returns idle, a queued thread,
    or a thread it has just checked to be awake.  In return the framework calls
    [init] while nothing is queued and [init_data] on threads that are not. *)
Definition active_current (v : sched_view) (x : tid) : Prop :=
  v_curr v = Some x /\ is_active v x = true.

Class SchedPolicy {priv} (ops : sched_ops priv) := {
  pol_inv : priv -> Prop;
  queued : priv -> tid -> Prop;
  init_sound : forall v clk p r p', (forall x, ~ queued p x) -> op_init ops v clk p = Ret (r, p') ->
    pol_inv p' /\ forall x, ~ queued p' x;
  pick_sound : forall f v clk p t p', op_pick_next ops = Some f -> pol_inv p ->
    f v clk p = Ret (t, p') ->
    pol_inv p' /\
    (t = Idle (v_cpu v) \/ queued p t \/ awake v t \/ active_current v t) /\
    forall x, queued p' x -> queued p x \/ active_current v x;
  sleep_sound : forall f v clk t p p', op_sleep ops = Some f -> pol_inv p ->
    f v clk t p = Ret p' ->
    pol_inv p' /\ forall x, queued p' x -> queued p x /\ x <> t;
  sleep_null : op_sleep ops = None -> forall p x, ~ queued p x;
  wake_sound : forall f v clk t p p', op_wake ops = Some f -> pol_inv p ->
    f v clk t p = Ret p' ->
    pol_inv p' /\ forall x, queued p' x -> queued p x \/ x = t;
  prioritize_sound : forall f v clk t p p', op_prioritize ops = Some f -> pol_inv p ->
    f v clk t p = Ret p' ->
    pol_inv p' /\ forall x, queued p' x -> queued p x \/ x = t;
  init_data_sound : forall f v clk t prm p p', op_init_data ops = Some f -> pol_inv p ->
    ~ queued p t -> f v clk t prm p = Ret p' ->
    pol_inv p' /\ forall x, queued p' x -> queued p x;
  deinit_data_sound : forall f v clk t p p', op_deinit_data ops = Some f -> pol_inv p ->
    f v clk t p = Ret p' ->
    pol_inv p' /\ forall x, queued p' x -> queued p x;
  deinit_sound : forall f v clk p p', op_deinit ops = Some f -> pol_inv p ->
    f v clk p = Ret p' ->
    pol_inv p' /\ forall x, queued p' x -> queued p x;
  suspend_sound : forall f v clk p p', op_suspend ops = Some f -> pol_inv p ->
    f v clk p = Ret p' ->
    pol_inv p' /\ forall x, queued p' x -> queued p x;
  resume_sound : forall f v clk p b p', op_resume ops = Some f -> pol_inv p ->
    f v clk p = Ret (b, p') ->
    pol_inv p' /\ forall x, queued p' x -> queued p x;
  tick_sound : forall f v clk p b p', op_tick ops = Some f -> pol_inv p ->
    f v clk p = Ret (b, p') ->
    pol_inv p' /\ forall x, queued p' x -> queued p x \/ active_current v x }.
Arguments queued {priv} ops {_} _ _.
Arguments pol_inv {priv} ops {_} _.

#[export] Instance eta_view : Eta sched_view := fun v =>
  mk_view (v_plat v) (v_pcpu v) (v_cpu v) (v_curr v) (v_threads v).

(** ** A small pCPU for the examples

    pCPU 0 with a 62.5 MHz counter, its idle thread and threads 1 (running), 2
    and 4 (runnable) and 3 (blocked). *)
Definition ex_params : sched_params := mk_params 1 1 0 0 0 4000 2000 4000 2000.
Definition ex_pool : sched_cpupool_config :=
  mk_pool false false 0 SCHED_POLICY_NONE 0 0 false 0 0 0 0.
Definition ex_plat : platform :=
  mk_platform 62500 4 (mk_plat_config false false ex_pool ex_pool)
    [mk_vm_config false 1 0 [] ex_params; mk_vm_config false 1 0 [] ex_params].
Definition ex_thread (sts : thread_object_state) : thread_object :=
  mk_thread [] 0 true sts false true false 0 false 0 0 false true true latency_zero.
Definition ex_threads : gmap tid thread_object :=
  <[Idle 0 := ex_thread THREAD_STS_RUNNABLE]>
  (<[Thread 1 := ex_thread THREAD_STS_RUNNING]>
  (<[Thread 2 := ex_thread THREAD_STS_RUNNABLE]>
  (<[Thread 3 := ex_thread THREAD_STS_BLOCKED]>
  (<[Thread 4 := ex_thread THREAD_STS_RUNNABLE]> ∅)))).
Definition ex_view (curr : option tid) : sched_view := mk_view ex_plat 0 0 curr ex_threads.
Definition ex_clock (start : Z) : clock := fun i => start + Z.of_nat i.
