(* ===== verification/Noop.v ===== *)
(** * The noop policy (core/sched/noop.c)

    One remembered thread; it runs whenever it is there, idle otherwise. *)
From S2P Require Import Prelude SchedTypes.

Record sched_noop_control := mk_noop { noop_thread_obj : option tid }.

(** [ctl->priv = noop_ctl]; the control itself is left as it is. *)
Definition sched_noop_init (v : sched_view) (clk : clock) (p : sched_noop_control)
    : outcome (Z * sched_noop_control) := Ret (0, p).

Definition sched_noop_pick_next (v : sched_view) (clk : clock) (p : sched_noop_control)
    : outcome (tid * sched_noop_control) :=
  Ret (match noop_thread_obj p with Some t => t | None => Idle (v_cpu v) end, p).

Definition sched_noop_sleep (v : sched_view) (clk : clock) (t : tid) (p : sched_noop_control)
    : outcome sched_noop_control :=
  Ret (if bool_decide (noop_thread_obj p = Some t) then mk_noop None else p).

Definition sched_noop_wake (v : sched_view) (clk : clock) (t : tid) (p : sched_noop_control)
    : outcome sched_noop_control :=
  Ret (match noop_thread_obj p with None => mk_noop (Some t) | Some _ => p end).

Definition sched_noop : sched_ops sched_noop_control :=
  mk_ops sched_noop_init None (Some sched_noop_pick_next) (Some sched_noop_sleep)
    (Some sched_noop_wake) None None None None None None.

#[export] Instance noop_policy : SchedPolicy sched_noop.
Proof.
  refine {| pol_inv := fun _ => True; queued := fun p t => noop_thread_obj p = Some t |};
    cbn; try done.
  - by intros v clk p r p' Hq [= <- <-].
  - intros f v clk p t p' [= <-] _ [= <- <-]. split_and!; [done| |tauto].
    destruct (noop_thread_obj p); auto.
  - intros f v clk t p p' [= <-] _ [= <-]. split; [done|]. intros x.
    case_bool_decide as E; cbn; [done|]. intros Hx. split; [done|]. intros ->. done.
  - intros f v clk t p p' [= <-] _ [= <-]. split; [done|]. intros x.
    destruct (noop_thread_obj p) eqn:E; cbn; [rewrite E; auto|]. intros [= ->]. auto.
Defined.
