(* ===== verification/Prio.v ===== *)
(** * The static-priority policy (core/sched/prio.c)

    The run queue is kept sorted by descending priority, first come first
    served among equals. *)
From S2P Require Import Prelude SchedTypes.

(** [prio_queue] and the [priority] field of every thread's [sched_prio_data];
    the [list] field is membership in the queue. *)
Record sched_prio_control := mk_prio {
  prio_queue : list tid;
  priority : gmap tid Z }.
#[export] Instance eta_prio : Eta sched_prio_control :=
  fun p => mk_prio (prio_queue p) (priority p).

Definition prio_of (p : sched_prio_control) (t : tid) : Z := default 0 (priority p !! t).

Definition sched_prio_init (v : sched_view) (clk : clock) (p : sched_prio_control)
    : outcome (Z * sched_prio_control) :=
  _ ← ASSERT (v_pcpu v =? v_cpu v) "init scheduler on wrong cpu!";
  Ret (0, p <| prio_queue := [] |>).

(** [INIT_LIST_HEAD(&data->list)] on a thread that is on no queue. *)
Definition sched_prio_init_data (v : sched_view) (clk : clock) (t : tid) (prm : sched_params)
    (p : sched_prio_control) : outcome sched_prio_control :=
  Ret (p <| priority := <[t := s32 (prio prm)]> (priority p) |>).

Definition sched_prio_pick_next (v : sched_view) (clk : clock) (p : sched_prio_control)
    : outcome (tid * sched_prio_control) :=
  Ret (match prio_queue p with t :: _ => t | [] => Idle (v_cpu v) end, p).

Definition prio_queue_add (t : tid) (p : sched_prio_control) : sched_prio_control :=
  p <| prio_queue :=
    insert_before (fun x => prio_of p x <? prio_of p t) t (prio_queue p) |>.

Definition prio_queue_remove (t : tid) (p : sched_prio_control) : sched_prio_control :=
  p <| prio_queue := list_del_init t (prio_queue p) |>.

Definition sched_prio_sleep (v : sched_view) (clk : clock) (t : tid) (p : sched_prio_control)
    : outcome sched_prio_control := Ret (prio_queue_remove t p).

Definition sched_prio_wake (v : sched_view) (clk : clock) (t : tid) (p : sched_prio_control)
    : outcome sched_prio_control := Ret (prio_queue_add t p).

Definition sched_prio : sched_ops sched_prio_control :=
  mk_ops sched_prio_init (Some sched_prio_init_data) (Some sched_prio_pick_next)
    (Some sched_prio_sleep) (Some sched_prio_wake) None None None None None None.

#[export] Instance prio_policy : SchedPolicy sched_prio.
Proof.
  refine {| pol_inv := fun _ => True; queued := fun p t => t ∈ prio_queue p |}; cbn; try done.
  - intros v clk p r p' _ E. unfold sched_prio_init in E. inv_ret. subst. cbn.
    split; [done|]. by intros x ?%elem_of_nil.
  - intros f v clk p t p' [= <-] _ [= <- <-]. split_and!; [done| |tauto].
    destruct (prio_queue p); [auto|]. right; left. qset.
  - intros f v clk t p p' [= <-] _ [= <-]. split; [done|]. intros x. cbn.
    by rewrite list_del_init_elem.
  - intros f v clk t p p' [= <-] _ [= <-]. split; [done|]. intros x. cbn.
    rewrite insert_before_elem. tauto.
  - by intros f v clk t prm p p' [= <-] _ _ [= <-].
Defined.

(** ** Specification

    The abstract queue is the list of waiting threads in the order they were
    woken; the thread to run is the first of those with the highest priority. *)
Definition best (p : sched_prio_control) (acc : option tid) (t : tid) : option tid :=
  match acc with
  | None => Some t
  | Some b => if prio_of p b <? prio_of p t then Some t else Some b
  end.
Definition first_highest (p : sched_prio_control) (arrivals : list tid) : option tid :=
  foldl (best p) None arrivals.

(** Wakes and sleeps, as the framework issues them: a thread is woken only when
    it is off the queue. *)
Inductive queue_event := Wakes (t : tid) | Sleeps (t : tid).
Definition arrivals_after (arr : list tid) (e : queue_event) : list tid :=
  match e with
  | Wakes t => if decide (t ∈ arr) then arr else arr ++ [t]
  | Sleeps t => list_del_init t arr
  end.
Definition prio_after (p : sched_prio_control) (e : queue_event) : sched_prio_control :=
  match e with
  | Wakes t => if decide (t ∈ prio_queue p) then p else prio_queue_add t p
  | Sleeps t => prio_queue_remove t p
  end.

Definition by_priority (pr : gmap tid Z) (x y : tid) : Prop :=
  default 0 (pr !! y) <= default 0 (pr !! x).

#[export] Instance by_priority_trans pr : Transitive (by_priority pr).
Proof. intros x y z. unfold by_priority. lia. Qed.

(** The queue of a set of arrivals: insertion in arrival order. *)
Definition prio_insert (pr : gmap tid Z) (q : list tid) (t : tid) : list tid :=
  insert_before (fun x => default 0 (pr !! x) <? default 0 (pr !! t)) t q.
Definition prio_sort (pr : gmap tid Z) (arr : list tid) : list tid := foldl (prio_insert pr) [] arr.

Lemma prio_insert_sorted pr q t :
  StronglySorted (by_priority pr) q -> StronglySorted (by_priority pr) (prio_insert pr q t).
Proof.
  apply (insert_before_sorted _); unfold by_priority; intros y _;
    destruct (Z.ltb_spec (default 0 (pr !! y)) (default 0 (pr !! t))); try done; lia.
Qed.

Lemma prio_sort_snoc pr arr t : prio_sort pr (arr ++ [t]) = prio_insert pr (prio_sort pr arr) t.
Proof. unfold prio_sort. by rewrite foldl_app. Qed.

Lemma prio_sort_sorted pr arr : StronglySorted (by_priority pr) (prio_sort pr arr).
Proof.
  induction arr as [|t arr IH] using rev_ind; [constructor|].
  rewrite prio_sort_snoc. by apply prio_insert_sorted.
Qed.

Lemma prio_sort_elem pr arr x : x ∈ prio_sort pr arr <-> x ∈ arr.
Proof.
  induction arr as [|t arr IH] using rev_ind; [done|].
  rewrite prio_sort_snoc. unfold prio_insert. rewrite insert_before_elem, IH. set_solver.
Qed.

(** Removing a thread from the queue is forgetting its arrival. *)
Lemma prio_sort_del pr arr x :
  prio_sort pr (list_del_init x arr) = list_del_init x (prio_sort pr arr).
Proof.
  induction arr as [|t arr IH] using rev_ind; [done|].
  rewrite list_del_init_app, prio_sort_snoc, list_del_init_singleton.
  destruct (decide (t = x)) as [->|Hne].
  - rewrite app_nil_r, IH. symmetry. apply list_del_init_insert_same.
  - rewrite prio_sort_snoc, IH. symmetry.
    apply (list_del_init_insert_ne (by_priority pr)); [|apply prio_sort_sorted|done].
    unfold by_priority. intros y z ?. rewrite !Z.ltb_lt. lia.
Qed.

(** The head of the queue is the first arrival of highest priority. *)
Lemma prio_sort_head p arr : head (prio_sort (priority p) arr) = first_highest p arr.
Proof.
  induction arr as [|t arr IH] using rev_ind; [done|].
  rewrite prio_sort_snoc. unfold first_highest. rewrite foldl_app. cbn.
  fold (first_highest p arr). rewrite <- IH. unfold prio_insert, best, prio_of.
  destruct (prio_sort (priority p) arr) as [|b q]; [done|]. cbn. by destruct (_ <? _).
Qed.

Lemma prio_after_sort p0 p arr e :
  priority p = p0 -> prio_queue p = prio_sort p0 arr ->
  priority (prio_after p e) = p0 /\ prio_queue (prio_after p e) = prio_sort p0 (arrivals_after arr e).
Proof.
  intros <- Hq. destruct e as [t|t]; cbn [prio_after arrivals_after].
  - destruct (decide (t ∈ prio_queue p)) as [Hin|Hni].
    + rewrite decide_True by by rewrite Hq, prio_sort_elem in Hin. done.
    + rewrite decide_False by by rewrite Hq, prio_sort_elem in Hni.
      split; [done|]. rewrite prio_sort_snoc. cbn. by rewrite Hq.
  - split; [done|]. rewrite prio_sort_del. cbn. by rewrite Hq.
Qed.

(** C32: from an empty queue, after any sequence of wakes and sleeps, [pick_next]
    returns the earliest-woken thread among those of highest priority that are
    still awake, and idle when there is none. *)
Theorem prio_pick_refines v clk pr es :
  let p := foldl prio_after (mk_prio [] pr) es in
  let arr := foldl arrivals_after [] es in
  sched_prio_pick_next v clk p =
    Ret (default (Idle (v_cpu v)) (first_highest (mk_prio [] pr) arr), p).
Proof.
  cbn. unfold sched_prio_pick_next. f_equal. f_equal.
  assert (priority (foldl prio_after (mk_prio [] pr) es) = pr /\
    prio_queue (foldl prio_after (mk_prio [] pr) es) = prio_sort pr (foldl arrivals_after [] es)) as [_ ->].
  { induction es as [|e es [IH1 IH2]] using rev_ind; [done|].
    rewrite !foldl_app. cbn. by apply prio_after_sort. }
  rewrite <- prio_sort_head. cbn [priority].
  by destruct (prio_sort pr (foldl arrivals_after [] es)).
Qed.
