(* ===== verification/Iorr.v ===== *)
(** * The round-robin policy (core/sched/iorr.c)

    Fixed 10 ms slices; the running thread goes to the tail of the run queue at
    every scheduling point, a waking thread to its head. *)
From S2P Require Import Prelude Ticks Timer SchedTypes.

Definition CONFIG_SLICE_MS : Z := 10.

Record sched_iorr_data := mk_iorr_data {
  slice_cycles : Z;      (* uint64_t *)
  last_cycles : Z;       (* uint64_t *)
  left_cycles : Z }.     (* int64_t *)
#[export] Instance eta_iorr_data : Eta sched_iorr_data :=
  fun d => mk_iorr_data (slice_cycles d) (last_cycles d) (left_cycles d).
#[export] Instance iorr_data_inhabited : Inhabited sched_iorr_data :=
  populate (mk_iorr_data 0 0 0).

Record sched_iorr_control := mk_iorr {
  runqueue : list tid;
  tick_timer : timer_handle;
  data : gmap tid sched_iorr_data }.
#[export] Instance eta_iorr : Eta sched_iorr_control :=
  fun p => mk_iorr (runqueue p) (tick_timer p) (data p).

Definition data_of (p : sched_iorr_control) (t : tid) : sched_iorr_data := data p !!! t.
Definition set_data (t : tid) (d : sched_iorr_data) (p : sched_iorr_control) : sched_iorr_control :=
  p <| data := <[t := d]> (data p) |>.

Definition is_inqueue (p : sched_iorr_control) (t : tid) : bool := bool_decide (t ∈ runqueue p).

Definition runqueue_add_head (t : tid) (p : sched_iorr_control) : sched_iorr_control :=
  if is_inqueue p t then p else p <| runqueue := t :: runqueue p |>.
Definition runqueue_add_tail (t : tid) (p : sched_iorr_control) : sched_iorr_control :=
  if is_inqueue p t then p else p <| runqueue := runqueue p ++ [t] |>.
Definition runqueue_remove (t : tid) (p : sched_iorr_control) : sched_iorr_control :=
  p <| runqueue := list_del_init t (runqueue p) |>.

(** [data->left_cycles -= now - data->last_cycles]: unsigned arithmetic, stored
    back into a signed field. *)
Definition consume (now : Z) (d : sched_iorr_data) : sched_iorr_data :=
  d <| left_cycles := s64 (left_cycles d - u64 (now - last_cycles d)) |>.

(** The timer callback; true when it requested a reschedule. *)
Definition sched_tick_handler (v : sched_view) (clk : clock) (p : sched_iorr_control)
    : outcome (bool * sched_iorr_control) :=
  let now := clk 0%nat in
  match v_curr v with
  | None => Ret (false, p)
  | Some current =>
      let idle := is_idle_thread v current in
      if idle && bool_decide (runqueue p = []) then Ret (false, p)
      else
        let p := if idle then p
                 else set_data current ((consume now (data_of p current)) <| last_cycles := now |>) p in
        Ret (idle || (left_cycles (data_of p current) <=? 0), p)
  end.

Definition sched_iorr_add_timer (v : sched_view) (clk : clock) (p : sched_iorr_control)
    : outcome (Z * sched_iorr_control) :=
  let tick_period := TICKS_PER_MS (v_khz v) in
  let h := handle_init (u64 (clk 0%nat + tick_period)) tick_period in
  '(r, h) ← handle_add (v_khz v) h;
  Ret (if r <? 0 then -1 else 0, p <| tick_timer := h |>).

Definition sched_iorr_del_timer (p : sched_iorr_control) : sched_iorr_control :=
  p <| tick_timer := handle_del (tick_timer p) |>.

Definition sched_iorr_init (v : sched_view) (clk : clock) (p : sched_iorr_control)
    : outcome (Z * sched_iorr_control) :=
  _ ← ASSERT (v_cpu v =? v_pcpu v) "init scheduler on wrong cpu!";
  sched_iorr_add_timer v clk (p <| runqueue := [] |>).

Definition sched_iorr_deinit (v : sched_view) (clk : clock) (p : sched_iorr_control)
    : outcome sched_iorr_control := Ret (sched_iorr_del_timer p).
Definition sched_iorr_suspend (v : sched_view) (clk : clock) (p : sched_iorr_control)
    : outcome sched_iorr_control := Ret (sched_iorr_del_timer p).
Definition sched_iorr_resume (v : sched_view) (clk : clock) (p : sched_iorr_control)
    : outcome (bool * sched_iorr_control) :=
  r ← sched_iorr_add_timer v clk p; Ret (false, snd r).

(** [last_cycles] is not initialised: it keeps what the object held. *)
Definition sched_iorr_init_data (v : sched_view) (clk : clock) (t : tid) (prm : sched_params)
    (p : sched_iorr_control) : outcome sched_iorr_control :=
  let slice := u64 (CONFIG_SLICE_MS * TICKS_PER_MS (v_khz v)) in
  Ret (set_data t ((data_of p t) <| slice_cycles := slice |> <| left_cycles := s64 slice |>) p).

(** [while (left <= 0) left += slice]; [None] if it is still running when the
    fuel is used up. *)
Fixpoint replenish_loop (fuel : nat) (slice left : Z) : option Z :=
  match fuel with
  | O => None
  | S f => if left <=? 0 then replenish_loop f slice (s64 (left + slice)) else Some left
  end.
(** Enough for every positive slice (theorem below). *)
Definition replenish_fuel (slice left : Z) : nat := S (Z.to_nat (- left / slice + 1)).
#[global] Arguments replenish_fuel : simpl never.

Definition sched_iorr_pick_next (v : sched_view) (clk : clock) (p : sched_iorr_control)
    : outcome (tid * sched_iorr_control) :=
  let now := clk 0%nat in
  match v_curr v with
  | None => Panic "NULL current"
  | Some current =>
      let p :=
        if negb (is_idle_thread v current) && is_inqueue p current then
          let d := consume now (data_of p current) in
          let d := if left_cycles d <=? 0
                   then d <| left_cycles := s64 (left_cycles d + slice_cycles d) |> else d in
          runqueue_add_tail current (runqueue_remove current (set_data current d p))
        else p in
      match runqueue p with
      | next :: _ =>
          let d := (data_of p next) <| last_cycles := now |> in
          match replenish_loop (replenish_fuel (slice_cycles d) (left_cycles d))
                  (slice_cycles d) (left_cycles d) with
          | Some l => Ret (next, set_data next (d <| left_cycles := l |>) p)
          | None => Hang "replenish left_cycles"
          end
      | [] => Ret (Idle (v_cpu v), p)
      end
  end.

Definition sched_iorr_sleep (v : sched_view) (clk : clock) (t : tid) (p : sched_iorr_control)
    : outcome sched_iorr_control := Ret (runqueue_remove t p).
Definition sched_iorr_wake (v : sched_view) (clk : clock) (t : tid) (p : sched_iorr_control)
    : outcome sched_iorr_control := Ret (runqueue_add_head t p).

Definition sched_iorr : sched_ops sched_iorr_control :=
  mk_ops sched_iorr_init (Some sched_iorr_init_data) (Some sched_iorr_pick_next)
    (Some sched_iorr_sleep) (Some sched_iorr_wake) None None (Some sched_iorr_deinit)
    (Some sched_iorr_suspend) (Some sched_iorr_resume) (Some sched_tick_handler).

(** ** Queue lemmas *)
Lemma rotate_queue t p :
  t ∈ runqueue p ->
  runqueue (runqueue_add_tail t (runqueue_remove t p)) = list_del_init t (runqueue p) ++ [t].
Proof.
  intros Ht. unfold runqueue_add_tail, is_inqueue. cbn.
  rewrite bool_decide_eq_false_2; [done|]. rewrite list_del_init_elem. tauto.
Qed.

Lemma add_tail_data t p : data (runqueue_add_tail t p) = data p.
Proof. unfold runqueue_add_tail. by destruct (is_inqueue p t). Qed.

Lemma add_timer_queue v clk p r p' :
  sched_iorr_add_timer v clk p = Ret (r, p') -> runqueue p' = runqueue p.
Proof. unfold sched_iorr_add_timer. intros E. inv_ret. destruct r0. inv_ret. by subst. Qed.

#[export] Instance iorr_policy : SchedPolicy sched_iorr.
Proof.
  refine {| pol_inv := fun _ => True; queued := fun p t => t ∈ runqueue p |}; cbn; try done.
  - intros v clk p r p' _ E. unfold sched_iorr_init in E. inv_ret.
    apply add_timer_queue in E. rewrite E. split; [done|]. by intros x ?%elem_of_nil.
  - intros f v clk p t p' [= <-] _. unfold sched_iorr_pick_next.
    destruct (v_curr v) as [cur|]; [|done].
    set (p1 := if _ && _ then _ else p).
    assert (forall x, x ∈ runqueue p1 -> x ∈ runqueue p) as H1.
    { intros x. subst p1. destruct (_ && is_inqueue p cur) eqn:E; [|done].
      apply andb_true_iff in E as [_ E%bool_decide_eq_true].
      rewrite rotate_queue by done. cbn. rewrite elem_of_app, list_del_init_elem. set_solver. }
    destruct (runqueue p1) as [|n q] eqn:Eq.
    + intros [= <- <-]. split_and!; [done|auto|]. intros x. rewrite Eq. set_solver.
    + destruct (replenish_loop _ _ _); [|done]. intros [= <- <-]. split_and!; [done|..].
      * right; left. apply H1. set_solver.
      * intros x. cbn. rewrite Eq. auto.
  - intros f v clk t p p' [= <-] _ [= <-]. split; [done|]. intros x. cbn.
    by rewrite list_del_init_elem.
  - intros f v clk t p p' [= <-] _ [= <-]. split; [done|]. intros x.
    unfold runqueue_add_head. destruct (is_inqueue p t); cbn; set_solver.
  - by intros f v clk t prm p p' [= <-] _ _ [= <-].
  - by intros f v clk p p' [= <-] _ [= <-].
  - by intros f v clk p p' [= <-] _ [= <-].
  - intros f v clk p b p' [= <-] _ E. unfold sched_iorr_resume in E. inv_ret. subst.
    destruct r as [r q]. apply add_timer_queue in E0. cbn. by rewrite E0.
  - intros f v clk p b p' [= <-] _. unfold sched_tick_handler.
    destruct (v_curr v) as [cur|]; [|by intros [= <- <-]; auto].
    destruct (_ && _); [by intros [= <- <-]; auto|].
    destruct (is_idle_thread v cur); intros [= <- <-]; auto.
Defined.

(** ** The replenishment loop

    With a positive slice the loop ends and leaves the thread with what it
    lacked to the next multiple: more than 0, at most one slice. *)
Lemma replenish_loop_ok slice left :
  0 < slice <= 2 ^ 62 -> in_s64 left ->
  exists r, replenish_loop (replenish_fuel slice left) slice left = Some r /\
    0 < r /\ (r - left) mod slice = 0 /\ (left <= 0 -> r <= slice) /\ (0 < left -> r = left).
Proof.
  intros Hs Hl. unfold replenish_fuel.
  remember (Z.to_nat (- left / slice + 1)) as fuel eqn:Ef.
  assert (- left / slice + 1 <= Z.of_nat fuel) as Hf by lia. clear Ef.
  revert left Hl Hf. induction fuel as [|fuel IH]; intros left Hl Hf; cbn [replenish_loop];
    destruct (Z.leb_spec left 0) as [Hle|Hgt].
  - assert (0 <= - left / slice) by (apply Z.div_pos; lia). lia.
  - exists left. rewrite Z.sub_diag. repeat split; done || lia.
  - unfold in_s64 in Hl. rewrite s64_small by (unfold in_s64; lia).
    destruct (IH (left + slice)) as (r & Hr & Hpos & Hm & Hle' & Hgt').
    + unfold in_s64; lia.
    + replace (- (left + slice)) with (- left + (-1) * slice) by ring.
      rewrite Z.div_add by lia. lia.
    + exists r. repeat split; try done; try lia.
      replace (r - left) with (r - (left + slice) + 1 * slice) by ring.
      by rewrite Z.mod_add by lia.
  - exists left. rewrite Z.sub_diag. repeat split; done || lia.
Qed.

(** ** Round robin *)

(** [n] consecutive scheduling points of a pCPU on which no thread sleeps or
    wakes: the threads picked, and the final state. *)
Fixpoint iorr_picks (n : nat) (v : sched_view) (clk : clock) (p : sched_iorr_control)
    : outcome (list tid * sched_iorr_control) :=
  match n with
  | O => Ret ([], p)
  | S n' =>
      '(t, p) ← sched_iorr_pick_next v clk p;
      '(ts, p) ← iorr_picks n' (v <| v_curr := Some t |>) (fun i => clk (S i)) p;
      Ret (t :: ts, p)
  end.

(** Every queued thread is a non-idle thread with a sane slice. *)
Definition iorr_ok (v : sched_view) (p : sched_iorr_control) : Prop :=
  NoDup (runqueue p) /\
  forall t, t ∈ runqueue p -> is_idle_thread v t = false /\
    0 < slice_cycles (data_of p t) <= 2 ^ 62 /\ in_s64 (left_cycles (data_of p t)).

Lemma iorr_data_of_set t d p u : data_of (set_data t d p) u = if decide (t = u) then d else data_of p u.
Proof.
  unfold data_of, set_data. cbn. case_decide as E.
  - subst. apply lookup_total_insert_eq.
  - by apply lookup_total_insert_ne.
Qed.

(** One scheduling point with the head of the queue running: the queue rotates
    and its new head runs. *)
Lemma pick_rotates v clk p x q :
  iorr_ok v p -> v_curr v = Some x -> runqueue p = x :: q ->
  exists p', sched_iorr_pick_next v clk p = Ret (default x (head (q ++ [x])), p') /\
    runqueue p' = q ++ [x] /\ iorr_ok v p'.
Proof.
  intros [Hnd Hok] Hc Hq. unfold sched_iorr_pick_next. rewrite Hc.
  assert (x ∈ runqueue p) as Hx by (rewrite Hq; set_solver).
  rewrite (proj1 (Hok x Hx)).
  assert (is_inqueue p x = true) as -> by (by apply bool_decide_eq_true_2).
  cbn [negb andb]. set (d1 := if _ <=? 0 then _ else _).
  set (p1 := runqueue_add_tail _ _).
  assert (runqueue p1 = q ++ [x]) as Hq1.
  { subst p1. rewrite rotate_queue by done. cbn. rewrite Hq in *. by rewrite list_del_init_head. }
  assert (forall u, data_of p1 u = if decide (x = u) then d1 else data_of p u) as Hd1.
  { intros u. subst p1. unfold data_of at 1. rewrite add_tail_data.
    unfold runqueue_remove. cbn. apply iorr_data_of_set. }
  assert (iorr_ok v p1) as [Hnd1 Hok1].
  { split; [rewrite Hq1; rewrite Hq in Hnd; by rewrite Permutation_app_comm|].
    intros u Hu. assert (u ∈ runqueue p) as Hu' by (rewrite Hq1 in Hu; rewrite Hq; set_solver).
    destruct (Hok u Hu') as (Hi & Hs & Hl). split; [done|]. rewrite Hd1. case_decide; [|done].
    subst u d1. cbn. destruct (_ <=? 0); cbn; eauto with beau. }
  destruct (runqueue p1) as [|n q1] eqn:E1; [by destruct q|].
  rewrite <- Hq1. cbn [head default from_option]. unfold id.
  destruct (Hok1 n ltac:(set_solver)) as (Hi & Hs & Hl).
  destruct (replenish_loop_ok (slice_cycles (data_of p1 n)) (left_cycles (data_of p1 n)) Hs Hl)
    as (r & Hr & Hpos & _ & Hle & Hgt).
  cbn. rewrite Hr. eexists. split; [done|]. split; [done|].
  split; cbn; rewrite E1; [done|]. intros u Hu. destruct (Hok1 u Hu) as (Hi' & Hs' & Hl').
  split; [done|]. rewrite iorr_data_of_set. case_decide; [|done]. subst u. cbn. split; [done|].
  unfold in_s64 in *. destruct (Z.leb_spec (left_cycles (data_of p1 n)) 0).
  - specialize (Hle ltac:(done)). lia.
  - rewrite Hgt by lia. lia.
Qed.

Lemma iorr_ok_curr v c p : iorr_ok v p -> iorr_ok (v <| v_curr := c |>) p.
Proof. done. Qed.

Lemma iorr_picks_prefix a : forall v clk p x r,
  iorr_ok v p -> v_curr v = Some x -> runqueue p = x :: a ++ r ->
  exists p', iorr_picks (length a) v clk p = Ret (a, p') /\ iorr_ok v p' /\
    runqueue p' = default x (last a) :: r ++ take (length a) (x :: a).
Proof.
  induction a as [|z a IH]; intros v clk p x r Hok Hc Hq.
  - exists p. rewrite app_nil_r. done.
  - cbn [length iorr_picks].
    destruct (pick_rotates v clk p x ((z :: a) ++ r) Hok Hc Hq) as (p1 & -> & Hq1 & Hok1).
    cbn.
    destruct (IH (v <| v_curr := Some z |>) (fun i => clk (S i)) p1 z (r ++ [x]))
      as (p2 & E & Hok2 & Hq2); [done..|by rewrite Hq1; cbn; rewrite app_assoc|].
    cbn in E. rewrite E. cbn. exists p2. split; [done|]. split; [done|].
    rewrite Hq2, last_cons. rewrite <- app_assoc. cbn. f_equal. by destruct (last a).
Qed.

Lemma iorr_picks_snoc m : forall v clk p a p1,
  iorr_picks m v clk p = Ret (a, p1) ->
  iorr_picks (S m) v clk p =
    ('(t, p2) ← sched_iorr_pick_next
        (v <| v_curr := match last a with Some c => Some c | None => v_curr v end |>)
        (fun i => clk (m + i)%nat) p1;
     Ret (a ++ [t], p2)).
Proof.
  induction m as [|m IH]; intros v clk p a p1 E.
  - injection E as <- <-. cbn. destruct v. cbn. by destruct (sched_iorr_pick_next _ _ _) as [[]| |].
  - cbn [iorr_picks] in E |- *. destruct (sched_iorr_pick_next v clk p) as [[t pt]| |]; [|done..].
    cbn in E |- *. destruct (iorr_picks m _ _ pt) as [[ts pts]| |] eqn:Em; [|done..].
    cbn in E. injection E as <- <-. apply IH in Em. cbn [iorr_picks] in Em.
    change (v <| v_curr := Some t |>) with (mk_view (v_plat v) (v_pcpu v) (v_cpu v) (Some t) (v_threads v)) in *.
    cbn in Em |- *. rewrite Em. rewrite last_cons.
    replace (match match last ts with Some y => Some y | None => Some t end with
             | Some c => Some c | None => v_curr v end)
      with (match last ts with Some c => Some c | None => Some t end) by by destruct (last ts).
    by destruct (sched_iorr_pick_next _ _ pts) as [[]| |].
Qed.

(** round robin: with no thread sleeping or waking, the next [n] scheduling
    points of a queue of [n] threads give every thread the pCPU exactly once, in
    queue order behind the running one, and bring the queue back. *)
Theorem iorr_round_robin v clk p x q :
  iorr_ok v p -> v_curr v = Some x -> runqueue p = x :: q ->
  exists p', iorr_picks (length (x :: q)) v clk p = Ret (q ++ [x], p') /\
    runqueue p' = x :: q /\ iorr_ok v p'.
Proof.
  intros Hok Hc Hq.
  destruct (iorr_picks_prefix q v clk p x [] Hok Hc) as (p1 & E1 & Hok1 & Hq1);
    [by rewrite app_nil_r|].
  cbn [length]. rewrite (iorr_picks_snoc _ _ _ _ _ _ E1). cbn in Hq1.
  set (y := default x (last q)) in *. set (v' := v <| v_curr := _ |>).
  assert (v_curr v' = Some y) as Hy by (cbn; subst y; rewrite Hc; by destruct (last q)).
  destruct (pick_rotates v' (fun i => clk (length q + i)%nat) p1 y _ Hok1 Hy Hq1) as (p2 & -> & Hq2 & Hok2).
  assert (take (length q) (x :: q) ++ [y] = x :: q) as Et.
  { subst y. destruct q as [|z q] using rev_ind; [done|]. rewrite last_snoc. cbn.
    rewrite length_app. cbn. rewrite Nat.add_comm. cbn. f_equal. rewrite take_app_length. done. }
  rewrite Et in *. cbn. eauto.
Qed.

(** Threads 1, 2 and 4 with a slice of 1000 cycles, 1 running on what is left of
    it. *)
Definition ex_slice (left : Z) : sched_iorr_data := mk_iorr_data 1000 0 left.
Definition ex_iorr : sched_iorr_control :=
  mk_iorr [Thread 1; Thread 2; Thread 4] (handle_init 0 0)
    (<[Thread 1 := ex_slice (-1500)]> (<[Thread 2 := ex_slice 10]> (<[Thread 4 := ex_slice 0]> ∅))).

Lemma iorr_round_robin_witness :
  exists p', iorr_picks 3 (ex_view (Some (Thread 1))) (ex_clock 5000) ex_iorr =
      Ret ([Thread 2; Thread 4; Thread 1], p') /\ runqueue p' = [Thread 1; Thread 2; Thread 4] /\
    iorr_ok (ex_view (Some (Thread 1))) p'.
Proof.
  apply (iorr_round_robin (ex_view (Some (Thread 1))) (ex_clock 5000) ex_iorr (Thread 1) [Thread 2; Thread 4]).
  - split; [by apply (bool_decide_unpack _)|]. intros t Ht.
    apply elem_of_cons in Ht as [->|[->|[->|[]%elem_of_nil]%elem_of_cons]%elem_of_cons]; by vm_compute.
  - reflexivity.
  - reflexivity.
Defined.
