(* ===== verification/Bvt.v ===== *)
(** * The borrowed-virtual-time policy (core/sched/bvt.c)

    Runtime is charged as actual virtual time (AVT) at a rate inverse to the
    thread's weight; the run queue is sorted by effective virtual time (EVT),
    which is AVT minus a bounded warp. *)
From S2P Require Import Prelude Ticks Timer SchedTypes.

(** Kconfig defaults. *)
Definition BVT_MCU_MS : Z := 1.
Definition BVT_CSA_MCU : Z := 5.
Definition BVT_WEIGHT_MIN : Z := 1.
Definition BVT_WEIGHT_MAX : Z := 128.
Definition BVT_VT_RATIO_MIN : Z := 8.
Definition BVT_VT_RATIO_MAX : Z := BVT_WEIGHT_MAX * BVT_VT_RATIO_MIN / BVT_WEIGHT_MIN.
Definition BVT_WARP_LIMIT_DEFAULT : Z := 1.

Record sched_bvt_data := mk_bvt_data {
  mcu : Z;
  weight : Z;
  vt_ratio : Z;
  warp_on : bool;
  warp_value : Z;          (* int32_t *)
  warp_limit : Z;
  unwarp_period : Z;
  warp_left : Z;
  last_unwarp_tsc : Z;
  avt : Z;                 (* int64_t *)
  evt : Z;                 (* int64_t *)
  residual : Z;
  start_tsc : Z }.
#[export] Instance eta_bvt_data : Eta sched_bvt_data := fun d =>
  mk_bvt_data (mcu d) (weight d) (vt_ratio d) (warp_on d) (warp_value d) (warp_limit d)
    (unwarp_period d) (warp_left d) (last_unwarp_tsc d) (avt d) (evt d) (residual d) (start_tsc d).
#[export] Instance bvt_data_inhabited : Inhabited sched_bvt_data :=
  populate (mk_bvt_data 0 0 0 false 0 0 0 0 0 0 0 0 0).

Record sched_bvt_control := mk_bvt {
  runqueue : list tid;
  tick_timer : timer_handle;
  svt : Z;
  data : gmap tid sched_bvt_data }.
#[export] Instance eta_bvt : Eta sched_bvt_control :=
  fun p => mk_bvt (runqueue p) (tick_timer p) (svt p) (data p).

Definition data_of (p : sched_bvt_control) (t : tid) : sched_bvt_data := data p !!! t.
Definition set_data (t : tid) (d : sched_bvt_data) (p : sched_bvt_control) : sched_bvt_control :=
  p <| data := <[t := d]> (data p) |>.

Definition is_inqueue (p : sched_bvt_control) (t : tid) : bool := bool_decide (t ∈ runqueue p).

Definition update_evt (d : sched_bvt_data) : sched_bvt_data :=
  d <| evt := if warp_on d then s64 (avt d - warp_value d) else avt d |>.

Definition bvt_can_warp (d : sched_bvt_data) (now_tsc : Z) : bool :=
  (0 <? warp_value d) &&
  (if negb (unwarp_period d =? 0) && negb (last_unwarp_tsc d =? 0)
   then u64 (unwarp_period d * mcu d) <=? u64 (now_tsc - last_unwarp_tsc d)
   else true).

(** The insertion loop: in front of the first thread with a later EVT. *)
Definition runqueue_add (t : tid) (p : sched_bvt_control) : sched_bvt_control :=
  p <| runqueue :=
    insert_before (fun x => evt (data_of p t) <? evt (data_of p x)) t (runqueue p) |>.

Definition runqueue_remove (t : tid) (p : sched_bvt_control) : sched_bvt_control :=
  p <| runqueue := list_del_init t (runqueue p) |>.

(** A changed EVT is reinserted. *)
Definition requeue (t : tid) (p : sched_bvt_control) : sched_bvt_control :=
  if is_inqueue p t then runqueue_add t (runqueue_remove t p) else p.

Definition bvt_start_warp (t : tid) (now_tsc : Z) (p : sched_bvt_control) : sched_bvt_control :=
  let d := data_of p t in
  if warp_on d then p
  else if bvt_can_warp d now_tsc then
    let d := d <| warp_on := true |>
               <| warp_left := if warp_limit d =? 0 then BVT_WARP_LIMIT_DEFAULT else warp_limit d |> in
    requeue t (set_data t (update_evt d) p)
  else p.

Definition bvt_update_warp_after_charge (charged_mcu now_tsc : Z) (d : sched_bvt_data)
    : sched_bvt_data :=
  if negb (warp_on d) || (charged_mcu =? 0) then d
  else if warp_left d <=? charged_mcu
  then d <| warp_on := false |> <| warp_left := 0 |> <| last_unwarp_tsc := now_tsc |>
  else d <| warp_left := u32 (warp_left d - u32 charged_mcu) |>.

Definition update_svt (p : sched_bvt_control) : sched_bvt_control :=
  match runqueue p with
  | [] => p
  | t :: _ => p <| svt := avt (data_of p t) |>
  end.

#[global] Arguments update_svt : simpl never.

Definition get_svt (p : sched_bvt_control) : Z := svt p.

(** The timer callback only asks for a reschedule. *)
Definition sched_tick_handler (v : sched_view) (clk : clock) (p : sched_bvt_control)
    : outcome (bool * sched_bvt_control) :=
  Ret (match v_curr v with
       | None => false
       | Some current => if is_idle_thread v current then negb (bool_decide (runqueue p = [])) else true
       end, p).

(** [svt] is not initialised. *)
Definition sched_bvt_init (v : sched_view) (clk : clock) (p : sched_bvt_control)
    : outcome (Z * sched_bvt_control) :=
  _ ← ASSERT (v_pcpu v =? v_cpu v) "init scheduler on wrong cpu!";
  Ret (0, p <| runqueue := [] |> <| tick_timer := handle_init 0 0 |>).

Definition sched_bvt_deinit (v : sched_view) (clk : clock) (p : sched_bvt_control)
    : outcome sched_bvt_control :=
  Ret (p <| tick_timer := handle_del (tick_timer p) |>).

Definition clamp (x l h : Z) : Z := Z.max (Z.min x h) l.

(** [avt], [evt] and [start_tsc] keep what the object held. *)
Definition sched_bvt_init_data (v : sched_view) (clk : clock) (t : tid) (prm : sched_params)
    (p : sched_bvt_control) : outcome sched_bvt_control :=
  let w := clamp (bvt_weight prm) BVT_WEIGHT_MIN BVT_WEIGHT_MAX in
  Ret (set_data t
    ((data_of p t)
      <| mcu := u64 (BVT_MCU_MS * TICKS_PER_MS (v_khz v)) |>
      <| weight := w |>
      <| warp_value := bvt_warp_value prm |>
      <| warp_limit := bvt_warp_limit prm |>
      <| unwarp_period := bvt_unwarp_period prm |>
      <| warp_on := false |>
      <| warp_left := 0 |>
      <| last_unwarp_tsc := 0 |>
      <| vt_ratio := BVT_VT_RATIO_MAX / w |>
      <| residual := 0 |>) p).

Definition sched_bvt_suspend := sched_bvt_deinit.

Definition v2p (virt_time ratio : Z) : Z := virt_time / ratio.
Definition p2v (phy_time ratio : Z) : Z := u64 (phy_time * ratio).

(** Virtual time of a run since [start_tsc], plus the residual. *)
Definition v_delta (now_tsc : Z) (d : sched_bvt_data) : Z :=
  u64 (p2v (u64 (now_tsc - start_tsc d)) (vt_ratio d) + residual d).

(** The charge of [update_vt] on the thread's data. *)
Definition charge_vt (now_tsc : Z) (d : sched_bvt_data) : sched_bvt_data :=
  let '(delta_mcu, d) :=
    if start_tsc d <? now_tsc
    then (v_delta now_tsc d / mcu d, d <| residual := v_delta now_tsc d mod mcu d |>)
    else (0, d) in
  let d := d <| avt := s64 (avt d + delta_mcu) |> in
  update_evt (bvt_update_warp_after_charge delta_mcu now_tsc d).

Definition update_vt (t : tid) (now_tsc : Z) (p : sched_bvt_control) : sched_bvt_control :=
  requeue t (set_data t (charge_vt now_tsc (data_of p t)) p).

(** What the head of the queue may run before the next peer catches up, in
    MCUs; [UINT64_MAX] without a peer. *)
Definition run_countdown (p : sched_bvt_control) (first : tid) (rest : list tid) : Z :=
  match rest with
  | [] => UINT64_MAX
  | second :: _ =>
      let delta_mcu := u64 (evt (data_of p second) - evt (data_of p first)) in
      u64 (v2p delta_mcu (vt_ratio (data_of p first)) + BVT_CSA_MCU)
  end.

Definition sched_bvt_pick_next (v : sched_view) (clk : clock) (p : sched_bvt_control)
    : outcome (tid * sched_bvt_control) :=
  let now_tsc := clk 0%nat in
  let tick_period := u64 (BVT_MCU_MS * TICKS_PER_MS (v_khz v)) in
  match v_curr v with
  | None => Panic "NULL current"
  | Some current =>
      let p := if is_idle_thread v current then p else update_vt current (clk 1%nat) p in
      let p := update_svt p in
      let p := p <| tick_timer := handle_del (tick_timer p) |> in
      match runqueue p with
      | [] => Ret (Idle (v_cpu v), p)
      | first :: rest =>
          let countdown := run_countdown p first rest in
          let p := set_data first ((data_of p first) <| start_tsc := now_tsc |>) p in
          if countdown =? UINT64_MAX then Ret (first, p)
          else
            let h := handle_update (u64 (clk 2%nat + u64 (countdown * tick_period))) 0 (tick_timer p) in
            '(_, h) ← handle_add (v_khz v) h;
            Ret (first, p <| tick_timer := h |>)
      end
  end.

Definition sched_bvt_sleep (v : sched_view) (clk : clock) (t : tid) (p : sched_bvt_control)
    : outcome sched_bvt_control := Ret (runqueue_remove t p).

Definition sched_bvt_wake (v : sched_view) (clk : clock) (t : tid) (p : sched_bvt_control)
    : outcome sched_bvt_control :=
  let d := data_of p t in
  let threshold := s64 (get_svt p - BVT_CSA_MCU) in
  let p := set_data t (d <| avt := if threshold <? avt d then avt d else get_svt p |>) p in
  let p := bvt_start_warp t (clk 0%nat) p in
  let p := set_data t (update_evt (data_of p t)) p in
  Ret (runqueue_add t p).

Definition sched_bvt_prioritize (v : sched_view) (clk : clock) (t : tid) (p : sched_bvt_control)
    : outcome sched_bvt_control := Ret (bvt_start_warp t (clk 0%nat) p).

Definition sched_bvt : sched_ops sched_bvt_control :=
  mk_ops sched_bvt_init (Some sched_bvt_init_data) (Some sched_bvt_pick_next)
    (Some sched_bvt_sleep) (Some sched_bvt_wake) (Some sched_bvt_prioritize) None
    (Some sched_bvt_deinit) (Some sched_bvt_suspend) None (Some sched_tick_handler).

(** ** Statistics *)
Record sched_bvt_stats := mk_bvt_stats {
  st_weight : Z; st_vt_ratio : Z; st_avt : Z; st_evt : Z;
  st_warp_value : Z; st_warp_left : Z; st_cooldown_left_ticks : Z }.
#[export] Instance eta_bvt_stats : Eta sched_bvt_stats := fun s =>
  mk_bvt_stats (st_weight s) (st_vt_ratio s) (st_avt s) (st_evt s) (st_warp_value s)
    (st_warp_left s) (st_cooldown_left_ticks s).

Definition sched_bvt_snapshot (v : sched_view) (now_tsc : Z) (t : tid) (p : sched_bvt_control)
    : sched_bvt_stats :=
  let d := data_of p t in
  let s := mk_bvt_stats (weight d) (vt_ratio d) (avt d) (evt d) (warp_value d) (warp_left d) 0 in
  let s :=
    if negb (warp_on d) && negb (mcu d =? 0) && negb (unwarp_period d =? 0) &&
       negb (last_unwarp_tsc d =? 0) && (unwarp_period d <=? UINT64_MAX / mcu d) then
      let cooldown := u64 (unwarp_period d * mcu d) in
      if (last_unwarp_tsc d <? now_tsc) && (now_tsc - last_unwarp_tsc d <? cooldown)
      then s <| st_cooldown_left_ticks := cooldown - (now_tsc - last_unwarp_tsc d) |> else s
    else s in
  if bool_decide (status (thr v t) = THREAD_STS_RUNNING) && negb (is_idle_thread v t) &&
     (start_tsc d <? now_tsc) then
    let a := s64 (st_avt s + v_delta now_tsc d / mcu d) in
    s <| st_avt := a |> <| st_evt := if warp_on d then s64 (a - warp_value d) else a |>
  else s.

Definition sched_get_bvt_stats (v : sched_view) (clk : clock) (is_bvt : bool) (obj : option tid)
    (p : sched_bvt_control) : option sched_bvt_stats :=
  match obj with
  | Some t => if sched_ctl (thr v t) && is_bvt then Some (sched_bvt_snapshot v (clk 0%nat) t p) else None
  | None => None
  end.

(** ** The run queue stays sorted by EVT *)
Definition evt_of (p : sched_bvt_control) (t : tid) : Z := evt (data_of p t).
Definition bvt_sorted (p : sched_bvt_control) : Prop :=
  NoDup (runqueue p) /\ StronglySorted (key_le (evt_of p)) (runqueue p).

Lemma bvt_data_of_set t d p u : data_of (set_data t d p) u = if decide (t = u) then d else data_of p u.
Proof.
  unfold data_of, set_data. cbn. case_decide as E.
  - subst. apply lookup_total_insert_eq.
  - by apply lookup_total_insert_ne.
Qed.

Lemma data_of_requeue t p u : data_of (requeue t p) u = data_of p u.
Proof. unfold requeue. by destruct (is_inqueue p t). Qed.

Lemma requeue_elem t p x : x ∈ runqueue (requeue t p) <-> x ∈ runqueue p.
Proof.
  unfold requeue, is_inqueue. case_bool_decide as E; [|done]. cbn.
  rewrite insert_before_elem, list_del_init_elem. destruct (decide (x = t)); naive_solver.
Qed.

Lemma set_data_sorted t d p : t ∉ runqueue p -> bvt_sorted p -> bvt_sorted (set_data t d p).
Proof.
  intros Ht [Hn Hs]. split; [done|]. eapply StronglySorted_ext; [|exact Hs].
  intros x y Hx Hy. unfold key_le, evt_of. rewrite !bvt_data_of_set.
  by rewrite !decide_False by (intros <-; contradiction).
Qed.

Lemma runqueue_add_sorted t p : t ∉ runqueue p -> bvt_sorted p -> bvt_sorted (runqueue_add t p).
Proof.
  intros Ht [Hn Hs]. split; [by apply insert_before_NoDup|].
  apply (insert_before_sorted _); [..|exact Hs]; unfold key_le, evt_of, data_of; cbn;
    intros y _; zb; try done; lia.
Qed.

Lemma runqueue_remove_sorted t p : bvt_sorted p -> bvt_sorted (runqueue_remove t p).
Proof. intros [Hn Hs]. split; cbn; eauto with beau. Qed.

(** Whatever a thread's data becomes, requeueing it restores the order. *)
Lemma requeue_set_sorted t d p : bvt_sorted p -> bvt_sorted (requeue t (set_data t d p)).
Proof.
  intros Hs. unfold requeue, is_inqueue. case_bool_decide as E; cbn in E.
  - apply runqueue_add_sorted; [cbn; rewrite list_del_init_elem; tauto|].
    change (runqueue_remove t (set_data t d p)) with (set_data t d (runqueue_remove t p)).
    apply set_data_sorted; [cbn; rewrite list_del_init_elem; tauto|].
    by apply runqueue_remove_sorted.
  - by apply set_data_sorted.
Qed.

Lemma start_warp_sorted t now p : bvt_sorted p -> bvt_sorted (bvt_start_warp t now p).
Proof.
  unfold bvt_start_warp. intros. destruct (warp_on _); [done|].
  destruct (bvt_can_warp _ _); [|done]. by apply requeue_set_sorted.
Qed.

Lemma start_warp_elem t now p x : x ∈ runqueue (bvt_start_warp t now p) <-> x ∈ runqueue p.
Proof.
  unfold bvt_start_warp. destruct (warp_on _); [done|].
  destruct (bvt_can_warp _ _); [|done]. by rewrite requeue_elem.
Qed.

Lemma update_vt_sorted t now p : bvt_sorted p -> bvt_sorted (update_vt t now p).
Proof. apply requeue_set_sorted. Qed.

Lemma update_svt_runqueue p : runqueue (update_svt p) = runqueue p.
Proof. unfold update_svt. by destruct (runqueue p) eqn:E; cbn. Qed.
Lemma update_svt_data p t : data_of (update_svt p) t = data_of p t.
Proof. unfold update_svt. by destruct (runqueue p). Qed.

(** What [pick_next] works on once the current thread is charged. *)
Definition charged (v : sched_view) (clk : clock) (p : sched_bvt_control) : sched_bvt_control :=
  match v_curr v with
  | Some current => if is_idle_thread v current then p else update_vt current (clk 1%nat) p
  | None => p
  end.

Lemma charged_sorted v clk p : bvt_sorted p -> bvt_sorted (charged v clk p).
Proof.
  unfold charged. intros. destruct (v_curr v) as [c|]; [|done].
  destruct (is_idle_thread v c); [done|]. by apply update_vt_sorted.
Qed.

Lemma charged_elem v clk p x : x ∈ runqueue (charged v clk p) <-> x ∈ runqueue p.
Proof.
  unfold charged. destruct (v_curr v) as [c|]; [|done].
  destruct (is_idle_thread v c); [done|]. unfold update_vt. by rewrite requeue_elem.
Qed.

(** [pick_next] returns the head of the charged queue and leaves the order of
    the queue and every EVT alone; the timer cannot be armed twice, so it does
    not fail. *)
Lemma bvt_pick_shape v clk p :
  v_curr v <> None ->
  exists p', sched_bvt_pick_next v clk p =
      Ret (default (Idle (v_cpu v)) (head (runqueue (charged v clk p))), p') /\
    runqueue p' = runqueue (charged v clk p) /\
    (forall t, evt_of p' t = evt_of (charged v clk p) t) /\
    (forall t, avt (data_of p' t) = avt (data_of (charged v clk p) t)).
Proof.
  intros Hc. unfold sched_bvt_pick_next, charged.
  destruct (v_curr v) as [c|]; [|done].
  set (p1 := if is_idle_thread v c then p else _).
  set (p2 := (update_svt p1) <| tick_timer := _ |>).
  assert (runqueue p2 = runqueue p1 /\ (forall t, data_of p2 t = data_of p1 t) /\
    th_started (tick_timer p2) = false) as (Hq & Hd & Ht).
  { subst p2. split; [apply update_svt_runqueue|]. split; [apply update_svt_data|done]. }
  clearbody p2. rewrite <- Hq. destruct (runqueue p2) as [|first rest] eqn:Eq.
  { exists p2. rewrite Eq. unfold evt_of. repeat split; intros; by rewrite Hd. }
  set (d := (data_of p2 first) <| start_tsc := _ |>).
  assert (forall t, evt (data_of (set_data first d p2) t) = evt (data_of p1 t) /\
    avt (data_of (set_data first d p2) t) = avt (data_of p1 t)) as Hf.
  { intros t. rewrite bvt_data_of_set. subst d. case_decide as E; cbn; [subst t|]; by rewrite Hd. }
  destruct (_ =? UINT64_MAX).
  - exists (set_data first d p2). split; [done|]. split; [exact Eq|]. split; intros; apply Hf.
  - unfold handle_add. cbn [tick_timer set_data set_field handle_update th_started].
    rewrite Ht. destruct (_ || _); cbn; eexists; (split; [done|]); (split; [exact Eq|]);
      split; intros; apply Hf.
Qed.

#[export] Instance bvt_policy : SchedPolicy sched_bvt.
Proof.
  refine {| pol_inv := fun _ => True; queued := fun p t => t ∈ runqueue p |}; cbn; try done.
  - intros v clk p r p' _ E. unfold sched_bvt_init in E. inv_ret. subst. cbn.
    split; [done|]. by intros x ?%elem_of_nil.
  - intros f v clk p t p' [= <-] _ E. destruct (decide (v_curr v = None)) as [Hc|Hc].
    { unfold sched_bvt_pick_next in E. by rewrite Hc in E. }
    destruct (bvt_pick_shape v clk p Hc) as (p1 & E1 & Hq & _). rewrite E1 in E.
    injection E as <- <-. split_and!; [done|..].
    + destruct (runqueue (charged v clk p)) as [|f r] eqn:Er; [auto|]. right; left. cbn.
      apply charged_elem with (v := v) (clk := clk). rewrite Er. set_solver.
    + intros x. rewrite Hq, charged_elem. auto.
  - intros f v clk t p p' [= <-] _ [= <-]. split; [done|]. intros x. cbn.
    by rewrite list_del_init_elem.
  - intros f v clk t p p' [= <-] _ [= <-]. split; [done|]. intros x. cbn.
    rewrite insert_before_elem, start_warp_elem. cbn. tauto.
  - intros f v clk t p p' [= <-] _ [= <-]. split; [done|]. intros x.
    rewrite start_warp_elem. auto.
  - by intros f v clk t prm p p' [= <-] _ _ [= <-].
  - by intros f v clk p p' [= <-] _ [= <-].
  - by intros f v clk p p' [= <-] _ [= <-].
  - intros f v clk p b p' [= <-] _ [= <- <-]. auto.
Defined.

(** [pick_next] on a sorted queue: the queue stays sorted with the same
    threads, and the thread returned has the smallest EVT of all of them; idle
    is returned only when the queue is empty. *)
Theorem bvt_pick_earliest v clk p :
  v_curr v <> None -> bvt_sorted p ->
  exists t p', sched_bvt_pick_next v clk p = Ret (t, p') /\ bvt_sorted p' /\
    (forall x, x ∈ runqueue p' <-> x ∈ runqueue p) /\
    ((t = Idle (v_cpu v) /\ runqueue p' = []) \/
     (t ∈ runqueue p' /\ forall x, x ∈ runqueue p' -> evt_of p' t <= evt_of p' x)).
Proof.
  intros Hc Hs. destruct (bvt_pick_shape v clk p Hc) as (p' & E & Hq & He & _).
  eexists _, p'. split; [exact E|].
  destruct (charged_sorted v clk p Hs) as [Hn1 Hs1].
  assert (StronglySorted (key_le (evt_of p')) (runqueue p')) as Hs'.
  { rewrite Hq. eapply StronglySorted_ext; [|exact Hs1].
    intros x y _ _. unfold key_le. by rewrite !He. }
  repeat split; [by rewrite Hq|done|by rewrite Hq, charged_elem..|].
  rewrite Hq in *. destruct (runqueue (charged v clk p)) as [|f r]; [by left|].
  right. split; [set_solver|]. intros x Hx. by apply (sorted_head_le _ _ _ _ Hs' Hx).
Qed.

(** Thread 1 runs, 2 and 4 wait; 4 is warped ahead of them. *)
Definition ex_bvt_data (a e : Z) (w : bool) : sched_bvt_data :=
  mk_bvt_data 62500 1 1024 w 10 2 0 2 0 a e 0 1000.
Definition ex_bvt : sched_bvt_control :=
  mk_bvt [Thread 4; Thread 1; Thread 2] (handle_init 0 0) 5
    (<[Thread 1 := ex_bvt_data 5 5 false]> (<[Thread 2 := ex_bvt_data 7 7 false]>
    (<[Thread 4 := ex_bvt_data 8 (-2) true]> ∅))).

Lemma ex_bvt_sorted : bvt_sorted ex_bvt.
Proof. split; [by apply (bool_decide_unpack _)|]. repeat constructor; by vm_compute. Qed.

Lemma bvt_pick_earliest_witness : exists t p',
  sched_bvt_pick_next (ex_view (Some (Thread 1))) (ex_clock 200000) ex_bvt = Ret (t, p') /\ bvt_sorted p'.
Proof.
  destruct (bvt_pick_earliest (ex_view (Some (Thread 1))) (ex_clock 200000) ex_bvt)
    as (t & p' & E & Hs & _); [discriminate|exact ex_bvt_sorted|].
  exists t, p'. split; [exact E|exact Hs].
Defined.

Lemma start_warp_avt t now p u : avt (data_of (bvt_start_warp t now p) u) = avt (data_of p u).
Proof.
  unfold bvt_start_warp. destruct (warp_on _); [done|]. destruct (bvt_can_warp _ _); [|done].
  rewrite data_of_requeue, bvt_data_of_set. case_decide; [by subst|done].
Qed.

(** a woken thread joins the queue in EVT order, with its own AVT when that is
    recent and with the system virtual time when it slept for long: it never
    joins more than the context-switch allowance behind the system. *)
Theorem bvt_wake_ok v clk t p :
  in_s64 (svt p - BVT_CSA_MCU) -> t ∉ runqueue p -> bvt_sorted p ->
  exists p', sched_bvt_wake v clk t p = Ret p' /\ bvt_sorted p' /\
    (forall x, x ∈ runqueue p' <-> x = t \/ x ∈ runqueue p) /\
    svt p - BVT_CSA_MCU < avt (data_of p' t) /\
    (avt (data_of p' t) = avt (data_of p t) \/ avt (data_of p' t) = svt p).
Proof.
  intros Hr Ht Hs. unfold sched_bvt_wake, get_svt. rewrite s64_small by done.
  set (p1 := set_data t _ p). set (p2 := bvt_start_warp t _ p1).
  set (p3 := set_data t _ p2).
  assert (bvt_sorted p1) as Hs1 by by apply set_data_sorted.
  assert (t ∉ runqueue p2) as Ht2 by by (subst p2; rewrite start_warp_elem).
  assert (bvt_sorted p3) as Hs3.
  { apply set_data_sorted; [done|]. by apply start_warp_sorted. }
  exists (runqueue_add t p3). split; [done|]. split; [by apply runqueue_add_sorted|].
  split.
  { intros x. cbn. rewrite insert_before_elem. subst p2. by rewrite start_warp_elem. }
  assert (avt (data_of (runqueue_add t p3) t) = avt (data_of p1 t)) as ->.
  { change (data_of (runqueue_add t p3) t) with (data_of p3 t). subst p3.
    rewrite bvt_data_of_set, decide_True by done. cbn. apply start_warp_avt. }
  subst p1. rewrite bvt_data_of_set, decide_True by done. cbn.
  unfold BVT_CSA_MCU in *. destruct (Z.ltb_spec (svt p - 5) (avt (data_of p t))); lia.
Qed.

Lemma bvt_wake_ok_witness : exists p',
  sched_bvt_wake (ex_view (Some (Thread 1))) (ex_clock 2000) (Thread 3) ex_bvt = Ret p' /\
  avt (data_of p' (Thread 3)) = 5 /\ bvt_sorted p'.
Proof.
  destruct (bvt_wake_ok (ex_view (Some (Thread 1))) (ex_clock 2000) (Thread 3) ex_bvt) as (p' & E & Hs & _ & _ & Ha).
  - unfold in_s64. cbn. unfold BVT_CSA_MCU. lia.
  - cbn. set_solver.
  - exact ex_bvt_sorted.
  - exists p'. split; [exact E|]. split; [|exact Hs]. injection E as <-. vm_compute. reflexivity.
Defined.

(** ** The fairness ledger *)

(** A run of the thread from [s] to [e]: [pick_next] stores the start, the next
    [update_vt] charges. *)
Definition run_interval (d : sched_bvt_data) (se : Z * Z) : sched_bvt_data :=
  charge_vt (snd se) (d <| start_tsc := fst se |>).

Definition total_run (l : list (Z * Z)) : Z := foldr (fun se a => snd se - fst se + a) 0 l.

(** Virtual time in ticks: AVT in MCUs plus the residual below one MCU. *)
Definition ledger (d : sched_bvt_data) : Z := avt d * mcu d + residual d.

Lemma charge_fields now d :
  mcu (charge_vt now d) = mcu d /\ vt_ratio (charge_vt now d) = vt_ratio d /\
  weight (charge_vt now d) = weight d.
Proof.
  unfold charge_vt, bvt_update_warp_after_charge. destruct (_ <? _); cbn;
    destruct (_ || _); cbn; try done; by destruct (_ <=? _).
Qed.

Lemma charge_avt now d :
  avt (charge_vt now d) = s64 (avt d + if start_tsc d <? now then v_delta now d / mcu d else 0) /\
  residual (charge_vt now d) = if start_tsc d <? now then v_delta now d mod mcu d else residual d.
Proof.
  unfold charge_vt, bvt_update_warp_after_charge. destruct (_ <? _); cbn;
    destruct (_ || _); cbn; try done; by destruct (_ <=? _).
Qed.

Lemma run_interval_ledger d s e :
  0 < mcu d -> 0 <= residual d < mcu d -> 0 < vt_ratio d -> 0 <= s < e -> e <= UINT64_MAX ->
  0 <= avt d -> ledger d + (e - s) * vt_ratio d < 9223372036854775808 ->
  let d' := run_interval d (s, e) in
  ledger d' = ledger d + (e - s) * vt_ratio d /\ 0 <= residual d' < mcu d' /\ 0 <= avt d' /\
  mcu d' = mcu d /\ vt_ratio d' = vt_ratio d.
Proof.
  intros Hm Hr Hv Hse He Ha Hb. cbn zeta. unfold run_interval. cbn [fst snd].
  set (d0 := d <| start_tsc := s |>).
  destruct (charge_fields e d0) as (Em & Ev & _). destruct (charge_avt e d0) as [Eavt Eres].
  unfold ledger in *. rewrite Eavt, Eres, Em, Ev. cbn.
  destruct (Z.ltb_spec s e); [|lia].
  assert (0 <= avt d * mcu d) by nia.
  assert (v_delta e d0 = (e - s) * vt_ratio d + residual d) as ->.
  { unfold v_delta, p2v. cbn. rewrite (u64_small (e - s)) by (unfold in_u64; lia).
    rewrite (u64_small ((e - s) * vt_ratio d)) by (unfold in_u64; nia).
    apply u64_small. unfold in_u64. nia. }
  remember ((e - s) * vt_ratio d + residual d) as vd eqn:Evd.
  assert (0 <= vd) by nia.
  pose proof (Z.div_mod vd (mcu d) ltac:(lia)). pose proof (Z.mod_pos_bound vd (mcu d) Hm).
  assert (0 <= vd / mcu d) by (apply Z.div_pos; lia).
  rewrite s64_small by (unfold in_s64; nia). repeat split; try lia; nia.
Qed.

(** however a thread's execution is cut into runs, and whether or not it was
    warped during them, its virtual time advances by exactly its total run time
    times [vt_ratio]: AVT is that sum in whole MCUs and the remainder is carried
    in [residual]. *)
Theorem bvt_ledger_exact l : forall d,
  0 < mcu d -> 0 <= residual d < mcu d -> 0 < vt_ratio d -> 0 <= avt d ->
  Forall (fun se => 0 <= fst se < snd se /\ snd se <= UINT64_MAX) l ->
  ledger d + total_run l * vt_ratio d < 9223372036854775808 ->
  let d' := foldl run_interval d l in
  avt d' = (ledger d + total_run l * vt_ratio d) / mcu d /\
  residual d' = (ledger d + total_run l * vt_ratio d) mod mcu d.
Proof.
  induction l as [|[s e] l IH]; intros d Hm Hr Hv Ha Hf Hb; cbn [foldl total_run foldr fst snd] in *.
  - unfold ledger. rewrite Z.mul_0_l, Z.add_0_r, (Z.add_comm (_ * _)).
    rewrite Z.div_add, Z.mod_add by lia. rewrite Z.div_small, Z.mod_small by lia. lia.
  - apply Forall_cons in Hf as [[Hse He] Hf]. cbn in Hse, He. fold (total_run l) in *.
    assert (0 <= total_run l) as Ht.
    { clear -Hf. induction Hf as [|[s e] l [? ?] _ IH]; unfold total_run in *; cbn in *; lia. }
    destruct (run_interval_ledger d s e) as (El & Hr' & Ha' & Em & Ev); try done; [nia|].
    destruct (IH (run_interval d (s, e))) as [IH1 IH2]; try (rewrite ?Em, ?Ev; done || nia).
    cbn zeta in IH1, IH2. rewrite IH1, IH2, El, Em, Ev.
    replace (ledger d + (e - s) * vt_ratio d + total_run l * vt_ratio d)
      with (ledger d + (e - s + total_run l) * vt_ratio d) by ring. done.
Qed.

Lemma bvt_ledger_exact_witness :
  let d := foldl run_interval (mk_bvt_data 62500 4 256 false 0 0 0 0 0 3 3 100 0) [(0, 1000); (5000, 5001); (7000, 9000)] in
  avt d = 15 /\ residual d = 18356.
Proof.
  cbn zeta.
  apply (bvt_ledger_exact [(0, 1000); (5000, 5001); (7000, 9000)] (mk_bvt_data 62500 4 256 false 0 0 0 0 0 3 3 100 0));
    cbn; try lia.
  - repeat constructor; cbn; lia.
  - unfold ledger. cbn. lia.
Defined.

(** [init_data] clamps the weight and derives the charge rate; the rounding of
    the rate is below one. *)
Lemma bvt_init_data_ratio v clk t prm p p' :
  sched_bvt_init_data v clk t prm p = Ret p' ->
  let d := data_of p' t in
  1 <= weight d <= 128 /\ 8 <= vt_ratio d <= 1024 /\
  vt_ratio d * weight d <= 1024 < (vt_ratio d + 1) * weight d /\ residual d = 0 /\ warp_on d = false.
Proof.
  intros [= <-]. cbn zeta. rewrite bvt_data_of_set, decide_True by done. cbn.
  unfold clamp, BVT_WEIGHT_MIN, BVT_WEIGHT_MAX, BVT_VT_RATIO_MAX.
  set (w := Z.max _ _). assert (1 <= w <= 128) by lia.
  change (BVT_WEIGHT_MAX * BVT_VT_RATIO_MIN / BVT_WEIGHT_MIN) with 1024.
  assert (8 <= 1024 / w) by (apply Z.div_le_lower_bound; lia).
  assert (1024 / w <= 1024) by (apply Z.div_le_upper_bound; lia).
  pose proof (Z.div_mod 1024 w ltac:(lia)). pose proof (Z.mod_pos_bound 1024 w ltac:(lia)).
  repeat split; try lia; nia.
Qed.

(** ** Bounded warp *)

(** A warp lasts for [warp_left] charged MCUs: a charge below that shortens the
    window, a charge that reaches it ends the warp and starts the cooldown; the
    EVT is AVT again once the warp is over. *)
Lemma bvt_warp_bounded now c d :
  warp_on d = true -> 0 < c -> in_u32 (warp_left d) ->
  let d' := update_evt (bvt_update_warp_after_charge c now d) in
  avt d' = avt d /\ residual d' = residual d /\
  if warp_left d <=? c
  then warp_on d' = false /\ evt d' = avt d /\ last_unwarp_tsc d' = now
  else warp_on d' = true /\ warp_left d' = warp_left d - c /\ evt d' = s64 (avt d - warp_value d).
Proof.
  intros Hw Hc Hl. cbn zeta. unfold bvt_update_warp_after_charge. rewrite Hw. cbn [negb orb].
  unfold in_u32 in *. rewrite (proj2 (Z.eqb_neq c 0)) by lia.
  destruct (Z.leb_spec (warp_left d) c) as [Hle|Hgt]; [done|].
  cbn. rewrite Hw. rewrite (u32_small c), u32_small by (unfold in_u32; lia). done.
Qed.

(** ** The system virtual time *)

(** Without warps the SVT is the minimum AVT of the queue, as documented. *)
Lemma svt_is_minimum p :
  bvt_sorted p -> (forall t, t ∈ runqueue p -> evt (data_of p t) = avt (data_of p t)) ->
  runqueue p <> [] ->
  (exists t, t ∈ runqueue p /\ svt (update_svt p) = avt (data_of p t)) /\
  (forall t, t ∈ runqueue p -> svt (update_svt p) <= avt (data_of p t)).
Proof.
  intros [_ Hs] He Hne. unfold update_svt. destruct (runqueue p) as [|f r] eqn:E; [done|].
  cbn. split; [exists f; set_solver|]. intros t Ht.
  pose proof (sorted_head_le _ _ _ _ Hs Ht) as Hk. unfold key_le, evt_of in Hk.
  rewrite (He f), (He t) in Hk by set_solver. done.
Qed.

(** With a warped thread at the head it is not: the head may be a thread whose
    AVT is later than a peer's. *)
Lemma svt_not_minimum : exists p t,
  bvt_sorted p /\ t ∈ runqueue p /\ avt (data_of p t) < svt (update_svt p).
Proof.
  set (d a w := mk_bvt_data 1 1 1024 w 10 1 0 1 0 a (if w then a - 10 else a) 0 0).
  exists (mk_bvt [Thread 1; Thread 2] (handle_init 0 0) 0
    (<[Thread 1 := d 8 true]> (<[Thread 2 := d 5 false]> ∅))), (Thread 2).
  split.
  - split; [by apply (bool_decide_unpack _)|].
    repeat constructor; by vm_compute.
  - split; [set_solver|]. by vm_compute.
Qed.
