(* ===== verification/Cbs.v ===== *)
(** * The constant-bandwidth-server policy (core/sched/cbs.c)

    Each thread is a server with budget Q and period T; the run queue is sorted
    by absolute deadline.  Execution consumes the remaining budget; a depleted
    server gets a fresh budget with a deadline one period later. *)
From S2P Require Import Prelude Ticks Timer SchedTypes.

Definition CBS_DEFAULT_PERIOD_US : Z := 4000.
Definition CBS_DEFAULT_BUDGET_US : Z := 2000.
Definition CBS_MIN_PERIOD_US : Z := 500.
Definition CBS_MIN_BUDGET_US : Z := 500.
Definition CBS_UTIL_SCALE : Z := 1000000.

Record sched_cbs_data := mk_cbs_data {
  period_ticks : Z;
  budget_ticks : Z;
  remaining_ticks : Z;
  deadline_ticks : Z;
  last_start_ticks : Z;
  depleted_count : Z;
  replenish_count : Z;
  wake_replenish_count : Z;
  late_account_count : Z }.
#[export] Instance eta_cbs_data : Eta sched_cbs_data := fun d =>
  mk_cbs_data (period_ticks d) (budget_ticks d) (remaining_ticks d) (deadline_ticks d)
    (last_start_ticks d) (depleted_count d) (replenish_count d) (wake_replenish_count d)
    (late_account_count d).
#[export] Instance cbs_data_inhabited : Inhabited sched_cbs_data :=
  populate (mk_cbs_data 0 0 0 0 0 0 0 0 0).

Record sched_cbs_control := mk_cbs {
  runqueue : list tid;
  tick_timer : timer_handle;
  timer_deadline_ticks : Z;
  admission_utilization : Z;
  data : gmap tid sched_cbs_data }.
#[export] Instance eta_cbs : Eta sched_cbs_control := fun p =>
  mk_cbs (runqueue p) (tick_timer p) (timer_deadline_ticks p) (admission_utilization p) (data p).

Definition data_of (p : sched_cbs_control) (t : tid) : sched_cbs_data := data p !!! t.
Definition set_data (t : tid) (d : sched_cbs_data) (p : sched_cbs_control) : sched_cbs_control :=
  p <| data := <[t := d]> (data p) |>.

Definition cbs_is_queued (p : sched_cbs_control) (t : tid) : bool := bool_decide (t ∈ runqueue p).

(** ** Parameters *)

(** (period, budget) in microseconds of a thread on [pcpu]: its own parameters,
    else the pool's, else the defaults. *)
Definition cbs_normalize_us (plat : platform) (pcpu : Z) (prm : sched_params) : outcome (Z * Z) :=
  let period := if cbs_period_us prm =? 0 then CBS_DEFAULT_PERIOD_US else cbs_period_us prm in
  let budget := if cbs_budget_us prm =? 0 then CBS_DEFAULT_BUDGET_US else cbs_budget_us prm in
  let '(period, budget) :=
    match sched_get_pcpu_pool_config (sched_config plat) pcpu with
    | Some pool =>
        if bool_decide (policy pool = SCHED_POLICY_CBS) then
          (if (cbs_period_us prm =? 0) && negb (period_us pool =? 0) then period_us pool else period,
           if (cbs_budget_us prm =? 0) && negb (budget_us pool =? 0) then budget_us pool else budget)
        else (period, budget)
    | None => (period, budget)
    end in
  if period <? CBS_MIN_PERIOD_US then Panic "CBS period below minimum"
  else if budget <? CBS_MIN_BUDGET_US then Panic "CBS budget below minimum"
  else if period <? budget then Panic "CBS budget > period"
  else Ret (period, budget).

(** ** Server arithmetic *)
Definition cbs_count_event (c : Z) : Z := if c =? UINT64_MAX then c else c + 1.

Definition count_replenish (count : bool) (d : sched_cbs_data) : sched_cbs_data :=
  if count then d <| replenish_count := cbs_count_event (replenish_count d) |> else d.

Definition cbs_replenish_from_now (now : Z) (count : bool) (d : sched_cbs_data) : sched_cbs_data :=
  count_replenish count
    (d <| deadline_ticks := u64 (now + period_ticks d) |> <| remaining_ticks := budget_ticks d |>).

Definition cbs_replenish_next_window (count : bool) (d : sched_cbs_data) : sched_cbs_data :=
  let d := d <| deadline_ticks :=
      if UINT64_MAX - period_ticks d <? deadline_ticks d then UINT64_MAX
      else deadline_ticks d + period_ticks d |> in
  count_replenish count (d <| remaining_ticks := budget_ticks d |>).

(** The do-while of [cbs_replenish_after_depletion]. *)
Fixpoint replenish_windows (fuel : nat) (now : Z) (count : bool) (d : sched_cbs_data)
    : option sched_cbs_data :=
  match fuel with
  | O => None
  | S f =>
      let d := cbs_replenish_next_window count d in
      if (deadline_ticks d <=? now) && negb (deadline_ticks d =? UINT64_MAX)
      then replenish_windows f now count d else Some d
  end.
Definition windows_fuel (now : Z) (d : sched_cbs_data) : nat :=
  S (Z.to_nat ((now - deadline_ticks d) / period_ticks d + 1)).

Definition cbs_replenish_after_depletion (now : Z) (count : bool) (d : sched_cbs_data)
    : outcome sched_cbs_data :=
  if deadline_ticks d =? 0 then Ret (cbs_replenish_from_now now count d)
  else finished "cbs_replenish_after_depletion" (replenish_windows (windows_fuel now d) now count d).

(** The loop of [cbs_charge_runtime]. *)
Fixpoint charge_loop (fuel : nat) (delta : Z) (count : bool) (d : sched_cbs_data)
    : option sched_cbs_data :=
  match fuel with
  | O => None
  | S f =>
      if delta =? 0 then Some d
      else
        let d := if remaining_ticks d =? 0 then cbs_replenish_next_window count d else d in
        if delta <? remaining_ticks d
        then Some (d <| remaining_ticks := remaining_ticks d - delta |>)
        else
          let delta := delta - remaining_ticks d in
          let d := d <| remaining_ticks := 0 |> in
          charge_loop f delta count
            (if count then d <| depleted_count := cbs_count_event (depleted_count d) |> else d)
  end.
Definition charge_fuel (delta : Z) (d : sched_cbs_data) : nat :=
  S (S (Z.to_nat (delta / budget_ticks d + 1))).

Definition cbs_charge_runtime (delta : Z) (count : bool) (d : sched_cbs_data)
    : outcome sched_cbs_data :=
  finished "cbs_charge_runtime" (charge_loop (charge_fuel delta d) delta count d).

(** The 128-bit branch, the one an AArch64 compiler takes. *)
Definition cbs_ratio_greater (left_num left_den right_num right_den : Z) : bool :=
  right_num * left_den <? left_num * right_den.

(** The branch for compilers without a 128-bit type. *)
Definition cbs_ratio_greater_64 (left_num left_den right_num right_den : Z) : bool :=
  let left_overflow := negb (left_num =? 0) && (UINT64_MAX / left_num <? right_den) in
  let right_overflow := negb (right_num =? 0) && (UINT64_MAX / right_num <? left_den) in
  if left_overflow || right_overflow then
    let left_q := left_num / left_den in
    let right_q := right_num / right_den in
    if negb (left_q =? right_q) then right_q <? left_q
    else left_overflow && negb right_overflow
  else u64 (right_num * left_den) <? u64 (left_num * right_den).

Definition cbs_needs_wake_replenish (now : Z) (d : sched_cbs_data) : bool :=
  if deadline_ticks d <=? now then true
  else cbs_ratio_greater (remaining_ticks d) (deadline_ticks d - now) (budget_ticks d) (period_ticks d).

Definition cbs_refresh_active_window (now : Z) (d : sched_cbs_data) : outcome sched_cbs_data :=
  if remaining_ticks d =? 0 then cbs_replenish_after_depletion now true d
  else if deadline_ticks d <=? now then Ret (cbs_replenish_from_now now true d)
  else Ret d.

Definition cbs_apply_inactive_wake_rule (now : Z) (d : sched_cbs_data) : outcome sched_cbs_data :=
  let counted d := d <| wake_replenish_count := cbs_count_event (wake_replenish_count d) |> in
  if remaining_ticks d =? 0 then
    d ← cbs_replenish_after_depletion now true d; Ret (counted d)
  else if cbs_needs_wake_replenish now d then Ret (counted (cbs_replenish_from_now now true d))
  else Ret d.

Definition cbs_record_late_account (now : Z) (d : sched_cbs_data) : sched_cbs_data :=
  let due := deadline_ticks d in
  let budget_due :=
    if remaining_ticks d =? 0 then last_start_ticks d
    else if last_start_ticks d <=? UINT64_MAX - remaining_ticks d
    then last_start_ticks d + remaining_ticks d else 0 in
  let due := if negb (budget_due =? 0) && ((due =? 0) || (budget_due <? due)) then budget_due else due in
  if negb (due =? 0) && (due <? now)
  then d <| late_account_count := cbs_count_event (late_account_count d) |> else d.

(** ** Queue operations *)
Definition cbs_queue_remove (t : tid) (p : sched_cbs_control) : sched_cbs_control :=
  if cbs_is_queued p t then p <| runqueue := list_del_init t (runqueue p) |> else p.

Definition cbs_queue_insert (t : tid) (p : sched_cbs_control) : sched_cbs_control :=
  let p := cbs_queue_remove t p in
  p <| runqueue :=
    insert_before (fun x => deadline_ticks (data_of p t) <? deadline_ticks (data_of p x))
      t (runqueue p) |>.

Definition cbs_account_runtime (v : sched_view) (t : tid) (now : Z) (p : sched_cbs_control)
    : outcome sched_cbs_control :=
  let d := data_of p t in
  if is_idle_thread v t || negb (bool_decide (status (thr v t) = THREAD_STS_RUNNING)) ||
     (last_start_ticks d =? 0) || (now <=? last_start_ticks d)
  then Ret p
  else
    let delta := now - last_start_ticks d in
    let d := (cbs_record_late_account now d) <| last_start_ticks := now |> in
    d ← cbs_charge_runtime delta true d;
    Ret (set_data t d p).

Definition cbs_refresh_thread (v : sched_view) (t : tid) (now : Z) (p : sched_cbs_control)
    : outcome sched_cbs_control :=
  if is_active v t then
    d ← cbs_refresh_active_window now (data_of p t);
    Ret (cbs_queue_insert t (set_data t d p))
  else Ret p.

(** A queued server whose window is over. *)
Definition cbs_stale (now : Z) (p : sched_cbs_control) (t : tid) : bool :=
  (remaining_ticks (data_of p t) =? 0) || (deadline_ticks (data_of p t) <=? now).

Definition refresh_body (v : sched_view) (now : Z) (t : tid) (p : sched_cbs_control)
    : outcome sched_cbs_control :=
  if cbs_stale now p t then cbs_refresh_thread v t now (cbs_queue_remove t p) else Ret p.

(** Every node costs one step, and one more while it is stale. *)
Definition cbs_refresh_queues (v : sched_view) (now : Z) (p : sched_cbs_control)
    : outcome sched_cbs_control :=
  list_for_each_safe runqueue (refresh_body v now) (2 * length (runqueue p)) p.

(** ** The timer *)
Definition cbs_timeout (v : sched_view) (running : option tid) (now : Z) (p : sched_cbs_control) : Z :=
  let timeout :=
    match running with
    | Some r =>
        if is_idle_thread v r then 0
        else
          let d := data_of p r in
          if 0 <? remaining_ticks d then
            let timeout := if negb (last_start_ticks d =? 0)
                           then u64 (last_start_ticks d + remaining_ticks d)
                           else u64 (now + remaining_ticks d) in
            if deadline_ticks d <? timeout then deadline_ticks d else timeout
          else now
    | None => 0
    end in
  if timeout <=? now then (if timeout =? 0 then 0 else now) else timeout.

Definition cbs_program_local_timer (v : sched_view) (running : option tid) (now : Z)
    (p : sched_cbs_control) : outcome sched_cbs_control :=
  _ ← ASSERT (v_pcpu v =? v_cpu v) "program CBS timer on wrong cpu!";
  let timeout := cbs_timeout v running now p in
  if timeout =? timer_deadline_ticks p then Ret p
  else
    let p := if negb (timer_deadline_ticks p =? 0)
             then p <| tick_timer := handle_del (tick_timer p) |> <| timer_deadline_ticks := 0 |>
             else p in
    if negb (timeout =? 0) then
      '(_, h) ← handle_add (v_khz v) (handle_update timeout 0 (tick_timer p));
      Ret (p <| tick_timer := h |> <| timer_deadline_ticks := timeout |>)
    else Ret p.

Definition cbs_program_timer (v : sched_view) (running : option tid) (now : Z)
    (p : sched_cbs_control) : outcome sched_cbs_control :=
  if v_pcpu v =? v_cpu v then cbs_program_local_timer v running now p else Ret p.

(** Account and refresh the current thread; [cbs_timer_handler] and
    [sched_cbs_pick_next] start with this. *)
Definition settle_current (v : sched_view) (now : Z) (p : sched_cbs_control)
    : outcome sched_cbs_control :=
  match v_curr v with
  | Some current =>
      if is_idle_thread v current then Ret p
      else p ← cbs_account_runtime v current now p; cbs_refresh_thread v current now p
  | None => Ret p
  end.

(** The softirq has unlinked the timer when it calls the handler. *)
Definition cbs_timer_handler (v : sched_view) (clk : clock) (p : sched_cbs_control)
    : outcome (bool * sched_cbs_control) :=
  let p := p <| tick_timer := handle_del (tick_timer p) |> <| timer_deadline_ticks := 0 |> in
  p ← settle_current v (clk 0%nat) p;
  p ← cbs_refresh_queues v (clk 0%nat) p;
  p ← cbs_program_local_timer v (v_curr v) (clk 1%nat) p;
  Ret (true, p).

(** ** Admission *)
Definition cbs_vm_uses_pcpu (cfg : acrn_vm_config) (pcpu : Z) : bool := vm_affinity_uses_pcpu cfg pcpu.

Fixpoint admission_loop (plat : platform) (pcpu : Z) (cfgs : list acrn_vm_config) (utilization : Z)
    : outcome Z :=
  match cfgs with
  | [] => Ret utilization
  | cfg :: rest =>
      if cbs_vm_uses_pcpu cfg pcpu then
        '(period, budget) ← cbs_normalize_us plat pcpu (vm_sched_params cfg);
        let utilization := u64 (utilization + u64 (budget * CBS_UTIL_SCALE) / period) in
        if CBS_UTIL_SCALE <? utilization then Panic "CBS admission failed"
        else admission_loop plat pcpu rest utilization
      else admission_loop plat pcpu rest utilization
  end.

Definition cbs_validate_pcpu_admission (plat : platform) (pcpu : Z) : outcome Z :=
  admission_loop plat pcpu (take (Z.to_nat CONFIG_MAX_VM_NUM) (vm_configs plat)) 0.

Definition sched_cbs_init (v : sched_view) (clk : clock) (p : sched_cbs_control)
    : outcome (Z * sched_cbs_control) :=
  _ ← ASSERT (v_pcpu v =? v_cpu v) "init scheduler on wrong cpu!";
  u ← cbs_validate_pcpu_admission (v_plat v) (v_pcpu v);
  Ret (0, p <| runqueue := [] |> <| admission_utilization := u |>
            <| timer_deadline_ticks := 0 |> <| tick_timer := handle_init 0 0 |>).

Definition sched_cbs_deinit (v : sched_view) (clk : clock) (p : sched_cbs_control)
    : outcome sched_cbs_control :=
  Ret (p <| tick_timer := handle_del (tick_timer p) |> <| timer_deadline_ticks := 0 |>).

(** [INIT_LIST_HEAD(&data->list)] has no counterpart: the framework calls this
    on blocked threads, whose node is on no list. *)
Definition sched_cbs_init_data (v : sched_view) (clk : clock) (t : tid) (prm : sched_params)
    (p : sched_cbs_control) : outcome sched_cbs_control :=
  '(period, budget) ← cbs_normalize_us (v_plat v) (pcpu_id (thr v t)) prm;
  let per := us_to_ticks (v_khz v) period in
  let bud := us_to_ticks (v_khz v) budget in
  Ret (set_data t (mk_cbs_data per bud bud (u64 (clk 0%nat + per)) 0 0 0 0 0) p).

Definition sched_cbs_pick_next (v : sched_view) (clk : clock) (p : sched_cbs_control)
    : outcome (tid * sched_cbs_control) :=
  let now := clk 0%nat in
  p ← settle_current v now p;
  p ← cbs_refresh_queues v now p;
  let '(next, p) :=
    match runqueue p with
    | t :: _ => (t, cbs_queue_remove t p)
    | [] => (Idle (v_cpu v), p)
    end in
  let p := if is_idle_thread v next then p
           else set_data next ((data_of p next) <| last_start_ticks := now |>) p in
  p ← cbs_program_timer v (Some next) (clk 1%nat) p;
  Ret (next, p).

(** The counter is read for the accounting only when the thread is current. *)
Definition sched_cbs_sleep (v : sched_view) (clk : clock) (t : tid) (p : sched_cbs_control)
    : outcome sched_cbs_control :=
  p ← (if is_current v t then cbs_account_runtime v t (clk 0%nat) p else Ret p);
  let p := cbs_queue_remove t p in
  let p := set_data t ((data_of p t) <| last_start_ticks := 0 |>) p in
  if is_current v t then cbs_program_timer v None (clk 1%nat) p
  else cbs_program_timer v (v_curr v) (clk 0%nat) p.

Definition sched_cbs_wake (v : sched_view) (clk : clock) (t : tid) (p : sched_cbs_control)
    : outcome sched_cbs_control :=
  d ← cbs_apply_inactive_wake_rule (clk 0%nat) (data_of p t);
  let p := cbs_queue_insert t (set_data t (d <| last_start_ticks := 0 |>) p) in
  cbs_program_timer v (v_curr v) (clk 1%nat) p.

Definition sched_cbs_prioritize (v : sched_view) (clk : clock) (t : tid) (p : sched_cbs_control)
    : outcome sched_cbs_control :=
  d ← cbs_refresh_active_window (clk 0%nat) (data_of p t);
  let p := set_data t d p in
  Ret (if is_current v t then p else cbs_queue_insert t p).

Definition sched_cbs_suspend := sched_cbs_deinit.

Definition sched_cbs : sched_ops sched_cbs_control :=
  mk_ops sched_cbs_init (Some sched_cbs_init_data) (Some sched_cbs_pick_next)
    (Some sched_cbs_sleep) (Some sched_cbs_wake) (Some sched_cbs_prioritize) None
    (Some sched_cbs_deinit) (Some sched_cbs_suspend) None (Some cbs_timer_handler).

(** ** Statistics *)
Definition sched_cbs_snapshot (v : sched_view) (now : Z) (t : tid) (p : sched_cbs_control)
    : outcome sched_cbs_data :=
  let d := data_of p t in
  if bool_decide (status (thr v t) = THREAD_STS_RUNNING) && negb (is_idle_thread v t) &&
     negb (last_start_ticks d =? 0) && (last_start_ticks d <? now) then
    live ← cbs_charge_runtime (now - last_start_ticks d) false d;
    Ret (d <| remaining_ticks := remaining_ticks live |> <| deadline_ticks := deadline_ticks live |>)
  else Ret d.

Definition cbs_runqueue_count (p : sched_cbs_control) : Z := u32 (Z.of_nat (length (runqueue p))).

(** [sched_get_cbs_stats]: [is_cbs] says whether the thread's control runs
    [sched_cbs]; [None] is a NULL thread or the result false. *)
Definition sched_get_cbs_stats (v : sched_view) (clk : clock) (is_cbs : bool) (obj : option tid)
    (p : sched_cbs_control) : outcome (option sched_cbs_data) :=
  match obj with
  | Some t =>
      if sched_ctl (thr v t) && is_cbs then
        st ← sched_cbs_snapshot v (clk 0%nat) t p; Ret (Some st)
      else Ret None
  | None => Ret None
  end.

(** (admission utilization, queue length) *)
Definition sched_get_cbs_pcpu_stats (plat : platform) (is_cbs : bool) (pcpu : Z)
    (p : option sched_cbs_control) : option (Z * Z) :=
  if (pcpu <? pcpu_nums plat) && is_cbs then
    (fun c => (admission_utilization c, cbs_runqueue_count c)) <$> p
  else None.

(** ** Server arithmetic *)

(** A server the kernel of the policy can work with: 55 bits of period leave
    room for a century of counter readings below [TIME_BOUND]. *)
Definition TIME_BOUND : Z := 2 ^ 63.
Definition server_ok (d : sched_cbs_data) : Prop :=
  0 < budget_ticks d <= period_ticks d /\ period_ticks d <= 2 ^ 55 /\
  0 <= remaining_ticks d <= budget_ticks d /\ in_u64 (deadline_ticks d).

Definition same_server (d d' : sched_cbs_data) : Prop :=
  period_ticks d' = period_ticks d /\ budget_ticks d' = budget_ticks d /\
  last_start_ticks d' = last_start_ticks d.

#[export] Instance same_server_refl : Reflexive same_server.
Proof. by intros d. Qed.
#[export] Instance same_server_trans : Transitive same_server.
Proof. intros a b c (? & ? & ?) (? & ? & ?). unfold same_server. repeat split; congruence. Qed.

Lemma cbs_next_window_ok count d :
  server_ok d ->
  let d' := cbs_replenish_next_window count d in
  same_server d d' /\ server_ok d' /\ remaining_ticks d' = budget_ticks d /\
  deadline_ticks d' = Z.min UINT64_MAX (deadline_ticks d + period_ticks d).
Proof.
  unfold server_ok, in_u64. intros (Hb & Hp & Hr & Hd). cbn zeta.
  assert (deadline_ticks (cbs_replenish_next_window count d) =
    Z.min UINT64_MAX (deadline_ticks d + period_ticks d)) as E.
  { unfold cbs_replenish_next_window. destruct count; cbn; zb; lia. }
  rewrite E. unfold cbs_replenish_next_window. destruct count; cbn; repeat split; try done; lia.
Qed.

Lemma from_now_ok now count d :
  server_ok d -> 0 <= now < TIME_BOUND ->
  let d' := cbs_replenish_from_now now count d in
  same_server d d' /\ server_ok d' /\ remaining_ticks d' = budget_ticks d /\
  deadline_ticks d' = now + period_ticks d.
Proof.
  unfold server_ok, in_u64, TIME_BOUND. intros (Hb & Hp & Hr & Hd) Hn. cbn zeta.
  unfold cbs_replenish_from_now.
  destruct count; cbn; rewrite u64_small by (unfold in_u64; lia); repeat split; try done; lia.
Qed.

(** The number of periods [k] a charge of [delta] moves the deadline by is the
    least one whose budgets cover the charge. *)
Lemma charge_loop_ok count fuel : forall delta d,
  server_ok d -> 0 <= delta -> (0 < fuel)%nat ->
  delta < (Z.of_nat fuel - 1) * budget_ticks d +
    (if remaining_ticks d =? 0 then budget_ticks d else remaining_ticks d) ->
  exists d' k, charge_loop fuel delta count d = Some d' /\ same_server d d' /\ server_ok d' /\
    0 <= k /\ remaining_ticks d' = remaining_ticks d + k * budget_ticks d - delta /\
    deadline_ticks d' = Z.min UINT64_MAX (deadline_ticks d + k * period_ticks d) /\
    (k = 0 \/ remaining_ticks d + (k - 1) * budget_ticks d < delta).
Proof.
  induction fuel as [|fuel IH]; intros delta d Hs Hd Hf Hfuel; [lia|]. cbn [charge_loop].
  destruct (Z.eqb_spec delta 0) as [->|Hne].
  { exists d, 0. destruct Hs as (? & ? & ? & Hu). unfold in_u64 in Hu.
    split_and!; try done; lia. }
  set (d1 := if remaining_ticks d =? 0 then _ else d).
  assert (exists k1, same_server d d1 /\ server_ok d1 /\ 0 <= k1 /\ 0 < remaining_ticks d1 /\
    remaining_ticks d1 = remaining_ticks d + k1 * budget_ticks d /\
    (k1 = 0 \/ (k1 = 1 /\ remaining_ticks d = 0)) /\
    remaining_ticks d1 = (if remaining_ticks d =? 0 then budget_ticks d else remaining_ticks d) /\
    deadline_ticks d1 = Z.min UINT64_MAX (deadline_ticks d + k1 * period_ticks d))
    as (k1 & S1 & O1 & Hk1 & Hr1 & E1 & C1 & M1 & D1).
  { pose proof Hs as (? & ? & ? & Hu). unfold in_u64 in Hu. subst d1.
    destruct (Z.eqb_spec (remaining_ticks d) 0) as [E|E].
    - destruct (cbs_next_window_ok count d Hs) as (? & ? & ? & ED).
      exists 1. rewrite ED. split_and!; try done; try lia; auto.
    - exists 0. split_and!; try done; try lia; auto. }
  rewrite <- M1 in Hfuel. clearbody d1. pose proof S1 as (EP & EB & EL).
  pose proof Hs as (Hb & Hp & Hr & Hu). pose proof O1 as (_ & _ & Hrem1 & Hu1).
  unfold in_u64 in Hu, Hu1. destruct (Z.ltb_spec delta (remaining_ticks d1)) as [Hlt|Hge].
  { eexists _, k1. split; [done|]. unfold same_server, server_ok, in_u64. cbn.
    rewrite EP, EB, EL in *. split_and!; try done; lia. }
  set (d2 := if count then _ else _).
  assert (same_server d1 d2 /\ server_ok d2 /\ remaining_ticks d2 = 0 /\
    deadline_ticks d2 = deadline_ticks d1) as (S2 & O2 & R2 & D2).
  { subst d2. unfold same_server, server_ok, in_u64. destruct count; cbn; split_and!; try done; lia. }
  clearbody d2. pose proof S2 as (EP2 & EB2 & _).
  destruct (IH (delta - remaining_ticks d1) d2) as (d' & k & E & S' & O' & Hk & R' & D' & C');
    [done|lia| |rewrite R2; cbn; nia|].
  { destruct fuel; [|lia]. lia. }
  rewrite R2, EP2, EB2, EP, EB in *. exists d', (k1 + k).
  split; [done|]. split; [by etransitivity; [exact S1|etransitivity]|]. split; [done|].
  rewrite R', D', D2, D1. split_and!; try nia.
Qed.

Lemma cbs_charge_ok delta count d :
  server_ok d -> 0 <= delta ->
  exists d' k, cbs_charge_runtime delta count d = Ret d' /\ same_server d d' /\ server_ok d' /\
    0 <= k /\ remaining_ticks d' = remaining_ticks d + k * budget_ticks d - delta /\
    deadline_ticks d' = Z.min UINT64_MAX (deadline_ticks d + k * period_ticks d) /\
    (k = 0 \/ remaining_ticks d + (k - 1) * budget_ticks d < delta).
Proof.
  intros Hs Hd. pose proof Hs as (Hb & _ & Hr & _).
  assert (0 <= delta / budget_ticks d) by (apply Z.div_pos; lia).
  pose proof (Z.div_mod delta (budget_ticks d) ltac:(lia)).
  pose proof (Z.mod_pos_bound delta (budget_ticks d) ltac:(lia)).
  destruct (charge_loop_ok count (charge_fuel delta d) delta d) as (d' & k & E & H'); [done..| | |].
  - unfold charge_fuel. lia.
  - unfold charge_fuel. rewrite !Nat2Z.inj_succ, Z2Nat.id by lia. zb; nia.
  - exists d', k. unfold cbs_charge_runtime. by rewrite E.
Qed.

(** The deadline moves by the least number of whole periods that puts it after
    [now]; the walk ends. *)
Lemma replenish_windows_ok now count fuel : forall d,
  server_ok d -> 0 <= now < UINT64_MAX -> (0 < fuel)%nat ->
  now < deadline_ticks d + Z.of_nat fuel * period_ticks d ->
  exists d' k, replenish_windows fuel now count d = Some d' /\ same_server d d' /\ server_ok d' /\
    remaining_ticks d' = budget_ticks d /\ now < deadline_ticks d' /\ 1 <= k /\
    deadline_ticks d' = Z.min UINT64_MAX (deadline_ticks d + k * period_ticks d) /\
    (k = 1 \/ deadline_ticks d + (k - 1) * period_ticks d <= now).
Proof.
  induction fuel as [|fuel IH]; intros d Hs Hn Hf Hfuel; [lia|]. cbn [replenish_windows].
  destruct (cbs_next_window_ok count d Hs) as (S1 & O1 & R1 & D1).
  set (d1 := cbs_replenish_next_window count d) in *. clearbody d1.
  pose proof S1 as (EP & EB & _). pose proof Hs as (Hb & Hp & _ & Hu). unfold in_u64 in Hu.
  destruct ((deadline_ticks d1 <=? now) && negb (deadline_ticks d1 =? UINT64_MAX)) eqn:T.
  - apply andb_true_iff in T as [T _]. apply Z.leb_le in T.
    destruct (IH d1) as (d' & k & E & S' & O' & R' & L' & Hk & D' & C'); [done..| | |].
    + destruct fuel; [|lia]. lia.
    + rewrite EP. lia.
    + rewrite EP, EB in *. exists d', (k + 1). split; [done|].
      split; [by etransitivity|]. split_and!; try done; lia.
  - exists d1, 1. split_and!; try done; lia.
Qed.

Lemma after_depletion_ok now count d :
  server_ok d -> 0 <= now < TIME_BOUND ->
  exists d', cbs_replenish_after_depletion now count d = Ret d' /\ same_server d d' /\ server_ok d' /\
    remaining_ticks d' = budget_ticks d /\ now < deadline_ticks d'.
Proof.
  intros Hs Hn. unfold cbs_replenish_after_depletion. pose proof Hs as (Hb & Hp & _ & Hu).
  unfold in_u64, TIME_BOUND in *. destruct (Z.eqb_spec (deadline_ticks d) 0).
  { destruct (from_now_ok now count d Hs Hn) as (? & ? & ? & ED).
    eexists. split; [done|]. rewrite ED. split_and!; try done; lia. }
  destruct (replenish_windows_ok now count (windows_fuel now d) d) as (d' & k & E & H'); [done|lia|..].
  - unfold windows_fuel. lia.
  - unfold windows_fuel. rewrite Nat2Z.inj_succ.
    pose proof (Z.div_mod (now - deadline_ticks d) (period_ticks d) ltac:(lia)).
    pose proof (Z.mod_pos_bound (now - deadline_ticks d) (period_ticks d) ltac:(lia)).
    destruct (Z.le_gt_cases 0 ((now - deadline_ticks d) / period_ticks d + 1)).
    + rewrite Z2Nat.id by lia. nia.
    + rewrite Z2Nat.nonpos by lia. nia.
  - exists d'. rewrite E. cbn. tauto.
Qed.

(** A window that is not over is left alone; afterwards there is budget and the
    deadline is in the future. *)
Definition fresh (now : Z) (d : sched_cbs_data) : Prop :=
  0 < remaining_ticks d /\ now < deadline_ticks d.

Lemma refresh_active_ok now d :
  server_ok d -> 0 <= now < TIME_BOUND ->
  exists d', cbs_refresh_active_window now d = Ret d' /\ same_server d d' /\ server_ok d' /\
    fresh now d' /\ (fresh now d -> d' = d).
Proof.
  intros Hs Hn. unfold cbs_refresh_active_window, fresh. pose proof Hs as (Hb & Hp & Hr & _).
  destruct (Z.eqb_spec (remaining_ticks d) 0).
  { destruct (after_depletion_ok now true d Hs Hn) as (d' & E & S' & O' & R' & L').
    exists d'. split_and!; try done; lia. }
  destruct (Z.leb_spec (deadline_ticks d) now).
  { destruct (from_now_ok now true d Hs Hn) as (? & ? & ER & ED).
    eexists. split; [done|]. rewrite ER, ED. split_and!; try done; lia. }
  exists d. split_and!; try done; lia.
Qed.

Lemma count_wake_ok d :
  let d' := d <| wake_replenish_count := cbs_count_event (wake_replenish_count d) |> in
  same_server d d' /\ (server_ok d -> server_ok d') /\
  remaining_ticks d' = remaining_ticks d /\ deadline_ticks d' = deadline_ticks d.
Proof. done. Qed.

(** The density rule: a server that wakes with budget left gets a deadline at
    which what it may use fits its reservation. *)
Lemma wake_rule_ok now d :
  server_ok d -> 0 <= now < TIME_BOUND ->
  exists d', cbs_apply_inactive_wake_rule now d = Ret d' /\ same_server d d' /\ server_ok d' /\
    fresh now d' /\
    (0 < remaining_ticks d ->
     remaining_ticks d' * period_ticks d <= (deadline_ticks d' - now) * budget_ticks d).
Proof.
  intros Hs Hn. unfold cbs_apply_inactive_wake_rule, fresh. pose proof Hs as (Hb & Hp & Hr & _).
  destruct (Z.eqb_spec (remaining_ticks d) 0).
  { destruct (after_depletion_ok now true d Hs Hn) as (d1 & E & S' & O' & R' & L').
    rewrite E. eexists. split; [done|]. split; [exact S'|]. split; [exact O'|]. cbn. lia. }
  unfold cbs_needs_wake_replenish, cbs_ratio_greater.
  destruct (from_now_ok now true d Hs Hn) as (S' & O' & ER & ED).
  destruct (Z.leb_spec (deadline_ticks d) now); [|destruct (Z.ltb_spec
    (budget_ticks d * (deadline_ticks d - now)) (remaining_ticks d * period_ticks d))].
  3: { exists d. split_and!; try done; lia. }
  all: eexists; split; [done|]; split; [exact S'|]; split; [exact O'|];
    change (deadline_ticks (_ <| wake_replenish_count := _ |>))
      with (deadline_ticks (cbs_replenish_from_now now true d));
    change (remaining_ticks (_ <| wake_replenish_count := _ |>))
      with (remaining_ticks (cbs_replenish_from_now now true d));
    rewrite ER, ED; nia.
Qed.

(** ** The invariant of the policy *)
Definition deadline_of (p : sched_cbs_control) (t : tid) : Z := deadline_ticks (data_of p t).
Definition known (p : sched_cbs_control) (t : tid) : Prop := is_Some (data p !! t).
Definition entry_ok (d : sched_cbs_data) : Prop :=
  server_ok d /\ 0 <= last_start_ticks d < TIME_BOUND.

Definition cbs_sorted (p : sched_cbs_control) : Prop :=
  NoDup (runqueue p) /\ StronglySorted (key_le (deadline_of p)) (runqueue p).
(** Sorted but for the place of one thread. *)
Definition sorted_but (t : tid) (p : sched_cbs_control) : Prop :=
  NoDup (runqueue p) /\ StronglySorted (key_le (deadline_of p)) (list_del_init t (runqueue p)).
Definition servers_ok (p : sched_cbs_control) : Prop :=
  map_Forall (fun _ d => entry_ok d) (data p) /\ forall t, t ∈ runqueue p -> known p t.

(** The timer runs exactly when a deadline is cached, and then with that
    deadline. *)
Definition timer_ok (p : sched_cbs_control) : Prop :=
  let h := tick_timer p in
  func (th_timer h) = true /\ th_started h = negb (timer_deadline_ticks p =? 0) /\
  (th_started h = true -> timeout (th_timer h) = timer_deadline_ticks p).

Definition cbs_inv (p : sched_cbs_control) : Prop := cbs_sorted p /\ servers_ok p /\ timer_ok p.

(** What the framework guarantees of the current thread: it has been
    initialised, and it is queued only while it is active. *)
Definition current_ok (v : sched_view) (p : sched_cbs_control) : Prop :=
  forall c, v_curr v = Some c -> is_idle_thread v c = false ->
    known p c /\ (c ∈ runqueue p -> is_active v c = true).

(** The parts of the state the queue operations leave alone. *)
Definition frame (p p' : sched_cbs_control) : Prop :=
  tick_timer p' = tick_timer p /\ timer_deadline_ticks p' = timer_deadline_ticks p /\
  admission_utilization p' = admission_utilization p /\ forall t, known p t <-> known p' t.
#[export] Instance frame_refl : Reflexive frame.
Proof. by intros p. Qed.
#[export] Instance frame_trans : Transitive frame.
Proof.
  intros a b c (? & ? & ? & Hab) (? & ? & ? & Hbc). unfold frame.
  split_and!; try congruence. intros t. by rewrite Hab, Hbc.
Qed.

Lemma cbs_data_set t d p u :
  data_of (set_data t d p) u = if decide (t = u) then d else data_of p u.
Proof.
  unfold data_of, set_data. cbn. case_decide as E.
  - subst. apply lookup_total_insert_eq.
  - by apply lookup_total_insert_ne.
Qed.

Lemma cbs_known_ok p t : servers_ok p -> known p t -> entry_ok (data_of p t).
Proof.
  intros [Hf _] [d E]. unfold data_of. rewrite lookup_total_alt, E. by apply (Hf t).
Qed.

Lemma set_data_frame t d p : known p t -> frame p (set_data t d p).
Proof.
  intros Hk. unfold frame, known, set_data. cbn. split_and!; try done. intros u.
  destruct (decide (t = u)) as [<-|]; [by rewrite lookup_insert_eq|by rewrite lookup_insert_ne].
Qed.

Lemma set_data_servers t d p : entry_ok d -> servers_ok p -> servers_ok (set_data t d p).
Proof.
  intros Hd [Hf Hk]. split; [by apply map_Forall_insert_2|]. intros u Hu. unfold known. cbn.
  destruct (decide (t = u)) as [<-|]; [by rewrite lookup_insert_eq|].
  rewrite lookup_insert_ne by done. by apply Hk.
Qed.

Lemma set_data_sorted_but t d p : sorted_but t p -> sorted_but t (set_data t d p).
Proof.
  intros [Hn Hs]. split; [done|]. eapply StronglySorted_ext; [|exact Hs]. cbn.
  intros x y [_ Hx]%list_del_init_elem [_ Hy]%list_del_init_elem. unfold key_le, deadline_of.
  by rewrite !cbs_data_set, !decide_False by congruence.
Qed.

Lemma sorted_sorted_but t p : cbs_sorted p -> sorted_but t p.
Proof. intros [Hn Hs]. split; eauto with beau. Qed.

Lemma sorted_but_notin t p : t ∉ runqueue p -> sorted_but t p -> cbs_sorted p.
Proof. intros Ht [Hn Hs]. split; [done|]. by rewrite list_del_init_id in Hs. Qed.

Lemma queue_remove_eq t p : cbs_queue_remove t p = p <| runqueue := list_del_init t (runqueue p) |>.
Proof.
  unfold cbs_queue_remove, cbs_is_queued. case_bool_decide; [done|].
  rewrite list_del_init_id by done. by destruct p.
Qed.

Lemma queue_insert_eq t p :
  cbs_queue_insert t p = p <| runqueue :=
    insert_before (fun x => deadline_of p t <? deadline_of p x) t (list_del_init t (runqueue p)) |>.
Proof. unfold cbs_queue_insert. by rewrite queue_remove_eq. Qed.

Lemma queue_remove_sorted t p : sorted_but t p -> cbs_sorted (cbs_queue_remove t p).
Proof. intros [Hn Hs]. rewrite queue_remove_eq. split; cbn; eauto with beau. Qed.

Lemma queue_insert_sorted t p : sorted_but t p -> cbs_sorted (cbs_queue_insert t p).
Proof.
  intros [Hn Hs]. rewrite queue_insert_eq. split; cbn.
  - apply insert_before_NoDup; [rewrite list_del_init_elem; tauto|eauto with beau].
  - apply (insert_before_sorted _); [..|exact Hs];
      unfold key_le, deadline_of, data_of; cbn; intros y _; zb; try done; lia.
Qed.

Lemma queue_insert_elem t p x :
  x ∈ runqueue (cbs_queue_insert t p) <-> x = t \/ x ∈ runqueue p.
Proof.
  rewrite queue_insert_eq. cbn. rewrite insert_before_elem, list_del_init_elem.
  destruct (decide (x = t)); tauto.
Qed.

Lemma queue_remove_elem t p x :
  x ∈ runqueue (cbs_queue_remove t p) <-> x ∈ runqueue p /\ x <> t.
Proof. rewrite queue_remove_eq. apply list_del_init_elem. Qed.

Lemma queue_insert_servers t p : known p t -> servers_ok p -> servers_ok (cbs_queue_insert t p).
Proof.
  intros Ht [Hf Hk]. split; [by rewrite queue_insert_eq|]. intros u.
  rewrite queue_insert_elem, queue_insert_eq. intros [->|Hu]; [exact Ht|by apply Hk].
Qed.

Lemma queue_remove_servers t p : servers_ok p -> servers_ok (cbs_queue_remove t p).
Proof.
  intros [Hf Hk]. split; [by rewrite queue_remove_eq|]. intros u.
  rewrite queue_remove_elem, queue_remove_eq. intros [Hu _]. by apply Hk.
Qed.

Lemma timer_ok_frame p p' : frame p p' -> timer_ok p -> timer_ok p'.
Proof. intros (Et & Ed & _ & _). unfold timer_ok. by rewrite Et, Ed. Qed.

(** ** The operations preserve the invariant *)
Definition time_ok (now : Z) : Prop := 0 <= now < TIME_BOUND.

Lemma record_late_same now d :
  same_server d (cbs_record_late_account now d) /\
  remaining_ticks (cbs_record_late_account now d) = remaining_ticks d /\
  deadline_ticks (cbs_record_late_account now d) = deadline_ticks d.
Proof. unfold cbs_record_late_account. by destruct (_ && _). Qed.

Lemma cbs_account_ok v t now p :
  known p t -> servers_ok p -> time_ok now ->
  exists d, cbs_account_runtime v t now p = Ret (set_data t d p) /\ entry_ok d \/
    cbs_account_runtime v t now p = Ret p.
Proof.
  intros Hk Hs Hn. unfold cbs_account_runtime. destruct (cbs_known_ok p t Hs Hk) as [Ho Hl].
  destruct (_ || (now <=? _)) eqn:T; [exists (data_of p t); by right|].
  apply orb_false_iff in T as [_ T]. apply Z.leb_gt in T.
  destruct (record_late_same now (data_of p t)) as ((EP & EB & _) & ER & ED).
  set (d1 := (cbs_record_late_account now (data_of p t)) <| last_start_ticks := now |>).
  assert (server_ok d1) as O1.
  { unfold server_ok in *. subst d1. cbn. by rewrite EP, EB, ER, ED. }
  destruct (cbs_charge_ok (now - last_start_ticks (data_of p t)) true d1 O1 ltac:(lia))
    as (d' & k & E & (_ & _ & EL) & O' & _).
  exists d'. left. rewrite E. split; [done|]. split; [done|]. rewrite EL. exact Hn.
Qed.

Lemma cbs_refresh_thread_ok v t now p :
  known p t -> servers_ok p -> sorted_but t p -> time_ok now -> is_active v t = true ->
  exists d, cbs_refresh_active_window now (data_of p t) = Ret d /\
    cbs_refresh_thread v t now p = Ret (cbs_queue_insert t (set_data t d p)) /\
    let p' := cbs_queue_insert t (set_data t d p) in
    cbs_sorted p' /\ servers_ok p' /\ frame p p' /\ fresh now (data_of p' t) /\
    (fresh now (data_of p t) -> data_of p' t = data_of p t) /\
    forall u, u <> t -> data_of p' u = data_of p u.
Proof.
  intros Hk Hs Hso Hn Ha. unfold cbs_refresh_thread. rewrite Ha.
  destruct (cbs_known_ok p t Hs Hk) as [Ho Hl].
  destruct (refresh_active_ok now (data_of p t) Ho Hn) as (d & E & (_ & _ & EL) & O' & F & Fid).
  exists d. rewrite E. split; [done|]. split; [done|]. cbn zeta.
  assert (forall u, data_of (cbs_queue_insert t (set_data t d p)) u =
    if decide (t = u) then d else data_of p u) as Hd.
  { intros u. rewrite queue_insert_eq. apply cbs_data_set. }
  pose proof (set_data_frame t d p Hk) as Fr. split_and!.
  - by apply queue_insert_sorted, set_data_sorted_but.
  - apply queue_insert_servers; [by apply Fr|]. apply set_data_servers; [|done].
    split; [done|]. by rewrite EL.
  - rewrite queue_insert_eq. exact Fr.
  - by rewrite Hd, decide_True.
  - by rewrite Hd, decide_True.
  - intros u Hu. by rewrite Hd, decide_False.
Qed.

(** The current thread after [settle_current]: charged, and queued in a fresh
    window if it is active. *)
Lemma cbs_settle_ok v now p :
  cbs_sorted p -> servers_ok p -> current_ok v p -> time_ok now ->
  exists p', settle_current v now p = Ret p' /\ cbs_sorted p' /\ servers_ok p' /\ frame p p' /\
    (forall x, x ∈ runqueue p' <-> x ∈ runqueue p \/ (v_curr v = Some x /\ is_active v x = true)) /\
    (forall x, v_curr v <> Some x -> data_of p' x = data_of p x).
Proof.
  intros Hso Hs Hc Hn. unfold settle_current. destruct (v_curr v) as [c|] eqn:Ec.
  2: { exists p. split_and!; try done. intros x. split; [auto|]. intros [?|[? _]]; done. }
  destruct (is_idle_thread v c) eqn:Ei.
  { exists p. split_and!; try done. intros x. split; [auto|].
    intros [?|[[= <-] Ha]]; [done|]. unfold is_active in Ha. by rewrite Ei in Ha. }
  destruct (Hc c Ec Ei) as [Hk Hq].
  assert (exists p1, cbs_account_runtime v c now p = Ret p1 /\ known p1 c /\ servers_ok p1 /\
    sorted_but c p1 /\ frame p p1 /\ runqueue p1 = runqueue p /\
    forall x, x <> c -> data_of p1 x = data_of p x) as (p1 & -> & K1 & S1 & B1 & F1 & Q1 & D1).
  { destruct (cbs_account_ok v c now p Hk Hs Hn) as (d & [[E Ho]|E]).
    - exists (set_data c d p). pose proof (set_data_frame c d p Hk) as Fr. split_and!; try done.
      + by apply Fr.
      + by apply set_data_servers.
      + by apply set_data_sorted_but, sorted_sorted_but.
      + intros x Hx. by rewrite cbs_data_set, decide_False.
    - exists p. split_and!; try done. by apply sorted_sorted_but. }
  cbn [mbind outcome_bind]. destruct (is_active v c) eqn:Ha.
  - destruct (cbs_refresh_thread_ok v c now p1 K1 S1 B1 Hn Ha) as (d & _ & -> & So & Se & Fr & _ & _ & Dd).
    eexists. split; [done|]. split_and!; try done; [by etransitivity|..].
    + intros x. rewrite queue_insert_elem. cbn. rewrite Q1. naive_solver.
    + intros x Hx. rewrite Dd, D1 by congruence. done.
  - unfold cbs_refresh_thread. rewrite Ha. exists p1. split_and!; try done.
    + apply (sorted_but_notin c); [|done]. rewrite Q1. intros Hin. by specialize (Hq Hin).
    + rewrite Q1. intros x. split; [auto|]. intros [?|[[= <-] ?]]; [done|congruence].
    + intros x Hx. apply D1. congruence.
Qed.

(** [cbs_refresh_queues] ends within its fuel; afterwards the queued threads are
    all in a window that is not over, active threads stay queued, and windows
    that were not over have not changed. *)
Definition refreshed (v : sched_view) (now : Z) (p p' : sched_cbs_control) : Prop :=
  cbs_sorted p' /\ servers_ok p' /\ frame p p' /\
  (forall x, x ∈ runqueue p' -> x ∈ runqueue p) /\
  (forall x, x ∈ runqueue p -> is_active v x = true -> x ∈ runqueue p') /\
  (forall x, cbs_stale now p x = false -> data_of p' x = data_of p x) /\
  (forall x, x ∉ runqueue p -> data_of p' x = data_of p x).

Lemma stale_fresh now p t : servers_ok p -> known p t -> cbs_stale now p t = false <-> fresh now (data_of p t).
Proof.
  intros Hs Hk. destruct (cbs_known_ok p t Hs Hk) as [(_ & _ & Hr & _) _].
  unfold cbs_stale, fresh. rewrite orb_false_iff, Z.eqb_neq, Z.leb_gt. lia.
Qed.

Lemma refresh_unlink v now p0 s pre x suf :
  refreshed v now p0 s -> runqueue s = pre ++ x :: suf -> cbs_stale now s x = true ->
  let s1 := cbs_queue_remove x s in
  runqueue s1 = pre ++ suf /\ data_of s1 = data_of s /\ frame s s1 /\ known s1 x /\
  cbs_sorted s1 /\ servers_ok s1 /\ x ∉ pre ++ suf /\ x ∈ runqueue p0 /\ cbs_stale now p0 x = true.
Proof.
  intros (So & Se & Fr & Hsub & _ & Hfr & _) Eq T. cbn zeta. pose proof So as [Hnd _].
  rewrite Eq, <- Permutation_middle in Hnd. apply NoDup_cons in Hnd as [Hx _].
  assert (x ∈ runqueue s) as Hxs by (rewrite Eq; qset).
  assert (frame s (cbs_queue_remove x s)) as F1 by by rewrite queue_remove_eq.
  split_and!; auto.
  - rewrite queue_remove_eq. cbn. rewrite Eq. apply list_del_init_middle; qset.
  - by rewrite queue_remove_eq.
  - by apply F1, Se.
  - by apply queue_remove_sorted, sorted_sorted_but.
  - by apply queue_remove_servers.
  - destruct (cbs_stale now p0 x) eqn:T0; [done|]. pose proof (Hfr x T0) as D.
    unfold cbs_stale in T, T0. rewrite D in T. congruence.
Qed.

(** One step of the loop, in the form the termination lemma asks for. *)
Definition refresh_step v now p0 s x suf : Prop :=
  exists s' pre' suf', refresh_body v now x s = Ret s' /\ refreshed v now p0 s' /\
    runqueue s' = pre' ++ suf' /\ head suf' = head suf /\
    (forall y, y ∈ pre' -> cbs_stale now s' y = false) /\
    (cost (cbs_stale now) s' suf' < cost (cbs_stale now) s (x :: suf))%nat.

Lemma refresh_requeue v now p0 s pre x suf :
  time_ok now -> refreshed v now p0 s -> runqueue s = pre ++ x :: suf ->
  (forall y, y ∈ pre -> cbs_stale now s y = false) -> cbs_stale now s x = true ->
  is_active v x = true -> refresh_step v now p0 s x suf.
Proof.
  intros Hn Hr Eq Hp T Ha. unfold refresh_step, refresh_body. rewrite T.
  destruct (refresh_unlink v now p0 s pre x suf Hr Eq T)
    as (Eq1 & Ed1 & F1 & K1 & So1 & Se1 & Hx & Hx0 & T0).
  destruct Hr as (_ & _ & Fr & Hsub & Hact & Hfr & Hout).
  destruct (cbs_refresh_thread_ok v x now (cbs_queue_remove x s) K1 Se1 (sorted_sorted_but x _ So1) Hn Ha)
    as (d & _ & E & So2 & Se2 & F2 & Fx & _ & Dd).
  rewrite queue_insert_eq in *. cbn [runqueue set_data set_field] in *.
  rewrite Eq1, list_del_init_id in * by done. rewrite E.
  match type of E with _ = Ret ?q => set (s2 := q) in * end.
  assert (forall y, y <> x -> cbs_stale now s2 y = cbs_stale now s y) as Hst.
  { intros y Hy. unfold cbs_stale. by rewrite Dd, Ed1. }
  assert (cbs_stale now s2 x = false) as Tx.
  { apply stale_fresh; [done|by apply F2|done]. }
  assert (forall y, y ∈ runqueue s2 <-> y ∈ runqueue s) as Hq.
  { intros y. subst s2. cbn [runqueue set_field]. rewrite insert_before_elem, Eq. qset. }
  destruct (cursor_move runqueue (cbs_stale now) s s2 pre x suf _ eq_refl Hp)
    as (pre' & suf' & H'); [|done..|].
  { intros y Hy. apply Hst. congruence. }
  exists s2, pre', suf'. split; [done|]. split; [|done]. split_and!; try done.
  - by etransitivity; [exact Fr|etransitivity].
  - intros y. rewrite Hq. auto.
  - intros y. rewrite Hq. auto.
  - intros y Hy. rewrite Dd, Ed1 by congruence. auto.
  - intros y Hy. rewrite Dd, Ed1 by congruence. auto.
Qed.

Lemma refresh_drop v now p0 s pre x suf :
  refreshed v now p0 s -> runqueue s = pre ++ x :: suf ->
  (forall y, y ∈ pre -> cbs_stale now s y = false) -> cbs_stale now s x = true ->
  is_active v x = false -> refresh_step v now p0 s x suf.
Proof.
  intros Hr Eq Hp T Ha. unfold refresh_step, refresh_body, cbs_refresh_thread. rewrite T, Ha.
  destruct (refresh_unlink v now p0 s pre x suf Hr Eq T)
    as (Eq1 & Ed1 & F1 & K1 & So1 & Se1 & Hx & Hx0 & T0).
  destruct Hr as (_ & _ & Fr & Hsub & Hact & Hfr & Hout). rewrite Eq in Hsub, Hact.
  set (s1 := cbs_queue_remove x s) in *. clearbody s1.
  destruct (cursor_drop runqueue (cbs_stale now) s s1 pre x suf Eq1 Hp) as (pre' & suf' & H').
  { intros y Hy. unfold cbs_stale. by rewrite Ed1. }
  exists s1, pre', suf'. split; [done|]. split; [|done].
  split_and!; rewrite ?Eq1, ?Ed1; try done; [by etransitivity|..].
  - intros y Hy. apply Hsub. qset.
  - intros y Hy Hay. specialize (Hact y Hy Hay).
    assert (y <> x) by congruence. clear - Hact H. qset.
Qed.

Lemma refresh_body_ok v now p0 s pre x suf :
  time_ok now -> refreshed v now p0 s -> runqueue s = pre ++ x :: suf ->
  (forall y, y ∈ pre -> cbs_stale now s y = false) -> refresh_step v now p0 s x suf.
Proof.
  intros Hn Hr Eq Hp. destruct (cbs_stale now s x) eqn:T.
  - destruct (is_active v x) eqn:Ha; [by apply (refresh_requeue _ _ _ _ pre)|by apply (refresh_drop _ _ _ _ pre)].
  - destruct (cursor_keep runqueue (cbs_stale now) s pre x suf Eq Hp T) as (pre' & suf' & H').
    exists s, pre', suf'. unfold refresh_body. by rewrite T.
Qed.

Lemma cbs_refresh_queues_ok v now p :
  cbs_sorted p -> servers_ok p -> time_ok now ->
  exists p', cbs_refresh_queues v now p = Ret p' /\ refreshed v now p p' /\
    forall x, x ∈ runqueue p' -> fresh now (data_of p' x).
Proof.
  intros So Se Hn.
  destruct (list_for_each_safe_ok runqueue (refresh_body v now) (cbs_stale now) (refreshed v now p))
    with (fuel := (2 * length (runqueue p))%nat) (s := p) as (p' & E & Hr & Hf).
  - intros s Hr. apply Hr.
  - intros s pre x suf Hr Eq Hp. by apply (refresh_body_ok _ _ _ _ pre).
  - by split_and!.
  - done.
  - exists p'. split; [exact E|]. split; [done|]. intros x Hx. pose proof Hr as (_ & Se' & _).
    apply (stale_fresh now p' x); [done|by apply Se'|auto].
Qed.

(** ** The local timer *)
Lemma program_local_timer_ok v running now p :
  v_pcpu v = v_cpu v -> timer_ok p ->
  exists p', cbs_program_local_timer v running now p = Ret p' /\ timer_ok p' /\
    runqueue p' = runqueue p /\ data p' = data p /\
    timer_deadline_ticks p' = cbs_timeout v running now p.
Proof.
  intros Hv (Hf & Hst & Hto). unfold cbs_program_local_timer. rewrite Hv, Z.eqb_refl.
  cbn [ASSERT mbind outcome_bind]. set (tmo := cbs_timeout v running now p).
  destruct (Z.eqb_spec tmo (timer_deadline_ticks p)); [by exists p|].
  set (p1 := if negb (timer_deadline_ticks p =? 0) then _ else p).
  assert (func (th_timer (tick_timer p1)) = true /\ th_started (tick_timer p1) = false /\
    timer_deadline_ticks p1 = 0 /\ runqueue p1 = runqueue p /\ data p1 = data p)
    as (F1 & St1 & D1 & Q1 & Da1).
  { subst p1. destruct (Z.eqb_spec (timer_deadline_ticks p) 0); by cbn. }
  clearbody p1. destruct (Z.eqb_spec tmo 0); cbn [negb].
  { exists p1. unfold timer_ok. rewrite D1, St1. by split_and!. }
  unfold handle_add, handle_update, set_mode. cbn.
  rewrite F1, St1. destruct (Z.eqb_spec tmo 0); [done|]. cbn. eexists. split; [done|].
  unfold timer_ok. cbn. destruct (Z.eqb_spec tmo 0); [done|]. by rewrite ?F1, ?Q1, ?Da1.
Qed.

Lemma cbs_program_timer_ok v running now p :
  timer_ok p ->
  exists p', cbs_program_timer v running now p = Ret p' /\ timer_ok p' /\
    runqueue p' = runqueue p /\ data p' = data p /\
    (v_pcpu v = v_cpu v -> timer_deadline_ticks p' = cbs_timeout v running now p).
Proof.
  intros Ht. unfold cbs_program_timer. destruct (Z.eqb_spec (v_pcpu v) (v_cpu v)) as [E|E].
  - destruct (program_local_timer_ok v running now p E Ht) as (p' & ? & ? & ? & ? & ?).
    by exists p'.
  - by exists p.
Qed.

(** The next timer interrupt is due when the budget or the window ends,
    whichever is first, or at once if that has passed. *)
Lemma cbs_timeout_ok v t start now p :
  is_idle_thread v t = false -> server_ok (data_of p t) -> fresh start (data_of p t) ->
  last_start_ticks (data_of p t) = start -> time_ok start -> time_ok now -> 0 < start ->
  cbs_timeout v (Some t) now p =
    Z.max now (Z.min (deadline_of p t) (start + remaining_ticks (data_of p t))).
Proof.
  intros Hi (Hb & Hp & Hr & _) [F1 F2] El Hs Hn H0. unfold cbs_timeout, time_ok, TIME_BOUND, deadline_of in *.
  rewrite Hi, El. destruct (Z.ltb_spec 0 (remaining_ticks (data_of p t))); [|lia].
  destruct (Z.eqb_spec start 0); [lia|]. cbn [negb].
  rewrite u64_small by (unfold in_u64; lia). zb; lia.
Qed.

Lemma cbs_inv_intro p q :
  cbs_sorted p -> servers_ok p -> runqueue q = runqueue p -> data q = data p -> timer_ok q -> cbs_inv q.
Proof.
  intros [Hn Hs] Hv Hq Hd Ht. split_and!; [split|split|done].
  - by rewrite Hq.
  - rewrite Hq. unfold key_le, deadline_of, data_of in *. by rewrite Hd.
  - rewrite Hd. apply Hv.
  - intros t. rewrite Hq. unfold known. rewrite Hd. apply Hv.
Qed.

(** ** Picking the next thread *)

(** The framework never queues an idle thread; the idle object of a pCPU is
    bound to it. *)
Definition view_ok (v : sched_view) (p : sched_cbs_control) : Prop :=
  current_ok v p /\ (forall x, x ∈ runqueue p -> is_idle_thread v x = false) /\
  is_idle_thread v (Idle (v_cpu v)) = true.

(** The threads that compete for the pCPU. *)
Definition candidate (v : sched_view) (p : sched_cbs_control) (x : tid) : Prop :=
  x ∈ runqueue p \/ (v_curr v = Some x /\ is_active v x = true).

Lemma active_not_idle v x : is_active v x = true -> is_idle_thread v x = false.
Proof. unfold is_active. by destruct (is_idle_thread v x). Qed.

(** The queue [pick_next] takes the head of. *)
Lemma pick_queue_ok v now p :
  cbs_inv p -> view_ok v p -> time_ok now ->
  exists p1 p2, settle_current v now p = Ret p1 /\ cbs_refresh_queues v now p1 = Ret p2 /\
    cbs_sorted p2 /\ servers_ok p2 /\ frame p p2 /\
    (forall x, x ∈ runqueue p2 ->
       candidate v p x /\ is_idle_thread v x = false /\ fresh now (data_of p2 x)) /\
    (forall x, candidate v p x -> is_active v x = true -> x ∈ runqueue p2).
Proof.
  intros (So & Se & Ht) (Hc & Hi & _) Hn.
  destruct (cbs_settle_ok v now p So Se Hc Hn) as (p1 & E1 & So1 & Se1 & F1 & Q1 & _).
  destruct (cbs_refresh_queues_ok v now p1 So1 Se1 Hn) as (p2 & E2 & Hr & Hf).
  destruct Hr as (So2 & Se2 & F2 & Hsub & Hact & _). exists p1, p2.
  split_and!; try done; [by etransitivity|..].
  - intros x Hx. pose proof (proj1 (Q1 x) (Hsub x Hx)) as Hq. split; [done|]. split; [|auto].
    destruct Hq as [?|[_ Ha]]; [auto|by apply active_not_idle].
  - intros x Hx Ha. apply Hact; [|done]. by apply Q1.
Qed.

(** Taking the head off the queue and starting it. *)
Lemma picked_ok t rest now p :
  cbs_sorted p -> servers_ok p -> runqueue p = t :: rest -> time_ok now ->
  let p' := set_data t ((data_of (cbs_queue_remove t p) t) <| last_start_ticks := now |>)
              (cbs_queue_remove t p) in
  cbs_sorted p' /\ servers_ok p' /\ runqueue p' = rest /\ t ∉ rest /\ frame p p' /\
  last_start_ticks (data_of p' t) = now /\
  (forall x, deadline_of p' x = deadline_of p x /\
     remaining_ticks (data_of p' x) = remaining_ticks (data_of p x)) /\
  (forall x, x ∈ rest -> deadline_of p t <= deadline_of p x).
Proof.
  intros So Se Eq Hn. cbn zeta. rewrite queue_remove_eq, Eq.
  pose proof So as [Hnd Hs]. rewrite Eq in Hnd, Hs. rewrite list_del_init_head by done.
  apply NoDup_cons in Hnd as [Ht Hnd].
  change (data_of (p <| runqueue := rest |>) t) with (data_of p t).
  set (d := (data_of p t) <| last_start_ticks := now |>).
  assert (known p t) as Hk by (apply Se; rewrite Eq; qset).
  destruct (cbs_known_ok p t Se Hk) as [Ho _].
  assert (forall x, deadline_of (set_data t d (p <| runqueue := rest |>)) x = deadline_of p x /\
    remaining_ticks (data_of (set_data t d (p <| runqueue := rest |>)) x) =
      remaining_ticks (data_of p x)) as Hd.
  { intros x. unfold deadline_of. rewrite cbs_data_set. by case_decide; [subst|]. }
  split_and!; try done.
  - split; [done|]. eapply StronglySorted_ext; [|by apply StronglySorted_inv in Hs as [Hs _]].
    intros x y _ _. unfold key_le. by rewrite (proj1 (Hd x)), (proj1 (Hd y)).
  - apply set_data_servers; [by split|]. destruct Se as [Hf Hkn]. split; [done|].
    cbn. intros x Hx. apply Hkn. rewrite Eq. qset.
  - transitivity (p <| runqueue := rest |>); [done|by apply set_data_frame].
  - by rewrite cbs_data_set, decide_True.
  - intros x Hx. apply (sorted_head_le _ _ _ x Hs). qset.
Qed.

Lemma cbs_pick_ok v clk p :
  cbs_inv p -> view_ok v p -> time_ok (clk 0%nat) -> time_ok (clk 1%nat) -> 0 < clk 0%nat ->
  exists t p', sched_cbs_pick_next v clk p = Ret (t, p') /\ cbs_inv p' /\
    (forall x, candidate v p x -> is_active v x = true -> x = t \/ x ∈ runqueue p') /\
    (forall x, x ∈ runqueue p' -> candidate v p x) /\
    ((t = Idle (v_cpu v) /\ runqueue p' = []) \/
     (candidate v p t /\ t ∉ runqueue p' /\ fresh (clk 0%nat) (data_of p' t) /\
      (forall x, x ∈ runqueue p' -> deadline_of p' t <= deadline_of p' x) /\
      (v_pcpu v = v_cpu v -> timer_deadline_ticks p' =
         Z.max (clk 1%nat) (Z.min (deadline_of p' t) (clk 0%nat + remaining_ticks (data_of p' t)))))).
Proof.
  intros Hinv Hv Hn Hn1 H0. unfold sched_cbs_pick_next.
  destruct (pick_queue_ok v (clk 0%nat) p Hinv Hv Hn) as (p1 & p2 & -> & E2 & So & Se & Fr & Hq & Hact).
  cbn [mbind outcome_bind]. rewrite E2. cbn [mbind outcome_bind].
  destruct Hinv as (_ & _ & Ht). pose proof (timer_ok_frame p p2 Fr Ht) as Ht2.
  destruct (runqueue p2) as [|t rest] eqn:Eq.
  - destruct Hv as (_ & _ & Hidle). rewrite Hidle.
    destruct (cbs_program_timer_ok v (Some (Idle (v_cpu v))) (clk 1%nat) p2 Ht2)
      as (p' & -> & T' & Q' & D' & _).
    exists (Idle (v_cpu v)), p'. split; [done|].
    split; [by apply (cbs_inv_intro p2)|]. rewrite Q', Eq. split_and!; auto.
    by intros x ?%elem_of_nil.
  - destruct (Hq t) as (Ct & It & Ft); [qset|]. rewrite It.
    set (p3 := set_data t _ (cbs_queue_remove t p2)).
    destruct (picked_ok t rest (clk 0%nat) p2 So Se Eq Hn) 
      as (So3 & Se3 & Q3 & Nt & Fr3 & L3 & D3 & Hmin). fold p3 in So3, Se3, Q3, Fr3, L3, D3.
    destruct (cbs_program_timer_ok v (Some t) (clk 1%nat) p3 (timer_ok_frame p2 p3 Fr3 Ht2))
      as (p' & -> & T' & Q' & D' & Tm).
    exists t, p'. split; [done|]. split; [by apply (cbs_inv_intro p3)|].
    assert (data_of p' = data_of p3) as Dp by (unfold data_of; by rewrite D').
    assert (forall x, deadline_of p' x = deadline_of p2 x) as Dd.
    { intros x. unfold deadline_of at 1. rewrite Dp. apply D3. }
    rewrite Q', Q3, Dp, Dd. split_and!.
    + intros x Hx Ha. specialize (Hact x Hx Ha). clear - Hact. qset.
    + intros x Hx. apply Hq. qset.
    + right. destruct (D3 t) as [Et Er]. unfold deadline_of in Et.
      assert (fresh (clk 0%nat) (data_of p3 t)) as F3 by (unfold fresh; by rewrite Et, Er).
      split_and!; try done.
      * intros x Hx. rewrite Dd. auto.
      * intros Hl. assert (known p3 t) as K3 by (apply Fr3, Se; rewrite Eq; qset).
        rewrite (Tm Hl), (cbs_timeout_ok v t (clk 0%nat)); try done; [|by apply cbs_known_ok].
        unfold deadline_of. by rewrite Et.
Qed.

(** ** The other operations *)
Lemma normalize_bounds plat pcpu prm period budget :
  cbs_normalize_us plat pcpu prm = Ret (period, budget) -> 500 <= budget <= period.
Proof.
  unfold cbs_normalize_us, CBS_MIN_PERIOD_US, CBS_MIN_BUDGET_US.
  destruct (match sched_get_pcpu_pool_config _ _ with Some _ => _ | None => _ end) as [per bud].
  destruct (Z.ltb_spec per 500); [done|]. destruct (Z.ltb_spec bud 500); [done|].
  destruct (Z.ltb_spec per bud); [done|]. intros [= <- <-]. lia.
Qed.

Lemma cbs_init_data_ok v clk t prm p period budget :
  cbs_normalize_us (v_plat v) (pcpu_id (thr v t)) prm = Ret (period, budget) ->
  in_u32 (v_khz v) -> 2 <= v_khz v -> in_u32 period -> t ∉ runqueue p ->
  time_ok (clk 0%nat) -> cbs_inv p ->
  exists p', sched_cbs_init_data v clk t prm p = Ret p' /\ cbs_inv p' /\ known p' t /\
    runqueue p' = runqueue p /\ fresh (clk 0%nat) (data_of p' t).
Proof.
  intros En Hk Hk2 Hper Ht Hn (So & Se & Tm). unfold sched_cbs_init_data. rewrite En. cbn [mbind outcome_bind].
  pose proof (normalize_bounds _ _ _ _ _ En) as Hb.
  assert (in_u32 budget) as Hbud by (unfold in_u32 in *; lia).
  pose proof (us_to_ticks_mono _ _ _ Hk Hbud Hper ltac:(lia)) as Hm.
  pose proof (us_to_ticks_pos (v_khz v) budget Hk Hbud ltac:(nia)) as Hpos.
  assert (us_to_ticks (v_khz v) period <= 2 ^ 55) as Hmax.
  { rewrite us_to_ticks_nowrap by done. unfold in_u32 in *. apply Z.div_le_upper_bound; [lia|]. nia. }
  unfold time_ok, TIME_BOUND in Hn. rewrite u64_small by (unfold in_u64; lia).
  set (d := mk_cbs_data _ _ _ _ _ _ _ _ _). assert (entry_ok d) as Hd.
  { unfold entry_ok, server_ok, in_u64, TIME_BOUND. cbn. lia. }
  eexists. split; [done|]. unfold cbs_inv. split_and!; try done.
  - apply (sorted_but_notin t); [done|]. by apply set_data_sorted_but, sorted_sorted_but.
  - by apply set_data_servers.
  - unfold known. cbn. by rewrite lookup_insert_eq.
  - unfold fresh. rewrite cbs_data_set, decide_True by done. cbn. lia.
Qed.

Lemma cbs_sleep_ok v clk t p :
  known p t -> time_ok (clk 0%nat) -> cbs_inv p ->
  exists p', sched_cbs_sleep v clk t p = Ret p' /\ cbs_inv p' /\
    (forall x, x ∈ runqueue p' <-> x ∈ runqueue p /\ x <> t).
Proof.
  intros Hk Hn (So & Se & Tm). unfold sched_cbs_sleep.
  assert (exists p1, (if is_current v t then cbs_account_runtime v t (clk 0%nat) p else Ret p) = Ret p1 /\
    known p1 t /\ servers_ok p1 /\ sorted_but t p1 /\ frame p p1 /\ runqueue p1 = runqueue p)
    as (p1 & -> & K1 & Se1 & So1 & F1 & Q1).
  { pose proof (sorted_sorted_but t p So) as Sb. destruct (is_current v t); [|by exists p].
    destruct (cbs_account_ok v t (clk 0%nat) p Hk Se Hn) as (d & [[E Ho]|E]); [|by exists p].
    exists (set_data t d p). pose proof (set_data_frame t d p Hk) as Fr.
    split_and!; try done; [by apply Fr|by apply set_data_servers|by apply set_data_sorted_but]. }
  cbn [mbind outcome_bind]. pose proof (queue_remove_sorted t p1 So1) as So2.
  pose proof (queue_remove_servers t p1 Se1) as Se2.
  assert (frame p (cbs_queue_remove t p1)) as F2 by by rewrite queue_remove_eq.
  assert (known (cbs_queue_remove t p1) t) as K2 by by rewrite queue_remove_eq.
  assert (forall x, x ∈ runqueue (cbs_queue_remove t p1) <-> x ∈ runqueue p /\ x <> t) as Q2.
  { intros x. by rewrite queue_remove_elem, Q1. }
  set (p2 := cbs_queue_remove t p1) in *. clearbody p2. destruct (cbs_known_ok p2 t Se2 K2) as [Ho _].
  set (p3 := set_data t _ p2).
  assert (cbs_sorted p3) as So3.
  { apply (sorted_but_notin t); [change (t ∉ runqueue p2); rewrite Q2; tauto|]. by apply set_data_sorted_but, sorted_sorted_but. }
  assert (servers_ok p3) as Se3 by (apply set_data_servers; [by split|done]).
  assert (timer_ok p3) as Tm3.
  { apply (timer_ok_frame p); [|done]. etransitivity; [exact F2|by apply set_data_frame]. }
  assert (forall run now, exists p', cbs_program_timer v run now p3 = Ret p' /\ cbs_inv p' /\
    (forall x, x ∈ runqueue p' <-> x ∈ runqueue p /\ x <> t)) as H.
  { intros run now. destruct (cbs_program_timer_ok v run now p3 Tm3) as (p' & -> & T' & Q' & D' & _).
    exists p'. split; [done|]. split; [by apply (cbs_inv_intro p3)|]. by rewrite Q'. }
  destruct (is_current v t); apply H.
Qed.

Lemma cbs_wake_ok v clk t p :
  known p t -> time_ok (clk 0%nat) -> cbs_inv p ->
  exists p', sched_cbs_wake v clk t p = Ret p' /\ cbs_inv p' /\
    (forall x, x ∈ runqueue p' <-> x = t \/ x ∈ runqueue p) /\ fresh (clk 0%nat) (data_of p' t) /\
    (0 < remaining_ticks (data_of p t) ->
     remaining_ticks (data_of p' t) * period_ticks (data_of p t) <=
     (deadline_of p' t - clk 0%nat) * budget_ticks (data_of p t)) /\
    (forall x, x <> t -> data_of p' x = data_of p x).
Proof.
  intros Hk Hn (So & Se & Tm). unfold sched_cbs_wake. destruct (cbs_known_ok p t Se Hk) as [Ho Hl].
  destruct (wake_rule_ok (clk 0%nat) (data_of p t) Ho Hn) as (d & -> & _ & O' & F & Dn).
  cbn [mbind outcome_bind]. set (d' := d <| last_start_ticks := 0 |>).
  assert (entry_ok d') as He by (split; [exact O'|unfold TIME_BOUND; cbn; lia]).
  set (p1 := cbs_queue_insert t (set_data t d' p)).
  pose proof (set_data_frame t d' p Hk) as Fr.
  assert (cbs_sorted p1) as So1 by by apply queue_insert_sorted, set_data_sorted_but, sorted_sorted_but.
  assert (servers_ok p1) as Se1.
  { apply queue_insert_servers; [by apply Fr|by apply set_data_servers]. }
  assert (timer_ok p1) as Tm1.
  { apply (timer_ok_frame p); [|done]. subst p1. by rewrite queue_insert_eq. }
  assert (forall u, data_of p1 u = if decide (t = u) then d' else data_of p u) as D1.
  { intros u. subst p1. rewrite queue_insert_eq. apply cbs_data_set. }
  destruct (cbs_program_timer_ok v (v_curr v) (clk 1%nat) p1 Tm1) as (p' & -> & T' & Q' & D' & _).
  assert (forall u, data_of p' u = data_of p1 u) as Dp by (intros u; unfold data_of; by rewrite D').
  exists p'. split; [done|]. split; [by apply (cbs_inv_intro p1)|].
  unfold deadline_of. rewrite Dp, D1, decide_True by done. split_and!; try done.
  - intros x. rewrite Q'. subst p1. by rewrite queue_insert_elem.
  - intros x Hx. by rewrite Dp, D1, decide_False.
Qed.

Lemma cbs_prioritize_ok v clk t p :
  known p t -> time_ok (clk 0%nat) -> cbs_inv p ->
  (is_current v t = true -> t ∈ runqueue p -> cbs_stale (clk 0%nat) p t = false) ->
  exists p', sched_cbs_prioritize v clk t p = Ret p' /\ cbs_inv p' /\
    (forall x, x ∈ runqueue p' -> x = t \/ x ∈ runqueue p) /\
    (fresh (clk 0%nat) (data_of p t) -> data_of p' t = data_of p t).
Proof.
  intros Hk Hn (So & Se & Tm) Hcur. unfold sched_cbs_prioritize.
  destruct (cbs_known_ok p t Se Hk) as [Ho Hl].
  destruct (refresh_active_ok (clk 0%nat) (data_of p t) Ho Hn) as (d & -> & (_ & _ & EL) & O' & F & Fid).
  cbn [mbind outcome_bind]. assert (entry_ok d) as He by (split; [done|by rewrite EL]).
  pose proof (set_data_frame t d p Hk) as Fr. pose proof (set_data_servers t d p He Se) as Se1.
  eexists. split; [done|]. unfold cbs_inv. destruct (is_current v t) eqn:Ec.
  - split_and!; [|done|by apply (timer_ok_frame p)|auto|].
    + destruct (decide (t ∈ runqueue p)) as [Hin|Hout].
      2: { apply (sorted_but_notin t); [done|]. by apply set_data_sorted_but, sorted_sorted_but. }
      assert (d = data_of p t) as -> by by apply Fid, stale_fresh, Hcur.
      destruct So as [Hnd Hs]. split; [done|]. eapply StronglySorted_ext; [|exact Hs].
      intros x y _ _. unfold key_le, deadline_of. rewrite !cbs_data_set. by repeat case_decide; subst.
    + intros Hf. rewrite cbs_data_set, decide_True by done. auto.
  - split_and!.
    + by apply queue_insert_sorted, set_data_sorted_but, sorted_sorted_but.
    + apply queue_insert_servers; [by apply Fr|done].
    + apply (timer_ok_frame p); [|done]. by rewrite queue_insert_eq.
    + intros x. by rewrite queue_insert_elem.
    + intros Hf. rewrite queue_insert_eq. transitivity (data_of (set_data t d p) t); [done|].
      rewrite cbs_data_set, decide_True by done. auto.
Qed.

Lemma cbs_tick_ok v clk p :
  cbs_inv p -> view_ok v p -> time_ok (clk 0%nat) -> v_pcpu v = v_cpu v ->
  exists p', cbs_timer_handler v clk p = Ret (true, p') /\ cbs_inv p' /\
    (forall x, x ∈ runqueue p' -> candidate v p x /\ fresh (clk 0%nat) (data_of p' x)) /\
    (forall x, candidate v p x -> is_active v x = true -> x ∈ runqueue p').
Proof.
  intros (So & Se & Tm) Hv Hn Hl. unfold cbs_timer_handler.
  set (p0 := p <| tick_timer := _ |> <| timer_deadline_ticks := 0 |>).
  assert (timer_ok p0) as Tm0 by (split_and!; [apply Tm|done..]).
  destruct (pick_queue_ok v (clk 0%nat) p0) as (p1 & p2 & -> & E2 & So2 & Se2 & F2 & Hq & Hact); [done..|].
  cbn [mbind outcome_bind]. rewrite E2. cbn [mbind outcome_bind].
  destruct (program_local_timer_ok v (v_curr v) (clk 1%nat) p2 Hl (timer_ok_frame p0 p2 F2 Tm0))
    as (p' & -> & T' & Q' & D' & _).
  exists p'. split; [done|]. split; [by apply (cbs_inv_intro p2)|]. rewrite Q'. unfold data_of. rewrite D'.
  split; [|done]. intros x Hx. by destruct (Hq x Hx) as (? & _ & ?).
Qed.

(** ** The policy interface

    Whatever state the policy is in, its queue only ever gains the thread that
    is woken or prioritised and the current thread while it is active. *)
Lemma account_queue v t now p p' : cbs_account_runtime v t now p = Ret p' -> runqueue p' = runqueue p.
Proof. unfold cbs_account_runtime. destruct (_ || _); intros; inv_ret; by subst. Qed.

Lemma refresh_thread_elem v t now p p' x :
  cbs_refresh_thread v t now p = Ret p' -> x ∈ runqueue p' ->
  x ∈ runqueue p \/ (x = t /\ is_active v t = true).
Proof.
  unfold cbs_refresh_thread. destruct (is_active v t); intros; inv_ret; subst; [|auto].
  rewrite queue_insert_elem in *. tauto.
Qed.

Lemma settle_elem v now p p' x :
  settle_current v now p = Ret p' -> x ∈ runqueue p' -> candidate v p x.
Proof.
  unfold settle_current, candidate. destruct (v_curr v) as [c|]; intros E Hx; [|inv_ret; subst; auto].
  destruct (is_idle_thread v c); inv_ret; subst; [auto|].
  apply account_queue in E0. destruct (refresh_thread_elem _ _ _ _ _ _ E Hx) as [H|[-> H]]; [|auto].
  left. congruence.
Qed.

Lemma refresh_queues_elem v now p p' x :
  cbs_refresh_queues v now p = Ret p' -> x ∈ runqueue p' -> x ∈ runqueue p.
Proof.
  intros E. revert x. refine (list_for_each_safe_preserve runqueue (refresh_body v now)
    (fun s => forall x, x ∈ runqueue s -> x ∈ runqueue p) (fun x => x ∈ runqueue p) _ p p' _ _ _ E); auto.
  intros t s s' Hs Ht Eb x Hx. unfold refresh_body in Eb. destruct (cbs_stale now s t); [|inv_ret; subst; auto].
  destruct (refresh_thread_elem _ _ _ _ _ _ Eb Hx) as [H|[-> _]]; [|done].
  rewrite queue_remove_elem in H. apply Hs, H.
Qed.

Lemma program_local_queue v running now p p' :
  cbs_program_local_timer v running now p = Ret p' -> runqueue p' = runqueue p.
Proof.
  unfold cbs_program_local_timer. intros E. inv_ret.
  destruct (cbs_timeout _ _ _ _ =? timer_deadline_ticks p); [by inv_ret; subst|].
  destruct (negb (timer_deadline_ticks p =? 0)), (negb (cbs_timeout _ _ _ _ =? 0));
    inv_ret; try (destruct r0; inv_ret); by subst.
Qed.

Lemma program_queue v running now p p' :
  cbs_program_timer v running now p = Ret p' -> runqueue p' = runqueue p.
Proof.
  unfold cbs_program_timer. destruct (_ =? _); [apply program_local_queue|]. by intros [= <-].
Qed.

Lemma pick_elem v clk p t p' :
  sched_cbs_pick_next v clk p = Ret (t, p') ->
  (t = Idle (v_cpu v) \/ candidate v p t) /\ forall x, x ∈ runqueue p' -> candidate v p x.
Proof.
  unfold sched_cbs_pick_next. intros E. inv_ret. rename r into p1, r0 into p2.
  assert (forall x, x ∈ runqueue p2 -> candidate v p x) as Hc.
  { intros x Hx. eapply settle_elem; [exact E0|]. by eapply refresh_queues_elem. }
  destruct (runqueue p2) as [|y rest] eqn:Eq; inv_ret; subst; apply program_queue in E2; rewrite E2.
  - split; [auto|]. destruct (is_idle_thread v _); cbn; rewrite Eq; by intros x ?%elem_of_nil.
  - split; [right; apply Hc; qset|]. intros x Hx. apply Hc. rewrite <- Eq.
    apply (queue_remove_elem t p2 x). by destruct (is_idle_thread v _).
Qed.

#[export] Instance cbs_policy : SchedPolicy sched_cbs.
Proof.
  refine {| pol_inv := fun _ => True; queued := fun p t => t ∈ runqueue p |}; cbn; try done.
  - intros v clk p r p' _ E. unfold sched_cbs_init in E. inv_ret. subst. cbn.
    split; [done|]. by intros x ?%elem_of_nil.
  - intros f v clk p t p' [= <-] _ E. apply pick_elem in E as [Ht Hq].
    unfold candidate in *. split_and!; [done|unfold active_current; tauto|exact Hq].
  - intros f v clk t p p' [= <-] _ E. split; [done|]. intros x. unfold sched_cbs_sleep in E. inv_ret.
    assert (runqueue r = runqueue p) as Er.
    { destruct (is_current v t); [by eapply account_queue|by inv_ret; subst]. }
    assert (runqueue p' = runqueue (cbs_queue_remove t r)) as ->.
    { destruct (is_current v t); by apply program_queue in E. }
    by rewrite queue_remove_elem, Er.
  - intros f v clk t p p' [= <-] _ E. split; [done|]. intros x. unfold sched_cbs_wake in E. inv_ret.
    apply program_queue in E. rewrite E, queue_insert_elem. cbn. tauto.
  - intros f v clk t p p' [= <-] _ E. split; [done|]. intros x.
    unfold sched_cbs_prioritize in E. inv_ret. subst.
    destruct (is_current v t); [auto|]. rewrite queue_insert_elem. cbn. tauto.
  - intros f v clk t prm p p' [= <-] _ _ E. unfold sched_cbs_init_data in E. inv_ret.
    destruct r. inv_ret. by subst.
  - by intros f v clk p p' [= <-] _ [= <-].
  - by intros f v clk p p' [= <-] _ [= <-].
  - intros f v clk p b p' [= <-] _ E. split; [done|]. intros x. unfold cbs_timer_handler in E. inv_ret. subst.
    apply program_local_queue in E2. rewrite E2. intros Hx.
    apply (settle_elem _ _ _ _ x E0). by eapply refresh_queues_elem.
Defined.

(** ** Runs of the policy *)

(** The calls the framework makes between [init] and [deinit], each with the
    pCPU state and the counter readings it sees. *)
Inductive cbs_call :=
| CInitData (t : tid) (prm : sched_params)
| CPick
| CSleep (t : tid)
| CWake (t : tid)
| CPrioritize (t : tid)
| CTick.

Definition run_call (v : sched_view) (clk : clock) (c : cbs_call) (p : sched_cbs_control)
    : outcome sched_cbs_control :=
  match c with
  | CInitData t prm => sched_cbs_init_data v clk t prm p
  | CPick => snd <$> sched_cbs_pick_next v clk p
  | CSleep t => sched_cbs_sleep v clk t p
  | CWake t => sched_cbs_wake v clk t p
  | CPrioritize t => sched_cbs_prioritize v clk t p
  | CTick => snd <$> cbs_timer_handler v clk p
  end.

(** What the framework and the platform guarantee of a call. *)
Definition call_ok (v : sched_view) (clk : clock) (c : cbs_call) (p : sched_cbs_control) : Prop :=
  0 < clk 0%nat /\ time_ok (clk 0%nat) /\ time_ok (clk 1%nat) /\
  match c with
  | CInitData t prm =>
      t ∉ runqueue p /\ in_u32 (v_khz v) /\ 2 <= v_khz v /\
      exists period budget, cbs_normalize_us (v_plat v) (pcpu_id (thr v t)) prm = Ret (period, budget) /\
        in_u32 period
  | CPick => view_ok v p
  | CSleep t | CWake t => known p t
  | CPrioritize t =>
      known p t /\ (is_current v t = true -> t ∈ runqueue p -> cbs_stale (clk 0%nat) p t = false)
  | CTick => view_ok v p /\ v_pcpu v = v_cpu v
  end.

Lemma run_call_ok v clk c p :
  cbs_inv p -> call_ok v clk c p -> exists p', run_call v clk c p = Ret p' /\ cbs_inv p'.
Proof.
  intros Hi (H0 & Hn & Hn1 & Hc). destruct c; cbn [run_call].
  - destruct Hc as (Ht & Hk & Hk2 & per & bud & E & Hp).
    destruct (cbs_init_data_ok v clk t prm p per bud) as (p' & ? & ? & _); [done..|]. eauto.
  - destruct (cbs_pick_ok v clk p) as (t & p' & E & ? & _); [done..|]. rewrite E. cbn. eauto.
  - destruct (cbs_sleep_ok v clk t p) as (p' & ? & ? & _); [done..|]. eauto.
  - destruct (cbs_wake_ok v clk t p) as (p' & ? & ? & _); [done..|]. eauto.
  - destruct Hc as [Hk Hcur]. destruct (cbs_prioritize_ok v clk t p) as (p' & ? & ? & _); [done..|]. eauto.
  - destruct Hc as [Hv Hl]. destruct (cbs_tick_ok v clk p) as (p' & E & ? & _); [done..|].
    rewrite E. cbn. eauto.
Qed.

(** States reachable from a successful [init] with no thread data. *)
Inductive cbs_reach : sched_cbs_control -> Prop :=
| reach_init v clk p p' r :
    data p = ∅ -> sched_cbs_init v clk p = Ret (r, p') -> cbs_reach p'
| reach_call v clk c p p' :
    cbs_reach p -> call_ok v clk c p -> run_call v clk c p = Ret p' -> cbs_reach p'.

Lemma cbs_init_inv v clk p p' r :
  data p = ∅ -> sched_cbs_init v clk p = Ret (r, p') -> cbs_inv p'.
Proof.
  intros Hd E. unfold sched_cbs_init in E. inv_ret. subst.
  unfold cbs_inv, cbs_sorted, servers_ok, timer_ok. cbn. rewrite Hd. split_and!; try done.
  - constructor.
  - constructor.
  - by intros t ?%elem_of_nil.
Qed.

Lemma cbs_reach_inv p : cbs_reach p -> cbs_inv p.
Proof.
  induction 1 as [v clk p p' r Hd E|v clk c p p' _ IH Hc E]; [by eapply cbs_init_inv|].
  destruct (run_call_ok v clk c p IH Hc) as (q & E' & Hq). congruence.
Qed.

(** ** The ledger of a server *)
Fixpoint charges (l : list Z) (d : sched_cbs_data) : outcome sched_cbs_data :=
  match l with
  | [] => Ret d
  | delta :: l => d ← cbs_charge_runtime delta true d; charges l d
  end.

Definition total (l : list Z) : Z := foldr Z.add 0 l.

Lemma charges_ok l : forall d,
  server_ok d -> Forall (fun x => 0 <= x) l ->
  exists d' k, charges l d = Ret d' /\ same_server d d' /\ server_ok d' /\ 0 <= k /\
    remaining_ticks d' = remaining_ticks d + k * budget_ticks d - total l /\
    deadline_ticks d' = Z.min UINT64_MAX (deadline_ticks d + k * period_ticks d).
Proof.
  induction l as [|x l IH]; intros d Hs Hl; cbn [charges total foldr].
  - exists d, 0. destruct Hs as (? & ? & ? & Hu). unfold in_u64 in Hu. split_and!; try done; lia.
  - apply Forall_cons in Hl as [Hx Hl].
    destruct (cbs_charge_ok x true d Hs Hx) as (d1 & k1 & -> & S1 & O1 & K1 & R1 & D1 & _).
    destruct (IH d1 O1 Hl) as (d' & k & E & S' & O' & K' & R' & D'). cbn [mbind outcome_bind].
    destruct S1 as (EP & EB & EL). rewrite EP, EB in *. pose proof O1 as (? & _).
    exists d', (k1 + k). split; [done|]. split; [unfold same_server in *; intuition congruence|].
    fold (total l). rewrite R', D', R1, D1. split_and!; try done; nia.
Qed.

(** ** Admission *)
Definition utilization_of (plat : platform) (pcpu : Z) (cfg : acrn_vm_config) : Z :=
  if cbs_vm_uses_pcpu cfg pcpu then
    match cbs_normalize_us plat pcpu (vm_sched_params cfg) with
    | Ret (period, budget) => budget * CBS_UTIL_SCALE / period
    | _ => 0
    end
  else 0.

(** The VM configurations hold 32-bit budgets. *)
Definition budgets_u32 (plat : platform) (pcpu : Z) (cfgs : list acrn_vm_config) : Prop :=
  forall cfg per bud, cfg ∈ cfgs -> cbs_normalize_us plat pcpu (vm_sched_params cfg) = Ret (per, bud) ->
    in_u32 bud.

Lemma admission_loop_ok plat pcpu cfgs : forall u u',
  budgets_u32 plat pcpu cfgs -> 0 <= u <= CBS_UTIL_SCALE ->
  admission_loop plat pcpu cfgs u = Ret u' ->
  u' = u + total (utilization_of plat pcpu <$> cfgs) /\ 0 <= u' <= CBS_UTIL_SCALE.
Proof.
  unfold CBS_UTIL_SCALE. induction cfgs as [|cfg cfgs IH]; intros u u' Hb Hu E; cbn in *.
  { inv_ret. subst. lia. }
  assert (budgets_u32 plat pcpu cfgs) as Hb'.
  { intros c per bud Hc. apply (Hb c per bud). qset. }
  unfold utilization_of at 1. destruct (cbs_vm_uses_pcpu cfg pcpu); [|by apply IH].
  inv_ret. destruct r as [per bud]. rewrite E0.
  pose proof (normalize_bounds _ _ _ _ _ E0) as Hn.
  assert (in_u32 bud) as Hbu by (apply (Hb cfg per bud); [qset|done]). unfold in_u32 in Hbu.
  unfold CBS_UTIL_SCALE in *. rewrite (u64_small (bud * 1000000)) in E by (unfold in_u64; lia).
  assert (0 <= bud * 1000000 / per <= 1000000).
  { split; [apply Z.div_pos; lia|]. apply Z.div_le_upper_bound; nia. }
  rewrite u64_small in E by (unfold in_u64; lia).
  destruct (Z.ltb_spec 1000000 (u + bud * 1000000 / per)); [done|].
  apply IH in E as [-> ?]; [|done|lia]. unfold total in *. lia.
Qed.

(** ** Theorems *)

(** Example state: thread 1 has been running since tick 1000, threads 2 and 4
    wait; periods of 250000 ticks and budgets of 125000. *)
Definition ex_server (remaining deadline start : Z) : sched_cbs_data :=
  mk_cbs_data 250000 125000 remaining deadline start 0 0 0 0.
Definition ex_cbs : sched_cbs_control :=
  mk_cbs [Thread 2; Thread 4] (handle_init 0 0) 0 500000
    (<[Thread 1 := ex_server 125000 251000 1000]>
    (<[Thread 2 := ex_server 100000 300000 0]>
    (<[Thread 4 := ex_server 125000 300500 0]> ∅))).

Lemma ex_cbs_inv : cbs_inv ex_cbs.
Proof.
  unfold cbs_inv, cbs_sorted, servers_ok, timer_ok. split_and!; try done.
  - repeat constructor; qset.
  - repeat constructor; by vm_compute.
  - repeat apply map_Forall_insert_2; try apply map_Forall_empty;
      unfold entry_ok, server_ok, in_u64, TIME_BOUND; cbn; lia.
  - cbn. intros t Ht. rewrite !elem_of_cons in Ht. unfold known.
    destruct Ht as [->|[->|Ht%elem_of_nil]]; [by eexists; vm_compute..|done].
Qed.

Lemma ex_cbs_view : view_ok (ex_view (Some (Thread 1))) ex_cbs.
Proof.
  split_and!.
  - intros c [= <-] _. split; [by eexists; vm_compute|by vm_compute].
  - cbn. intros x Hx. rewrite !elem_of_cons in Hx.
    by destruct Hx as [->|[->|Hx%elem_of_nil]].
  - done.
Qed.

(** C27: Earliest deadline first.  From every state that satisfies the policy's
    invariant, [pick_next] returns, and keeps the invariant.  No active thread
    is lost: each is the one returned or stays queued.  Either nothing is queued
    and idle is returned, or the thread returned was a candidate, has budget and
    a deadline in the future, its deadline is no later than that of every thread
    left in the queue, and the local timer is set to the end of its budget or of
    its window, whichever is first. *)
Theorem cbs_pick_edf v clk p :
  cbs_inv p -> view_ok v p -> time_ok (clk 0%nat) -> time_ok (clk 1%nat) -> 0 < clk 0%nat ->
  exists t p', sched_cbs_pick_next v clk p = Ret (t, p') /\ cbs_inv p' /\
    (forall x, candidate v p x -> is_active v x = true -> x = t \/ x ∈ runqueue p') /\
    (forall x, x ∈ runqueue p' -> candidate v p x) /\
    ((t = Idle (v_cpu v) /\ runqueue p' = []) \/
     (candidate v p t /\ t ∉ runqueue p' /\ fresh (clk 0%nat) (data_of p' t) /\
      (forall x, x ∈ runqueue p' -> deadline_of p' t <= deadline_of p' x) /\
      (v_pcpu v = v_cpu v -> timer_deadline_ticks p' =
         Z.max (clk 1%nat) (Z.min (deadline_of p' t) (clk 0%nat + remaining_ticks (data_of p' t)))))).
Proof. apply cbs_pick_ok. Qed.

Lemma cbs_pick_edf_witness :
  exists t p', sched_cbs_pick_next (ex_view (Some (Thread 1))) (ex_clock 200000) ex_cbs = Ret (t, p') /\
    cbs_inv p'.
Proof.
  destruct (cbs_pick_edf (ex_view (Some (Thread 1))) (ex_clock 200000) ex_cbs)
    as (t & p' & E & Hi & _);
    [exact ex_cbs_inv|exact ex_cbs_view|unfold time_ok, TIME_BOUND, ex_clock; lia..|].
  exists t, p'. split; [exact E|exact Hi].
Defined.

(** Runtime accounting is exact.  Charging [delta] ticks ends, and moves the
    server by the least number [k] of periods whose budgets cover the charge:
    the remaining budget is what it was plus [k] budgets minus [delta], and the
    deadline moves by [k] periods, stopping at the largest counter value. *)
Theorem cbs_charge_exact delta count d :
  server_ok d -> 0 <= delta ->
  exists d' k, cbs_charge_runtime delta count d = Ret d' /\ server_ok d' /\ 0 <= k /\
    remaining_ticks d' = remaining_ticks d + k * budget_ticks d - delta /\
    deadline_ticks d' = Z.min UINT64_MAX (deadline_ticks d + k * period_ticks d) /\
    (k = 0 \/ remaining_ticks d + (k - 1) * budget_ticks d < delta).
Proof.
  intros Hs Hd. destruct (cbs_charge_ok delta count d Hs Hd) as (d' & k & ? & _ & ?). by exists d', k.
Qed.

Lemma cbs_charge_exact_witness :
  exists d' k, cbs_charge_runtime 300000 true (ex_server 100000 300000 1) = Ret d' /\ 0 <= k.
Proof.
  destruct (cbs_charge_exact 300000 true (ex_server 100000 300000 1)) as (d' & k & E & _ & Hk & _);
    [unfold server_ok, in_u64; cbn; lia|lia|]. exists d', k. split; [exact E|exact Hk].
Defined.

(** C36: No call fails.  In every state reachable from [init] by calls that
    respect what the framework guarantees, the invariant holds (queue sorted by
    deadline without duplicates, budgets within bounds, timer armed exactly when
    a deadline is cached) and every further such call returns: no assertion
    fails and no loop runs for ever. *)
Theorem cbs_calls_safe p v clk c :
  cbs_reach p -> call_ok v clk c p ->
  cbs_inv p /\ exists p', run_call v clk c p = Ret p' /\ cbs_reach p'.
Proof.
  intros Hr Hc. pose proof (cbs_reach_inv p Hr) as Hi. split; [done|].
  destruct (run_call_ok v clk c p Hi Hc) as (p' & E & _). exists p'. split; [done|].
  by eapply reach_call.
Qed.

Definition ex_cbs_start : sched_cbs_control := mk_cbs [] (handle_init 0 0) 0 1000000 ∅.

Lemma cbs_calls_safe_witness :
  cbs_inv ex_cbs_start /\
  exists p', run_call (ex_view None) (ex_clock 1000) (CInitData (Thread 2) ex_params) ex_cbs_start = Ret p' /\
    cbs_reach p'.
Proof.
  apply (cbs_calls_safe ex_cbs_start (ex_view None) (ex_clock 1000) (CInitData (Thread 2) ex_params)).
  - exact (reach_init (ex_view None) (ex_clock 1) (mk_cbs [] (handle_init 0 0) 0 0 ∅) ex_cbs_start 0
      eq_refl eq_refl).
  - unfold call_ok, time_ok, TIME_BOUND, ex_clock, in_u32, v_khz. cbn. split_and!; try lia.
    + apply not_elem_of_nil.
    + exists 4000, 2000. split; [reflexivity|lia].
Defined.

(** The wake rule protects the reservation.  [wake] returns, keeps the
    invariant, queues exactly the woken thread in addition and gives it budget
    and a future deadline.  If it slept with budget left, what it may use before
    that deadline is at most its reserved share of the time until then; no other
    server changes. *)
Theorem cbs_wake_bandwidth v clk t p :
  known p t -> time_ok (clk 0%nat) -> cbs_inv p ->
  exists p', sched_cbs_wake v clk t p = Ret p' /\ cbs_inv p' /\
    (forall x, x ∈ runqueue p' <-> x = t \/ x ∈ runqueue p) /\ fresh (clk 0%nat) (data_of p' t) /\
    (0 < remaining_ticks (data_of p t) ->
     remaining_ticks (data_of p' t) * period_ticks (data_of p t) <=
     (deadline_of p' t - clk 0%nat) * budget_ticks (data_of p t)) /\
    (forall x, x <> t -> data_of p' x = data_of p x).
Proof. apply cbs_wake_ok. Qed.

Lemma cbs_wake_bandwidth_witness :
  exists p', sched_cbs_wake (ex_view None) (ex_clock 200000) (Thread 1) ex_cbs = Ret p' /\
    remaining_ticks (data_of p' (Thread 1)) * 250000 <= (deadline_of p' (Thread 1) - 200000) * 125000.
Proof.
  destruct (cbs_wake_bandwidth (ex_view None) (ex_clock 200000) (Thread 1) ex_cbs)
    as (p' & E & _ & _ & _ & H & _);
    [by eexists; vm_compute|unfold time_ok, TIME_BOUND, ex_clock; lia|exact ex_cbs_inv|].
  exists p'. split; [exact E|]. apply H. by vm_compute.
Defined.

(** A server that slept with its budget used up is given a full budget with the
    next multiple of its period as deadline, however close: woken one tick
    before that deadline, the budget does not fit. *)
Theorem cbs_depleted_wake_too_dense :
  exists d d' now, server_ok d /\ remaining_ticks d = 0 /\
    cbs_apply_inactive_wake_rule now d = Ret d' /\
    (deadline_ticks d' - now) * budget_ticks d < remaining_ticks d' * period_ticks d /\
    deadline_ticks d' - now < remaining_ticks d'.
Proof.
  exists (ex_server 0 300000 0), ((ex_server 125000 550000 0) <| replenish_count := 1 |>
    <| wake_replenish_count := 1 |>), 549999.
  split_and!; by vm_compute.
Qed.

(** Bandwidth ledger.  Over any sequence of charges without a wake-up in
    between, the processor time received is exactly the budgets of the periods
    the deadline has moved by plus the change of the remaining budget: a server
    gets no more than its share of its deadline's progress plus the budget it
    had. *)
Theorem cbs_bandwidth_ledger l d :
  server_ok d -> Forall (fun x => 0 <= x) l ->
  exists d', charges l d = Ret d' /\ server_ok d' /\
    (deadline_ticks d' < UINT64_MAX ->
     total l * period_ticks d =
       (deadline_ticks d' - deadline_ticks d) * budget_ticks d +
       (remaining_ticks d - remaining_ticks d') * period_ticks d).
Proof.
  intros Hs Hl. destruct (charges_ok l d Hs Hl) as (d' & k & E & _ & O' & Hk & R & D).
  exists d'. split_and!; try done. intros Hb. assert (deadline_ticks d' = deadline_ticks d + k * period_ticks d) as -> by lia.
  rewrite R. nia.
Qed.

Lemma cbs_bandwidth_ledger_witness :
  exists d', charges [1000; 400000; 7] (ex_server 100000 300000 1) = Ret d' /\ server_ok d'.
Proof.
  destruct (cbs_bandwidth_ledger [1000; 400000; 7] (ex_server 100000 300000 1)) as (d' & E & O & _);
    [unfold server_ok, in_u64; cbn; lia|repeat constructor; lia|]. exists d'. split; [exact E|exact O].
Defined.



(** Without a 128-bit type the comparison is not exact once a product exceeds 64
    bits: here the left ratio is the larger one and the fallback says no. *)
Theorem cbs_ratio_fallback_inexact :
  exists a b c d, in_u64 a /\ in_u64 b /\ in_u64 c /\ in_u64 d /\ 0 < b /\ 0 < d /\
    cbs_ratio_greater a b c d = true /\ cbs_ratio_greater_64 a b c d = false.
Proof.
  exists (2 ^ 33), (2 ^ 34), (2 ^ 32), (2 ^ 34). unfold in_u64.
  split_and!; try lia; by vm_compute.
Qed.

(** Prioritising the current thread after its window has ended moves its
    deadline without moving its place in the queue, where a timer tick put it.
    A thread prioritised next is then inserted in front of it, and in front of
    a thread with an earlier deadline that [pick_next] passes over. *)
Definition ex_requeued : sched_cbs_control :=
  mk_cbs [Thread 1; Thread 4; Thread 2] (handle_init 0 0) 0 500000
    (<[Thread 1 := ex_server 125000 251000 1000]>
    (<[Thread 2 := ex_server 100000 350000 0]>
    (<[Thread 4 := ex_server 125000 300000 0]> ∅))).

Theorem cbs_prioritize_breaks_edf :
  let v := ex_view (Some (Thread 1)) in
  cbs_sorted ex_requeued /\
  exists p1 p2 p3,
    sched_cbs_prioritize v (ex_clock 260000) (Thread 1) ex_requeued = Ret p1 /\
    sched_cbs_prioritize v (ex_clock 260001) (Thread 2) p1 = Ret p2 /\
    sched_cbs_pick_next v (ex_clock 260002) p2 = Ret (Thread 2, p3) /\
    Thread 4 ∈ runqueue p3 /\ deadline_of p3 (Thread 4) < deadline_of p3 (Thread 2).
Proof.
  cbn zeta. split.
  { split; [repeat constructor; qset|repeat constructor; by vm_compute]. }
  eexists _, _, _. split_and!; [vm_compute; reflexivity..| |].
  - cbn. qset.
  - by vm_compute.
Qed.
