(* ===== verification/Rtds.v ===== *)
(** * The periodic-server policy (core/sched/rtds.c)

    Each thread is a periodic server; servers with budget wait in the ready
    queue by deadline, servers without budget in the depleted queue until their
    next period.  A depleted server runs only when nobody is ready. *)
From S2P Require Import Prelude Ticks Timer SchedTypes.

Definition RTDS_DEFAULT_PERIOD_US : Z := 4000.
Definition RTDS_DEFAULT_BUDGET_US : Z := 2000.
Definition RTDS_MIN_PERIOD_US : Z := 500.
Definition RTDS_MIN_BUDGET_US : Z := 500.

Inductive sched_rtds_queue := RTDS_QUEUE_NONE | RTDS_QUEUE_READY | RTDS_QUEUE_DEPLETED.
#[export] Instance sched_rtds_queue_eq_dec : EqDecision sched_rtds_queue.
Proof. solve_decision. Defined.

Record sched_rtds_data := mk_rtds_data {
  period_ticks : Z;
  budget_ticks : Z;
  remaining_ticks : Z;
  deadline_ticks : Z;
  last_start_ticks : Z;
  queue : sched_rtds_queue }.
#[export] Instance eta_rtds_data : Eta sched_rtds_data := fun d =>
  mk_rtds_data (period_ticks d) (budget_ticks d) (remaining_ticks d) (deadline_ticks d)
    (last_start_ticks d) (queue d).
#[export] Instance rtds_data_inhabited : Inhabited sched_rtds_data :=
  populate (mk_rtds_data 0 0 0 0 0 RTDS_QUEUE_NONE).

Record sched_rtds_control := mk_rtds {
  ready_queue : list tid;
  depleted_queue : list tid;
  tick_timer : timer_handle;
  data : gmap tid sched_rtds_data }.
#[export] Instance eta_rtds : Eta sched_rtds_control := fun p =>
  mk_rtds (ready_queue p) (depleted_queue p) (tick_timer p) (data p).

Definition data_of (p : sched_rtds_control) (t : tid) : sched_rtds_data := data p !!! t.
Definition set_data (t : tid) (d : sched_rtds_data) (p : sched_rtds_control) : sched_rtds_control :=
  p <| data := <[t := d]> (data p) |>.
Definition set_queue (t : tid) (q : sched_rtds_queue) (p : sched_rtds_control) : sched_rtds_control :=
  set_data t ((data_of p t) <| queue := q |>) p.

Definition rtds_next_period_boundary (now period : Z) : Z :=
  if period =? 0 then now else u64 (u64 (now / period + 1) * period).

Definition rtds_is_queued (d : sched_rtds_data) : bool := negb (bool_decide (queue d = RTDS_QUEUE_NONE)).

(** [list_del_init] unlinks the node from the queue it is on. *)
Definition rtds_queue_remove (t : tid) (p : sched_rtds_control) : sched_rtds_control :=
  if rtds_is_queued (data_of p t) then
    set_queue t RTDS_QUEUE_NONE
      (p <| ready_queue := list_del_init t (ready_queue p) |>
         <| depleted_queue := list_del_init t (depleted_queue p) |>)
  else p.

Definition rtds_ready_insert (t : tid) (p : sched_rtds_control) : sched_rtds_control :=
  let p := if rtds_is_queued (data_of p t) then rtds_queue_remove t p else p in
  set_queue t RTDS_QUEUE_READY
    (p <| ready_queue :=
      insert_before (fun x => deadline_ticks (data_of p t) <? deadline_ticks (data_of p x))
        t (ready_queue p) |>).

Definition rtds_depleted_insert (t : tid) (p : sched_rtds_control) : sched_rtds_control :=
  if bool_decide (queue (data_of p t) = RTDS_QUEUE_DEPLETED) then p
  else
    let p := if bool_decide (queue (data_of p t) = RTDS_QUEUE_READY) then rtds_queue_remove t p else p in
    set_queue t RTDS_QUEUE_DEPLETED (p <| depleted_queue := depleted_queue p ++ [t] |>).

Definition rtds_charge (delta : Z) (d : sched_rtds_data) : Z :=
  if remaining_ticks d <=? delta then 0 else remaining_ticks d - delta.

Definition rtds_account_runtime (v : sched_view) (t : tid) (now : Z) (p : sched_rtds_control)
    : sched_rtds_control :=
  let d := data_of p t in
  if is_idle_thread v t || negb (bool_decide (status (thr v t) = THREAD_STS_RUNNING)) ||
     (last_start_ticks d =? 0) || (now <=? last_start_ticks d)
  then p
  else
    let delta := now - last_start_ticks d in
    set_data t (d <| last_start_ticks := now |> <| remaining_ticks := rtds_charge delta d |>) p.

(** (advanced, data) *)
Definition rtds_advance_period (now : Z) (d : sched_rtds_data) : bool * sched_rtds_data :=
  if now <? deadline_ticks d then (false, d)
  else
    let periods_missed := u64 ((now - deadline_ticks d) / period_ticks d + 1) in
    (true, d <| deadline_ticks := u64 (deadline_ticks d + u64 (periods_missed * period_ticks d)) |>
             <| remaining_ticks := budget_ticks d |>).

Definition rtds_refresh_thread (v : sched_view) (t : tid) (now : Z) (p : sched_rtds_control)
    : sched_rtds_control :=
  let p := set_data t (snd (rtds_advance_period now (data_of p t))) p in
  if is_active v t then
    if 0 <? remaining_ticks (data_of p t) then rtds_ready_insert t p
    else if negb (be_blocking (thr v t)) then rtds_depleted_insert t p
    else p
  else p.

Definition rtds_next_depleted_deadline (p : sched_rtds_control) : Z :=
  foldl (fun next t =>
    if (next =? 0) || (deadline_ticks (data_of p t) <? next) then deadline_ticks (data_of p t) else next)
    0 (depleted_queue p).

Definition rtds_pick_depleted_slack (p : sched_rtds_control) : option tid * sched_rtds_control :=
  let best := foldl (fun best t =>
    match best with
    | None => Some t
    | Some b => if deadline_ticks (data_of p t) <? deadline_ticks (data_of p b) then Some t else best
    end) None (depleted_queue p) in
  (best, match best with Some b => rtds_queue_remove b p | None => p end).

Definition rtds_timeout (v : sched_view) (running : option tid) (now : Z) (p : sched_rtds_control) : Z :=
  let timeout :=
    match running with
    | Some r =>
        if is_idle_thread v r then 0
        else
          let d := data_of p r in
          if 0 <? remaining_ticks d then
            let timeout := if negb (last_start_ticks d =? 0)
                           then u64 (last_start_ticks d + remaining_ticks d)
                           else u64 (now + remaining_ticks d) in
            let timeout := if deadline_ticks d <? timeout then deadline_ticks d else timeout in
            if timeout <=? now then now else timeout
          else if now <? deadline_ticks d then deadline_ticks d else now
    | None => 0
    end in
  let replenish_timeout := rtds_next_depleted_deadline p in
  if negb (replenish_timeout =? 0) && ((timeout =? 0) || (replenish_timeout <? timeout))
  then replenish_timeout else timeout.

Definition rtds_program_local_timer (v : sched_view) (running : option tid) (now : Z)
    (p : sched_rtds_control) : outcome sched_rtds_control :=
  _ ← ASSERT (v_pcpu v =? v_cpu v) "program RTDS timer on wrong cpu!";
  let p := p <| tick_timer := handle_del (tick_timer p) |> in
  let timeout := rtds_timeout v running now p in
  if negb (timeout =? 0) then
    '(_, h) ← handle_add (v_khz v) (handle_update timeout 0 (tick_timer p));
    Ret (p <| tick_timer := h |>)
  else Ret p.

Definition rtds_program_timer (v : sched_view) (running : option tid) (now : Z)
    (p : sched_rtds_control) : outcome sched_rtds_control :=
  if v_pcpu v =? v_cpu v then rtds_program_local_timer v running now p else Ret p.

Definition refresh_ready_body (v : sched_view) (now : Z) (t : tid) (p : sched_rtds_control)
    : outcome sched_rtds_control :=
  let '(advanced, d) := rtds_advance_period now (data_of p t) in
  let p := set_data t d p in
  Ret (if advanced then rtds_refresh_thread v t now (rtds_queue_remove t p) else p).

Definition refresh_depleted_body (v : sched_view) (now : Z) (t : tid) (p : sched_rtds_control)
    : outcome sched_rtds_control := Ret (rtds_refresh_thread v t now p).

Definition rtds_refresh_queues (v : sched_view) (now : Z) (p : sched_rtds_control)
    : outcome sched_rtds_control :=
  p ← list_for_each_safe ready_queue (refresh_ready_body v now) (2 * length (ready_queue p)) p;
  list_for_each_safe depleted_queue (refresh_depleted_body v now) (2 * length (depleted_queue p)) p.

(** The first step of [rtds_timer_handler] and [sched_rtds_pick_next]. *)
Definition settle_current (v : sched_view) (now : Z) (p : sched_rtds_control) : sched_rtds_control :=
  match v_curr v with
  | Some current =>
      if is_idle_thread v current then p
      else rtds_refresh_thread v current now (rtds_account_runtime v current now p)
  | None => p
  end.

(** The softirq has unlinked the timer when it calls the handler. *)
Definition rtds_timer_handler (v : sched_view) (clk : clock) (p : sched_rtds_control)
    : outcome (bool * sched_rtds_control) :=
  let p := p <| tick_timer := handle_del (tick_timer p) |> in
  p ← rtds_refresh_queues v (clk 0%nat) (settle_current v (clk 0%nat) p);
  Ret (true, p).

Definition sched_rtds_init (v : sched_view) (clk : clock) (p : sched_rtds_control)
    : outcome (Z * sched_rtds_control) :=
  _ ← ASSERT (v_pcpu v =? v_cpu v) "init scheduler on wrong cpu!";
  Ret (0, p <| ready_queue := [] |> <| depleted_queue := [] |> <| tick_timer := handle_init 0 0 |>).

Definition sched_rtds_deinit (v : sched_view) (clk : clock) (p : sched_rtds_control)
    : outcome sched_rtds_control := Ret (p <| tick_timer := handle_del (tick_timer p) |>).

(** (period, budget) in microseconds of every thread on [pcpu]. *)
Definition rtds_normalize_us (plat : platform) (pcpu : Z) : Z * Z :=
  let '(period, budget) :=
    match sched_get_pcpu_pool_config (sched_config plat) pcpu with
    | Some pool =>
        if bool_decide (policy pool = SCHED_POLICY_RTDS) then
          (if negb (period_us pool =? 0) then period_us pool else RTDS_DEFAULT_PERIOD_US,
           if negb (budget_us pool =? 0) then budget_us pool else RTDS_DEFAULT_BUDGET_US)
        else (RTDS_DEFAULT_PERIOD_US, RTDS_DEFAULT_BUDGET_US)
    | None => (RTDS_DEFAULT_PERIOD_US, RTDS_DEFAULT_BUDGET_US)
    end in
  let period := Z.max period RTDS_MIN_PERIOD_US in
  (period, Z.min (Z.max budget RTDS_MIN_BUDGET_US) period).

(** [INIT_LIST_HEAD(&data->list)] has no counterpart: the thread is on no list. *)
Definition sched_rtds_init_data (v : sched_view) (clk : clock) (t : tid) (prm : sched_params)
    (p : sched_rtds_control) : outcome sched_rtds_control :=
  let '(period, budget) := rtds_normalize_us (v_plat v) (pcpu_id (thr v t)) in
  let per := us_to_ticks (v_khz v) period in
  let bud := us_to_ticks (v_khz v) budget in
  Ret (set_data t (mk_rtds_data per bud bud (rtds_next_period_boundary (clk 0%nat) per) 0
    RTDS_QUEUE_NONE) p).

(** The first ready server, else a depleted one, else idle; taken off its queue. *)
Definition rtds_choose (v : sched_view) (p : sched_rtds_control) : tid * sched_rtds_control :=
  match ready_queue p with
  | t :: _ => (t, rtds_queue_remove t p)
  | [] => let '(best, p) := rtds_pick_depleted_slack p in (default (Idle (v_cpu v)) best, p)
  end.

Definition sched_rtds_pick_next (v : sched_view) (clk : clock) (p : sched_rtds_control)
    : outcome (tid * sched_rtds_control) :=
  let now := clk 0%nat in
  p ← rtds_refresh_queues v now (settle_current v now p);
  let '(next, p) := rtds_choose v p in
  let p := if is_idle_thread v next then p
           else set_data next ((data_of p next) <| last_start_ticks := now |>) p in
  p ← rtds_program_timer v (Some next) (clk 1%nat) p;
  Ret (next, p).

(** The counter is read for the accounting only when the thread is current. *)
Definition sched_rtds_sleep (v : sched_view) (clk : clock) (t : tid) (p : sched_rtds_control)
    : outcome sched_rtds_control :=
  let p := if is_current v t then rtds_account_runtime v t (clk 0%nat) p else p in
  let p := rtds_queue_remove t p in
  let p := set_data t ((data_of p t) <| last_start_ticks := 0 |>) p in
  if is_current v t then rtds_program_timer v None (clk 1%nat) p
  else rtds_program_timer v (v_curr v) (clk 0%nat) p.

Definition sched_rtds_wake (v : sched_view) (clk : clock) (t : tid) (p : sched_rtds_control)
    : outcome sched_rtds_control :=
  let d := snd (rtds_advance_period (clk 0%nat) (data_of p t)) in
  let p := set_data t (d <| last_start_ticks := 0 |>) p in
  let p := if 0 <? remaining_ticks d then rtds_ready_insert t p else rtds_depleted_insert t p in
  rtds_program_timer v (v_curr v) (clk 1%nat) p.

Definition sched_rtds_prioritize (v : sched_view) (clk : clock) (t : tid) (p : sched_rtds_control)
    : outcome sched_rtds_control :=
  let d := snd (rtds_advance_period (clk 0%nat) (data_of p t)) in
  let p := set_data t d p in
  Ret (if negb (is_current v t) && (0 <? remaining_ticks d) then rtds_ready_insert t p else p).

Definition sched_rtds_suspend := sched_rtds_deinit.

Definition sched_rtds : sched_ops sched_rtds_control :=
  mk_ops sched_rtds_init (Some sched_rtds_init_data) (Some sched_rtds_pick_next)
    (Some sched_rtds_sleep) (Some sched_rtds_wake) (Some sched_rtds_prioritize) None
    (Some sched_rtds_deinit) (Some sched_rtds_suspend) None (Some rtds_timer_handler).

(** ** Statistics *)
Definition sched_rtds_snapshot (v : sched_view) (now : Z) (t : tid) (p : sched_rtds_control)
    : sched_rtds_data :=
  let d := data_of p t in
  if bool_decide (status (thr v t) = THREAD_STS_RUNNING) && negb (is_idle_thread v t) &&
     negb (last_start_ticks d =? 0) && (last_start_ticks d <? now)
  then d <| remaining_ticks := rtds_charge (now - last_start_ticks d) d |> else d.

Definition sched_get_rtds_stats (v : sched_view) (clk : clock) (is_rtds : bool) (obj : option tid)
    (p : sched_rtds_control) : option sched_rtds_data :=
  match obj with
  | Some t => if sched_ctl (thr v t) && is_rtds then Some (sched_rtds_snapshot v (clk 0%nat) t p) else None
  | None => None
  end.

(** ** Periods *)
Definition TIME_BOUND : Z := 2 ^ 63.
Definition time_ok (now : Z) : Prop := 0 <= now < TIME_BOUND.

(** A server whose deadline lies on the grid of its period. *)
Definition server_ok (d : sched_rtds_data) : Prop :=
  0 < budget_ticks d <= period_ticks d /\ period_ticks d <= 2 ^ 55 /\
  0 <= remaining_ticks d <= budget_ticks d /\ 0 < deadline_ticks d <= 2 ^ 63 + 2 ^ 55 /\
  deadline_ticks d mod period_ticks d = 0 /\ 0 <= last_start_ticks d < TIME_BOUND.

(** The jump over missed periods lands on the first boundary after [now]. *)
Lemma rtds_advance_ok now d :
  server_ok d -> time_ok now ->
  let '(advanced, d') := rtds_advance_period now d in
  server_ok d' /\ now < deadline_ticks d' /\
  period_ticks d' = period_ticks d /\ budget_ticks d' = budget_ticks d /\
  last_start_ticks d' = last_start_ticks d /\ queue d' = queue d /\
  advanced = (deadline_ticks d <=? now) /\
  (advanced = true -> remaining_ticks d' = budget_ticks d /\ deadline_ticks d' <= now + period_ticks d) /\
  (advanced = false -> d' = d).
Proof.
  unfold server_ok, time_ok, TIME_BOUND. intros (Hb & Hp & Hr & Hd & Hm & Hl) Hn. unfold rtds_advance_period.
  destruct (Z.ltb_spec now (deadline_ticks d)).
  { destruct (Z.leb_spec (deadline_ticks d) now); [lia|]. split_and!; try done; lia. }
  destruct (Z.leb_spec (deadline_ticks d) now); [|lia].
  set (k := (now - deadline_ticks d) / period_ticks d + 1).
  assert (1 <= k /\ now < deadline_ticks d + k * period_ticks d <= now + period_ticks d /\ k <= now + 1) as (Hk & Hk2 & Hk3).
  { subst k. pose proof (Z.div_mod (now - deadline_ticks d) (period_ticks d) ltac:(lia)).
    pose proof (Z.mod_pos_bound (now - deadline_ticks d) (period_ticks d) ltac:(lia)).
    assert (0 <= (now - deadline_ticks d) / period_ticks d) by (apply Z.div_pos; lia).
    assert ((now - deadline_ticks d) / period_ticks d <= now) by (apply Z.div_le_upper_bound; nia).
    nia. }
  clearbody k. rewrite (u64_small k) by (unfold in_u64; lia).
  rewrite (u64_small (k * period_ticks d)) by (unfold in_u64; nia).
  rewrite u64_small by (unfold in_u64; nia). cbn. split_and!; try done; try lia.
  by rewrite Z_mod_plus_full.
Qed.

(** ** Well-formed queues *)
Definition tag (p : sched_rtds_control) (t : tid) : sched_rtds_queue := queue (data_of p t).
Definition deadline_of (p : sched_rtds_control) (t : tid) : Z := deadline_ticks (data_of p t).
Definition remaining_of (p : sched_rtds_control) (t : tid) : Z := remaining_ticks (data_of p t).
Definition known (p : sched_rtds_control) (t : tid) : Prop := is_Some (data p !! t).

(** The [queue] field says which queue the node is on. *)
Definition rtds_wf (p : sched_rtds_control) : Prop :=
  NoDup (ready_queue p) /\ NoDup (depleted_queue p) /\
  (forall t, t ∈ ready_queue p <-> tag p t = RTDS_QUEUE_READY) /\
  (forall t, t ∈ depleted_queue p <-> tag p t = RTDS_QUEUE_DEPLETED).

Lemma rtds_data_set t d p u :
  data_of (set_data t d p) u = if decide (t = u) then d else data_of p u.
Proof.
  unfold data_of, set_data. cbn. case_decide as E.
  - subst. apply lookup_total_insert_eq.
  - by apply lookup_total_insert_ne.
Qed.

Lemma rtds_set_queue t q p u :
  data_of (set_queue t q p) u = if decide (t = u) then (data_of p t) <| queue := q |> else data_of p u.
Proof. apply rtds_data_set. Qed.

Lemma queue_same d : d <| queue := queue d |> = d.
Proof. by destruct d. Qed.

Lemma tag_known p t : tag p t <> RTDS_QUEUE_NONE -> known p t.
Proof.
  unfold tag, data_of, known. rewrite lookup_total_alt. destruct (data p !! t); [eauto|]. done.
Qed.

(** The three moves of a node, on a well-formed state. *)
Lemma remove_eq t p :
  rtds_wf p ->
  ready_queue (rtds_queue_remove t p) = list_del_init t (ready_queue p) /\
  depleted_queue (rtds_queue_remove t p) = list_del_init t (depleted_queue p) /\
  forall u, data_of (rtds_queue_remove t p) u =
    if decide (t = u) then (data_of p t) <| queue := RTDS_QUEUE_NONE |> else data_of p u.
Proof.
  intros (_ & _ & Hr & Hd). unfold rtds_queue_remove, rtds_is_queued. case_bool_decide as E; cbn [negb].
  - rewrite !list_del_init_id by (rewrite ?Hr, ?Hd; unfold tag; congruence). split_and!; try done.
    intros u. case_decide; [|done]. subst u. rewrite <- E. by rewrite queue_same.
  - split_and!; try done. intros u. by rewrite rtds_set_queue.
Qed.

Lemma remove_wf t p : rtds_wf p -> rtds_wf (rtds_queue_remove t p).
Proof.
  intros Hw. destruct (remove_eq t p Hw) as (Er & Ed & Da). destruct Hw as (Nr & Nd & Hr & Hd).
  unfold rtds_wf, tag. rewrite Er, Ed. split_and!; eauto with beau; intros u;
    rewrite list_del_init_elem, Da, ?Hr, ?Hd; unfold tag; case_decide; subst; cbn; naive_solver.
Qed.

Lemma ready_insert_eq t p :
  rtds_wf p ->
  ready_queue (rtds_ready_insert t p) =
    insert_before (fun x => deadline_of p t <? deadline_of p x) t (list_del_init t (ready_queue p)) /\
  depleted_queue (rtds_ready_insert t p) = list_del_init t (depleted_queue p) /\
  forall u, data_of (rtds_ready_insert t p) u =
    if decide (t = u) then (data_of p t) <| queue := RTDS_QUEUE_READY |> else data_of p u.
Proof.
  intros Hw. destruct (remove_eq t p Hw) as (Er & Ed & Da). unfold rtds_ready_insert.
  assert ((if rtds_is_queued (data_of p t) then rtds_queue_remove t p else p) = rtds_queue_remove t p) as ->.
  { unfold rtds_queue_remove. by destruct (rtds_is_queued _). }
  split_and!.
  - cbn. rewrite Er. apply insert_before_ext. intros y _. rewrite !Da. unfold deadline_of.
    rewrite decide_True by done. case_decide; by subst.
  - exact Ed.
  - intros u. rewrite rtds_set_queue. cbn. unfold data_of in *. cbn. rewrite !Da.
    repeat case_decide; by subst.
Qed.

Lemma ready_insert_wf t p : rtds_wf p -> rtds_wf (rtds_ready_insert t p).
Proof.
  intros Hw. destruct (ready_insert_eq t p Hw) as (Er & Ed & Da). destruct Hw as (Nr & Nd & Hr & Hd).
  unfold rtds_wf, tag. rewrite Er, Ed. split_and!; eauto with beau.
  - apply insert_before_NoDup; [rewrite list_del_init_elem; tauto|eauto with beau].
  - intros u. rewrite insert_before_elem, list_del_init_elem, Da, Hr. unfold tag.
    case_decide; subst; cbn; naive_solver.
  - intros u. rewrite list_del_init_elem, Da, Hd. unfold tag. case_decide; subst; cbn; naive_solver.
Qed.

Lemma depleted_insert_eq t p :
  rtds_wf p ->
  ready_queue (rtds_depleted_insert t p) = list_del_init t (ready_queue p) /\
  depleted_queue (rtds_depleted_insert t p) =
    (if decide (t ∈ depleted_queue p) then depleted_queue p else depleted_queue p ++ [t]) /\
  forall u, data_of (rtds_depleted_insert t p) u =
    if decide (t = u) then (data_of p t) <| queue := RTDS_QUEUE_DEPLETED |> else data_of p u.
Proof.
  intros Hw. pose proof Hw as (_ & _ & Hr & Hd). unfold rtds_depleted_insert.
  case_bool_decide as E.
  { assert (t ∈ depleted_queue p) by by apply Hd. rewrite decide_True by done.
    rewrite list_del_init_id by (rewrite Hr; unfold tag; congruence). split_and!; try done.
    intros u. case_decide; [|done]. subst u. rewrite <- E. by rewrite queue_same. }
  assert (t ∉ depleted_queue p) by by rewrite Hd. rewrite decide_False by done.
  case_bool_decide as E2.
  - destruct (remove_eq t p Hw) as (Er & Ed & Da). split_and!.
    + exact Er.
    + cbn. by rewrite Ed, list_del_init_id.
    + intros u. rewrite rtds_set_queue. cbn. unfold data_of in *. cbn. rewrite !Da.
      repeat case_decide; by subst.
  - rewrite list_del_init_id by by rewrite Hr. split_and!; try done. intros u. by rewrite rtds_set_queue.
Qed.

Lemma depleted_insert_wf t p : rtds_wf p -> rtds_wf (rtds_depleted_insert t p).
Proof.
  intros Hw. destruct (depleted_insert_eq t p Hw) as (Er & Ed & Da).
  destruct Hw as (Nr & Nd & Hr & Hd).
  unfold rtds_wf, tag. rewrite Er, Ed. split_and!; eauto with beau.
  - case_decide; [done|]. apply NoDup_app. split_and!; [done| |apply NoDup_singleton].
    intros x Hx ->%list_elem_of_singleton. done.
  - intros u. rewrite list_del_init_elem, Da, Hr. unfold tag.
    destruct (decide (t = u)) as [<-|Hne]; cbn; [intuition congruence|tauto || intuition congruence].
  - intros u. rewrite Da. destruct (decide (t = u)) as [<-|Hne].
    + cbn. case_decide; qset.
    + unfold tag in Hd. rewrite <- Hd. case_decide; [done|]. qset.
Qed.

Lemma set_data_wf t d p : queue d = tag p t -> rtds_wf p -> rtds_wf (set_data t d p).
Proof.
  intros E (Nr & Nd & Hr & Hd). unfold rtds_wf. split_and!; try done; intros u; cbn; rewrite ?Hr, ?Hd;
    unfold tag in *; rewrite rtds_data_set; case_decide; subst; by rewrite ?E.
Qed.

#[export] Hint Resolve remove_wf ready_insert_wf depleted_insert_wf : beau.

(** ** The invariant *)
Definition servers_ok (p : sched_rtds_control) : Prop := map_Forall (fun _ d => server_ok d) (data p).
Definition timer_ok (p : sched_rtds_control) : Prop := func (th_timer (tick_timer p)) = true.

(** The invariant with one thread left out of the ordering and budget clauses. *)
Definition inv_but (c : option tid) (p : sched_rtds_control) : Prop :=
  rtds_wf p /\ servers_ok p /\ timer_ok p /\
  StronglySorted (key_le (deadline_of p))
    (match c with Some t => list_del_init t (ready_queue p) | None => ready_queue p end) /\
  (forall t, t ∈ ready_queue p -> c <> Some t -> 0 < remaining_of p t) /\
  (forall t, t ∈ depleted_queue p -> c <> Some t -> remaining_of p t = 0).
Definition rtds_inv : sched_rtds_control -> Prop := inv_but None.

Definition frame (p p' : sched_rtds_control) : Prop :=
  tick_timer p' = tick_timer p /\ forall t, known p t <-> known p' t.
#[export] Instance rtds_frame_refl : Reflexive frame.
Proof. by intros p. Qed.
#[export] Instance rtds_frame_trans : Transitive frame.
Proof. intros a b c [? Hab] [? Hbc]. split; [congruence|]. intros t. by rewrite Hab, Hbc. Qed.

Lemma inv_weaken t p : rtds_inv p -> inv_but (Some t) p.
Proof.
  intros (Hw & Hs & Ht & So & Hr & Hd). unfold inv_but. split_and!; eauto with beau.
Qed.

Lemma rtds_known_ok p t : servers_ok p -> known p t -> server_ok (data_of p t).
Proof. intros Hf [d E]. unfold data_of. rewrite lookup_total_alt, E. by apply (Hf t). Qed.

Lemma rtds_set_data_frame t d p : known p t -> frame p (set_data t d p).
Proof.
  intros Hk. split; [done|]. intros u. unfold known, set_data. cbn.
  destruct (decide (t = u)) as [<-|]; [by rewrite lookup_insert_eq|by rewrite lookup_insert_ne].
Qed.

(** Changing the data of a thread, not the queue it is on. *)
Lemma rtds_set_data_inv t d p :
  queue d = tag p t -> server_ok d -> inv_but (Some t) p -> inv_but (Some t) (set_data t d p).
Proof.
  intros Eq Hd (Hw & Hs & Ht & So & Hr & Hdp). unfold inv_but. split_and!.
  - by apply set_data_wf.
  - by apply map_Forall_insert_2.
  - done.
  - eapply StronglySorted_ext; [|exact So]. cbn.
    intros x y [_ Hx]%list_del_init_elem [_ Hy]%list_del_init_elem. unfold key_le, deadline_of.
    by rewrite !rtds_data_set, !decide_False by congruence.
  - cbn. intros u Hu Hne. unfold remaining_of. rewrite rtds_data_set, decide_False by congruence. by apply Hr.
  - cbn. intros u Hu Hne. unfold remaining_of. rewrite rtds_data_set, decide_False by congruence. by apply Hdp.
Qed.

(** Servers in [p'] are those of [p] up to the queue they are on. *)
Definition same_servers (p p' : sched_rtds_control) : Prop :=
  forall u, data_of p' u = (data_of p u) <| queue := tag p' u |>.

Lemma set_queue_frame t q p p1 :
  known p t -> tick_timer p1 = tick_timer p -> data p1 = data p -> frame p (set_queue t q p1).
Proof.
  intros Hk Et Ed. split; [done|]. intros u. unfold known, set_queue, set_data. cbn. rewrite Ed.
  destruct (decide (t = u)) as [<-|]; [by rewrite lookup_insert_eq|by rewrite lookup_insert_ne].
Qed.

Lemma remove_frame t p : known p t -> frame p (rtds_queue_remove t p).
Proof.
  intros Hk. unfold rtds_queue_remove. destruct (rtds_is_queued _); [|done].
  by apply set_queue_frame.
Qed.

Lemma ready_insert_frame t p : known p t -> frame p (rtds_ready_insert t p).
Proof.
  intros Hk. unfold rtds_ready_insert.
  set (p1 := if rtds_is_queued _ then _ else p).
  assert (frame p p1) as F1 by (subst p1; destruct (rtds_is_queued _); [by apply remove_frame|done]).
  etransitivity; [exact F1|]. clearbody p1.
  apply set_queue_frame; [by apply F1|done..].
Qed.

Lemma depleted_insert_frame t p : known p t -> frame p (rtds_depleted_insert t p).
Proof.
  intros Hk. unfold rtds_depleted_insert. case_bool_decide; [done|].
  set (p1 := if bool_decide _ then _ else p).
  assert (frame p p1) as F1 by (subst p1; case_bool_decide; [by apply remove_frame|done]).
  etransitivity; [exact F1|]. clearbody p1.
  apply set_queue_frame; [by apply F1|done..].
Qed.

Lemma servers_ok_same p p' :
  servers_ok p -> same_servers p p' -> (forall t, known p t <-> known p' t) -> servers_ok p'.
Proof.
  intros Hs Hss Hk t d E. assert (data_of p' t = d) as <- by (unfold data_of; by rewrite lookup_total_alt, E).
  rewrite Hss. apply (rtds_known_ok p t Hs). apply Hk. by eexists.
Qed.

(** Moving one thread to another queue. *)
Definition moved (t : tid) (q : sched_rtds_queue) (p p' : sched_rtds_control) : Prop :=
  rtds_wf p' /\ frame p p' /\ same_servers p p' /\ (forall u, u <> t -> tag p' u = tag p u) /\ tag p' t = q.

Lemma moved_intro t q p p' :
  rtds_wf p' -> frame p p' ->
  (forall u, data_of p' u = if decide (t = u) then (data_of p t) <| queue := q |> else data_of p u) ->
  moved t q p p'.
Proof.
  intros Hw Fr Da. unfold moved, same_servers, tag. split_and!; try done.
  - intros u. rewrite Da. case_decide; [by subst|]. by rewrite queue_same.
  - intros u Hu. by rewrite Da, decide_False.
  - by rewrite Da, decide_True.
Qed.

Lemma moved_fields t q p p' u :
  moved t q p p' -> deadline_of p' u = deadline_of p u /\ remaining_of p' u = remaining_of p u.
Proof. intros (_ & _ & Hss & _). unfold deadline_of, remaining_of. by rewrite Hss. Qed.

Lemma rtds_moved_inv t q p p' :
  inv_but (Some t) p -> moved t q p p' ->
  StronglySorted (key_le (deadline_of p)) (ready_queue p') ->
  (q = RTDS_QUEUE_READY -> 0 < remaining_of p t) ->
  (q = RTDS_QUEUE_DEPLETED -> remaining_of p t = 0) -> rtds_inv p'.
Proof.
  intros (Hw & Hs & Ht & _ & Hr & Hd) Hm So Hq1 Hq2.
  pose proof (fun u => moved_fields t q p p' u Hm) as Hf.
  destruct Hm as (Hw' & Fr & Hss & Htag & Ht').
  pose proof Hw as (_ & _ & Wr & Wd). pose proof Hw' as (_ & _ & Wr' & Wd').
  unfold rtds_inv, inv_but. split_and!; [done|by apply (servers_ok_same p); [..|apply Fr]| | | |].
  - unfold timer_ok. by rewrite (proj1 Fr).
  - eapply StronglySorted_ext; [|exact So]. intros x y _ _. unfold key_le.
    by rewrite (proj1 (Hf x)), (proj1 (Hf y)).
  - intros u Hu _. rewrite (proj2 (Hf u)). apply Wr' in Hu. destruct (decide (u = t)) as [->|Hne].
    + apply Hq1. congruence.
    + apply Hr; [apply Wr; by rewrite <- Htag|congruence].
  - intros u Hu _. rewrite (proj2 (Hf u)). apply Wd' in Hu. destruct (decide (u = t)) as [->|Hne].
    + apply Hq2. congruence.
    + apply Hd; [apply Wd; by rewrite <- Htag|congruence].
Qed.

Lemma remove_ok t p :
  known p t -> inv_but (Some t) p ->
  rtds_inv (rtds_queue_remove t p) /\ moved t RTDS_QUEUE_NONE p (rtds_queue_remove t p).
Proof.
  intros Hk Hi. pose proof Hi as (Hw & _ & _ & So & _). destruct (remove_eq t p Hw) as (Er & Ed & Da).
  assert (moved t RTDS_QUEUE_NONE p (rtds_queue_remove t p)) as Hm.
  { apply moved_intro; [by apply remove_wf|by apply remove_frame|done]. }
  split; [|done]. eapply rtds_moved_inv; [done..|by rewrite Er|done|done].
Qed.

(** Putting a thread on the queue its budget calls for repairs the invariant. *)
Definition place (t : tid) (p : sched_rtds_control) : sched_rtds_control :=
  if 0 <? remaining_of p t then rtds_ready_insert t p else rtds_depleted_insert t p.
Definition proper_queue (p : sched_rtds_control) (t : tid) : sched_rtds_queue :=
  if 0 <? remaining_of p t then RTDS_QUEUE_READY else RTDS_QUEUE_DEPLETED.

Lemma place_ok t p :
  known p t -> inv_but (Some t) p ->
  rtds_inv (place t p) /\ moved t (proper_queue p t) p (place t p).
Proof.
  intros Hk Hi. pose proof Hi as (Hw & Hs & _ & So & _). unfold place, proper_queue.
  pose proof (rtds_known_ok p t Hs Hk) as (_ & _ & Hrem & _). fold (remaining_of p t) in Hrem.
  destruct (Z.ltb_spec 0 (remaining_of p t)) as [H0|H0].
  - destruct (ready_insert_eq t p Hw) as (Er & Ed & Da).
    assert (moved t RTDS_QUEUE_READY p (rtds_ready_insert t p)) as Hm.
    { apply moved_intro; [by apply ready_insert_wf|by apply ready_insert_frame|done]. }
    split; [|done]. eapply rtds_moved_inv; [done..| |done|done]. rewrite Er.
    apply (insert_before_sorted _); [..|exact So]; unfold key_le; intros y _; zb; try done; lia.
  - destruct (depleted_insert_eq t p Hw) as (Er & Ed & Da).
    assert (moved t RTDS_QUEUE_DEPLETED p (rtds_depleted_insert t p)) as Hm.
    { apply moved_intro; [by apply depleted_insert_wf|by apply depleted_insert_frame|done]. }
    split; [|done]. eapply rtds_moved_inv; [done..|by rewrite Er|done|lia].
Qed.

(** ** Refreshing *)

(** The data of the thread after its period has been brought up to date. *)
Definition advanced (now : Z) (t : tid) (p : sched_rtds_control) : sched_rtds_control :=
  set_data t (snd (rtds_advance_period now (data_of p t))) p.

Lemma advanced_ok now t p :
  known p t -> inv_but (Some t) p -> time_ok now ->
  let p' := advanced now t p in
  inv_but (Some t) p' /\ frame p p' /\ (forall u, tag p' u = tag p u) /\
  now < deadline_of p' t /\ (forall u, u <> t -> data_of p' u = data_of p u) /\
  (deadline_of p t <= now -> 0 < remaining_of p' t) /\
  (now < deadline_of p t -> data_of p' t = data_of p t).
Proof.
  intros Hk Hi Hn. cbn zeta. unfold advanced. pose proof Hi as (_ & Hs & _).
  pose proof (rtds_known_ok p t Hs Hk) as Ho. pose proof (rtds_advance_ok now (data_of p t) Ho Hn) as Ha.
  destruct (rtds_advance_period now (data_of p t)) as [b d]. cbn [snd].
  destruct Ha as (Od & Hdl & Hp & Hb & Hl & Hq & Eb & Hadv & Hid).
  assert (forall u, data_of (set_data t d p) u = if decide (t = u) then d else data_of p u) as Da
    by apply rtds_data_set.
  unfold deadline_of, remaining_of. split_and!.
  - by apply rtds_set_data_inv.
  - by apply rtds_set_data_frame.
  - intros u. unfold tag. rewrite Da. case_decide; by subst.
  - by rewrite Da, decide_True.
  - intros u Hu. by rewrite Da, decide_False.
  - intros Hle. rewrite Da, decide_True by done. destruct Hadv as [-> _]; [rewrite Eb; lia|].
    destruct Ho. lia.
  - intros Hlt. rewrite Da, decide_True by done. apply Hid. rewrite Eb. lia.
Qed.

(** An active thread is refreshed and put on its proper queue. *)
Lemma rtds_refresh_thread_ok v t now p :
  known p t -> inv_but (Some t) p -> time_ok now ->
  is_active v t = true -> be_blocking (thr v t) = false ->
  let p' := rtds_refresh_thread v t now p in
  rtds_inv p' /\ frame p p' /\ now < deadline_of p' t /\ tag p' t = proper_queue p' t /\
  (forall u, u <> t -> data_of p' u = data_of p u).
Proof.
  intros Hk Hi Hn Ha Hb. cbn zeta. unfold rtds_refresh_thread. rewrite Ha, Hb. cbn [negb].
  destruct (advanced_ok now t p Hk Hi Hn) as (Hi1 & F1 & T1 & D1 & O1 & _).
  fold (advanced now t p). set (p1 := advanced now t p) in *. clearbody p1.
  destruct (place_ok t p1) as [Hi2 Hm]; [by apply F1|done|]. fold (remaining_of p1 t). fold (place t p1).
  pose proof (moved_fields t _ p1 _ t Hm) as [Ed Er].
  destruct Hm as (_ & F2 & Hss & Hu & Ht). split_and!; [done|by etransitivity| | |].
  - by rewrite Ed.
  - rewrite Ht. unfold proper_queue. by rewrite Er.
  - intros u Hne. rewrite Hss, Hu, <- O1 by done. apply queue_same.
Qed.

Lemma inv_strengthen t p : inv_but (Some t) p -> tag p t = RTDS_QUEUE_NONE -> rtds_inv p.
Proof.
  intros (Hw & Hs & Ht & So & Hr & Hd) Et. pose proof Hw as (_ & _ & Wr & Wd).
  rewrite list_del_init_id in So by (rewrite Wr; congruence). unfold rtds_inv, inv_but. split_and!; try done.
  - intros u Hu _. apply Hr; [done|]. intros [= <-]. apply Wr in Hu. congruence.
  - intros u Hu _. apply Hd; [done|]. intros [= <-]. apply Wd in Hu. congruence.
Qed.

Lemma rtds_account_ok v t now p :
  known p t -> inv_but (Some t) p -> time_ok now ->
  let p' := rtds_account_runtime v t now p in
  inv_but (Some t) p' /\ frame p p' /\ (forall u, tag p' u = tag p u) /\
  (forall u, u <> t -> data_of p' u = data_of p u).
Proof.
  intros Hk Hi Hn. cbn zeta. unfold rtds_account_runtime. pose proof Hi as (_ & Hs & _).
  pose proof (rtds_known_ok p t Hs Hk) as Ho. destruct (_ || (now <=? _)) eqn:T; [done|].
  set (d := (data_of p t) <| last_start_ticks := _ |> <| remaining_ticks := _ |>).
  assert (server_ok d) as Od.
  { unfold server_ok, time_ok in *. subst d. cbn. unfold rtds_charge. zb; lia. }
  split_and!.
  - by apply rtds_set_data_inv.
  - by apply rtds_set_data_frame.
  - intros u. unfold tag. rewrite rtds_data_set. by destruct (decide (t = u)) as [<-|].
  - intros u Hu. by rewrite rtds_data_set, decide_False.
Qed.

(** What the framework guarantees: an active thread is not about to block,
    queued threads are active, the current thread has been initialised. *)
Definition view_ok (v : sched_view) (p : sched_rtds_control) : Prop :=
  (forall x, is_active v x = true -> be_blocking (thr v x) = false) /\
  (forall x, tag p x <> RTDS_QUEUE_NONE -> is_active v x = true) /\
  (forall c, v_curr v = Some c -> is_idle_thread v c = false -> known p c) /\
  is_idle_thread v (Idle (v_cpu v)) = true.

Definition candidate (v : sched_view) (p : sched_rtds_control) (x : tid) : Prop :=
  tag p x <> RTDS_QUEUE_NONE \/ active_current v x.

Lemma proper_queue_some p t : proper_queue p t <> RTDS_QUEUE_NONE.
Proof. unfold proper_queue. by destruct (_ <? _). Qed.

Lemma rtds_settle_ok v now p :
  rtds_inv p -> view_ok v p -> time_ok now ->
  let p' := settle_current v now p in
  rtds_inv p' /\ frame p p' /\ (forall x, tag p' x <> RTDS_QUEUE_NONE <-> candidate v p x) /\
  (forall x, v_curr v <> Some x -> data_of p' x = data_of p x).
Proof.
  intros Hi (Vb & Va & Vk & _) Hn. cbn zeta. unfold settle_current, candidate, active_current.
  destruct (v_curr v) as [c|] eqn:Ec; [|split_and!; naive_solver].
  destruct (is_idle_thread v c) eqn:Ei.
  { split_and!; try done. intros x. split; [auto|]. intros [?|[[= <-] Ha]]; [done|].
    unfold is_active in Ha. by rewrite Ei in Ha. }
  pose proof (Vk c eq_refl Ei) as Hk.
  destruct (rtds_account_ok v c now p Hk (inv_weaken c p Hi) Hn) as (Hi1 & F1 & T1 & D1).
  set (p1 := rtds_account_runtime v c now p) in *. clearbody p1.
  assert (known p1 c) as Hk1 by by apply F1. destruct (is_active v c) eqn:Ha.
  - destruct (rtds_refresh_thread_ok v c now p1 Hk1 Hi1 Hn Ha (Vb c Ha)) as (Hi2 & F2 & _ & T2 & D2).
    set (p2 := rtds_refresh_thread v c now p1) in *. clearbody p2.
    split_and!; [done|by etransitivity| |].
    + intros x. destruct (decide (x = c)) as [->|Hne].
      * rewrite T2. pose proof (proper_queue_some p2 c). naive_solver.
      * assert (tag p2 x = tag p x) as -> by (rewrite <- T1; unfold tag; by rewrite D2). naive_solver.
    + intros x Hx. rewrite D2, D1 by congruence. done.
  - unfold rtds_refresh_thread. rewrite Ha. fold (advanced now c p1).
    destruct (advanced_ok now c p1 Hk1 Hi1 Hn) as (Hi2 & F2 & T2 & _ & D2 & _).
    assert (tag p c = RTDS_QUEUE_NONE) as Ht.
    { destruct (decide (tag p c = RTDS_QUEUE_NONE)) as [|Hq]; [done|]. by rewrite (Va c Hq) in Ha. }
    split_and!; [by apply (inv_strengthen c); [|rewrite T2, T1]|by etransitivity| |].
    + intros x. rewrite T2, T1. split; [auto|]. intros [?|[[= <-] ?]]; [done|congruence].
    + intros x Hx. rewrite D2, D1 by congruence. done.
Qed.

(** Both loops of [rtds_refresh_queues] keep the set of queued threads, and the
    servers whose period is not over; a server that changes its queue is in a
    new period. *)
Definition refreshed (now : Z) (p p' : sched_rtds_control) : Prop :=
  rtds_inv p' /\ frame p p' /\
  (forall x, tag p' x <> RTDS_QUEUE_NONE <-> tag p x <> RTDS_QUEUE_NONE) /\
  (forall x, now < deadline_of p x -> data_of p' x = data_of p x) /\
  (forall x, tag p' x <> tag p x -> now < deadline_of p' x).

Definition over (now : Z) (p : sched_rtds_control) (t : tid) : bool := deadline_of p t <=? now.

Lemma advance_none now t p :
  known p t -> over now p t = false -> advanced now t p = p /\
  rtds_advance_period now (data_of p t) = (false, data_of p t).
Proof.
  intros [d E] T. apply Z.leb_gt in T. unfold deadline_of in T.
  assert (rtds_advance_period now (data_of p t) = (false, data_of p t)) as Ea.
  { unfold rtds_advance_period. destruct (Z.ltb_spec now (deadline_ticks (data_of p t))); [done|lia]. }
  split; [|done]. unfold advanced. rewrite Ea. cbn [snd]. unfold set_data, data_of.
  rewrite lookup_total_alt, E. cbn. destruct p as [r dq h m]. cbn in *. f_equal. by apply insert_id.
Qed.

Lemma refresh_thread_ready v t now p :
  known p t -> inv_but (Some t) p -> time_ok now -> is_active v t = true ->
  0 < remaining_of (advanced now t p) t ->
  let p' := rtds_refresh_thread v t now p in
  (exists test, ready_queue p' = insert_before test t (list_del_init t (ready_queue p))) /\
  depleted_queue p' = list_del_init t (depleted_queue p) /\ tag p' t = RTDS_QUEUE_READY.
Proof.
  intros Hk Hi Hn Ha Hr. cbn zeta. unfold rtds_refresh_thread. rewrite Ha. fold (advanced now t p).
  destruct (advanced_ok now t p Hk Hi Hn) as ((Hw & _) & _).
  change (remaining_ticks (data_of (advanced now t p) t)) with (remaining_of (advanced now t p) t).
  destruct (Z.ltb_spec 0 (remaining_of (advanced now t p) t)); [|lia].
  destruct (ready_insert_eq t _ Hw) as (Er & Ed & Da). split_and!; [by eexists|done|].
  unfold tag. by rewrite Da, decide_True.
Qed.

Lemma tag_data p p' u : data_of p' u = data_of p u -> tag p' u = tag p u.
Proof. unfold tag. by intros ->. Qed.

(** One thread [x] of a refreshed state is refreshed again. *)
Lemma refreshed_step now p0 s s' x :
  refreshed now p0 s -> rtds_inv s' -> frame s s' ->
  tag s x <> RTDS_QUEUE_NONE -> tag s' x <> RTDS_QUEUE_NONE ->
  over now s x = true -> now < deadline_of s' x ->
  (forall u, u <> x -> data_of s' u = data_of s u) -> refreshed now p0 s'.
Proof.
  intros (Hi & Fr & Hq & Hd & Hc) Hi' F' Tx Tx' Ho Hf Du. apply Z.leb_le in Ho. split_and!; [done|by etransitivity|..].
  - intros u. rewrite <- Hq. destruct (decide (u = x)) as [->|Hne]; [tauto|].
    by rewrite (tag_data s s' u) by auto.
  - intros u Hu. pose proof (Hd u Hu) as Eu. destruct (decide (u = x)) as [->|Hne].
    + unfold deadline_of in *. rewrite Eu in Ho. lia.
    + by rewrite Du.
  - intros u Hu. destruct (decide (u = x)) as [->|Hne]; [done|].
    rewrite (tag_data s s' u) in Hu by auto. unfold deadline_of. rewrite Du by done. by apply Hc.
Qed.

(** A ready server whose period is over starts the next one and is requeued. *)
Lemma ready_renew v now s x :
  time_ok now -> is_active v x = true -> be_blocking (thr v x) = false ->
  known s x -> rtds_inv s -> over now s x = true ->
  let s' := rtds_refresh_thread v x now (rtds_queue_remove x (advanced now x s)) in
  rtds_inv s' /\ frame s s' /\ now < deadline_of s' x /\ tag s' x = RTDS_QUEUE_READY /\
  (exists test, ready_queue s' = insert_before test x (list_del_init x (ready_queue s))) /\
  (forall u, u <> x -> data_of s' u = data_of s u).
Proof.
  intros Hn Ha Hb Hk Hi T. apply Z.leb_le in T. cbn zeta.
  destruct (advanced_ok now x s Hk (inv_weaken x s Hi) Hn) as (Hi1 & F1 & _ & D1 & O1 & R1 & _).
  specialize (R1 T). assert (ready_queue (advanced now x s) = ready_queue s) as Eq1 by done.
  set (s1 := advanced now x s) in *. clearbody s1.
  assert (known s1 x) as Hk1 by by apply F1. destruct (remove_ok x s1 Hk1 Hi1) as [Hi2 Hm].
  pose proof Hi1 as (Hw1 & _). destruct (remove_eq x s1 Hw1) as (Er2 & _ & _).
  destruct (moved_fields x _ s1 _ x Hm) as [Ed2 Err2].
  destruct Hm as (_ & F2 & Hss & Tu & _). set (s2 := rtds_queue_remove x s1) in *. clearbody s2.
  assert (known s2 x) as Hk2 by by apply F2. pose proof (inv_weaken x s2 Hi2) as Hb2.
  destruct (rtds_refresh_thread_ok v x now s2 Hk2 Hb2 Hn Ha Hb) as (Hi3 & F3 & D3 & _ & O3).
  destruct (advance_none now x s2 Hk2) as [Ea _]; [apply Z.leb_gt; by rewrite Ed2|].
  destruct (refresh_thread_ready v x now s2 Hk2 Hb2 Hn Ha) as ([test Eq3] & _ & T3); [by rewrite Ea, Err2|].
  split_and!; try done; [by etransitivity; [exact F1|etransitivity]|..].
  - exists test. rewrite Eq3, Er2, Eq1. f_equal. apply list_del_init_id. rewrite list_del_init_elem. tauto.
  - intros u Hu. rewrite O3, Hss, Tu, <- O1 by done. apply queue_same.
Qed.

(** The framework's guarantees, for the loops. *)
Definition queued_active (v : sched_view) (p : sched_rtds_control) : Prop :=
  (forall x, is_active v x = true -> be_blocking (thr v x) = false) /\
  (forall x, tag p x <> RTDS_QUEUE_NONE -> is_active v x = true).

(** One step of a loop over [get]. *)
Definition loop_step (get : sched_rtds_control -> list tid) (now : Z) (p0 s : sched_rtds_control)
    (r : outcome sched_rtds_control) (x : tid) (suf : list tid) : Prop :=
  exists s' pre' suf', r = Ret s' /\ refreshed now p0 s' /\
    get s' = pre' ++ suf' /\ head suf' = head suf /\
    (forall y, y ∈ pre' -> over now s' y = false) /\
    (cost (over now) s' suf' < cost (over now) s (x :: suf))%nat.

Lemma ready_body_ok v now p0 s pre x suf :
  time_ok now -> queued_active v p0 -> refreshed now p0 s -> ready_queue s = pre ++ x :: suf ->
  (forall y, y ∈ pre -> over now s y = false) ->
  loop_step ready_queue now p0 s (refresh_ready_body v now x s) x suf.
Proof.
  intros Hn [Vb Va] Hr Eq Hp. pose proof Hr as (Hi & Fr & Hq & _). pose proof Hi as ((Nr & _ & Wr & Wd) & _).
  assert (tag s x = RTDS_QUEUE_READY) as Tx by (apply Wr; rewrite Eq; qset).
  assert (known s x) as Hk by (apply tag_known; congruence).
  assert (is_active v x = true) as Ha by (apply Va, Hq; congruence).
  unfold refresh_ready_body. destruct (over now s x) eqn:T.
  2: { destruct (advance_none now x s Hk T) as [E1 E2]. unfold advanced in E1. rewrite E2 in E1 |- *. cbn in E1.
       rewrite E1. destruct (cursor_keep ready_queue (over now) s pre x suf Eq Hp T) as (pre' & suf' & H').
       by exists s, pre', suf'. }
  assert (rtds_advance_period now (data_of s x) = (true, snd (rtds_advance_period now (data_of s x)))) as ->.
  { unfold rtds_advance_period. pose proof T as T'. apply Z.leb_le in T'. unfold deadline_of in T'.
    destruct (Z.ltb_spec now (deadline_ticks (data_of s x))); [lia|done]. }
  fold (advanced now x s).
  destruct (ready_renew v now s x Hn Ha (Vb x Ha) Hk Hi T) as (Hi' & F' & D' & T' & [test Eq'] & O').
  set (s' := rtds_refresh_thread _ _ _ _) in *. clearbody s'.
  rewrite Eq, <- Permutation_middle in Nr. apply NoDup_cons in Nr as [Hx _].
  rewrite Eq, list_del_init_middle in Eq' by qset.
  destruct (cursor_move ready_queue (over now) s s' pre x suf test Eq' Hp) as (pre' & suf' & H');
    [|done|by apply Z.leb_gt|].
  { intros y Hy. unfold over, deadline_of. rewrite O'; [done|]. congruence. }
  exists s', pre', suf'. split; [done|]. split; [|done].
  apply (refreshed_step now p0 s s' x); done || congruence.
Qed.

Lemma depleted_body_ok v now p0 s pre x suf :
  time_ok now -> queued_active v p0 -> refreshed now p0 s -> depleted_queue s = pre ++ x :: suf ->
  (forall y, y ∈ pre -> over now s y = false) ->
  loop_step depleted_queue now p0 s (refresh_depleted_body v now x s) x suf.
Proof.
  intros Hn [Vb Va] Hr Eq Hp. pose proof Hr as (Hi & Fr & Hq & _). pose proof Hi as (Hw & _ & _ & _ & _ & Hz).
  pose proof Hw as (_ & Nd & Wr & Wd).
  assert (tag s x = RTDS_QUEUE_DEPLETED) as Tx by (apply Wd; rewrite Eq; qset).
  assert (known s x) as Hk by (apply tag_known; congruence).
  assert (is_active v x = true) as Ha by (apply Va, Hq; congruence).
  pose proof (inv_weaken x s Hi) as Hb. unfold refresh_depleted_body. destruct (over now s x) eqn:T.
  - destruct (advanced_ok now x s Hk Hb Hn) as (_ & _ & _ & _ & _ & R1 & _).
    pose proof T as T1. apply Z.leb_le in T1. specialize (R1 T1).
    destruct (refresh_thread_ready v x now s Hk Hb Hn Ha R1) as (_ & Eq' & T').
    destruct (rtds_refresh_thread_ok v x now s Hk Hb Hn Ha (Vb x Ha)) as (Hi' & F' & Hf & _ & O').
    set (s' := rtds_refresh_thread v x now s) in *. clearbody s'.
    rewrite Eq, <- Permutation_middle in Nd. apply NoDup_cons in Nd as [Hx _].
    rewrite Eq, list_del_init_middle in Eq' by qset.
    destruct (cursor_drop depleted_queue (over now) s s' pre x suf Eq' Hp) as (pre' & suf' & H').
    { intros y Hy. unfold over, deadline_of. rewrite O'; [done|]. congruence. }
    exists s', pre', suf'. split; [done|]. split; [|done].
    apply (refreshed_step now p0 s s' x); done || congruence.
  - assert (rtds_refresh_thread v x now s = s) as ->.
    { unfold rtds_refresh_thread. rewrite Ha, (Vb x Ha). fold (advanced now x s).
      destruct (advance_none now x s Hk T) as [-> _]. fold (remaining_of s x).
      rewrite Hz; [|rewrite Eq; qset|done]. cbn. unfold rtds_depleted_insert.
      unfold tag in Tx. by rewrite bool_decide_eq_true_2. }
    destruct (cursor_keep depleted_queue (over now) s pre x suf Eq Hp T) as (pre' & suf' & H').
    by exists s, pre', suf'.
Qed.

Lemma rtds_refresh_queues_ok v now p :
  time_ok now -> queued_active v p -> rtds_inv p ->
  exists p', rtds_refresh_queues v now p = Ret p' /\ refreshed now p p' /\
    forall x, tag p' x <> RTDS_QUEUE_NONE -> now < deadline_of p' x.
Proof.
  intros Hn Hv Hi.
  destruct (list_for_each_safe_ok ready_queue (refresh_ready_body v now) (over now) (refreshed now p))
    with (fuel := (2 * length (ready_queue p))%nat) (s := p) as (p1 & E1 & H1 & O1).
  { intros s Hs. apply Hs. }
  { intros s pre x suf Hr Eq Hp. by apply (ready_body_ok v now p s pre x suf). }
  { by split_and!. } { done. }
  pose proof H1 as (Hi1 & F1 & Q1 & D1 & C1).
  assert (queued_active v p1) as Hv1.
  { destruct Hv as [Vb Va]. split; [done|]. intros x Hx. by apply Va, Q1. }
  destruct (list_for_each_safe_ok depleted_queue (refresh_depleted_body v now) (over now) (refreshed now p1))
    with (fuel := (2 * length (depleted_queue p1))%nat) (s := p1) as (p2 & E2 & H2 & O2).
  { intros s Hs. apply Hs. }
  { intros s pre x suf Hr Eq Hp. by apply (depleted_body_ok v now p1 s pre x suf). }
  { by split_and!. } { done. }
  pose proof H2 as (Hi2 & F2 & Q2 & D2 & C2).
  assert (forall x, tag p2 x <> RTDS_QUEUE_NONE -> now < deadline_of p2 x) as Hf.
  { intros x Hx. pose proof Hi2 as ((_ & _ & Wr & Wd) & _). pose proof Hi1 as ((_ & _ & Wr1 & _) & _).
    destruct (tag p2 x) eqn:Et; [done| |].
    - destruct (decide (tag p1 x = RTDS_QUEUE_READY)) as [E|E]; [|apply C2; congruence].
      apply Wr1, O1, Z.leb_gt in E. unfold deadline_of. by rewrite D2.
    - by apply Z.leb_gt, O2, Wd. }
  exists p2. split; [unfold rtds_refresh_queues; rewrite E1; exact E2|]. split; [|done].
  split_and!; [done|by etransitivity|by intros x; rewrite Q2, Q1| |].
  - intros x Hx. rewrite D2; [by apply D1|]. unfold deadline_of. by rewrite D1.
  - intros x Hx. destruct (decide (tag p2 x = tag p1 x)) as [E|E]; [|by apply C2].
    assert (now < deadline_of p1 x) as H by (apply C1; congruence).
    unfold deadline_of. by rewrite D2.
Qed.

(** ** The timer *)
Definition best_of (p : sched_rtds_control) (best : option tid) (t : tid) : option tid :=
  match best with
  | None => Some t
  | Some b => if deadline_of p t <? deadline_of p b then Some t else best
  end.

(** The slack candidate is the depleted thread with the earliest deadline. *)
Lemma slack_ok p : forall l acc,
  match foldl (best_of p) acc l with
  | None => acc = None /\ l = []
  | Some b => (b ∈ l \/ acc = Some b) /\ (forall x, x ∈ l \/ acc = Some x -> deadline_of p b <= deadline_of p x)
  end.
Proof.
  induction l as [|y l IH]; intros acc; cbn.
  { destruct acc; [|done]. split; [auto|]. intros x [?%elem_of_nil|[= ->]]; [done|lia]. }
  specialize (IH (best_of p acc y)). destruct (foldl _ _ l) as [b|]; [|destruct IH as [IH _]; destruct acc; cbn in IH; [by destruct (_ <? _)|done]].
  destruct IH as [Hb Hm]. destruct acc as [a|]; cbn in Hb, Hm.
  - destruct (Z.ltb_spec (deadline_of p y) (deadline_of p a)).
    + split; [destruct Hb as [?|[= ->]]; [left; qset|left; qset]|].
      pose proof (Hm y (or_intror eq_refl)). intros x [[->|Hx]%elem_of_cons|[= <-]]; [done|auto|lia].
    + split; [destruct Hb as [?|[= ->]]; [left; qset|auto]|].
      pose proof (Hm a (or_intror eq_refl)). intros x [[->|Hx]%elem_of_cons|[= <-]]; [lia|auto|done].
  - split; [destruct Hb as [?|[= ->]]; left; qset|].
    intros x [[->|Hx]%elem_of_cons|?]; [auto|auto|done].
Qed.

Lemma next_depleted_le p : forall l next, 0 <= next -> (forall x, x ∈ l -> 0 < deadline_of p x) ->
  let r := foldl (fun next t => if (next =? 0) || (deadline_of p t <? next) then deadline_of p t else next) next l in
  0 <= r /\ (next <> 0 -> 0 < r <= next) /\ (forall x, x ∈ l -> 0 < r <= deadline_of p x).
Proof.
  induction l as [|y l IH]; intros next Hn Hl; cbn.
  { split_and!; try lia. by intros x ?%elem_of_nil. }
  pose proof (Hl y ltac:(qset)) as Hy.
  set (n1 := if _ || _ then _ else next).
  assert (0 < n1 <= deadline_of p y /\ (next <> 0 -> n1 <= next)) as [Hn1 Hn2].
  { subst n1. destruct (Z.eqb_spec next 0); cbn; [lia|]. zb; lia. }
  destruct (IH n1) as (Hr & H1 & H2); [lia|intros x Hx; apply Hl; qset|].
  specialize (H1 ltac:(lia)). split_and!; [lia|lia|].
  intros x [->|Hx]%elem_of_cons; [lia|auto].
Qed.

(** The timer is due no later than the next replenishment of a depleted server
    and, for the running server, than the end of its budget and its period. *)
Lemma rtds_timeout_ok v t now p :
  is_idle_thread v t = false -> server_ok (data_of p t) -> time_ok now -> 0 < now ->
  0 < last_start_ticks (data_of p t) -> (forall x, x ∈ depleted_queue p -> 0 < deadline_of p x) ->
  let timeout := rtds_timeout v (Some t) now p in
  0 < timeout <= Z.max now (deadline_of p t) /\
  (0 < remaining_of p t -> timeout <= Z.max now (last_start_ticks (data_of p t) + remaining_of p t)) /\
  (forall x, x ∈ depleted_queue p -> timeout <= deadline_of p x).
Proof.
  intros Hi Ho Hn Hn0 Hl Hd. cbn zeta. unfold rtds_timeout. rewrite Hi.
  destruct (next_depleted_le p (depleted_queue p) 0 ltac:(lia) Hd) as (Hr & _ & Hmin).
  fold (rtds_next_depleted_deadline p) in Hr, Hmin.
  change (foldl _ 0 (depleted_queue p)) with (rtds_next_depleted_deadline p) in Hr, Hmin.
  set (r := rtds_next_depleted_deadline p) in *. clearbody r.
  unfold server_ok, time_ok, TIME_BOUND in *. unfold deadline_of, remaining_of in *.
  destruct (Z.eqb_spec (last_start_ticks (data_of p t)) 0); [lia|]. cbn [negb].
  rewrite (u64_small (last_start_ticks (data_of p t) + _)) by (unfold in_u64; lia).
  set (t1 := if 0 <? remaining_ticks (data_of p t) then _ else _).
  assert (0 < t1 <= Z.max now (deadline_ticks (data_of p t)) /\
    (0 < remaining_ticks (data_of p t) ->
     t1 <= Z.max now (last_start_ticks (data_of p t) + remaining_ticks (data_of p t)))) as [H1 H2].
  { subst t1. zb; lia. }
  clearbody t1. destruct (Z.eqb_spec r 0) as [->|Hr0]; cbn.
  - split_and!; try lia. intros x Hx. specialize (Hmin x Hx). lia.
  - destruct (Z.eqb_spec t1 0); [lia|]. cbn. destruct (Z.ltb_spec r t1).
    + split_and!; try lia. intros x Hx. by apply Hmin.
    + split_and!; try lia. intros x Hx. specialize (Hmin x Hx). lia.
Qed.

Definition armed (p : sched_rtds_control) (when : Z) : Prop :=
  th_started (tick_timer p) = true /\ timeout (th_timer (tick_timer p)) = when.

Lemma rtds_program_timer_ok v running now p :
  timer_ok p ->
  exists p', rtds_program_timer v running now p = Ret p' /\ timer_ok p' /\
    ready_queue p' = ready_queue p /\ depleted_queue p' = depleted_queue p /\ data p' = data p /\
    (v_pcpu v = v_cpu v -> rtds_timeout v running now p <> 0 -> armed p' (rtds_timeout v running now p)).
Proof.
  intros Ht. unfold rtds_program_timer. destruct (Z.eqb_spec (v_pcpu v) (v_cpu v)) as [E|E]; [|by exists p].
  unfold rtds_program_local_timer. rewrite E, Z.eqb_refl. cbn [ASSERT mbind outcome_bind].
  set (p1 := p <| tick_timer := handle_del (tick_timer p) |>).
  change (rtds_timeout v running now p1) with (rtds_timeout v running now p).
  destruct (Z.eqb_spec (rtds_timeout v running now p) 0) as [E0|E0]; cbn [negb].
  { by exists p1. }
  unfold handle_add, handle_update, set_mode. cbn. unfold timer_ok in Ht. rewrite Ht.
  destruct (Z.eqb_spec (rtds_timeout v running now p) 0); [done|]. cbn. eexists. split; [done|].
  unfold timer_ok, armed. cbn. by rewrite ?Ht.
Qed.

Lemma rtds_inv_intro p q :
  rtds_inv p -> ready_queue q = ready_queue p -> depleted_queue q = depleted_queue p ->
  data q = data p -> timer_ok q -> rtds_inv q.
Proof.
  intros (Hw & Hs & _ & So & Hr & Hd) E1 E2 E3 Ht.
  assert (data_of q = data_of p) as Ed by (unfold data_of; by rewrite E3).
  unfold rtds_inv, inv_but, rtds_wf, servers_ok, key_le, deadline_of, remaining_of, tag in *.
  rewrite E1, E2, E3, Ed. split_and!; try done; apply Hw.
Qed.

(** ** The operations *)
Lemma set_start_inv t start p :
  known p t -> tag p t = RTDS_QUEUE_NONE -> time_ok start -> rtds_inv p ->
  let p' := set_data t ((data_of p t) <| last_start_ticks := start |>) p in
  rtds_inv p' /\ frame p p' /\ (forall u, tag p' u = tag p u) /\
  (forall u, deadline_of p' u = deadline_of p u /\ remaining_of p' u = remaining_of p u) /\
  last_start_ticks (data_of p' t) = start.
Proof.
  intros Hk Ht Hn Hi. cbn zeta. pose proof Hi as (_ & Hs & _). pose proof (rtds_known_ok p t Hs Hk) as Ho.
  set (d := (data_of p t) <| last_start_ticks := start |>).
  assert (server_ok d) as Od by (unfold server_ok, time_ok in *; subst d; cbn; tauto).
  assert (forall u, tag (set_data t d p) u = tag p u) as Hu.
  { intros u. unfold tag. rewrite rtds_data_set. by destruct (decide (t = u)) as [<-|]. }
  split_and!; try done.
  - apply (inv_strengthen t); [|by rewrite Hu]. apply rtds_set_data_inv; [done..|by apply inv_weaken].
  - by apply rtds_set_data_frame.
  - intros u. unfold deadline_of, remaining_of. rewrite rtds_data_set. by destruct (decide (t = u)) as [<-|].
  - by rewrite rtds_data_set, decide_True.
Qed.

(** Which thread [pick_next] takes from refreshed queues. *)
Definition chosen (v : sched_view) (p : sched_rtds_control) (t : tid) : Prop :=
  match ready_queue p with
  | _ :: _ => t ∈ ready_queue p /\ forall x, x ∈ ready_queue p -> deadline_of p t <= deadline_of p x
  | [] => match depleted_queue p with
          | _ :: _ => t ∈ depleted_queue p /\
                      forall x, x ∈ depleted_queue p -> deadline_of p t <= deadline_of p x
          | [] => t = Idle (v_cpu v)
          end
  end.

Lemma rtds_choose_ok v p :
  rtds_inv p ->
  let '(t, p') := rtds_choose v p in
  chosen v p t /\
  ((tag p t <> RTDS_QUEUE_NONE /\ p' = rtds_queue_remove t p) \/
   (t = Idle (v_cpu v) /\ ready_queue p = [] /\ depleted_queue p = [] /\ p' = p)).
Proof.
  intros ((Nr & Nd & Wr & Wd) & _ & _ & So & _). unfold chosen, rtds_choose.
  destruct (ready_queue p) as [|y l] eqn:Er.
  - unfold rtds_pick_depleted_slack. change (foldl _ None (depleted_queue p)) with
      (foldl (best_of p) None (depleted_queue p)).
    pose proof (slack_ok p (depleted_queue p) None) as Hs. destruct (foldl (best_of p) None _) as [b|].
    + destruct Hs as [[Hb|?] Hm]; [|done]. cbn. split; [|left; apply Wd in Hb; split; congruence].
      destruct (depleted_queue p) as [|z k]; [by apply elem_of_nil in Hb|]. auto.
    + destruct Hs as [_ Ed]. cbn. rewrite Ed. split; [done|]. by right.
  - assert (tag p y = RTDS_QUEUE_READY) as Ty by (apply Wr; qset).
    split; [|left; split; congruence]. split; [qset|]. intros x Hx.
    by apply (sorted_head_le _ _ _ x So).
Qed.

(** The queues [pick_next] and the tick leave behind. *)
Lemma refreshed_queues_ok v now p :
  rtds_inv p -> view_ok v p -> time_ok now ->
  exists p', rtds_refresh_queues v now (settle_current v now p) = Ret p' /\ rtds_inv p' /\ frame p p' /\
    (forall x, tag p' x <> RTDS_QUEUE_NONE <-> candidate v p x) /\
    (forall x, tag p' x <> RTDS_QUEUE_NONE -> now < deadline_of p' x) /\
    (forall x, candidate v p x -> is_idle_thread v x = false).
Proof.
  intros Hi Hv Hn. destruct (rtds_settle_ok v now p Hi Hv Hn) as (Hi1 & F1 & Q1 & _).
  pose proof Hv as (Vb & Va & _). set (p1 := settle_current v now p) in *. clearbody p1.
  assert (forall x, candidate v p x -> is_active v x = true) as Hact.
  { intros x [Hx|[_ Hx]]; [by apply Va|done]. }
  destruct (rtds_refresh_queues_ok v now p1 Hn) as (p2 & E2 & (Hi2 & F2 & Q2 & _) & Hf); [|done|].
  { split; [done|]. intros x Hx. by apply Hact, Q1. }
  exists p2. split_and!; try done; [by etransitivity|by intros x; rewrite Q2, Q1|].
  intros x Hx%Hact. unfold is_active in Hx. by destruct (is_idle_thread v x).
Qed.

(** Taking a queued thread off its queue, starting it and arming the timer. *)
Definition armed_for (q p' : sched_rtds_control) (t : tid) (start now : Z) : Prop :=
  exists when, armed p' when /\ when <= Z.max now (deadline_of q t) /\
    (0 < remaining_of q t -> when <= Z.max now (start + remaining_of q t)) /\
    (forall x, x ∈ depleted_queue p' -> when <= deadline_of p' x).

Lemma start_ok v start now q t :
  rtds_inv q -> tag q t <> RTDS_QUEUE_NONE -> is_idle_thread v t = false ->
  time_ok start -> time_ok now -> 0 < start <= now ->
  exists p', rtds_program_timer v (Some t) now
      (set_data t ((data_of (rtds_queue_remove t q) t) <| last_start_ticks := start |>)
        (rtds_queue_remove t q)) = Ret p' /\
    rtds_inv p' /\ (forall x, tag p' x <> RTDS_QUEUE_NONE <-> tag q x <> RTDS_QUEUE_NONE /\ x <> t) /\
    (v_pcpu v = v_cpu v -> armed_for q p' t start now).
Proof.
  intros Hq Tt Hidle Hn Hn1 H0. assert (known q t) as Kt by by apply tag_known.
  destruct (remove_ok t q Kt (inv_weaken t q Hq)) as [Hi1 Hm].
  pose proof (fun u => moved_fields t _ q _ u Hm) as Hf1. destruct Hm as (_ & F1 & _ & T1 & Tn).
  set (p1 := rtds_queue_remove t q) in *. clearbody p1.
  destruct (set_start_inv t start p1 ltac:(by apply F1) Tn Hn Hi1) as (Hi2 & F2 & T2 & Hf2 & L2).
  set (p2 := set_data t _ p1) in *. clearbody p2. pose proof Hi2 as (Hw2 & Hs2 & Ht2 & _).
  destruct (rtds_program_timer_ok v (Some t) now p2 Ht2) as (p' & -> & T' & Q1' & Q2' & D' & Ha).
  exists p'. split; [done|]. split; [by apply (rtds_inv_intro p2)|].
  assert (forall u, data_of p' u = data_of p2 u) as Du by (intros u; unfold data_of; by rewrite D').
  split.
  { intros x. unfold tag at 1. rewrite Du. fold (tag p2 x). rewrite T2.
    destruct (decide (x = t)) as [->|Hne]; [rewrite Tn; naive_solver|]. rewrite T1 by done. tauto. }
  intros Hl. assert (server_ok (data_of p2 t)) as Ho by (apply rtds_known_ok; [done|by apply F2, F1]).
  destruct (rtds_timeout_ok v t now p2) as (B1 & B2 & B3); try done; [lia|by rewrite L2; lia|..].
  { intros x Hx. assert (server_ok (data_of p2 x)) as (_ & _ & _ & ? & _); [|unfold deadline_of; lia].
    apply rtds_known_ok; [done|]. apply tag_known. destruct Hw2 as (_ & _ & _ & Wd). apply Wd in Hx. congruence. }
  destruct (Hf2 t) as [Ed2 Er2]. destruct (Hf1 t) as [Ed1 Er1]. rewrite L2, Er2, Er1 in B2. rewrite Ed2, Ed1 in B1.
  exists (rtds_timeout v (Some t) now p2). split_and!; [apply Ha; [done|lia]|lia|auto|].
  intros x Hx. unfold deadline_of. rewrite Du. apply B3. by rewrite <- Q2'.
Qed.

Lemma rtds_pick_ok v clk p :
  rtds_inv p -> view_ok v p -> time_ok (clk 0%nat) -> time_ok (clk 1%nat) ->
  0 < clk 0%nat <= clk 1%nat ->
  exists q t p', rtds_refresh_queues v (clk 0%nat) (settle_current v (clk 0%nat) p) = Ret q /\
    (forall x, tag q x <> RTDS_QUEUE_NONE <-> candidate v p x) /\ rtds_inv q /\
    (forall x, tag q x <> RTDS_QUEUE_NONE -> clk 0%nat < deadline_of q x) /\
    sched_rtds_pick_next v clk p = Ret (t, p') /\ rtds_inv p' /\ chosen v q t /\
    (forall x, tag p' x <> RTDS_QUEUE_NONE <-> candidate v p x /\ x <> t) /\
    (t = Idle (v_cpu v) \/
     (candidate v p t /\ (v_pcpu v = v_cpu v -> armed_for q p' t (clk 0%nat) (clk 1%nat)))).
Proof.
  intros Hi Hv Hn Hn1 H0.
  destruct (refreshed_queues_ok v (clk 0%nat) p Hi Hv Hn) as (q & E & Hq & Fq & Qq & Dq & Iq).
  pose proof (rtds_choose_ok v q Hq) as Hc. unfold sched_rtds_pick_next. rewrite E. cbn [mbind outcome_bind].
  destruct (rtds_choose v q) as [t q1] eqn:Ec. destruct Hc as [Hch Hc]. exists q, t.
  destruct Hc as [[Tt ->]|(-> & Er & Ed & ->)].
  - assert (candidate v p t) as Ct by by apply Qq. rewrite (Iq t Ct).
    destruct (start_ok v (clk 0%nat) (clk 1%nat) q t) as (p' & -> & Hi' & Hu & Ha);
      try done; [by apply Iq|].
    exists p'. split_and!; try done; [|by right]. intros x. by rewrite Hu, Qq.
  - destruct Hv as (_ & _ & _ & ->). pose proof Hq as ((_ & _ & Wr & Wd) & _ & Ht & _).
    destruct (rtds_program_timer_ok v (Some (Idle (v_cpu v))) (clk 1%nat) q Ht) as (p' & -> & T' & Q1' & Q2' & D' & _).
    exists p'. split_and!; try done; [by apply (rtds_inv_intro q)| |by left].
    assert (forall x, tag q x = RTDS_QUEUE_NONE) as Hnone.
    { intros x. rewrite Er, Ed in *. specialize (Wr x). specialize (Wd x). rewrite elem_of_nil in Wr, Wd.
      destruct (tag q x); [done|tauto..]. }
    intros x. rewrite <- Qq. assert (tag p' x = tag q x) as -> by (unfold tag, data_of; by rewrite D').
    rewrite Hnone. tauto.
Qed.

Lemma rtds_init_data_ok v clk t prm p :
  in_u32 (v_khz v) -> 2 <= v_khz v ->
  in_u32 (fst (rtds_normalize_us (v_plat v) (pcpu_id (thr v t)))) ->
  tag p t = RTDS_QUEUE_NONE -> time_ok (clk 0%nat) -> rtds_inv p ->
  exists p', sched_rtds_init_data v clk t prm p = Ret p' /\ rtds_inv p' /\ known p' t /\
    (forall u, tag p' u = tag p u).
Proof.
  intros Hk Hk2 Hper Ht Hn Hi. unfold sched_rtds_init_data.
  assert (500 <= snd (rtds_normalize_us (v_plat v) (pcpu_id (thr v t))) <=
    fst (rtds_normalize_us (v_plat v) (pcpu_id (thr v t)))) as Hb.
  { unfold rtds_normalize_us, RTDS_MIN_PERIOD_US, RTDS_MIN_BUDGET_US.
    destruct (match sched_get_pcpu_pool_config _ _ with Some _ => _ | None => _ end). cbn. lia. }
  destruct (rtds_normalize_us _ _) as [period budget]. cbn [fst snd] in *.
  assert (in_u32 budget) as Hbud by (unfold in_u32 in *; lia).
  pose proof (us_to_ticks_mono _ _ _ Hk Hbud Hper ltac:(lia)) as Hm.
  pose proof (us_to_ticks_pos (v_khz v) budget Hk Hbud ltac:(nia)) as Hpos.
  assert (us_to_ticks (v_khz v) period <= 2 ^ 55) as Hmax.
  { rewrite us_to_ticks_nowrap by done. unfold in_u32 in *. apply Z.div_le_upper_bound; [lia|]. nia. }
  set (per := us_to_ticks (v_khz v) period) in *. clearbody per.
  set (bud := us_to_ticks (v_khz v) budget) in *. clearbody bud.
  set (d := mk_rtds_data _ _ _ _ _ _). assert (server_ok d) as Od.
  { unfold server_ok, time_ok, TIME_BOUND in *. subst d. cbn. unfold rtds_next_period_boundary.
    destruct (Z.eqb_spec per 0); [lia|]. set (now := clk 0%nat) in *. clearbody now.
    pose proof (Z.div_mod now per ltac:(lia)). pose proof (Z.mod_pos_bound now per ltac:(lia)).
    assert (0 <= now / per <= now) by (split; [apply Z.div_pos; lia|apply Z.div_le_upper_bound; nia]).
    rewrite (u64_small (now / per + 1)) by (unfold in_u64; lia).
    rewrite u64_small by (unfold in_u64; nia). rewrite Z.mod_mul by lia. split_and!; try lia; nia. }
  eexists. split; [done|].
  assert (forall u, tag (set_data t d p) u = tag p u) as Hu.
  { intros u. unfold tag. rewrite rtds_data_set. by destruct (decide (t = u)) as [<-|]. }
  split_and!; [|unfold known; cbn; by rewrite lookup_insert_eq|done].
  apply (inv_strengthen t); [|by rewrite Hu]. by apply rtds_set_data_inv, inv_weaken.
Qed.

Lemma rtds_sleep_ok v clk t p :
  known p t -> time_ok (clk 0%nat) -> rtds_inv p ->
  exists p', sched_rtds_sleep v clk t p = Ret p' /\ rtds_inv p' /\
    (forall x, tag p' x <> RTDS_QUEUE_NONE <-> tag p x <> RTDS_QUEUE_NONE /\ x <> t).
Proof.
  intros Hk Hn Hi. unfold sched_rtds_sleep. set (p1 := if is_current v t then _ else p).
  assert (inv_but (Some t) p1 /\ frame p p1 /\ forall u, tag p1 u = tag p u) as (Hi1 & F1 & T1).
  { subst p1. destruct (is_current v t); [|by split_and!; [apply inv_weaken|..]].
    destruct (rtds_account_ok v t (clk 0%nat) p Hk (inv_weaken t p Hi) Hn) as (? & ? & ? & _). done. }
  clearbody p1. destruct (remove_ok t p1 ltac:(by apply F1) Hi1) as [Hi2 (_ & F2 & _ & T2 & N2)].
  set (p2 := rtds_queue_remove t p1) in *. clearbody p2.
  destruct (set_start_inv t 0 p2) as (Hi3 & F3 & T3 & _);
    [by apply F2, F1|done|unfold time_ok, TIME_BOUND; lia|done|].
  set (p3 := set_data t _ p2) in *. clearbody p3. pose proof Hi3 as (_ & _ & Ht3 & _).
  assert (forall run now, exists p', rtds_program_timer v run now p3 = Ret p' /\ rtds_inv p' /\
    (forall x, tag p' x <> RTDS_QUEUE_NONE <-> tag p x <> RTDS_QUEUE_NONE /\ x <> t)) as H.
  { intros run now. destruct (rtds_program_timer_ok v run now p3 Ht3) as (p' & -> & T' & Q1 & Q2 & D' & _).
    exists p'. split; [done|]. split; [by apply (rtds_inv_intro p3)|]. intros x.
    assert (tag p' x = tag p2 x) as -> by (rewrite <- T3; unfold tag, data_of; by rewrite D').
    destruct (decide (x = t)) as [->|Hne]; [rewrite N2; naive_solver|]. rewrite T2, T1 by done. tauto. }
  destruct (is_current v t); apply H.
Qed.

(** [wake] and [prioritize] bring the period up to date first. *)
Lemma rtds_wake_ok v clk t p :
  known p t -> time_ok (clk 0%nat) -> rtds_inv p ->
  exists p', sched_rtds_wake v clk t p = Ret p' /\ rtds_inv p' /\
    tag p' t = proper_queue p' t /\ clk 0%nat < deadline_of p' t /\
    (forall x, x <> t -> data_of p' x = data_of p x) /\
    (clk 0%nat < deadline_of p t ->
     deadline_of p' t = deadline_of p t /\ remaining_of p' t = remaining_of p t).
Proof.
  intros Hk Hn Hi. unfold sched_rtds_wake.
  destruct (advanced_ok (clk 0%nat) t p Hk (inv_weaken t p Hi) Hn) as (Hi0 & _ & _ & D0 & _ & _ & Hs0).
  pose proof Hi0 as (_ & Hsv & _). set (d := snd (rtds_advance_period (clk 0%nat) (data_of p t))) in *.
  assert (data_of (advanced (clk 0%nat) t p) t = d) as Ed by (unfold advanced; by rewrite rtds_data_set, decide_True).
  assert (server_ok d) as Od by (rewrite <- Ed; apply rtds_known_ok; [done|]; by apply rtds_set_data_frame).
  assert (queue d = tag p t) as Eqd by (unfold d, rtds_advance_period; by destruct (_ <? _)).
  unfold deadline_of in D0, Hs0. rewrite Ed in D0, Hs0.
  set (d1 := d <| last_start_ticks := 0 |>). set (p1 := set_data t d1 p).
  assert (inv_but (Some t) p1) as Hi1.
  { apply rtds_set_data_inv; [done| |by apply inv_weaken]. unfold server_ok, TIME_BOUND in *. subst d1. cbn. lia. }
  assert (known p1 t) as Hk1 by by apply rtds_set_data_frame.
  assert (data_of p1 t = d1) as Ed1 by (subst p1; by rewrite rtds_data_set, decide_True).
  assert (remaining_ticks d = remaining_of p1 t) as -> by (unfold remaining_of; by rewrite Ed1).
  fold (place t p1). destruct (place_ok t p1 Hk1 Hi1) as [Hi2 Hm]. destruct (moved_fields t _ p1 _ t Hm) as [Edl Erm].
  destruct Hm as (_ & F2 & Hss & Hu & Ht). pose proof Hi2 as (_ & _ & Ht2 & _).
  assert (forall x, x <> t -> data_of (place t p1) x = data_of p x) as Dx.
  { intros x Hx. assert (data_of p1 x = data_of p x) as E1 by (subst p1; by rewrite rtds_data_set, decide_False).
    rewrite Hss, Hu, <- E1 by done. apply queue_same. }
  set (p2 := place t p1) in *. clearbody p2.
  destruct (rtds_program_timer_ok v (v_curr v) (clk 1%nat) p2 Ht2) as (p' & -> & T' & Q1 & Q2 & D' & _).
  assert (forall u, data_of p' u = data_of p2 u) as Du by (intros u; unfold data_of; by rewrite D').
  exists p'. split; [done|]. unfold deadline_of, remaining_of, proper_queue, tag in *. rewrite !Du, Edl, Erm, Ed1.
  split_and!; [by apply (rtds_inv_intro p2)| |done| |].
  - rewrite Ht. unfold remaining_of. by rewrite Du, Erm, Ed1.
  - intros x Hx. by rewrite Du, Dx.
  - intros Hlt. by rewrite <- (Hs0 Hlt).
Qed.

Lemma rtds_prioritize_ok v clk t p :
  known p t -> time_ok (clk 0%nat) -> rtds_inv p ->
  (is_current v t = true -> tag p t <> RTDS_QUEUE_NONE -> clk 0%nat < deadline_of p t) ->
  exists p', sched_rtds_prioritize v clk t p = Ret p' /\ rtds_inv p' /\
    (forall x, x <> t -> data_of p' x = data_of p x) /\
    (clk 0%nat < deadline_of p t -> remaining_of p' t = remaining_of p t).
Proof.
  intros Hk Hn Hi Hcur. unfold sched_rtds_prioritize. fold (advanced (clk 0%nat) t p).
  destruct (advanced_ok (clk 0%nat) t p Hk (inv_weaken t p Hi) Hn) as (Hi1 & F1 & T1 & D1 & O1 & R1 & S1).
  assert (remaining_ticks (snd (rtds_advance_period (clk 0%nat) (data_of p t))) =
    remaining_of (advanced (clk 0%nat) t p) t) as ->.
  { unfold remaining_of, advanced. by rewrite rtds_data_set, decide_True. }
  assert (clk 0%nat < deadline_of p t -> advanced (clk 0%nat) t p = p) as Hid.
  { intros H. apply advance_none; [done|]. by apply Z.leb_gt. }
  set (p1 := advanced (clk 0%nat) t p) in *. clearbody p1. assert (known p1 t) as Hk1 by by apply F1.
  assert (clk 0%nat < deadline_of p t -> remaining_of p1 t = remaining_of p t) as Hr.
  { intros H. by rewrite Hid. }
  eexists. split; [done|]. destruct (is_current v t) eqn:Ec; cbn [negb andb].
  - split_and!; try done. destruct (decide (tag p t = RTDS_QUEUE_NONE)) as [E|E].
    + apply (inv_strengthen t); [done|]. by rewrite T1.
    + by rewrite Hid by auto.
  - destruct (Z.ltb_spec 0 (remaining_of p1 t)) as [H0|H0].
    + assert (rtds_ready_insert t p1 = place t p1) as ->.
      { unfold place. by destruct (Z.ltb_spec 0 (remaining_of p1 t)); [|lia]. }
      destruct (place_ok t p1 Hk1 Hi1) as [Hi2 Hm]. destruct (moved_fields t _ p1 _ t Hm) as [_ Erm].
      destruct Hm as (_ & _ & Hss & Hu & _). split_and!; [done| |by rewrite Erm].
      intros x Hx. rewrite Hss, Hu, <- O1 by done. apply queue_same.
    + split_and!; try done. rewrite Hid; [done|].
      destruct (Z.le_gt_cases (deadline_of p t) (clk 0%nat)) as [H|H]; [|lia]. specialize (R1 H). lia.
Qed.

Lemma rtds_tick_ok v clk p :
  rtds_inv p -> view_ok v p -> time_ok (clk 0%nat) ->
  exists p', rtds_timer_handler v clk p = Ret (true, p') /\ rtds_inv p' /\
    (forall x, tag p' x <> RTDS_QUEUE_NONE <-> candidate v p x) /\
    (forall x, tag p' x <> RTDS_QUEUE_NONE -> clk 0%nat < deadline_of p' x).
Proof.
  intros Hi Hv Hn. unfold rtds_timer_handler. set (p0 := p <| tick_timer := _ |>).
  assert (rtds_inv p0) as Hi0 by (apply (rtds_inv_intro p); try done; apply Hi).
  destruct (refreshed_queues_ok v (clk 0%nat) p0 Hi0 Hv Hn) as (q & -> & Hq & _ & Qq & Dq & _).
  by exists q.
Qed.

(** ** Runs of the policy *)
Inductive rtds_call :=
| RInitData (t : tid) (prm : sched_params)
| RPick
| RSleep (t : tid)
| RWake (t : tid)
| RPrioritize (t : tid)
| RTick.

Definition run_call (v : sched_view) (clk : clock) (c : rtds_call) (p : sched_rtds_control)
    : outcome sched_rtds_control :=
  match c with
  | RInitData t prm => sched_rtds_init_data v clk t prm p
  | RPick => snd <$> sched_rtds_pick_next v clk p
  | RSleep t => sched_rtds_sleep v clk t p
  | RWake t => sched_rtds_wake v clk t p
  | RPrioritize t => sched_rtds_prioritize v clk t p
  | RTick => snd <$> rtds_timer_handler v clk p
  end.

(** What the framework and the platform guarantee of a call. *)
Definition call_ok (v : sched_view) (clk : clock) (c : rtds_call) (p : sched_rtds_control) : Prop :=
  0 < clk 0%nat <= clk 1%nat /\ time_ok (clk 1%nat) /\
  match c with
  | RInitData t prm =>
      tag p t = RTDS_QUEUE_NONE /\ in_u32 (v_khz v) /\ 2 <= v_khz v /\
      in_u32 (fst (rtds_normalize_us (v_plat v) (pcpu_id (thr v t))))
  | RPick | RTick => view_ok v p
  | RSleep t | RWake t => known p t
  | RPrioritize t =>
      known p t /\ (is_current v t = true -> tag p t <> RTDS_QUEUE_NONE -> clk 0%nat < deadline_of p t)
  end.

Lemma rtds_run_ok v clk c p :
  rtds_inv p -> call_ok v clk c p -> exists p', run_call v clk c p = Ret p' /\ rtds_inv p'.
Proof.
  intros Hi (H0 & Hn1 & Hc). assert (time_ok (clk 0%nat)) as Hn by (unfold time_ok in *; lia).
  destruct c; cbn [run_call].
  - destruct Hc as (Ht & Hk & Hk2 & Hp). destruct (rtds_init_data_ok v clk t prm p) as (p' & ? & ? & _); eauto.
  - destruct (rtds_pick_ok v clk p) as (q & t & p' & _ & _ & _ & _ & -> & ? & _); [done..|]. cbn. eauto.
  - destruct (rtds_sleep_ok v clk t p) as (p' & ? & ? & _); eauto.
  - destruct (rtds_wake_ok v clk t p) as (p' & ? & ? & _); eauto.
  - destruct Hc as [Hk Hcur]. destruct (rtds_prioritize_ok v clk t p) as (p' & ? & ? & _); eauto.
  - destruct (rtds_tick_ok v clk p) as (p' & -> & ? & _); [done..|]. cbn. eauto.
Qed.

(** States reachable from a successful [init] with no thread data. *)
Inductive rtds_reach : sched_rtds_control -> Prop :=
| rtds_reach_init v clk p p' r :
    data p = ∅ -> sched_rtds_init v clk p = Ret (r, p') -> rtds_reach p'
| rtds_reach_call v clk c p p' :
    rtds_reach p -> call_ok v clk c p -> run_call v clk c p = Ret p' -> rtds_reach p'.

Lemma rtds_init_wf v clk p p' r :
  (forall x, tag p x = RTDS_QUEUE_NONE) -> sched_rtds_init v clk p = Ret (r, p') ->
  rtds_wf p' /\ (forall x, tag p' x = RTDS_QUEUE_NONE) /\ data p' = data p /\ timer_ok p' /\ ready_queue p' = [].
Proof.
  intros Ht E. unfold sched_rtds_init in E. inv_ret. subst.
  assert (forall x, tag (p <| ready_queue := [] |> <| depleted_queue := [] |>
    <| tick_timer := handle_init 0 0 |>) x = RTDS_QUEUE_NONE) as Ht' by exact Ht.
  split_and!; try done. unfold rtds_wf. split_and!; try constructor; rewrite Ht'; try done; cbn;
    by intros ?%elem_of_nil.
Qed.

Lemma rtds_reach_inv p : rtds_reach p -> rtds_inv p.
Proof.
  induction 1 as [v clk p p' r Hd E|v clk c p p' _ IH Hc E].
  - destruct (rtds_init_wf v clk p p' r) as (Hw & Ht & Ed & Hm & Er); [|done|].
    { intros x. unfold tag, data_of. by rewrite Hd, lookup_total_empty. }
    pose proof Hw as (_ & _ & _ & Wd). unfold rtds_inv, inv_but, servers_ok. rewrite Ed, Hd, Er.
    split_and!; try done; [constructor|by intros t ?%elem_of_nil|].
    intros t Hx. apply Wd in Hx. by rewrite Ht in Hx.
  - destruct (rtds_run_ok v clk c p IH Hc) as (q & E' & Hq). congruence.
Qed.

(** ** The policy interface

    Without any assumption on budgets: the queues stay well formed and gain only
    threads that are woken, prioritised, or current and active. *)
Definition gains (v : sched_view) (t : tid) (ok : bool) (p p' : sched_rtds_control) : Prop :=
  rtds_wf p' /\
  forall x, tag p' x <> RTDS_QUEUE_NONE -> tag p x <> RTDS_QUEUE_NONE \/ (x = t /\ ok = true).

Lemma set_same_wf t d p :
  queue d = tag p t -> rtds_wf p ->
  rtds_wf (set_data t d p) /\ forall x, tag (set_data t d p) x = tag p x.
Proof.
  intros E Hw. split; [by apply set_data_wf|]. intros x. unfold tag in *. rewrite rtds_data_set.
  by destruct (decide (t = x)) as [<-|].
Qed.

Lemma ready_insert_gains v t p : rtds_wf p -> gains v t true p (rtds_ready_insert t p).
Proof.
  intros Hw. split; [by apply ready_insert_wf|]. intros x. unfold tag.
  destruct (ready_insert_eq t p Hw) as (_ & _ & ->). destruct (decide (t = x)) as [<-|]; auto.
Qed.

Lemma depleted_insert_gains v t p : rtds_wf p -> gains v t true p (rtds_depleted_insert t p).
Proof.
  intros Hw. split; [by apply depleted_insert_wf|]. intros x. unfold tag.
  destruct (depleted_insert_eq t p Hw) as (_ & _ & ->). destruct (decide (t = x)) as [<-|]; auto.
Qed.

Lemma remove_tag t p x : rtds_wf p ->
  tag (rtds_queue_remove t p) x = if decide (t = x) then RTDS_QUEUE_NONE else tag p x.
Proof.
  intros Hw. unfold tag. destruct (remove_eq t p Hw) as (_ & _ & ->).
  by destruct (decide (t = x)) as [<-|].
Qed.

Lemma advance_queue now d : queue (snd (rtds_advance_period now d)) = queue d.
Proof. unfold rtds_advance_period. by destruct (_ <? _). Qed.

Lemma refresh_thread_gains v t now p :
  rtds_wf p -> gains v t (is_active v t) p (rtds_refresh_thread v t now p).
Proof.
  intros Hw. unfold rtds_refresh_thread.
  destruct (set_same_wf t (snd (rtds_advance_period now (data_of p t))) p) as [Hw1 T1];
    [apply advance_queue|done|].
  set (p1 := set_data t _ p) in *. clearbody p1.
  destruct (is_active v t); [|split; [done|]; intros x; rewrite T1; auto].
  destruct (0 <? _); [|destruct (negb _); [|split; [done|]; intros x; rewrite T1; auto]].
  - destruct (ready_insert_gains v t p1 Hw1) as [Hw2 H2]. split; [done|]. intros x Hx. rewrite <- T1. auto.
  - destruct (depleted_insert_gains v t p1 Hw1) as [Hw2 H2]. split; [done|]. intros x Hx. rewrite <- T1. auto.
Qed.

Lemma refresh_queues_gains v now p p' :
  rtds_wf p -> rtds_refresh_queues v now p = Ret p' ->
  rtds_wf p' /\ forall x, tag p' x <> RTDS_QUEUE_NONE -> tag p x <> RTDS_QUEUE_NONE.
Proof.
  intros Hw E. unfold rtds_refresh_queues in E. inv_ret. rename r into p1.
  set (P := fun s => rtds_wf s /\ forall x, tag s x <> RTDS_QUEUE_NONE -> tag p x <> RTDS_QUEUE_NONE).
  assert (P p1) as H1.
  { refine (list_for_each_safe_preserve ready_queue (refresh_ready_body v now) P
      (fun x => tag p x <> RTDS_QUEUE_NONE) _ p p1 _ _ _ E0); [|clear E E0 p1 p'|by split].
    { intros s x [(_ & _ & Wr & _) Hs] Hx%Wr. apply Hs. congruence. }
    intros x s s' [Ws Hs] Hx Eb. unfold refresh_ready_body in Eb.
    destruct (rtds_advance_period now (data_of s x)) as [b d] eqn:Ea. inv_ret. subst s'.
    pose proof (advance_queue now (data_of s x)) as Eq. rewrite Ea in Eq. cbn in Eq.
    destruct (set_same_wf x d s Eq Ws) as [W1 T1]. set (s1 := set_data x d s) in *. clearbody s1.
    destruct b; [|split; [done|]; intros y; rewrite T1; auto].
    destruct (refresh_thread_gains v x now (rtds_queue_remove x s1)) as [W2 H2]; [by apply remove_wf|].
    split; [done|]. intros y Hy. destruct (H2 y Hy) as [H|[-> _]]; [|done].
    rewrite remove_tag in H by done. destruct (decide (x = y)); [done|]. apply Hs. by rewrite <- T1. }
  refine (list_for_each_safe_preserve depleted_queue (refresh_depleted_body v now) P
    (fun x => tag p x <> RTDS_QUEUE_NONE) _ p1 p' _ _ H1 E); clear E E0 H1 p1 p'.
  { intros s x [(_ & _ & _ & Wd) Hs] Hx%Wd. apply Hs. congruence. }
  intros x s s' [Ws Hs] Hx [= <-].
  destruct (refresh_thread_gains v x now s Ws) as [W2 H2]. split; [done|].
  intros y Hy. destruct (H2 y Hy) as [H|[-> _]]; auto.
Qed.

Lemma account_tag v t now p x : rtds_wf p ->
  rtds_wf (rtds_account_runtime v t now p) /\ tag (rtds_account_runtime v t now p) x = tag p x.
Proof.
  intros Hw. unfold rtds_account_runtime. destruct (_ || (now <=? _)); [done|].
  destruct (set_same_wf t ((data_of p t) <| last_start_ticks := now |>
    <| remaining_ticks := rtds_charge (now - last_start_ticks (data_of p t)) (data_of p t) |>) p) as [? T];
    [done..|]. split; [done|]. apply T.
Qed.

Lemma settle_gains v now p :
  rtds_wf p -> rtds_wf (settle_current v now p) /\
  forall x, tag (settle_current v now p) x <> RTDS_QUEUE_NONE -> candidate v p x.
Proof.
  intros Hw. unfold settle_current, candidate, active_current. destruct (v_curr v) as [c|]; [|auto].
  destruct (is_idle_thread v c); [auto|].
  pose proof (fun x => account_tag v c now p x Hw) as Ha. destruct (Ha c) as [W1 _].
  destruct (refresh_thread_gains v c now _ W1) as [W2 H2]. split; [done|].
  intros x Hx. destruct (H2 x Hx) as [H|[-> H]]; [|auto]. left. destruct (Ha x) as [_ <-]. done.
Qed.

Lemma program_timer_same v running now p p' :
  rtds_program_timer v running now p = Ret p' ->
  ready_queue p' = ready_queue p /\ depleted_queue p' = depleted_queue p /\ data p' = data p.
Proof.
  unfold rtds_program_timer, rtds_program_local_timer. destruct (v_pcpu v =? v_cpu v); [|by intros [= <-]].
  intros E. inv_ret. destruct (negb _); inv_ret; [destruct r0; inv_ret|]; by subst.
Qed.

Lemma program_timer_wf v running now p p' :
  rtds_program_timer v running now p = Ret p' -> rtds_wf p ->
  rtds_wf p' /\ forall x, tag p' x = tag p x.
Proof.
  intros (E1 & E2 & E3)%program_timer_same Hw. unfold rtds_wf, tag, data_of in *.
  rewrite E1, E2, E3. done.
Qed.

Lemma choose_tag v p :
  rtds_wf p ->
  let '(t, p') := rtds_choose v p in
  (tag p t <> RTDS_QUEUE_NONE /\ p' = rtds_queue_remove t p) \/ (t = Idle (v_cpu v) /\ p' = p).
Proof.
  intros (_ & _ & Wr & Wd). unfold rtds_choose. destruct (ready_queue p) as [|y l].
  - unfold rtds_pick_depleted_slack. change (foldl _ None (depleted_queue p)) with
      (foldl (best_of p) None (depleted_queue p)).
    pose proof (slack_ok p (depleted_queue p) None) as Hs. destruct (foldl (best_of p) None _) as [b|]; [|by right].
    destruct Hs as [[Hb%Wd|?] _]; [|done]. left. cbn. split; congruence.
  - left. split; [|done]. assert (tag p y = RTDS_QUEUE_READY) by (apply Wr; qset). congruence.
Qed.

Lemma rtds_pick_gains v clk p t p' :
  rtds_wf p -> sched_rtds_pick_next v clk p = Ret (t, p') ->
  rtds_wf p' /\ (t = Idle (v_cpu v) \/ candidate v p t) /\
  forall x, tag p' x <> RTDS_QUEUE_NONE -> candidate v p x.
Proof.
  intros Hw E. unfold sched_rtds_pick_next in E. inv_ret. rename r into q.
  destruct (settle_gains v (clk 0%nat) p Hw) as [W1 C1].
  destruct (refresh_queues_gains _ _ _ _ W1 E0) as [W2 C2].
  assert (forall x, tag q x <> RTDS_QUEUE_NONE -> candidate v p x) as Hc by auto.
  pose proof (choose_tag v q W2) as Hch. destruct (rtds_choose v q) as [n q1]. inv_ret. subst.
  assert (rtds_wf q1 /\ forall x, tag q1 x <> RTDS_QUEUE_NONE -> tag q x <> RTDS_QUEUE_NONE) as [W3 C3].
  { destruct Hch as [[_ ->]|[_ ->]]; [|done]. split; [by apply remove_wf|]. intros x.
    rewrite remove_tag by done. by destruct (decide (t = x)). }
  assert (rtds_wf (if is_idle_thread v t then q1 else
      set_data t ((data_of q1 t) <| last_start_ticks := clk 0%nat |>) q1) /\
    forall x, tag (if is_idle_thread v t then q1 else
      set_data t ((data_of q1 t) <| last_start_ticks := clk 0%nat |>) q1) x = tag q1 x) as [W4 T4].
  { destruct (is_idle_thread v t); [done|]. by apply set_same_wf. }
  apply program_timer_wf in E1 as [W5 T5]; [|done]. split_and!; [done| |].
  - destruct Hch as [[Ht _]|[Ht _]]; auto.
  - intros x. rewrite T5, T4. auto.
Qed.

#[export] Instance rtds_policy : SchedPolicy sched_rtds.
Proof.
  refine {| pol_inv := rtds_wf; queued := fun p t => tag p t <> RTDS_QUEUE_NONE |}; cbn; try done.
  - intros v clk p r p' Hq E. destruct (rtds_init_wf v clk p p' r) as (Hw & Ht & _); [|done|].
    { intros x. destruct (decide (tag p x = RTDS_QUEUE_NONE)) as [|H]; [done|]. by destruct (Hq x). }
    split; [done|]. intros x Hx. by rewrite Ht in Hx.
  - intros f v clk p t p' [= <-] Hw E. destruct (rtds_pick_gains v clk p t p' Hw E) as (? & Ht & ?).
    unfold candidate in *. split_and!; [done|tauto|done].
  - intros f v clk t p p' [= <-] Hw E. unfold sched_rtds_sleep in E.
    set (p1 := if is_current v t then rtds_account_runtime _ _ _ _ else p) in *.
    assert (rtds_wf p1 /\ forall x, tag p1 x = tag p x) as [W1 T1].
    { subst p1. destruct (is_current v t); [|done]. pose proof (fun x => account_tag v t (clk 0%nat) p x Hw) as Ha.
      split; [apply (Ha t)|intros x; apply Ha]. }
    clearbody p1. destruct (set_same_wf t ((data_of (rtds_queue_remove t p1) t) <| last_start_ticks := 0 |>)
      (rtds_queue_remove t p1)) as [W2 T2]; [done|by apply remove_wf|].
    assert (rtds_wf p' /\ forall x, tag p' x = tag (rtds_queue_remove t p1) x) as [W3 T3].
    { destruct (is_current v t); apply program_timer_wf in E as [? T]; try done;
        (split; [done|]; intros x; by rewrite T, T2). }
    split; [done|]. intros x. rewrite T3, remove_tag, <- T1 by done. by destruct (decide (t = x)).
  - intros f v clk t p p' [= <-] Hw E. unfold sched_rtds_wake in E.
    destruct (set_same_wf t ((snd (rtds_advance_period (clk 0%nat) (data_of p t))) <| last_start_ticks := 0 |>) p)
      as [W1 T1]; [apply advance_queue|done|].
    set (p1 := set_data t _ p) in *. clearbody p1.
    pose proof (ready_insert_gains v t p1 W1) as [Wr Gr]. pose proof (depleted_insert_gains v t p1 W1) as [Wd Gd].
    destruct (0 <? _); apply program_timer_wf in E as [W2 T2]; try done;
      (split; [done|]; intros x; rewrite T2, <- T1; intros Hx; naive_solver).
  - intros f v clk t p p' [= <-] Hw E. unfold sched_rtds_prioritize in E. inv_ret. subst.
    destruct (set_same_wf t (snd (rtds_advance_period (clk 0%nat) (data_of p t))) p)
      as [W1 T1]; [apply advance_queue|done|].
    set (p1 := set_data t _ p) in *. clearbody p1.
    destruct (_ && _); [|split; [done|]; intros x; rewrite T1; auto].
    destruct (ready_insert_gains v t p1 W1) as [W2 G2]. split; [done|]. intros x Hx. rewrite <- T1. naive_solver.
  - intros f v clk t prm p p' [= <-] Hw Hq E. unfold sched_rtds_init_data in E.
    destruct (rtds_normalize_us _ _). inv_ret. subst.
    assert (tag p t = RTDS_QUEUE_NONE) as Ht by by destruct (decide (tag p t = RTDS_QUEUE_NONE)).
    match goal with |- rtds_wf (set_data t ?d p) /\ _ => destruct (set_same_wf t d p) as [W T]; [done..|] end.
    split; [done|]. intros x. by rewrite T.
  - by intros f v clk p p' [= <-] Hw [= <-].
  - by intros f v clk p p' [= <-] Hw [= <-].
  - intros f v clk p b p' [= <-] Hw E. unfold rtds_timer_handler in E. inv_ret. subst.
    match type of E0 with rtds_refresh_queues _ _ (settle_current _ _ ?q) = _ =>
      destruct (settle_gains v (clk 0%nat) q Hw) as [W1 C1] end.
    destruct (refresh_queues_gains _ _ _ _ W1 E0) as [W2 C2]. split; [done|]. intros x Hx. by apply C1, C2.
Defined.

(** ** Theorems *)

(** The walk the jump replaces: one period at a time, with a fresh budget. *)
Fixpoint walk_periods (fuel : nat) (now : Z) (d : sched_rtds_data) : option sched_rtds_data :=
  if now <? deadline_ticks d then Some d
  else match fuel with
       | O => None
       | S f => walk_periods f now
           (d <| deadline_ticks := deadline_ticks d + period_ticks d |> <| remaining_ticks := budget_ticks d |>)
       end.

Lemma walk_periods_ok fuel : forall now d,
  0 < period_ticks d -> now < deadline_ticks d + Z.of_nat fuel * period_ticks d ->
  exists k, 0 <= k /\ walk_periods fuel now d =
      Some (if k =? 0 then d else d <| deadline_ticks := deadline_ticks d + k * period_ticks d |>
                                   <| remaining_ticks := budget_ticks d |>) /\
    now < deadline_ticks d + k * period_ticks d /\
    (k <> 0 -> deadline_ticks d + (k - 1) * period_ticks d <= now).
Proof.
  induction fuel as [|fuel IH]; intros now d Hp Hf; cbn [walk_periods];
    destruct (Z.ltb_spec now (deadline_ticks d)); try (exists 0; split_and!; [lia|done|lia|lia]); [cbn in Hf; lia|].
  set (d1 := d <| deadline_ticks := _ |> <| remaining_ticks := _ |>).
  rewrite Nat2Z.inj_succ in Hf.
  destruct (IH now d1) as (k & Hk & E & H1 & H2); [done|subst d1; cbn; lia|]. exists (k + 1).
  subst d1. cbn in *. rewrite E. destruct (Z.eqb_spec (k + 1) 0); [lia|].
  split_and!; try lia. destruct (Z.eqb_spec k 0) as [->|]; [by rewrite Z.mul_1_l|].
  replace (deadline_ticks d + (k + 1) * period_ticks d) with
    (deadline_ticks d + period_ticks d + k * period_ticks d) by lia. done.
Qed.

(** C30: The jump over missed periods is the period-by-period walk.  For a server
    of the policy at any counter value below 2^63, [rtds_advance_period] computes
    what adding one period at a time until the deadline is in the future
    computes (the walk ends with [now] steps of fuel): no multiplication wraps,
    the deadline stays on the server's period grid, at most one period ahead,
    and the flag says whether the period had ended. *)
Theorem rtds_advance_is_walk now d :
  server_ok d -> time_ok now ->
  walk_periods (Z.to_nat (now + 1)) now d = Some (snd (rtds_advance_period now d)) /\
  fst (rtds_advance_period now d) = (deadline_ticks d <=? now) /\
  (deadline_ticks (snd (rtds_advance_period now d)) mod period_ticks d = 0) /\
  now < deadline_ticks (snd (rtds_advance_period now d)) <= Z.max (deadline_ticks d) (now + period_ticks d).
Proof.
  intros Ho Hn. pose proof (rtds_advance_ok now d Ho Hn) as Ha. pose proof Ho as (Hb & Hp & Hr & Hd & Hm & Hl).
  destruct (walk_periods_ok (Z.to_nat (now + 1)) now d) as (k & Hk & E & H1 & H2); [lia|unfold time_ok in Hn; nia|].
  rewrite E. unfold rtds_advance_period in *. destruct (Z.ltb_spec now (deadline_ticks d)).
  - destruct Ha as (_ & _ & _ & _ & _ & _ & Eb & _). cbn.
    assert (k = 0) as -> by (destruct (decide (k = 0)); [done|]; specialize (H2 n); nia). split_and!; try done; lia.
  - destruct Ha as ((_ & _ & _ & _ & Hm' & _) & Hlt & Ep & _ & _ & _ & Eb & Hadv & _).
    destruct (Hadv eq_refl) as [_ Hle]. rewrite Ep in Hm'. cbn [fst snd] in *.
    destruct (Z.eqb_spec k 0) as [->|Hk0]; [lia|]. specialize (H2 Hk0).
    set (dl := u64 (deadline_ticks d + _)) in *. cbn in Hlt, Hle, Hm'.
    assert (dl = deadline_ticks d + k * period_ticks d) as ->.
    { apply Z.mod_divide in Hm'; [|lia]. apply Z.mod_divide in Hm; [|lia].
      destruct Hm' as [a Ea]. destruct Hm as [b Eb']. clearbody dl. subst dl. rewrite Eb' in *.
      clear - Hb Hlt Hle H1 H2. assert (a = b + k) as -> by nia. lia. }
    cbn. split_and!; try done; lia.
Qed.

Definition ex_server (remaining deadline start : Z) (q : sched_rtds_queue) : sched_rtds_data :=
  mk_rtds_data 250000 125000 remaining deadline start q.

Lemma rtds_advance_is_walk_witness :
  walk_periods (Z.to_nat 301) 300 (mk_rtds_data 50 20 3 100 0 RTDS_QUEUE_NONE) =
    Some (snd (rtds_advance_period 300 (mk_rtds_data 50 20 3 100 0 RTDS_QUEUE_NONE))).
Proof.
  apply (rtds_advance_is_walk 300 (mk_rtds_data 50 20 3 100 0 RTDS_QUEUE_NONE));
    unfold server_ok, time_ok, TIME_BOUND; cbn [period_ticks budget_ticks remaining_ticks
      deadline_ticks last_start_ticks]; split_and!; try lia; reflexivity.
Defined.

Definition ex_rtds : sched_rtds_control :=
  mk_rtds [Thread 2] [Thread 4] (handle_init 0 0)
    (<[Thread 1 := ex_server 125000 250000 1000 RTDS_QUEUE_NONE]>
    (<[Thread 2 := ex_server 100000 500000 0 RTDS_QUEUE_READY]>
    (<[Thread 4 := ex_server 0 250000 0 RTDS_QUEUE_DEPLETED]> ∅))).

Lemma ex_rtds_tag t : tag ex_rtds t =
  if decide (t = Thread 2) then RTDS_QUEUE_READY else
  if decide (t = Thread 4) then RTDS_QUEUE_DEPLETED else RTDS_QUEUE_NONE.
Proof.
  unfold tag, data_of, ex_rtds. cbn [data]. rewrite lookup_total_alt.
  destruct (decide (t = Thread 1)) as [->|]; [by vm_compute|].
  destruct (decide (t = Thread 2)) as [->|]; [by vm_compute|].
  destruct (decide (t = Thread 4)) as [->|]; [by vm_compute|].
  by rewrite !lookup_insert_ne, lookup_empty by congruence.
Qed.

Lemma ex_rtds_inv : rtds_inv ex_rtds.
Proof.
  unfold rtds_inv, inv_but, rtds_wf. split_and!; cbn [ready_queue depleted_queue ex_rtds].
  - apply NoDup_singleton.
  - apply NoDup_singleton.
  - intros t. rewrite list_elem_of_singleton, ex_rtds_tag. repeat case_decide; naive_solver.
  - intros t. rewrite list_elem_of_singleton, ex_rtds_tag. repeat case_decide; naive_solver.
  - repeat apply map_Forall_insert_2; try apply map_Forall_empty;
      unfold server_ok, TIME_BOUND; cbn; split_and!; try lia; reflexivity.
  - done.
  - repeat constructor.
  - by intros t ->%list_elem_of_singleton _.
  - by intros t ->%list_elem_of_singleton _.
Qed.

Lemma ex_rtds_view : view_ok (ex_view (Some (Thread 1))) ex_rtds.
Proof.
  split_and!.
  - intros x _. unfold thr. cbn [ex_view v_threads]. unfold ex_threads. rewrite lookup_total_alt.
    destruct (decide (x = Idle 0)) as [->|]; [by vm_compute|].
    destruct (decide (x = Thread 1)) as [->|]; [by vm_compute|].
    destruct (decide (x = Thread 2)) as [->|]; [by vm_compute|].
    destruct (decide (x = Thread 3)) as [->|]; [by vm_compute|].
    destruct (decide (x = Thread 4)) as [->|]; [by vm_compute|].
    by rewrite !lookup_insert_ne, lookup_empty by congruence.
  - intros x. rewrite ex_rtds_tag. repeat case_decide; subst; by vm_compute.
  - intros c [= <-] _. by eexists; vm_compute.
  - done.
Qed.

(** Earliest deadline first, slack last.  [pick_next] returns and keeps the
    invariant.  It first brings every server up to date, which leaves exactly
    the candidates queued, each with a deadline in the future and on the ready
    queue exactly when it has budget.  It then returns a ready server with the
    earliest deadline; only if there is none, a depleted server with the earliest
    deadline; only if there is none either, idle.  Every other candidate stays
    queued, and the local timer is due no later than the end of the chosen
    server's budget and period and the next replenishment of a waiting depleted
    server. *)
Theorem rtds_pick_edf v clk p :
  rtds_inv p -> view_ok v p -> time_ok (clk 0%nat) -> time_ok (clk 1%nat) ->
  0 < clk 0%nat <= clk 1%nat ->
  exists q t p', rtds_refresh_queues v (clk 0%nat) (settle_current v (clk 0%nat) p) = Ret q /\
    (forall x, tag q x <> RTDS_QUEUE_NONE <-> candidate v p x) /\ rtds_inv q /\
    (forall x, tag q x <> RTDS_QUEUE_NONE -> clk 0%nat < deadline_of q x) /\
    sched_rtds_pick_next v clk p = Ret (t, p') /\ rtds_inv p' /\ chosen v q t /\
    (forall x, tag p' x <> RTDS_QUEUE_NONE <-> candidate v p x /\ x <> t) /\
    (t = Idle (v_cpu v) \/
     (candidate v p t /\ (v_pcpu v = v_cpu v -> armed_for q p' t (clk 0%nat) (clk 1%nat)))).
Proof. apply rtds_pick_ok. Qed.

Lemma rtds_pick_edf_witness :
  exists t p', sched_rtds_pick_next (ex_view (Some (Thread 1))) (ex_clock 200000) ex_rtds = Ret (t, p') /\
    rtds_inv p'.
Proof.
  destruct (rtds_pick_edf (ex_view (Some (Thread 1))) (ex_clock 200000) ex_rtds)
    as (q & t & p' & _ & _ & _ & _ & E & Hi & _);
    [exact ex_rtds_inv|exact ex_rtds_view|unfold time_ok, TIME_BOUND, ex_clock; lia..|].
  exists t, p'. split; [exact E|exact Hi].
Defined.

(** No call fails.  In every state reachable from [init] by calls that
    respect what the framework guarantees, the invariant holds (each thread is
    on the queue its [queue] field names, the ready queue is sorted by deadline
    and holds exactly queued servers with budget, deadlines lie on the period
    grids) and every further such call returns: no assertion fails and both
    refresh loops end. *)
Theorem rtds_calls_safe p v clk c :
  rtds_reach p -> call_ok v clk c p ->
  rtds_inv p /\ exists p', run_call v clk c p = Ret p' /\ rtds_reach p'.
Proof.
  intros Hr Hc. pose proof (rtds_reach_inv p Hr) as Hi. split; [done|].
  destruct (rtds_run_ok v clk c p Hi Hc) as (p' & E & _). exists p'. split; [done|].
  by eapply rtds_reach_call.
Qed.

Definition ex_rtds_start : sched_rtds_control := mk_rtds [] [] (handle_init 0 0) ∅.

Lemma rtds_calls_safe_witness :
  rtds_inv ex_rtds_start /\
  exists p', run_call (ex_view None) (ex_clock 1000) (RInitData (Thread 2) ex_params) ex_rtds_start = Ret p' /\
    rtds_reach p'.
Proof.
  apply (rtds_calls_safe ex_rtds_start (ex_view None) (ex_clock 1000) (RInitData (Thread 2) ex_params)).
  - exact (rtds_reach_init (ex_view None) (ex_clock 1) ex_rtds_start ex_rtds_start 0 eq_refl eq_refl).
  - unfold call_ok, time_ok, TIME_BOUND, ex_clock, in_u32, v_khz. cbn. split_and!; try lia; by vm_compute.
Defined.

(** Waking earns no credit.  [wake] returns and keeps the invariant; the
    thread joins the queue its budget calls for.  Woken within its period, it
    has the budget and the deadline it went to sleep with. *)
Theorem rtds_wake_no_credit v clk t p :
  known p t -> time_ok (clk 0%nat) -> rtds_inv p ->
  exists p', sched_rtds_wake v clk t p = Ret p' /\ rtds_inv p' /\
    tag p' t = proper_queue p' t /\ clk 0%nat < deadline_of p' t /\
    (forall x, x <> t -> data_of p' x = data_of p x) /\
    (clk 0%nat < deadline_of p t ->
     deadline_of p' t = deadline_of p t /\ remaining_of p' t = remaining_of p t).
Proof. apply rtds_wake_ok. Qed.

Lemma rtds_wake_no_credit_witness :
  exists p', sched_rtds_wake (ex_view None) (ex_clock 200000) (Thread 1) ex_rtds = Ret p' /\
    remaining_of p' (Thread 1) = 125000.
Proof.
  destruct (rtds_wake_no_credit (ex_view None) (ex_clock 200000) (Thread 1) ex_rtds)
    as (p' & E & _ & _ & _ & _ & H);
    [by eexists; vm_compute|unfold time_ok, TIME_BOUND, ex_clock; lia|exact ex_rtds_inv|].
  exists p'. split; [exact E|]. apply H. by vm_compute.
Defined.

(** Prioritising the current thread after its period has ended moves its
    deadline without moving its place in the ready queue, where a timer tick put
    it.  A thread prioritised next is inserted in front of it, and in front of a
    thread with an earlier deadline that [pick_next] passes over. *)
Definition ex_requeued : sched_rtds_control :=
  mk_rtds [Thread 1; Thread 4; Thread 2] [] (handle_init 0 0)
    (<[Thread 1 := mk_rtds_data 400000 125000 125000 400000 1000 RTDS_QUEUE_READY]>
    (<[Thread 2 := mk_rtds_data 600000 125000 100000 600000 0 RTDS_QUEUE_READY]>
    (<[Thread 4 := mk_rtds_data 500000 125000 125000 500000 0 RTDS_QUEUE_READY]> ∅))).

Theorem rtds_prioritize_breaks_edf :
  let v := ex_view (Some (Thread 1)) in
  StronglySorted (key_le (deadline_of ex_requeued)) (ready_queue ex_requeued) /\
  exists p1 p2 p3,
    sched_rtds_prioritize v (ex_clock 410000) (Thread 1) ex_requeued = Ret p1 /\
    sched_rtds_prioritize v (ex_clock 410001) (Thread 2) p1 = Ret p2 /\
    sched_rtds_pick_next v (ex_clock 410002) p2 = Ret (Thread 2, p3) /\
    Thread 4 ∈ ready_queue p3 /\ deadline_of p3 (Thread 4) < deadline_of p3 (Thread 2).
Proof.
  cbn zeta. split; [repeat constructor; by vm_compute|].
  eexists _, _, _. split_and!; [vm_compute; reflexivity..| |].
  - cbn. qset.
  - by vm_compute.
Qed.
