(* ===== verification/Arinc653.v ===== *)
(** * The fixed-window policy (core/sched/arinc653.c)

    A major frame is divided into windows, each owned by one vCPU; the rest of
    the frame is idle.  The list of the pCPU's vCPUs is kept at pointer level
    here (file [DList]), because [init_data] may run on a thread that is already
    linked. *)
From S2P Require Import Prelude DList Ticks Timer SchedTypes.

Definition SCHED_ARINC653_MAX_ENTRIES : Z := 64.

Record sched_arinc653_entry_config := mk_entry_config {
  c_vm_id : Z;
  c_vcpu_id : Z;
  c_runtime_us : Z }.
#[export] Instance entry_config_inhabited : Inhabited sched_arinc653_entry_config :=
  populate (mk_entry_config 0 0 0).

(** [c_entries] has [SCHED_ARINC653_MAX_ENTRIES] elements. *)
Record sched_arinc653_config := mk_config {
  c_major_frame_us : Z;
  c_entry_count : Z;
  c_entries : list sched_arinc653_entry_config }.

Record sched_arinc653_entry := mk_entry {
  e_vm_id : Z;
  e_vcpu_id : Z;
  e_runtime_us : Z;
  e_runtime_ticks : Z;
  e_obj : option tid }.
#[export] Instance eta_entry : Eta sched_arinc653_entry := fun e =>
  mk_entry (e_vm_id e) (e_vcpu_id e) (e_runtime_us e) (e_runtime_ticks e) (e_obj e).
#[export] Instance entry_inhabited : Inhabited sched_arinc653_entry :=
  populate (mk_entry 0 0 0 0 None).

(** [links] holds the list nodes: [None] is the head [thread_list], [Some t] the
    node in the data of thread [t], whose [obj] field is [t].  [attached] is
    [ctl->priv != NULL]. *)
Record sched_arinc653_control := mk_arinc {
  entries : list sched_arinc653_entry;
  links : list_store (option tid);
  window_timer : timer_handle;
  major_frame_ticks : Z;
  frame_start_ticks : Z;
  next_major_frame_ticks : Z;
  next_switch_ticks : Z;
  timer_deadline_ticks : Z;
  major_frame_us : Z;
  entry_count : Z;
  sched_index : Z;
  suspended : bool;
  attached : bool }.
#[export] Instance eta_arinc : Eta sched_arinc653_control := fun p =>
  mk_arinc (entries p) (links p) (window_timer p) (major_frame_ticks p) (frame_start_ticks p)
    (next_major_frame_ticks p) (next_switch_ticks p) (timer_deadline_ticks p) (major_frame_us p)
    (entry_count p) (sched_index p) (suspended p) (attached p).

(** [entries[i]] *)
Definition entry_at (p : sched_arinc653_control) (i : Z) : sched_arinc653_entry :=
  entries p !!! Z.to_nat i.

Definition owner_test (v : sched_view) (vm vcpu : Z) (n : option tid) : bool :=
  match n with
  | Some t => (vm_id (thr v t) =? vm) && (vcpu_id (thr v t) =? vcpu)
  | None => false
  end.

(** The walk visits each cell of the store at most once when it ends at all. *)
Definition arinc653_find_thread (v : sched_view) (h : list_store (option tid)) (vm vcpu : Z)
    : outcome (option tid) :=
  match list_find (S (size (next h))) (owner_test v vm vcpu) None (next_ptr h None) h with
  | None => Hang "arinc653_find_thread"
  | Some None => Ret None
  | Some (Some node) => Ret node
  end.

(** The first [n] entries get the thread that owns them. *)
Fixpoint resolve_loop (v : sched_view) (h : list_store (option tid)) (n : nat)
    (es : list sched_arinc653_entry) : outcome (list sched_arinc653_entry) :=
  match n, es with
  | S n, e :: es =>
      o ← arinc653_find_thread v h (e_vm_id e) (e_vcpu_id e);
      es ← resolve_loop v h n es;
      Ret (e <| e_obj := o |> :: es)
  | _, _ => Ret es
  end.

Definition arinc653_resolve_entries (v : sched_view) (p : sched_arinc653_control)
    : outcome sched_arinc653_control :=
  es ← resolve_loop v (links p) (Z.to_nat (entry_count p)) (entries p);
  Ret (p <| entries := es |>).

Definition arinc653_start_frame (now : Z) (p : sched_arinc653_control)
    : bool * sched_arinc653_control :=
  if negb (entry_count p =? 0) && negb (major_frame_ticks p =? 0) &&
     (major_frame_ticks p <=? UINT64_MAX - now)
  then (true, p <| frame_start_ticks := now |>
                <| next_major_frame_ticks := u64 (now + major_frame_ticks p) |>
                <| sched_index := 0 |>
                <| next_switch_ticks := u64 (now + e_runtime_ticks (entry_at p 0)) |>)
  else (false, p).

(** The catch-up loop; [steps] counts down from the bound of the source. *)
Fixpoint advance_loop (steps : nat) (now : Z) (p : sched_arinc653_control) : sched_arinc653_control :=
  match steps with
  | O => p
  | S n =>
      if (sched_index p <? entry_count p) && (next_switch_ticks p <=? now) then
        let p := p <| sched_index := u16 (sched_index p + 1) |> in
        advance_loop n now
          (if sched_index p <? entry_count p
           then p <| next_switch_ticks :=
                  u64 (next_switch_ticks p + e_runtime_ticks (entry_at p (sched_index p))) |>
           else p)
      else p
  end.

(** The frame that contains [now]. *)
Definition advance_frame (now : Z) (p : sched_arinc653_control) : bool * sched_arinc653_control :=
  if (next_major_frame_ticks p =? 0) || (now <? frame_start_ticks p) then arinc653_start_frame now p
  else if next_major_frame_ticks p <=? now then
    let remainder := (now - next_major_frame_ticks p) mod major_frame_ticks p in
    let p := p <| frame_start_ticks := now - remainder |> in
    if major_frame_ticks p <=? UINT64_MAX - frame_start_ticks p then
      (true, p <| next_major_frame_ticks := u64 (frame_start_ticks p + major_frame_ticks p) |>
               <| sched_index := 0 |>
               <| next_switch_ticks := u64 (frame_start_ticks p + e_runtime_ticks (entry_at p 0)) |>)
    else (false, p)
  else (true, p).

(** (valid, deadline, control); the deadline is 0 where the source leaves the
    caller's variable alone. *)
Definition arinc653_advance (now : Z) (p : sched_arinc653_control)
    : bool * Z * sched_arinc653_control :=
  if (entry_count p =? 0) || (major_frame_ticks p =? 0) then (false, 0, p)
  else
    let '(valid, p) := advance_frame now p in
    if valid then
      let p := advance_loop (Z.to_nat SCHED_ARINC653_MAX_ENTRIES) now p in
      let deadline := if sched_index p <? entry_count p
                      then next_switch_ticks p else next_major_frame_ticks p in
      (now <? deadline, deadline, p)
    else (false, 0, p).

(** The softirq has unlinked the timer when it calls the handler. *)
Definition arinc653_timer_handler (v : sched_view) (clk : clock) (p : sched_arinc653_control)
    : outcome (bool * sched_arinc653_control) :=
  let p := p <| window_timer := handle_del (window_timer p) |> in
  _ ← ASSERT (v_pcpu v =? v_cpu v) "ARINC653 timer on wrong cpu!";
  Ret (true, p <| timer_deadline_ticks := 0 |>).

Definition arinc653_program_local_timer (v : sched_view) (deadline : Z) (p : sched_arinc653_control)
    : outcome (bool * sched_arinc653_control) :=
  _ ← ASSERT (v_pcpu v =? v_cpu v) "program ARINC653 timer on wrong cpu!";
  if (deadline =? timer_deadline_ticks p) && th_started (window_timer p) then Ret (true, p)
  else
    let p := if th_started (window_timer p)
             then p <| window_timer := handle_del (window_timer p) |> else p in
    let p := p <| timer_deadline_ticks := 0 |> in
    if negb (deadline =? 0) then
      '(ret, h) ← handle_add (v_khz v) (handle_update deadline 0 (window_timer p));
      let p := p <| window_timer := h |> in
      _ ← ASSERT (ret =? 0) "failed to arm ARINC653 window timer!";
      if ret =? 0 then Ret (true, p <| timer_deadline_ticks := deadline |>) else Ret (false, p)
    else Ret (true, p).

Definition entry_valid (khz : Z) (e : sched_arinc653_entry_config) : bool :=
  negb ((c_runtime_us e =? 0) || (us_to_ticks khz (c_runtime_us e) =? 0) ||
        (CONFIG_MAX_VM_NUM <=? c_vm_id e) || (MAX_VCPUS_PER_VM <=? c_vcpu_id e)).

Fixpoint validate_loop (khz major : Z) (es : list sched_arinc653_entry_config) (total : Z) : bool :=
  match es with
  | [] => true
  | e :: es =>
      if entry_valid khz e then
        let total := u64 (total + c_runtime_us e) in
        if total <=? major then validate_loop khz major es total else false
      else false
  end.

(** The frame in ticks of a valid configuration; [None] is a NULL pointer. *)
Definition arinc653_validate_config (khz : Z) (config : option sched_arinc653_config) : option Z :=
  match config with
  | None => None
  | Some c =>
      if (c_major_frame_us c =? 0) || (c_entry_count c =? 0) ||
         (SCHED_ARINC653_MAX_ENTRIES <? c_entry_count c) then None
      else
        let ticks := us_to_ticks khz (c_major_frame_us c) in
        if ticks =? 0 then None
        else if validate_loop khz (c_major_frame_us c) (take (Z.to_nat (c_entry_count c)) (c_entries c)) 0
        then Some ticks else None
  end.

Definition entry_of_config (khz : Z) (e : sched_arinc653_entry_config) : sched_arinc653_entry :=
  mk_entry (c_vm_id e) (c_vcpu_id e) (c_runtime_us e) (us_to_ticks khz (c_runtime_us e)) None.

(** (return code, reschedule request, control).  [is_arinc] is
    [ctl->scheduler == &sched_arinc653]; the view is that of [pcpu]'s control. *)
Definition sched_arinc653_set_schedule (v : sched_view) (clk : clock) (is_arinc : bool) (pcpu : Z)
    (config : option sched_arinc653_config) (p : sched_arinc653_control)
    : outcome (Z * bool * sched_arinc653_control) :=
  if pcpu_nums (v_plat v) <=? pcpu then Ret (- EINVAL, false, p)
  else
    match arinc653_validate_config (v_khz v) config, config with
    | Some ticks, Some c =>
        let now := clk 0%nat in
        if UINT64_MAX - now <? ticks then Ret (- EIO, false, p)
        else if negb is_arinc || negb (attached p) then Ret (- ENODEV, false, p)
        else
          let p := p <| major_frame_us := c_major_frame_us c |>
                     <| major_frame_ticks := ticks |>
                     <| entry_count := c_entry_count c |>
                     <| entries := (fun i => if Z.of_nat i <? c_entry_count c
                                             then entry_of_config (v_khz v) (c_entries c !!! i)
                                             else mk_entry 0 0 0 0 None)
                                   <$> seq 0 (Z.to_nat SCHED_ARINC653_MAX_ENTRIES) |> in
          p ← arinc653_resolve_entries v p;
          let '(started, p) := arinc653_start_frame now p in
          Ret (if started then (0, true, p) else (- EIO, false, p))
    | _, _ => Ret (- EINVAL, false, p)
    end.

(** (return code, configuration read). *)
Definition sched_arinc653_get_schedule (v : sched_view) (is_arinc : bool) (pcpu : Z)
    (config_given : bool) (p : sched_arinc653_control) : Z * option sched_arinc653_config :=
  if (pcpu_nums (v_plat v) <=? pcpu) || negb config_given then (- EINVAL, None)
  else if negb is_arinc || negb (attached p) then (- ENODEV, None)
  else (0, Some (mk_config (major_frame_us p) (entry_count p)
    ((fun i => if Z.of_nat i <? entry_count p
               then let e := entries p !!! i in mk_entry_config (e_vm_id e) (e_vcpu_id e) (e_runtime_us e)
               else mk_entry_config 0 0 0)
     <$> seq 0 (Z.to_nat SCHED_ARINC653_MAX_ENTRIES)))).

Definition sched_arinc653_init (v : sched_view) (clk : clock) (p : sched_arinc653_control)
    : outcome (Z * sched_arinc653_control) :=
  _ ← ASSERT (v_pcpu v =? v_cpu v) "init ARINC653 on wrong cpu!";
  Ret (0, mk_arinc (replicate (Z.to_nat SCHED_ARINC653_MAX_ENTRIES) (mk_entry 0 0 0 0 None))
    (INIT_LIST_HEAD None (links p)) (handle_init 0 0) 0 0 0 0 0 0 0 0 false true).

Definition sched_arinc653_deinit (v : sched_view) (clk : clock) (p : sched_arinc653_control)
    : outcome sched_arinc653_control :=
  _ ← ASSERT (v_pcpu v =? v_cpu v) "deinit ARINC653 on wrong cpu!";
  Ret (p <| window_timer := handle_del (window_timer p) |> <| timer_deadline_ticks := 0 |>
         <| entry_count := 0 |> <| attached := false |>).

Definition sched_arinc653_init_data (v : sched_view) (clk : clock) (t : tid) (prm : sched_params)
    (p : sched_arinc653_control) : outcome sched_arinc653_control :=
  let p := p <| links := INIT_LIST_HEAD (Some t) (links p) |> in
  if is_vcpu (thr v t) then
    arinc653_resolve_entries v (p <| links := list_add_tail (Some t) None (links p) |>)
  else Ret p.

Definition forget (t : tid) (e : sched_arinc653_entry) : sched_arinc653_entry :=
  if bool_decide (e_obj e = Some t) then e <| e_obj := None |> else e.

Definition sched_arinc653_deinit_data (v : sched_view) (clk : clock) (t : tid)
    (p : sched_arinc653_control) : outcome sched_arinc653_control :=
  let p := if negb (list_empty (Some t) (links p))
           then p <| links := list_del_init_ptr (Some t) (links p) |> else p in
  let n := Z.to_nat (entry_count p) in
  Ret (p <| entries := (forget t <$> take n (entries p)) ++ drop n (entries p) |>).

(** The test on the owner of the current window. *)
Definition may_run (v : sched_view) (t : tid) : bool :=
  is_vcpu (thr v t) && (pcpu_id (thr v t) =? v_pcpu v) && negb (be_blocking (thr v t)) &&
  (bool_decide (status (thr v t) = THREAD_STS_RUNNABLE) ||
   bool_decide (status (thr v t) = THREAD_STS_RUNNING)).

Definition sched_arinc653_pick_next (v : sched_view) (clk : clock) (p : sched_arinc653_control)
    : outcome (tid * sched_arinc653_control) :=
  let idle := Idle (v_cpu v) in
  let now := clk 0%nat in
  let '(next, deadline, p) :=
    if suspended p then (idle, 0, p)
    else
      let '(valid, deadline, p) := arinc653_advance now p in
      (if valid && (sched_index p <? entry_count p) then
         match e_obj (entry_at p (sched_index p)) with
         | Some candidate => if may_run v candidate then candidate else idle
         | None => idle
         end
       else idle, deadline, p) in
  r ← arinc653_program_local_timer v deadline p;
  Ret (if fst r : bool then next else idle, snd r).

Definition sched_arinc653_suspend (v : sched_view) (clk : clock) (p : sched_arinc653_control)
    : outcome sched_arinc653_control :=
  _ ← ASSERT (v_pcpu v =? v_cpu v) "suspend ARINC653 on wrong cpu!";
  Ret (p <| window_timer := handle_del (window_timer p) |> <| timer_deadline_ticks := 0 |>
         <| suspended := true |>).

Definition sched_arinc653_resume (v : sched_view) (clk : clock) (p : sched_arinc653_control)
    : outcome (bool * sched_arinc653_control) :=
  _ ← ASSERT (v_pcpu v =? v_cpu v) "resume ARINC653 on wrong cpu!";
  let p := p <| suspended := false |> in
  if negb (entry_count p =? 0) then Ret (true, snd (arinc653_start_frame (clk 0%nat) p))
  else Ret (false, p).

Definition sched_arinc653 : sched_ops sched_arinc653_control :=
  mk_ops sched_arinc653_init (Some sched_arinc653_init_data) (Some sched_arinc653_pick_next)
    None None None (Some sched_arinc653_deinit_data) (Some sched_arinc653_deinit)
    (Some sched_arinc653_suspend) (Some sched_arinc653_resume) (Some arinc653_timer_handler).

(** ** Windows *)
Definition sum (l : list Z) : Z := foldr Z.add 0 l.
Definition ticks (p : sched_arinc653_control) : list Z :=
  e_runtime_ticks <$> take (Z.to_nat (entry_count p)) (entries p).

(** The window that contains the phase: the first one whose end is later, or
    the number of windows in the idle tail. *)
Fixpoint window (l : list Z) (phase : Z) : nat :=
  match l with
  | [] => O
  | x :: l => if phase <? x then O else S (window l (phase - x))
  end.

Lemma sum_app l k : sum (l ++ k) = sum l + sum k.
Proof. unfold sum. induction l as [|x l IH]; cbn in *; lia. Qed.

Lemma sum_pos l : Forall (fun x => 0 < x) l -> 0 <= sum l.
Proof. unfold sum. induction 1; cbn; lia. Qed.

(** A position is the window of a phase when the phase lies between the sums
    before and after it. *)
Lemma window_spec l phase n :
  Forall (fun x => 0 < x) l -> (n <= length l)%nat -> sum (take n l) <= phase ->
  ((n < length l)%nat -> phase < sum (take (S n) l)) -> window l phase = n.
Proof.
  unfold sum. revert phase n. induction l as [|x l IH]; intros phase n Hp Hn H1 H2; cbn in *; [lia|].
  apply Forall_cons in Hp as [Hx Hp]. destruct n as [|n]; cbn in *.
  - rewrite take_0 in H2. cbn in H2. destruct (Z.ltb_spec phase x); [done|]. lia.
  - assert (0 <= foldr Z.add 0 (take n l)) by (apply (sum_pos (take n l)); by apply Forall_take).
    destruct (Z.ltb_spec phase x); [lia|]. f_equal. apply IH; [done|lia|lia|]. intros Hlt.
    cbn in H2. specialize (H2 ltac:(lia)). lia.
Qed.

(** A schedule that [set_schedule] accepts. *)
Definition sched_ok (p : sched_arinc653_control) : Prop :=
  length (entries p) = 64%nat /\ 0 < entry_count p <= 64 /\
  Forall (fun x => 0 < x) (ticks p) /\ sum (ticks p) <= major_frame_ticks p /\
  0 < major_frame_ticks p <= 2 ^ 55.

(** The frame in progress at time [last], for a schedule started at [origin]. *)
Definition frame_ok (origin last : Z) (p : sched_arinc653_control) : Prop :=
  0 <= origin <= frame_start_ticks p /\ frame_start_ticks p <= last /\
  (frame_start_ticks p - origin) mod major_frame_ticks p = 0 /\
  next_major_frame_ticks p = frame_start_ticks p + major_frame_ticks p /\
  0 <= sched_index p <= entry_count p /\
  next_switch_ticks p = frame_start_ticks p + sum (take (S (Z.to_nat (sched_index p))) (ticks p)) /\
  frame_start_ticks p + sum (take (Z.to_nat (sched_index p)) (ticks p)) <= last.

Definition TIME_BOUND : Z := 2 ^ 63.

Definition same_schedule (p p' : sched_arinc653_control) : Prop :=
  entries p' = entries p /\ entry_count p' = entry_count p /\ major_frame_ticks p' = major_frame_ticks p /\
  links p' = links p /\ window_timer p' = window_timer p /\ suspended p' = suspended p /\
  timer_deadline_ticks p' = timer_deadline_ticks p /\ attached p' = attached p /\ major_frame_us p' = major_frame_us p.

Lemma same_schedule_trans p q r : same_schedule p q -> same_schedule q r -> same_schedule p r.
Proof. unfold same_schedule. intuition congruence. Qed.

Lemma same_schedule_ok p p' : same_schedule p p' -> sched_ok p -> sched_ok p'.
Proof. intros (E1 & E2 & E3 & _). unfold sched_ok, ticks. by rewrite E1, E2, E3. Qed.

Lemma ticks_length p : sched_ok p -> length (ticks p) = Z.to_nat (entry_count p).
Proof.
  intros (Hl & Hc & _). unfold ticks. rewrite length_fmap, length_take. lia.
Qed.

Lemma ticks_lookup p i :
  sched_ok p -> 0 <= i < entry_count p ->
  ticks p !! Z.to_nat i = Some (e_runtime_ticks (entry_at p i)).
Proof.
  intros (Hl & Hc & _) Hi. unfold ticks, entry_at. rewrite list_lookup_fmap, lookup_take_lt by lia.
  destruct (lookup_lt_is_Some_2 (entries p) (Z.to_nat i)) as [e E]; [lia|].
  rewrite E. cbn. f_equal. by rewrite (list_lookup_total_correct _ _ _ E).
Qed.

Lemma sum_take_S l n x : l !! n = Some x -> sum (take (S n) l) = sum (take n l) + x.
Proof. intros E. rewrite (take_S_r _ _ _ E), sum_app. unfold sum. cbn. lia. Qed.

Lemma sum_take_le l n : Forall (fun x => 0 < x) l -> 0 <= sum (take n l) <= sum l.
Proof.
  intros Hp. rewrite <- (take_drop n l) at 3. rewrite sum_app.
  pose proof (sum_pos (take n l) (Forall_take _ _ _ Hp)).
  pose proof (sum_pos (drop n l) (Forall_drop _ _ _ Hp)). lia.
Qed.

(** Starting a frame. *)
Lemma start_frame_ok now p :
  sched_ok p -> 0 <= now < TIME_BOUND ->
  exists p', arinc653_start_frame now p = (true, p') /\ frame_ok now now p' /\ same_schedule p p' /\
    next_major_frame_ticks p' = now + major_frame_ticks p.
Proof.
  intros Ho Hn. pose proof Ho as (Hl & Hc & Hp & Hs & Hm). unfold TIME_BOUND in Hn.
  unfold arinc653_start_frame. destruct (Z.eqb_spec (entry_count p) 0); [lia|].
  destruct (Z.eqb_spec (major_frame_ticks p) 0); [lia|].
  destruct (Z.leb_spec (major_frame_ticks p) (UINT64_MAX - now)); [|lia]. cbn [negb andb].
  eexists. split; [done|]. pose proof (ticks_lookup p 0 Ho ltac:(lia)) as E0.
  pose proof (sum_take_S (ticks p) 0 _ E0) as E1. pose proof (sum_take_le (ticks p) 1 Hp).
  rewrite take_0 in E1. change (sum []) with 0 in E1.
  rewrite (u64_small (now + major_frame_ticks p)) by (unfold in_u64; lia).
  rewrite (u64_small (now + e_runtime_ticks _)) by (unfold in_u64; lia).
  split; [|done]. unfold frame_ok. split_and!; cbn; try lia.
  - by rewrite Z.sub_diag, Z.mod_0_l by lia.
  - change (now + e_runtime_ticks (entry_at p 0) = now + sum (take 1 (ticks p))). lia.
  - change (now + sum (take 0 (ticks p)) <= now). rewrite take_0. change (sum []) with 0. lia.
Qed.

(** The frame that contains [now]: whole major frames are skipped, so frames
    never drift from [origin]. *)
Lemma advance_frame_ok origin last now p :
  sched_ok p -> frame_ok origin last p -> last <= now < TIME_BOUND ->
  exists p', advance_frame now p = (true, p') /\ frame_ok origin now p' /\ same_schedule p p' /\
    now < next_major_frame_ticks p'.
Proof.
  intros Ho (Hor & Hfs & Hdr & Hnm & Hidx & Hns & Hpre) Hn. pose proof Ho as (Hl & Hc & Hp & Hs & Hm).
  unfold TIME_BOUND in Hn. unfold advance_frame. destruct (Z.eqb_spec (next_major_frame_ticks p) 0); [lia|].
  destruct (Z.ltb_spec now (frame_start_ticks p)); [lia|]. cbn [orb].
  destruct (Z.leb_spec (next_major_frame_ticks p) now) as [Hge|Hlt].
  2: { exists p. split; [done|]. split_and!; try done; unfold frame_ok; split_and!; try done; lia. }
  set (r := (now - next_major_frame_ticks p) mod major_frame_ticks p).
  assert (0 <= r < major_frame_ticks p) as Hr by (apply Z.mod_pos_bound; lia).
  assert (next_major_frame_ticks p <= now - r) as Hfs'.
  { pose proof (Z.mod_le (now - next_major_frame_ticks p) (major_frame_ticks p)). lia. }
  assert ((now - r - origin) mod major_frame_ticks p = 0) as Hdr'.
  { apply Z.mod_divide in Hdr as [k Ek]; [|lia]. apply Z.mod_divide; [lia|].
    pose proof (Z.div_mod (now - next_major_frame_ticks p) (major_frame_ticks p) ltac:(lia)) as Ed. fold r in Ed.
    exists (k + 1 + (now - next_major_frame_ticks p) / major_frame_ticks p). lia. }
  clearbody r. set (p1 := p <| frame_start_ticks := now - r |>).
  assert (entry_at p1 0 = entry_at p 0) as -> by done.
  assert (major_frame_ticks p1 = major_frame_ticks p) as -> by done.
  assert (frame_start_ticks p1 = now - r) as -> by done.
  pose proof (ticks_lookup p 0 Ho ltac:(lia)) as E0. pose proof (sum_take_S (ticks p) 0 _ E0) as E1.
  pose proof (sum_take_le (ticks p) 1 Hp). rewrite take_0 in E1. change (sum []) with 0 in E1. cbn.
  destruct (Z.leb_spec (major_frame_ticks p) (UINT64_MAX - (now - r))); [|lia]. eexists. split; [done|].
  rewrite (u64_small (now - r + major_frame_ticks p)) by (unfold in_u64; lia).
  rewrite (u64_small (now - r + e_runtime_ticks _)) by (unfold in_u64; lia).
  split; [|split; [done|cbn; lia]]. unfold frame_ok. split_and!; cbn; try lia.
  - change (now - r + e_runtime_ticks (entry_at p 0) = now - r + sum (take 1 (ticks p))). lia.
  - change (now - r + sum (take 0 (ticks p)) <= now). rewrite take_0. change (sum []) with 0. lia.
Qed.

(** One step of the catch-up loop: the next window begins where this one ends. *)
Definition next_window (p : sched_arinc653_control) : sched_arinc653_control :=
  let p := p <| sched_index := u16 (sched_index p + 1) |> in
  if sched_index p <? entry_count p
  then p <| next_switch_ticks :=
         u64 (next_switch_ticks p + e_runtime_ticks (entry_at p (sched_index p))) |>
  else p.

Lemma arinc_next_window_ok origin now p :
  sched_ok p -> frame_ok origin now p -> now < TIME_BOUND ->
  sched_index p < entry_count p -> next_switch_ticks p <= now ->
  let p' := next_window p in
  frame_ok origin now p' /\ same_schedule p p' /\ sched_index p' = sched_index p + 1 /\
  frame_start_ticks p' = frame_start_ticks p /\ next_major_frame_ticks p' = next_major_frame_ticks p.
Proof.
  intros Ho (Hor & Hfs & Hdr & Hnm & Hidx & Hns & Hpre) Hn Hi Hsw. cbn zeta. unfold next_window.
  pose proof Ho as (Hl & Hc & Hp & Hs & Hm). pose proof (ticks_length p Ho) as Hlen.
  assert (u16 (sched_index p + 1) = sched_index p + 1) as ->.
  { unfold u16. apply Z.mod_small. lia. }
  set (p1 := p <| sched_index := sched_index p + 1 |>). unfold TIME_BOUND in Hn.
  assert (entry_count p1 = entry_count p) as -> by done.
  assert (sched_index p1 = sched_index p + 1) as -> by done.
  assert (entry_at p1 (sched_index p + 1) = entry_at p (sched_index p + 1)) as -> by done.
  assert (next_switch_ticks p1 = next_switch_ticks p) as -> by done.
  assert (Z.to_nat (sched_index p + 1) = S (Z.to_nat (sched_index p))) as En by lia.
  destruct (Z.ltb_spec (sched_index p + 1) (entry_count p)).
  - pose proof (ticks_lookup p (sched_index p + 1) Ho ltac:(lia)) as E0. rewrite En in E0.
    pose proof (sum_take_S (ticks p) _ _ E0) as E1. pose proof (sum_take_le (ticks p) (S (S (Z.to_nat (sched_index p)))) Hp).
    rewrite u64_small by (unfold in_u64; lia). split; [|done]. unfold frame_ok. split_and!; cbn; try lia.
    + change (next_switch_ticks p + e_runtime_ticks (entry_at p (sched_index p + 1)) =
        frame_start_ticks p + sum (take (S (Z.to_nat (sched_index p + 1))) (ticks p))). rewrite En. lia.
    + change (frame_start_ticks p + sum (take (Z.to_nat (sched_index p + 1)) (ticks p)) <= now). rewrite En. lia.
  - split; [|done]. unfold frame_ok. split_and!; cbn; try lia.
    + change (next_switch_ticks p = frame_start_ticks p + sum (take (S (Z.to_nat (sched_index p + 1))) (ticks p))).
      rewrite Hns, En, !take_ge by lia. done.
    + change (frame_start_ticks p + sum (take (Z.to_nat (sched_index p + 1)) (ticks p)) <= now). rewrite En. lia.
Qed.

(** The catch-up loop stops at the window that contains [now]. *)
Lemma advance_loop_ok origin now : forall steps p,
  sched_ok p -> frame_ok origin now p -> now < TIME_BOUND ->
  entry_count p - sched_index p <= Z.of_nat steps ->
  let p' := advance_loop steps now p in
  frame_ok origin now p' /\ same_schedule p p' /\
  frame_start_ticks p' = frame_start_ticks p /\ next_major_frame_ticks p' = next_major_frame_ticks p /\
  (sched_index p' < entry_count p' -> now < next_switch_ticks p').
Proof.
  induction steps as [|steps IH]; intros p Ho Hf Hn Hst; cbn zeta; cbn [advance_loop].
  { split_and!; try done. lia. }
  destruct (Z.ltb_spec (sched_index p) (entry_count p)) as [Hi|]; [|cbn [andb]; split_and!; try done; lia].
  destruct (Z.leb_spec (next_switch_ticks p) now) as [Hsw|]; [|cbn [andb]; by split_and!]. cbn [andb].
  destruct (arinc_next_window_ok origin now p Ho Hf Hn Hi Hsw) as (Hf1 & S1 & I1 & F1 & N1).
  fold (next_window p). set (p1 := next_window p) in *. clearbody p1.
  pose proof S1 as (_ & C1 & _).
  destruct (IH p1) as (Hf2 & S2 & F2 & N2 & D2); [by apply (same_schedule_ok p)|done|done|lia|].
  split_and!; [done|by apply (same_schedule_trans _ p1)|congruence|congruence|done].
Qed.

(** The index is the window of the phase. *)
Lemma frame_window origin now p :
  sched_ok p -> frame_ok origin now p -> now < next_major_frame_ticks p ->
  (sched_index p < entry_count p -> now < next_switch_ticks p) ->
  Z.to_nat (sched_index p) = window (ticks p) ((now - origin) mod major_frame_ticks p).
Proof.
  intros Ho (Hor & Hfs & Hdr & Hnm & Hidx & Hns & Hpre) Hlt Hsw. pose proof Ho as (Hl & Hc & Hp & Hs & Hm).
  assert ((now - origin) mod major_frame_ticks p = now - frame_start_ticks p) as ->.
  { apply Z.mod_divide in Hdr as [k Ek]; [|lia].
    symmetry. apply (Z.mod_unique_pos _ _ k); lia. }
  symmetry. apply window_spec; [done|rewrite ticks_length by done; lia|lia|].
  rewrite ticks_length by done. intros Hn. specialize (Hsw ltac:(lia)). lia.
Qed.

Lemma arinc_advance_ok origin last now p :
  sched_ok p -> frame_ok origin last p -> last <= now < TIME_BOUND ->
  exists p', let i := sched_index p' in
    arinc653_advance now p =
      (true, frame_start_ticks p' + (if i <? entry_count p then sum (take (S (Z.to_nat i)) (ticks p))
                                     else major_frame_ticks p), p') /\
    frame_ok origin now p' /\ same_schedule p p' /\ now < next_major_frame_ticks p' /\
    Z.to_nat i = window (ticks p) ((now - origin) mod major_frame_ticks p) /\
    now < frame_start_ticks p' + (if i <? entry_count p then sum (take (S (Z.to_nat i)) (ticks p))
                                  else major_frame_ticks p).
Proof.
  intros Ho Hf Hn. destruct (advance_frame_ok origin last now p Ho Hf Hn) as (p1 & E1 & Hf1 & S1 & L1).
  pose proof (same_schedule_ok p p1 S1 Ho) as Ho1. pose proof Ho1 as (_ & Hc1 & _).
  destruct (advance_loop_ok origin now (Z.to_nat SCHED_ARINC653_MAX_ENTRIES) p1 Ho1 Hf1) as (Hf2 & S2 & F2 & N2 & D2);
    [lia|destruct Hf1 as (_ & _ & _ & _ & ? & _); unfold SCHED_ARINC653_MAX_ENTRIES; lia|].
  set (p2 := advance_loop _ now p1) in *. exists p2. cbn zeta.
  pose proof (same_schedule_trans p p1 p2 S1 S2) as S3. pose proof (same_schedule_ok p p2 S3 Ho) as Ho2.
  rewrite <- N2 in L1. pose proof (frame_window origin now p2 Ho2 Hf2 L1 D2) as Hw.
  assert (ticks p2 = ticks p /\ entry_count p2 = entry_count p /\ major_frame_ticks p2 = major_frame_ticks p)
    as (Et & Ec & Em) by (destruct S3 as (E1' & E2 & E3 & _); unfold ticks; by rewrite E1', E2).
  unfold arinc653_advance. destruct Ho as (_ & Hc & _ & _ & Hm).
  destruct (Z.eqb_spec (entry_count p) 0); [lia|]. destruct (Z.eqb_spec (major_frame_ticks p) 0); [lia|].
  cbn [orb]. rewrite E1. fold p2. rewrite Et, Em in Hw. rewrite Ec in *.
  pose proof Hf2 as (_ & _ & _ & Hnm & _ & Hns & _). rewrite Et in Hns. rewrite Em in Hnm. rewrite Hnm, Hns in *.
  destruct (Z.ltb_spec (sched_index p2) (entry_count p)) as [Hi|Hi].
  - specialize (D2 Hi). destruct (Z.ltb_spec now (frame_start_ticks p2 + sum (take (S (Z.to_nat (sched_index p2))) (ticks p)))); [|lia].
    by split_and!.
  - destruct (Z.ltb_spec now (frame_start_ticks p2 + major_frame_ticks p)); [|lia]. by split_and!.
Qed.

Definition timer_ok (p : sched_arinc653_control) : Prop := func (th_timer (window_timer p)) = true.
Definition armed (p : sched_arinc653_control) (when : Z) : Prop :=
  th_started (window_timer p) = true /\ timer_deadline_ticks p = when.

Lemma arinc_program_timer_ok v deadline p :
  v_pcpu v = v_cpu v -> timer_ok p ->
  exists p', arinc653_program_local_timer v deadline p = Ret (true, p') /\ timer_ok p' /\
    entries p' = entries p /\ entry_count p' = entry_count p /\ links p' = links p /\
    major_frame_ticks p' = major_frame_ticks p /\ frame_start_ticks p' = frame_start_ticks p /\
    next_major_frame_ticks p' = next_major_frame_ticks p /\ next_switch_ticks p' = next_switch_ticks p /\
    sched_index p' = sched_index p /\ suspended p' = suspended p /\ (deadline <> 0 -> armed p' deadline).
Proof.
  intros Hv Ht. unfold arinc653_program_local_timer. rewrite Hv, Z.eqb_refl. cbn [ASSERT mbind outcome_bind].
  destruct ((deadline =? timer_deadline_ticks p) && th_started (window_timer p)) eqn:E.
  { apply andb_true_iff in E as [E1%Z.eqb_eq E2]. exists p. by split_and!. }
  set (p1 := (if th_started (window_timer p) then _ else p) <| timer_deadline_ticks := 0 |>).
  assert (th_started (window_timer p1) = false /\ timer_ok p1) as [S1 T1].
  { subst p1. destruct (th_started (window_timer p)) eqn:Es; by cbn. }
  assert (entries p1 = entries p /\ entry_count p1 = entry_count p /\ links p1 = links p /\
    major_frame_ticks p1 = major_frame_ticks p /\ frame_start_ticks p1 = frame_start_ticks p /\
    next_major_frame_ticks p1 = next_major_frame_ticks p /\ next_switch_ticks p1 = next_switch_ticks p /\
    sched_index p1 = sched_index p /\ suspended p1 = suspended p) as Hs.
  { subst p1. by destruct (th_started (window_timer p)). }
  clearbody p1. destruct (Z.eqb_spec deadline 0); cbn [negb].
  { exists p1. split_and!; try done; apply Hs. }
  unfold handle_add, handle_update, set_mode. cbn. unfold timer_ok in T1. rewrite T1, S1.
  destruct (Z.eqb_spec deadline 0); [done|]. cbn. eexists. split; [done|]. unfold timer_ok, armed. cbn.
  rewrite ?T1. split_and!; try done; apply Hs.
Qed.

(** ** Owners *)

(** The thread the window at phase [phase] belongs to. *)
Definition owner (p : sched_arinc653_control) (phase : Z) : option tid :=
  let i := window (ticks p) phase in
  if Z.of_nat i <? entry_count p then e_obj (entries p !!! i) else None.

Definition owner_or_idle (v : sched_view) (p : sched_arinc653_control) (phase : Z) : tid :=
  match owner p phase with
  | Some t => if may_run v t then t else Idle (v_cpu v)
  | None => Idle (v_cpu v)
  end.

Lemma arinc_pick_ok origin last v clk p :
  sched_ok p -> frame_ok origin last p -> last <= clk 0%nat < TIME_BOUND ->
  v_pcpu v = v_cpu v -> timer_ok p -> suspended p = false ->
  exists p', sched_arinc653_pick_next v clk p =
      Ret (owner_or_idle v p ((clk 0%nat - origin) mod major_frame_ticks p), p') /\
    sched_ok p' /\ frame_ok origin (clk 0%nat) p' /\ timer_ok p' /\ suspended p' = false /\
    entries p' = entries p /\ entry_count p' = entry_count p /\ links p' = links p /\
    major_frame_ticks p' = major_frame_ticks p /\
    exists deadline, armed p' deadline /\ clk 0%nat < deadline <= clk 0%nat + major_frame_ticks p.
Proof.
  intros Ho Hf Hn Hv Ht Hs. unfold sched_arinc653_pick_next. rewrite Hs.
  destruct (arinc_advance_ok origin last (clk 0%nat) p Ho Hf Hn) as (p1 & E & Hf1 & S1 & L1 & W & D). rewrite E.
  set (d := frame_start_ticks p1 + _) in *.
  assert (timer_ok p1) as Ht1 by (unfold timer_ok; destruct S1 as (_ & _ & _ & _ & -> & _); done).
  destruct (arinc_program_timer_ok v d p1 Hv Ht1) as (p' & Ep & T' & E1 & E2 & E3 & E4 & E5 & E6 & E7 & E8 & E9 & Ha).
  rewrite Ep. cbn [mbind outcome_bind fst snd].
  pose proof S1 as (Se & Sc & Sm & Sl & _ & Ssu & _). pose proof Ho as (_ & Hc & Hp & Hsum & Hm).
  exists p'. split_and!; try congruence; try done.
  - unfold owner_or_idle, owner. rewrite <- W. pose proof Hf1 as (_ & _ & _ & _ & Hi & _).
    rewrite Z2Nat.id by lia. rewrite Sc. cbn [andb]. destruct (sched_index p1 <? entry_count p); [|done].
    unfold entry_at. by rewrite Se.
  - unfold sched_ok, ticks. rewrite E1, E2, E4, Se, Sc, Sm. exact Ho.
  - unfold frame_ok, ticks in *. rewrite E1, E2, E4, E5, E6, E7, E8. exact Hf1.
  - exists d. split; [apply Ha; pose proof Hf1 as (? & ? & _); lia|]. split; [done|].
    pose proof Hf1 as (_ & ? & _). pose proof (sum_take_le (ticks p) (S (Z.to_nat (sched_index p1))) Hp).
    subst d. destruct (_ <? _); lia.
Qed.

(** ** The thread list *)
Lemma chain_cells (h : list_store (option tid)) a l b :
  chain h a l b -> forall x, x ∈ a :: l -> x ∈ dom (next h).
Proof.
  revert a. induction l as [|y l IH]; intros a Hc x Hx; cbn in Hc.
  - apply list_elem_of_singleton in Hx as ->. destruct Hc as [Hn _]. by eapply elem_of_dom_2.
  - destruct Hc as [[Hn _] Hc]. apply elem_of_cons in Hx as [->|Hx]; [by eapply elem_of_dom_2|].
    by eapply IH.
Qed.

(** On a well-formed list the search ends and returns the first thread with the
    wanted identity. *)
Lemma find_thread_ok v h l vm vcpu :
  represents h None l ->
  arinc653_find_thread v h vm vcpu = Ret (default None (find (owner_test v vm vcpu) l)).
Proof.
  intros Hr. pose proof Hr as [Hnd Hc]. unfold arinc653_find_thread.
  rewrite (chain_next _ _ _ _ Hc), (list_find_refines _ _ _ _ [] l Hr).
  - by destruct (find _ l).
  - assert (list_to_set (None :: l) ⊆ dom (next h)) as Hsub.
    { intros x Hx. apply (chain_cells h None l None Hc). by apply elem_of_list_to_set in Hx. }
    apply subseteq_size in Hsub. rewrite size_list_to_set, size_dom in Hsub by done. cbn in Hsub. lia.
Qed.

(** The owner recorded for an entry has the identity the entry names. *)
Definition owners_ok (v : sched_view) (es : list sched_arinc653_entry) : Prop :=
  Forall (fun e => forall t, e_obj e = Some t ->
    vm_id (thr v t) = e_vm_id e /\ vcpu_id (thr v t) = e_vcpu_id e) es.

Lemma resolve_loop_ok v h l n : forall es,
  represents h None l ->
  exists es', resolve_loop v h n es = Ret es' /\ length es' = length es /\
    e_runtime_ticks <$> es' = e_runtime_ticks <$> es /\ e_vm_id <$> es' = e_vm_id <$> es /\
    e_vcpu_id <$> es' = e_vcpu_id <$> es /\ e_runtime_us <$> es' = e_runtime_us <$> es /\
    owners_ok v (take n es') /\ drop n es' = drop n es.
Proof.
  induction n as [|n IH]; intros [|e es] Hr; cbn [resolve_loop]; try (eexists; split_and!; try done; constructor).
  rewrite (find_thread_ok v h l) by done. cbn [mbind outcome_bind].
  destruct (IH es Hr) as (es' & -> & El & E1 & E2 & E3 & E4 & Ho & Ed). cbn [mbind outcome_bind].
  eexists. split; [done|]. cbn. rewrite El, E1, E2, E3, E4. split_and!; try done.
  constructor; [|done]. cbn. intros t Et. destruct (find _ l) as [x|] eqn:Ef; cbn in Et; [|done]. subst x.
  apply List.find_some in Ef as [_ Ef]. cbn in Ef. apply andb_true_iff in Ef as [?%Z.eqb_eq ?%Z.eqb_eq]. done.
Qed.

(** ** Loading a schedule *)
Lemma validate_loop_ok khz major : forall es total,
  in_u32 khz -> in_u32 major -> 0 <= total <= major -> Forall (fun e => in_u32 (c_runtime_us e)) es ->
  validate_loop khz major es total = true ->
  total + sum (c_runtime_us <$> es) <= major /\ Forall (fun e => 0 < us_to_ticks khz (c_runtime_us e)) es.
Proof.
  induction es as [|e es IH]; intros total Hk Hm Ht He Hv; cbn in *; [split; [lia|constructor]|].
  apply Forall_cons in He as [He Hes]. destruct (entry_valid khz e) eqn:Ev; [|done].
  unfold entry_valid in Ev. apply negb_true_iff in Ev. rewrite !orb_false_iff, !Z.eqb_neq in Ev.
  destruct Ev as [[[Ev0 Ev1] _] _]. unfold in_u32 in *.
  rewrite u64_small in Hv by (unfold in_u64; lia).
  destruct (Z.leb_spec (total + c_runtime_us e) major); [|done].
  destruct (IH (total + c_runtime_us e)) as [H1 H2]; try done; [lia|]. split; [unfold sum in *; cbn; lia|].
  constructor; [|done]. pose proof (us_to_ticks_range khz (c_runtime_us e) Hk He) as Hr. unfold in_u64 in Hr. lia.
Qed.

(** Rounding each window down keeps the sum within the frame. *)
Lemma sum_ticks_le khz l :
  in_u32 khz -> Forall in_u32 l -> in_u32 (sum l) ->
  sum (us_to_ticks khz <$> l) <= us_to_ticks khz (sum l).
Proof.
  intros Hk Hl Hs. induction Hl as [|x l Hx Hl IH]; [cbn; by rewrite us_to_ticks_nowrap by done|].
  assert (0 <= sum l) as Hp.
  { clear - Hl. unfold sum. induction Hl; cbn; unfold in_u32 in *; lia. }
  assert (in_u32 (sum l)) as Hsl by (unfold in_u32, sum in *; cbn in Hs; lia).
  specialize (IH Hsl). change (sum (us_to_ticks khz <$> x :: l)) with (us_to_ticks khz x + sum (us_to_ticks khz <$> l)).
  change (sum (x :: l)) with (x + sum l) in *.
  pose proof (us_to_ticks_superadd khz x (sum l) Hk Hx Hsl Hs). lia.
Qed.

Definition config_ok (c : sched_arinc653_config) : Prop :=
  length (c_entries c) = 64%nat /\ in_u32 (c_major_frame_us c) /\ 0 <= c_entry_count c /\
  Forall (fun e => in_u32 (c_runtime_us e)) (c_entries c).

Lemma seq_lookup (i n : nat) : (i < n)%nat -> seq 0 n !! i = Some i.
Proof. intros. by rewrite lookup_seq_lt by done. Qed.

Lemma loaded_ticks khz n (ces : list sched_arinc653_entry_config) :
  length ces = 64%nat -> 0 <= n <= 64 ->
  let es := (fun i => if Z.of_nat i <? n then entry_of_config khz (ces !!! i) else mk_entry 0 0 0 0 None)
            <$> seq 0 64 in
  length es = 64%nat /\
  e_runtime_ticks <$> take (Z.to_nat n) es = us_to_ticks khz <$> (c_runtime_us <$> take (Z.to_nat n) ces) /\
  (forall i, (Z.of_nat i < n) -> es !!! i = entry_of_config khz (ces !!! i)).
Proof.
  intros Hl Hn. cbn zeta. set (f := fun i : nat => if Z.of_nat i <? n then _ else _).
  assert (forall i, (i < 64)%nat -> (f <$> seq 0 64) !! i = Some (f i)) as Hlk.
  { intros i Hi. rewrite list_lookup_fmap, seq_lookup by done. done. }
  split; [by rewrite length_fmap, length_seq|]. split.
  - apply list_eq. intros i. rewrite !list_lookup_fmap. destruct (decide (i < Z.to_nat n)%nat).
    + rewrite !lookup_take_lt by done. rewrite Hlk by lia. subst f. cbn.
      destruct (Z.ltb_spec (Z.of_nat i) n); [|lia].
      destruct (lookup_lt_is_Some_2 ces i) as [e E]; [lia|]. rewrite E. cbn.
      by rewrite (list_lookup_total_correct _ _ _ E).
    + by rewrite !lookup_take_ge by lia.
  - intros i Hi. assert (i < 64)%nat as Hi' by lia. apply Hlk, list_lookup_total_correct in Hi'.
    rewrite Hi'. subst f. cbn.
    by destruct (Z.ltb_spec (Z.of_nat i) n); [|lia].
Qed.

(** What [get_schedule] gives back: the configuration with the entries after
    [entry_count] cleared. *)
Definition trimmed (c : sched_arinc653_config) : sched_arinc653_config :=
  mk_config (c_major_frame_us c) (c_entry_count c)
    ((fun i => if Z.of_nat i <? c_entry_count c then c_entries c !!! i else mk_entry_config 0 0 0) <$> seq 0 64).

(** Resolving the owners of an accepted schedule and starting its frame. *)
Lemma load_ok v now p l :
  sched_ok p -> represents (links p) None l -> 0 <= now < TIME_BOUND ->
  exists p1 p', arinc653_resolve_entries v p = Ret p1 /\ arinc653_start_frame now p1 = (true, p') /\
    sched_ok p' /\ frame_ok now now p' /\ owners_ok v (take (Z.to_nat (entry_count p')) (entries p')) /\
    e_vm_id <$> entries p' = e_vm_id <$> entries p /\ e_vcpu_id <$> entries p' = e_vcpu_id <$> entries p /\
    e_runtime_us <$> entries p' = e_runtime_us <$> entries p /\
    major_frame_ticks p' = major_frame_ticks p /\ entry_count p' = entry_count p /\
    major_frame_us p' = major_frame_us p /\ links p' = links p /\
    window_timer p' = window_timer p /\ suspended p' = suspended p /\ attached p' = attached p.
Proof.
  intros (Hl & Hc & Hp & Hs & Hm) Hr Hn. unfold arinc653_resolve_entries.
  destruct (resolve_loop_ok v (links p) l (Z.to_nat (entry_count p)) (entries p) Hr)
    as (es' & -> & El & E1 & E2 & E3 & E4 & Ow & _). cbn [mbind outcome_bind].
  set (p1 := p <| entries := es' |>). exists p1.
  assert (ticks p1 = ticks p) as Et by (unfold ticks; rewrite !fmap_take; by cbn; rewrite E1).
  assert (sched_ok p1) as Ho1.
  { unfold sched_ok. rewrite Et. split_and!; try done; [by rewrite <- Hl|apply Hc|apply Hc|apply Hm|apply Hm]. }
  destruct (start_frame_ok now p1 Ho1 Hn) as (p' & Ef & Hf & S1 & _). exists p'.
  pose proof (same_schedule_ok p1 p' S1 Ho1) as Ho'. destruct S1 as (-> & -> & -> & -> & -> & -> & _ & -> & ->).
  by split_and!.
Qed.

Lemma validate_config_ok khz c frame :
  config_ok c -> in_u32 khz -> arinc653_validate_config khz (Some c) = Some frame ->
  frame = us_to_ticks khz (c_major_frame_us c) /\ 0 < frame <= 2 ^ 55 /\ 0 < c_entry_count c <= 64 /\
  let l := us_to_ticks khz <$> (c_runtime_us <$> take (Z.to_nat (c_entry_count c)) (c_entries c)) in
  Forall (fun x => 0 < x) l /\ sum l <= frame.
Proof.
  intros (Hl & Hmaj & Hcnt & Hes) Hk Ev. unfold arinc653_validate_config, SCHED_ARINC653_MAX_ENTRIES in Ev.
  destruct (Z.eqb_spec (c_major_frame_us c) 0); [done|]. destruct (Z.eqb_spec (c_entry_count c) 0); [done|].
  destruct (Z.ltb_spec 64 (c_entry_count c)); [done|]. cbn [orb] in Ev.
  destruct (Z.eqb_spec (us_to_ticks khz (c_major_frame_us c)) 0) as [|Hne]; [done|].
  destruct (validate_loop _ _ _ _) eqn:Vl; [|done]. injection Ev as <-.
  apply validate_loop_ok in Vl as [Vs Vp]; [|done|done|unfold in_u32 in Hmaj; lia|by apply Forall_take].
  pose proof (us_to_ticks_range _ _ Hk Hmaj) as Hrg. unfold in_u64 in Hrg.
  set (ces := take _ _) in *. assert (Forall in_u32 (c_runtime_us <$> ces)) as Hu.
  { apply Forall_fmap, Forall_take. exact Hes. }
  assert (0 <= sum (c_runtime_us <$> ces)) as H0.
  { clear - Hu. unfold sum. induction Hu; cbn; unfold in_u32 in *; lia. }
  cbn zeta. split_and!; try lia.
  - rewrite us_to_ticks_nowrap by done. unfold in_u32 in *. apply Z.div_le_upper_bound; [lia|]. nia.
  - by rewrite !Forall_fmap.
  - assert (in_u32 (sum (c_runtime_us <$> ces))) as Hsu by (unfold in_u32 in *; lia).
    etransitivity; [by apply sum_ticks_le|]. apply us_to_ticks_mono; [done..|lia].
Qed.

Lemma fmap_total {A B} `{Inhabited A} (f : A -> B) (l k : list A) i :
  f <$> l = f <$> k -> (i < length k)%nat -> f (l !!! i) = f (k !!! i).
Proof.
  intros E Hi. assert (length l = length k) as El by (rewrite <- (length_fmap f l), E; apply length_fmap).
  destruct (lookup_lt_is_Some_2 k i Hi) as [y Ey]. destruct (lookup_lt_is_Some_2 l i ltac:(lia)) as [x Ex].
  rewrite (list_lookup_total_correct _ _ _ Ey), (list_lookup_total_correct _ _ _ Ex).
  apply (f_equal (fun l => l !! i)) in E. rewrite !list_lookup_fmap, Ex, Ey in E. by injection E.
Qed.

Lemma set_schedule_ok v clk pcpu c p l frame :
  config_ok c -> in_u32 (v_khz v) -> pcpu < pcpu_nums (v_plat v) -> attached p = true ->
  represents (links p) None l -> 0 <= clk 0%nat < TIME_BOUND ->
  arinc653_validate_config (v_khz v) (Some c) = Some frame ->
  exists p', sched_arinc653_set_schedule v clk true pcpu (Some c) p = Ret (0, true, p') /\
    sched_ok p' /\ frame_ok (clk 0%nat) (clk 0%nat) p' /\ major_frame_ticks p' = frame /\
    owners_ok v (take (Z.to_nat (entry_count p')) (entries p')) /\ links p' = links p /\
    window_timer p' = window_timer p /\ suspended p' = suspended p /\ attached p' = true /\
    sched_arinc653_get_schedule v true pcpu true p' = (0, Some (trimmed c)).
Proof.
  intros Hcfg Hk Hp Hat Hr Hn Ev. unfold sched_arinc653_set_schedule.
  destruct (validate_config_ok _ _ _ Hcfg Hk Ev) as (Ef & Hfr & Hc & Hpos & Hsum). destruct Hcfg as (Hl & _).
  destruct (Z.leb_spec (pcpu_nums (v_plat v)) pcpu); [lia|]. rewrite Ev, Hat. unfold TIME_BOUND in Hn.
  destruct (Z.ltb_spec (UINT64_MAX - clk 0%nat) frame); [lia|]. cbn [negb orb].
  destruct (loaded_ticks (v_khz v) (c_entry_count c) (c_entries c) Hl ltac:(lia)) as (Le & Te & Lk).
  set (es := _ <$> seq 0 64) in Le, Te, Lk. set (p0 := p <| major_frame_us := _ |> <| major_frame_ticks := _ |>
    <| entry_count := _ |> <| entries := _ |>).
  assert (sched_ok p0) as Ho0.
  { unfold sched_ok. change (ticks p0) with (e_runtime_ticks <$> take (Z.to_nat (c_entry_count c)) es).
    rewrite Te. split_and!; try done; first [apply Hc|apply Hfr]. }
  destruct (load_ok v (clk 0%nat) p0 l Ho0 Hr Hn) as
    (p1 & p' & -> & Es & Ho' & Hf & Ow & E1 & E2 & E3 & E4 & E5 & E6 & E7 & E8 & E9 & E10).
  cbn [mbind outcome_bind]. rewrite Es. exists p'. split_and!; try done; [by rewrite E10|].
  unfold sched_arinc653_get_schedule. destruct (Z.leb_spec (pcpu_nums (v_plat v)) pcpu); [lia|].
  rewrite E10, E5, E6. change (attached p0) with (attached p). rewrite Hat. cbn [negb orb]. unfold trimmed.
  change (entry_count p0) with (c_entry_count c). do 3 f_equal. apply list_fmap_ext. intros j i _.
  destruct (Z.ltb_spec (Z.of_nat i) (c_entry_count c)) as [Hi|]; [|done].
  assert (i < length (entries p0))%nat as Hil by (change (entries p0) with es; lia).
  rewrite (fmap_total _ _ _ _ E1 Hil), (fmap_total _ _ _ _ E2 Hil), (fmap_total _ _ _ _ E3 Hil).
  change (entries p0 !!! i) with (es !!! i). rewrite (Lk i Hi). by destruct (c_entries c !!! i).
Qed.

(** ** The policy interface

    No thread is ever queued: [pick_next] looks at the owner of the window and
    checks that it may run. *)
Lemma may_run_awake v t : may_run v t = true -> t = Idle (v_pcpu v) \/ awake v t.
Proof.
  unfold may_run, awake. rewrite !andb_true_iff, orb_true_iff, !bool_decide_eq_true, negb_true_iff, Z.eqb_eq.
  intros [[[_ Hp] Hb] Hs]. destruct (decide (t = Idle (v_pcpu v))); [auto|]. right.
  split_and!; try done. destruct Hs as [-> | ->]; done.
Qed.

#[export] Instance arinc653_policy : SchedPolicy sched_arinc653.
Proof.
  refine {| pol_inv := fun _ => True; queued := fun _ _ => False |}; cbn; try tauto.
  intros f v clk p t p' [= <-] _ E. split_and!; [done| |tauto]. unfold sched_arinc653_pick_next in E.
  set (c := if suspended p then _ else _) in E. destruct c as [[next deadline] p1] eqn:Ec. inv_ret.
  destruct r as [armed q]. cbn in E. inv_ret. subst.
  assert (v_pcpu v = v_cpu v) as Hv.
  { unfold arinc653_program_local_timer in E0. destruct (Z.eqb_spec (v_pcpu v) (v_cpu v)); [done|]. done. }
  destruct armed; [|auto]. subst c. destruct (suspended p); [injection Ec as <- _ _; auto|].
  destruct (arinc653_advance (clk 0%nat) p) as [[valid d] p2]. injection Ec as <- _ _.
  destruct (valid && _); [|auto]. destruct (e_obj _) as [cand|]; [|auto].
  destruct (may_run v cand) eqn:Em; [|auto]. destruct (may_run_awake v cand Em) as [-> |]; [|auto].
  left. by rewrite Hv.
Defined.

(** ** Registering a thread *)
Lemma init_data_links v clk t prm p l :
  Some t ∉ l -> represents (links p) None l ->
  exists p', sched_arinc653_init_data v clk t prm p = Ret p' /\
    represents (links p') None (if is_vcpu (thr v t) then l ++ [Some t] else l).
Proof.
  intros Ht Hr. unfold sched_arinc653_init_data.
  assert (Some t ∉ None :: l) as Ht' by (rewrite elem_of_cons; intros [?|?]; done).
  pose proof (represents_frame_init (links p) None l (Some t) Ht' Hr) as Hr1.
  destruct (is_vcpu (thr v t)); [|by eexists].
  pose proof (represents_add_tail _ _ _ (Some t) Ht' Hr1) as Hr2.
  unfold arinc653_resolve_entries.
  match goal with |- context [resolve_loop ?a ?b ?c ?d] => destruct (resolve_loop_ok a b _ c d Hr2) as (es & -> & _) end.
  by eexists.
Qed.

(** Re-initialising the node of a listed thread: the last node comes to point
    to itself, and a search for any thread that is not on the list never
    ends. *)
Definition relinked (t : tid) (h : list_store (option tid)) : list_store (option tid) :=
  list_add_tail (Some t) None (INIT_LIST_HEAD (Some t) h).

Lemma relinked_next t h l x :
  represents h None (l ++ [Some t]) ->
  next_ptr (relinked t h) x = if decide (x = Some t) then Some t else next_ptr h x.
Proof.
  intros Hr. pose proof (chain_prev _ _ _ _ (proj2 Hr)) as Hp. rewrite last_snoc in Hp. cbn in Hp.
  unfold relinked, list_add_tail, list_add_node, next_ptr.
  assert (prev_ptr (INIT_LIST_HEAD (Some t) h) None = Some t) as ->.
  { rewrite <- Hp at 2. unfold prev_ptr. cbn. by rewrite lookup_insert_ne by done. }
  cbn. case_decide as E; [subst x; by rewrite lookup_insert_eq|]. by rewrite !lookup_insert_ne by done.
Qed.

Lemma find_self_loop (h : list_store (option tid)) test x :
  x <> None -> test x = false -> next_ptr h x = x -> forall fuel, list_find fuel test None x h = None.
Proof.
  intros Hx Ht Hn fuel. induction fuel as [|fuel IH]; [done|]. cbn.
  rewrite decide_False by done. by rewrite Ht, Hn.
Qed.

Lemma relinked_diverges t h test : forall k l1 fuel,
  represents h None (l1 ++ k ++ [Some t]) -> Forall (fun x => test x = false) (k ++ [Some t]) ->
  list_find fuel test None (default (Some t) (head k)) (relinked t h) = None.
Proof.
  induction k as [|x k IH]; intros l1 fuel Hr Hf.
  - change (default (Some t) (head [])) with (Some t).
    apply find_self_loop; [done|by apply Forall_cons in Hf as [Hf _]|].
    by rewrite (relinked_next t h l1), decide_True by done.
  - destruct fuel as [|fuel]; [done|]. cbn. apply Forall_cons in Hf as [Hx Hf].
    assert (x <> None /\ x <> Some t) as [Hx1 Hx2].
    { destruct Hr as [[Hh Hn]%NoDup_cons _]. split.
      - intros ->. apply Hh. qset.
      - intros ->. apply NoDup_app in Hn as (_ & _ & [Hn _]%NoDup_cons). apply Hn. qset. }
    rewrite decide_False, Hx by done.
    rewrite (relinked_next t h (l1 ++ x :: k)) by (rewrite <- app_assoc; exact Hr).
    rewrite decide_False by done. destruct (represents_neighbours h None l1 x (k ++ [Some t])) as [_ ->].
    { done. }
    assert (default None (head (k ++ [Some t])) = default (Some t) (head k)) as -> by by destruct k.
    apply (IH (l1 ++ [x])); [by rewrite <- app_assoc|done].
Qed.

(** ** Theorems *)

(** Successive calls of [pick_next], each with the view and the counter it sees. *)
Fixpoint run_picks (l : list (sched_view * clock)) (p : sched_arinc653_control) : outcome (list tid) :=
  match l with
  | [] => Ret []
  | (v, clk) :: l =>
      '(t, p) ← sched_arinc653_pick_next v clk p;
      ts ← run_picks l p;
      Ret (t :: ts)
  end.

(** The calls are made on the owning pCPU at times that do not decrease. *)
Fixpoint picks_ok (last : Z) (l : list (sched_view * clock)) : Prop :=
  match l with
  | [] => True
  | (v, clk) :: l => v_pcpu v = v_cpu v /\ last <= clk 0%nat < TIME_BOUND /\ picks_ok (clk 0%nat) l
  end.

Lemma run_picks_ok origin l : forall last p,
  sched_ok p -> frame_ok origin last p -> timer_ok p -> suspended p = false -> picks_ok last l ->
  run_picks l p = Ret ((fun '(v, clk) =>
    owner_or_idle v p ((clk 0%nat - origin) mod major_frame_ticks p)) <$> l).
Proof.
  induction l as [|[v clk] l IH]; intros last p Ho Hf Ht Hs Hl; cbn; [done|].
  destruct Hl as (Hv & Hn & Hl).
  destruct (arinc_pick_ok origin last v clk p Ho Hf Hn Hv Ht Hs)
    as (p' & -> & Ho' & Hf' & Ht' & Hs' & E1 & E2 & _ & E3 & _).
  cbn [mbind outcome_bind]. rewrite (IH (clk 0%nat) p') by done. cbn [mbind outcome_bind]. do 2 f_equal.
  apply list_fmap_ext. intros _ [w c] _. unfold owner_or_idle, owner, ticks. by rewrite E1, E2, E3.
Qed.


(** Example: a frame of 10 ms with windows of 4 ms for thread 1 and 3 ms for
    thread 3, loaded at tick 1000 of a 62.5 MHz counter. *)
Definition ex_config : sched_arinc653_config :=
  mk_config 10000 2 (mk_entry_config 0 0 4000 :: mk_entry_config 1 0 3000 ::
    replicate 62 (mk_entry_config 0 0 0)).
Definition ex_loaded : sched_arinc653_control :=
  mk_arinc (mk_entry 0 0 4000 250000 (Some (Thread 1)) :: mk_entry 1 0 3000 187500 (Some (Thread 3)) ::
      replicate 62 (mk_entry 0 0 0 0 None))
    (INIT_LIST_HEAD None (mk_store ∅ ∅)) (handle_init 0 0) 625000 1000 626000 251000 0 10000 2 0 false true.


(** Loading and reading back a schedule.  On a pCPU that runs this policy, a
    valid configuration is accepted with return code 0; the windows fit the
    frame in ticks, the frame starts now, each recorded owner has the identity
    its entry names, and reading the schedule gives back the configuration with
    the unused entries cleared. *)
Theorem arinc_set_get_schedule v clk pcpu c p l frame :
  config_ok c -> in_u32 (v_khz v) -> pcpu < pcpu_nums (v_plat v) -> attached p = true ->
  represents (links p) None l -> 0 <= clk 0%nat < TIME_BOUND ->
  arinc653_validate_config (v_khz v) (Some c) = Some frame ->
  exists p', sched_arinc653_set_schedule v clk true pcpu (Some c) p = Ret (0, true, p') /\
    sched_ok p' /\ frame_ok (clk 0%nat) (clk 0%nat) p' /\ major_frame_ticks p' = frame /\
    owners_ok v (take (Z.to_nat (entry_count p')) (entries p')) /\ links p' = links p /\
    window_timer p' = window_timer p /\ suspended p' = suspended p /\ attached p' = true /\
    sched_arinc653_get_schedule v true pcpu true p' = (0, Some (trimmed c)).
Proof. apply set_schedule_ok. Qed.

Definition ex_empty : sched_arinc653_control :=
  mk_arinc (replicate 64 (mk_entry 0 0 0 0 None)) (INIT_LIST_HEAD None (mk_store ∅ ∅)) (handle_init 0 0)
    0 0 0 0 0 0 0 0 false true.

Lemma arinc_set_get_schedule_witness :
  exists p', sched_arinc653_set_schedule (ex_view None) (ex_clock 1000) true 0 (Some ex_config) ex_empty =
      Ret (0, true, p') /\
    sched_arinc653_get_schedule (ex_view None) true 0 true p' = (0, Some (trimmed ex_config)).
Proof.
  destruct (arinc_set_get_schedule (ex_view None) (ex_clock 1000) 0 ex_config ex_empty [] 625000)
    as (p' & E & _ & _ & _ & _ & _ & _ & _ & _ & G).
  - unfold config_ok, in_u32. split_and!; [reflexivity|cbn; lia..|]. repeat constructor; cbn; lia.
  - unfold in_u32, v_khz. cbn. lia.
  - cbn. lia.
  - reflexivity.
  - apply represents_init.
  - unfold ex_clock, TIME_BOUND. lia.
  - reflexivity.
  - exists p'. split; [exact E|exact G].
Defined.

(** Re-initialising the last listed thread, as [reset_thread_data] does, makes
    the next search for an identity that is not on the list run for ever: the
    walk does not end for any number of steps. *)
Theorem arinc_reinit_diverges v clk t prm p l e es :
  represents (links p) None (l ++ [Some t]) -> is_vcpu (thr v t) = true ->
  entries p = e :: es -> 0 < entry_count p ->
  Forall (fun x => owner_test v (e_vm_id e) (e_vcpu_id e) x = false) (l ++ [Some t]) ->
  (forall fuel, list_find fuel (owner_test v (e_vm_id e) (e_vcpu_id e)) None
     (next_ptr (relinked t (links p)) None) (relinked t (links p)) = None) /\
  exists why, sched_arinc653_init_data v clk t prm p = Hang why.
Proof.
  intros Hr Hv He Hc Hf.
  assert (forall fuel, list_find fuel (owner_test v (e_vm_id e) (e_vcpu_id e)) None
     (next_ptr (relinked t (links p)) None) (relinked t (links p)) = None) as Hd.
  { intros fuel. rewrite (relinked_next t (links p) l) by done. rewrite decide_False by done.
    rewrite (chain_next _ _ _ _ (proj2 Hr)).
    assert (default None (head (l ++ [Some t])) = default (Some t) (head l)) as -> by by destruct l.
    by apply (relinked_diverges t (links p) _ l []). }
  split; [done|]. unfold sched_arinc653_init_data. rewrite Hv. unfold arinc653_resolve_entries.
  cbn [links entries entry_count set_field].
  match goal with |- context [resolve_loop ?a ?b ?c ?d] =>
    change (resolve_loop a b c d) with (resolve_loop v (relinked t (links p)) (Z.to_nat (entry_count p)) (entries p)) end.
  rewrite He. destruct (Z.to_nat (entry_count p)) as [|n] eqn:En; [lia|]. cbn [resolve_loop].
  unfold arinc653_find_thread. rewrite Hd. by eexists.
Qed.
