(* ===== verification/Bfp.v ===== *)
(** * The budgeted fixed-priority policy (core/sched/bfp.c)

    Servers with budget wait in the ready queue by priority, first come first
    served among equals; a server without budget waits in the depleted queue for
    its replenishment and never runs before it.  [init] admits a pCPU's VMs by
    response-time analysis. *)
From S2P Require Import Prelude Ticks Timer SchedTypes.

Definition BFP_DEFAULT_PERIOD_US : Z := 4000.
Definition BFP_DEFAULT_BUDGET_US : Z := 2000.
Definition BFP_MIN_PERIOD_US : Z := 500.
Definition BFP_MIN_BUDGET_US : Z := 500.
Definition BFP_RTA_MAX_ITERATIONS : nat := 64.

Inductive sched_bfp_queue := BFP_QUEUE_NONE | BFP_QUEUE_READY | BFP_QUEUE_DEPLETED.
#[export] Instance sched_bfp_queue_eq_dec : EqDecision sched_bfp_queue.
Proof. solve_decision. Defined.

Record sched_bfp_data := mk_bfp_data {
  period_ticks : Z;
  budget_ticks : Z;
  remaining_ticks : Z;
  next_replenish_ticks : Z;
  last_start_ticks : Z;
  depleted_count : Z;
  replenish_count : Z;
  overrun_count : Z;
  priority : Z;
  queue : sched_bfp_queue }.
#[export] Instance eta_bfp_data : Eta sched_bfp_data := fun d =>
  mk_bfp_data (period_ticks d) (budget_ticks d) (remaining_ticks d) (next_replenish_ticks d)
    (last_start_ticks d) (depleted_count d) (replenish_count d) (overrun_count d) (priority d) (queue d).
#[export] Instance bfp_data_inhabited : Inhabited sched_bfp_data :=
  populate (mk_bfp_data 0 0 0 0 0 0 0 0 0 BFP_QUEUE_NONE).

Record bfp_admission_task := mk_task {
  t_vm_id : Z;
  t_priority : Z;
  t_period_us : Z;
  t_budget_us : Z }.

Record sched_bfp_control := mk_bfp {
  ready_queue : list tid;
  depleted_queue : list tid;
  tick_timer : timer_handle;
  timer_deadline_ticks : Z;
  admitted_vcpus : Z;
  data : gmap tid sched_bfp_data }.
#[export] Instance eta_bfp : Eta sched_bfp_control := fun p =>
  mk_bfp (ready_queue p) (depleted_queue p) (tick_timer p) (timer_deadline_ticks p)
    (admitted_vcpus p) (data p).

Definition data_of (p : sched_bfp_control) (t : tid) : sched_bfp_data := data p !!! t.
Definition set_data (t : tid) (d : sched_bfp_data) (p : sched_bfp_control) : sched_bfp_control :=
  p <| data := <[t := d]> (data p) |>.

Definition bfp_is_queued (d : sched_bfp_data) : bool := negb (bool_decide (queue d = BFP_QUEUE_NONE)).

Definition bfp_counter_add (counter value : Z) : Z :=
  if UINT64_MAX - value <? counter then UINT64_MAX else counter + value.

Definition bfp_next_period_boundary (now period : Z) : Z :=
  if period =? 0 then UINT64_MAX
  else
    let periods := now / period in
    if UINT64_MAX / period <=? periods then UINT64_MAX else u64 ((periods + 1) * period).

Definition bfp_normalize_us (plat : platform) (pcpu : Z) (prm : sched_params) : outcome (Z * Z) :=
  let period := if negb (bfp_period_us prm =? 0) then bfp_period_us prm else BFP_DEFAULT_PERIOD_US in
  let budget := if negb (bfp_budget_us prm =? 0) then bfp_budget_us prm else BFP_DEFAULT_BUDGET_US in
  let '(period, budget) :=
    match sched_get_pcpu_pool_config (sched_config plat) pcpu with
    | Some pool =>
        if bool_decide (policy pool = SCHED_POLICY_BFP) then
          (if (bfp_period_us prm =? 0) && negb (period_us pool =? 0) then period_us pool else period,
           if (bfp_budget_us prm =? 0) && negb (budget_us pool =? 0) then budget_us pool else budget)
        else (period, budget)
    | None => (period, budget)
    end in
  if period <? BFP_MIN_PERIOD_US then Panic "BFP period below minimum"
  else if budget <? BFP_MIN_BUDGET_US then Panic "BFP budget below minimum"
  else if period <? budget then Panic "BFP budget > period"
  else Ret (period, budget).

(** ** Admission *)
Definition bfp_vm_uses_pcpu (cfg : acrn_vm_config) (pcpu : Z) : bool :=
  if name_empty cfg then false else vm_affinity_uses_pcpu cfg pcpu.

Fixpoint bfp_collect_admission_tasks (plat : platform) (pcpu vm : Z) (cfgs : list acrn_vm_config)
    : outcome (list bfp_admission_task) :=
  match cfgs with
  | [] => Ret []
  | cfg :: rest =>
      if bfp_vm_uses_pcpu cfg pcpu then
        if prio (vm_sched_params cfg) <=? PRIO_IDLE then Panic "BFP invalid priority"
        else
          '(period, budget) ← bfp_normalize_us plat pcpu (vm_sched_params cfg);
          tasks ← bfp_collect_admission_tasks plat pcpu (vm + 1) rest;
          Ret (mk_task vm (prio (vm_sched_params cfg)) period budget :: tasks)
      else bfp_collect_admission_tasks plat pcpu (vm + 1) rest
  end.

(** The inner loop: interference of the tasks of the same or higher priority;
    [idx] is the position of the head of [tasks]. *)
Fixpoint demand_loop (task : bfp_admission_task) (task_idx idx : nat) (response : Z)
    (tasks : list bfp_admission_task) (demand : Z) : outcome Z :=
  match tasks with
  | [] => Ret demand
  | x :: rest =>
      if bool_decide (idx = task_idx) || (t_priority x <? t_priority task)
      then demand_loop task task_idx (S idx) response rest demand
      else
        let jobs := response / t_period_us x in
        let jobs := if negb (response mod t_period_us x =? 0) then jobs + 1 else jobs in
        if UINT64_MAX / t_budget_us x <? jobs then Panic "BFP response interference overflow"
        else
          let interference := jobs * t_budget_us x in
          if UINT64_MAX - interference <? demand then Panic "BFP response demand overflow"
          else demand_loop task task_idx (S idx) response rest (demand + interference)
  end.

Fixpoint response_loop (iterations : nat) (task : bfp_admission_task) (task_idx : nat)
    (tasks : list bfp_admission_task) (response : Z) : outcome Z :=
  match iterations with
  | O => Panic "BFP admission did not converge"
  | S n =>
      demand ← demand_loop task task_idx 0 response tasks (t_budget_us task);
      if t_period_us task <? demand then Panic "BFP admission failed"
      else if demand =? response then Ret response
      else response_loop n task task_idx tasks demand
  end.

Definition bfp_validate_response_time (tasks : list bfp_admission_task) (task_idx : nat)
    (task : bfp_admission_task) : outcome Z :=
  response_loop BFP_RTA_MAX_ITERATIONS task task_idx tasks (t_budget_us task).

Fixpoint validate_from (tasks : list bfp_admission_task) (idx : nat) (rest : list bfp_admission_task)
    : outcome (list Z) :=
  match rest with
  | [] => Ret []
  | task :: rest =>
      r ← bfp_validate_response_time tasks idx task;
      rs ← validate_from tasks (S idx) rest;
      Ret (r :: rs)
  end.

(** (number of tasks, their response times) *)
Definition bfp_validate_pcpu_admission (plat : platform) (pcpu : Z) : outcome (Z * list Z) :=
  tasks ← bfp_collect_admission_tasks plat pcpu 0 (take (Z.to_nat CONFIG_MAX_VM_NUM) (vm_configs plat));
  rs ← validate_from tasks 0 tasks;
  Ret (Z.of_nat (length tasks), rs).

(** ** Queues *)
Definition bfp_queue_remove (t : tid) (p : sched_bfp_control) : sched_bfp_control :=
  if bfp_is_queued (data_of p t) then
    set_data t ((data_of p t) <| queue := BFP_QUEUE_NONE |>)
      (p <| ready_queue := list_del_init t (ready_queue p) |>
         <| depleted_queue := list_del_init t (depleted_queue p) |>)
  else p.

Definition ready_before (keep_turn : bool) (p : sched_bfp_control) (t x : tid) : bool :=
  (priority (data_of p x) <? priority (data_of p t)) ||
  (keep_turn && (priority (data_of p t) =? priority (data_of p x))).

Definition bfp_ready_insert (keep_turn : bool) (t : tid) (p : sched_bfp_control) : sched_bfp_control :=
  let p := bfp_queue_remove t p in
  set_data t ((data_of p t) <| queue := BFP_QUEUE_READY |>)
    (p <| ready_queue := insert_before (ready_before keep_turn p t) t (ready_queue p) |>).

Definition bfp_depleted_insert (t : tid) (p : sched_bfp_control) : sched_bfp_control :=
  let p := bfp_queue_remove t p in
  set_data t ((data_of p t) <| queue := BFP_QUEUE_DEPLETED |>
                            <| depleted_count := u64 (depleted_count (data_of p t) + 1) |>)
    (p <| depleted_queue :=
      insert_before (fun x => next_replenish_ticks (data_of p t) <? next_replenish_ticks (data_of p x))
        t (depleted_queue p) |>).

(** ** Accounting *)
Definition bfp_advance_inactive_period (now : Z) (d : sched_bfp_data) : bool * sched_bfp_data :=
  if negb (next_replenish_ticks d =? UINT64_MAX) && (next_replenish_ticks d <=? now) then
    let periods := (now - next_replenish_ticks d) / period_ticks d + 1 in
    let d := if (UINT64_MAX - next_replenish_ticks d) / period_ticks d <? periods
             then d <| next_replenish_ticks := UINT64_MAX |> <| remaining_ticks := 0 |>
             else d <| next_replenish_ticks := next_replenish_ticks d + periods * period_ticks d |>
                    <| remaining_ticks := budget_ticks d |> in
    (true, d <| replenish_count := bfp_counter_add (replenish_count d) periods |>)
  else (false, d).

Definition count_overrun (n : Z) (d : sched_bfp_data) : sched_bfp_data :=
  d <| overrun_count := bfp_counter_add (overrun_count d) n |>.

Definition bfp_charge_current_period (delta : Z) (d : sched_bfp_data) : sched_bfp_data :=
  if remaining_ticks d <? delta then count_overrun 1 (d <| remaining_ticks := 0 |>)
  else d <| remaining_ticks := remaining_ticks d - delta |>.

(** The charge for a run from [start] to [now]. *)
Definition charge_run (start now : Z) (d : sched_bfp_data) : sched_bfp_data :=
  let boundary := next_replenish_ticks d in
  if (boundary =? UINT64_MAX) || (now <? boundary) then bfp_charge_current_period (now - start) d
  else
    let d := if start <? boundary then bfp_charge_current_period (boundary - start) d else d in
    let elapsed := now - boundary in
    let full_periods := elapsed / period_ticks d in
    let phase := elapsed mod period_ticks d in
    let replenishments := full_periods + 1 in
    if (UINT64_MAX - boundary) / period_ticks d <? replenishments
    then count_overrun 1 (d <| next_replenish_ticks := UINT64_MAX |> <| remaining_ticks := 0 |>)
    else
      let d := d <| next_replenish_ticks := boundary + replenishments * period_ticks d |>
                 <| replenish_count := bfp_counter_add (replenish_count d) replenishments |> in
      let d := if negb (full_periods =? 0) && (budget_ticks d <? period_ticks d)
               then count_overrun full_periods d else d in
      if budget_ticks d <? phase then count_overrun 1 (d <| remaining_ticks := 0 |>)
      else d <| remaining_ticks := budget_ticks d - phase |>.

Definition bfp_account_runtime (v : sched_view) (t : tid) (now : Z) (p : sched_bfp_control)
    : sched_bfp_control :=
  let d := data_of p t in
  if is_idle_thread v t || negb (bool_decide (status (thr v t) = THREAD_STS_RUNNING)) ||
     (last_start_ticks d =? 0) || (now <=? last_start_ticks d)
  then p
  else set_data t (charge_run (last_start_ticks d) now (d <| last_start_ticks := now |>)) p.

Definition bfp_refresh_thread (v : sched_view) (t : tid) (now : Z) (keep_turn : bool)
    (p : sched_bfp_control) : sched_bfp_control :=
  let p := set_data t (snd (bfp_advance_inactive_period now (data_of p t))) p in
  if negb (is_active v t) then bfp_queue_remove t p
  else if negb (remaining_ticks (data_of p t) =? 0) then bfp_ready_insert keep_turn t p
  else bfp_depleted_insert t p.

(** The loop over the ready queue changes data only. *)
Definition refresh_ready (now : Z) (p : sched_bfp_control) : sched_bfp_control :=
  foldl (fun p t => set_data t (snd (bfp_advance_inactive_period now (data_of p t))) p) p (ready_queue p).

Definition refresh_depleted_body (v : sched_view) (now : Z) (t : tid) (p : sched_bfp_control)
    : outcome sched_bfp_control :=
  let '(advanced, d) := bfp_advance_inactive_period now (data_of p t) in
  let p := set_data t d p in
  Ret (if advanced then
         let p := bfp_queue_remove t p in
         if is_active v t && negb (remaining_ticks (data_of p t) =? 0) then bfp_ready_insert false t p else p
       else p).

Definition bfp_refresh_queues (v : sched_view) (now : Z) (p : sched_bfp_control)
    : outcome sched_bfp_control :=
  let p := refresh_ready now p in
  list_for_each_safe depleted_queue (refresh_depleted_body v now) (2 * length (depleted_queue p)) p.

Definition bfp_next_depleted_replenishment (p : sched_bfp_control) : Z :=
  match depleted_queue p with
  | t :: _ => next_replenish_ticks (data_of p t)
  | [] => 0
  end.

(** The softirq has unlinked the timer when it calls the handler. *)
Definition bfp_timer_handler (v : sched_view) (clk : clock) (p : sched_bfp_control)
    : outcome (bool * sched_bfp_control) :=
  let p := p <| tick_timer := handle_del (tick_timer p) |> in
  let now := clk 0%nat in
  _ ← ASSERT (v_pcpu v =? v_cpu v) "BFP timer on wrong cpu!";
  let p := p <| timer_deadline_ticks := 0 |> in
  let p := match v_curr v with
           | Some c => if is_idle_thread v c then p else bfp_account_runtime v c now p
           | None => p
           end in
  p ← bfp_refresh_queues v now p;
  Ret (true, p).

Definition bfp_timeout (v : sched_view) (running : option tid) (now : Z) (p : sched_bfp_control) : Z :=
  let timeout :=
    match running with
    | Some r =>
        let d := data_of p r in
        if negb (is_idle_thread v r) && negb (remaining_ticks d =? 0) then
          let timeout := if remaining_ticks d <=? UINT64_MAX - now then now + remaining_ticks d else UINT64_MAX in
          if next_replenish_ticks d <? timeout then next_replenish_ticks d else timeout
        else 0
    | None => 0
    end in
  let replenish_timeout := bfp_next_depleted_replenishment p in
  if negb (replenish_timeout =? 0) && ((timeout =? 0) || (replenish_timeout <? timeout))
  then replenish_timeout else timeout.

Definition bfp_program_local_timer (v : sched_view) (running : option tid) (now : Z)
    (p : sched_bfp_control) : outcome sched_bfp_control :=
  _ ← ASSERT (v_pcpu v =? v_cpu v) "program BFP timer on wrong cpu!";
  let timeout := bfp_timeout v running now p in
  if (timeout =? timer_deadline_ticks p) && th_started (tick_timer p) then Ret p
  else
    let p := if th_started (tick_timer p) then p <| tick_timer := handle_del (tick_timer p) |> else p in
    let p := p <| timer_deadline_ticks := 0 |> in
    if negb (timeout =? 0) then
      _ ← ASSERT (now <? timeout) "BFP timer deadline is not in the future!";
      '(ret, h) ← handle_add (v_khz v) (handle_update timeout 0 (tick_timer p));
      if negb (ret =? 0) then Panic "BFP failed to arm timer"
      else Ret (p <| tick_timer := h |> <| timer_deadline_ticks := timeout |>)
    else Ret p.

Definition bfp_program_timer (v : sched_view) (running : option tid) (now : Z)
    (p : sched_bfp_control) : outcome sched_bfp_control :=
  if v_pcpu v =? v_cpu v then bfp_program_local_timer v running now p else Ret p.

(** ** Operations *)
Definition sched_bfp_init (v : sched_view) (clk : clock) (p : sched_bfp_control)
    : outcome (Z * sched_bfp_control) :=
  _ ← ASSERT (v_pcpu v =? v_cpu v) "init BFP on wrong cpu!";
  '(n, _) ← bfp_validate_pcpu_admission (v_plat v) (v_pcpu v);
  Ret (0, p <| ready_queue := [] |> <| depleted_queue := [] |> <| timer_deadline_ticks := 0 |>
            <| admitted_vcpus := n |> <| tick_timer := handle_init 0 0 |>).

Definition sched_bfp_deinit (v : sched_view) (clk : clock) (p : sched_bfp_control)
    : outcome sched_bfp_control :=
  _ ← ASSERT (v_pcpu v =? v_cpu v) "deinit BFP on wrong cpu!";
  Ret (p <| tick_timer := handle_del (tick_timer p) |> <| timer_deadline_ticks := 0 |>).

(** [INIT_LIST_HEAD(&data->list)] has no counterpart (the thread is on no list),
    nor has the ASSERT on the size of the data, a constant of the build; every
    caller passes parameters. *)
Definition sched_bfp_init_data (v : sched_view) (clk : clock) (t : tid) (prm : sched_params)
    (p : sched_bfp_control) : outcome sched_bfp_control :=
  let d := mk_bfp_data 0 0 0 UINT64_MAX 0 0 0 0 PRIO_IDLE BFP_QUEUE_NONE in
  if is_idle_thread v t then Ret (set_data t d p)
  else if negb (is_vcpu (thr v t)) then Panic "BFP rejects host thread"
  else if prio prm <=? PRIO_IDLE then Panic "BFP invalid priority"
  else
    '(period, budget) ← bfp_normalize_us (v_plat v) (pcpu_id (thr v t)) prm;
    let per := us_to_ticks (v_khz v) period in
    let bud := us_to_ticks (v_khz v) budget in
    if (per =? 0) || (bud =? 0) || (per <? bud) then Panic "BFP invalid tick budget"
    else Ret (set_data t (d <| period_ticks := per |> <| budget_ticks := bud |> <| remaining_ticks := bud |>
      <| next_replenish_ticks := bfp_next_period_boundary (clk 0%nat) per |> <| priority := prio prm |>) p).

Definition sched_bfp_deinit_data (v : sched_view) (clk : clock) (t : tid) (p : sched_bfp_control)
    : outcome sched_bfp_control := Ret (bfp_queue_remove t p).

Definition settle_current (v : sched_view) (now : Z) (p : sched_bfp_control) : sched_bfp_control :=
  match v_curr v with
  | Some current =>
      if is_idle_thread v current then p
      else bfp_refresh_thread v current now true (bfp_account_runtime v current now p)
  | None => p
  end.

Definition sched_bfp_pick_next (v : sched_view) (clk : clock) (p : sched_bfp_control)
    : outcome (tid * sched_bfp_control) :=
  let now := clk 0%nat in
  p ← bfp_refresh_queues v now (settle_current v now p);
  let '(next, p) :=
    match ready_queue p with
    | t :: _ =>
        let p := bfp_queue_remove t p in
        (t, set_data t ((data_of p t) <| last_start_ticks := now |>) p)
    | [] => (Idle (v_cpu v), p)
    end in
  p ← bfp_program_local_timer v (Some next) (clk 1%nat) p;
  Ret (next, p).

Definition sched_bfp_sleep (v : sched_view) (clk : clock) (t : tid) (p : sched_bfp_control)
    : outcome sched_bfp_control :=
  let p := if is_current v t then bfp_account_runtime v t (clk 0%nat) p else p in
  let p := bfp_queue_remove t p in
  Ret (set_data t ((data_of p t) <| last_start_ticks := 0 |>) p).

Definition sched_bfp_wake (v : sched_view) (clk : clock) (t : tid) (p : sched_bfp_control)
    : outcome sched_bfp_control :=
  let d := snd (bfp_advance_inactive_period (clk 0%nat) (data_of p t)) in
  let p := set_data t (d <| last_start_ticks := 0 |>) p in
  let p := if negb (remaining_ticks d =? 0) then bfp_ready_insert false t p else bfp_depleted_insert t p in
  bfp_program_timer v (v_curr v) (clk 1%nat) p.

Definition sched_bfp_suspend (v : sched_view) (clk : clock) (p : sched_bfp_control)
    : outcome sched_bfp_control :=
  _ ← ASSERT (v_pcpu v =? v_cpu v) "suspend BFP on wrong cpu!";
  let p := match v_curr v with
           | Some c => if is_idle_thread v c then p
                       else let p := bfp_account_runtime v c (clk 0%nat) p in
                            set_data c ((data_of p c) <| last_start_ticks := 0 |>) p
           | None => p
           end in
  Ret (p <| tick_timer := handle_del (tick_timer p) |> <| timer_deadline_ticks := 0 |>).

Definition sched_bfp_resume (v : sched_view) (clk : clock) (p : sched_bfp_control)
    : outcome (bool * sched_bfp_control) :=
  let now := clk 0%nat in
  _ ← ASSERT (v_pcpu v =? v_cpu v) "resume BFP on wrong cpu!";
  let p := match v_curr v with
           | Some c => if is_idle_thread v c then p
                       else let d := snd (bfp_advance_inactive_period now (data_of p c)) in
                            set_data c (d <| last_start_ticks := now |>) p
           | None => p
           end in
  Ret (true, p).

Definition sched_bfp : sched_ops sched_bfp_control :=
  mk_ops sched_bfp_init (Some sched_bfp_init_data) (Some sched_bfp_pick_next)
    (Some sched_bfp_sleep) (Some sched_bfp_wake) None (Some sched_bfp_deinit_data)
    (Some sched_bfp_deinit) (Some sched_bfp_suspend) (Some sched_bfp_resume) (Some bfp_timer_handler).

(** ** Arithmetic of a server *)
Definition BFP_TIME_BOUND : Z := 2 ^ 63.
Definition time_ok (now : Z) : Prop := 0 <= now < BFP_TIME_BOUND.

(** A server [init_data] has set up, at counter values below 2^63: with periods
    of at most 2^55 ticks nothing saturates or wraps. *)
Definition server_ok (d : sched_bfp_data) : Prop :=
  0 < budget_ticks d <= period_ticks d /\ period_ticks d <= 2 ^ 55 /\
  0 <= remaining_ticks d <= budget_ticks d /\
  0 < next_replenish_ticks d <= BFP_TIME_BOUND + 2 ^ 55 /\
  0 <= last_start_ticks d < BFP_TIME_BOUND.

(** What scheduling does not change. *)
Definition static (d d' : sched_bfp_data) : Prop :=
  period_ticks d' = period_ticks d /\ budget_ticks d' = budget_ticks d /\
  priority d' = priority d /\ queue d' = queue d.

Lemma periods_fit next period now :
  0 < period <= 2 ^ 55 -> 0 < next <= now -> now < BFP_TIME_BOUND ->
  let k := (now - next) / period + 1 in
  1 <= k /\ now < next + k * period <= now + period /\
  ((UINT64_MAX - next) / period <? k) = false.
Proof.
  intros Hp Hn Hb. cbn zeta. unfold BFP_TIME_BOUND in Hb.
  pose proof (Z.div_mod (now - next) period ltac:(lia)) as E.
  pose proof (Z.mod_pos_bound (now - next) period ltac:(lia)) as Hm.
  pose proof (Z.div_pos (now - next) period ltac:(lia) ltac:(lia)) as Hq.
  set (q := (now - next) / period) in *. clearbody q. split_and!; [lia|nia|nia|].
  apply Z.ltb_ge. apply Z.div_le_lower_bound; [lia|]. nia.
Qed.

Lemma bfp_advance_ok now d :
  server_ok d -> time_ok now ->
  let '(b, d') := bfp_advance_inactive_period now d in
  server_ok d' /\ static d d' /\ last_start_ticks d' = last_start_ticks d /\
  now < next_replenish_ticks d' /\ b = (next_replenish_ticks d <=? now) /\
  (b = true -> remaining_ticks d' = budget_ticks d) /\ (b = false -> d' = d).
Proof.
  intros Ho Hn. unfold bfp_advance_inactive_period. unfold server_ok, time_ok in *.
  destruct (Z.leb_spec (next_replenish_ticks d) now) as [Hle|Hgt].
  - destruct (Z.eqb_spec (next_replenish_ticks d) UINT64_MAX) as [E|_];
      [unfold BFP_TIME_BOUND in *; lia|]. cbn [negb andb].
    destruct (periods_fit (next_replenish_ticks d) (period_ticks d) now) as (Hk & Hf & ->); [lia..|].
    cbn. unfold static. cbn. split_and!; try done; lia.
  - rewrite andb_false_r. unfold static. split_and!; try done; lia.
Qed.

(** The reference: charge the run period by period, each period with its own
    budget. *)
Fixpoint charge_walk (fuel : nat) (start now : Z) (d : sched_bfp_data) : option sched_bfp_data :=
  if now <? next_replenish_ticks d then Some (bfp_charge_current_period (now - start) d)
  else match fuel with
       | O => None
       | S fuel =>
           let boundary := next_replenish_ticks d in
           let d := bfp_charge_current_period (boundary - start) d in
           charge_walk fuel boundary now
             (d <| next_replenish_ticks := boundary + period_ticks d |> <| remaining_ticks := budget_ticks d |>
                <| replenish_count := bfp_counter_add (replenish_count d) 1 |>)
       end.

Lemma counter_add_twice c a b :
  0 <= c <= UINT64_MAX -> 0 <= a -> 0 <= b -> a + b <= UINT64_MAX ->
  bfp_counter_add (bfp_counter_add c a) b = bfp_counter_add c (a + b).
Proof. unfold bfp_counter_add. intros. zb; lia. Qed.

Lemma counter_add_range c a : 0 <= c <= UINT64_MAX -> 0 <= a <= UINT64_MAX ->
  0 <= bfp_counter_add c a <= UINT64_MAX.
Proof. unfold bfp_counter_add. intros. zb; lia. Qed.

Lemma counter_add_0 c : c <= UINT64_MAX -> bfp_counter_add c 0 = c.
Proof. unfold bfp_counter_add. intros. zb; lia. Qed.

(** The state at the start of a period, [n] periods after [d]. *)
Definition fresh_after (n : Z) (d : sched_bfp_data) : sched_bfp_data :=
  d <| next_replenish_ticks := next_replenish_ticks d + n * period_ticks d |>
    <| remaining_ticks := budget_ticks d |>
    <| replenish_count := bfp_counter_add (replenish_count d) n |>
    <| overrun_count := bfp_counter_add (overrun_count d) (if budget_ticks d <? period_ticks d then n else 0) |>.

Definition counters_ok (d : sched_bfp_data) : Prop :=
  0 <= replenish_count d <= UINT64_MAX /\ 0 <= overrun_count d <= UINT64_MAX.

Lemma fresh_after_0 d :
  counters_ok d -> remaining_ticks d = budget_ticks d -> fresh_after 0 d = d.
Proof.
  intros [? ?] E. unfold fresh_after. destruct d; cbn in *. subst.
  destruct (_ <? _); rewrite !counter_add_0 by lia; f_equal; lia.
Qed.

Lemma fresh_after_ok n d : counters_ok d -> 0 <= n <= UINT64_MAX -> counters_ok (fresh_after n d).
Proof.
  intros [? ?] ?. split; cbn; apply counter_add_range; try done. destruct (_ <? _); lia.
Qed.

Lemma fresh_after_add a b d :
  counters_ok d -> 0 <= a -> 0 <= b -> a + b <= UINT64_MAX ->
  fresh_after b (fresh_after a d) = fresh_after (a + b) d.
Proof.
  intros [? ?] ? ? ?. unfold fresh_after. cbn. destruct d; cbn in *.
  rewrite !counter_add_twice by (try destruct (_ <? _); lia).
  f_equal; [lia|]. f_equal. destruct (_ <? _); lia.
Qed.

(** One whole period of running, from a fresh budget. *)
Lemma walk_step_fresh d :
  budget_ticks d <= period_ticks d -> remaining_ticks d = budget_ticks d -> counters_ok d ->
  let d1 := bfp_charge_current_period (period_ticks d) d in
  d1 <| next_replenish_ticks := next_replenish_ticks d + period_ticks d1 |> <| remaining_ticks := budget_ticks d1 |>
     <| replenish_count := bfp_counter_add (replenish_count d1) 1 |> = fresh_after 1 d.
Proof.
  intros Hb E [? ?]. cbn zeta. unfold bfp_charge_current_period, fresh_after, count_overrun. rewrite E.
  destruct d; cbn in *. destruct (Z.ltb_spec budget_ticks0 period_ticks0); cbn; [f_equal; lia|].
  rewrite (counter_add_0 overrun_count0) by lia. f_equal; lia.
Qed.

Lemma walk_fresh fuel : forall start now d,
  0 < budget_ticks d <= period_ticks d -> remaining_ticks d = budget_ticks d -> counters_ok d ->
  next_replenish_ticks d = start + period_ticks d -> start <= now <= UINT64_MAX -> 0 <= start ->
  (now - start) / period_ticks d <= Z.of_nat fuel ->
  charge_walk fuel start now d =
    Some (bfp_charge_current_period ((now - start) mod period_ticks d)
            (fresh_after ((now - start) / period_ticks d) d)).
Proof.
  induction fuel as [|fuel IH]; intros start now d Hb E Hc En Hs H0 Hf; cbn [charge_walk]; rewrite En;
    destruct (Z.ltb_spec now (start + period_ticks d)).
  - rewrite Z.div_small, Z.mod_small, fresh_after_0 by (done || lia). done.
  - pose proof (Z.div_le_lower_bound (now - start) (period_ticks d) 1). lia.
  - rewrite Z.div_small, Z.mod_small, fresh_after_0 by (done || lia). done.
  - replace (start + period_ticks d - start) with (period_ticks d) by lia.
    pose proof (walk_step_fresh d ltac:(lia) E Hc) as W. cbn zeta in W. rewrite En in W. rewrite W.
    assert ((now - start) / period_ticks d = (now - (start + period_ticks d)) / period_ticks d + 1) as Ed.
    { replace (now - start) with (now - (start + period_ticks d) + 1 * period_ticks d) by lia.
      by rewrite Z.div_add by lia. }
    assert ((now - start) mod period_ticks d = (now - (start + period_ticks d)) mod period_ticks d) as Em.
    { replace (now - start) with (now - (start + period_ticks d) + 1 * period_ticks d) by lia.
      by rewrite Z_mod_plus_full. }
    rewrite (IH (start + period_ticks d)); try done; cbn.
    + pose proof (Z.div_pos (now - (start + period_ticks d)) (period_ticks d) ltac:(lia) ltac:(lia)).
      pose proof (Z.div_le_upper_bound (now - (start + period_ticks d)) (period_ticks d) (now - start)).
      rewrite fresh_after_add; [|done|lia|lia|].
      * by rewrite Em, Ed, (Z.add_comm 1).
      * assert ((now - (start + period_ticks d)) / period_ticks d <= now - (start + period_ticks d)).
        { apply Z.div_le_upper_bound; [lia|]. nia. } lia.
    + by apply fresh_after_ok.
    + lia.
    + lia.
    + lia.
    + lia.
Qed.

Lemma charge_walk_eq start now d :
  server_ok d -> counters_ok d -> time_ok now -> 0 <= start < next_replenish_ticks d -> start <= now ->
  charge_walk (Z.to_nat (now + 1)) start now d = Some (charge_run start now d).
Proof.
  intros Ho Hc Hn Hs Hsn. pose proof Hc as [Hr Hov]. unfold server_ok, time_ok in *.
  replace (Z.to_nat (now + 1)) with (S (Z.to_nat now)) by lia. unfold charge_run. cbn [charge_walk].
  destruct (Z.ltb_spec now (next_replenish_ticks d)) as [Hlt|Hge]; [by rewrite orb_true_r|].
  destruct (Z.eqb_spec (next_replenish_ticks d) UINT64_MAX); [unfold BFP_TIME_BOUND in *; lia|]. cbn [orb].
  destruct (Z.ltb_spec start (next_replenish_ticks d)); [|lia].
  set (d0 := bfp_charge_current_period (next_replenish_ticks d - start) d).
  assert (static d d0 /\ counters_ok d0) as ((Ep & Eb & _) & Hc0).
  { subst d0. unfold bfp_charge_current_period, static, counters_ok. zb; cbn; split_and!; try done; try lia;
      apply counter_add_range; lia. }
  set (b := next_replenish_ticks d) in *. clearbody d0. rewrite Ep, Eb.
  destruct (periods_fit b (period_ticks d) now) as (Hk & Hf & ->); [lia..|].
  set (d1 := d0 <| next_replenish_ticks := _ |> <| remaining_ticks := _ |> <| replenish_count := _ |>).
  assert (counters_ok d1) as Hc1.
  { destruct Hc0. split; [cbn; apply counter_add_range; lia|done]. }
  assert ((now - b) / period_ticks d <= now - b) by (apply Z.div_le_upper_bound; nia).
  rewrite walk_fresh; subst d1; cbn; rewrite ?Ep, ?Eb; try done; try lia; [|unfold BFP_TIME_BOUND in *; lia].
  f_equal. unfold bfp_charge_current_period, fresh_after, count_overrun. cbn. rewrite ?Ep, ?Eb.
  pose proof (Z.mod_pos_bound (now - b) (period_ticks d) ltac:(lia)) as Hm.
  unfold BFP_TIME_BOUND in *. set (f := (now - b) / period_ticks d) in *. clearbody f.
  destruct Hc0 as [Hc0 Hc0']. rewrite counter_add_twice by lia. destruct d0; cbn in *. subst.
  rewrite (Z.add_comm 1 f). replace (b + period_ticks d + f * period_ticks d) with (b + (f + 1) * period_ticks d) by lia.
  destruct (Z.ltb_spec (budget_ticks d) (period_ticks d)); rewrite ?andb_true_r, ?andb_false_r;
    [destruct (Z.eqb_spec f 0) as [->|]|]; cbn;
    destruct (_ <? (now - b) mod period_ticks d); cbn; rewrite ?counter_add_0 by lia; done.
Qed.

Lemma charge_run_ok start now d :
  server_ok d -> time_ok now -> 0 <= start < now ->
  let d' := charge_run start now d in
  server_ok d' /\ static d d' /\ last_start_ticks d' = last_start_ticks d.
Proof.
  intros Ho Hn Hs. cbn zeta. unfold charge_run. unfold server_ok, time_ok in *.
  destruct (Z.eqb_spec (next_replenish_ticks d) UINT64_MAX); [unfold BFP_TIME_BOUND in *; lia|]. cbn [orb].
  destruct (Z.ltb_spec now (next_replenish_ticks d)) as [Hlt|Hge].
  { unfold bfp_charge_current_period, static. zb; cbn; split_and!; try done; lia. }
  set (d0 := if start <? _ then _ else d).
  assert (static d d0 /\ last_start_ticks d0 = last_start_ticks d) as [(Ep & Eb & Er & Eq) El].
  { subst d0. unfold bfp_charge_current_period, static. zb; done. }
  clearbody d0. rewrite ?Ep, ?Eb.
  destruct (periods_fit (next_replenish_ticks d) (period_ticks d) now) as (Hk & Hf & ->); [lia..|].
  pose proof (Z.mod_pos_bound (now - next_replenish_ticks d) (period_ticks d) ltac:(lia)) as Hm.
  unfold static, count_overrun. destruct (negb _ && _); cbn; rewrite ?Eb, ?Ep;
    destruct (Z.ltb_spec (budget_ticks d) ((now - next_replenish_ticks d) mod period_ticks d));
    cbn; rewrite ?Eb, ?Ep, ?Er, ?Eq, ?El; split_and!; try done; lia.
Qed.

(** ** Response-time analysis *)

(** [C_i + sum over j of the same or higher priority of ceil(r / T_j) * C_j] *)
Definition interferes (task : bfp_admission_task) (task_idx idx : nat) (x : bfp_admission_task) : bool :=
  negb (bool_decide (idx = task_idx) || (t_priority x <? t_priority task)).
Definition ceil_div (a b : Z) : Z := - (- a / b).
Fixpoint interference (task : bfp_admission_task) (task_idx idx : nat) (r : Z)
    (tasks : list bfp_admission_task) : Z :=
  match tasks with
  | [] => 0
  | x :: rest => (if interferes task task_idx idx x then ceil_div r (t_period_us x) * t_budget_us x else 0) +
                 interference task task_idx (S idx) r rest
  end.
Definition rta_demand (tasks : list bfp_admission_task) (task_idx : nat) (task : bfp_admission_task) (r : Z) : Z :=
  t_budget_us task + interference task task_idx 0 r tasks.

Definition task_ok (x : bfp_admission_task) : Prop := 0 < t_budget_us x <= t_period_us x.

Lemma ceil_div_code a b : 0 <= a -> 0 < b ->
  (if negb (a mod b =? 0) then a / b + 1 else a / b) = ceil_div a b.
Proof.
  intros Ha Hb. unfold ceil_div. destruct (Z.eqb_spec (a mod b) 0) as [E|E]; cbn.
  - rewrite Z.div_opp_l_z by lia. lia.
  - rewrite Z.div_opp_l_nz by lia. lia.
Qed.

Lemma ceil_div_mono a a' b : 0 < b -> a <= a' -> ceil_div a b <= ceil_div a' b.
Proof. intros Hb Ha. unfold ceil_div. pose proof (Z.div_le_mono (- a') (- a) b Hb). lia. Qed.

Lemma interference_mono task i r r' : forall l idx,
  Forall task_ok l -> r <= r' -> interference task i idx r l <= interference task i idx r' l.
Proof.
  induction l as [|x l IH]; intros idx Hl Hr; cbn; [lia|]. apply Forall_cons in Hl as [Hx Hl].
  specialize (IH (S idx) Hl Hr). destruct (interferes _ _ _ _); [|lia].
  unfold task_ok in Hx. pose proof (ceil_div_mono r r' (t_period_us x) ltac:(lia) Hr). nia.
Qed.

Lemma demand_loop_eq task i r : forall l idx acc d,
  Forall task_ok l -> 0 <= r -> demand_loop task i idx r l acc = Ret d ->
  d = acc + interference task i idx r l.
Proof.
  induction l as [|x l IH]; intros idx acc d Hl Hr E; cbn in *; [injection E as <-; lia|].
  apply Forall_cons in Hl as [Hx Hl]. unfold interferes, task_ok in *.
  destruct (_ || _); cbn [negb]; [apply IH in E; done|].
  rewrite ceil_div_code in E by lia. repeat (destruct (_ <? _); [done|]).
  apply IH in E; [|done|done]. lia.
Qed.

Lemma demand_loop_panic task i r : forall l idx acc,
  demand_loop task i idx r l acc <> Panic "BFP admission failed".
Proof.
  induction l as [|x l IH]; intros idx acc; cbn; [done|]. destruct (_ || _); [done|].
  repeat (destruct (_ <? _); [done|]). done.
Qed.

(** [r] is below every response time within the period. *)
Definition below_responses (tasks : list bfp_admission_task) (i : nat) (task : bfp_admission_task) (r : Z) : Prop :=
  forall r', 0 <= r' <= t_period_us task -> rta_demand tasks i task r' <= r' -> r <= r'.

Lemma below_step tasks i task r :
  Forall task_ok tasks -> below_responses tasks i task r ->
  below_responses tasks i task (rta_demand tasks i task r).
Proof.
  intros Hl Hb r' Hr' Hd. specialize (Hb r' Hr' Hd). etransitivity; [|exact Hd].
  unfold rta_demand. pose proof (interference_mono task i r r' tasks 0 Hl Hb). lia.
Qed.

Lemma interference_nonneg task i r : forall l idx, Forall task_ok l -> 0 <= r -> 0 <= interference task i idx r l.
Proof.
  induction l as [|x l IH]; intros idx Hl Hr; cbn; [lia|]. apply Forall_cons in Hl as [Hx Hl].
  specialize (IH (S idx) Hl Hr). destruct (interferes _ _ _ _); [|lia]. unfold task_ok in Hx.
  pose proof (ceil_div_mono 0 r (t_period_us x) ltac:(lia) Hr) as Hc. unfold ceil_div in Hc at 1.
  rewrite Z.div_0_l in Hc by lia. nia.
Qed.

(** The iteration climbs to the least fixed point: an accepted task has it as its
    response, a rejected one has none within its period. *)
Lemma response_loop_ok n task i tasks : forall r,
  Forall task_ok tasks -> 0 <= t_budget_us task -> 0 <= r -> below_responses tasks i task r ->
  (forall R, response_loop n task i tasks r = Ret R ->
    rta_demand tasks i task R = R /\ 0 <= R <= t_period_us task /\ below_responses tasks i task R) /\
  (response_loop n task i tasks r = Panic "BFP admission failed" ->
    forall r', 0 <= r' <= t_period_us task -> r' < rta_demand tasks i task r').
Proof.
  induction n as [|n IH]; intros r Hl Hc Hr Hb; cbn [response_loop]; [done|].
  destruct (demand_loop task i 0 r tasks (t_budget_us task)) as [d|w|w] eqn:E; cbn [mbind outcome_bind].
  2: { split; [done|]. intros [= ->]. by apply demand_loop_panic in E. }
  2: done.
  apply demand_loop_eq in E; [|done..]. fold (rta_demand tasks i task r) in E. subst d.
  pose proof (below_step tasks i task r Hl Hb) as Hb'.
  assert (0 <= rta_demand tasks i task r) as Hd.
  { unfold rta_demand. pose proof (interference_nonneg task i r tasks 0 Hl Hr). lia. }
  destruct (Z.ltb_spec (t_period_us task) (rta_demand tasks i task r)) as [Hp|Hp].
  - split; [done|]. intros _ r' Hr'. destruct (Z.lt_ge_cases r' (rta_demand tasks i task r')); [done|].
    pose proof (Hb' r' Hr' ltac:(lia)). lia.
  - destruct (Z.eqb_spec (rta_demand tasks i task r) r) as [Ed|Ed]; [|by apply IH].
    split; [|done]. intros R [= <-]. split_and!; try done; lia.
Qed.

Lemma below_budget tasks i task :
  Forall task_ok tasks -> below_responses tasks i task (t_budget_us task).
Proof.
  intros Hl r' Hr'. unfold rta_demand. pose proof (interference_nonneg task i r' tasks 0 Hl ltac:(lia)). lia.
Qed.

Lemma normalize_us_ok plat pcpu prm period budget :
  bfp_normalize_us plat pcpu prm = Ret (period, budget) -> 500 <= budget <= period.
Proof.
  unfold bfp_normalize_us, BFP_MIN_PERIOD_US, BFP_MIN_BUDGET_US.
  destruct (match sched_get_pcpu_pool_config _ _ with Some _ => _ | None => _ end) as [a b].
  destruct (Z.ltb_spec a 500); [done|]. destruct (Z.ltb_spec b 500); [done|].
  destruct (Z.ltb_spec a b); [done|]. intros [= <- <-]. lia.
Qed.

Lemma collect_ok plat pcpu : forall cfgs vm tasks,
  bfp_collect_admission_tasks plat pcpu vm cfgs = Ret tasks -> Forall task_ok tasks.
Proof.
  induction cfgs as [|cfg cfgs IH]; intros vm tasks E; cbn in E; [injection E as <-; constructor|].
  destruct (bfp_vm_uses_pcpu _ _); [|by eapply IH]. destruct (_ <=? _); [done|]. inv_ret.
  destruct r as [a b]. inv_ret. subst. constructor; [|by eapply IH].
  apply normalize_us_ok in E0. unfold task_ok. cbn. lia.
Qed.

Lemma validate_from_ok tasks : forall rest idx rs,
  validate_from tasks idx rest = Ret rs ->
  forall k task, rest !! k = Some task ->
  exists R, rs !! k = Some R /\ bfp_validate_response_time tasks (idx + k) task = Ret R.
Proof.
  induction rest as [|x rest IH]; intros idx rs E k task Hk; [done|]. cbn [validate_from] in E. inv_ret. subst.
  destruct k as [|k]; cbn in *.
  - injection Hk as ->. exists r. by rewrite Nat.add_0_r.
  - destruct (IH (S idx) _ E1 k task Hk) as (R & HR & HV). exists R. by rewrite Nat.add_succ_r.
Qed.

(** ** Well-formed queues *)
Definition tag (p : sched_bfp_control) (t : tid) : sched_bfp_queue := queue (data_of p t).
Definition boundary_of (p : sched_bfp_control) (t : tid) : Z := next_replenish_ticks (data_of p t).
Definition remaining_of (p : sched_bfp_control) (t : tid) : Z := remaining_ticks (data_of p t).
Definition prio_of (p : sched_bfp_control) (t : tid) : Z := priority (data_of p t).

(** [init_data] has given the thread a server. *)
Definition served (p : sched_bfp_control) (t : tid) : Prop := period_ticks (data_of p t) <> 0.

(** The [queue] field says which queue the node is on. *)
Definition bfp_wf (p : sched_bfp_control) : Prop :=
  NoDup (ready_queue p) /\ NoDup (depleted_queue p) /\
  (forall t, t ∈ ready_queue p <-> tag p t = BFP_QUEUE_READY) /\
  (forall t, t ∈ depleted_queue p <-> tag p t = BFP_QUEUE_DEPLETED).

Lemma bfp_data_set t d p u :
  data_of (set_data t d p) u = if decide (t = u) then d else data_of p u.
Proof.
  unfold data_of, set_data. cbn. case_decide as E.
  - subst. apply lookup_total_insert_eq.
  - by apply lookup_total_insert_ne.
Qed.

Lemma bfp_queue_same d : d <| queue := queue d |> = d.
Proof. by destruct d. Qed.

Lemma bfp_remove_eq t p :
  bfp_wf p ->
  ready_queue (bfp_queue_remove t p) = list_del_init t (ready_queue p) /\
  depleted_queue (bfp_queue_remove t p) = list_del_init t (depleted_queue p) /\
  forall u, data_of (bfp_queue_remove t p) u =
    if decide (t = u) then (data_of p t) <| queue := BFP_QUEUE_NONE |> else data_of p u.
Proof.
  intros (_ & _ & Hr & Hd). unfold bfp_queue_remove, bfp_is_queued. case_bool_decide as E; cbn [negb].
  - rewrite !list_del_init_id by (rewrite ?Hr, ?Hd; unfold tag; congruence). split_and!; try done.
    intros u. case_decide; [|done]. subst u. rewrite <- E. by rewrite bfp_queue_same.
  - split_and!; try done. intros u. by rewrite bfp_data_set.
Qed.

Lemma bfp_ready_insert_eq keep t p :
  bfp_wf p ->
  ready_queue (bfp_ready_insert keep t p) =
    insert_before (ready_before keep p t) t (list_del_init t (ready_queue p)) /\
  depleted_queue (bfp_ready_insert keep t p) = list_del_init t (depleted_queue p) /\
  forall u, data_of (bfp_ready_insert keep t p) u =
    if decide (t = u) then (data_of p t) <| queue := BFP_QUEUE_READY |> else data_of p u.
Proof.
  intros Hw. destruct (bfp_remove_eq t p Hw) as (Er & Ed & Da). unfold bfp_ready_insert. split_and!.
  - cbn. rewrite Er. apply insert_before_ext. intros y _. unfold ready_before. rewrite !Da.
    destruct (decide (t = t)); [|done]. destruct (decide (t = y)); by subst.
  - exact Ed.
  - intros u. rewrite bfp_data_set, Da. destruct (decide (t = t)); [|done].
    specialize (Da u). destruct (decide (t = u)); [done|exact Da].
Qed.

Lemma bfp_depleted_insert_eq t p :
  bfp_wf p ->
  ready_queue (bfp_depleted_insert t p) = list_del_init t (ready_queue p) /\
  depleted_queue (bfp_depleted_insert t p) =
    insert_before (fun x => boundary_of p t <? boundary_of p x) t (list_del_init t (depleted_queue p)) /\
  forall u, data_of (bfp_depleted_insert t p) u =
    if decide (t = u) then (data_of p t) <| queue := BFP_QUEUE_DEPLETED |>
                                         <| depleted_count := u64 (depleted_count (data_of p t) + 1) |>
    else data_of p u.
Proof.
  intros Hw. destruct (bfp_remove_eq t p Hw) as (Er & Ed & Da). unfold bfp_depleted_insert. split_and!.
  - exact Er.
  - cbn. rewrite Ed. apply insert_before_ext. intros y _. unfold boundary_of. rewrite !Da.
    destruct (decide (t = t)); [|done]. destruct (decide (t = y)); by subst.
  - intros u. rewrite bfp_data_set, Da. destruct (decide (t = t)); [|done].
    specialize (Da u). destruct (decide (t = u)); [done|exact Da].
Qed.

(** Putting [t] on the queue [q] and nowhere else. *)
Lemma requeue_wf t q p p' :
  bfp_wf p -> (forall u, tag p' u = if decide (t = u) then q else tag p u) ->
  NoDup (ready_queue p') -> NoDup (depleted_queue p') ->
  (forall u, u ∈ ready_queue p' <-> (u = t /\ q = BFP_QUEUE_READY) \/ (u ∈ ready_queue p /\ u <> t)) ->
  (forall u, u ∈ depleted_queue p' <-> (u = t /\ q = BFP_QUEUE_DEPLETED) \/ (u ∈ depleted_queue p /\ u <> t)) ->
  bfp_wf p'.
Proof.
  intros (_ & _ & Hr & Hd) Ht N1 N2 H1 H2. split_and!; try done; intros u;
    rewrite ?H1, ?H2, ?Hr, ?Hd, Ht; destruct (decide (t = u)); subst; naive_solver.
Qed.

Lemma bfp_remove_wf t p : bfp_wf p -> bfp_wf (bfp_queue_remove t p).
Proof.
  intros Hw. destruct (bfp_remove_eq t p Hw) as (Er & Ed & Da). pose proof Hw as (Nr & Nd & _).
  apply (requeue_wf t BFP_QUEUE_NONE p); rewrite ?Er, ?Ed; eauto with beau.
  - intros u. unfold tag. rewrite Da. by destruct (decide (t = u)).
  - intros u. rewrite list_del_init_elem. naive_solver.
  - intros u. rewrite list_del_init_elem. naive_solver.
Qed.

Lemma bfp_ready_insert_wf keep t p : bfp_wf p -> bfp_wf (bfp_ready_insert keep t p).
Proof.
  intros Hw. destruct (bfp_ready_insert_eq keep t p Hw) as (Er & Ed & Da). pose proof Hw as (Nr & Nd & _).
  apply (requeue_wf t BFP_QUEUE_READY p); rewrite ?Er, ?Ed; eauto with beau.
  - intros u. unfold tag. rewrite Da. by destruct (decide (t = u)).
  - apply insert_before_NoDup; [rewrite list_del_init_elem; tauto|eauto with beau].
  - intros u. rewrite insert_before_elem, list_del_init_elem. naive_solver.
  - intros u. rewrite list_del_init_elem. naive_solver.
Qed.

Lemma bfp_depleted_insert_wf t p : bfp_wf p -> bfp_wf (bfp_depleted_insert t p).
Proof.
  intros Hw. destruct (bfp_depleted_insert_eq t p Hw) as (Er & Ed & Da). pose proof Hw as (Nr & Nd & _).
  apply (requeue_wf t BFP_QUEUE_DEPLETED p); rewrite ?Er, ?Ed; eauto with beau.
  - intros u. unfold tag. rewrite Da. by destruct (decide (t = u)).
  - apply insert_before_NoDup; [rewrite list_del_init_elem; tauto|eauto with beau].
  - intros u. rewrite list_del_init_elem. naive_solver.
  - intros u. rewrite insert_before_elem, list_del_init_elem. naive_solver.
Qed.

Lemma bfp_set_same t d p :
  queue d = tag p t -> bfp_wf p ->
  bfp_wf (set_data t d p) /\ forall x, tag (set_data t d p) x = tag p x.
Proof.
  intros E (Nr & Nd & Hr & Hd).
  assert (forall x, tag (set_data t d p) x = tag p x) as Ht.
  { intros x. unfold tag in *. rewrite bfp_data_set. by destruct (decide (t = x)) as [<-|]. }
  split; [|done]. unfold bfp_wf. split_and!; try done; intros u; rewrite Ht; [apply Hr|apply Hd].
Qed.

(** ** The invariant *)

(** The recorded deadline is the one of the running timer. *)
Definition timer_ok (p : sched_bfp_control) : Prop :=
  func (th_timer (tick_timer p)) = true /\
  (th_started (tick_timer p) = true -> timeout (th_timer (tick_timer p)) = timer_deadline_ticks p).

Definition skip (c : option tid) (l : list tid) : list tid :=
  match c with Some t => list_del_init t l | None => l end.

(** The invariant with one thread left out of the ordering and budget clauses. *)
Definition inv_but (c : option tid) (p : sched_bfp_control) : Prop :=
  bfp_wf p /\ timer_ok p /\
  (forall t, served p t -> server_ok (data_of p t)) /\
  (forall t, tag p t <> BFP_QUEUE_NONE -> served p t) /\
  StronglySorted (key_le (fun t => - prio_of p t)) (skip c (ready_queue p)) /\
  StronglySorted (key_le (boundary_of p)) (skip c (depleted_queue p)) /\
  (forall t, t ∈ ready_queue p -> c <> Some t -> 0 < remaining_of p t) /\
  (forall t, t ∈ depleted_queue p -> c <> Some t -> remaining_of p t = 0).
Definition bfp_inv : sched_bfp_control -> Prop := inv_but None.

Definition same_timer (p p' : sched_bfp_control) : Prop :=
  tick_timer p' = tick_timer p /\ timer_deadline_ticks p' = timer_deadline_ticks p.

(** What a step leaves alone: the timer and every thread but [t]. *)
Definition only (t : tid) (p p' : sched_bfp_control) : Prop :=
  same_timer p p' /\ (forall u, u <> t -> data_of p' u = data_of p u) /\
  period_ticks (data_of p' t) = period_ticks (data_of p t) /\
  prio_of p' t = prio_of p t.
#[export] Instance only_refl t : Reflexive (only t).
Proof. by intros p. Qed.
#[export] Instance only_trans t : Transitive (only t).
Proof.
  intros a b c ([? ?] & Hab & ? & ?) ([? ?] & Hbc & ? & ?). unfold only, same_timer. split_and!; try congruence.
  intros u Hu. by rewrite Hbc, Hab.
Qed.

Lemma only_served t p p' u : only t p p' -> served p u <-> served p' u.
Proof.
  intros (_ & Hu & Hp & _). unfold served. destruct (decide (u = t)) as [->|Hne]; [by rewrite Hp|by rewrite Hu].
Qed.

Lemma bfp_inv_weaken t p : bfp_inv p -> inv_but (Some t) p.
Proof.
  intros (Hw & Ht & Hs & Hk & So & Sd & Hr & Hd). unfold inv_but. split_and!; eauto with beau; cbn; eauto with beau.
Qed.

Lemma bfp_inv_strengthen t p : inv_but (Some t) p -> tag p t = BFP_QUEUE_NONE -> bfp_inv p.
Proof.
  intros (Hw & Ht & Hs & Hk & So & Sd & Hr & Hd) Et. pose proof Hw as (_ & _ & Wr & Wd). cbn in So, Sd.
  rewrite list_del_init_id in So by (rewrite Wr; congruence).
  rewrite list_del_init_id in Sd by (rewrite Wd; congruence).
  unfold bfp_inv, inv_but. split_and!; try done.
  - intros u Hu _. apply Hr; [done|]. intros [= <-]. apply Wr in Hu. congruence.
  - intros u Hu _. apply Hd; [done|]. intros [= <-]. apply Wd in Hu. congruence.
Qed.

(** Changing the data of a thread, not the queue it is on. *)
Lemma bfp_set_data_ok t d p :
  queue d = tag p t -> period_ticks d = period_ticks (data_of p t) -> priority d = prio_of p t ->
  (served p t -> server_ok d) -> inv_but (Some t) p ->
  inv_but (Some t) (set_data t d p) /\ only t p (set_data t d p) /\
  (forall u, tag (set_data t d p) u = tag p u) /\ data_of (set_data t d p) t = d.
Proof.
  intros Eq Ep Epr Hd (Hw & Ht & Hs & Hk & So & Sd & Hr & Hdp).
  destruct (bfp_set_same t d p Eq Hw) as [Hw' Htag].
  assert (data_of (set_data t d p) t = d) as Et by by rewrite bfp_data_set, decide_True.
  assert (forall u, u <> t -> data_of (set_data t d p) u = data_of p u) as Hu.
  { intros u Hne. by rewrite bfp_data_set, decide_False by congruence. }
  assert (only t p (set_data t d p)) as Ho.
  { unfold only, prio_of. rewrite Et. by split_and!. }
  assert (forall R l, StronglySorted (key_le (R p)) (list_del_init t l) ->
    (forall u, u <> t -> R (set_data t d p) u = R p u) ->
    StronglySorted (key_le (R (set_data t d p))) (list_del_init t l)) as Hsort.
  { intros R l So' HR. eapply StronglySorted_ext; [|exact So'].
    intros x y [_ Hx]%list_del_init_elem [_ Hy]%list_del_init_elem. unfold key_le. by rewrite !HR. }
  split_and!; try done. unfold inv_but. split_and!; try done.
  - intros u Hsv. destruct (decide (u = t)) as [->|Hne]; [rewrite Et; apply Hd; by apply (only_served t p) in Hsv|].
    rewrite Hu by done. apply Hs. by rewrite (only_served t p).
  - intros u. rewrite Htag, <- (only_served t p _ u Ho). apply Hk.
  - apply (Hsort (fun p t => - prio_of p t)); [done|]. intros u Hne. unfold prio_of. by rewrite Hu.
  - apply (Hsort boundary_of); [done|]. intros u Hne. unfold boundary_of. by rewrite Hu.
  - intros u Hin Hne. unfold remaining_of. rewrite Hu by congruence. by apply Hr.
  - intros u Hin Hne. unfold remaining_of. rewrite Hu by congruence. by apply Hdp.
Qed.

(** Moving one thread to another queue: its server stays what it was. *)
Definition server_of (d : sched_bfp_data) : list Z :=
  [period_ticks d; budget_ticks d; remaining_ticks d; next_replenish_ticks d; last_start_ticks d; priority d].
Definition moved (t : tid) (q : sched_bfp_queue) (p p' : sched_bfp_control) : Prop :=
  bfp_wf p' /\ same_timer p p' /\ (forall u, u <> t -> data_of p' u = data_of p u) /\
  server_of (data_of p' t) = server_of (data_of p t) /\ tag p' t = q.

Lemma moved_only t q p p' : moved t q p p' -> only t p p'.
Proof. intros (_ & ? & ? & E & _). injection E as ? ? ? ? ? ?. by split_and!. Qed.

Lemma moved_same t q p p' : moved t q p p' -> forall u,
  boundary_of p' u = boundary_of p u /\ remaining_of p' u = remaining_of p u /\ prio_of p' u = prio_of p u /\
  (server_ok (data_of p u) -> server_ok (data_of p' u)).
Proof.
  intros (_ & _ & Hu & E & _) u. injection E as E1 E2 E3 E4 E5 E6. unfold boundary_of, remaining_of, prio_of, server_ok.
  destruct (decide (u = t)) as [->|Hne]; [rewrite E1, E2, E3, E4, E5, E6|rewrite Hu]; done.
Qed.

Lemma bfp_moved_inv t q p p' :
  inv_but (Some t) p -> served p t -> moved t q p p' ->
  StronglySorted (key_le (fun t => - prio_of p t)) (ready_queue p') ->
  StronglySorted (key_le (boundary_of p)) (depleted_queue p') ->
  (q = BFP_QUEUE_READY -> 0 < remaining_of p t) ->
  (q = BFP_QUEUE_DEPLETED -> remaining_of p t = 0) -> bfp_inv p'.
Proof.
  intros (Hw & [Ht Ht'] & Hs & Hk & _ & _ & Hr & Hd) Hsv Hm So Sd Hq1 Hq2.
  pose proof (moved_only t q p p' Hm) as Ho. pose proof (moved_same t q p p' Hm) as Hf.
  destruct Hm as (Hw' & [E1 E2] & Hu & _ & Htq). pose proof Hw as (_ & _ & Wr & Wd). pose proof Hw' as (_ & _ & Wr' & Wd').
  assert (forall u, u <> t -> tag p' u = tag p u) as Htag by (intros u Hne; unfold tag; by rewrite Hu).
  unfold bfp_inv, inv_but, timer_ok. rewrite E1, E2. split_and!; try done.
  - intros u Hv. apply Hf, Hs. by rewrite (only_served t p p').
  - intros u. rewrite <- (only_served t p p' u Ho). destruct (decide (u = t)) as [->|Hne]; [done|].
    rewrite Htag by done. apply Hk.
  - eapply StronglySorted_ext; [|exact So]. intros x y _ _. unfold key_le.
    by rewrite (proj1 (proj2 (proj2 (Hf x)))), (proj1 (proj2 (proj2 (Hf y)))).
  - eapply StronglySorted_ext; [|exact Sd]. intros x y _ _. unfold key_le. by rewrite (proj1 (Hf x)), (proj1 (Hf y)).
  - intros u Hin _. rewrite (proj1 (proj2 (Hf u))). apply Wr' in Hin. destruct (decide (u = t)) as [->|Hne].
    + apply Hq1. congruence.
    + apply Hr; [apply Wr; by rewrite <- Htag|congruence].
  - intros u Hin _. rewrite (proj1 (proj2 (Hf u))). apply Wd' in Hin. destruct (decide (u = t)) as [->|Hne].
    + apply Hq2. congruence.
    + apply Hd; [apply Wd; by rewrite <- Htag|congruence].
Qed.

Lemma bfp_moved_intro t q n p p' :
  bfp_wf p' -> same_timer p p' ->
  (forall u, data_of p' u =
    if decide (t = u) then (data_of p t) <| queue := q |> <| depleted_count := n |> else data_of p u) ->
  moved t q p p'.
Proof.
  intros Hw St Da. unfold moved, tag. split_and!; try done.
  - intros u Hne. by rewrite Da, decide_False by congruence.
  - by rewrite Da, decide_True.
  - by rewrite Da, decide_True.
Qed.

Lemma bfp_remove_timer t p : same_timer p (bfp_queue_remove t p).
Proof. unfold bfp_queue_remove. by destruct (bfp_is_queued _). Qed.

Lemma bfp_remove_ok t p :
  served p t -> inv_but (Some t) p ->
  bfp_inv (bfp_queue_remove t p) /\ moved t BFP_QUEUE_NONE p (bfp_queue_remove t p).
Proof.
  intros Hk Hi. pose proof Hi as (Hw & _ & _ & _ & So & Sd & _). destruct (bfp_remove_eq t p Hw) as (Er & Ed & Da).
  assert (moved t BFP_QUEUE_NONE p (bfp_queue_remove t p)) as Hm.
  { apply (bfp_moved_intro _ _ (depleted_count (data_of p t))); [by apply bfp_remove_wf|apply bfp_remove_timer|].
    intros u. rewrite Da. by destruct (decide (t = u)), (data_of p t). }
  split; [|done]. eapply bfp_moved_inv; [done..|by rewrite Er|by rewrite Ed|done|done].
Qed.

Lemma bfp_ready_insert_ok keep t p :
  served p t -> inv_but (Some t) p -> 0 < remaining_of p t ->
  bfp_inv (bfp_ready_insert keep t p) /\ moved t BFP_QUEUE_READY p (bfp_ready_insert keep t p).
Proof.
  intros Hk Hi H0. pose proof Hi as (Hw & _ & _ & _ & So & Sd & _).
  destruct (bfp_ready_insert_eq keep t p Hw) as (Er & Ed & Da).
  assert (moved t BFP_QUEUE_READY p (bfp_ready_insert keep t p)) as Hm.
  { apply (bfp_moved_intro _ _ (depleted_count (data_of p t))); [by apply bfp_ready_insert_wf| |].
    - apply bfp_remove_timer.
    - intros u. rewrite Da. by destruct (decide (t = u)), (data_of p t). }
  split; [|done]. eapply bfp_moved_inv; [done..| |by rewrite Ed|done|done]. rewrite Er.
  apply (insert_before_sorted _); [..|exact So]; unfold key_le, ready_before, prio_of; intros y _;
    destruct keep; cbn; zb; try done; lia.
Qed.

Lemma bfp_depleted_insert_ok t p :
  served p t -> inv_but (Some t) p -> remaining_of p t = 0 ->
  bfp_inv (bfp_depleted_insert t p) /\ moved t BFP_QUEUE_DEPLETED p (bfp_depleted_insert t p).
Proof.
  intros Hk Hi H0. pose proof Hi as (Hw & _ & _ & _ & So & Sd & _).
  destruct (bfp_depleted_insert_eq t p Hw) as (Er & Ed & Da).
  assert (moved t BFP_QUEUE_DEPLETED p (bfp_depleted_insert t p)) as Hm.
  { eapply bfp_moved_intro; [by apply bfp_depleted_insert_wf|apply bfp_remove_timer|exact Da]. }
  split; [|done]. eapply bfp_moved_inv; [done..|by rewrite Er| |done|done]. rewrite Ed.
  apply (insert_before_sorted _); [..|exact Sd]; unfold key_le; intros y _; zb; try done; lia.
Qed.

(** Putting a thread on the queue its budget calls for repairs the invariant. *)
Definition place (keep : bool) (t : tid) (p : sched_bfp_control) : sched_bfp_control :=
  if negb (remaining_ticks (data_of p t) =? 0) then bfp_ready_insert keep t p else bfp_depleted_insert t p.
Definition proper_queue (p : sched_bfp_control) (t : tid) : sched_bfp_queue :=
  if negb (remaining_ticks (data_of p t) =? 0) then BFP_QUEUE_READY else BFP_QUEUE_DEPLETED.

Lemma bfp_place_ok keep t p :
  served p t -> inv_but (Some t) p ->
  bfp_inv (place keep t p) /\ moved t (proper_queue p t) p (place keep t p).
Proof.
  intros Hk Hi. pose proof Hi as (_ & _ & Hs & _). destruct (Hs t Hk) as (_ & _ & Hrem & _).
  unfold place, proper_queue. destruct (Z.eqb_spec (remaining_ticks (data_of p t)) 0); cbn [negb].
  - by apply bfp_depleted_insert_ok.
  - apply bfp_ready_insert_ok; [done..|]. unfold remaining_of. lia.
Qed.

(** ** Refreshing *)
Definition advanced (now : Z) (t : tid) (p : sched_bfp_control) : sched_bfp_control :=
  set_data t (snd (bfp_advance_inactive_period now (data_of p t))) p.

Lemma bfp_advanced_ok now t p :
  served p t -> inv_but (Some t) p -> time_ok now ->
  let p' := advanced now t p in
  inv_but (Some t) p' /\ only t p p' /\ (forall u, tag p' u = tag p u) /\ now < boundary_of p' t /\
  (boundary_of p t <= now -> 0 < remaining_of p' t) /\ (now < boundary_of p t -> data_of p' t = data_of p t).
Proof.
  intros Hk Hi Hn. cbn zeta. unfold advanced. pose proof Hi as (_ & _ & Hs & _). pose proof (Hs t Hk) as Ho.
  pose proof (bfp_advance_ok now (data_of p t) Ho Hn) as Ha.
  destruct (bfp_advance_inactive_period now (data_of p t)) as [b d]. cbn [snd].
  destruct Ha as (Od & (Ep & Eb & Er & Eq) & El & Hlt & Hb & Hadv & Hid).
  destruct (bfp_set_data_ok t d p) as (Hi' & Ho' & Ht' & Ed); [done..|].
  unfold boundary_of, remaining_of. rewrite Ed. split_and!; try done.
  - intros Hle. destruct Ho. rewrite Hadv; [lia|]. rewrite Hb. apply Z.leb_le. done.
  - intros Hgt. apply Hid. rewrite Hb. by apply Z.leb_gt.
Qed.

Lemma bfp_refresh_thread_ok v t now keep p :
  served p t -> inv_but (Some t) p -> time_ok now ->
  let p' := bfp_refresh_thread v t now keep p in
  bfp_inv p' /\ only t p p' /\ now < boundary_of p' t /\
  tag p' t = if is_active v t then proper_queue p' t else BFP_QUEUE_NONE.
Proof.
  intros Hk Hi Hn. cbn zeta. unfold bfp_refresh_thread. fold (advanced now t p).
  destruct (bfp_advanced_ok now t p Hk Hi Hn) as (Hi1 & O1 & T1 & N1 & _).
  set (p1 := advanced now t p) in *. clearbody p1. apply (only_served t p p1 t O1) in Hk.
  destruct (is_active v t); cbn [negb].
  - fold (place keep t p1). destruct (bfp_place_ok keep t p1 Hk Hi1) as [Hi2 Hm].
    pose proof (moved_same _ _ _ _ Hm t) as (En & Er & _). pose proof (moved_only _ _ _ _ Hm) as O2.
    destruct Hm as (_ & _ & _ & _ & Ht). split_and!; [done|by etransitivity|by rewrite En|].
    rewrite Ht. unfold proper_queue. unfold remaining_of in Er. by rewrite Er.
  - destruct (bfp_remove_ok t p1 Hk Hi1) as [Hi2 Hm]. pose proof (moved_same _ _ _ _ Hm t) as (En & _).
    pose proof (moved_only _ _ _ _ Hm) as O2. destruct Hm as (_ & _ & _ & _ & Ht).
    split_and!; [done|by etransitivity|by rewrite En|done].
Qed.

Lemma bfp_account_ok v t now p :
  served p t -> inv_but (Some t) p -> time_ok now ->
  let p' := bfp_account_runtime v t now p in
  inv_but (Some t) p' /\ only t p p' /\ (forall u, tag p' u = tag p u).
Proof.
  intros Hk Hi Hn. cbn zeta. unfold bfp_account_runtime. pose proof Hi as (_ & _ & Hs & _). pose proof (Hs t Hk) as Ho.
  destruct (_ || (now <=? _)) eqn:T; [done|]. apply orb_false_iff in T as [_ T%Z.leb_gt].
  destruct (charge_run_ok (last_start_ticks (data_of p t)) now ((data_of p t) <| last_start_ticks := now |>))
    as (Od & (Ep & Eb & Er & Eq) & _); [|done| |].
  { unfold server_ok, time_ok in *. cbn. tauto. }
  { destruct Ho as (_ & _ & _ & _ & ?). lia. }
  destruct (bfp_set_data_ok t (charge_run (last_start_ticks (data_of p t)) now ((data_of p t) <| last_start_ticks := now |>)) p)
    as (Hi' & Ho' & Ht' & _); [done..|]. by split_and!.
Qed.

(** What the framework guarantees: queued threads are active, the current thread
    has a server, and is not charged while queued. *)
Definition view_ok (v : sched_view) (p : sched_bfp_control) : Prop :=
  (forall x, tag p x <> BFP_QUEUE_NONE -> is_active v x = true) /\
  (forall c, v_curr v = Some c -> is_idle_thread v c = false ->
    served p c /\ (tag p c = BFP_QUEUE_NONE \/ last_start_ticks (data_of p c) = 0)) /\
  is_idle_thread v (Idle (v_cpu v)) = true /\ v_pcpu v = v_cpu v.

Definition candidate (v : sched_view) (p : sched_bfp_control) (x : tid) : Prop :=
  tag p x <> BFP_QUEUE_NONE \/ active_current v x.

Lemma bfp_proper_some p t : proper_queue p t <> BFP_QUEUE_NONE.
Proof. unfold proper_queue. by destruct (negb _). Qed.

Lemma only_tag t p p' u : only t p p' -> u <> t -> tag p' u = tag p u.
Proof. intros (_ & Hu & _) Hne. unfold tag. by rewrite Hu. Qed.

Lemma idle_inactive v x : is_idle_thread v x = true -> is_active v x = false.
Proof. intros E. unfold is_active. by rewrite E. Qed.

Lemma bfp_settle_ok v now p :
  bfp_inv p -> view_ok v p -> time_ok now ->
  let p' := settle_current v now p in
  bfp_inv p' /\ same_timer p p' /\ (forall x, tag p' x <> BFP_QUEUE_NONE <-> candidate v p x) /\
  (forall x, v_curr v <> Some x -> data_of p' x = data_of p x).
Proof.
  intros Hi (Va & Vk & _) Hn. cbn zeta. unfold settle_current, candidate, active_current.
  destruct (v_curr v) as [c|] eqn:Ec; [|split_and!; try done; intros x; split; [auto|by intros [?|[? _]]]].
  destruct (is_idle_thread v c) eqn:Ei.
  { split_and!; try done. intros x. split; [auto|]. intros [?|[[= <-] Ha]]; [done|].
    by rewrite idle_inactive in Ha. }
  destruct (Vk c eq_refl Ei) as [Hk _].
  destruct (bfp_account_ok v c now p Hk (bfp_inv_weaken c p Hi) Hn) as (Hi1 & O1 & T1).
  set (p1 := bfp_account_runtime v c now p) in *. clearbody p1.
  destruct (bfp_refresh_thread_ok v c now true p1) as (Hi2 & O2 & _ & T2);
    [by rewrite <- (only_served c p p1)|done..|].
  set (p2 := bfp_refresh_thread v c now true p1) in *. clearbody p2.
  assert (only c p p2) as O by by etransitivity. split_and!; [done|apply O| |].
  - intros x. destruct (decide (x = c)) as [->|Hne].
    + rewrite T2. pose proof (bfp_proper_some p2 c). specialize (Va c). destruct (is_active v c); naive_solver.
    + rewrite (only_tag c p p2 x O Hne). naive_solver.
  - intros x Hx. apply O. congruence.
Qed.

(** ** The two loops of [bfp_refresh_queues]

    They keep the set of queued threads, and every server whose period is not
    over. *)
Definition refreshed (now : Z) (p p' : sched_bfp_control) : Prop :=
  bfp_inv p' /\ same_timer p p' /\
  (forall x, tag p' x <> BFP_QUEUE_NONE <-> tag p x <> BFP_QUEUE_NONE) /\
  (forall x, served p x <-> served p' x) /\ (forall x, prio_of p' x = prio_of p x) /\
  (forall x, now < boundary_of p x -> data_of p' x = data_of p x).

Lemma refreshed_refl now p : bfp_inv p -> refreshed now p p.
Proof. intros Hi. unfold refreshed, same_timer. by split_and!. Qed.

(** One queued thread [x] of a refreshed state enters its new period. *)
Lemma bfp_refreshed_step now p0 s s' x :
  refreshed now p0 s -> bfp_inv s' -> only x s s' -> tag s x <> BFP_QUEUE_NONE -> tag s' x <> BFP_QUEUE_NONE ->
  boundary_of s x <= now \/ data_of s' x = data_of s x -> refreshed now p0 s'.
Proof.
  intros (Hi & [Ft Fd] & Hq & Hsv & Hp & Hd) Hi' O Tx Tx' Hx. pose proof O as ([St Sd] & Ou & _ & Epr).
  unfold refreshed, same_timer. split_and!; try done; try congruence; intros u.
  - rewrite <- Hq. destruct (decide (u = x)) as [->|Hne]; [tauto|]. by rewrite (only_tag x s s').
  - by rewrite Hsv, (only_served x s s').
  - rewrite <- Hp. destruct (decide (u = x)) as [->|Hne]; [done|]. unfold prio_of. by rewrite Ou.
  - intros Hu. pose proof (Hd u Hu) as Eu. destruct (decide (u = x)) as [->|Hne]; [|by rewrite Ou].
    destruct Hx as [Hx|Hx]; [|congruence]. unfold boundary_of in *. rewrite Eu in Hx. lia.
Qed.

Lemma advance_ready_inv now x p :
  bfp_inv p -> tag p x = BFP_QUEUE_READY -> time_ok now ->
  bfp_inv (advanced now x p) /\ only x p (advanced now x p) /\ now < boundary_of (advanced now x p) x /\
  (forall u, tag (advanced now x p) u = tag p u) /\
  (boundary_of p x <= now \/ data_of (advanced now x p) x = data_of p x).
Proof.
  intros Hi Tx Hn. pose proof Hi as (Hw & _ & _ & Hk & So & Sd & Hr & _). assert (served p x) as Hx by (apply Hk; congruence).
  destruct (bfp_advanced_ok now x p Hx (bfp_inv_weaken x p Hi) Hn) as (Hi1 & O1 & T1 & N1 & R1 & D1).
  destruct Hi1 as (Hw1 & Ht1 & Hs1 & Hk1 & _ & Sd1 & Hr1 & Hd1). pose proof Hw as (_ & _ & Wr & Wd).
  assert (ready_queue (advanced now x p) = ready_queue p) as Er by done.
  assert (depleted_queue (advanced now x p) = depleted_queue p) as Ed by done.
  set (p1 := advanced now x p) in *. clearbody p1.
  assert (forall u, prio_of p1 u = prio_of p u) as Ep.
  { intros u. destruct O1 as (_ & Hu & _ & ?). destruct (decide (u = x)) as [->|]; [done|]. unfold prio_of. by rewrite Hu. }
  split_and!; [|done|done|done|destruct (Z.le_gt_cases (boundary_of p x) now); auto].
  cbn in Sd1. rewrite Ed, list_del_init_id in Sd1 by (rewrite Wd; congruence). rewrite Er in *. rewrite Ed in *.
  unfold bfp_inv, inv_but. rewrite Er, Ed. split_and!; try done.
  - eapply StronglySorted_ext; [|exact So]. intros a b _ _. unfold key_le. by rewrite !Ep.
  - intros u Hu _. destruct (decide (u = x)) as [->|Hne]; [|apply Hr1; [done|congruence]].
    destruct (Z.le_gt_cases (boundary_of p x) now) as [|Hg]; [auto|]. unfold remaining_of. rewrite D1 by lia. by apply Hr.
  - intros u Hu _. destruct (decide (u = x)) as [->|Hne]; [apply Wd in Hu; congruence|]. apply Hd1; [done|congruence].
Qed.

Lemma refresh_ready_ok now p : forall l s,
  time_ok now -> refreshed now p s -> (forall x, x ∈ l -> tag s x = BFP_QUEUE_READY) ->
  let s' := foldl (fun p t => set_data t (snd (bfp_advance_inactive_period now (data_of p t))) p) s l in
  refreshed now p s' /\ (forall u, tag s' u = tag s u) /\
  (forall u, u ∈ l \/ now < boundary_of s u -> now < boundary_of s' u) /\ ready_queue s' = ready_queue s.
Proof.
  induction l as [|x l IH]; intros s Hn Hr Hl; cbn [foldl]; cbn zeta.
  { split_and!; try done. by intros u [?%elem_of_nil|?]. }
  fold (advanced now x s). pose proof Hr as (Hi & _). assert (tag s x = BFP_QUEUE_READY) as Tx by (apply Hl; qset).
  destruct (advance_ready_inv now x s Hi Tx Hn) as (Hi1 & O1 & N1 & T1 & D1).
  assert (ready_queue (advanced now x s) = ready_queue s) as Er by done.
  set (s1 := advanced now x s) in *. clearbody s1.
  destruct (IH s1 Hn) as (Hr' & T' & N' & Er').
  { apply (bfp_refreshed_step now p s s1 x); try done; rewrite ?T1; congruence. }
  { intros y Hy. rewrite T1. apply Hl. qset. }
  split_and!; [done|by intros u; rewrite T'| |congruence].
  intros u Hu. apply N'. destruct (decide (u = x)) as [->|Hne]; [auto|].
  destruct Hu as [[->|Hu]%elem_of_cons|Hu]; [done|auto|]. right. destruct O1 as (_ & E & _).
  unfold boundary_of in *. by rewrite E.
Qed.

Definition over (now : Z) (p : sched_bfp_control) (t : tid) : bool := boundary_of p t <=? now.

(** The invariant of the loop over the depleted queue. *)
Definition renewing (now : Z) (p s : sched_bfp_control) : Prop :=
  refreshed now p s /\ forall x, tag s x = BFP_QUEUE_READY -> now < boundary_of s x.

Lemma bfp_advance_flag now d :
  server_ok d -> time_ok now ->
  bfp_advance_inactive_period now d =
    (next_replenish_ticks d <=? now, snd (bfp_advance_inactive_period now d)).
Proof.
  intros Ho Hn. pose proof (bfp_advance_ok now d Ho Hn) as Ha.
  destruct (bfp_advance_inactive_period now d) as [b d']. destruct Ha as (_ & _ & _ & _ & -> & _). done.
Qed.

(** A server that has waited for its replenishment becomes ready. *)
Lemma depleted_renew now x s :
  bfp_inv s -> tag s x = BFP_QUEUE_DEPLETED -> time_ok now -> over now s x = true ->
  let s1 := bfp_queue_remove x (advanced now x s) in
  let s' := bfp_ready_insert false x s1 in
  remaining_ticks (data_of s1 x) <> 0 /\ bfp_inv s' /\ only x s s' /\ now < boundary_of s' x /\
  tag s' x = BFP_QUEUE_READY /\ depleted_queue s' = list_del_init x (depleted_queue s).
Proof.
  intros Hi Tx Hn Ho. apply Z.leb_le in Ho. cbn zeta. pose proof Hi as (_ & _ & _ & Hk & _).
  assert (served s x) as Hx by (apply Hk; congruence).
  destruct (bfp_advanced_ok now x s Hx (bfp_inv_weaken x s Hi) Hn) as (Hi1 & O1 & _ & N1 & R1 & _).
  specialize (R1 Ho). assert (depleted_queue (advanced now x s) = depleted_queue s) as Ed0 by done.
  set (s0 := advanced now x s) in *. clearbody s0. apply (only_served x s s0 x O1) in Hx.
  destruct (bfp_remove_ok x s0 Hx Hi1) as [Hi2 Hm2]. pose proof Hi1 as (Hw1 & _).
  destruct (bfp_remove_eq x s0 Hw1) as (_ & Ed1 & _).
  destruct (moved_same _ _ _ _ Hm2 x) as (En2 & Er2 & _). pose proof (moved_only _ _ _ _ Hm2) as O2.
  set (s1 := bfp_queue_remove x s0) in *. clearbody s1. apply (only_served x s0 s1 x O2) in Hx.
  destruct (bfp_ready_insert_ok false x s1 Hx (bfp_inv_weaken x s1 Hi2)) as [Hi3 Hm3]; [lia|].
  pose proof Hi2 as (Hw2 & _). destruct (bfp_ready_insert_eq false x s1 Hw2) as (_ & Ed2 & _).
  destruct (moved_same _ _ _ _ Hm3 x) as (En3 & _). pose proof (moved_only _ _ _ _ Hm3) as O3.
  destruct Hm3 as (_ & _ & _ & _ & Ht3).
  split_and!; [unfold remaining_of in *; lia|done|by etransitivity; [|etransitivity]|lia|done|].
  rewrite Ed2, Ed1, Ed0. apply list_del_init_id. rewrite list_del_init_elem. tauto.
Qed.

Lemma bfp_depleted_body_ok v now p0 s pre x suf :
  time_ok now -> (forall u, tag p0 u <> BFP_QUEUE_NONE -> is_active v u = true) ->
  renewing now p0 s -> depleted_queue s = pre ++ x :: suf ->
  (forall y, y ∈ pre -> over now s y = false) ->
  exists s' pre' suf', refresh_depleted_body v now x s = Ret s' /\ renewing now p0 s' /\
    depleted_queue s' = pre' ++ suf' /\ head suf' = head suf /\
    (forall y, y ∈ pre' -> over now s' y = false) /\
    (cost (over now) s' suf' < cost (over now) s (x :: suf))%nat.
Proof.
  intros Hn Va [Hr Hf] Eq Hp. pose proof Hr as (Hi & _ & Hq & _). pose proof Hi as (Hw & _ & Hs & Hk & _).
  pose proof Hw as (_ & Nd & Wr & Wd).
  assert (tag s x = BFP_QUEUE_DEPLETED) as Tx by (apply Wd; rewrite Eq; qset).
  assert (served s x) as Hx by (apply Hk; congruence).
  assert (is_active v x = true) as Ha by (apply Va, Hq; congruence).
  unfold refresh_depleted_body. rewrite bfp_advance_flag by (try apply Hs; done).
  fold (boundary_of s x). fold (over now s x). fold (advanced now x s). rewrite Ha.
  destruct (over now s x) eqn:T; cbn [andb].
  - destruct (depleted_renew now x s Hi Tx Hn T) as (Rx & Hi' & O' & N' & T' & Ed').
    destruct (Z.eqb_spec (remaining_ticks (data_of (bfp_queue_remove x (advanced now x s)) x)) 0); [done|].
    cbn [negb]. set (s' := bfp_ready_insert false x _) in *. clearbody s'.
    rewrite Eq, <- Permutation_middle in Nd. apply NoDup_cons in Nd as [Hx' _].
    rewrite Eq, list_del_init_middle in Ed' by qset.
    pose proof O' as (_ & Ou & _).
    destruct (cursor_drop depleted_queue (over now) s s' pre x suf Ed' Hp) as (pre' & suf' & H').
    { intros y Hy. unfold over, boundary_of. rewrite Ou; [done|]. congruence. }
    exists s', pre', suf'. split; [done|]. split; [split|done].
    + apply (bfp_refreshed_step now p0 s s' x); try done; try congruence. left. by apply Z.leb_le.
    + intros u Hu. destruct (decide (u = x)) as [->|Hne]; [done|]. rewrite (only_tag x s s' u O' Hne) in Hu.
      apply Hf in Hu. unfold boundary_of in *. by rewrite Ou.
  - assert (advanced now x s = s) as ->.
    { apply Z.leb_gt in T. pose proof (bfp_advance_ok now (data_of s x) (Hs x Hx) Hn) as A. unfold advanced.
      destruct (bfp_advance_inactive_period now (data_of s x)) as [b d]. destruct A as (_ & _ & _ & _ & Eb & _ & Hid).
      cbn. rewrite Hid by (rewrite Eb; by apply Z.leb_gt). unfold set_data, data_of.
      destruct (data s !! x) as [d0|] eqn:Ed; [|unfold tag, data_of in Tx; by rewrite lookup_total_alt, Ed in Tx].
      rewrite lookup_total_alt, Ed. cbn. destruct s; cbn in *. f_equal. by apply insert_id. }
    destruct (cursor_keep depleted_queue (over now) s pre x suf Eq Hp T) as (pre' & suf' & H').
    by exists s, pre', suf'.
Qed.

(** The loops end, and afterwards every queued server is inside its period. *)
Lemma bfp_refresh_queues_ok v now p :
  time_ok now -> (forall u, tag p u <> BFP_QUEUE_NONE -> is_active v u = true) -> bfp_inv p ->
  exists p', bfp_refresh_queues v now p = Ret p' /\ refreshed now p p' /\
    forall x, tag p' x <> BFP_QUEUE_NONE -> now < boundary_of p' x.
Proof.
  intros Hn Va Hi. pose proof Hi as ((_ & _ & Wr & _) & _). unfold bfp_refresh_queues, refresh_ready.
  destruct (refresh_ready_ok now p (ready_queue p) p Hn (refreshed_refl now p Hi)) as (H1 & T1 & N1 & Er).
  { intros x. apply Wr. }
  set (p1 := foldl _ p (ready_queue p)) in *. clearbody p1.
  destruct (list_for_each_safe_ok depleted_queue (refresh_depleted_body v now) (over now) (renewing now p))
    with (fuel := (2 * length (depleted_queue p1))%nat) (s := p1) as (p2 & E2 & [H2 F2] & O2).
  { intros s [(((_ & Nd & _) & _) & _) _]. done. }
  { intros s pre x suf Hr Eq Hp. by apply (bfp_depleted_body_ok v now p s pre x suf). }
  { split; [done|]. intros x Hx. apply N1. left. apply Wr. by rewrite <- T1. } { done. }
  exists p2. split_and!; try done. intros x Hx. destruct H2 as (((_ & _ & _ & Wd) & _) & _).
  destruct (tag p2 x) eqn:E; [done|by apply F2|]. apply Z.leb_gt. by apply O2, Wd.
Qed.

(** ** The timer *)
Definition armed (p : sched_bfp_control) (when : Z) : Prop :=
  th_started (tick_timer p) = true /\ timeout (th_timer (tick_timer p)) = when.

(** [when] is due for the running thread and for the depleted ones. *)
Definition due (v : sched_view) (running : tid) (now : Z) (p : sched_bfp_control) (when : Z) : Prop :=
  (is_idle_thread v running = false ->
    when <= boundary_of p running /\ when <= now + remaining_of p running) /\
  (forall x, x ∈ depleted_queue p -> when <= boundary_of p x).

Lemma bfp_timeout_ok v t now p :
  bfp_inv p -> time_ok now ->
  (is_idle_thread v t = false -> served p t /\ 0 < remaining_of p t /\ now < boundary_of p t) ->
  (forall x, x ∈ depleted_queue p -> now < boundary_of p x) ->
  let when := bfp_timeout v (Some t) now p in
  (when = 0 -> is_idle_thread v t = true /\ depleted_queue p = []) /\
  (when <> 0 -> now < when) /\ due v t now p when.
Proof.
  intros (_ & _ & Hs & _ & _ & Sd & _) Hn Ht Hd. cbn zeta in *. cbn [skip] in Sd.
  unfold bfp_timeout, due, remaining_of, boundary_of, time_ok, BFP_TIME_BOUND in *.
  set (t1 := if negb (is_idle_thread v t) && _ then _ else 0).
  assert ((t1 = 0 -> is_idle_thread v t = true) /\ (t1 <> 0 -> now < t1) /\ 0 <= t1 /\
    (is_idle_thread v t = false -> t1 <= next_replenish_ticks (data_of p t) /\ t1 <= now + remaining_ticks (data_of p t)))
    as (H1 & H2 & H3 & H4).
  { subst t1. destruct (is_idle_thread v t) eqn:Ei; [cbn; lia|]. destruct (Ht eq_refl) as (Hv & Hr & Hb).
    destruct (Hs t Hv) as (? & ? & ? & _). cbn [negb andb].
    destruct (Z.eqb_spec (remaining_ticks (data_of p t)) 0); [lia|]. cbn [negb].
    destruct (Z.leb_spec (remaining_ticks (data_of p t)) (UINT64_MAX - now)); [|lia].
    zb; split_and!; intros; try done; lia. }
  clearbody t1. unfold bfp_next_depleted_replenishment.
  destruct (depleted_queue p) as [|h l]; cbn [Z.eqb negb andb].
  { split_and!; auto. by intros x ?%elem_of_nil. }
  pose proof (Hd h ltac:(qset)) as Hh.
  assert (forall x, x ∈ h :: l -> next_replenish_ticks (data_of p h) <= next_replenish_ticks (data_of p x)) as Hmin.
  { intros x Hx. exact (sorted_head_le _ _ _ x Sd Hx). }
  destruct (Z.eqb_spec (next_replenish_ticks (data_of p h)) 0); [lia|]. cbn [negb andb].
  destruct (Z.eqb_spec t1 0) as [E|E]; cbn [orb].
  - split_and!; try lia; [intros Hi; rewrite (H1 E) in Hi; done|done].
  - specialize (H2 E). destruct (Z.ltb_spec (next_replenish_ticks (data_of p h)) t1).
    + split_and!; try lia; [intros Hi; specialize (H4 Hi); lia|done].
    + split_and!; try lia; [done|]. intros x Hx. specialize (Hmin x Hx). lia.
Qed.

Lemma bfp_program_ok v running now p :
  timer_ok p -> v_pcpu v = v_cpu v ->
  (bfp_timeout v running now p <> 0 -> now < bfp_timeout v running now p) ->
  exists p', bfp_program_local_timer v running now p = Ret p' /\ timer_ok p' /\
    ready_queue p' = ready_queue p /\ depleted_queue p' = depleted_queue p /\ data p' = data p /\
    (bfp_timeout v running now p <> 0 -> armed p' (bfp_timeout v running now p)).
Proof.
  intros [Hf Hd] El Hlt. unfold bfp_program_local_timer. rewrite El, Z.eqb_refl. cbn [ASSERT mbind outcome_bind].
  set (w := bfp_timeout v running now p) in *. clearbody w.
  destruct ((w =? timer_deadline_ticks p) && th_started (tick_timer p)) eqn:Es.
  { apply andb_true_iff in Es as [->%Z.eqb_eq Es]. exists p. split_and!; try done.
    intros _. split; [done|]. by rewrite Hd. }
  set (p1 := if th_started (tick_timer p) then _ else p).
  assert (ready_queue p1 = ready_queue p /\ depleted_queue p1 = depleted_queue p /\ data p1 = data p /\
    th_started (tick_timer p1) = false /\ func (th_timer (tick_timer p1)) = true) as (E1 & E2 & E3 & E4 & E5).
  { subst p1. destruct (th_started (tick_timer p)) eqn:E; by split_and!. }
  clearbody p1. destruct (Z.eqb_spec w 0) as [->|Hw]; cbn [negb].
  { eexists. split; [done|]. cbn. split_and!; try done. unfold timer_ok. cbn. split; [done|congruence]. }
  destruct (Z.ltb_spec now w); [|specialize (Hlt Hw); lia].
  unfold handle_add, handle_update, set_mode. cbn. rewrite E5, E4.
  destruct (Z.eqb_spec w 0); [done|]. cbn. eexists. split; [done|].
  unfold timer_ok, armed. cbn. by rewrite ?E5.
Qed.

Lemma bfp_inv_intro p q :
  bfp_inv p -> ready_queue q = ready_queue p -> depleted_queue q = depleted_queue p ->
  data q = data p -> timer_ok q -> bfp_inv q.
Proof.
  intros (Hw & _ & Hs & Hk & So & Sd & Hr & Hd) E1 E2 E3 Ht.
  assert (data_of q = data_of p) as Ed by (unfold data_of; by rewrite E3).
  unfold bfp_inv, inv_but, bfp_wf, key_le, boundary_of, prio_of, remaining_of, tag, served in *.
  rewrite E1, E2, Ed. split_and!; try done; apply Hw.
Qed.

(** A thread that is on no queue starts, or stops, running. *)
Lemma set_start_ok t start p :
  tag p t = BFP_QUEUE_NONE -> time_ok start -> bfp_inv p ->
  let p' := set_data t ((data_of p t) <| last_start_ticks := start |>) p in
  bfp_inv p' /\ (forall u, tag p' u = tag p u) /\
  (forall u, boundary_of p' u = boundary_of p u /\ remaining_of p' u = remaining_of p u /\ prio_of p' u = prio_of p u) /\
  (forall u, served p u <-> served p' u).
Proof.
  intros Ht Hn Hi. cbn zeta. pose proof Hi as (_ & _ & Hs & _).
  destruct (bfp_set_data_ok t ((data_of p t) <| last_start_ticks := start |>) p) as (Hi' & O & T & _); try done.
  { intros Hv. destruct (Hs t Hv) as (? & ? & ? & ? & _). unfold server_ok, time_ok in *. cbn. tauto. }
  { by apply bfp_inv_weaken. }
  split_and!; try done.
  - apply (bfp_inv_strengthen t); [done|]. by rewrite T.
  - intros u. unfold boundary_of, remaining_of, prio_of. rewrite bfp_data_set. by destruct (decide (t = u)) as [<-|].
  - intros u. by apply only_served with t.
Qed.

(** ** The operations *)

(** [pick_next] takes the head of the ready queue, which no ready thread outranks. *)
Definition chosen (v : sched_view) (q : sched_bfp_control) (t : tid) : Prop :=
  (ready_queue q = [] /\ t = Idle (v_cpu v)) \/
  (head (ready_queue q) = Some t /\ 0 < remaining_of q t /\
   forall x, x ∈ ready_queue q -> prio_of q x <= prio_of q t).

Lemma bfp_queues_ok v now p :
  bfp_inv p -> view_ok v p -> time_ok now ->
  exists q, bfp_refresh_queues v now (settle_current v now p) = Ret q /\ bfp_inv q /\
    (forall x, tag q x <> BFP_QUEUE_NONE <-> candidate v p x) /\
    (forall x, tag q x <> BFP_QUEUE_NONE -> now < boundary_of q x) /\
    (forall x, candidate v p x -> is_idle_thread v x = false) /\
    (forall x, v_curr v <> Some x -> now < boundary_of p x -> data_of q x = data_of p x).
Proof.
  intros Hi Hv Hn. destruct (bfp_settle_ok v now p Hi Hv Hn) as (Hi1 & _ & Q1 & D1).
  pose proof Hv as (Va & _). set (p1 := settle_current v now p) in *. clearbody p1.
  assert (forall x, candidate v p x -> is_active v x = true) as Hact.
  { intros x [Hx|[_ Hx]]; [by apply Va|done]. }
  destruct (bfp_refresh_queues_ok v now p1 Hn) as (q & E & (Hq & _ & Q2 & _ & _ & D2) & Hf); [|done|].
  { intros x Hx. by apply Hact, Q1. }
  exists q. split_and!; try done; [by intros x; rewrite Q2, Q1| |].
  - intros x Hx%Hact. destruct (is_idle_thread v x) eqn:E'; [|done]. by rewrite idle_inactive in Hx.
  - intros x Hx Hb. rewrite D2; [by apply D1|]. unfold boundary_of in *. by rewrite D1.
Qed.

(** Taking the head of the ready queue and starting it. *)
Lemma bfp_start_ok now t rest q :
  bfp_inv q -> ready_queue q = t :: rest -> time_ok now ->
  let p1 := bfp_queue_remove t q in
  let p2 := set_data t ((data_of p1 t) <| last_start_ticks := now |>) p1 in
  bfp_inv p2 /\ served p2 t /\ 0 < remaining_of q t /\ (forall x, x ∈ ready_queue q -> prio_of q x <= prio_of q t) /\
  (forall x, tag p2 x <> BFP_QUEUE_NONE <-> tag q x <> BFP_QUEUE_NONE /\ x <> t) /\
  (forall u, boundary_of p2 u = boundary_of q u /\ remaining_of p2 u = remaining_of q u) /\
  depleted_queue p2 = depleted_queue q.
Proof.
  intros Hi Er Hn. cbn zeta. pose proof Hi as (Hw & _ & _ & Hk & So & _ & Hr & _). pose proof Hw as (_ & _ & Wr & Wd).
  assert (tag q t = BFP_QUEUE_READY) as Tt by (apply Wr; rewrite Er; qset).
  assert (served q t) as Ht by (apply Hk; congruence).
  destruct (bfp_remove_ok t q Ht (bfp_inv_weaken t q Hi)) as [Hi1 Hm].
  destruct (bfp_remove_eq t q Hw) as (_ & Ed & _). rewrite list_del_init_id in Ed by (rewrite Wd; congruence).
  pose proof (moved_same _ _ _ _ Hm) as Hf. pose proof (moved_only _ _ _ _ Hm) as O.
  destruct Hm as (_ & _ & _ & _ & T1). set (p1 := bfp_queue_remove t q) in *. clearbody p1.
  destruct (set_start_ok t now p1 T1 Hn Hi1) as (Hi2 & T2 & F2 & S2). split_and!; try done.
  - apply S2. by apply (only_served t q p1).
  - apply Hr; [rewrite Er; qset|done].
  - intros x Hx. cbn in So. rewrite Er in So, Hx. pose proof (sorted_head_le _ _ _ x So Hx) as Hle. unfold key_le in Hle. lia.
  - intros x. rewrite T2. destruct (decide (x = t)) as [->|Hne]; [rewrite T1; naive_solver|].
    rewrite (only_tag t q p1 x O Hne). tauto.
  - intros u. destruct (F2 u) as (-> & -> & _). destruct (Hf u) as (-> & -> & _). done.
Qed.

Lemma bfp_pick_ok v clk p :
  bfp_inv p -> view_ok v p -> time_ok (clk 0%nat) -> time_ok (clk 1%nat) ->
  exists q, bfp_refresh_queues v (clk 0%nat) (settle_current v (clk 0%nat) p) = Ret q /\
    (forall x, tag q x <> BFP_QUEUE_NONE <-> candidate v p x) /\
    ((forall x, tag q x <> BFP_QUEUE_NONE -> clk 1%nat < boundary_of q x) ->
     exists t p', sched_bfp_pick_next v clk p = Ret (t, p') /\ bfp_inv p' /\ chosen v q t /\
       (forall x, tag p' x <> BFP_QUEUE_NONE <-> candidate v p x /\ x <> t) /\
       (t <> Idle (v_cpu v) \/ depleted_queue q <> [] ->
        exists when, armed p' when /\ clk 1%nat < when /\ due v t (clk 1%nat) q when)).
Proof.
  intros Hi Hv Hn Hn1. destruct (bfp_queues_ok v (clk 0%nat) p Hi Hv Hn) as (q & E & Hq & Qq & Dq & Iq & _).
  exists q. split_and!; try done. intros Hgap. unfold sched_bfp_pick_next. rewrite E. cbn [mbind outcome_bind].
  destruct Hv as (_ & _ & Vi & El). pose proof Hq as ((_ & _ & Wr & Wd) & Ht & _).
  assert (forall x, x ∈ depleted_queue q -> clk 1%nat < boundary_of q x) as Hdq.
  { intros x Hx%Wd. apply Hgap. congruence. }
  destruct (ready_queue q) as [|t rest] eqn:Er.
  - destruct (bfp_timeout_ok v (Idle (v_cpu v)) (clk 1%nat) q Hq Hn1) as (B0 & B1 & B2); [congruence|done|].
    destruct (bfp_program_ok v (Some (Idle (v_cpu v))) (clk 1%nat) q Ht El B1) as (p' & -> & T' & E1 & E2 & E3 & Ha).
    exists (Idle (v_cpu v)), p'. split_and!; [done|by apply (bfp_inv_intro q)|by left| |].
    + intros x. rewrite <- Qq. assert (tag p' x = tag q x) as -> by (unfold tag, data_of; by rewrite E3).
      split; [|tauto]. intros Hx. split; [done|]. intros ->. apply Qq, Iq in Hx. congruence.
    + intros Hor. assert (bfp_timeout v (Some (Idle (v_cpu v))) (clk 1%nat) q <> 0) as Hw.
      { intros Hw. destruct (B0 Hw) as [_ Hd]. destruct Hor; [done|congruence]. }
      eexists. split_and!; [by apply Ha|by apply B1|done].
  - assert (tag q t <> BFP_QUEUE_NONE) as Tt by (assert (t ∈ t :: rest) as ?%Wr by qset; congruence).
    destruct (bfp_start_ok (clk 0%nat) t rest q Hq Er Hn) as (Hi2 & S2 & Rt & Pt & T2 & F2 & Ed2).
    set (p2 := set_data t _ _) in *. clearbody p2. assert (is_idle_thread v t = false) as Ei by by apply Iq, Qq.
    destruct (bfp_timeout_ok v t (clk 1%nat) p2 Hi2 Hn1) as (B0 & B1 & B2).
    { intros _. destruct (F2 t) as [-> ->]. auto. }
    { intros x Hx. rewrite Ed2 in Hx. destruct (F2 x) as [-> _]. auto. }
    pose proof Hi2 as (_ & Ht2 & _).
    destruct (bfp_program_ok v (Some t) (clk 1%nat) p2 Ht2 El B1) as (p' & -> & T' & E1 & E2 & E3 & Ha).
    exists t, p'. rewrite Er in Pt. split_and!; [done|by apply (bfp_inv_intro p2)|right; by rewrite Er| |].
    + intros x. rewrite <- Qq, <- T2. assert (tag p' x = tag p2 x) as -> by (unfold tag, data_of; by rewrite E3). done.
    + intros _. assert (bfp_timeout v (Some t) (clk 1%nat) p2 <> 0) as Hw by (intros [Hw _]%B0; congruence).
      exists (bfp_timeout v (Some t) (clk 1%nat) p2). split_and!; [by apply Ha|by apply B1|].
      destruct B2 as [B2 B3]. destruct (F2 t) as [F2a F2b]. split; [rewrite <- F2a, <- F2b; done|].
      intros x Hx. destruct (F2 x) as [<- _]. apply B3. by rewrite Ed2.
Qed.

Lemma bfp_program_local_same v running now p p' :
  bfp_program_local_timer v running now p = Ret p' ->
  ready_queue p' = ready_queue p /\ depleted_queue p' = depleted_queue p /\ data p' = data p /\
  (timer_ok p -> timer_ok p').
Proof.
  unfold bfp_program_local_timer. intros E. inv_ret.
  set (w := bfp_timeout v running now p) in *. clearbody w.
  destruct (_ && _); [inv_ret; by subst|].
  set (p1 := if th_started (tick_timer p) then _ else p) in *.
  assert (ready_queue p1 = ready_queue p /\ depleted_queue p1 = depleted_queue p /\ data p1 = data p /\
    th_started (tick_timer p1) = false /\
    func (th_timer (tick_timer p1)) = func (th_timer (tick_timer p))) as (E1 & E2 & E3 & E4 & E5).
  { subst p1. destruct (th_started (tick_timer p)) eqn:E'; by split_and!. }
  clearbody p1. destruct (negb (w =? 0)).
  - inv_ret. destruct r1 as [ret h]. destruct (Z.eqb_spec ret 0) as [->|]; [|done].
    unfold handle_add, handle_update in E7. cbn in E7.
    destruct (negb _ || _) eqn:Ef; [by injection E7|].
    apply orb_false_iff in Ef as [Ef%negb_false_iff _]. inv_ret. cbn in E. injection E as <-. split_and!; try done. intros _. subst h. split; [exact Ef|done].
  - inv_ret. subst. cbn. split_and!; try done. unfold timer_ok. cbn. rewrite E4, E5. naive_solver.
Qed.

Lemma bfp_program_same v running now p p' :
  bfp_program_timer v running now p = Ret p' ->
  ready_queue p' = ready_queue p /\ depleted_queue p' = depleted_queue p /\ data p' = data p /\
  (timer_ok p -> timer_ok p').
Proof.
  unfold bfp_program_timer. destruct (_ =? _); [apply bfp_program_local_same|]. by intros [= <-].
Qed.

Lemma same_state_inv p p' :
  ready_queue p' = ready_queue p /\ depleted_queue p' = depleted_queue p /\ data p' = data p /\
  (timer_ok p -> timer_ok p') -> bfp_inv p -> bfp_inv p'.
Proof. intros (E1 & E2 & E3 & Ht) Hi. apply (bfp_inv_intro p); try done. apply Ht, Hi. Qed.

(** Giving data to a thread that is on no queue. *)
Lemma set_free_ok t d p :
  tag p t = BFP_QUEUE_NONE -> queue d = BFP_QUEUE_NONE -> (period_ticks d <> 0 -> server_ok d) ->
  bfp_inv p -> bfp_inv (set_data t d p) /\ forall u, tag (set_data t d p) u = tag p u.
Proof.
  intros Ht Eq Hd (Hw & Htm & Hs & Hk & So & Sd & Hr & Hdp). pose proof Hw as (_ & _ & Wr & Wd).
  destruct (bfp_set_same t d p) as [Hw' Htag]; [congruence|done|]. split; [|done].
  assert (forall u, tag p u <> BFP_QUEUE_NONE -> data_of (set_data t d p) u = data_of p u) as Hu.
  { intros u Hne. rewrite bfp_data_set, decide_False by congruence. done. }
  assert (forall u, u ∈ ready_queue p \/ u ∈ depleted_queue p -> data_of (set_data t d p) u = data_of p u) as Hin.
  { intros u [?%Wr|?%Wd]; apply Hu; congruence. }
  unfold bfp_inv, inv_but. split_and!; try done.
  - intros u. unfold served. rewrite bfp_data_set. destruct (decide (t = u)); [done|apply Hs].
  - intros u. rewrite Htag. intros Hx. unfold served. rewrite Hu by done. by apply Hk.
  - eapply StronglySorted_ext; [|exact So]. intros x y Hx Hy. unfold key_le, prio_of. rewrite !Hin by auto. done.
  - eapply StronglySorted_ext; [|exact Sd]. intros x y Hx Hy. unfold key_le, boundary_of. rewrite !Hin by auto. done.
  - intros u Hx Hc. unfold remaining_of. rewrite Hin by auto. by apply Hr.
  - intros u Hx Hc. unfold remaining_of. rewrite Hin by auto. by apply Hdp.
Qed.

Lemma bfp_boundary_ok now period :
  time_ok now -> 0 < period <= 2 ^ 55 ->
  now < bfp_next_period_boundary now period <= now + period.
Proof.
  unfold time_ok, BFP_TIME_BOUND, bfp_next_period_boundary. intros Hn Hp.
  destruct (Z.eqb_spec period 0); [lia|].
  pose proof (Z.div_mod now period ltac:(lia)). pose proof (Z.mod_pos_bound now period ltac:(lia)).
  set (k := now / period) in *. clearbody k.
  destruct (Z.leb_spec (UINT64_MAX / period) k) as [Hk|Hk].
  - assert (k + 1 <= UINT64_MAX / period) by (apply Z.div_le_lower_bound; [lia|nia]). lia.
  - rewrite u64_small by (unfold in_u64; nia). nia.
Qed.

Lemma bfp_init_data_ok v clk t prm p p' :
  in_u32 (v_khz v) ->
  (forall period budget, bfp_normalize_us (v_plat v) (pcpu_id (thr v t)) prm = Ret (period, budget) -> in_u32 period) ->
  tag p t = BFP_QUEUE_NONE -> time_ok (clk 0%nat) -> bfp_inv p -> sched_bfp_init_data v clk t prm p = Ret p' ->
  bfp_inv p' /\ forall u, tag p' u = tag p u.
Proof.
  intros Hk Hper Ht Hn Hi E. unfold sched_bfp_init_data in E.
  destruct (is_idle_thread v t); [inv_ret; subst; by apply set_free_ok|].
  destruct (is_vcpu (thr v t)); [|done]. cbn [negb] in E. destruct (_ <=? _); [done|]. inv_ret.
  destruct r as [period budget]. specialize (Hper _ _ E0).
  destruct ((_ =? 0) || (_ =? 0) || _) eqn:Eg; [done|]. inv_ret. subst.
  apply orb_false_iff in Eg as [[E1%Z.eqb_neq E2%Z.eqb_neq]%orb_false_iff E3%Z.ltb_ge].
  apply normalize_us_ok in E0. assert (in_u32 budget) as Hb by (unfold in_u32 in *; lia).
  pose proof (us_to_ticks_range _ _ Hk Hper) as R1. pose proof (us_to_ticks_range _ _ Hk Hb) as R2. unfold in_u64 in R1, R2.
  assert (us_to_ticks (v_khz v) period <= 2 ^ 55) as Hmax.
  { rewrite us_to_ticks_nowrap by done. unfold in_u32 in *. apply Z.div_le_upper_bound; [lia|]. nia. }
  apply set_free_ok; [done|done| |done]. intros _. unfold server_ok. cbn.
  pose proof (bfp_boundary_ok (clk 0%nat) (us_to_ticks (v_khz v) period) Hn ltac:(lia)).
  unfold time_ok, BFP_TIME_BOUND in *. split_and!; lia.
Qed.

Lemma bfp_sleep_ok v clk t p :
  served p t -> time_ok (clk 0%nat) -> bfp_inv p ->
  exists p', sched_bfp_sleep v clk t p = Ret p' /\ bfp_inv p' /\ tag p' t = BFP_QUEUE_NONE.
Proof.
  intros Hk Hn Hi. unfold sched_bfp_sleep.
  set (p1 := if is_current v t then _ else p).
  assert (inv_but (Some t) p1 /\ served p1 t) as [Hi1 Hk1].
  { subst p1. pose proof (bfp_inv_weaken t p Hi). destruct (is_current v t); [|done].
    destruct (bfp_account_ok v t (clk 0%nat) p) as (? & O & _); [done..|]. split; [done|]. by apply (only_served t p). }
  clearbody p1. destruct (bfp_remove_ok t p1 Hk1 Hi1) as [Hi2 (_ & _ & _ & _ & Ht)].
  destruct (set_start_ok t 0 (bfp_queue_remove t p1) Ht) as (Hi3 & T3 & _); [by split|done|].
  eexists. split_and!; [done|done|]. by rewrite T3.
Qed.

Lemma bfp_wake_state v clk t p :
  served p t -> time_ok (clk 0%nat) -> bfp_inv p ->
  exists q, bfp_inv q /\ sched_bfp_wake v clk t p = bfp_program_timer v (v_curr v) (clk 1%nat) q /\
    tag q t = proper_queue q t /\ only t p q /\
    (clk 0%nat < boundary_of p t -> remaining_of q t = remaining_of p t).
Proof.
  intros Hk Hn Hi. unfold sched_bfp_wake. pose proof Hi as (_ & _ & Hs & _).
  pose proof (bfp_advance_ok (clk 0%nat) (data_of p t) (Hs t Hk) Hn) as Ha.
  destruct (bfp_advance_inactive_period (clk 0%nat) (data_of p t)) as [b d]. cbn [snd].
  destruct Ha as (Od & (Ep & _ & Epr & Eq) & _ & _ & Hb & _ & Hid).
  destruct (bfp_set_data_ok t (d <| last_start_ticks := 0 |>) p) as (Hi1 & O1 & T1 & D1); try done.
  { intros _. unfold server_ok, BFP_TIME_BOUND in *. cbn. split_and!; try lia. }
  { by apply bfp_inv_weaken. }
  set (p1 := set_data t _ p) in *. clearbody p1.
  destruct (bfp_place_ok false t p1) as [Hi2 Hm]; [by apply (only_served t p)|done|].
  assert (remaining_ticks d = remaining_ticks (data_of p1 t)) as Erem by by rewrite D1.
  exists (place false t p1). pose proof (moved_only _ _ _ _ Hm) as O2. pose proof (moved_same _ _ _ _ Hm t) as (_ & Er & _).
  destruct Hm as (_ & _ & _ & _ & Ht). split_and!; [done|unfold place; by rewrite Erem| |by etransitivity|].
  - rewrite Ht. unfold proper_queue. unfold remaining_of in Er. by rewrite Er.
  - intros Hlt. rewrite Er. unfold remaining_of. rewrite <- Erem, Hid; [done|]. rewrite Hb. by apply Z.leb_gt.
Qed.

(** Charging the current thread, when the framework has it on no queue. *)
Lemma bfp_account_current v c now p :
  bfp_inv p -> view_ok v p -> time_ok now -> v_curr v = Some c -> is_idle_thread v c = false ->
  bfp_inv (bfp_account_runtime v c now p) /\ only c p (bfp_account_runtime v c now p) /\
  forall u, tag (bfp_account_runtime v c now p) u = tag p u.
Proof.
  intros Hi (_ & Vk & _) Hn Ec Ei. destruct (Vk c Ec Ei) as [Hk Hfree].
  destruct (bfp_account_ok v c now p Hk (bfp_inv_weaken c p Hi) Hn) as (Hi1 & O1 & T1). split_and!; try done.
  destruct Hfree as [Ht|Hl]; [apply (bfp_inv_strengthen c); [done|by rewrite T1]|].
  unfold bfp_account_runtime. rewrite Hl. rewrite orb_true_r. done.
Qed.

Lemma bfp_tick_ok v clk p :
  bfp_inv p -> view_ok v p -> time_ok (clk 0%nat) ->
  exists p', bfp_timer_handler v clk p = Ret (true, p') /\ bfp_inv p'.
Proof.
  intros Hi Hv Hn. unfold bfp_timer_handler. pose proof Hv as (Va & _ & _ & El). rewrite El, Z.eqb_refl.
  cbn [ASSERT mbind outcome_bind].
  set (p1 := p <| tick_timer := _ |> <| timer_deadline_ticks := 0 |>).
  assert (bfp_inv p1) as Hi1.
  { apply (bfp_inv_intro p); try done. destruct Hi as (_ & [? _] & _). by split. }
  assert (view_ok v p1) as Hv1 by exact Hv.
  set (p2 := match v_curr v with Some c => _ | None => p1 end).
  assert (bfp_inv p2 /\ forall u, tag p2 u = tag p u) as [Hi2 T2].
  { subst p2. destruct (v_curr v) as [c|] eqn:Ec; [|done]. destruct (is_idle_thread v c) eqn:Ei; [done|].
    destruct (bfp_account_current v c (clk 0%nat) p1) as (? & _ & T); try done. }
  clearbody p2. destruct (bfp_refresh_queues_ok v (clk 0%nat) p2 Hn) as (p' & -> & (Hi' & _) & _); [|done|].
  { intros u. rewrite T2. apply Va. }
  by exists p'.
Qed.

(** ** Calls of the framework *)
Inductive bfp_call :=
| FInitData (t : tid) (prm : sched_params)
| FDeinitData (t : tid)
| FPick
| FSleep (t : tid)
| FWake (t : tid)
| FSuspend
| FResume
| FTick.

Definition run_call (v : sched_view) (clk : clock) (c : bfp_call) (p : sched_bfp_control)
    : outcome sched_bfp_control :=
  match c with
  | FInitData t prm => sched_bfp_init_data v clk t prm p
  | FDeinitData t => sched_bfp_deinit_data v clk t p
  | FPick => snd <$> sched_bfp_pick_next v clk p
  | FSleep t => sched_bfp_sleep v clk t p
  | FWake t => sched_bfp_wake v clk t p
  | FSuspend => sched_bfp_suspend v clk p
  | FResume => snd <$> sched_bfp_resume v clk p
  | FTick => snd <$> bfp_timer_handler v clk p
  end.

(** What the framework and the platform guarantee of a call. *)
Definition call_ok (v : sched_view) (clk : clock) (c : bfp_call) (p : sched_bfp_control) : Prop :=
  time_ok (clk 0%nat) /\ time_ok (clk 1%nat) /\
  match c with
  | FInitData t prm =>
      tag p t = BFP_QUEUE_NONE /\ in_u32 (v_khz v) /\
      forall period budget, bfp_normalize_us (v_plat v) (pcpu_id (thr v t)) prm = Ret (period, budget) -> in_u32 period
  | FDeinitData t => served p t
  | FPick | FSuspend | FTick => view_ok v p
  | FSleep t | FWake t => served p t
  | FResume => view_ok v p /\ forall c, v_curr v = Some c -> tag p c = BFP_QUEUE_NONE
  end.

Lemma bfp_pick_inv v clk p t p' :
  bfp_inv p -> view_ok v p -> time_ok (clk 0%nat) -> sched_bfp_pick_next v clk p = Ret (t, p') -> bfp_inv p'.
Proof.
  intros Hi Hv Hn E. unfold sched_bfp_pick_next in E.
  destruct (bfp_queues_ok v (clk 0%nat) p Hi Hv Hn) as (q & Eq & Hq & _). rewrite Eq in E.
  cbn [mbind outcome_bind] in E. destruct (ready_queue q) as [|h rest] eqn:Er; inv_ret; subst;
    refine (same_state_inv _ _ (bfp_program_local_same _ _ _ _ _ E0) _); [done|].
  by apply (bfp_start_ok (clk 0%nat) t rest q).
Qed.

Lemma stop_timer_inv p :
  bfp_inv p -> bfp_inv (p <| tick_timer := handle_del (tick_timer p) |> <| timer_deadline_ticks := 0 |>).
Proof.
  intros Hi. apply (bfp_inv_intro p); try done. destruct Hi as (_ & [? _] & _). by split.
Qed.

Lemma set_stopped_inv c p :
  served p c -> last_start_ticks (data_of p c) = 0 -> bfp_inv p ->
  bfp_inv (set_data c ((data_of p c) <| last_start_ticks := 0 |>) p).
Proof.
  intros Hk Hl Hi. apply (bfp_inv_intro p); try done; [|apply Hi]. cbn. apply insert_id.
  unfold served, data_of in *. rewrite lookup_total_alt in *. destruct (data p !! c) as [d|]; [|done].
  f_equal. destruct d. cbn in *. congruence.
Qed.

Lemma bfp_suspend_inv v clk p p' :
  bfp_inv p -> view_ok v p -> time_ok (clk 0%nat) -> sched_bfp_suspend v clk p = Ret p' -> bfp_inv p'.
Proof.
  intros Hi Hv Hn E. unfold sched_bfp_suspend in E. inv_ret. subst. apply stop_timer_inv.
  destruct (v_curr v) as [c|] eqn:Ec; [|done]. destruct (is_idle_thread v c) eqn:Ei; [done|].
  destruct (bfp_account_current v c (clk 0%nat) p Hi Hv Hn Ec Ei) as (Hi1 & O1 & T1).
  pose proof Hv as (_ & Vk & _). destruct (Vk c Ec Ei) as [Hk [Ht|Hl]].
  - apply set_start_ok; [by rewrite T1|by split|done].
  - assert (bfp_account_runtime v c (clk 0%nat) p = p) as ->.
    { unfold bfp_account_runtime. rewrite Hl, orb_true_r. done. }
    by apply set_stopped_inv.
Qed.

Lemma bfp_resume_inv v clk p b p' :
  bfp_inv p -> view_ok v p -> (forall c, v_curr v = Some c -> tag p c = BFP_QUEUE_NONE) -> time_ok (clk 0%nat) ->
  sched_bfp_resume v clk p = Ret (b, p') -> bfp_inv p'.
Proof.
  intros Hi (_ & Vk & _) Hf Hn E. unfold sched_bfp_resume in E. inv_ret. subst.
  destruct (v_curr v) as [c|] eqn:Ec; [|done]. destruct (is_idle_thread v c) eqn:Ei; [done|].
  destruct (Vk c eq_refl Ei) as [Hk _]. pose proof Hi as (_ & _ & Hs & _).
  pose proof (bfp_advance_ok (clk 0%nat) (data_of p c) (Hs c Hk) Hn) as Ha.
  destruct (bfp_advance_inactive_period (clk 0%nat) (data_of p c)) as [a d]. cbn [snd].
  destruct Ha as (Od & (_ & _ & _ & Eq) & _). pose proof (Hf c eq_refl) as Ht.
  apply set_free_ok; try done; [by rewrite <- Ht|]. intros _. unfold server_ok, time_ok in *. cbn. tauto.
Qed.

Lemma bfp_run_inv v clk c p p' :
  bfp_inv p -> call_ok v clk c p -> run_call v clk c p = Ret p' -> bfp_inv p'.
Proof.
  intros Hi (Hn & Hn1 & Hc) E. destruct c; cbn [run_call] in E.
  - destruct Hc as (Ht & Hk & Hp). by apply (bfp_init_data_ok v clk t prm p).
  - injection E as <-. by apply (bfp_remove_ok t p Hc (bfp_inv_weaken t p Hi)).
  - destruct (sched_bfp_pick_next v clk p) as [[t q]|w|w] eqn:Ep; [|done..]. injection E as <-. by eapply bfp_pick_inv.
  - destruct (bfp_sleep_ok v clk t p Hc Hn Hi) as (q & Eq & Hq & _). congruence.
  - destruct (bfp_wake_state v clk t p Hc Hn Hi) as (q & Hq & Eq & _). rewrite Eq in E.
    exact (same_state_inv _ _ (bfp_program_same _ _ _ _ _ E) Hq).
  - by eapply bfp_suspend_inv.
  - destruct Hc as [Hv Hf]. destruct (sched_bfp_resume v clk p) as [[b q]|w|w] eqn:Ep; [|done..].
    injection E as <-. by eapply bfp_resume_inv.
  - destruct (bfp_tick_ok v clk p Hi Hc Hn) as (q & Eq & Hq). rewrite Eq in E. injection E as <-. done.
Qed.

(** States reachable from a successful [init] with no thread data. *)
Inductive bfp_reach : sched_bfp_control -> Prop :=
| bfp_reach_init v clk p p' r :
    data p = ∅ -> sched_bfp_init v clk p = Ret (r, p') -> bfp_reach p'
| bfp_reach_call v clk c p p' :
    bfp_reach p -> call_ok v clk c p -> run_call v clk c p = Ret p' -> bfp_reach p'.

Lemma bfp_init_wf v clk p p' r :
  (forall x, tag p x = BFP_QUEUE_NONE) -> sched_bfp_init v clk p = Ret (r, p') ->
  bfp_wf p' /\ (forall x, tag p' x = BFP_QUEUE_NONE) /\ data p' = data p /\ timer_ok p' /\
  ready_queue p' = [] /\ depleted_queue p' = [].
Proof.
  intros Ht E. unfold sched_bfp_init in E. inv_ret. destruct r1 as [n rs]. inv_ret. subst.
  match goal with |- bfp_wf ?q /\ _ => assert (forall x, tag q x = BFP_QUEUE_NONE) as Ht' by exact Ht end.
  split_and!; try done. unfold bfp_wf. split_and!; [apply NoDup_nil_2|apply NoDup_nil_2| |];
    intros x; rewrite Ht'; (split; [by intros ?%elem_of_nil|done]).
Qed.

Lemma bfp_reach_inv p : bfp_reach p -> bfp_inv p.
Proof.
  induction 1 as [v clk p p' r Hd E|v clk c p p' _ IH Hc E]; [|by eapply bfp_run_inv].
  destruct (bfp_init_wf v clk p p' r) as (Hw & Ht & Ed & Hm & Er & Edq); [|done|].
  { intros x. unfold tag, data_of. by rewrite Hd, lookup_total_empty. }
  assert (forall x, ~ served p' x) as Hs.
  { intros x Hx. apply Hx. unfold data_of. by rewrite Ed, Hd, lookup_total_empty. }
  unfold bfp_inv, inv_but. rewrite Er, Edq. split_and!; [done|done| | |constructor|constructor| |].
  - intros t Hv. by destruct (Hs t).
  - intros t Hv. by rewrite Ht in Hv.
  - by intros t ?%elem_of_nil.
  - by intros t ?%elem_of_nil.
Qed.

(** ** The policy interface

    Without any assumption on budgets: the queues stay well formed and gain only
    threads that are woken, or current and active. *)
Definition keeps (p p' : sched_bfp_control) : Prop := bfp_wf p' /\ forall x, tag p' x = tag p x.
Definition gains (t : tid) (ok : bool) (p p' : sched_bfp_control) : Prop :=
  bfp_wf p' /\ forall x, tag p' x <> BFP_QUEUE_NONE -> tag p x <> BFP_QUEUE_NONE \/ (x = t /\ ok = true).

Lemma keeps_gains t ok p p1 p2 : keeps p p1 -> gains t ok p1 p2 -> gains t ok p p2.
Proof. intros [_ T] [W G]. split; [done|]. intros x Hx. rewrite <- T. auto. Qed.

Lemma bfp_advance_queue now d : queue (snd (bfp_advance_inactive_period now d)) = queue d.
Proof. unfold bfp_advance_inactive_period. destruct (_ && _); [|done]. by destruct (_ <? _). Qed.

Lemma charge_queue delta d : queue (bfp_charge_current_period delta d) = queue d.
Proof. unfold bfp_charge_current_period. by destruct (_ <? _). Qed.

Lemma charge_run_queue start now d : queue (charge_run start now d) = queue d.
Proof.
  unfold charge_run. destruct (_ || _); [apply charge_queue|].
  set (d0 := if start <? _ then _ else d).
  assert (queue d0 = queue d) as E by (subst d0; destruct (_ <? _); [apply charge_queue|done]).
  clearbody d0. destruct (_ <? _); [done|]. destruct (_ && _); cbn; by destruct (_ <? _).
Qed.

Lemma advanced_keeps now t p : bfp_wf p -> keeps p (advanced now t p).
Proof. intros Hw. apply bfp_set_same; [apply bfp_advance_queue|done]. Qed.

Lemma account_keeps v t now p : bfp_wf p -> keeps p (bfp_account_runtime v t now p).
Proof.
  intros Hw. unfold bfp_account_runtime. destruct (_ || _); [done|].
  apply bfp_set_same; [by rewrite charge_run_queue|done].
Qed.

Lemma bfp_ready_insert_gains keep t p : bfp_wf p -> gains t true p (bfp_ready_insert keep t p).
Proof.
  intros Hw. split; [by apply bfp_ready_insert_wf|]. intros x. unfold tag.
  destruct (bfp_ready_insert_eq keep t p Hw) as (_ & _ & ->). destruct (decide (t = x)) as [<-|]; auto.
Qed.

Lemma bfp_depleted_insert_gains t p : bfp_wf p -> gains t true p (bfp_depleted_insert t p).
Proof.
  intros Hw. split; [by apply bfp_depleted_insert_wf|]. intros x. unfold tag.
  destruct (bfp_depleted_insert_eq t p Hw) as (_ & _ & ->). destruct (decide (t = x)) as [<-|]; auto.
Qed.

Lemma bfp_remove_tag t p x : bfp_wf p ->
  tag (bfp_queue_remove t p) x = if decide (t = x) then BFP_QUEUE_NONE else tag p x.
Proof.
  intros Hw. unfold tag. destruct (bfp_remove_eq t p Hw) as (_ & _ & ->). by destruct (decide (t = x)).
Qed.

Lemma bfp_remove_gains t p : bfp_wf p -> gains t false p (bfp_queue_remove t p).
Proof.
  intros Hw. split; [by apply bfp_remove_wf|]. intros x. rewrite bfp_remove_tag by done.
  destruct (decide (t = x)); [done|auto].
Qed.

Lemma bfp_refresh_thread_gains v t now keep p :
  bfp_wf p -> gains t (is_active v t) p (bfp_refresh_thread v t now keep p).
Proof.
  intros Hw. unfold bfp_refresh_thread. fold (advanced now t p). pose proof (advanced_keeps now t p Hw) as K.
  eapply keeps_gains; [exact K|]. destruct K as [W1 _]. destruct (is_active v t); cbn [negb].
  - destruct (negb _); [by apply bfp_ready_insert_gains|by apply bfp_depleted_insert_gains].
  - by apply bfp_remove_gains.
Qed.

Lemma refresh_ready_keeps now : forall l p, bfp_wf p ->
  keeps p (foldl (fun p t => set_data t (snd (bfp_advance_inactive_period now (data_of p t))) p) p l).
Proof.
  induction l as [|x l IH]; intros p Hw; cbn [foldl]; [done|]. fold (advanced now x p).
  destruct (advanced_keeps now x p Hw) as [W1 T1]. destruct (IH _ W1) as [W2 T2].
  split; [done|]. intros u. by rewrite T2, T1.
Qed.

Lemma bfp_refresh_queues_gains v now p p' :
  bfp_wf p -> bfp_refresh_queues v now p = Ret p' ->
  bfp_wf p' /\ forall x, tag p' x <> BFP_QUEUE_NONE -> tag p x <> BFP_QUEUE_NONE.
Proof.
  intros Hw E. unfold bfp_refresh_queues in E. destruct (refresh_ready_keeps now (ready_queue p) p Hw) as [W1 T1].
  fold (refresh_ready now p) in W1, T1. set (p1 := refresh_ready now p) in *. clearbody p1.
  set (P := fun s => bfp_wf s /\ forall x, tag s x <> BFP_QUEUE_NONE -> tag p x <> BFP_QUEUE_NONE).
  refine (list_for_each_safe_preserve depleted_queue (refresh_depleted_body v now) P
    (fun x => tag p x <> BFP_QUEUE_NONE) _ p1 p' _ _ _ E); clear E p'.
  { intros s x [(_ & _ & _ & Wd) Hs] Hx%Wd. apply Hs. congruence. }
  2: { split; [done|]. intros x. by rewrite T1. }
  intros x s s' [Ws Hs] Hx E. unfold refresh_depleted_body in E.
  pose proof (bfp_advance_queue now (data_of s x)) as Eq.
  destruct (bfp_advance_inactive_period now (data_of s x)) as [b d]. cbn in Eq. inv_ret. subst s'.
  destruct (bfp_set_same x d s Eq Ws) as [W2 T2]. set (s1 := set_data x d s) in *. clearbody s1.
  destruct b; [|split; [done|]; intros y; rewrite T2; auto].
  destruct (bfp_remove_gains x s1 W2) as [W3 G3]. destruct (_ && _).
  - destruct (bfp_ready_insert_gains false x _ W3) as [W4 G4]. split; [done|]. intros y Hy.
    destruct (G4 y Hy) as [H|[-> _]]; [|done]. destruct (G3 y H) as [H'|[_ ?]]; [|done]. apply Hs. by rewrite <- T2.
  - split; [done|]. intros y Hy. destruct (G3 y Hy) as [H'|[_ ?]]; [|done]. apply Hs. by rewrite <- T2.
Qed.

Lemma bfp_settle_gains v now p :
  bfp_wf p -> bfp_wf (settle_current v now p) /\
  forall x, tag (settle_current v now p) x <> BFP_QUEUE_NONE -> candidate v p x.
Proof.
  intros Hw. unfold settle_current, candidate, active_current. destruct (v_curr v) as [c|]; [|auto].
  destruct (is_idle_thread v c); [auto|]. pose proof (account_keeps v c now p Hw) as K.
  destruct (keeps_gains _ _ _ _ _ K (bfp_refresh_thread_gains v c now true _ (proj1 K))) as [W2 H2].
  split; [done|]. intros x Hx. destruct (H2 x Hx) as [H|[-> H]]; auto.
Qed.

Lemma same_state_wf p p' :
  ready_queue p' = ready_queue p /\ depleted_queue p' = depleted_queue p /\ data p' = data p /\
  (timer_ok p -> timer_ok p') -> bfp_wf p -> keeps p p'.
Proof. intros (E1 & E2 & E3 & _) Hw. unfold keeps, bfp_wf, tag, data_of in *. rewrite E1, E2, E3. done. Qed.

Lemma bfp_pick_gains v clk p t p' :
  bfp_wf p -> sched_bfp_pick_next v clk p = Ret (t, p') ->
  bfp_wf p' /\ (t = Idle (v_cpu v) \/ candidate v p t) /\
  forall x, tag p' x <> BFP_QUEUE_NONE -> candidate v p x.
Proof.
  intros Hw E. unfold sched_bfp_pick_next in E. inv_ret. rename r into q.
  destruct (bfp_settle_gains v (clk 0%nat) p Hw) as [W1 C1].
  destruct (bfp_refresh_queues_gains _ _ _ _ W1 E0) as [W2 C2].
  assert (forall x, tag q x <> BFP_QUEUE_NONE -> candidate v p x) as Hc by auto.
  pose proof W2 as (_ & _ & Wr & _). destruct (ready_queue q) as [|h rest] eqn:Er; inv_ret; subst.
  - destruct (same_state_wf _ _ (bfp_program_local_same _ _ _ _ _ E1) W2) as [W T].
    split_and!; [done|auto|]. intros x. rewrite T. auto.
  - destruct (bfp_remove_gains t q W2) as [W3 G3].
    destruct (bfp_set_same t ((data_of (bfp_queue_remove t q) t) <| last_start_ticks := clk 0%nat |>)
      (bfp_queue_remove t q)) as [W4 T4]; [done..|].
    destruct (same_state_wf _ _ (bfp_program_local_same _ _ _ _ _ E1) W4) as [W T]. split_and!; [done| |].
    + right. apply Hc. assert (t ∈ t :: rest) as ?%Wr by qset. congruence.
    + intros x. rewrite T, T4. intros Hx. destruct (G3 x Hx) as [?|[_ ?]]; [auto|done].
Qed.

Lemma bfp_sleep_gains v clk t p p' :
  bfp_wf p -> sched_bfp_sleep v clk t p = Ret p' ->
  bfp_wf p' /\ forall x, tag p' x <> BFP_QUEUE_NONE -> tag p x <> BFP_QUEUE_NONE /\ x <> t.
Proof.
  intros Hw E. unfold sched_bfp_sleep in E. set (p1 := if is_current v t then _ else p) in *.
  assert (keeps p p1) as [W1 T1] by (subst p1; destruct (is_current v t); [by apply account_keeps|done]).
  clearbody p1. injection E as <-.
  destruct (bfp_set_same t ((data_of (bfp_queue_remove t p1) t) <| last_start_ticks := 0 |>)
    (bfp_queue_remove t p1)) as [W2 T2]; [done|by apply bfp_remove_wf|].
  split; [done|]. intros x. rewrite T2, bfp_remove_tag, <- T1 by done. by destruct (decide (t = x)).
Qed.

Lemma bfp_wake_gains v clk t p p' :
  bfp_wf p -> sched_bfp_wake v clk t p = Ret p' -> gains t true p p'.
Proof.
  intros Hw E. unfold sched_bfp_wake in E.
  destruct (bfp_set_same t ((snd (bfp_advance_inactive_period (clk 0%nat) (data_of p t))) <| last_start_ticks := 0 |>) p)
    as [W1 T1]; [apply bfp_advance_queue|done|].
  set (p1 := set_data t _ p) in *. clearbody p1.
  set (p2 := if negb _ then _ else _) in *.
  assert (gains t true p1 p2) as [W2 G2].
  { subst p2. destruct (negb _); [by apply bfp_ready_insert_gains|by apply bfp_depleted_insert_gains]. }
  clearbody p2. destruct (same_state_wf _ _ (bfp_program_same _ _ _ _ _ E) W2) as [W3 T3].
  split; [done|]. intros x. rewrite T3, <- T1. auto.
Qed.

Lemma bfp_current_keeps v p c d :
  queue d = tag p c -> bfp_wf p -> keeps p (if is_idle_thread v c then p else set_data c d p).
Proof. intros E Hw. destruct (is_idle_thread v c); [done|]. by apply bfp_set_same. Qed.

#[export] Instance bfp_policy : SchedPolicy sched_bfp.
Proof.
  refine {| pol_inv := bfp_wf; queued := fun p t => tag p t <> BFP_QUEUE_NONE |}; cbn; try done.
  - intros v clk p r p' Hq E. destruct (bfp_init_wf v clk p p' r) as (Hw & Ht & _); [|done|].
    { intros x. destruct (decide (tag p x = BFP_QUEUE_NONE)) as [|H]; [done|]. by destruct (Hq x). }
    split; [done|]. intros x Hx. by rewrite Ht in Hx.
  - intros f v clk p t p' [= <-] Hw E. destruct (bfp_pick_gains v clk p t p' Hw E) as (? & Ht & ?).
    unfold candidate in *. split_and!; [done|tauto|done].
  - intros f v clk t p p' [= <-] Hw E. by eapply bfp_sleep_gains.
  - intros f v clk t p p' [= <-] Hw E. destruct (bfp_wake_gains v clk t p p' Hw E) as [W G].
    split; [done|]. intros x Hx. destruct (G x Hx) as [?|[? _]]; auto.
  - intros f v clk t prm p p' [= <-] Hw Hq E. unfold sched_bfp_init_data in E.
    assert (tag p t = BFP_QUEUE_NONE) as Ht by by destruct (decide (tag p t = BFP_QUEUE_NONE)).
    assert (exists d, queue d = BFP_QUEUE_NONE /\ p' = set_data t d p) as (d & Eq & ->).
    { destruct (is_idle_thread v t); [injection E as <-; eexists; split; [|reflexivity]; reflexivity|]. destruct (negb _); [done|].
      destruct (_ <=? _); [done|]. inv_ret. destruct r. destruct (_ || _); [done|]. injection E as <-. eexists; split; [|reflexivity]; reflexivity. }
    destruct (bfp_set_same t d p) as [W T]; [congruence|done|]. split; [done|]. intros x. by rewrite T.
  - intros f v clk t p p' [= <-] Hw [= <-]. destruct (bfp_remove_gains t p Hw) as [W G].
    split; [done|]. intros x Hx. destruct (G x Hx) as [?|[_ ?]]; done.
  - intros f v clk p p' [= <-] Hw E. unfold sched_bfp_deinit in E. inv_ret. subst. split; [exact Hw|]. intros x Hx. exact Hx.
  - intros f v clk p p' [= <-] Hw E. unfold sched_bfp_suspend in E. inv_ret. subst.
    destruct (v_curr v) as [c|]; [|done]. destruct (is_idle_thread v c); [done|].
    destruct (account_keeps v c (clk 0%nat) p Hw) as [W1 T1].
    destruct (bfp_set_same c ((data_of (bfp_account_runtime v c (clk 0%nat) p) c) <| last_start_ticks := 0 |>)
      (bfp_account_runtime v c (clk 0%nat) p)) as [W2 T2]; [done..|].
    split; [exact W2|]. intros x Hx. rewrite <- T1, <- T2. exact Hx.
  - intros f v clk p b p' [= <-] Hw E. unfold sched_bfp_resume in E. inv_ret. subst.
    destruct (v_curr v) as [c|]; [|done].
    destruct (bfp_current_keeps v p c ((snd (bfp_advance_inactive_period (clk 0%nat) (data_of p c)))
      <| last_start_ticks := clk 0%nat |>)) as [W T]; [apply bfp_advance_queue|done|].
    split; [done|]. intros x. by rewrite T.
  - intros f v clk p b p' [= <-] Hw E. unfold bfp_timer_handler in E. inv_ret. subst.
    match type of E1 with bfp_refresh_queues _ _ ?q = _ => assert (keeps p q) as [W1 T1] end.
    { destruct (v_curr v) as [c|]; [|exact (conj Hw (fun x => eq_refl))].
      destruct (is_idle_thread v c); [exact (conj Hw (fun x => eq_refl))|].
      match goal with |- keeps _ (bfp_account_runtime _ _ _ ?q) => exact (account_keeps v c (clk 0%nat) q Hw) end. }
    destruct (bfp_refresh_queues_gains _ _ _ _ W1 E1) as [W2 C2]. split; [done|].
    intros x Hx. left. rewrite <- T1. by apply C2.
Defined.

(** ** Theorems *)

(** C29: Late accounting charges every crossed period.  For a server of the policy
    that has run since [start], the constant-time accounting of
    [bfp_account_runtime] leaves exactly the state (budget, boundary,
    replenishment and overrun counters) of the walk that stops at every period
    boundary, charges the period's share of the run and hands out the next budget;
    [now + 1] steps are enough for the walk. *)
Theorem bfp_charge_is_walk start now d :
  server_ok d -> counters_ok d -> time_ok now -> 0 <= start < next_replenish_ticks d -> start <= now ->
  charge_walk (Z.to_nat (now + 1)) start now d = Some (charge_run start now d).
Proof. apply charge_walk_eq. Qed.

Definition ex_bfp_server (remaining next start prio : Z) (q : sched_bfp_queue) : sched_bfp_data :=
  mk_bfp_data 250000 125000 remaining next start 0 0 0 prio q.

Lemma bfp_charge_is_walk_witness :
  charge_walk (Z.to_nat 361) 80 360 (mk_bfp_data 100 40 30 100 80 0 0 0 1 BFP_QUEUE_NONE) =
    Some (charge_run 80 360 (mk_bfp_data 100 40 30 100 80 0 0 0 1 BFP_QUEUE_NONE)).
Proof.
  apply (bfp_charge_is_walk 80 360 (mk_bfp_data 100 40 30 100 80 0 0 0 1 BFP_QUEUE_NONE));
    unfold server_ok, counters_ok, time_ok, BFP_TIME_BOUND;
    cbn [period_ticks budget_ticks remaining_ticks next_replenish_ticks last_start_ticks
         replenish_count overrun_count]; lia.
Defined.



(** C38: Admission rejects for lack of capacity only.  When the analysis of a VM
    ends with the panic for an exceeded period, no response time within the
    period covers the VM's own budget and the interference. *)
Theorem bfp_admission_rejects tasks i task :
  Forall task_ok tasks -> 0 <= t_budget_us task ->
  bfp_validate_response_time tasks i task = Panic "BFP admission failed" ->
  forall R, 0 <= R <= t_period_us task -> R < rta_demand tasks i task R.
Proof.
  intros Hl Hb E. apply (response_loop_ok BFP_RTA_MAX_ITERATIONS task i tasks (t_budget_us task)); try done.
  by apply below_budget.
Qed.

Lemma bfp_admission_rejects_witness :
  let a := mk_task 0 1 4000 3000 in let b := mk_task 1 2 4000 2000 in
  4000 < rta_demand [a; b] 0 a 4000.
Proof.
  apply (bfp_admission_rejects [mk_task 0 1 4000 3000; mk_task 1 2 4000 2000] 0 (mk_task 0 1 4000 3000)).
  - repeat constructor; cbn; lia.
  - cbn. lia.
  - vm_compute. reflexivity.
  - cbn. lia.
Defined.

Definition ex_bfp : sched_bfp_control :=
  mk_bfp [Thread 2] [Thread 4] (handle_init 0 0) 0 3
    (<[Thread 1 := ex_bfp_server 125000 250000 1000 1 BFP_QUEUE_NONE]>
    (<[Thread 2 := ex_bfp_server 100000 500000 0 2 BFP_QUEUE_READY]>
    (<[Thread 4 := ex_bfp_server 0 250000 0 3 BFP_QUEUE_DEPLETED]> ∅))).

Lemma ex_bfp_data t :
  data_of ex_bfp t =
    if decide (t = Thread 1) then ex_bfp_server 125000 250000 1000 1 BFP_QUEUE_NONE else
    if decide (t = Thread 2) then ex_bfp_server 100000 500000 0 2 BFP_QUEUE_READY else
    if decide (t = Thread 4) then ex_bfp_server 0 250000 0 3 BFP_QUEUE_DEPLETED else inhabitant.
Proof.
  unfold data_of, ex_bfp. cbn [data]. rewrite lookup_total_alt.
  destruct (decide (t = Thread 1)) as [->|]; [by vm_compute|].
  destruct (decide (t = Thread 2)) as [->|]; [by vm_compute|].
  destruct (decide (t = Thread 4)) as [->|]; [by vm_compute|].
  by rewrite !lookup_insert_ne, lookup_empty by congruence.
Qed.

Lemma ex_bfp_inv : bfp_inv ex_bfp.
Proof.
  unfold bfp_inv, inv_but, bfp_wf, tag, served, remaining_of. split_and!; cbn [ready_queue depleted_queue ex_bfp skip].
  - apply NoDup_singleton.
  - apply NoDup_singleton.
  - intros t. rewrite list_elem_of_singleton, ex_bfp_data. repeat case_decide; naive_solver.
  - intros t. rewrite list_elem_of_singleton, ex_bfp_data. repeat case_decide; naive_solver.
  - by split.
  - intros t. rewrite ex_bfp_data. unfold server_ok, BFP_TIME_BOUND.
    repeat case_decide; cbn; intros Hp; try done; split_and!; lia.
  - intros t. rewrite ex_bfp_data. repeat case_decide; done.
  - repeat constructor.
  - repeat constructor.
  - by intros t ->%list_elem_of_singleton _.
  - by intros t ->%list_elem_of_singleton _.
Qed.

Lemma ex_bfp_view : view_ok (ex_view (Some (Thread 1))) ex_bfp.
Proof.
  split_and!; try done.
  - intros x. unfold tag. rewrite ex_bfp_data. repeat case_decide; subst; by vm_compute.
  - intros c [= <-] _. by split; [vm_compute|left; vm_compute].
Qed.

(** Highest priority with budget.  [pick_next] first brings every server up to
    date, which leaves exactly the candidates (queued threads and the active
    current thread) queued.  If none of their boundaries has passed by the time
    the timer is programmed, it returns the head of the ready queue, which has
    budget and which no ready thread outranks, or idle if no thread is ready;
    every other candidate stays queued, the invariant holds, and the timer is
    armed in the future, no later than the end of the budget and of the period of
    the chosen thread and the replenishment of every depleted one. *)
Theorem bfp_pick_priority v clk p :
  bfp_inv p -> view_ok v p -> time_ok (clk 0%nat) -> time_ok (clk 1%nat) ->
  exists q, bfp_refresh_queues v (clk 0%nat) (settle_current v (clk 0%nat) p) = Ret q /\
    (forall x, tag q x <> BFP_QUEUE_NONE <-> candidate v p x) /\
    ((forall x, tag q x <> BFP_QUEUE_NONE -> clk 1%nat < boundary_of q x) ->
     exists t p', sched_bfp_pick_next v clk p = Ret (t, p') /\ bfp_inv p' /\ chosen v q t /\
       (forall x, tag p' x <> BFP_QUEUE_NONE <-> candidate v p x /\ x <> t) /\
       (t <> Idle (v_cpu v) \/ depleted_queue q <> [] ->
        exists when, armed p' when /\ clk 1%nat < when /\ due v t (clk 1%nat) q when)).
Proof. apply bfp_pick_ok. Qed.

Lemma bfp_pick_priority_witness :
  exists t p', sched_bfp_pick_next (ex_view (Some (Thread 1))) (fun _ => 100000) ex_bfp = Ret (t, p') /\ bfp_inv p'.
Proof.
  assert (time_ok 100000) as Hn by (unfold time_ok, BFP_TIME_BOUND; lia).
  destruct (bfp_pick_priority (ex_view (Some (Thread 1))) (fun _ => 100000) ex_bfp) as (q & E & _ & Hpick);
    [exact ex_bfp_inv|exact ex_bfp_view|exact Hn|exact Hn|].
  destruct (bfp_queues_ok _ _ _ ex_bfp_inv ex_bfp_view Hn) as (q' & E' & _ & _ & Hfut & _).
  rewrite E in E'. injection E' as <-. destruct (Hpick Hfut) as (t & p' & Ep & Hi & _).
  exists t, p'. split; [exact Ep|exact Hi].
Defined.

(** A hard budget.  A server that waits in the depleted queue is not picked
    before its replenishment, whatever the other threads do and even if no other
    thread is ready; it stays queued with its budget exhausted. *)
Theorem bfp_depleted_waits v clk p x t p' :
  bfp_inv p -> view_ok v p -> time_ok (clk 0%nat) ->
  tag p x = BFP_QUEUE_DEPLETED -> v_curr v <> Some x -> clk 0%nat < boundary_of p x ->
  sched_bfp_pick_next v clk p = Ret (t, p') ->
  t <> x /\ tag p' x = BFP_QUEUE_DEPLETED /\ remaining_of p' x = 0.
Proof.
  intros Hi Hv Hn Tx Hc Hb E. pose proof (bfp_pick_inv v clk p t p' Hi Hv Hn E) as Hi'.
  unfold sched_bfp_pick_next in E.
  destruct (bfp_queues_ok v (clk 0%nat) p Hi Hv Hn) as (q & Eq & Hq & Qq & _ & Iq & Dq).
  specialize (Dq x Hc Hb). rewrite Eq in E. cbn [mbind outcome_bind] in E.
  assert (tag q x = BFP_QUEUE_DEPLETED) as Tq by (unfold tag in *; congruence).
  pose proof Hq as (Wq & _). pose proof Wq as (_ & _ & Wr & _).
  assert (t <> x /\ tag p' x = BFP_QUEUE_DEPLETED) as [Hne T'].
  { destruct (ready_queue q) as [|h rest] eqn:Er; inv_ret; subst.
    - destruct (same_state_wf _ _ (bfp_program_local_same _ _ _ _ _ E0) Wq) as [_ T]. rewrite T. split; [|done].
      intros <-. assert (candidate v p (Idle (v_cpu v))) as Hx%Iq by (left; congruence).
      destruct Hv as (_ & _ & Vi & _). congruence.
    - assert (t <> x) as Hne by (intros ->; assert (x ∈ x :: rest) as Hx%Wr by qset; congruence).
      split; [done|]. destruct (bfp_set_same t ((data_of (bfp_queue_remove t q) t) <| last_start_ticks := clk 0%nat |>)
        (bfp_queue_remove t q)) as [W4 T4]; [done|by apply bfp_remove_wf|].
      destruct (same_state_wf _ _ (bfp_program_local_same _ _ _ _ _ E0) W4) as [_ T].
      rewrite T, T4, bfp_remove_tag by done. by rewrite decide_False. }
  split_and!; [done|done|]. destruct Hi' as ((_ & _ & _ & Wd) & _ & _ & _ & _ & _ & _ & Hz). by apply Hz; [apply Wd|].
Qed.

Lemma bfp_depleted_waits_witness :
  exists t p', sched_bfp_pick_next (ex_view (Some (Thread 1))) (ex_clock 100000) ex_bfp = Ret (t, p') /\
    t <> Thread 4 /\ tag p' (Thread 4) = BFP_QUEUE_DEPLETED /\ remaining_of p' (Thread 4) = 0.
Proof.
  eexists _, _. split; [vm_compute; reflexivity|].
  eapply (bfp_depleted_waits (ex_view (Some (Thread 1))) (ex_clock 100000) ex_bfp (Thread 4));
    [exact ex_bfp_inv|exact ex_bfp_view|unfold time_ok, BFP_TIME_BOUND, ex_clock; lia|
     reflexivity|discriminate|vm_compute; reflexivity|vm_compute; reflexivity].
Defined.

(** Every reachable state is consistent.  After [init] and any sequence of
    calls the framework makes, each thread is on the queue its [queue] field
    names, the ready queue is sorted by priority and holds servers with budget,
    the depleted queue is sorted by replenishment time and holds servers without,
    budgets stay within bounds and the recorded deadline is that of the timer; and
    a timer tick returns. *)
Theorem bfp_calls_consistent p v clk :
  bfp_reach p -> bfp_inv p /\
  (call_ok v clk FTick p -> exists p', run_call v clk FTick p = Ret p' /\ bfp_reach p').
Proof.
  intros Hr. pose proof (bfp_reach_inv p Hr) as Hi. split; [done|]. intros Hc. pose proof Hc as (Hn & _ & Hv).
  destruct (bfp_tick_ok v clk p Hi Hv Hn) as (p' & E & _). exists p'. cbn [run_call].
  assert (run_call v clk FTick p = Ret p') as E' by (cbn [run_call]; by rewrite E).
  split; [by rewrite E|]. by eapply bfp_reach_call.
Qed.

Definition ex_bfp_start : sched_bfp_control := mk_bfp [] [] (handle_init 0 0) 0 2 ∅.

Lemma bfp_calls_consistent_witness : bfp_inv ex_bfp_start.
Proof.
  apply (bfp_calls_consistent ex_bfp_start (ex_view None) (ex_clock 1000)).
  apply (bfp_reach_init (ex_view None) (ex_clock 1) (mk_bfp [] [] (handle_init 0 0) 0 0 ∅) _ 0);
    [reflexivity|vm_compute; reflexivity].
Defined.

(** Sleep and wake mint no budget.  A thread that is woken within its period
    joins the queue its budget calls for with the budget it went to sleep with;
    no other thread changes. *)
Theorem bfp_wake_no_budget v clk t p p' :
  served p t -> time_ok (clk 0%nat) -> bfp_inv p -> sched_bfp_wake v clk t p = Ret p' ->
  bfp_inv p' /\ tag p' t = proper_queue p' t /\
  (clk 0%nat < boundary_of p t -> remaining_of p' t = remaining_of p t) /\
  (forall x, x <> t -> data_of p' x = data_of p x).
Proof.
  intros Hk Hn Hi E. destruct (bfp_wake_state v clk t p Hk Hn Hi) as (q & Hq & Eq & Tq & (_ & Ou & _) & Rq).
  rewrite Eq in E. pose proof (bfp_program_same _ _ _ _ _ E) as Hs. split; [exact (same_state_inv _ _ Hs Hq)|].
  destruct Hs as (_ & _ & Ed & _). unfold tag, proper_queue, remaining_of, data_of in *. rewrite Ed. done.
Qed.

Lemma bfp_wake_no_budget_witness :
  exists p', sched_bfp_wake (ex_view None) (ex_clock 100000) (Thread 1) ex_bfp = Ret p' /\
    remaining_of p' (Thread 1) = remaining_of ex_bfp (Thread 1).
Proof.
  eexists. split; [vm_compute; reflexivity|].
  eapply (bfp_wake_no_budget (ex_view None) (ex_clock 100000) (Thread 1) ex_bfp);
    [vm_compute; discriminate|unfold time_ok, BFP_TIME_BOUND, ex_clock; lia|exact ex_bfp_inv|
     vm_compute; reflexivity|vm_compute; reflexivity].
Defined.

(** The timer is programmed with a second, later counter reading.  When a
    boundary falls between the two readings (here the replenishment of the
    depleted thread 4), the deadline is not in the future and the assertion stops
    the hypervisor. *)
Theorem bfp_pick_boundary_panics :
  sched_bfp_pick_next (ex_view (Some (Thread 1))) (fun i => if (i =? 0)%nat then 249999 else 250000) ex_bfp =
    Panic "BFP timer deadline is not in the future!".
Proof. vm_compute. reflexivity. Qed.

(** A wake on the pCPU moves the budget timer: the deadline is the current time
    plus the running thread's budget, which has not been charged for the time it
    has run.  Thread 1 starts at tick 1000 with 125000 ticks of budget; after a
    wake at tick 101000 its timer is due at 226000 instead of 126000. *)
Definition ex_running : sched_bfp_control :=
  mk_bfp [] [] (handle_init 0 0) 0 2
    (<[Thread 1 := ex_bfp_server 125000 250000 1000 1 BFP_QUEUE_NONE]>
    (<[Thread 2 := ex_bfp_server 125000 500000 0 1 BFP_QUEUE_NONE]> ∅)).
Theorem bfp_wake_postpones_budget_end :
  timer_deadline_ticks <$> bfp_program_timer (ex_view (Some (Thread 1))) (Some (Thread 1)) 1000 ex_running = Ret 126000 /\
  timer_deadline_ticks <$> (p ← bfp_program_timer (ex_view (Some (Thread 1))) (Some (Thread 1)) 1000 ex_running;
    sched_bfp_wake (ex_view (Some (Thread 1))) (fun _ => 101000) (Thread 2) p) = Ret 226000.
Proof. split; vm_compute; reflexivity. Qed.
