(* ===== verification/Schedule.v ===== *)
(** * The scheduler framework (core/schedule.c)

    Per-pCPU scheduler controls, the global thread registry and the quiesce
    slots, and every operation that changes them.  An operation that takes a
    scheduler lock is one step: the lock serialises it against every other
    operation on the pCPU.  Each operation runs on a pCPU [cpu]
    ([get_pcpu_id()]); [clks i] are the counter readings of its [i]-th call of a
    policy hook, [now] is its own reading. *)
From S2P Require Import Prelude Bits Ticks Timer SchedTypes.
From S2P Require DList Noop Prio Iorr Bvt Cbs Rtds Arinc653 Bfp.

(** ** Schedulers *)

(** The private controls of a pCPU (per_cpu.h): storage for every policy. *)
Record sched_privs := mk_privs {
  sched_noop_ctl : Noop.sched_noop_control;
  sched_iorr_ctl : Iorr.sched_iorr_control;
  sched_bvt_ctl : Bvt.sched_bvt_control;
  sched_rtds_ctl : Rtds.sched_rtds_control;
  sched_cbs_ctl : Cbs.sched_cbs_control;
  sched_prio_ctl : Prio.sched_prio_control;
  sched_arinc653_ctl : Arinc653.sched_arinc653_control;
  sched_bfp_ctl : Bfp.sched_bfp_control }.
#[export] Instance eta_privs : Eta sched_privs := fun p =>
  mk_privs (sched_noop_ctl p) (sched_iorr_ctl p) (sched_bvt_ctl p) (sched_rtds_ctl p)
    (sched_cbs_ctl p) (sched_prio_ctl p) (sched_arinc653_ctl p) (sched_bfp_ctl p).

Section Lift.
Context {P : Type} (get : sched_privs -> P) (put : P -> sched_privs -> sched_privs).

(** The hooks of a policy on the storage of a pCPU ([ctl->priv]). *)
Definition lift_ops (o : sched_ops P) : sched_ops sched_privs :=
  mk_ops
    (fun v clk w => r ← op_init o v clk (get w); Ret (fst r, put (snd r) w))
    (option_map (fun f v clk t prm w => p ← f v clk t prm (get w); Ret (put p w)) (op_init_data o))
    (option_map (fun f v clk w => r ← f v clk (get w); Ret (fst r, put (snd r) w)) (op_pick_next o))
    (option_map (fun f v clk t w => p ← f v clk t (get w); Ret (put p w)) (op_sleep o))
    (option_map (fun f v clk t w => p ← f v clk t (get w); Ret (put p w)) (op_wake o))
    (option_map (fun f v clk t w => p ← f v clk t (get w); Ret (put p w)) (op_prioritize o))
    (option_map (fun f v clk t w => p ← f v clk t (get w); Ret (put p w)) (op_deinit_data o))
    (option_map (fun f v clk w => p ← f v clk (get w); Ret (put p w)) (op_deinit o))
    (option_map (fun f v clk w => p ← f v clk (get w); Ret (put p w)) (op_suspend o))
    (option_map (fun f v clk w => r ← f v clk (get w); Ret (fst r, put (snd r) w)) (op_resume o))
    (option_map (fun f v clk w => r ← f v clk (get w); Ret (fst r, put (snd r) w)) (op_tick o)).
End Lift.

Definition null_ops : sched_ops sched_privs :=
  mk_ops (fun _ _ w => Ret (0, w)) None None None None None None None None None None.

(** A [struct acrn_scheduler *] is named by its policy; [SCHED_POLICY_NONE] is
    the null pointer. *)
Definition hooks (id : sched_policy_id) : sched_ops sched_privs :=
  match id with
  | SCHED_POLICY_NONE => null_ops
  | SCHED_POLICY_NOOP => lift_ops sched_noop_ctl (fun p w => w <| sched_noop_ctl := p |>) Noop.sched_noop
  | SCHED_POLICY_IORR => lift_ops sched_iorr_ctl (fun p w => w <| sched_iorr_ctl := p |>) Iorr.sched_iorr
  | SCHED_POLICY_BVT => lift_ops sched_bvt_ctl (fun p w => w <| sched_bvt_ctl := p |>) Bvt.sched_bvt
  | SCHED_POLICY_RTDS => lift_ops sched_rtds_ctl (fun p w => w <| sched_rtds_ctl := p |>) Rtds.sched_rtds
  | SCHED_POLICY_CBS => lift_ops sched_cbs_ctl (fun p w => w <| sched_cbs_ctl := p |>) Cbs.sched_cbs
  | SCHED_POLICY_PRIO => lift_ops sched_prio_ctl (fun p w => w <| sched_prio_ctl := p |>) Prio.sched_prio
  | SCHED_POLICY_ARINC653 =>
      lift_ops sched_arinc653_ctl (fun p w => w <| sched_arinc653_ctl := p |>) Arinc653.sched_arinc653
  | SCHED_POLICY_BFP => lift_ops sched_bfp_ctl (fun p w => w <| sched_bfp_ctl := p |>) Bfp.sched_bfp
  end.

(** ** State *)
Record sched_control := mk_ctl {
  flags : Z;
  curr_obj : option tid;
  scheduler : sched_policy_id;
  priv : sched_privs;
  scheduler_ticks : Z;
  context_switches : Z;
  reschedule_requests : Z;
  quiesce_request_vm_mask : Z;
  ctl_priority_pending : bool }.
#[export] Instance eta_ctl : Eta sched_control := fun c =>
  mk_ctl (flags c) (curr_obj c) (scheduler c) (priv c) (scheduler_ticks c) (context_switches c)
    (reschedule_requests c) (quiesce_request_vm_mask c) (ctl_priority_pending c).

Record sched_quiesce_slot := mk_slot {
  slot_obj : option tid;
  request_generation : Z;
  ack_generation : Z }.
#[export] Instance eta_slot : Eta sched_quiesce_slot := fun s =>
  mk_slot (slot_obj s) (request_generation s) (ack_generation s).
#[export] Instance slot_inhabited : Inhabited sched_quiesce_slot := populate (mk_slot None 0 0).

(** What the framework asks of the architecture and the trace buffer. *)
Inductive sched_event :=
| EvSendReschedule (pcpu : Z)
| EvTraceNext (prev next : Z)
| EvSwitchOut (t : tid)
| EvSwitchIn (t : tid)
| EvSwitchTo (prev : option tid) (next : tid) (authenticate : bool).

(** [system_suspend] and [reset_vm] are the pCPUs for which
    [has_system_suspend_request] and [has_reset_vm_request] hold;
    [ptrauth_active] is [arm64_ptrauth_active_current()]. *)
Record sched_world := mk_world {
  w_plat : platform;
  w_threads : gmap tid thread_object;
  w_ctls : gmap Z sched_control;
  thread_list : list tid;
  thread_count : Z;
  quiesce_slots : gmap (Z * Z) sched_quiesce_slot;
  system_suspend : list Z;
  reset_vm : list Z;
  ptrauth_active : bool;
  events : list sched_event }.
#[export] Instance eta_world : Eta sched_world := fun w =>
  mk_world (w_plat w) (w_threads w) (w_ctls w) (thread_list w) (thread_count w) (quiesce_slots w)
    (system_suspend w) (reset_vm w) (ptrauth_active w) (events w).

(** Zeroed storage. *)
Definition timer_zero : timer_handle := mk_handle (mk_timer TICK_MODE_ONESHOT 0 0 false) false.
Definition privs_zero : sched_privs :=
  mk_privs (Noop.mk_noop None) (Iorr.mk_iorr [] timer_zero ∅)
    (Bvt.mk_bvt [] timer_zero 0 ∅) (Rtds.mk_rtds [] [] timer_zero ∅)
    (Cbs.mk_cbs [] timer_zero 0 0 ∅) (Prio.mk_prio [] ∅)
    (Arinc653.mk_arinc [] (DList.mk_store ∅ ∅) timer_zero 0 0 0 0 0 0 0 0 false false)
    (Bfp.mk_bfp [] [] timer_zero 0 0 ∅).
#[export] Instance ctl_inhabited : Inhabited sched_control :=
  populate (mk_ctl 0 None SCHED_POLICY_NONE privs_zero 0 0 0 0 false).

Definition ctl_of (w : sched_world) (pcpu : Z) : sched_control := w_ctls w !!! pcpu.
Definition th (w : sched_world) (t : tid) : thread_object := w_threads w !!! t.
Definition slot_of (w : sched_world) (pcpu vm : Z) : sched_quiesce_slot := quiesce_slots w !!! (pcpu, vm).
Definition set_ctl (pcpu : Z) (c : sched_control) (w : sched_world) : sched_world :=
  w <| w_ctls := <[pcpu := c]> (w_ctls w) |>.
Definition set_th (t : tid) (o : thread_object) (w : sched_world) : sched_world :=
  w <| w_threads := <[t := o]> (w_threads w) |>.
Definition set_slot (pcpu vm : Z) (s : sched_quiesce_slot) (w : sched_world) : sched_world :=
  w <| quiesce_slots := <[(pcpu, vm) := s]> (quiesce_slots w) |>.
Definition set_priv (pcpu : Z) (p : sched_privs) (w : sched_world) : sched_world :=
  set_ctl pcpu ((ctl_of w pcpu) <| priv := p |>) w.
Definition emit (e : sched_event) (w : sched_world) : sched_world := w <| events := events w ++ [e] |>.

(** What a hook called on [cpu] for the control of [pcpu] sees. *)
Definition view_at (w : sched_world) (pcpu cpu : Z) : sched_view :=
  mk_view (w_plat w) pcpu cpu (curr_obj (ctl_of w pcpu)) (w_threads w).

Definition get_scheduler (w : sched_world) (pcpu : Z) : sched_ops sched_privs :=
  hooks (scheduler (ctl_of w pcpu)).

(** ** Registry *)
Definition sched_get_thread_count (w : sched_world) : Z := thread_count w.

(** (the threads stored, whether some did not fit) *)
Definition sched_snapshot_threads (max_threads : Z) (w : sched_world) : list tid * bool :=
  if max_threads =? 0 then ([], false)
  else foldl (fun acc t => if Z.of_nat (length (fst acc)) <? max_threads
                           then (fst acc ++ [t], snd acc) else (fst acc, true)) ([], false) (thread_list w).

(** [list_empty(&obj->node)] holds for a thread that is not on the list. *)
Definition register_thread_object (t : tid) (w : sched_world) : sched_world :=
  if bool_decide (t ∈ thread_list w) then w
  else w <| thread_list := thread_list w ++ [t] |> <| thread_count := u32 (thread_count w + 1) |>.

Definition unregister_thread_object (t : tid) (w : sched_world) : sched_world :=
  if bool_decide (t ∈ thread_list w) then
    let w := w <| thread_list := list_del_init t (thread_list w) |> in
    if negb (thread_count w =? 0) then w <| thread_count := thread_count w - 1 |> else w
  else w.

(** ** Thread states *)
Definition is_idle (w : sched_world) (t : tid) : bool := bool_decide (t = Idle (pcpu_id (th w t))).
Definition is_blocked (o : thread_object) : bool := bool_decide (status o = THREAD_STS_BLOCKED).
Definition is_running (o : thread_object) : bool := bool_decide (status o = THREAD_STS_RUNNING).
Definition is_runnable_or_running (o : thread_object) : bool :=
  bool_decide (status o = THREAD_STS_RUNNING) || bool_decide (status o = THREAD_STS_RUNNABLE).
Definition set_thread_status (s : thread_object_state) (o : thread_object) : thread_object := o <| status := s |>.

Definition sched_trace_thread_token (o : thread_object) : Z :=
  if is_vcpu o then
    Z.lor (Z.lor (Z.shiftl 1 31) (Z.shiftl (Z.land (vm_id o) 32767) 16)) (Z.land (vcpu_id o) 65535)
  else Z.lor (Z.shiftl (u8 (name o !!! 0%nat)) 8) (Z.land (u8 (name o !!! 1%nat)) 255).

(** ** Latency accounting *)
Definition sched_add_runtime (ticks : Z) (o : thread_object) : thread_object :=
  o <| latency := (latency o) <| runtime_ticks :=
    if UINT64_MAX - runtime_ticks (latency o) <? ticks then UINT64_MAX else runtime_ticks (latency o) + ticks |> |>.

Definition sched_latency_hist_bucket (khz wait_ticks : Z) : nat :=
  let wait_us := ticks_to_us khz wait_ticks in
  if wait_us <? 100 then 0%nat else if wait_us <? 500 then 1%nat else if wait_us <? 1000 then 2%nat
  else if wait_us <? 5000 then 3%nat else if wait_us <? 10000 then 4%nat else if wait_us <? 15000 then 5%nat
  else if wait_us <? 20000 then 6%nat else 7%nat.

Definition sched_latency_hist_bucket_name (bucket : Z) : string :=
  if (0 <=? bucket) && (bucket <? 8)
  then default "?"%string (["<100us"; "<500us"; "<1ms"; "<5ms"; "<10ms"; "<15ms"; "<20ms"; ">=20ms"]%string !! Z.to_nat bucket)
  else "?"%string.

Definition sched_record_wait_latency (khz wait_ticks : Z) (o : thread_object) : thread_object :=
  let b := sched_latency_hist_bucket khz wait_ticks in
  let n := wait_hist (latency o) !!! b in
  if negb (n =? UINT64_MAX) then o <| latency := (latency o) <| wait_hist := <[b := n + 1]> (wait_hist (latency o)) |> |>
  else o.

Definition sched_mark_runnable (now : Z) (o : thread_object) : thread_object :=
  o <| latency := (latency o) <| state_since := now |> <| runnable_since := now |> |>.
Definition sched_mark_blocked (now : Z) (o : thread_object) : thread_object :=
  o <| latency := (latency o) <| state_since := now |> <| runnable_since := 0 |> |>.

Definition sched_mark_running (khz now : Z) (o : thread_object) : thread_object :=
  let o :=
    if negb (runnable_since (latency o) =? 0) then
      let wait_ticks := u64 (now - runnable_since (latency o)) in
      let o := o <| latency := (latency o) <| last_wait_ticks := wait_ticks |> |> in
      let o := if max_wait_ticks (latency o) <? wait_ticks
               then o <| latency := (latency o) <| max_wait_ticks := wait_ticks |> |> else o in
      sched_record_wait_latency khz wait_ticks o
    else o in
  o <| latency := (latency o) <| switches := u64 (switches (latency o) + 1) |>
                              <| state_since := now |> <| runnable_since := 0 |> |>.

Definition sched_mark_not_running (now : Z) (runnable : bool) (o : thread_object) : thread_object :=
  let o := if negb (state_since (latency o) =? 0) then sched_add_runtime (u64 (now - state_since (latency o))) o else o in
  o <| latency := (latency o) <| state_since := now |> <| runnable_since := if runnable then now else 0 |> |>.

Definition sched_get_latency (now : Z) (o : thread_object) : sched_latency_stats :=
  let st := latency o in
  if bool_decide (status o = THREAD_STS_RUNNABLE) && negb (runnable_since st =? 0) then
    let wait_ticks := u64 (now - runnable_since st) in
    if max_wait_ticks st <? wait_ticks then st <| max_wait_ticks := wait_ticks |> else st
  else if bool_decide (status o = THREAD_STS_RUNNING) && negb (state_since st =? 0) then
    let run_ticks := u64 (now - state_since st) in
    if UINT64_MAX - runtime_ticks st <? run_ticks then st <| runtime_ticks := UINT64_MAX |>
    else st <| runtime_ticks := runtime_ticks st + run_ticks |>
  else st.

(** ** Selection of a scheduler *)
Definition sched_set_platform_config (cfg : option sched_platform_config) (w : sched_world) : sched_world :=
  let zero := mk_pool false false 0 SCHED_POLICY_NONE 0 0 false 0 0 0 0 in
  w <| w_plat := mk_platform (tickrate (w_plat w)) (pcpu_nums (w_plat w))
         (default (mk_plat_config false false zero zero) cfg) (vm_configs (w_plat w)) |>.

(** The policy itself names the scheduler; the default case is NULL. *)
Definition scheduler_from_policy (id : sched_policy_id) : sched_policy_id :=
  match id with
  | SCHED_POLICY_NOOP => SCHED_POLICY_NOOP
  | SCHED_POLICY_IORR => SCHED_POLICY_IORR
  | SCHED_POLICY_BVT => SCHED_POLICY_BVT
  | SCHED_POLICY_RTDS => SCHED_POLICY_RTDS
  | SCHED_POLICY_CBS => SCHED_POLICY_CBS
  | SCHED_POLICY_PRIO => SCHED_POLICY_PRIO
  | SCHED_POLICY_ARINC653 => SCHED_POLICY_ARINC653
  | SCHED_POLICY_BFP => SCHED_POLICY_BFP
  | SCHED_POLICY_NONE => SCHED_POLICY_NONE
  end.

Definition select_pcpu_scheduler (w : sched_world) (pcpu : Z) : outcome sched_policy_id :=
  let cfg := sched_config (w_plat w) in
  match sched_get_pcpu_pool_config cfg pcpu with
  | Some pool =>
      if negb (configured cfg) then Panic "missing DTS scheduler cpupool"
      else
        let s := scheduler_from_policy (policy pool) in
        if bool_decide (s = SCHED_POLICY_NONE) then Panic "invalid DTS scheduler policy" else Ret s
  | None => Panic "missing DTS scheduler cpupool"
  end.

(** ** Controls *)
Definition init_sched (cpu pcpu : Z) (clk : clock) (w : sched_world) : outcome sched_world :=
  let c := mk_ctl 0 None (scheduler (ctl_of w pcpu)) (priv (ctl_of w pcpu)) 0 0 0 0 false in
  let w := set_ctl pcpu c w in
  s ← select_pcpu_scheduler w pcpu;
  let w := set_ctl pcpu (c <| scheduler := s |>) w in
  _ ← ASSERT (negb (bool_decide (s = SCHED_POLICY_NONE))) "no scheduler configured!";
  r ← op_init (hooks s) (view_at w pcpu cpu) clk (priv c);
  Ret (set_priv pcpu (snd r) w).

(** [ctl->scheduler->hook(ctl)] when the hook is there. *)
Definition ctl_hook (hook : option (sched_view -> clock -> sched_privs -> outcome sched_privs))
    (cpu pcpu : Z) (clk : clock) (w : sched_world) : outcome sched_world :=
  match hook with
  | Some f => p ← f (view_at w pcpu cpu) clk (priv (ctl_of w pcpu)); Ret (set_priv pcpu p w)
  | None => Ret w
  end.

(** [scheduler->hook(obj)] *)
Definition obj_hook (hook : option (sched_view -> clock -> tid -> sched_privs -> outcome sched_privs))
    (cpu : Z) (clk : clock) (t : tid) (w : sched_world) : outcome sched_world :=
  ctl_hook (option_map (fun f v clk => f v clk t) hook) cpu (pcpu_id (th w t)) clk w.

Definition deinit_sched (cpu pcpu : Z) (clk : clock) (w : sched_world) : outcome sched_world :=
  ctl_hook (op_deinit (get_scheduler w pcpu)) cpu pcpu clk w.

Definition sched_account_tick (pcpu : Z) (w : sched_world) : sched_world :=
  set_ctl pcpu ((ctl_of w pcpu) <| scheduler_ticks := u64 (scheduler_ticks (ctl_of w pcpu) + 1) |>) w.

Definition make_reschedule_request (cpu pcpu : Z) (w : sched_world) : sched_world :=
  let c := ctl_of w pcpu in
  let w := set_ctl pcpu (c <| reschedule_requests := u64 (reschedule_requests c + 1) |>
                           <| flags := Z.setbit (flags c) NEED_RESCHEDULE |>) w in
  if negb (cpu =? pcpu) then emit (EvSendReschedule pcpu) w else w.

Definition need_reschedule (pcpu : Z) (w : sched_world) : bool :=
  Z.testbit (flags (ctl_of w pcpu)) NEED_RESCHEDULE.

(** A hook that reports whether it raised a reschedule request. *)
Definition resched_hook (hook : option (sched_view -> clock -> sched_privs -> outcome (bool * sched_privs)))
    (cpu pcpu : Z) (clk : clock) (w : sched_world) : outcome sched_world :=
  match hook with
  | Some f =>
      r ← f (view_at w pcpu cpu) clk (priv (ctl_of w pcpu));
      let w := set_priv pcpu (snd r) w in
      Ret (if fst r : bool then make_reschedule_request cpu pcpu w else w)
  | None => Ret w
  end.

Definition BSP_CPU_ID : Z := 0.
Definition suspend_sched (cpu : Z) (clk : clock) (w : sched_world) : outcome sched_world :=
  ctl_hook (op_suspend (get_scheduler w BSP_CPU_ID)) cpu BSP_CPU_ID clk w.
Definition resume_sched (cpu : Z) (clk : clock) (w : sched_world) : outcome sched_world :=
  resched_hook (op_resume (get_scheduler w BSP_CPU_ID)) cpu BSP_CPU_ID clk w.

(** The scheduler timer of a pCPU expires: the callback of its policy. *)
Definition sched_timer_tick (cpu : Z) (clk : clock) (w : sched_world) : outcome sched_world :=
  match op_tick (get_scheduler w cpu) with
  | Some _ => resched_hook (op_tick (get_scheduler w cpu)) cpu cpu clk (sched_account_tick cpu w)
  | None => Ret w
  end.

(** ** Thread data *)

(** [INIT_LIST_HEAD(&obj->node)] has no counterpart: the callers pass threads
    that are not on the list. *)
Definition init_thread_data (cpu : Z) (clk : clock) (now : Z) (t : tid) (prm : sched_params) (w : sched_world)
    : outcome sched_world :=
  let w := set_th t ((th w t) <| latency := latency_zero |>) w in
  w ← obj_hook (option_map (fun f v clk t => f v clk t prm) (op_init_data (get_scheduler w (pcpu_id (th w t)))))
        cpu clk t w;
  let o := set_thread_status THREAD_STS_BLOCKED (th w t) in
  let w := set_th t (o <| priority_pending := false |> <| freeze_epoch := 0 |> <| deferred_wake := false |>
                       <| latency := (latency o) <| state_since := now |> |>) w in
  Ret (register_thread_object t w).

Definition reset_thread_data (cpu : Z) (clk : clock) (t : tid) (prm : sched_params) (w : sched_world)
    : outcome (Z * sched_world) :=
  let o := th w t in
  if negb (sched_ctl o) || (pcpu_nums (w_plat w) <=? pcpu_id o) then Ret (- EINVAL, w)
  else if negb (is_blocked o) || be_blocking o || bool_decide (curr_obj (ctl_of w (pcpu_id o)) = Some t) ||
          negb (freeze_epoch o =? 0)
  then Ret (- EBUSY, w)
  else
    w ← obj_hook (option_map (fun f v clk t => f v clk t prm) (op_init_data (get_scheduler w (pcpu_id o)))) cpu clk t w;
    Ret (0, set_th t ((th w t) <| priority_pending := false |> <| deferred_wake := false |>) w).

Definition deinit_thread_data (cpu : Z) (clk : clock) (t : tid) (w : sched_world) : outcome sched_world :=
  w ← obj_hook (op_deinit_data (get_scheduler w (pcpu_id (th w t)))) cpu clk t w;
  Ret (unregister_thread_object t w).

(** ** Scheduling *)

(** The scan of the registry: (runnable threads counted, last thread looked at). *)
Fixpoint scan_runnable (pcpu : Z) (current : tid) (w : sched_world) (l : list tid) (runnable : Z)
    (obj : option tid) : Z * option tid :=
  match l with
  | [] => (runnable, obj)
  | t :: l =>
      let o := th w t in
      if negb (pcpu_id o =? pcpu) || is_idle w t || be_blocking o || negb (is_runnable_or_running o)
      then scan_runnable pcpu current w l runnable (Some t)
      else
        let runnable := runnable + 1 in
        if (1 <? runnable) || negb (bool_decide (t = current)) then (runnable, Some t)
        else scan_runnable pcpu current w l runnable (Some t)
  end.

Definition sched_current_is_only_runnable_locked (pcpu : Z) (w : sched_world) : bool :=
  match curr_obj (ctl_of w pcpu) with
  | Some current =>
      if is_idle w current || be_blocking (th w current) || negb (is_runnable_or_running (th w current)) then false
      else
        let '(runnable, obj) := scan_runnable pcpu current w (thread_list w) 0 None in
        (runnable =? 1) && bool_decide (obj = Some current)
  | None => false
  end.

Definition sched_idle_work_pending_locked (pcpu : Z) (w : sched_world) : bool :=
  bool_decide (pcpu ∈ system_suspend w) || bool_decide (pcpu ∈ reset_vm w) ||
  negb (quiesce_request_vm_mask (ctl_of w pcpu) =? 0).

Definition clear_need_reschedule (pcpu : Z) (w : sched_world) : sched_world :=
  set_ctl pcpu ((ctl_of w pcpu) <| flags := Z.clearbit (flags (ctl_of w pcpu)) NEED_RESCHEDULE |>) w.

Definition sched_clear_reschedule_if_current_only (pcpu : Z) (w : sched_world) : bool * sched_world :=
  if negb (sched_idle_work_pending_locked pcpu w) && need_reschedule pcpu w &&
     sched_current_is_only_runnable_locked pcpu w
  then (true, clear_need_reschedule pcpu w) else (false, w).

(** The registry scan of [schedule] for one-shot priority requests. *)
Fixpoint prioritize_loop (cpu : Z) (clks : nat -> clock) (i : nat) (l : list tid) (w : sched_world)
    : outcome (nat * sched_world) :=
  match l with
  | [] => Ret (i, w)
  | t :: l =>
      let o := th w t in
      if (pcpu_id o =? cpu) && priority_pending o then
        let w := set_th t (o <| priority_pending := false |>) w in
        if is_runnable_or_running o && negb (be_blocking o) then
          w ← obj_hook (op_prioritize (get_scheduler w cpu)) cpu (clks i) t w;
          prioritize_loop cpu clks (S i) l w
        else prioritize_loop cpu clks i l w
      else prioritize_loop cpu clks i l w
  end.

Definition consume_priorities (cpu : Z) (clks : nat -> clock) (w : sched_world) : outcome (nat * sched_world) :=
  if ctl_priority_pending (ctl_of w cpu) then
    let w := set_ctl cpu ((ctl_of w cpu) <| ctl_priority_pending := false |>) w in
    prioritize_loop cpu clks 0 (thread_list w) w
  else Ret (0%nat, w).

Definition choose_next (cpu : Z) (clk : clock) (w : sched_world) : outcome (tid * sched_world) :=
  if sched_idle_work_pending_locked cpu w then Ret (Idle cpu, w)
  else match op_pick_next (get_scheduler w cpu) with
       | Some f =>
           r ← f (view_at w cpu cpu) clk (priv (ctl_of w cpu));
           Ret (fst r, set_priv cpu (snd r) w)
       | None => Ret (Idle cpu, w)
       end.

(** The thread leaves, the next one enters. *)
Definition switch_from (now : Z) (prev next : tid) (w : sched_world) : sched_world :=
  let o := th w prev in
  let w := emit (EvTraceNext (sched_trace_thread_token o) (sched_trace_thread_token (th w next))) w in
  let w := if switch_out o then emit (EvSwitchOut prev) w else w in
  let o := sched_mark_not_running now (negb (be_blocking o)) o in
  let o := set_thread_status (if be_blocking o then THREAD_STS_BLOCKED else THREAD_STS_RUNNABLE) o in
  set_th prev (o <| be_blocking := false |>) w.

Definition switch_to (cpu now : Z) (next : tid) (w : sched_world) : sched_world :=
  let o := th w next in
  let w := if switch_in o then emit (EvSwitchIn next) w else w in
  let w := set_th next (set_thread_status THREAD_STS_RUNNING (sched_mark_running (tickrate (w_plat w)) now o)) w in
  let c := ctl_of w cpu in
  set_ctl cpu (c <| curr_obj := Some next |> <| context_switches := u64 (context_switches c + 1) |>) w.

Definition switch_context (cpu now : Z) (prev : option tid) (next : tid) (w : sched_world) : sched_world :=
  let authenticate_return := ptrauth_active w && ptrauth_return_authenticated (th w next) in
  let w := if ptrauth_active w then set_th next ((th w next) <| ptrauth_return_authenticated := true |>) w else w in
  let w := match prev with Some prev => switch_from now prev next w | None => w end in
  let w := switch_to cpu now next w in
  emit (EvSwitchTo prev next authenticate_return) w.

Definition schedule (cpu : Z) (clks : nat -> clock) (now : Z) (w : sched_world) : outcome sched_world :=
  let prev := curr_obj (ctl_of w cpu) in
  '(i, w) ← consume_priorities cpu clks w;
  '(next, w) ← choose_next cpu (clks i) w;
  let w := clear_need_reschedule cpu w in
  Ret (if negb (bool_decide (prev = Some next)) then switch_context cpu now prev next w else w).

(** ** Sleep and wake *)
Definition sleep_thread_locked (cpu : Z) (clk : clock) (now : Z) (t : tid) (w : sched_world)
    : outcome (bool * sched_world) :=
  let pcpu := pcpu_id (th w t) in
  let wake_owned := negb (is_blocked (th w t)) && negb (be_blocking (th w t)) in
  w ← obj_hook (op_sleep (get_scheduler w pcpu)) cpu clk t w;
  Ret (wake_owned,
       if is_running (th w t) then
         let w := make_reschedule_request cpu pcpu w in
         set_th t ((th w t) <| be_blocking := true |>) w
       else set_th t (set_thread_status THREAD_STS_BLOCKED (sched_mark_blocked now (th w t))) w).

Definition sleep_thread (cpu : Z) (clk : clock) (now : Z) (t : tid) (w : sched_world) : outcome sched_world :=
  r ← sleep_thread_locked cpu clk now t w; Ret (snd r).

(** [sleep_thread_sync] sleeps and waits until the other pCPU has switched. *)
Definition sleep_thread_sync_done (t : tid) (w : sched_world) : bool := is_blocked (th w t).

Definition wake_thread_locked (cpu : Z) (clk : clock) (now : Z) (t : tid) (w : sched_world) : outcome sched_world :=
  let pcpu := pcpu_id (th w t) in
  if is_blocked (th w t) || be_blocking (th w t) then
    w ← obj_hook (op_wake (get_scheduler w pcpu)) cpu clk t w;
    let w := if is_blocked (th w t) then
               let w := set_th t (set_thread_status THREAD_STS_RUNNABLE (sched_mark_runnable now (th w t))) w in
               make_reschedule_request cpu pcpu w
             else w in
    Ret (set_th t ((th w t) <| be_blocking := false |>) w)
  else Ret w.

(** ** Quiesce *)
Definition quiesce_target (o : thread_object) : bool :=
  is_vcpu o && (pcpu_id o <? MAX_PCPU_NUM) && (vm_id o <? CONFIG_MAX_VM_NUM).

Definition request_thread_quiesce (cpu : Z) (t : tid) (generation : Z) (w : sched_world) : bool * sched_world :=
  let o := th w t in
  if negb (quiesce_target o) || (generation =? 0) then (false, w)
  else
    let pcpu := pcpu_id o in
    let s := slot_of w pcpu (vm_id o) in
    if sched_ctl o && (bool_decide (slot_obj s = None) || bool_decide (slot_obj s = Some t) ||
                       (request_generation s =? ack_generation s)) then
      let w := set_slot pcpu (vm_id o) (s <| slot_obj := Some t |> <| request_generation := generation |>) w in
      let c := ctl_of w pcpu in
      let w := set_ctl pcpu (c <| quiesce_request_vm_mask := Z.setbit (quiesce_request_vm_mask c) (vm_id o) |>) w in
      (true, make_reschedule_request cpu pcpu w)
    else (false, w).

Definition is_thread_quiesced (t : tid) (generation : Z) (w : sched_world) : bool :=
  let o := th w t in
  if negb (quiesce_target o) || (generation =? 0) then false
  else
    let s := slot_of w (pcpu_id o) (vm_id o) in
    bool_decide (slot_obj s = Some t) && (request_generation s =? generation) && (ack_generation s =? generation).

Definition release_thread_quiesce (t : tid) (w : sched_world) : sched_world :=
  let o := th w t in
  if negb (quiesce_target o) then w
  else
    let pcpu := pcpu_id o in
    if bool_decide (slot_obj (slot_of w pcpu (vm_id o)) = Some t) then
      let c := ctl_of w pcpu in
      let w := set_ctl pcpu (c <| quiesce_request_vm_mask := Z.clearbit (quiesce_request_vm_mask c) (vm_id o) |>) w in
      set_slot pcpu (vm_id o) (mk_slot None 0 0) w
    else w.

Definition quiesce_done (pcpu vm : Z) (w : sched_world) : bool :=
  let s := slot_of w pcpu vm in
  bool_decide (curr_obj (ctl_of w pcpu) = Some (Idle pcpu)) &&
  match slot_obj s with
  | Some t =>
      let o := th w t in
      is_vcpu o && (pcpu_id o =? pcpu) && (vm_id o =? vm) && negb (request_generation s =? 0) &&
      is_blocked o && negb (be_blocking o) && negb (bool_decide (curr_obj (ctl_of w pcpu) = Some t))
  | None => false
  end.

Definition ack_slot (pcpu vm : Z) (w : sched_world) : sched_world :=
  let c := ctl_of w pcpu in
  let w := set_ctl pcpu (c <| quiesce_request_vm_mask := Z.clearbit (quiesce_request_vm_mask c) vm |>) w in
  let s := slot_of w pcpu vm in
  set_slot pcpu vm (s <| ack_generation := request_generation s |>) w.

(** The loop over the requested VMs; every round clears one bit of its copy of
    the mask. *)
Fixpoint ack_loop (fuel : nat) (pcpu request_vm_mask : Z) (acked : bool) (w : sched_world)
    : outcome (bool * sched_world) :=
  let vm := ffs64 request_vm_mask in
  if vm <? CONFIG_MAX_VM_NUM then
    match fuel with
    | O => Hang "sched_ack_quiesce_from_idle"
    | S fuel =>
        let mask := Z.clearbit request_vm_mask vm in
        if quiesce_done pcpu vm w then ack_loop fuel pcpu mask true (ack_slot pcpu vm w)
        else ack_loop fuel pcpu mask acked w
    end
  else Ret (acked, w).

Definition sched_ack_quiesce_from_idle (pcpu : Z) (w : sched_world) : outcome (bool * sched_world) :=
  ack_loop (Z.to_nat CONFIG_MAX_VM_NUM) pcpu (quiesce_request_vm_mask (ctl_of w pcpu)) false w.

Definition thread_quiesce_active_locked (t : tid) (w : sched_world) : bool :=
  let o := th w t in
  if negb (quiesce_target o) then false
  else
    let s := slot_of w (pcpu_id o) (vm_id o) in
    bool_decide (slot_obj s = Some t) && negb (request_generation s =? 0).

Definition wake_thread (cpu : Z) (clk : clock) (now : Z) (t : tid) (w : sched_world) : outcome sched_world :=
  if negb (thread_quiesce_active_locked t w) then
    if negb (freeze_epoch (th w t) =? 0) then Ret (set_th t ((th w t) <| deferred_wake := true |>) w)
    else wake_thread_locked cpu clk now t w
  else Ret w.

(** ** Freeze

    (whether the thread is frozen, [*wake_owned], the new state) *)
Definition freeze_thread (cpu : Z) (clk : clock) (now : Z) (t : tid) (epoch : Z) (w : sched_world)
    : outcome (bool * bool * sched_world) :=
  if epoch =? 0 then Ret (false, false, w)
  else if (freeze_epoch (th w t) =? 0) || (freeze_epoch (th w t) =? epoch) then
    let w := if freeze_epoch (th w t) =? 0
             then set_th t ((th w t) <| freeze_epoch := epoch |> <| deferred_wake := false |>) w else w in
    r ← sleep_thread_locked cpu clk now t w;
    Ret (true, fst r, snd r)
  else Ret (false, false, w).

Definition is_thread_frozen (t : tid) (epoch : Z) (w : sched_world) : bool :=
  let o := th w t in
  if epoch =? 0 then false
  else (freeze_epoch o =? epoch) && bool_decide (status o = THREAD_STS_BLOCKED) && negb (be_blocking o) &&
       negb (bool_decide (curr_obj (ctl_of w (pcpu_id o)) = Some t)).

Definition thaw_thread (cpu : Z) (clk : clock) (now : Z) (t : tid) (epoch : Z) (wake_owned : bool) (w : sched_world)
    : outcome (bool * sched_world) :=
  if epoch =? 0 then Ret (false, w)
  else if freeze_epoch (th w t) =? epoch then
    let replay_wake := wake_owned || deferred_wake (th w t) in
    let w := set_th t ((th w t) <| freeze_epoch := 0 |> <| deferred_wake := false |>) w in
    w ← (if replay_wake then wake_thread_locked cpu clk now t w else Ret w);
    Ret (true, w)
  else Ret (false, w).

(** ** Priority requests, yield *)
Definition request_thread_priority_no_resched (t : tid) (w : sched_world) : sched_world :=
  let pcpu := pcpu_id (th w t) in
  match op_prioritize (get_scheduler w pcpu) with
  | Some _ =>
      let w := set_th t ((th w t) <| priority_pending := true |>) w in
      set_ctl pcpu ((ctl_of w pcpu) <| ctl_priority_pending := true |>) w
  | None => w
  end.

Definition request_thread_priority (cpu : Z) (t : tid) (w : sched_world) : sched_world :=
  make_reschedule_request cpu (pcpu_id (th w t)) (request_thread_priority_no_resched t w).

Definition yield_current (cpu : Z) (w : sched_world) : sched_world := make_reschedule_request cpu cpu w.

(** ** Idle *)

(** Up to the call of [obj->thread_entry]. *)
Definition run_thread (cpu now : Z) (t : tid) (w : sched_world) : sched_world :=
  let w := set_ctl cpu ((ctl_of w cpu) <| curr_obj := Some t |>) w in
  set_th t (set_thread_status THREAD_STS_RUNNING (sched_mark_running (tickrate (w_plat w)) now (th w t))) w.

(** [idle_params] is zero but for the priority. *)
Definition idle_params : sched_params := mk_params PRIO_IDLE 0 0 0 0 0 0 0 0.

Definition run_idle_thread (cpu : Z) (clk : clock) (now0 now1 : Z) (idle_name : list Z) (w : sched_world)
    : outcome sched_world :=
  let w := set_th (Idle cpu) ((th w (Idle cpu)) <| name := idle_name |> <| pcpu_id := cpu |>
                                <| switch_out := false |> <| switch_in := false |>) w in
  w ← init_thread_data cpu clk now0 (Idle cpu) idle_params w;
  Ret (run_thread cpu now1 (Idle cpu) w).

(** The requests other components have for the idle thread of a pCPU. *)
Record idle_requests := mk_requests {
  need_system_suspend : bool;
  need_offline : bool;
  need_reset_vm : bool;
  need_shutdown_vm : bool }.
Inductive idle_action :=
| IdleSuspend | IdleSchedule | IdleDead | IdleResetVm | IdleShutdownVm | IdleWait.

(** One round of the loop of [default_idle] and which branch it takes.  What
    [hv_pm_process_from_idle], [cpu_dead], [reset_vm_from_idle],
    [shutdown_vm_from_idle] and [cpu_do_idle] do is outside the framework; the
    reschedule request after the PM transaction is part of the round. *)
Definition default_idle_round (cpu : Z) (clks : nat -> clock) (now : Z) (rq : idle_requests) (w : sched_world)
    : outcome (idle_action * sched_world) :=
  r ← sched_ack_quiesce_from_idle cpu w;
  let w := if fst r : bool then make_reschedule_request cpu cpu (snd r) else snd r in
  if need_system_suspend rq then Ret (IdleSuspend, make_reschedule_request cpu cpu w)
  else if need_reschedule cpu w then w ← schedule cpu clks now w; Ret (IdleSchedule, w)
  else if need_offline rq then Ret (IdleDead, w)
  else if need_reset_vm rq then Ret (IdleResetVm, w)
  else if need_shutdown_vm rq then Ret (IdleShutdownVm, w)
  else Ret (IdleWait, w).

(** ** Policies keep their promises on the storage of a pCPU *)
Ltac lift_hook := match goal with
  | H : option_map _ ?o = Some _ |- _ => destruct o eqn:?; [|done]; injection H as <-
  end.

Definition lift_policy {P} (get : sched_privs -> P) (put : P -> sched_privs -> sched_privs) (o : sched_ops P)
    (Hgp : forall p w, get (put p w) = p) (S : SchedPolicy o) : SchedPolicy (lift_ops get put o).
Proof.
  refine {| pol_inv := fun w => pol_inv o (get w); queued := fun w t => queued o (get w) t |}; cbn; intros.
  - inv_ret. subst. rewrite Hgp. destruct r0. by eapply init_sound.
  - lift_hook. inv_ret. subst. rewrite Hgp. destruct r. by eapply pick_sound.
  - lift_hook. inv_ret. subst. rewrite Hgp. by eapply sleep_sound.
  - destruct (op_sleep o) eqn:E; [done|]. by apply sleep_null.
  - lift_hook. inv_ret. subst. rewrite Hgp. by eapply wake_sound.
  - lift_hook. inv_ret. subst. rewrite Hgp. by eapply prioritize_sound.
  - lift_hook. inv_ret. subst. rewrite Hgp. by eapply init_data_sound.
  - lift_hook. inv_ret. subst. rewrite Hgp. by eapply deinit_data_sound.
  - lift_hook. inv_ret. subst. rewrite Hgp. by eapply deinit_sound.
  - lift_hook. inv_ret. subst. rewrite Hgp. by eapply suspend_sound.
  - lift_hook. inv_ret. subst. rewrite Hgp. destruct r. by eapply resume_sound.
  - lift_hook. inv_ret. subst. rewrite Hgp. destruct r. by eapply tick_sound.
Defined.

Definition null_policy : SchedPolicy null_ops.
Proof.
  refine {| pol_inv := fun _ => True; queued := fun _ _ => False |}; cbn; try done; intros; tauto.
Defined.

#[export] Instance hooks_policy id : SchedPolicy (hooks id).
Proof.
  destruct id; cbn [hooks].
  - exact null_policy.
  - refine (lift_policy _ _ _ _ Noop.noop_policy). done.
  - refine (lift_policy _ _ _ _ Iorr.iorr_policy). done.
  - refine (lift_policy _ _ _ _ Bvt.bvt_policy). done.
  - refine (lift_policy _ _ _ _ Rtds.rtds_policy). done.
  - refine (lift_policy _ _ _ _ Cbs.cbs_policy). done.
  - refine (lift_policy _ _ _ _ Prio.prio_policy). done.
  - refine (lift_policy _ _ _ _ Arinc653.arinc653_policy). done.
  - refine (lift_policy _ _ _ _ Bfp.bfp_policy). done.
Defined.

(** ** The invariant *)
Definition on_queue (w : sched_world) (c : Z) (t : tid) : Prop :=
  queued (hooks (scheduler (ctl_of w c))) (priv (ctl_of w c)) t.
Definition policy_ok (w : sched_world) (c : Z) : Prop :=
  pol_inv (hooks (scheduler (ctl_of w c))) (priv (ctl_of w c)).

(** Bound to [c], not its idle thread, neither blocked nor about to block. *)
Definition awake_on (w : sched_world) (c : Z) (t : tid) : Prop := awake (view_at w c c) t.
Definition asleep (o : thread_object) : Prop := status o = THREAD_STS_BLOCKED \/ be_blocking o = true.

Definition queues_ok (e : option tid) (w : sched_world) : Prop :=
  forall c, policy_ok w c /\ forall x, on_queue w c x -> (e = Some x /\ pcpu_id (th w x) = c) \/ awake_on w c x.
(** The running threads are the current ones. *)
Definition current_ok (w : sched_world) : Prop :=
  (forall c t, curr_obj (ctl_of w c) = Some t -> pcpu_id (th w t) = c /\ status (th w t) = THREAD_STS_RUNNING) /\
  (forall t, status (th w t) = THREAD_STS_RUNNING -> curr_obj (ctl_of w (pcpu_id (th w t))) = Some t).
Definition threads_ok (w : sched_world) : Prop :=
  forall t, be_blocking (th w t) = true -> status (th w t) = THREAD_STS_RUNNING.
Definition frozen_ok (w : sched_world) : Prop := forall t, freeze_epoch (th w t) <> 0 -> asleep (th w t).
(** Idle threads never sleep, and belong to their pCPU once it has started. *)
Definition idle_ok (w : sched_world) : Prop :=
  forall c, be_blocking (th w (Idle c)) = false /\ priority_pending (th w (Idle c)) = false /\
    freeze_epoch (th w (Idle c)) = 0 /\
    (curr_obj (ctl_of w c) <> None -> pcpu_id (th w (Idle c)) = c).
Definition registry_ok (w : sched_world) : Prop :=
  NoDup (thread_list w) /\ thread_count w = Z.of_nat (length (thread_list w)) /\ thread_count w <= UINT32_MAX.

(** [e] is a thread a wake has queued and not yet marked runnable. *)
Definition inv_except (e : option tid) (w : sched_world) : Prop :=
  queues_ok e w /\ current_ok w /\ threads_ok w /\ idle_ok w /\ registry_ok w.
Definition base_inv : sched_world -> Prop := inv_except None.
Definition sched_inv (w : sched_world) : Prop := base_inv w /\ frozen_ok w.

Lemma ctl_set c k w d : ctl_of (set_ctl c k w) d = if decide (c = d) then k else ctl_of w d.
Proof.
  unfold ctl_of, set_ctl. cbn. destruct (decide (c = d)) as [<-|]; [apply lookup_total_insert_eq|].
  by apply lookup_total_insert_ne.
Qed.

Lemma th_set t o w u : th (set_th t o w) u = if decide (t = u) then o else th w u.
Proof.
  unfold th, set_th. cbn. destruct (decide (t = u)) as [<-|]; [apply lookup_total_insert_eq|].
  by apply lookup_total_insert_ne.
Qed.

(** Two states that agree on what the invariant is about. *)
Definition same_keys (o o' : thread_object) : Prop :=
  pcpu_id o' = pcpu_id o /\ status o' = status o /\ be_blocking o' = be_blocking o /\ freeze_epoch o' = freeze_epoch o.
Definition agree (w w' : sched_world) : Prop :=
  (forall c, curr_obj (ctl_of w' c) = curr_obj (ctl_of w c) /\ scheduler (ctl_of w' c) = scheduler (ctl_of w c)) /\
  (forall t, same_keys (th w t) (th w' t)) /\
  (forall c, priority_pending (th w' (Idle c)) = true -> priority_pending (th w (Idle c)) = true) /\
  thread_list w' = thread_list w /\ thread_count w' = thread_count w.
#[export] Instance agree_refl : Reflexive agree.
Proof. by intros w. Qed.

Lemma awake_keys w w' c x : (forall t, same_keys (th w t) (th w' t)) -> awake_on w c x -> awake_on w' c x.
Proof.
  intros Hk (H1 & H2 & H3 & H4). destruct (Hk x) as (E1 & E2 & E3 & _).
  change (awake_on w' c x) with (pcpu_id (th w' x) = c /\ x <> Idle c /\
    status (th w' x) <> THREAD_STS_BLOCKED /\ be_blocking (th w' x) = false). rewrite E1, E2, E3. done.
Qed.

(** Keys agree, and the queues have gained only the exception and awake threads. *)
Lemma inv_agree e w w' :
  agree w w' -> inv_except None w ->
  (forall c, policy_ok w' c /\ forall x, on_queue w' c x ->
    (e = Some x /\ pcpu_id (th w' x) = c) \/ awake_on w' c x) ->
  inv_except e w'.
Proof.
  intros (Hc & Hk & Hp & El & En) (_ & (C1 & C2) & Ht & Hi & Hr) Hq.
  split; [done|]. unfold current_ok. split_and!.
  - intros c t. destruct (Hk t) as (-> & -> & _). destruct (Hc c) as [-> _]. apply C1.
  - intros t. destruct (Hk t) as (-> & -> & _). destruct (Hc (pcpu_id (th w t))) as [-> _]. apply C2.
  - intros t. destruct (Hk t) as (_ & -> & -> & _). apply Ht.
  - intros c. destruct (Hk (Idle c)) as (-> & _ & -> & ->). destruct (Hc c) as [-> _].
    destruct (Hi c) as (? & Hpp & ? & ?). split_and!; try done.
    destruct (priority_pending (th w' (Idle c))) eqn:E; [|done]. by rewrite (Hp c E) in Hpp.
  - unfold registry_ok. rewrite El, En. done.
Qed.

(** A change that leaves the private states alone. *)
Lemma inv_quiet w w' :
  agree w w' -> (forall c, priv (ctl_of w' c) = priv (ctl_of w c)) -> base_inv w -> base_inv w'.
Proof.
  intros Ha Hp Hi. apply (inv_agree None w w' Ha Hi). intros c. destruct Hi as (Hq & _). destruct (Hq c) as [H1 H2].
  destruct Ha as (Hc & Hk & _). destruct (Hc c) as [_ Es]. unfold policy_ok, on_queue in *. rewrite Es, Hp.
  split; [done|]. intros x Hx. destruct (H2 x Hx) as [[? _]|Haw]; [done|]. right. by eapply awake_keys.
Qed.

(** A hook has run on the private state of [c]. *)
Lemma inv_hook e c p w :
  base_inv w -> pol_inv (hooks (scheduler (ctl_of w c))) p ->
  (forall x, queued (hooks (scheduler (ctl_of w c))) p x ->
    (e = Some x /\ pcpu_id (th w x) = c) \/ awake_on w c x) ->
  inv_except e (set_priv c p w).
Proof.
  intros Hi Hp Hx. apply (inv_agree e w); [|done|].
  - unfold agree. split_and!; try done. intros d. unfold set_priv. rewrite ctl_set. by destruct (decide (c = d)) as [<-|].
  - intros d. destruct Hi as (Hq & _). destruct (Hq d) as [H1 H2]. unfold policy_ok, on_queue, set_priv in *.
    rewrite ctl_set. destruct (decide (c = d)) as [<-|]; [done|]. split; [done|]. intros x Hqx.
    destruct (H2 x Hqx) as [[? _]|?]; [done|by right].
Qed.

Lemma set_priv_th c p w t : th (set_priv c p w) t = th w t.
Proof. done. Qed.

Lemma resched_agree cpu c w :
  agree w (make_reschedule_request cpu c w) /\
  (forall d, priv (ctl_of (make_reschedule_request cpu c w) d) = priv (ctl_of w d)) /\
  (forall t, th (make_reschedule_request cpu c w) t = th w t).
Proof.
  unfold make_reschedule_request. set (k := _ <| reschedule_requests := _ |> <| flags := _ |>).
  assert (forall d, ctl_of (if negb (cpu =? c) then emit (EvSendReschedule c) (set_ctl c k w) else set_ctl c k w) d =
    ctl_of (set_ctl c k w) d) as E by (intros d; by destruct (negb _)).
  assert (forall t, th (if negb (cpu =? c) then emit (EvSendReschedule c) (set_ctl c k w) else set_ctl c k w) t =
    th w t) as Et by (intros t; by destruct (negb _)).
  split_and!; [|intros d; rewrite E, ctl_set; by destruct (decide (c = d)) as [<-|]|done].
  unfold agree. split_and!; try (by destruct (negb _)).
  - intros d. rewrite E, ctl_set. by destruct (decide (c = d)) as [<-|].
Qed.

Lemma resched_inv cpu c w : base_inv w -> base_inv (make_reschedule_request cpu c w).
Proof. destruct (resched_agree cpu c w) as (Ha & Hp & _). by apply inv_quiet. Qed.

(** Changing the state of a thread that is not an idle one. *)
Lemma inv_set_th e t o w :
  inv_except e w -> e = None \/ e = Some t -> (forall c, t <> Idle c) ->
  pcpu_id o = pcpu_id (th w t) ->
  (status o = THREAD_STS_RUNNING <-> status (th w t) = THREAD_STS_RUNNING) ->
  (be_blocking o = true -> status o = THREAD_STS_RUNNING) ->
  (forall c, on_queue w c t -> status o <> THREAD_STS_BLOCKED /\ be_blocking o = false) ->
  base_inv (set_th t o w).
Proof.
  intros (Hq & (C1 & C2) & Ht & Hi & Hr) He Hni Ep Es Hb Ho. unfold base_inv, inv_except, current_ok. split_and!.
  - intros c. destruct (Hq c) as [H1 H2]. split; [done|]. intros x Hx. right.
    change (pcpu_id (th (set_th t o w) x) = c /\ x <> Idle c /\ status (th (set_th t o w) x) <> THREAD_STS_BLOCKED /\
      be_blocking (th (set_th t o w) x) = false). rewrite th_set. destruct (decide (t = x)) as [<-|Hne].
    + destruct (Ho c Hx) as [Ho1 Ho2]. split_and!; try done. rewrite Ep.
      destruct (H2 t Hx) as [[_ ?]|(? & _)]; done.
    + destruct (H2 x Hx) as [[-> _]|?]; [|done]. destruct He as [?|[= ?]]; [done|congruence].
  - intros c u E. change (curr_obj (ctl_of w c) = Some u) in E. apply C1 in E. rewrite th_set.
    destruct (decide (t = u)) as [<-|]; [|done]. rewrite Ep, Es. done.
  - intros u. rewrite th_set. change (ctl_of (set_th t o w)) with (ctl_of w).
    destruct (decide (t = u)) as [<-|]; [rewrite Es, Ep|]; apply C2.
  - intros u. rewrite th_set. destruct (decide (t = u)) as [<-|]; [done|apply Ht].
  - intros c. rewrite th_set, decide_False by congruence. apply Hi.
  - done.
Qed.

Lemma obj_hook_inv hook cpu clk t w w' :
  obj_hook hook cpu clk t w = Ret w' ->
  (hook = None /\ w' = w) \/
  exists f p, hook = Some f /\ w' = set_priv (pcpu_id (th w t)) p w /\
    f (view_at w (pcpu_id (th w t)) cpu) clk t (priv (ctl_of w (pcpu_id (th w t)))) = Ret p.
Proof.
  unfold obj_hook, ctl_hook. destruct hook as [f|]; cbn; intros E; inv_ret; [right; eauto|by left].
Qed.

Lemma inv_queues w c : base_inv w -> policy_ok w c.
Proof. intros (Hq & _). apply Hq. Qed.
Lemma inv_awake w c x : base_inv w -> on_queue w c x -> awake_on w c x.
Proof. intros (Hq & _) Hx. destruct (Hq c) as [_ H]. destruct (H x Hx) as [[? _]|?]; done. Qed.
Lemma awake_not_asleep w c x : awake_on w c x -> ~ asleep (th w x).
Proof. intros (_ & _ & Hs & Hb) [?|E]; [done|]. change (be_blocking (th w x) = false) in Hb. congruence. Qed.

(** A hook that queues nothing new. *)
Lemma obj_hook_shrink (hook : sched_ops sched_privs -> option (sched_view -> clock -> tid -> sched_privs -> outcome sched_privs))
    cpu clk t w w' :
  base_inv w -> obj_hook (hook (get_scheduler w (pcpu_id (th w t)))) cpu clk t w = Ret w' ->
  (forall id f v clk p p', hook (hooks id) = Some f -> pol_inv (hooks id) p -> f v clk t p = Ret p' ->
     pol_inv (hooks id) p' /\ forall x, queued (hooks id) p' x -> queued (hooks id) p x) ->
  base_inv w' /\ (forall u, th w' u = th w u) /\ thread_list w' = thread_list w /\ thread_count w' = thread_count w.
Proof.
  intros Hi E Hs. apply obj_hook_inv in E as [[_ ->]|(f & p & Ef & -> & Ep)]; [done|].
  destruct (Hs _ _ _ _ _ _ Ef (inv_queues w _ Hi) Ep) as [Hp Hx]. split; [|done].
  apply inv_hook; [done|exact Hp|]. intros x Hqx. right. apply (inv_awake w _ x Hi). exact (Hx x Hqx).
Qed.

(** ** Sleep and wake *)
Definition registry_same (w w' : sched_world) : Prop :=
  thread_list w' = thread_list w /\ thread_count w' = thread_count w.
Definition only_thread (t : tid) (w w' : sched_world) : Prop :=
  (forall u, u <> t -> th w' u = th w u) /\ registry_same w w' /\
  pcpu_id (th w' t) = pcpu_id (th w t) /\ freeze_epoch (th w' t) = freeze_epoch (th w t).

Lemma sleep_hook_ok cpu clk t w w' :
  base_inv w -> obj_hook (op_sleep (get_scheduler w (pcpu_id (th w t)))) cpu clk t w = Ret w' ->
  base_inv w' /\ (forall u, th w' u = th w u) /\ registry_same w w' /\ (forall c, ~ on_queue w' c t).
Proof.
  intros Hi E. pose proof E as E'.
  apply (obj_hook_shrink op_sleep) in E as (Hi' & Hth & Hl); [|done|].
  2: { intros id f v k p p' Ef Hp Er. destruct (sleep_sound _ _ _ _ _ _ Ef Hp Er) as [? H]. split; [done|].
       intros x Hx. by apply H. }
  split_and!; try done; try apply Hl. intros c Hq.
  assert (pcpu_id (th w t) = c) as <-.
  { destruct (inv_awake w' c t Hi' Hq) as (H & _). change (pcpu_id (th w' t) = c) in H. by rewrite Hth in H. }
  apply obj_hook_inv in E' as [[En ->]|(f & p & Ef & -> & Ep)].
  - by apply (sleep_null En (priv (ctl_of w (pcpu_id (th w t)))) t).
  - destruct (sleep_sound _ _ _ _ _ _ Ef (inv_queues w _ Hi) Ep) as [_ H].
    unfold on_queue, set_priv in Hq. rewrite ctl_set, decide_True in Hq by done. by destruct (H t Hq).
Qed.

Lemma sched_sleep_ok cpu clk now t w b w' :
  base_inv w -> (forall c, t <> Idle c) -> sleep_thread_locked cpu clk now t w = Ret (b, w') ->
  base_inv w' /\ asleep (th w' t) /\ only_thread t w w' /\
  b = negb (is_blocked (th w t)) && negb (be_blocking (th w t)).
Proof.
  intros Hi Hni E. unfold sleep_thread_locked in E. inv_ret. subst.
  destruct (sleep_hook_ok cpu clk t w r Hi E0) as (Hi1 & T1 & [L1 N1] & Hq). rename r into w1.
  unfold is_running. case_bool_decide as Hr.
  - destruct (resched_agree cpu (pcpu_id (th w t)) w1) as ((_ & _ & _ & El & En) & _ & Ht).
    assert (base_inv (make_reschedule_request cpu (pcpu_id (th w t)) w1)) as Hi2 by by apply resched_inv.
    set (w2 := make_reschedule_request _ _ w1) in *.
    assert (forall c, ~ on_queue w2 c t) as Hq2.
    { intros c Hx. destruct (inv_awake w2 c t Hi2 Hx) as (Hp & _). change (pcpu_id (th w2 t) = c) in Hp.
      apply (Hq c). destruct (resched_agree cpu (pcpu_id (th w t)) w1) as ((Hs & _) & Hpr & _). unfold on_queue in *.
      subst w2. destruct (Hs c) as [_ Es]. by rewrite Es, Hpr in Hx. }
    clearbody w2. split_and!; [|right; by rewrite th_set, decide_True| |done].
    + apply (inv_set_th None); cbn; auto; try done; [by rewrite Ht|].
      intros c Hx. by destruct (Hq2 c).
    + unfold only_thread, registry_same. split_and!; try (cbn; congruence).
      * intros u Hu. by rewrite th_set, decide_False, Ht, T1 by congruence.
      * rewrite th_set, decide_True by done. cbn. by rewrite Ht, T1.
      * rewrite th_set, decide_True by done. cbn. by rewrite Ht, T1.
  - split_and!; [|left; by rewrite th_set, decide_True| |done].
    + apply (inv_set_th None); cbn; auto; try done.
      * intros Hb. destruct Hi1 as (_ & _ & Ht & _). by apply Ht in Hb.
      * intros c Hx. by destruct (Hq c).
    + unfold only_thread, registry_same. split_and!; try (cbn; congruence).
      * intros u Hu. by rewrite th_set, decide_False, T1 by congruence.
      * rewrite th_set, decide_True by done. cbn. by rewrite T1.
      * rewrite th_set, decide_True by done. cbn. by rewrite T1.
Qed.

Lemma wake_hook_ok cpu clk t w w' :
  base_inv w -> (forall c, t <> Idle c) ->
  obj_hook (op_wake (get_scheduler w (pcpu_id (th w t)))) cpu clk t w = Ret w' ->
  inv_except (Some t) w' /\ (forall u, th w' u = th w u) /\ registry_same w w'.
Proof.
  intros Hi Hni E. apply obj_hook_inv in E as [[_ ->]|(f & p & Ef & -> & Ep)].
  { split; [|done]. apply (inv_agree (Some t) w); [done|done|]. intros c. split; [by apply inv_queues|].
    intros x Hx. right. by apply inv_awake. }
  destruct (wake_sound _ _ _ _ _ _ Ef (inv_queues w _ Hi) Ep) as [Hp Hx]. split; [|done].
  apply inv_hook; [done|exact Hp|]. intros x Hqx. destruct (Hx x Hqx) as [Hq| ->]; [|by left].
  right. by apply (inv_awake w _ x Hi).
Qed.

Lemma sched_wake_ok cpu clk now t w w' :
  base_inv w -> (forall c, t <> Idle c) -> wake_thread_locked cpu clk now t w = Ret w' ->
  base_inv w' /\ ~ asleep (th w' t) /\ only_thread t w w'.
Proof.
  intros Hi Hni E. unfold wake_thread_locked in E. pose proof Hi as (_ & _ & Hbr & _).
  destruct (is_blocked (th w t) || be_blocking (th w t)) eqn:Ea.
  2: { injection E as <-. unfold is_blocked in Ea. apply orb_false_iff in Ea as [Ea%bool_decide_eq_false Eb].
       split_and!; try done. intros [?|?]; congruence. }
  inv_ret. subst. destruct (wake_hook_ok cpu clk t w r Hi Hni E0) as (Hi1 & T1 & [L1 N1]). rename r into w1.
  unfold is_blocked in *. rewrite T1. case_bool_decide as Hs; cbn [orb] in *.
  - set (o1 := set_thread_status THREAD_STS_RUNNABLE (sched_mark_runnable now (th w t))).
    assert (be_blocking (th w t) = false) as Hb.
    { destruct (be_blocking (th w t)) eqn:E; [|done]. rewrite Hbr in Hs by done. done. }
    assert (base_inv (set_th t o1 w1)) as Hi2.
    { apply (inv_set_th (Some t)); subst o1; cbn; auto; rewrite ?T1, ?Hb, ?Hs; try done. }
    destruct (resched_agree cpu (pcpu_id (th w t)) (set_th t o1 w1)) as ((_ & _ & _ & El & En) & _ & Ht).
    pose proof (resched_inv cpu (pcpu_id (th w t)) _ Hi2) as Hi3.
    set (w2 := make_reschedule_request _ _ _) in *. clearbody w2.
    assert (th w2 t = o1) as Eo by by rewrite Ht, th_set, decide_True. rewrite Eo. split_and!.
    + apply (inv_set_th None); cbn; auto; rewrite ?Eo; try done.
    + rewrite th_set, decide_True by done. by intros [?|?].
    + unfold only_thread, registry_same. split_and!; try (cbn; rewrite ?El, ?En; done).
      * intros u Hu. by rewrite th_set, decide_False, Ht, th_set, decide_False, T1 by congruence.
      * by rewrite th_set, decide_True.
      * by rewrite th_set, decide_True.
  - rewrite (T1 t). split_and!.
    + apply (inv_set_th (Some t)); cbn; auto; rewrite ?T1; try done.
    + rewrite th_set, decide_True by done. by intros [?|?].
    + unfold only_thread, registry_same. cbn. split_and!; try done.
      * intros u Hu. by rewrite th_set, decide_False, T1 by congruence.
      * by rewrite th_set, decide_True.
      * by rewrite th_set, decide_True.
Qed.

(** ** Scheduling *)
Lemma mark_running_keys khz now o :
  same_keys o (sched_mark_running khz now o) /\
  priority_pending (sched_mark_running khz now o) = priority_pending o.
Proof.
  unfold sched_mark_running, sched_record_wait_latency, same_keys.
  destruct (negb (runnable_since _ =? 0)); [|done].
  destruct (_ <? _); destruct (negb _); done.
Qed.

Lemma mark_not_running_keys now b o :
  same_keys o (sched_mark_not_running now b o) /\
  priority_pending (sched_mark_not_running now b o) = priority_pending o.
Proof. unfold sched_mark_not_running, same_keys. by destruct (negb _). Qed.

(** The thread objects of [w'] after the switch. *)
Definition switched (prev next : tid) (w w' : sched_world) : Prop :=
  (forall u, u <> prev -> u <> next -> th w' u = th w u) /\
  (pcpu_id (th w' prev) = pcpu_id (th w prev) /\ freeze_epoch (th w' prev) = freeze_epoch (th w prev) /\
   status (th w' prev) = (if be_blocking (th w prev) then THREAD_STS_BLOCKED else THREAD_STS_RUNNABLE) /\
   be_blocking (th w' prev) = false /\ priority_pending (th w' prev) = priority_pending (th w prev)) /\
  (pcpu_id (th w' next) = pcpu_id (th w next) /\ freeze_epoch (th w' next) = freeze_epoch (th w next) /\
   status (th w' next) = THREAD_STS_RUNNING /\ be_blocking (th w' next) = be_blocking (th w next) /\
   priority_pending (th w' next) = priority_pending (th w next)).

Lemma switch_from_eq now prev next w :
  let w' := switch_from now prev next w in
  ctl_of w' = ctl_of w /\ registry_same w w' /\ (forall u, u <> prev -> th w' u = th w u) /\
  pcpu_id (th w' prev) = pcpu_id (th w prev) /\ freeze_epoch (th w' prev) = freeze_epoch (th w prev) /\
  status (th w' prev) = (if be_blocking (th w prev) then THREAD_STS_BLOCKED else THREAD_STS_RUNNABLE) /\
  be_blocking (th w' prev) = false /\ priority_pending (th w' prev) = priority_pending (th w prev).
Proof.
  cbn zeta. unfold switch_from. set (w2 := if switch_out (th w prev) then _ else _).
  assert (ctl_of w2 = ctl_of w /\ (forall u, th w2 u = th w u) /\ registry_same w w2) as (C2 & T2 & R2)
    by (subst w2; by destruct (switch_out _)).
  clearbody w2.
  pose proof (mark_not_running_keys now (negb (be_blocking (th w prev))) (th w prev)) as [(M1 & _ & M3 & M4) M5].
  set (m := sched_mark_not_running now _ (th w prev)) in *. clearbody m.
  split_and!; try done; try (rewrite th_set, decide_True by done; cbn; by rewrite ?M1, ?M3, ?M4, ?M5).
  intros u Hu. by rewrite th_set, decide_False, T2 by congruence.
Qed.

Lemma switch_to_eq cpu now next w :
  let w' := switch_to cpu now next w in
  registry_same w w' /\ (forall u, u <> next -> th w' u = th w u) /\
  pcpu_id (th w' next) = pcpu_id (th w next) /\ freeze_epoch (th w' next) = freeze_epoch (th w next) /\
  status (th w' next) = THREAD_STS_RUNNING /\ be_blocking (th w' next) = be_blocking (th w next) /\
  priority_pending (th w' next) = priority_pending (th w next) /\
  (forall d, ctl_of w' d = if decide (cpu = d)
    then (ctl_of w d) <| curr_obj := Some next |> <| context_switches := u64 (context_switches (ctl_of w d) + 1) |>
    else ctl_of w d).
Proof.
  cbn zeta. unfold switch_to. set (w2 := if switch_in (th w next) then _ else _).
  assert (ctl_of w2 = ctl_of w /\ (forall u, th w2 u = th w u) /\ registry_same w w2) as (C2 & T2 & R2)
    by (subst w2; by destruct (switch_in _)).
  clearbody w2. pose proof (mark_running_keys (tickrate (w_plat w2)) now (th w next)) as [(N1 & _ & N3 & N4) N5].
  set (o := set_thread_status THREAD_STS_RUNNING (sched_mark_running (tickrate (w_plat w2)) now (th w next))).
  assert (forall k u, th (set_ctl cpu k (set_th next o w2)) u = if decide (next = u) then o else th w u) as T.
  { intros k u. change (th (set_ctl cpu k (set_th next o w2)) u) with (th (set_th next o w2) u). by rewrite th_set, T2. }
  split_and!; try done; try (rewrite T, decide_True by done; subst o; cbn; by rewrite ?N1, ?N3, ?N4, ?N5).
  - intros u Hu. by rewrite T, decide_False by congruence.
  - intros d. rewrite ctl_set. change (ctl_of (set_th next o w2)) with (ctl_of w2). rewrite C2.
    by destruct (decide (cpu = d)) as [<-|].
Qed.

Lemma switch_context_eq cpu now prev next w :
  prev <> next ->
  let w' := switch_context cpu now (Some prev) next w in
  switched prev next w w' /\ registry_same w w' /\
  (forall d, ctl_of w' d = if decide (cpu = d)
    then (ctl_of w d) <| curr_obj := Some next |> <| context_switches := u64 (context_switches (ctl_of w d) + 1) |>
    else ctl_of w d).
Proof.
  intros Hne. cbn zeta. unfold switch_context.
  set (w1 := if ptrauth_active w then _ else w).
  assert (forall u, same_keys (th w u) (th w1 u) /\ priority_pending (th w1 u) = priority_pending (th w u) /\
    (u <> next -> th w1 u = th w u)) as K1.
  { intros u. subst w1. destruct (ptrauth_active w); [|done]. rewrite th_set.
    destruct (decide (next = u)) as [<-|]; [|done]. split_and!; done. }
  assert (ctl_of w1 = ctl_of w /\ registry_same w w1) as [C1 [R1 R1']] by (subst w1; by destruct (ptrauth_active w)).
  generalize (ptrauth_active w && ptrauth_return_authenticated (th w next)). intros auth. clearbody w1.
  destruct (switch_from_eq now prev next w1) as (C2 & [R2 R2'] & U2 & P1 & P2 & P3 & P4 & P5).
  set (w2 := switch_from now prev next w1) in *. clearbody w2.
  destruct (switch_to_eq cpu now next w2) as ([R3 R3'] & U3 & Q1 & Q2 & Q3 & Q4 & Q5 & C3).
  set (w3 := switch_to cpu now next w2) in *. clearbody w3.
  destruct (K1 prev) as ((A1 & A2 & A3 & A4) & A5 & _). destruct (K1 next) as ((B1 & B2 & B3 & B4) & B5 & _).
  pose proof (U2 next ltac:(congruence)) as E2. pose proof (U3 prev Hne) as E3.
  change (th (emit (EvSwitchTo (Some prev) next auth) w3)) with (th w3).
  split_and!; [unfold switched; change (th (emit (EvSwitchTo (Some prev) next auth) w3)) with (th w3); split_and!| |];
    rewrite ?E3, ?Q1, ?Q2, ?Q3, ?Q4, ?Q5, ?E2, ?P1, ?P2, ?P3, ?P4, ?P5, ?A1, ?A3, ?A4, ?A5, ?B1, ?B3, ?B4, ?B5; try done.
  - intros u H1 H2. rewrite U3, U2 by done. by apply K1.
  - split; cbn; congruence.
  - intros d. change (ctl_of (emit (EvSwitchTo (Some prev) next auth) w3) d) with (ctl_of w3 d). by rewrite C3, C2, C1.
Qed.

Lemma switch_inv cpu now prev next w :
  base_inv w -> curr_obj (ctl_of w cpu) = Some prev -> prev <> next ->
  next = Idle cpu \/ awake_on w cpu next ->
  base_inv (switch_context cpu now (Some prev) next w).
Proof.
  intros Hi Ec Hne Hn. destruct (switch_context_eq cpu now prev next w Hne) as (Hsw & [L N] & Hc).
  set (w' := switch_context cpu now (Some prev) next w) in *. clearbody w'.
  destruct Hsw as (Hu & (P1 & P2 & P3 & P4 & P5) & (Q1 & Q2 & Q3 & Q4 & Q5)).
  destruct Hi as (Hq & (C1 & C2) & Ht & Hid & Hr). destruct (C1 cpu prev Ec) as [Epc Eps].
  assert (pcpu_id (th w next) = cpu) as Enc.
  { destruct Hn as [->|(H & _)]; [|exact H]. destruct (Hid cpu) as (_ & _ & _ & H). apply H. congruence. }
  assert (be_blocking (th w next) = false) as Enb.
  { destruct Hn as [->|(_ & _ & _ & H)]; [|exact H]. by destruct (Hid cpu) as (-> & _). }
  assert (forall u, pcpu_id (th w' u) = pcpu_id (th w u) /\ freeze_epoch (th w' u) = freeze_epoch (th w u) /\
    priority_pending (th w' u) = priority_pending (th w u)) as Hk.
  { intros u. destruct (decide (u = prev)) as [->|]; [done|]. destruct (decide (u = next)) as [->|]; [done|].
    by rewrite Hu. }
  unfold base_inv, inv_except, current_ok. split_and!.
  - intros c. destruct (Hq c) as [H1 H2]. unfold policy_ok, on_queue in *. rewrite Hc.
    assert (forall k : sched_control, scheduler (if decide (cpu = c) then k <| curr_obj := Some next |>
      <| context_switches := u64 (context_switches k + 1) |> else k) = scheduler k /\
      priv (if decide (cpu = c) then k <| curr_obj := Some next |>
      <| context_switches := u64 (context_switches k + 1) |> else k) = priv k) as Hk' by (intros k; by destruct (decide _)).
    destruct (Hk' (ctl_of w c)) as [-> ->]. split; [done|]. intros x Hx. right.
    destruct (H2 x Hx) as [[? _]|(A1 & A2 & A3 & A4)]; [done|].
    change (pcpu_id (th w x) = c) in A1. change (status (th w x) <> THREAD_STS_BLOCKED) in A3.
    change (be_blocking (th w x) = false) in A4.
    change (pcpu_id (th w' x) = c /\ x <> Idle c /\ status (th w' x) <> THREAD_STS_BLOCKED /\ be_blocking (th w' x) = false).
    destruct (decide (x = prev)) as [->|]; [by rewrite P1, P3, P4, A4|].
    destruct (decide (x = next)) as [->|]; [by rewrite Q1, Q3, Q4|]. by rewrite Hu.
  - intros c t. rewrite Hc. destruct (decide (cpu = c)) as [<-|Hcc]; cbn.
    + intros [= <-]. by rewrite Q1, Q3.
    + intros E. destruct (C1 c t E) as [E1 E2]. destruct (decide (t = prev)) as [->|]; [congruence|].
      destruct (decide (t = next)) as [->|]; [congruence|]. by rewrite Hu.
  - intros t. destruct (Hk t) as (-> & _). rewrite Hc. destruct (decide (t = next)) as [->|Hn1].
    { intros _. by rewrite Enc, decide_True. }
    destruct (decide (t = prev)) as [->|Hn2]; [rewrite P3; by destruct (be_blocking _)|].
    rewrite Hu by done. intros E. pose proof (C2 t E) as Ecur.
    destruct (decide (cpu = pcpu_id (th w t))) as [Eq|]; [rewrite <- Eq in Ecur; congruence|done].
  - intros t. destruct (decide (t = prev)) as [->|]; [by rewrite P4|].
    destruct (decide (t = next)) as [->|]; [by rewrite Q4, Enb|]. rewrite Hu by done. apply Ht.
  - intros c. destruct (Hid c) as (I1 & I2 & I3 & I4). destruct (Hk (Idle c)) as (-> & -> & ->). split_and!; try done.
    + destruct (decide (Idle c = prev)) as [->|]; [done|]. destruct (decide (Idle c = next)) as [<-|]; [congruence|].
      by rewrite Hu.
    + rewrite Hc. destruct (decide (cpu = c)) as [<-|]; [|done]. intros _. apply I4. congruence.
  - unfold registry_ok. rewrite L, N. done.
Qed.

(** What a step on [cpu] keeps: thread keys, current threads, the registry. *)
Definition steady (w w' : sched_world) : Prop :=
  base_inv w' /\ (forall t, same_keys (th w t) (th w' t)) /\ registry_same w w' /\
  (forall c, curr_obj (ctl_of w' c) = curr_obj (ctl_of w c)).

Lemma steady_trans w1 w2 w3 : steady w1 w2 -> steady w2 w3 -> steady w1 w3.
Proof.
  intros (_ & K1 & [L1 N1] & C1) (Hi & K2 & [L2 N2] & C2). unfold steady, registry_same. split_and!; try congruence; try done.
  intros t. destruct (K1 t) as (? & ? & ? & ?), (K2 t) as (? & ? & ? & ?). unfold same_keys. split_and!; congruence.
Qed.

Lemma set_priv_steady c p w : base_inv (set_priv c p w) -> steady w (set_priv c p w).
Proof.
  intros Hi. unfold steady, registry_same. split_and!; try done. intros d. unfold set_priv. rewrite ctl_set.
  by destruct (decide (c = d)) as [<-|].
Qed.

Lemma quiet_steady w w' :
  agree w w' -> (forall c, priv (ctl_of w' c) = priv (ctl_of w c)) -> base_inv w -> steady w w'.
Proof.
  intros Ha Hp Hi. split; [by eapply inv_quiet|]. destruct Ha as (Hc & Hk & _ & El & En). split_and!; try done.
  intros c. apply Hc.
Qed.

Lemma set_ctl_agree c k w :
  curr_obj k = curr_obj (ctl_of w c) -> scheduler k = scheduler (ctl_of w c) -> priv k = priv (ctl_of w c) ->
  agree w (set_ctl c k w) /\ forall d, priv (ctl_of (set_ctl c k w) d) = priv (ctl_of w d).
Proof.
  intros E1 E2 E3. split; [unfold agree; split_and!; try done|]; intros d; rewrite ctl_set;
    by destruct (decide (c = d)) as [<-|].
Qed.

(** A scan of the registry that consumes the priority requests. *)
Lemma prioritize_loop_ok cpu clks : forall l i w j w',
  base_inv w -> prioritize_loop cpu clks i l w = Ret (j, w') -> steady w w'.
Proof.
  induction l as [|t l IH]; intros i w j w' Hi E; cbn [prioritize_loop] in E.
  { injection E as _ <-. by split_and!. }
  destruct ((pcpu_id (th w t) =? cpu) && priority_pending (th w t)) eqn:Eg; [|by eapply IH].
  apply andb_true_iff in Eg as [Ep%Z.eqb_eq Epp].
  assert (forall c, t <> Idle c) as Hni.
  { intros c ->. destruct Hi as (_ & _ & _ & Hid & _). destruct (Hid c) as (_ & H & _). congruence. }
  set (w1 := set_th t _ w) in *.
  assert (steady w w1) as S1.
  { apply quiet_steady; [|done|done]. unfold agree. split_and!; try done; intros u; subst w1; rewrite th_set.
    - by destruct (decide (t = u)) as [<-|].
    - by rewrite decide_False by congruence. }
  assert (th w1 t = (th w t) <| priority_pending := false |>) as Et by (subst w1; by rewrite th_set, decide_True).
  clearbody w1. pose proof S1 as (Hi1 & _).
  destruct (is_runnable_or_running (th w t) && negb (be_blocking (th w t))) eqn:Er; [|eapply steady_trans; [exact S1|by eapply IH]].
  apply andb_true_iff in Er as [Er Eb%negb_true_iff]. inv_ret. rename r into w2.
  assert (pcpu_id (th w1 t) = cpu) as Ep1 by by rewrite Et.
  assert (steady w1 w2) as S2.
  { rewrite <- Ep1 in E0. apply obj_hook_inv in E0 as [[_ ->]|(f & p & Ef & -> & Ef')]; [by split_and!|].
    rewrite Ep1 in *. apply set_priv_steady. destruct (prioritize_sound _ _ _ _ _ _ Ef (inv_queues w1 _ Hi1) Ef') as [Hp Hx].
    apply inv_hook; [done|exact Hp|]. intros x Hqx. right. destruct (Hx x Hqx) as [Hq| ->]; [by apply (inv_awake w1 _ x Hi1)|].
    change (pcpu_id (th w1 t) = cpu /\ t <> Idle cpu /\ status (th w1 t) <> THREAD_STS_BLOCKED /\ be_blocking (th w1 t) = false).
    rewrite Et. cbn. split_and!; try done. unfold is_runnable_or_running in Er. intros Hs. by rewrite Hs in Er. }
  eapply steady_trans; [exact S1|]. eapply steady_trans; [exact S2|]. destruct S2 as [Hi2 _]. by eapply IH.
Qed.

Lemma consume_ok cpu clks w i w' :
  base_inv w -> consume_priorities cpu clks w = Ret (i, w') -> steady w w'.
Proof.
  intros Hi E. unfold consume_priorities in E. destruct (ctl_priority_pending _); [|injection E as _ <-; by split_and!].
  destruct (set_ctl_agree cpu ((ctl_of w cpu) <| ctl_priority_pending := false |>) w) as [Ha Hp]; [done..|].
  pose proof (quiet_steady _ _ Ha Hp Hi) as S1. eapply steady_trans; [exact S1|]. destruct S1 as [Hi1 _].
  by eapply prioritize_loop_ok.
Qed.

Lemma active_current_awake w c cpu x :
  base_inv w -> active_current (view_at w c cpu) x -> awake_on w c x.
Proof.
  intros Hi [Ec Ha]. change (curr_obj (ctl_of w c) = Some x) in Ec.
  destruct Hi as (_ & (C1 & _) & _). destruct (C1 c x Ec) as [Ep Es].
  unfold is_active, is_idle_thread, is_current in Ha. change (thr (view_at w c cpu) x) with (th w x) in Ha.
  rewrite Ep, Es in Ha. change (pcpu_id (th w x) = c /\ x <> Idle c /\ status (th w x) <> THREAD_STS_BLOCKED /\
    be_blocking (th w x) = false). apply andb_true_iff in Ha as [Ha1%negb_true_iff Ha2].
  apply bool_decide_eq_false in Ha1. split_and!; try done; [by rewrite Es|].
  rewrite orb_false_r in Ha2. by apply andb_true_iff in Ha2 as [_ Ha2%negb_true_iff].
Qed.

(** The thread [schedule] is about to run. *)
Lemma sched_choose_ok cpu clk w next w' :
  base_inv w -> choose_next cpu clk w = Ret (next, w') ->
  steady w w' /\ (next = Idle cpu \/ awake_on w' cpu next).
Proof.
  intros Hi E. unfold choose_next in E.
  destruct (sched_idle_work_pending_locked cpu w); [injection E as <- <-; split; [by split_and!|by left]|].
  destruct (op_pick_next (get_scheduler w cpu)) as [f|] eqn:Ef; [|injection E as <- <-; split; [by split_and!|by left]].
  inv_ret. destruct r as [t p]. cbn [fst snd] in *. subst.
  destruct (pick_sound _ _ _ _ _ _ Ef (inv_queues w cpu Hi) E0) as (Hp & Ht & Hx).
  assert (steady w (set_priv cpu p w)) as S1.
  { apply set_priv_steady, inv_hook; [done|exact Hp|]. intros x Hqx. right.
    destruct (Hx x Hqx) as [Hq|Ha]; [by apply (inv_awake w _ x Hi)|by eapply active_current_awake]. }
  split; [done|]. destruct Ht as [->|[Hq|[Ha|Ha]]]; [by left|right..].
  - exact (inv_awake w cpu next Hi Hq).
  - exact Ha.
  - exact (active_current_awake w cpu cpu next Hi Ha).
Qed.

Lemma keys_asleep o o' : same_keys o o' -> asleep o -> asleep o'.
Proof. intros (_ & E1 & E2 & _). unfold asleep. by rewrite E1, E2. Qed.

Lemma steady_frozen w w' : steady w w' -> frozen_ok w -> frozen_ok w'.
Proof.
  intros (_ & Hk & _) Hf t Ht. destruct (Hk t) as (_ & _ & _ & E). rewrite E in Ht.
  eapply keys_asleep; [apply Hk|]. by apply Hf.
Qed.

(** What [schedule] does to the threads. *)
Lemma schedule_ok cpu clks now w w' :
  base_inv w -> curr_obj (ctl_of w cpu) <> None -> schedule cpu clks now w = Ret w' ->
  base_inv w' /\ registry_same w w' /\
  (exists next, curr_obj (ctl_of w' cpu) = Some next /\ (next = Idle cpu \/ awake_on w' cpu next)) /\
  (forall c, c <> cpu -> curr_obj (ctl_of w' c) = curr_obj (ctl_of w c)) /\
  (forall t, t <> Idle cpu -> asleep (th w t) -> asleep (th w' t)) /\
  (forall t, pcpu_id (th w' t) = pcpu_id (th w t) /\ freeze_epoch (th w' t) = freeze_epoch (th w t)).
Proof.
  intros Hi Hcur E. unfold schedule in E. inv_ret. destruct r as [i w1]. inv_ret. destruct r as [next w2]. inv_ret. subst w'.
  pose proof (consume_ok _ _ _ _ _ Hi E0) as S1. pose proof S1 as [Hi1 _].
  destruct (sched_choose_ok _ _ _ _ _ Hi1 E1) as [S2 Hn]. pose proof S2 as [Hi2 _].
  assert (steady w2 (clear_need_reschedule cpu w2)) as S3.
  { destruct (set_ctl_agree cpu ((ctl_of w2 cpu) <| flags := Z.clearbit (flags (ctl_of w2 cpu)) NEED_RESCHEDULE |>) w2)
      as [Ha Hp]; [done..|]. by apply quiet_steady. }
  assert (next = Idle cpu \/ awake_on (clear_need_reschedule cpu w2) cpu next) as Hn3 by exact Hn.
  set (w3 := clear_need_reschedule cpu w2) in *. clearbody w3.
  pose proof (steady_trans _ _ _ S1 (steady_trans _ _ _ S2 S3)) as (Hi3 & K & R & C).
  destruct (curr_obj (ctl_of w cpu)) as [prev|] eqn:Ec; [|done]. rewrite <- (C cpu) in Ec.
  case_bool_decide as Eq; cbn [negb].
  { injection Eq as ->. split_and!; try done; [by exists next|by intros t _; apply keys_asleep|].
    intros t. destruct (K t) as (-> & _ & _ & ->). done. }
  assert (prev <> next) as Hne by congruence.
  pose proof (switch_inv cpu now prev next w3 Hi3 Ec Hne Hn3) as Hi'.
  destruct (switch_context_eq cpu now prev next w3 Hne) as (Hsw & [L N] & Hc).
  set (w' := switch_context cpu now (Some prev) next w3) in *. clearbody w'.
  destruct Hsw as (Hu & (P1 & P2 & P3 & P4 & _) & (Q1 & Q2 & Q3 & Q4 & _)).
  assert (be_blocking (th w3 next) = false) as Enb.
  { destruct Hn3 as [->|(_ & _ & _ & H)]; [|exact H]. destruct Hi3 as (_ & _ & _ & Hid & _). by destruct (Hid cpu) as (-> & _). }
  split_and!; [done|destruct R; split; congruence| | | |].
  - exists next. rewrite Hc, decide_True by done. split; [done|]. destruct Hn3 as [?|(A1 & A2 & _)]; [by left|right].
    change (pcpu_id (th w' next) = cpu /\ next <> Idle cpu /\ status (th w' next) <> THREAD_STS_BLOCKED /\
      be_blocking (th w' next) = false). by rewrite Q1, Q3, Q4.
  - intros c Hcc. by rewrite Hc, decide_False, C by congruence.
  - intros t Hti Ha. apply (keys_asleep _ _ (K t)) in Ha. destruct (decide (t = prev)) as [->|].
    { left. rewrite P3. destruct Ha as [Hb|Hb]; [|by rewrite Hb].
      destruct Hi3 as (_ & (C1 & _) & _). destruct (C1 cpu prev Ec) as [_ Es]. congruence. }
    destruct (decide (t = next)) as [->|]; [|by rewrite Hu].
    exfalso. destruct Hn3 as [->|Haw]; [done|by eapply awake_not_asleep].
  - intros t. destruct (K t) as (<- & _ & _ & <-). destruct (decide (t = prev)) as [->|]; [done|].
    destruct (decide (t = next)) as [->|]; [done|]. by rewrite Hu.
Qed.

(** ** Steps *)

(** The operations other components call, with what they respect: only idle
    threads are started with [run_thread], and only other threads sleep, wake,
    are frozen or ask for priority; a thread is set up while it is blocked and
    not registered; a pCPU is initialised before it has threads. *)
Inductive sched_step : sched_world -> sched_world -> Prop :=
| step_thread_object n o w :
    status (th w (Thread n)) = THREAD_STS_BLOCKED -> Thread n ∉ thread_list w ->
    status o = THREAD_STS_BLOCKED -> be_blocking o = false -> freeze_epoch o = 0 ->
    sched_step w (set_th (Thread n) o w)
| step_init_sched cpu c clk s w w' :
    (forall t, pcpu_id (th w t) = c -> status (th w t) <> THREAD_STS_RUNNING) ->
    select_pcpu_scheduler w c = Ret s -> (forall x, ~ queued (hooks s) (priv (ctl_of w c)) x) ->
    init_sched cpu c clk w = Ret w' -> sched_step w w'
| step_run_idle cpu clk now0 now1 nm w w' :
    curr_obj (ctl_of w cpu) = None -> Idle cpu ∉ thread_list w -> thread_count w < UINT32_MAX ->
    status (th w (Idle cpu)) = THREAD_STS_BLOCKED ->
    run_idle_thread cpu clk now0 now1 nm w = Ret w' -> sched_step w w'
| step_init_thread cpu clk now n prm w w' :
    status (th w (Thread n)) = THREAD_STS_BLOCKED -> Thread n ∉ thread_list w -> thread_count w < UINT32_MAX ->
    init_thread_data cpu clk now (Thread n) prm w = Ret w' -> sched_step w w'
| step_reset_thread cpu clk n prm r w w' :
    reset_thread_data cpu clk (Thread n) prm w = Ret (r, w') -> sched_step w w'
| step_deinit_thread cpu clk t w w' :
    deinit_thread_data cpu clk t w = Ret w' -> sched_step w w'
| step_schedule cpu clks now w w' :
    curr_obj (ctl_of w cpu) <> None -> schedule cpu clks now w = Ret w' -> sched_step w w'
| step_clear_reschedule c w : sched_step w (snd (sched_clear_reschedule_if_current_only c w))
| step_sleep cpu clk now n w w' : sleep_thread cpu clk now (Thread n) w = Ret w' -> sched_step w w'
| step_wake cpu clk now n w w' : wake_thread cpu clk now (Thread n) w = Ret w' -> sched_step w w'
| step_freeze cpu clk now n epoch r w w' :
    freeze_thread cpu clk now (Thread n) epoch w = Ret (r, w') -> sched_step w w'
| step_thaw cpu clk now n epoch owned r w w' :
    thaw_thread cpu clk now (Thread n) epoch owned w = Ret (r, w') -> sched_step w w'
| step_request_quiesce cpu t gen w : sched_step w (snd (request_thread_quiesce cpu t gen w))
| step_release_quiesce t w : sched_step w (release_thread_quiesce t w)
| step_ack_quiesce c r w w' : sched_ack_quiesce_from_idle c w = Ret (r, w') -> sched_step w w'
| step_priority cpu n w : sched_step w (request_thread_priority cpu (Thread n) w)
| step_priority_quiet n w : sched_step w (request_thread_priority_no_resched (Thread n) w)
| step_request cpu c w : sched_step w (make_reschedule_request cpu c w)
| step_tick cpu clk w w' : sched_timer_tick cpu clk w = Ret w' -> sched_step w w'
| step_deinit_sched cpu c clk w w' : deinit_sched cpu c clk w = Ret w' -> sched_step w w'
| step_suspend cpu clk w w' : suspend_sched cpu clk w = Ret w' -> sched_step w w'
| step_resume cpu clk w w' : resume_sched cpu clk w = Ret w' -> sched_step w w'
| step_management susp rst w : sched_step w (w <| system_suspend := susp |> <| reset_vm := rst |>).

Lemma blocked_not_queued w c t :
  base_inv w -> status (th w t) = THREAD_STS_BLOCKED -> ~ on_queue w c t.
Proof. intros Hi Hs Hq. apply (awake_not_asleep w c t); [by apply inv_awake|by left]. Qed.

(** Setting up a thread that neither runs nor waits in a queue. *)
Lemma inv_free_th t o w :
  base_inv w -> status (th w t) = THREAD_STS_BLOCKED -> status o <> THREAD_STS_RUNNING -> be_blocking o = false ->
  (forall c, t = Idle c -> priority_pending o = false /\ freeze_epoch o = 0 /\
     (curr_obj (ctl_of w c) <> None -> pcpu_id o = c)) ->
  base_inv (set_th t o w).
Proof.
  intros Hi Hs Hso Hb Hidle. pose proof (fun c => blocked_not_queued w c t Hi Hs) as Hnq.
  destruct Hi as (Hq & (C1 & C2) & Ht & Hid & Hr). unfold base_inv, inv_except, current_ok. split_and!.
  - intros c. destruct (Hq c) as [H1 H2]. split; [done|]. intros x Hx. right.
    change (pcpu_id (th (set_th t o w) x) = c /\ x <> Idle c /\ status (th (set_th t o w) x) <> THREAD_STS_BLOCKED /\
      be_blocking (th (set_th t o w) x) = false).
    rewrite th_set, decide_False by (intros ->; by destruct (Hnq c)). destruct (H2 x Hx) as [[? _]|?]; done.
  - intros c u E. destruct (C1 c u E) as [E1 E2]. rewrite th_set, decide_False by congruence. done.
  - intros u. rewrite th_set. destruct (decide (t = u)); [done|apply C2].
  - intros u. rewrite th_set. destruct (decide (t = u)); [congruence|apply Ht].
  - intros c. rewrite th_set. destruct (decide (t = Idle c)) as [E|]; [|apply Hid].
    destruct (Hidle c E) as (? & ? & ?). done.
  - done.
Qed.

Lemma register_inv t w :
  base_inv w -> t ∉ thread_list w -> thread_count w < UINT32_MAX -> base_inv (register_thread_object t w).
Proof.
  intros (Hq & Hc & Ht & Hid & Hn & El & Hm) Hx Hlt. unfold register_thread_object. rewrite bool_decide_eq_false_2 by done.
  unfold base_inv, inv_except. split_and!; try done. unfold registry_ok. cbn. rewrite length_app. cbn.
  rewrite u32_small by (unfold in_u32; lia). split_and!; [|lia|lia].
  apply NoDup_app. split_and!; [done| |apply NoDup_singleton]. intros x Hin ->%list_elem_of_singleton. done.
Qed.

Lemma unregister_inv t w : base_inv w -> base_inv (unregister_thread_object t w).
Proof.
  intros (Hq & Hc & Ht & Hid & Hn & El & Hm). unfold unregister_thread_object. case_bool_decide as Hx; [|done].
  assert (length (thread_list w) = S (length (list_del_init t (thread_list w)))) as Hl.
  { by rewrite (list_del_init_perm t (thread_list w)) at 1. }
  cbn. destruct (Z.eqb_spec (thread_count w) 0) as [E|E]; cbn [negb]; [lia|].
  unfold base_inv, inv_except. split_and!; try done. unfold registry_ok. cbn. split_and!; [eauto with beau|lia|lia].
Qed.

Lemma init_thread_ok cpu clk now t prm w w' :
  base_inv w -> status (th w t) = THREAD_STS_BLOCKED -> t ∉ thread_list w -> thread_count w < UINT32_MAX ->
  init_thread_data cpu clk now t prm w = Ret w' ->
  base_inv w' /\ status (th w' t) = THREAD_STS_BLOCKED /\ pcpu_id (th w' t) = pcpu_id (th w t) /\
  freeze_epoch (th w' t) = 0 /\ (forall u, u <> t -> th w' u = th w u) /\
  (forall c, curr_obj (ctl_of w' c) = curr_obj (ctl_of w c)).
Proof.
  intros Hi Hs Hl Hn E. unfold init_thread_data in E. inv_ret. subst. rename r into w2.
  set (w1 := set_th t _ w) in *.
  assert (th w1 t = (th w t) <| latency := latency_zero |>) as Et by (subst w1; by rewrite th_set, decide_True).
  assert (forall u, u <> t -> th w1 u = th w u) as Eu by (intros u Hu; subst w1; by rewrite th_set, decide_False by congruence).
  assert (steady w w1) as (Hi1 & _ & [L1 N1] & C1).
  { apply quiet_steady; [|done|done]. unfold agree. split_and!; try done; intros u.
    - destruct (decide (u = t)) as [->|]; [by rewrite Et|by rewrite Eu].
    - destruct (decide (Idle u = t)) as [<-|]; [by rewrite Et|by rewrite Eu]. }
  assert (status (th w1 t) = THREAD_STS_BLOCKED) as Hs1 by by rewrite Et. clearbody w1.
  assert (be_blocking (th w t) = false) as Hb.
  { destruct (be_blocking (th w t)) eqn:Eb; [|done]. destruct Hi as (_ & _ & H & _). apply H in Eb. congruence. }
  assert (steady w1 w2 /\ forall u, th w2 u = th w1 u) as [(Hi2 & _ & [L2 N2] & C2) T2].
  { apply obj_hook_inv in E0 as [[_ ->]|(f & p & Ef & -> & Ep)]; [done|]. split; [|done].
    destruct (op_init_data (get_scheduler w1 (pcpu_id (th w1 t)))) as [g|] eqn:Eg; [|done]. injection Ef as <-.
    destruct (init_data_sound _ _ _ _ _ _ _ Eg (inv_queues w1 _ Hi1) (blocked_not_queued w1 _ t Hi1 Hs1) Ep) as [Hp Hx].
    apply set_priv_steady, inv_hook; [done|exact Hp|]. intros x Hqx. right. apply (inv_awake w1 _ x Hi1). exact (Hx x Hqx). }
  assert (base_inv (set_th t ((set_thread_status THREAD_STS_BLOCKED (th w2 t)) <| priority_pending := false |>
    <| freeze_epoch := 0 |> <| deferred_wake := false |>
    <| latency := (latency (set_thread_status THREAD_STS_BLOCKED (th w2 t))) <| state_since := now |> |>) w2)) as Hi3.
  { apply inv_free_th; cbn; rewrite ?T2, ?Et; try done. intros c ->. split_and!; try done. cbn.
    rewrite C2, C1. destruct Hi as (_ & _ & _ & Hid & _). apply Hid. }
  set (w3 := set_th t _ w2) in *. assert (thread_list w3 = thread_list w) as L3 by (subst w3; cbn; congruence).
  assert (thread_count w3 = thread_count w) as N3 by (subst w3; cbn; congruence).
  assert (forall u, u <> t -> th w3 u = th w u) as U3
    by (intros u Hu; subst w3; by rewrite th_set, decide_False, T2, Eu by congruence).
  assert (status (th w3 t) = THREAD_STS_BLOCKED /\ pcpu_id (th w3 t) = pcpu_id (th w t) /\ freeze_epoch (th w3 t) = 0)
    as (A1 & A2 & A3) by (subst w3; rewrite th_set, decide_True by done; cbn; by rewrite T2, Et).
  assert (forall c, curr_obj (ctl_of w3 c) = curr_obj (ctl_of w c)) as U4.
  { intros c. change (ctl_of w3 c) with (ctl_of w2 c). by rewrite C2, C1. }
  clearbody w3.
  assert (forall u, th (register_thread_object t w3) u = th w3 u) as T3
    by (intros u; unfold register_thread_object; by destruct (bool_decide _)).
  assert (forall c, ctl_of (register_thread_object t w3) c = ctl_of w3 c) as C3
    by (intros c; unfold register_thread_object; by destruct (bool_decide _)).
  split_and!; rewrite ?T3; try done; [apply register_inv; congruence| |].
  - intros u Hu. rewrite T3. auto.
  - intros c. rewrite C3. auto.
Qed.

Lemma run_thread_eq cpu now t w :
  let w' := run_thread cpu now t w in
  registry_same w w' /\ (forall u, u <> t -> th w' u = th w u) /\
  pcpu_id (th w' t) = pcpu_id (th w t) /\ freeze_epoch (th w' t) = freeze_epoch (th w t) /\
  status (th w' t) = THREAD_STS_RUNNING /\ be_blocking (th w' t) = be_blocking (th w t) /\
  priority_pending (th w' t) = priority_pending (th w t) /\
  (forall d, ctl_of w' d = if decide (cpu = d) then (ctl_of w d) <| curr_obj := Some t |> else ctl_of w d).
Proof.
  cbn zeta. unfold run_thread. set (k := (ctl_of w cpu) <| curr_obj := Some t |>).
  change (th (set_ctl cpu k w)) with (th w). change (w_plat (set_ctl cpu k w)) with (w_plat w).
  pose proof (mark_running_keys (tickrate (w_plat w)) now (th w t)) as [(N1 & _ & N3 & N4) N5].
  set (m := sched_mark_running _ now _) in *. clearbody m.
  split_and!; try done; try (rewrite th_set, decide_True by done; cbn; congruence).
  - intros u Hu. by rewrite th_set, decide_False by congruence.
  - intros d. change (ctl_of (set_th t _ (set_ctl cpu k w)) d) with (ctl_of (set_ctl cpu k w) d). rewrite ctl_set.
    by destruct (decide (cpu = d)) as [<-|].
Qed.

(** The idle thread becomes the first current thread of its pCPU. *)
Lemma run_thread_ok cpu now w :
  base_inv w -> curr_obj (ctl_of w cpu) = None -> status (th w (Idle cpu)) = THREAD_STS_BLOCKED ->
  pcpu_id (th w (Idle cpu)) = cpu -> base_inv (run_thread cpu now (Idle cpu) w).
Proof.
  intros Hi Ec Hs Hp. pose proof (fun c => blocked_not_queued w c (Idle cpu) Hi Hs) as Hnq.
  destruct (run_thread_eq cpu now (Idle cpu) w) as ([L N] & U & P1 & P2 & P3 & P4 & P5 & C).
  set (w' := run_thread cpu now (Idle cpu) w) in *. clearbody w'.
  destruct Hi as (Hq & (A1 & A2) & Ht & Hid & Hr). unfold base_inv, inv_except, current_ok. split_and!.
  - intros c. destruct (Hq c) as [H1 H2]. unfold policy_ok, on_queue in *.
    assert (scheduler (ctl_of w' c) = scheduler (ctl_of w c) /\ priv (ctl_of w' c) = priv (ctl_of w c)) as [-> ->]
      by (rewrite C; by destruct (decide (cpu = c))).
    split; [done|]. intros x Hx. right.
    change (pcpu_id (th w' x) = c /\ x <> Idle c /\ status (th w' x) <> THREAD_STS_BLOCKED /\ be_blocking (th w' x) = false).
    rewrite U by (intros ->; by eapply Hnq). destruct (H2 x Hx) as [[? _]|Haw]; [done|exact Haw].
  - intros c t. rewrite C. destruct (decide (cpu = c)) as [<-|Hcc]; cbn; [intros [= <-]; split; congruence|].
    intros E. destruct (A1 c t E) as [? ?]. rewrite U by congruence. done.
  - intros t. destruct (decide (t = Idle cpu)) as [->|Hne]; [intros _; by rewrite P1, Hp, C, decide_True|].
    rewrite U by done. intros E. pose proof (A2 t E) as E'. rewrite C.
    destruct (decide (cpu = pcpu_id (th w t))) as [Eq|]; [rewrite <- Eq in E'; congruence|done].
  - intros t. destruct (decide (t = Idle cpu)) as [->|]; [done|]. rewrite U by done. apply Ht.
  - intros c. destruct (Hid c) as (I1 & I2 & I3 & I4). destruct (decide (c = cpu)) as [->|Hne].
    + rewrite P1, P2, P4, P5. done.
    + rewrite U, C, decide_False by congruence. done.
  - unfold registry_ok. rewrite L, N. exact Hr.
Qed.

Lemma run_idle_ok cpu clk now0 now1 nm w w' :
  sched_inv w -> curr_obj (ctl_of w cpu) = None -> Idle cpu ∉ thread_list w -> thread_count w < UINT32_MAX ->
  status (th w (Idle cpu)) = THREAD_STS_BLOCKED ->
  run_idle_thread cpu clk now0 now1 nm w = Ret w' -> sched_inv w'.
Proof.
  intros [Hi Hf] Hc Hl Hn Hs E. unfold run_idle_thread in E. inv_ret. subst. rename r into w2.
  pose proof Hi as (_ & _ & _ & Hid & _). destruct (Hid cpu) as (I1 & I2 & I3 & _).
  set (w1 := set_th (Idle cpu) _ w) in *.
  assert (base_inv w1) as Hi1.
  { apply inv_free_th; cbn; try done; [congruence|]. intros c [= <-]. done. }
  assert (status (th w1 (Idle cpu)) = THREAD_STS_BLOCKED /\ pcpu_id (th w1 (Idle cpu)) = cpu) as [Hs1 Hp1]
    by (subst w1; by rewrite th_set, decide_True).
  assert (forall u, u <> Idle cpu -> th w1 u = th w u) as Eu
    by (intros u Hu; subst w1; by rewrite th_set, decide_False by congruence).
  assert (ctl_of w1 = ctl_of w /\ registry_same w w1) as (C1 & [L1 N1]) by done. clearbody w1.
  destruct (init_thread_ok cpu clk now0 (Idle cpu) idle_params w1 w2 Hi1 Hs1) as (Hi2 & Hs2 & Hp2 & Hf2 & U2 & C2);
    [congruence|congruence|done|].
  split; [apply run_thread_ok; try congruence; by rewrite C2, C1|].
  destruct (run_thread_eq cpu now1 (Idle cpu) w2) as (_ & U & _ & P2 & _).
  intros t. destruct (decide (t = Idle cpu)) as [->|]; [by rewrite P2, Hf2|]. rewrite U, U2, Eu by done. apply Hf.
Qed.

Lemma init_sched_ok cpu c clk s w w' :
  sched_inv w -> (forall t, pcpu_id (th w t) = c -> status (th w t) <> THREAD_STS_RUNNING) ->
  select_pcpu_scheduler w c = Ret s -> (forall x, ~ queued (hooks s) (priv (ctl_of w c)) x) ->
  init_sched cpu c clk w = Ret w' -> sched_inv w'.
Proof.
  intros [(Hq & (C1 & C2) & Ht & Hid & Hr) Hf] Hnr Es Hnq E. unfold init_sched in E. inv_ret. destruct r1 as [ret p]. subst w'.
  change (select_pcpu_scheduler w c = Ret r) in E0. rewrite Es in E0. injection E0 as <-.
  destruct (init_sound _ _ _ _ _ Hnq E2) as [Hp Hnp]. cbn [snd] in *.
  set (w' := set_priv c p _) in *.
  assert (forall d, d <> c -> ctl_of w' d = ctl_of w d) as Hd.
  { intros d Hne. subst w'. unfold set_priv. by rewrite !ctl_set, !decide_False by congruence. }
  assert (curr_obj (ctl_of w' c) = None /\ scheduler (ctl_of w' c) = s /\ priv (ctl_of w' c) = p) as (K1 & K2 & K3).
  { subst w'. unfold set_priv. by rewrite !ctl_set, !decide_True by done. }
  assert (forall t, th w' t = th w t) as T by done. assert (registry_same w w') as [L N] by done. clearbody w'.
  split; [|intros t; rewrite T; apply Hf]. unfold base_inv, inv_except, current_ok. split_and!.
  - intros d. unfold policy_ok, on_queue. destruct (decide (d = c)) as [->|Hne].
    + rewrite K2, K3. split; [done|]. intros x Hx. by destruct (Hnp x).
    + rewrite Hd by done. destruct (Hq d) as [H1 H2]. split; [done|]. intros x Hx.
      destruct (H2 x Hx) as [[? _]|Ha]; [done|right]. eapply awake_keys; [|exact Ha]. intros t. by rewrite T.
  - intros d t. destruct (decide (d = c)) as [->|Hne]; [by rewrite K1|]. rewrite Hd, T by done. apply C1.
  - intros t. rewrite T. intros Hrun. rewrite Hd; [by apply C2|]. intros E. by apply (Hnr t).
  - intros t. rewrite T. apply Ht.
  - intros d. rewrite T. destruct (Hid d) as (I1 & I2 & I3 & I4). split_and!; try done.
    destruct (decide (d = c)) as [->|Hne]; [by rewrite K1|by rewrite Hd].
  - unfold registry_ok. rewrite L, N. done.
Qed.

Lemma steady_inv w w' : sched_inv w -> (base_inv w -> steady w w') -> sched_inv w'.
Proof. intros [Hi Hf] Hs. specialize (Hs Hi). split; [apply Hs|by eapply steady_frozen]. Qed.

(** Hooks of a control that queue nothing new but the current thread. *)
Lemma priv_steady c cpu p w :
  base_inv w -> pol_inv (hooks (scheduler (ctl_of w c))) p ->
  (forall x, queued (hooks (scheduler (ctl_of w c))) p x -> on_queue w c x \/ active_current (view_at w c cpu) x) ->
  steady w (set_priv c p w).
Proof.
  intros Hi Hp Hx. apply set_priv_steady, inv_hook; [done|done|]. intros x Hq. right.
  destruct (Hx x Hq); [by apply inv_awake|by eapply active_current_awake].
Qed.

Lemma request_steady cpu c w : base_inv w -> steady w (make_reschedule_request cpu c w).
Proof. intros Hi. destruct (resched_agree cpu c w) as (Ha & Hp & _). by apply quiet_steady. Qed.

Lemma resched_hook_steady (hook : sched_ops sched_privs -> option (sched_view -> clock -> sched_privs -> outcome (bool * sched_privs)))
    cpu c clk w w' :
  base_inv w -> resched_hook (hook (get_scheduler w c)) cpu c clk w = Ret w' ->
  (forall id f v clk p b p', hook (hooks id) = Some f -> pol_inv (hooks id) p -> f v clk p = Ret (b, p') ->
     pol_inv (hooks id) p' /\ forall x, queued (hooks id) p' x -> queued (hooks id) p x \/ active_current v x) ->
  steady w w'.
Proof.
  intros Hi E Hs. unfold resched_hook in E. destruct (hook (get_scheduler w c)) as [f|] eqn:Ef; [|injection E as <-; by split_and!].
  inv_ret. destruct r as [b p]. cbn [fst snd] in *. subst.
  destruct (Hs _ _ _ _ _ _ _ Ef (inv_queues w c Hi) E0) as [Hp Hx].
  pose proof (priv_steady c cpu p w Hi Hp Hx) as S1. destruct b; [|done].
  eapply steady_trans; [exact S1|]. apply request_steady, S1.
Qed.

Lemma ctl_hook_steady (hook : sched_ops sched_privs -> option (sched_view -> clock -> sched_privs -> outcome sched_privs))
    cpu c clk w w' :
  base_inv w -> ctl_hook (hook (get_scheduler w c)) cpu c clk w = Ret w' ->
  (forall id f v clk p p', hook (hooks id) = Some f -> pol_inv (hooks id) p -> f v clk p = Ret p' ->
     pol_inv (hooks id) p' /\ forall x, queued (hooks id) p' x -> queued (hooks id) p x) ->
  steady w w'.
Proof.
  intros Hi E Hs. unfold ctl_hook in E. destruct (hook (get_scheduler w c)) as [f|] eqn:Ef; [|injection E as <-; by split_and!].
  inv_ret. subst. destruct (Hs _ _ _ _ _ _ Ef (inv_queues w c Hi) E0) as [Hp Hx].
  apply (priv_steady c cpu); [done|done|]. intros x Hq. left. by apply Hx.
Qed.

Lemma set_ctl_steady c k w :
  base_inv w -> curr_obj k = curr_obj (ctl_of w c) -> scheduler k = scheduler (ctl_of w c) ->
  priv k = priv (ctl_of w c) -> steady w (set_ctl c k w).
Proof. intros Hi E1 E2 E3. destruct (set_ctl_agree c k w E1 E2 E3) as [Ha Hp]. by apply quiet_steady. Qed.

Lemma tick_steady cpu clk w w' : base_inv w -> sched_timer_tick cpu clk w = Ret w' -> steady w w'.
Proof.
  intros Hi E. unfold sched_timer_tick in E.
  destruct (op_tick (get_scheduler w cpu)) as [f|] eqn:Ef; [|injection E as <-; by split_and!].
  assert (steady w (sched_account_tick cpu w)) as S1 by (by apply set_ctl_steady).
  assert (get_scheduler w cpu = get_scheduler (sched_account_tick cpu w) cpu) as Eg.
  { unfold get_scheduler, sched_account_tick. by rewrite ctl_set, decide_True. }
  rewrite <- Ef, Eg in E. eapply steady_trans; [exact S1|].
  apply (resched_hook_steady op_tick) in E; [done|apply S1|]. intros. by eapply tick_sound.
Qed.

Lemma set_slot_steady c vm s w : base_inv w -> steady w (set_slot c vm s w).
Proof. intros Hi. by apply quiet_steady. Qed.

Lemma request_quiesce_steady cpu t gen w : base_inv w -> steady w (snd (request_thread_quiesce cpu t gen w)).
Proof.
  intros Hi. unfold request_thread_quiesce. destruct (_ || _); [by split_and!|]. destruct (_ && _); [|by split_and!]. cbn [snd].
  set (w1 := set_slot _ _ _ w). assert (steady w w1) as S1 by by apply set_slot_steady. clearbody w1.
  eapply steady_trans; [exact S1|]. destruct S1 as [Hi1 _].
  set (w2 := set_ctl _ _ w1). assert (steady w1 w2) as S2 by by apply set_ctl_steady. clearbody w2.
  eapply steady_trans; [exact S2|]. apply request_steady, S2.
Qed.

Lemma release_quiesce_steady t w : base_inv w -> steady w (release_thread_quiesce t w).
Proof.
  intros Hi. unfold release_thread_quiesce. destruct (negb _); [by split_and!|]. case_bool_decide; [|by split_and!].
  set (w1 := set_ctl _ _ w). assert (steady w w1) as S1 by by apply set_ctl_steady. clearbody w1.
  eapply steady_trans; [exact S1|]. apply set_slot_steady, S1.
Qed.

Lemma ack_slot_steady c vm w : base_inv w -> steady w (ack_slot c vm w).
Proof.
  intros Hi. unfold ack_slot. set (w1 := set_ctl _ _ w). assert (steady w w1) as S1 by by apply set_ctl_steady.
  clearbody w1. eapply steady_trans; [exact S1|]. apply set_slot_steady, S1.
Qed.

Lemma ack_loop_steady c : forall fuel mask b w r w',
  base_inv w -> ack_loop fuel c mask b w = Ret (r, w') -> steady w w'.
Proof.
  induction fuel as [|fuel IH]; intros mask b w r w' Hi E; cbn [ack_loop] in E;
    (destruct (_ <? CONFIG_MAX_VM_NUM); [|injection E as _ <-; by split_and!]); [done|].
  destruct (quiesce_done _ _ _); [|by eapply IH]. pose proof (ack_slot_steady c (ffs64 mask) w Hi) as S1.
  eapply steady_trans; [exact S1|]. eapply IH; [apply S1|done].
Qed.

Lemma ack_steady c r w w' : sched_ack_quiesce_from_idle c w = Ret (r, w') -> base_inv w -> steady w w'.
Proof.
  unfold sched_ack_quiesce_from_idle. generalize (Z.to_nat CONFIG_MAX_VM_NUM). intros fuel E Hi.
  exact (ack_loop_steady c fuel _ _ w r w' Hi E).
Qed.

Lemma priority_steady t w : (forall c, t <> Idle c) -> base_inv w -> steady w (request_thread_priority_no_resched t w).
Proof.
  intros Hni Hi. unfold request_thread_priority_no_resched. destruct (op_prioritize _); [|by split_and!].
  set (w1 := set_th t _ w). assert (steady w w1) as S1.
  { apply quiet_steady; [|done|done]. unfold agree. split_and!; try done; intros u; subst w1; rewrite th_set.
    - by destruct (decide (t = u)) as [<-|].
    - by rewrite decide_False by congruence. }
  clearbody w1. eapply steady_trans; [exact S1|]. apply set_ctl_steady; [apply S1|done..].
Qed.

Lemma thread_not_idle n c : Thread n <> Idle c.
Proof. done. Qed.

Lemma only_thread_frozen t w w' :
  frozen_ok w -> (forall u, u <> t -> th w' u = th w u) -> (freeze_epoch (th w' t) <> 0 -> asleep (th w' t)) -> frozen_ok w'.
Proof. intros Hf Hu Ht u. destruct (decide (u = t)) as [->|]; [done|]. rewrite Hu by done. apply Hf. Qed.

Lemma sleep_inv cpu clk now n w b w' :
  sched_inv w -> sleep_thread_locked cpu clk now (Thread n) w = Ret (b, w') -> sched_inv w'.
Proof.
  intros [Hi Hf] E. destruct (sched_sleep_ok _ _ _ _ _ _ _ Hi (thread_not_idle n) E) as (Hi' & Ha & (U & _) & _).
  split; [done|]. by apply (only_thread_frozen (Thread n) w).
Qed.

Lemma wake_inv cpu clk now n w w' :
  sched_inv w -> freeze_epoch (th w (Thread n)) = 0 -> wake_thread_locked cpu clk now (Thread n) w = Ret w' -> sched_inv w'.
Proof.
  intros [Hi Hf] H0 E. destruct (sched_wake_ok _ _ _ _ _ _ Hi (thread_not_idle n) E) as (Hi' & _ & (U & _ & _ & Ef)).
  split; [done|]. apply (only_thread_frozen (Thread n) w); try done. by rewrite Ef, H0.
Qed.

(** A change of [freeze_epoch] or [deferred_wake] only. *)
Lemma gate_steady t o w :
  base_inv w -> (forall c, t <> Idle c) ->
  pcpu_id o = pcpu_id (th w t) -> status o = status (th w t) -> be_blocking o = be_blocking (th w t) ->
  base_inv (set_th t o w).
Proof.
  intros Hi Hni E1 E2 E3. apply (inv_set_th None); auto; rewrite ?E2, ?E3; [done| |].
  - apply Hi.
  - intros c Hq. by destruct (inv_awake w c t Hi Hq) as (_ & _ & ? & ?).
Qed.

Lemma freeze_inv cpu clk now n epoch r w w' :
  sched_inv w -> freeze_thread cpu clk now (Thread n) epoch w = Ret (r, w') -> sched_inv w'.
Proof.
  intros [Hi Hf] E. unfold freeze_thread in E. destruct (epoch =? 0); [injection E as _ <-; done|].
  destruct (_ || _); [|injection E as _ <-; done]. inv_ret. destruct r0 as [b w2]. cbn [fst snd] in *. subst.
  set (w1 := if _ =? 0 then _ else w) in *.
  assert (base_inv w1 /\ forall u, u <> Thread n -> th w1 u = th w u) as [Hi1 U1].
  { subst w1. destruct (_ =? 0); [|done]. split; [by apply gate_steady|].
    intros u Hu. by rewrite th_set, decide_False by congruence. }
  clearbody w1. destruct (sched_sleep_ok _ _ _ _ _ _ _ Hi1 (thread_not_idle n) E0) as (Hi' & Ha & (U & _) & _).
  split; [done|]. apply (only_thread_frozen (Thread n) w); try done. intros u Hu. by rewrite U, U1.
Qed.

Lemma thaw_inv cpu clk now n epoch owned r w w' :
  sched_inv w -> thaw_thread cpu clk now (Thread n) epoch owned w = Ret (r, w') -> sched_inv w'.
Proof.
  intros [Hi Hf] E. unfold thaw_thread in E. destruct (epoch =? 0); [injection E as _ <-; done|].
  destruct (_ =? epoch); [|injection E as _ <-; done]. inv_ret. subst.
  set (w1 := set_th (Thread n) _ w) in *.
  assert (sched_inv w1 /\ freeze_epoch (th w1 (Thread n)) = 0) as [Hi1 H0].
  { subst w1. rewrite th_set, decide_True by done. split; [split|done]; [by apply gate_steady|].
    apply (only_thread_frozen (Thread n) w); try done.
    - intros u Hu. by rewrite th_set, decide_False by congruence.
    - by rewrite th_set, decide_True. }
  clearbody w1. destruct (owned || _); [by eapply wake_inv|]. injection E0 as <-. done.
Qed.

Lemma wake_thread_inv cpu clk now n w w' :
  sched_inv w -> wake_thread cpu clk now (Thread n) w = Ret w' -> sched_inv w'.
Proof.
  intros Hs E. unfold wake_thread in E. destruct (negb _); [|injection E as <-; done].
  destruct (Z.eqb_spec (freeze_epoch (th w (Thread n))) 0) as [H0|H0]; cbn [negb] in E; [by eapply wake_inv|].
  injection E as <-. destruct Hs as [Hi Hf]. split; [by apply gate_steady|].
  apply (only_thread_frozen (Thread n) w); [done|intros u Hu; by rewrite th_set, decide_False by congruence|].
  rewrite th_set, decide_True by done. intros _. by apply (Hf (Thread n)).
Qed.

Lemma reset_inv cpu clk n prm r w w' :
  sched_inv w -> reset_thread_data cpu clk (Thread n) prm w = Ret (r, w') -> sched_inv w'.
Proof.
  intros [Hi Hf] E. unfold reset_thread_data in E. destruct (_ || (pcpu_nums _ <=? _)); [injection E as _ <-; done|].
  destruct (_ || negb (freeze_epoch _ =? 0)) eqn:Eg; [injection E as _ <-; done|]. inv_ret. subst. rename r0 into w2.
  apply orb_false_iff in Eg as [[[Eb%negb_false_iff _]%orb_false_iff _]%orb_false_iff _].
  apply bool_decide_eq_true in Eb.
  assert (steady w w2 /\ forall u, th w2 u = th w u) as [S2 T2].
  { apply obj_hook_inv in E0 as [[_ ->]|(f & p & Ef & -> & Ep)]; [done|]. split; [|done].
    destruct (op_init_data (get_scheduler w (pcpu_id (th w (Thread n))))) as [g|] eqn:Eg; [|done]. injection Ef as <-.
    destruct (init_data_sound _ _ _ _ _ _ _ Eg (inv_queues w _ Hi) (blocked_not_queued w _ _ Hi Eb) Ep) as [Hp Hx].
    apply (priv_steady _ cpu); [done|done|]. intros x Hq. left. by apply Hx. }
  split; [apply gate_steady; try done; apply S2|].
  apply (only_thread_frozen (Thread n) w); [done| |].
  - intros u Hu. by rewrite th_set, decide_False, T2 by congruence.
  - rewrite th_set, decide_True by done. unfold asleep. cbn. rewrite T2. apply Hf.
Qed.

Lemma schedule_inv cpu clks now w w' :
  sched_inv w -> curr_obj (ctl_of w cpu) <> None -> schedule cpu clks now w = Ret w' -> sched_inv w'.
Proof.
  intros [Hi Hf] Hc E. destruct (schedule_ok cpu clks now w w' Hi Hc E) as (Hi' & _ & _ & _ & Ha & Hk).
  split; [done|]. intros t Ht. destruct (Hk t) as [_ Ef]. rewrite Ef in Ht. apply Ha; [|by apply Hf].
  intros ->. destruct Hi as (_ & _ & _ & Hid & _). by destruct (Hid cpu) as (_ & _ & ? & _).
Qed.

Lemma deinit_thread_inv cpu clk t w w' :
  sched_inv w -> deinit_thread_data cpu clk t w = Ret w' -> sched_inv w'.
Proof.
  intros [Hi Hf] E. unfold deinit_thread_data in E. inv_ret. subst. rename r into w1.
  apply (obj_hook_shrink op_deinit_data) in E0 as (Hi' & T & _); [|done|intros; by eapply deinit_data_sound].
  split; [by apply unregister_inv|]. intros u.
  assert (w_threads (unregister_thread_object t w1) = w_threads w1) as E.
  { unfold unregister_thread_object. destruct (bool_decide _); [|done]. cbn. by destruct (negb _). }
  assert (th (unregister_thread_object t w1) u = th w1 u) as -> by (unfold th; by rewrite E). rewrite T. apply Hf.
Qed.

Lemma clear_reschedule_steady c w : base_inv w -> steady w (snd (sched_clear_reschedule_if_current_only c w)).
Proof.
  intros Hi. unfold sched_clear_reschedule_if_current_only. destruct (_ && _); [|by split_and!]. cbn [snd].
  unfold clear_need_reschedule. by apply set_ctl_steady.
Qed.

Lemma thread_object_inv n o w :
  sched_inv w -> status (th w (Thread n)) = THREAD_STS_BLOCKED -> status o = THREAD_STS_BLOCKED ->
  be_blocking o = false -> freeze_epoch o = 0 -> sched_inv (set_th (Thread n) o w).
Proof.
  intros [Hi Hf] Hs Ho Hb Hz. split; [apply inv_free_th; try done; congruence|].
  apply (only_thread_frozen (Thread n) w); [done|intros u Hu; by rewrite th_set, decide_False by congruence|].
  by rewrite th_set, decide_True.
Qed.

Lemma management_inv susp rst w : sched_inv w -> sched_inv (w <| system_suspend := susp |> <| reset_vm := rst |>).
Proof.
  intros Hs. set (w' := w <| system_suspend := susp |> <| reset_vm := rst |>).
  assert (w_threads w' = w_threads w /\ w_ctls w' = w_ctls w /\ thread_list w' = thread_list w /\
    thread_count w' = thread_count w) as (E1 & E2 & E3 & E4) by done. clearbody w'.
  assert (forall t, th w' t = th w t) as T by (intros t; unfold th; by rewrite E1).
  assert (forall c, ctl_of w' c = ctl_of w c) as C by (intros c; unfold ctl_of; by rewrite E2).
  apply (steady_inv w); [done|]. intros Hi. apply quiet_steady; [|intros c; by rewrite C|done].
  unfold agree. split_and!; try done; intros x; rewrite ?C, ?T; done.
Qed.

Lemma ctl_ops_inv w w' :
  sched_inv w ->
  (exists cpu c clk, deinit_sched cpu c clk w = Ret w') \/ (exists cpu clk, suspend_sched cpu clk w = Ret w') \/
  (exists cpu clk, resume_sched cpu clk w = Ret w') \/ (exists cpu clk, sched_timer_tick cpu clk w = Ret w') ->
  sched_inv w'.
Proof.
  intros Hs Hop. apply (steady_inv w); [done|]. intros Hi.
  destruct Hop as [(cpu & c & clk & E)|[(cpu & clk & E)|[(cpu & clk & E)|(cpu & clk & E)]]].
  - apply (ctl_hook_steady op_deinit cpu c clk w w' Hi E). intros. by eapply deinit_sound.
  - apply (ctl_hook_steady op_suspend cpu BSP_CPU_ID clk w w' Hi E). intros. by eapply suspend_sound.
  - apply (resched_hook_steady op_resume cpu BSP_CPU_ID clk w w' Hi E). intros id f v k p b p' Ef Hp Er.
    destruct (resume_sound _ _ _ _ _ _ Ef Hp Er) as [? Hx]. split; [done|]. intros x Hq. left. by apply Hx.
  - exact (tick_steady cpu clk w w' Hi E).
Qed.

Lemma step_inv w w' : sched_step w w' -> sched_inv w -> sched_inv w'.
Proof.
  intros Hstep Hs. destruct Hstep.
  - by apply thread_object_inv.
  - by eapply init_sched_ok.
  - by eapply run_idle_ok.
  - destruct Hs as [Hi Hf].
    destruct (init_thread_ok cpu clk now (Thread n) prm w w') as (Hi' & _ & _ & Hz & U & _); [done..|].
    split; [done|]. apply (only_thread_frozen (Thread n) w); try done.
  - by eapply reset_inv.
  - by eapply deinit_thread_inv.
  - by eapply schedule_inv.
  - apply (steady_inv w); [done|apply clear_reschedule_steady].
  - unfold sleep_thread in *. inv_ret. destruct r as [b w1]. cbn [snd] in *. subst. by eapply sleep_inv.
  - by eapply wake_thread_inv.
  - by eapply freeze_inv.
  - by eapply thaw_inv.
  - apply (steady_inv w); [done|apply request_quiesce_steady].
  - apply (steady_inv w); [done|apply release_quiesce_steady].
  - apply (steady_inv w); [done|]. by apply (ack_steady c r).
  - apply (steady_inv w); [done|]. intros Hi. pose proof (priority_steady (Thread n) w (thread_not_idle n) Hi) as S1.
    eapply steady_trans; [exact S1|]. apply request_steady, S1.
  - apply (steady_inv w); [done|]. apply priority_steady, thread_not_idle.
  - apply (steady_inv w); [done|apply request_steady].
  - apply (ctl_ops_inv w); [done|]. eauto 10.
  - apply (ctl_ops_inv w); [done|]. eauto 10.
  - apply (ctl_ops_inv w); [done|]. eauto 10.
  - apply (ctl_ops_inv w); [done|]. eauto 10.
  - by apply management_inv.
Qed.

(** ** Reachable states *)
Definition world_zero (p : platform) : sched_world := mk_world p ∅ ∅ [] 0 ∅ [] [] false [].
Inductive sched_reach : sched_world -> Prop :=
| reach_boot p : sched_reach (world_zero p)
| reach_step w w' : sched_reach w -> sched_step w w' -> sched_reach w'.

Lemma zero_inv p : sched_inv (world_zero p).
Proof.
  assert (forall t, th (world_zero p) t = inhabitant) as T by (intros t; apply lookup_total_empty).
  assert (forall c, ctl_of (world_zero p) c = inhabitant) as C by (intros c; apply lookup_total_empty).
  unfold sched_inv, base_inv, inv_except, current_ok, registry_ok. split_and!.
  - intros c. unfold policy_ok, on_queue. rewrite C. by cbn.
  - intros c t. by rewrite C.
  - intros t. by rewrite T.
  - intros t. by rewrite T.
  - intros c. rewrite T, C. by cbn.
  - apply NoDup_nil_2.
  - done.
  - by cbn.
  - intros t. by rewrite T.
Qed.

Lemma reach_inv w : sched_reach w -> sched_inv w.
Proof. induction 1; [apply zero_inv|by eapply step_inv]. Qed.

(** ** Acknowledging quiesce requests *)
(** The loop visits the VMs in order; [quiesce_done] of one VM does not depend
    on the others. *)
Definition acked_slot (pcpu vm : Z) (w w' : sched_world) : Prop :=
  slot_of w' pcpu vm = (slot_of w pcpu vm) <| ack_generation := request_generation (slot_of w pcpu vm) |>.

Lemma slot_set c v s w d u : slot_of (set_slot c v s w) d u = if decide ((c, v) = (d, u)) then s else slot_of w d u.
Proof.
  unfold slot_of, set_slot. cbn. destruct (decide ((c, v) = (d, u))) as [[= <- <-]|Hne].
  - apply lookup_total_insert_eq.
  - by apply lookup_total_insert_ne.
Qed.

Lemma ack_slot_eq pcpu vm w :
  let w' := ack_slot pcpu vm w in
  (forall t, th w' t = th w t) /\ (forall c, curr_obj (ctl_of w' c) = curr_obj (ctl_of w c)) /\
  acked_slot pcpu vm w w' /\ (forall c v, (c, v) <> (pcpu, vm) -> slot_of w' c v = slot_of w c v) /\
  quiesce_request_vm_mask (ctl_of w' pcpu) = Z.clearbit (quiesce_request_vm_mask (ctl_of w pcpu)) vm.
Proof.
  cbn zeta. unfold ack_slot, acked_slot. set (k := _ <| quiesce_request_vm_mask := _ |>).
  change (slot_of (set_ctl pcpu k w)) with (slot_of w). split_and!.
  - done.
  - intros c. change (ctl_of (set_slot _ _ _ (set_ctl pcpu k w)) c) with (ctl_of (set_ctl pcpu k w) c). rewrite ctl_set.
    by destruct (decide (pcpu = c)) as [<-|].
  - by rewrite slot_set, decide_True.
  - intros c v Hne. by rewrite slot_set, decide_False.
  - change (ctl_of (set_slot _ _ _ (set_ctl pcpu k w)) pcpu) with (ctl_of (set_ctl pcpu k w) pcpu).
    by rewrite ctl_set, decide_True.
Qed.

Lemma done_ext pcpu vm w w' :
  (forall t, th w' t = th w t) -> curr_obj (ctl_of w' pcpu) = curr_obj (ctl_of w pcpu) ->
  slot_of w' pcpu vm = slot_of w pcpu vm -> quiesce_done pcpu vm w' = quiesce_done pcpu vm w.
Proof.
  intros T C S. unfold quiesce_done. rewrite C, S. f_equal. destruct (slot_obj _) as [t|]; [|done]. by rewrite T.
Qed.

(** From VM [i] on: the loop ends, acknowledges exactly the requested VMs that
    are done and leaves every other slot alone. *)
Lemma ack_loop_ok pcpu : forall fuel i mask b w,
  0 <= i -> (Z.to_nat CONFIG_MAX_VM_NUM <= fuel + Z.to_nat i)%nat ->
  (forall j, 0 <= j < i -> Z.testbit mask j = false) ->
  exists r w', ack_loop fuel pcpu mask b w = Ret (r, w') /\ (forall t, th w' t = th w t) /\
    (forall c, curr_obj (ctl_of w' c) = curr_obj (ctl_of w c)) /\
    (forall c v, c <> pcpu -> slot_of w' c v = slot_of w c v) /\
    (forall v, if (0 <=? v) && (v <? CONFIG_MAX_VM_NUM) && Z.testbit mask v && quiesce_done pcpu v w
               then acked_slot pcpu v w w' else slot_of w' pcpu v = slot_of w pcpu v).
Proof.
  unfold CONFIG_MAX_VM_NUM. induction fuel as [|fuel IH]; intros i mask b w Hi Hf Hlow; cbn [ack_loop];
    fold CONFIG_MAX_VM_NUM;
    pose proof (ffs_from_spec mask 64 0) as Hs; fold (ffs64 mask) in Hs; cbn zeta in Hs;
    set (vm := ffs64 mask) in *; clearbody vm;
    destruct (Z.ltb_spec vm CONFIG_MAX_VM_NUM) as [Hlt|Hge]; unfold CONFIG_MAX_VM_NUM in *.
  - exfalso. destruct Hs as [[-> _]|(H1 & H2 & _)]; [lia|].
    destruct (Z.lt_ge_cases vm i) as [Hv|Hv]; [|lia]. rewrite Hlow in H2 by lia. done.
  - exists b, w. split_and!; try done. intros v. destruct ((0 <=? v) && (v <? 16) && Z.testbit mask v) eqn:E; [|done].
    exfalso. apply andb_true_iff in E as [[E1%Z.leb_le E2%Z.ltb_lt]%andb_true_iff E3].
    destruct Hs as [[_ H]|(H1 & _ & H3)]; [rewrite H in E3 by lia; done|]. rewrite H3 in E3 by lia. done.
  - destruct Hs as [[-> _]|(H1 & H2 & H3)]; [lia|].
    assert (i <= vm) as Hiv by (destruct (Z.lt_ge_cases vm i); [rewrite Hlow in H2 by lia; done|lia]).
    set (w1 := if quiesce_done pcpu vm w then ack_slot pcpu vm w else w).
    assert ((if quiesce_done pcpu vm w then ack_loop fuel pcpu (Z.clearbit mask vm) true (ack_slot pcpu vm w)
      else ack_loop fuel pcpu (Z.clearbit mask vm) b w) =
      ack_loop fuel pcpu (Z.clearbit mask vm) (quiesce_done pcpu vm w || b) w1) as ->
      by (subst w1; by destruct (quiesce_done _ _ _)).
    destruct (ack_slot_eq pcpu vm w) as (A1 & A2 & A3 & A4 & _).
    assert ((forall t, th w1 t = th w t) /\ (forall c, curr_obj (ctl_of w1 c) = curr_obj (ctl_of w c)) /\
      (forall c v, (c, v) <> (pcpu, vm) -> slot_of w1 c v = slot_of w c v) /\
      (if quiesce_done pcpu vm w then acked_slot pcpu vm w w1 else slot_of w1 pcpu vm = slot_of w pcpu vm))
      as (B1 & B2 & B3 & B4) by (subst w1; by destruct (quiesce_done pcpu vm w)). clearbody w1.
    destruct (IH (vm + 1) (Z.clearbit mask vm) (quiesce_done pcpu vm w || b) w1) as (r & w' & E & T & C & S1 & S2).
    { lia. } { lia. }
    { intros j Hj. rewrite Z.clearbit_eqb by lia. destruct (Z.eqb_spec vm j); [by rewrite andb_false_r|].
      rewrite H3 by lia. done. }
    exists r, w'. split_and!; [done|intros t; by rewrite T|intros c; by rewrite C| |].
    + intros c v Hc. rewrite S1 by done. apply B3. congruence.
    + intros v. specialize (S2 v). destruct (decide (v = vm)) as [->|Hne].
      * rewrite Z.clearbit_eqb, Z.eqb_refl, andb_false_r, andb_false_r in S2 by lia. cbn in S2. rewrite H2.
        destruct (Z.leb_spec 0 vm); [|lia]. destruct (Z.ltb_spec vm 16); [|lia]. cbn [andb].
        unfold acked_slot in *. rewrite S2. exact B4.
      * assert (slot_of w1 pcpu v = slot_of w pcpu v) as Es by (apply B3; congruence).
        destruct (Z.leb_spec 0 v) as [H0|H0]; cbn [andb] in *; [|by rewrite S2].
        rewrite Z.clearbit_neq in S2 by lia. rewrite (done_ext pcpu v w w1) in S2 by done.
        unfold acked_slot in *. rewrite Es in S2. exact S2.
  - exists b, w. split_and!; try done. intros v. destruct ((0 <=? v) && (v <? 16) && Z.testbit mask v) eqn:E; [|done].
    exfalso. apply andb_true_iff in E as [[E1%Z.leb_le E2%Z.ltb_lt]%andb_true_iff E3].
    destruct Hs as [[_ H]|(H1 & _ & H3)]; [rewrite H in E3 by lia; done|]. rewrite H3 in E3 by lia. done.
Qed.

(** ** A small machine

    pCPU 0 with one scheduler, its idle thread and threads 1 and 2, vCPUs of VMs
    0 and 1. *)
Definition ex_machine (id : sched_policy_id) : platform :=
  mk_platform 62500 1
    (mk_plat_config true false ex_pool (mk_pool true true 1 id 4000 1000 false 0 0 0 0))
    [mk_vm_config false 1 0 [] (mk_params 1 1 0 0 0 4000 1000 4000 1000);
     mk_vm_config false 1 0 [] (mk_params 1 1 0 0 0 4000 1000 4000 1000)].
Definition ex_vcpu (vm : Z) : thread_object :=
  mk_thread [] 0 true THREAD_STS_BLOCKED false true false 0 false vm 0 false true true latency_zero.
Definition ex_prm : sched_params := mk_params 1 1 0 0 0 4000 1000 4000 1000.
Definition ret_or (w : sched_world) (o : outcome sched_world) : sched_world :=
  match o with Ret w' => w' | _ => w end.
Definition at_time (n : Z) : clock := fun i => n + Z.of_nat i.

Definition ex_w0 (id : sched_policy_id) : sched_world := world_zero (ex_machine id).
Definition ex_w1 (id : sched_policy_id) : sched_world := ret_or (ex_w0 id) (init_sched 0 0 (at_time 10) (ex_w0 id)).
Definition ex_w2 (id : sched_policy_id) : sched_world :=
  ret_or (ex_w1 id) (run_idle_thread 0 (at_time 20) 30 40 [] (ex_w1 id)).
Definition ex_w3 (id : sched_policy_id) : sched_world := set_th (Thread 1) (ex_vcpu 0) (ex_w2 id).
Definition ex_w4 (id : sched_policy_id) : sched_world :=
  ret_or (ex_w3 id) (init_thread_data 0 (at_time 50) 60 (Thread 1) ex_prm (ex_w3 id)).
Definition ex_w5 (id : sched_policy_id) : sched_world :=
  ret_or (ex_w4 id) (wake_thread 0 (at_time 70) 80 (Thread 1) (ex_w4 id)).
Definition ex_w6 (id : sched_policy_id) : sched_world :=
  ret_or (ex_w5 id) (schedule 0 (fun _ => at_time 100) 110 (ex_w5 id)).

Lemma ex_reach6 : sched_reach (ex_w6 SCHED_POLICY_BFP).
Proof.
  apply (reach_step (ex_w5 SCHED_POLICY_BFP)).
  2: { apply (step_schedule 0 (fun _ => at_time 100) 110); [by vm_compute|by vm_compute]. }
  apply (reach_step (ex_w4 SCHED_POLICY_BFP)).
  2: { apply (step_wake 0 (at_time 70) 80 1). by vm_compute. }
  apply (reach_step (ex_w3 SCHED_POLICY_BFP)).
  2: { apply (step_init_thread 0 (at_time 50) 60 1 ex_prm); [by vm_compute| |by vm_compute|by vm_compute].
       change (thread_list (ex_w3 SCHED_POLICY_BFP)) with [Idle 0]. by intros ?%list_elem_of_singleton. }
  apply (reach_step (ex_w2 SCHED_POLICY_BFP)).
  2: { apply step_thread_object; [by vm_compute| |done..].
       change (thread_list (ex_w2 SCHED_POLICY_BFP)) with [Idle 0]. by intros ?%list_elem_of_singleton. }
  apply (reach_step (ex_w1 SCHED_POLICY_BFP)).
  2: { apply (step_run_idle 0 (at_time 20) 30 40 []); [by vm_compute| |by vm_compute|by vm_compute|by vm_compute].
       change (thread_list (ex_w1 SCHED_POLICY_BFP)) with (@nil tid). by intros ?%elem_of_nil. }
  apply (reach_step (ex_w0 SCHED_POLICY_BFP)); [apply reach_boot|].
  apply (step_init_sched 0 0 (at_time 10) SCHED_POLICY_BFP); [|by vm_compute| |by vm_compute].
  - intros t _. change (th (ex_w0 SCHED_POLICY_BFP) t) with ((∅ : gmap tid thread_object) !!! t).
    by rewrite lookup_total_empty.
  - intros x Hx. apply Hx. unfold Bfp.tag, Bfp.data_of.
    change (Bfp.data _) with (∅ : gmap tid Bfp.sched_bfp_data). by rewrite lookup_total_empty.
Qed.

(** ** Theorems *)

(** C1: Every reachable state of the framework is consistent, whatever the
    policies of the pCPUs.  After boot and any sequence of the operations of
    schedule.c, on any pCPUs: the threads marked running are exactly the current
    threads of their pCPUs; only running threads are about to block; a policy's
    queues hold only threads of its own pCPU that are neither blocked nor about to
    block, never the idle thread; a frozen thread is asleep; and the registry has
    no duplicates and counts its threads. *)
Theorem sched_reachable_consistent w :
  sched_reach w ->
  (forall c t, curr_obj (ctl_of w c) = Some t -> pcpu_id (th w t) = c /\ status (th w t) = THREAD_STS_RUNNING) /\
  (forall t, status (th w t) = THREAD_STS_RUNNING -> curr_obj (ctl_of w (pcpu_id (th w t))) = Some t) /\
  (forall t, be_blocking (th w t) = true -> status (th w t) = THREAD_STS_RUNNING) /\
  (forall c t, on_queue w c t -> pcpu_id (th w t) = c /\ t <> Idle c /\ ~ asleep (th w t)) /\
  (forall t, freeze_epoch (th w t) <> 0 -> asleep (th w t)) /\
  NoDup (thread_list w) /\ thread_count w = Z.of_nat (length (thread_list w)).
Proof.
  intros Hr. destruct (reach_inv w Hr) as [Hi Hf]. pose proof Hi as (_ & (C1 & C2) & Ht & _ & Hn & Hl & _).
  split_and!; try done. intros c t Hq. pose proof (inv_awake w c t Hi Hq) as Ha.
  pose proof (awake_not_asleep w c t Ha). by destruct Ha as (? & ? & _).
Qed.

Lemma sched_reachable_consistent_witness :
  thread_count (ex_w6 SCHED_POLICY_BFP) = Z.of_nat (length (thread_list (ex_w6 SCHED_POLICY_BFP))).
Proof. apply (sched_reachable_consistent (ex_w6 SCHED_POLICY_BFP) ex_reach6). Defined.

(** C2: [schedule] runs only threads that may run.  In every reachable state it
    leaves the pCPU with a current thread that is running, and is the idle thread
    or a thread of this pCPU that is neither blocked, about to block nor frozen;
    every thread of the pCPU that was asleep or about to block is blocked and off
    the pCPU; the other pCPUs keep their current threads. *)
Theorem schedule_runs_awake cpu clks now w w' :
  sched_reach w -> curr_obj (ctl_of w cpu) <> None -> schedule cpu clks now w = Ret w' ->
  exists next, curr_obj (ctl_of w' cpu) = Some next /\ status (th w' next) = THREAD_STS_RUNNING /\
    (next = Idle cpu \/ (pcpu_id (th w' next) = cpu /\ be_blocking (th w' next) = false /\
                         freeze_epoch (th w' next) = 0)) /\
    (forall t, t <> Idle cpu -> pcpu_id (th w t) = cpu -> asleep (th w t) ->
      status (th w' t) = THREAD_STS_BLOCKED /\ t <> next) /\
    (forall c, c <> cpu -> curr_obj (ctl_of w' c) = curr_obj (ctl_of w c)).
Proof.
  intros Hr Hc E. pose proof (reach_inv w Hr) as [Hi Hf].
  destruct (schedule_inv cpu clks now w w' (conj Hi Hf) Hc E) as [Hi' Hf'].
  destruct (schedule_ok cpu clks now w w' Hi Hc E) as (_ & _ & (next & En & Hn) & Ho & Ha & Hk).
  pose proof Hi' as (_ & (C1 & C2) & Hb & _). destruct (C1 cpu next En) as [Ep Es].
  assert (forall t, t <> Idle cpu -> asleep (th w' t) -> t <> next) as Hne.
  { intros t Hti Has ->. destruct Hn as [->|Haw]; [done|]. by eapply awake_not_asleep. }
  exists next. split_and!; try done.
  - destruct Hn as [?|Haw]; [by left|right]. pose proof Haw as (_ & _ & _ & Hb'). split_and!; [done|exact Hb'|].
    destruct (decide (freeze_epoch (th w' next) = 0)) as [|Hfz]; [done|].
    exfalso. by eapply awake_not_asleep; [|apply Hf'].
  - intros t Hti Htp Has. apply Ha in Has; [|done]. split; [|by apply Hne].
    destruct Has as [?|Hbl]; [done|]. exfalso. destruct (Hk t) as [Ekp _].
    pose proof (C2 t (Hb t Hbl)) as Ec. rewrite Ekp, Htp, En in Ec. injection Ec as ->.
    by apply (Hne t Hti); [right|].
Qed.

Lemma schedule_runs_awake_witness :
  exists next, curr_obj (ctl_of (ret_or (ex_w6 SCHED_POLICY_BFP)
      (schedule 0 (fun _ => at_time 200) 210 (ex_w6 SCHED_POLICY_BFP))) 0) = Some next.
Proof.
  destruct (schedule_runs_awake 0 (fun _ => at_time 200) 210 (ex_w6 SCHED_POLICY_BFP)
    (ret_or (ex_w6 SCHED_POLICY_BFP) (schedule 0 (fun _ => at_time 200) 210 (ex_w6 SCHED_POLICY_BFP)))
    ex_reach6 ltac:(vm_compute; discriminate) ltac:(vm_compute; reflexivity)) as (next & H & _).
  exists next. exact H.
Defined.


Definition ex_frozen : sched_world :=
  match freeze_thread 0 (at_time 200) 210 (Thread 1) 7 (ex_w6 SCHED_POLICY_BFP) with
  | Ret (_, _, w) => w | _ => ex_w6 SCHED_POLICY_BFP end.
Definition ex_deferred : sched_world := ret_or ex_frozen (wake_thread 0 (at_time 300) 310 (Thread 1) ex_frozen).


(** A quiesce request is acknowledged exactly when the vCPU is off the pCPU.
    [sched_ack_quiesce_from_idle] always returns (16 rounds are enough); it
    changes no thread and no current thread; it acknowledges the current
    generation of exactly those requested VMs whose slot names a vCPU of this pCPU
    and VM that is blocked, not about to block and not current while the idle
    thread runs, and leaves every other slot as it is. *)
Theorem quiesce_ack_exact pcpu w :
  exists r w', sched_ack_quiesce_from_idle pcpu w = Ret (r, w') /\ (forall t, th w' t = th w t) /\
    (forall c, curr_obj (ctl_of w' c) = curr_obj (ctl_of w c)) /\
    (forall c v, c <> pcpu -> slot_of w' c v = slot_of w c v) /\
    (forall v, if (0 <=? v) && (v <? CONFIG_MAX_VM_NUM) &&
                  Z.testbit (quiesce_request_vm_mask (ctl_of w pcpu)) v && quiesce_done pcpu v w
               then acked_slot pcpu v w w' else slot_of w' pcpu v = slot_of w pcpu v).
Proof. apply (ack_loop_ok pcpu (Z.to_nat CONFIG_MAX_VM_NUM) 0); [lia|apply Nat.le_add_r|]. intros j Hj. lia. Qed.

(** The threads the scan counts. *)
Definition runnable_on (w : sched_world) (c : Z) (t : tid) : Prop :=
  pcpu_id (th w t) = c /\ is_idle w t = false /\ be_blocking (th w t) = false /\
  is_runnable_or_running (th w t) = true.

Lemma scan_one c cur w : forall l n o r x,
  0 <= n -> scan_runnable c cur w l n o = (r, x) -> n <= r /\
  (r = 1 -> n = 1 -> forall t, t ∈ l -> ~ runnable_on w c t) /\
  (r = 1 -> n = 0 -> x = Some cur -> forall t, t ∈ l -> runnable_on w c t -> t = cur).
Proof.
  induction l as [|y l IH]; intros n o r x Hn E; cbn [scan_runnable] in E.
  { injection E as <- <-. split_and!; [lia| |]; intros; by apply elem_of_nil in H1 || (by apply elem_of_nil in H2). }
  assert (runnable_on w c y <-> (negb (pcpu_id (th w y) =? c) || is_idle w y || be_blocking (th w y) ||
    negb (is_runnable_or_running (th w y))) = false) as Hy.
  { unfold runnable_on. rewrite !orb_false_iff, !negb_false_iff, Z.eqb_eq. tauto. }
  destruct (negb (pcpu_id (th w y) =? c) || _ || _ || _).
  - destruct (IH _ _ _ _ Hn E) as (H1 & H2 & H3). split_and!; [done| |].
    + intros Hr1 Hn1 t [->|Ht]%elem_of_cons; [by intros ?%Hy|by apply H2].
    + intros Hr1 Hn0 Hx t [->|Ht]%elem_of_cons; [by intros ?%Hy|by apply H3].
  - destruct ((1 <? n + 1) || negb (bool_decide (y = cur))) eqn:Eb.
    + injection E as <- <-. split_and!; [lia|lia|]. intros _ -> [= ->]. by rewrite bool_decide_eq_true_2 in Eb.
    + apply orb_false_iff in Eb as [Eb%Z.ltb_ge Ey%negb_false_iff]. apply bool_decide_eq_true in Ey as ->.
      destruct (IH (n + 1) _ _ _ ltac:(lia) E) as (H1 & H2 & H3). split_and!; [lia|lia|].
      intros Hr1 -> _ t [->|Ht]%elem_of_cons Hrun; [done|]. by destruct (H2 Hr1 eq_refl t Ht).
Qed.

(** Skipping a reschedule is fair.  When
    [sched_clear_reschedule_if_current_only] clears the request, no management
    work is pending, the current thread is neither idle nor about to block, and
    it is the only registered thread of the pCPU that could run. *)
Theorem clear_reschedule_sound c w w' :
  sched_clear_reschedule_if_current_only c w = (true, w') ->
  sched_idle_work_pending_locked c w = false /\ need_reschedule c w = true /\ need_reschedule c w' = false /\
  exists cur, curr_obj (ctl_of w c) = Some cur /\ is_idle w cur = false /\ be_blocking (th w cur) = false /\
    forall t, t ∈ thread_list w -> runnable_on w c t -> t = cur.
Proof.
  intros E. unfold sched_clear_reschedule_if_current_only in E.
  destruct (_ && _ && _) eqn:Eg; [|done]. injection E as <-.
  apply andb_true_iff in Eg as [[Ep%negb_true_iff En]%andb_true_iff Eo]. split_and!; try done.
  { unfold need_reschedule, clear_need_reschedule. rewrite ctl_set, decide_True by done. cbn [flags]. apply Z.clearbit_eq. }
  unfold sched_current_is_only_runnable_locked in Eo. destruct (curr_obj (ctl_of w c)) as [cur|]; [|done].
  exists cur. destruct (_ || _) eqn:Ec; [done|].
  apply orb_false_iff in Ec as [[Ec1 Ec2]%orb_false_iff _]. split_and!; try done.
  destruct (scan_runnable c cur w (thread_list w) 0 None) as [r x] eqn:Es.
  apply andb_true_iff in Eo as [->%Z.eqb_eq ->%bool_decide_eq_true].
  destruct (scan_one c cur w (thread_list w) 0 None 1 _ ltac:(lia) Es) as (_ & _ & H). by apply H.
Qed.

Lemma clear_reschedule_sound_witness :
  let w := make_reschedule_request 0 0 (ex_w6 SCHED_POLICY_BFP) in
  need_reschedule 0 (snd (sched_clear_reschedule_if_current_only 0 w)) = false.
Proof.
  cbn zeta. apply (clear_reschedule_sound 0 (make_reschedule_request 0 0 (ex_w6 SCHED_POLICY_BFP))).
  vm_compute. reflexivity.
Defined.

(** ** Findings *)

(** The scan leaves [obj] on the last registered thread it looked at, so the
    helper also fails when the only runnable thread is current but another thread
    of any state, on any pCPU, was registered after it. *)
Definition ex_idle_neighbour : sched_world :=
  let w := set_th (Thread 2) (ex_vcpu 1) (ex_w6 SCHED_POLICY_BFP) in
  make_reschedule_request 0 0 (ret_or w (init_thread_data 0 (at_time 120) 130 (Thread 2) ex_prm w)).
Theorem only_runnable_incomplete :
  curr_obj (ctl_of ex_idle_neighbour 0) = Some (Thread 1) /\
  status (th ex_idle_neighbour (Thread 2)) = THREAD_STS_BLOCKED /\
  thread_list ex_idle_neighbour = [Idle 0; Thread 1; Thread 2] /\
  fst (sched_clear_reschedule_if_current_only 0 ex_idle_neighbour) = false /\
  fst (sched_clear_reschedule_if_current_only 0 (make_reschedule_request 0 0 (ex_w6 SCHED_POLICY_BFP))) = true.
Proof. split_and!; vm_compute; reflexivity. Qed.

(** [schedule] selects idle without asking the policy while management work is
    pending.  The policies that take the picked thread off their queue (BFP, CBS
    and RTDS) do not see that it is preempted: when the work is done the thread is
    runnable, on no queue, and [schedule] keeps choosing idle.  Here a quiesce
    request for the blocked vCPU of VM 1 strands the running vCPU of VM 0. *)
Definition ex_two (id : sched_policy_id) : sched_world :=
  let w := set_th (Thread 2) (ex_vcpu 1) (ex_w6 id) in
  ret_or w (init_thread_data 0 (at_time 120) 130 (Thread 2) ex_prm w).
Definition ex_stranded (id : sched_policy_id) : sched_world :=
  let w := snd (request_thread_quiesce 0 (Thread 2) 5 (ex_two id)) in
  let w := ret_or w (schedule 0 (fun _ => at_time 200) 210 w) in
  match default_idle_round 0 (fun _ => at_time 300) 310 (mk_requests false false false false) w with
  | Ret (_, w) => w | _ => w end.
Definition stranded_at (w : sched_world) : option tid * thread_object_state * Z * bool :=
  (curr_obj (ctl_of w 0), status (th w (Thread 1)), quiesce_request_vm_mask (ctl_of w 0),
   is_thread_quiesced (Thread 2) 5 w).
Theorem schedule_strands_current :
  stranded_at (ex_stranded SCHED_POLICY_BFP) = (Some (Idle 0), THREAD_STS_RUNNABLE, 0, true) /\
  stranded_at (ex_stranded SCHED_POLICY_CBS) = (Some (Idle 0), THREAD_STS_RUNNABLE, 0, true) /\
  stranded_at (ex_stranded SCHED_POLICY_RTDS) = (Some (Idle 0), THREAD_STS_RUNNABLE, 0, true) /\
  Bfp.ready_queue (sched_bfp_ctl (priv (ctl_of (ex_stranded SCHED_POLICY_BFP) 0))) = [] /\
  Bfp.depleted_queue (sched_bfp_ctl (priv (ctl_of (ex_stranded SCHED_POLICY_BFP) 0))) = [] /\
  Cbs.runqueue (sched_cbs_ctl (priv (ctl_of (ex_stranded SCHED_POLICY_CBS) 0))) = [] /\
  (* IORR and PRIO leave the running thread on the queue *)
  stranded_at (ex_stranded SCHED_POLICY_IORR) = (Some (Thread 1), THREAD_STS_RUNNING, 0, true) /\
  stranded_at (ex_stranded SCHED_POLICY_PRIO) = (Some (Thread 1), THREAD_STS_RUNNING, 0, true).
Proof. split_and!; vm_compute; reflexivity. Qed.

(** A wake of the stranded thread does not help: it is not blocked. *)
Theorem stranded_wake_ignored :
  wake_thread 0 (at_time 400) 410 (Thread 1) (ex_stranded SCHED_POLICY_BFP) = Ret (ex_stranded SCHED_POLICY_BFP).
Proof. vm_compute. reflexivity. Qed.

(** The quiesce gate rejects [wake_thread], but [thaw_thread] replays its wake
    without looking at it: a quiesced vCPU runs again. *)
Definition ex_frozen_quiesced : sched_world :=
  let w := snd (request_thread_quiesce 0 (Thread 1) 9 ex_frozen) in
  let w := ret_or w (schedule 0 (fun _ => at_time 400) 410 w) in
  match sched_ack_quiesce_from_idle 0 w with Ret (_, w) => w | _ => w end.
Definition ex_thawed : sched_world :=
  match thaw_thread 0 (at_time 500) 510 (Thread 1) 7 true ex_frozen_quiesced with
  | Ret (_, w) => ret_or w (schedule 0 (fun _ => at_time 600) 610 w) | _ => ex_frozen_quiesced end.
Theorem thaw_bypasses_quiesce :
  is_thread_quiesced (Thread 1) 9 ex_frozen_quiesced = true /\
  wake_thread 0 (at_time 500) 510 (Thread 1) ex_frozen_quiesced = Ret ex_frozen_quiesced /\
  is_thread_quiesced (Thread 1) 9 ex_thawed = true /\
  curr_obj (ctl_of ex_thawed 0) = Some (Thread 1) /\ status (th ex_thawed (Thread 1)) = THREAD_STS_RUNNING.
Proof. split_and!; vm_compute; reflexivity. Qed.

(** The acknowledgement belongs to the slot of the pCPU and VM, not to the vCPU.
    When a second vCPU of the VM on the same pCPU asks for the same generation,
    it takes the slot over with the old acknowledgement and counts as quiesced
    while it runs. *)
Definition ex_takeover : sched_world :=
  let w := set_th (Thread 2) (ex_vcpu 0) (ex_w6 SCHED_POLICY_PRIO) in
  let w := ret_or w (init_thread_data 0 (at_time 120) 130 (Thread 2) ex_prm w) in
  let w := snd (request_thread_quiesce 0 (Thread 2) 5 w) in
  let w := ret_or w (schedule 0 (fun _ => at_time 200) 210 w) in
  let w := match default_idle_round 0 (fun _ => at_time 300) 310 (mk_requests false false false false) w with
           | Ret (_, w) => w | _ => w end in
  snd (request_thread_quiesce 0 (Thread 1) 5 w).
Theorem quiesce_stale_ack :
  curr_obj (ctl_of ex_takeover 0) = Some (Thread 1) /\ status (th ex_takeover (Thread 1)) = THREAD_STS_RUNNING /\
  is_thread_quiesced (Thread 1) 5 ex_takeover = true.
Proof. split_and!; vm_compute; reflexivity. Qed.
