(* ===== verification/Smart.v ===== *)
(** * The scheduler advisor gate (core/sched/smart.c)

    A service VM may register as advisor, sample the configuration of a CBS
    pool and propose budgets.  The gate checks proposals and never changes a
    scheduler.  [copy_from_gpa] and [copy_to_gpa] are the guest memory
    component's: a call takes the payload read from guest memory, if the copy
    succeeded, and whether the copy back succeeds. *)
From S2P Require Import Prelude Bits Ticks SchedTypes.

Definition ACRN_INVALID_VMID : Z := 65535.
Definition ACRN_AI_SCHED_ABI_VERSION : Z := 1.
Definition ACRN_AI_SCHED_MAX_ENTRIES : Z := 16.
Definition ACRN_AI_SCHED_OP_REGISTER : Z := 0.
Definition ACRN_AI_SCHED_OP_SNAPSHOT : Z := 1.
Definition ACRN_AI_SCHED_OP_PROPOSE : Z := 2.
Definition ACRN_AI_SCHED_STATUS_OK : Z := 0.
Definition ACRN_AI_SCHED_STATUS_DENIED : Z := 1.
Definition ACRN_AI_SCHED_STATUS_BAD_PARAM : Z := 2.
Definition ACRN_AI_SCHED_STATUS_UNSUPPORTED : Z := 3.
(** [sizeof(struct acrn_ai_sched_ioc)]: 96 bytes of header, 16 entries of 8. *)
Definition ioc_sizeof : Z := 224.

Record acrn_ai_sched_entry := mk_ai_entry {
  vmid : Z;
  reserved : Z;
  entry_budget_us : Z }.
#[export] Instance ai_entry_inhabited : Inhabited acrn_ai_sched_entry := populate (mk_ai_entry 0 0 0).

Record acrn_ai_sched_ioc := mk_ioc {
  op : Z;
  ioc_status : Z;
  abi_version : Z;
  ioc_size : Z;
  capability : Z;
  sequence : Z;
  ioc_pcpu_id : Z;
  entry_count : Z;
  reserved0 : Z;
  sample_ticks : Z;
  ioc_policy : sched_policy_id;
  ioc_period_us : Z;
  pool_budget_us : Z;
  min_budget_us : Z;
  max_budget_us : Z;
  max_step_us : Z;
  min_update_ms : Z;
  active_vm_mask : Z;
  utilization_ppm : Z;
  entries : list acrn_ai_sched_entry }.
#[export] Instance eta_ioc : Eta acrn_ai_sched_ioc := fun i =>
  mk_ioc (op i) (ioc_status i) (abi_version i) (ioc_size i) (capability i) (sequence i) (ioc_pcpu_id i)
    (entry_count i) (reserved0 i) (sample_ticks i) (ioc_policy i) (ioc_period_us i) (pool_budget_us i)
    (min_budget_us i) (max_budget_us i) (max_step_us i) (min_update_ms i) (active_vm_mask i)
    (utilization_ppm i) (entries i).

Record ai_sched_gate := mk_gate {
  advisor_vmid : Z;
  gate_capability : Z;
  next_capability : Z;
  last_proposal_ticks : list Z }.
#[export] Instance eta_gate : Eta ai_sched_gate := fun g =>
  mk_gate (advisor_vmid g) (gate_capability g) (next_capability g) (last_proposal_ticks g).

Definition no_proposals : list Z := replicate (Z.to_nat MAX_PCPU_NUM) 0.
Definition ai_sched_gate_init : ai_sched_gate := mk_gate ACRN_INVALID_VMID 0 1 no_proposals.

Definition ai_sched_vm_uses_pcpu (cfg : acrn_vm_config) (pcpu : Z) : bool :=
  if name_empty cfg then false else vm_affinity_uses_pcpu cfg pcpu.

(** [get_vm_config(vmid)]: the table has an entry for every VM id; an unused one
    has no name. *)
Definition vm_config_zero : acrn_vm_config := mk_vm_config true 0 0 [] (mk_params 0 0 0 0 0 0 0 0 0).
Definition get_vm_config (plat : platform) (id : Z) : acrn_vm_config :=
  default vm_config_zero (vm_configs plat !! Z.to_nat id).

Definition ai_sched_pool (plat : platform) (ioc : acrn_ai_sched_ioc) : Z + sched_cpupool_config :=
  if pcpu_nums plat <=? ioc_pcpu_id ioc then inl (- EINVAL)
  else match sched_get_pcpu_pool_config (sched_config plat) (ioc_pcpu_id ioc) with
       | Some pool =>
           if negb (ai_assist pool) || negb (bool_decide (policy pool = SCHED_POLICY_CBS)) || (period_us pool =? 0)
           then inl (- ENOTSUP) else inr pool
       | None => inl (- ENOTSUP)
       end.

(** The VM ids [0 .. CONFIG_MAX_VM_NUM - 1]. *)
Definition vm_ids : list Z := Z.of_nat <$> seq 0 (Z.to_nat CONFIG_MAX_VM_NUM).

Definition configured_budget (plat : platform) (pool : sched_cpupool_config) (id : Z) : Z :=
  let b := cbs_budget_us (vm_sched_params (get_vm_config plat id)) in
  if negb (b =? 0) then b else budget_us pool.

Fixpoint snapshot_entries (plat : platform) (pool : sched_cpupool_config) (ids : list Z) (ioc : acrn_ai_sched_ioc)
    : Z * acrn_ai_sched_ioc :=
  match ids with
  | [] => (0, ioc)
  | id :: ids =>
      if negb (ai_sched_vm_uses_pcpu (get_vm_config plat id) (ioc_pcpu_id ioc))
      then snapshot_entries plat pool ids ioc
      else if ACRN_AI_SCHED_MAX_ENTRIES <=? entry_count ioc then (- EINVAL, ioc)
      else
        let e := entries ioc !!! Z.to_nat (entry_count ioc) in
        let e := mk_ai_entry id (reserved e) (configured_budget plat pool id) in
        let ioc := ioc <| entries := <[Z.to_nat (entry_count ioc) := e]> (entries ioc) |>
                       <| entry_count := u16 (entry_count ioc + 1) |> in
        let ioc := if id <? 64 then ioc <| active_vm_mask := Z.lor (active_vm_mask ioc) (u64 (Z.shiftl 1 id)) |> else ioc in
        snapshot_entries plat pool ids ioc
  end.

Definition ai_sched_snapshot (plat : platform) (now : Z) (ioc : acrn_ai_sched_ioc) : Z * acrn_ai_sched_ioc :=
  match ai_sched_pool plat ioc with
  | inl ret => (ret, ioc)
  | inr pool =>
      let ioc := ioc <| sample_ticks := now |> <| ioc_policy := policy pool |> <| ioc_period_us := period_us pool |>
        <| pool_budget_us := budget_us pool |> <| min_budget_us := ai_min_budget_us pool |>
        <| max_budget_us := ai_max_budget_us pool |> <| max_step_us := ai_max_step_us pool |>
        <| min_update_ms := ai_min_update_ms pool |> <| entry_count := 0 |> <| active_vm_mask := 0 |> in
      snapshot_entries plat pool vm_ids ioc
  end.

(** The mask of the VMs of the pCPU, or an error for an id beyond the mask. *)
Fixpoint active_loop (plat : platform) (pcpu : Z) (ids : list Z) (mask : Z) : Z + Z :=
  match ids with
  | [] => inr mask
  | id :: ids =>
      if ai_sched_vm_uses_pcpu (get_vm_config plat id) pcpu then
        if 64 <=? id then inl (- ENOTSUP)
        else active_loop plat pcpu ids (Z.lor mask (u64 (Z.shiftl 1 id)))
      else active_loop plat pcpu ids mask
  end.

(** The first test of the loop over the entries. *)
Definition entry_rejected (pool : sched_cpupool_config) (active seen : Z) (e : acrn_ai_sched_entry) : bool :=
  negb (reserved e =? 0) || (CONFIG_MAX_VM_NUM <=? vmid e) || (64 <=? vmid e) ||
  (Z.land active (u64 (Z.shiftl 1 (vmid e))) =? 0) || negb (Z.land seen (u64 (Z.shiftl 1 (vmid e))) =? 0) ||
  (entry_budget_us e <? ai_min_budget_us pool) || (ai_max_budget_us pool <? entry_budget_us e).

(** The entries one by one: the masks seen and the utilisation so far. *)
Fixpoint entry_loop (plat : platform) (pool : sched_cpupool_config) (active : Z) (es : list acrn_ai_sched_entry)
    (seen utilization : Z) : Z + (Z * Z) :=
  match es with
  | [] => inr (seen, utilization)
  | e :: es =>
      if entry_rejected pool active seen e then inl (- EINVAL)
      else
        let current := configured_budget plat pool (vmid e) in
        let delta := if current <? entry_budget_us e then entry_budget_us e - current
                     else current - entry_budget_us e in
        if ai_max_step_us pool <? delta then inl (- EINVAL)
        else
          let utilization := u64 (utilization + u64 (entry_budget_us e * 1000000) / period_us pool) in
          if 1000000 <? utilization then inl (- EBUSY)
          else entry_loop plat pool active es (Z.lor seen (u64 (Z.shiftl 1 (vmid e)))) utilization
  end.

Definition ai_sched_validate_proposal (plat : platform) (ioc : acrn_ai_sched_ioc) : Z * acrn_ai_sched_ioc :=
  match ai_sched_pool plat ioc with
  | inl ret => (ret, ioc)
  | inr pool =>
      if (sequence ioc =? 0) || (entry_count ioc =? 0) || (ACRN_AI_SCHED_MAX_ENTRIES <? entry_count ioc)
      then (- EINVAL, ioc)
      else match active_loop plat (ioc_pcpu_id ioc) vm_ids 0 with
           | inl ret => (ret, ioc)
           | inr active =>
               match entry_loop plat pool active (take (Z.to_nat (entry_count ioc)) (entries ioc)) 0 0 with
               | inl ret => (ret, ioc)
               | inr (seen, utilization) =>
                   if negb (seen =? active) then (- EINVAL, ioc)
                   else (0, ioc <| active_vm_mask := active |> <| utilization_ppm := utilization |>)
               end
           end
  end.

Definition ai_sched_invalidate_vm (id : Z) (g : ai_sched_gate) : ai_sched_gate :=
  if advisor_vmid g =? id
  then g <| advisor_vmid := ACRN_INVALID_VMID |> <| gate_capability := 0 |> <| last_proposal_ticks := no_proposals |>
  else g.

(** ** The hypercall *)
Definition ai_sched_register (vm now : Z) (ioc : acrn_ai_sched_ioc) (g : ai_sched_gate)
    : Z * acrn_ai_sched_ioc * ai_sched_gate :=
  if negb (capability ioc =? 0) || negb (sequence ioc =? 0) || negb (entry_count ioc =? 0)
  then (- EINVAL, ioc, g)
  else
    let next := u64 (next_capability g + 1) in
    let cap := Z.lxor next now in
    let '(cap, next) := if cap =? 0 then (u64 (next + 1), u64 (next + 1)) else (cap, next) in
    (0, ioc <| capability := cap |>, mk_gate vm cap next no_proposals).

Definition ai_sched_propose (plat : platform) (now : Z) (ioc : acrn_ai_sched_ioc) (g : ai_sched_gate)
    : Z * acrn_ai_sched_ioc * ai_sched_gate :=
  let '(ret, ioc) := ai_sched_validate_proposal plat ioc in
  if ret =? 0 then
    let minimum := us_to_ticks (tickrate plat) (u32 (min_update_ms ioc * 1000)) in
    let last := last_proposal_ticks g !!! Z.to_nat (ioc_pcpu_id ioc) in
    if negb (last =? 0) && (u64 (now - last) <? minimum) then (- EBUSY, ioc, g)
    else (0, ioc, g <| last_proposal_ticks := <[Z.to_nat (ioc_pcpu_id ioc) := now]> (last_proposal_ticks g) |>)
  else (ret, ioc, g).

Definition ai_sched_op (plat : platform) (vm now : Z) (ioc : acrn_ai_sched_ioc) (g : ai_sched_gate)
    : Z * acrn_ai_sched_ioc * ai_sched_gate :=
  if op ioc =? ACRN_AI_SCHED_OP_REGISTER then ai_sched_register vm now ioc g
  else if negb (advisor_vmid g =? vm) || (gate_capability g =? 0) || negb (capability ioc =? gate_capability g)
  then (- EPERM, ioc, g)
  else if op ioc =? ACRN_AI_SCHED_OP_SNAPSHOT then (ai_sched_snapshot plat now ioc, g)
  else if op ioc =? ACRN_AI_SCHED_OP_PROPOSE then ai_sched_propose plat now ioc g
  else (- EINVAL, ioc, g).

(** The caller is a vCPU of VM [vm]; (return value, payload written back, gate). *)
Definition hcall_ai_sched (plat : platform) (service_vm : bool) (vm now : Z) (copied : option acrn_ai_sched_ioc)
    (copy_back : bool) (g : ai_sched_gate) : Z * option acrn_ai_sched_ioc * ai_sched_gate :=
  match service_vm, copied with
  | true, Some ioc =>
      if negb (abi_version ioc =? ACRN_AI_SCHED_ABI_VERSION) || negb (ioc_size ioc =? ioc_sizeof) ||
         negb (reserved0 ioc =? 0)
      then (- EINVAL, Some (ioc <| ioc_status := ACRN_AI_SCHED_STATUS_BAD_PARAM |>), g)
      else
        let '(ret, ioc, g) := ai_sched_op plat vm now (ioc <| ioc_status := ACRN_AI_SCHED_STATUS_OK |>) g in
        let ioc :=
          if ret =? - EPERM then ioc <| ioc_status := ACRN_AI_SCHED_STATUS_DENIED |>
          else if ret =? - ENOTSUP then ioc <| ioc_status := ACRN_AI_SCHED_STATUS_UNSUPPORTED |>
          else if negb (ret =? 0) then ioc <| ioc_status := ACRN_AI_SCHED_STATUS_BAD_PARAM |> else ioc in
        (if copy_back then ret else - EINVAL, Some ioc, g)
  | _, _ => (- EINVAL, None, g)
  end.

(** ** What a proposal must satisfy *)

(** The VMs configured on a pCPU. *)
Definition uses (plat : platform) (pcpu id : Z) : Prop :=
  0 <= id < CONFIG_MAX_VM_NUM /\ ai_sched_vm_uses_pcpu (get_vm_config plat id) pcpu = true.

(** An entry names a VM of the pCPU and moves its configured budget by at most
    one step, inside the limits of the pool. *)
Definition entry_fits (plat : platform) (pool : sched_cpupool_config) (pcpu : Z) (e : acrn_ai_sched_entry) : Prop :=
  reserved e = 0 /\ uses plat pcpu (vmid e) /\
  ai_min_budget_us pool <= entry_budget_us e <= ai_max_budget_us pool /\
  Z.abs (entry_budget_us e - configured_budget plat pool (vmid e)) <= ai_max_step_us pool.

Definition utilization_of (pool : sched_cpupool_config) (es : list acrn_ai_sched_entry) : Z :=
  foldr (fun e s => entry_budget_us e * 1000000 / period_us pool + s) 0 es.

(** One entry for each VM of the pCPU and none else, each within the limits,
    the whole within the processor. *)
Definition proposal_fits (plat : platform) (pool : sched_cpupool_config) (pcpu : Z) (es : list acrn_ai_sched_entry) : Prop :=
  Forall (entry_fits plat pool pcpu) es /\ NoDup (vmid <$> es) /\
  (forall id, uses plat pcpu id -> id ∈ vmid <$> es) /\ utilization_of pool es <= 1000000.

(** The C types of an entry. *)
Definition entry_typed (e : acrn_ai_sched_entry) : Prop :=
  0 <= vmid e <= 65535 /\ in_u32 (entry_budget_us e).

Lemma vm_ids_elem id : id ∈ vm_ids <-> 0 <= id < CONFIG_MAX_VM_NUM.
Proof.
  unfold vm_ids. rewrite list_elem_of_fmap. split.
  - intros (n & -> & Hn%elem_of_seq). unfold CONFIG_MAX_VM_NUM in *. lia.
  - intros H. exists (Z.to_nat id). rewrite elem_of_seq. unfold CONFIG_MAX_VM_NUM in *. lia.
Qed.

(** No configured VM id is beyond the mask, and the mask is the set of the VMs
    of the pCPU. *)
Lemma active_loop_ok plat pcpu ids : forall mask, Forall (fun id => 0 <= id < CONFIG_MAX_VM_NUM) ids ->
  exists active, active_loop plat pcpu ids mask = inr active /\
    forall j, 0 <= j -> Z.testbit active j = true <->
      Z.testbit mask j = true \/ (j ∈ ids /\ uses plat pcpu j).
Proof.
  unfold CONFIG_MAX_VM_NUM.
  induction ids as [|id ids IH]; intros mask Hf; cbn [active_loop].
  { exists mask. split; [done|]. set_solver. }
  apply Forall_cons in Hf as [Hid Hf]. destruct (ai_sched_vm_uses_pcpu _ _) eqn:U.
  - rewrite (proj2 (Z.leb_gt 64 id)), shl_bit by lia.
    destruct (IH (Z.lor mask (2 ^ id)) Hf) as (a & E & H). exists a. split; [done|].
    intros j Hj. rewrite H, lor_pow2, elem_of_cons by lia. destruct (Z.eqb_spec id j) as [<-|].
    + rewrite orb_true_r. unfold uses, CONFIG_MAX_VM_NUM. naive_solver.
    + rewrite orb_false_r. naive_solver.
  - destruct (IH mask Hf) as (a & E & H). exists a. split; [done|]. intros j Hj.
    rewrite H, elem_of_cons by lia. split; [naive_solver|].
    intros [?|[[->|?] Hu]]; [auto| |auto]. destruct Hu as [_ Hu]. congruence.
Qed.

Lemma active_all plat pcpu : exists active, active_loop plat pcpu vm_ids 0 = inr active /\
  forall j, 0 <= j -> Z.testbit active j = true <-> uses plat pcpu j.
Proof.
  destruct (active_loop_ok plat pcpu vm_ids 0) as (a & E & H).
  { apply Forall_forall. intros id. by rewrite vm_ids_elem. }
  exists a. split; [done|]. intros j Hj. rewrite H, Z.bits_0, vm_ids_elem by done. unfold uses. intuition congruence.
Qed.

Lemma entry_rejected_iff plat pool pcpu active seen e :
  (forall j, 0 <= j -> Z.testbit active j = true <-> uses plat pcpu j) -> entry_typed e ->
  entry_rejected pool active seen e = false <->
  reserved e = 0 /\ uses plat pcpu (vmid e) /\ Z.testbit seen (vmid e) = false /\
  ai_min_budget_us pool <= entry_budget_us e <= ai_max_budget_us pool.
Proof.
  intros Ha [Hv _]. unfold entry_rejected. rewrite !orb_false_iff, !negb_false_iff, !Z.leb_gt, !Z.ltb_ge, Z.eqb_eq.
  destruct (decide (vmid e < CONFIG_MAX_VM_NUM)) as [Hm|Hm];
    [|split; [intros; tauto|intros (_ & [Hu _] & _); lia]].
  unfold CONFIG_MAX_VM_NUM in *. rewrite shl_bit, !land_pow2, negb_false_iff, negb_true_iff by lia.
  specialize (Ha (vmid e) ltac:(lia)). split; [tauto|]. intuition lia.
Qed.

Lemma utilization_nonneg pool es :
  0 < period_us pool -> Forall entry_typed es -> 0 <= utilization_of pool es.
Proof.
  intros Hp. unfold utilization_of. induction 1 as [|e es [_ He] Hes IH]; cbn [foldr]; [lia|].
  unfold in_u32 in He. pose proof (Z.div_pos (entry_budget_us e * 1000000) (period_us pool)). lia.
Qed.

(** The utilisation of an entry is exact: neither product nor sum wraps. *)
Lemma entry_utilization pool e util :
  0 < period_us pool -> entry_typed e -> 0 <= util <= 1000000 ->
  u64 (util + u64 (entry_budget_us e * 1000000) / period_us pool) = util + entry_budget_us e * 1000000 / period_us pool.
Proof.
  intros Hp [_ He] Hu. unfold in_u32 in He. rewrite (u64_small (_ * 1000000)) by (unfold in_u64; lia).
  apply u64_small. unfold in_u64.
  assert (entry_budget_us e * 1000000 / period_us pool <= entry_budget_us e * 1000000).
  { apply Z.div_le_upper_bound; nia. }
  pose proof (Z.div_pos (entry_budget_us e * 1000000) (period_us pool)). lia.
Qed.

(** The step test is a bound on the distance to the configured budget. *)
Lemma step_abs (b cur step : Z) :
  (step <? (if cur <? b then b - cur else cur - b)) = false <-> Z.abs (b - cur) <= step.
Proof. rewrite Z.ltb_ge. destruct (Z.ltb_spec cur b); lia. Qed.

(** A VM marked as seen is one that no later entry names. *)
Lemma seen_cons seen id es : 0 <= id -> Forall entry_typed es ->
  Forall (fun e => Z.testbit (Z.lor seen (2 ^ id)) (vmid e) = false) es <->
  Forall (fun e => Z.testbit seen (vmid e) = false) es /\ id ∉ vmid <$> es.
Proof.
  intros Hid. induction 1 as [|e es [Hv _] Ht IH]; [split; [split; [constructor|set_solver]|constructor]|].
  rewrite fmap_cons, !Forall_cons, IH, lor_pow2, orb_false_iff, Z.eqb_neq, elem_of_cons by lia. tauto.
Qed.

(** The loop over the entries accepts exactly the lists of fitting entries with
    distinct VMs that stay within the processor; it returns their mask and their
    utilisation. *)
Lemma entry_loop_ok plat pool pcpu active es : forall seen util,
  (forall j, 0 <= j -> Z.testbit active j = true <-> uses plat pcpu j) ->
  0 < period_us pool -> Forall entry_typed es -> 0 <= util <= 1000000 ->
  match entry_loop plat pool active es seen util with
  | inr (seen', util') =>
      Forall (entry_fits plat pool pcpu) es /\ NoDup (vmid <$> es) /\
      Forall (fun e => Z.testbit seen (vmid e) = false) es /\
      util' = util + utilization_of pool es /\ util' <= 1000000 /\
      forall j, 0 <= j -> Z.testbit seen' j = true <-> Z.testbit seen j = true \/ j ∈ vmid <$> es
  | inl ret => ret < 0 /\
      ~ (Forall (entry_fits plat pool pcpu) es /\ NoDup (vmid <$> es) /\
         Forall (fun e => Z.testbit seen (vmid e) = false) es /\ util + utilization_of pool es <= 1000000)
  end.
Proof.
  induction es as [|e es IH]; intros seen util Ha Hp Ht Hu; cbn [entry_loop].
  { cbn. rewrite Z.add_0_r. split_and!; [constructor..|done|lia|]. set_solver. }
  apply Forall_cons in Ht as [He Ht].
  pose proof (entry_rejected_iff plat pool pcpu active seen e Ha He) as Hg.
  pose proof (utilization_nonneg pool es Hp Ht) as Hn.
  destruct (entry_rejected _ _ _ _) eqn:G.
  { split; [done|]. intros ([(? & ? & ? & _) _]%Forall_cons & _ & [? _]%Forall_cons & _).
    assert (true = false) by (apply Hg; auto). done. }
  destruct (proj1 Hg eq_refl) as (Hr & Hus & Hse & Hb). clear Hg G.
  destruct (_ <? _) eqn:D.
  { split; [done|]. intros ([(_ & _ & _ & Hst) _]%Forall_cons & _).
    apply step_abs in Hst. congruence. }
  apply step_abs in D. rewrite entry_utilization by done.
  assert (entry_fits plat pool pcpu e) as Hfit by done.
  set (w := entry_budget_us e * 1000000 / period_us pool).
  assert (0 <= w) by (unfold entry_typed, in_u32 in He; apply Z.div_pos; lia).
  change (utilization_of pool (e :: es)) with (w + utilization_of pool es).
  destruct (Z.ltb_spec 1000000 (util + w)); [split; [done|]; intros (_ & _ & _ & ?); lia|].
  destruct Hus as [Hid Hus]. unfold CONFIG_MAX_VM_NUM in Hid. rewrite shl_bit by lia.
  pose proof (seen_cons seen (vmid e) es ltac:(lia) Ht) as Hiff.
  specialize (IH (Z.lor seen (2 ^ vmid e)) (util + w) Ha Hp Ht ltac:(lia)).
  destruct (entry_loop _ _ _ _ _ _) as [ret|[seen' util']].
  - destruct IH as [Hret IH]. split; [done|]. rewrite !Forall_cons, fmap_cons, NoDup_cons. intros (? & ? & ? & ?).
    apply IH. rewrite Hiff. split_and!; [tauto..|lia].
  - destruct IH as (Hf & Hnd & Hse' & Eu & Hle & Hbits). rewrite !Forall_cons, fmap_cons, NoDup_cons.
    apply Hiff in Hse' as [Hse' Hni]. split_and!; [done..|lia|lia|].
    intros j Hj. rewrite Hbits, lor_pow2, elem_of_cons, orb_true_iff, Z.eqb_eq by lia. intuition congruence.
Qed.

(** The entries of a call. *)
Definition proposed (ioc : acrn_ai_sched_ioc) : list acrn_ai_sched_entry :=
  take (Z.to_nat (entry_count ioc)) (entries ioc).

(** The header a proposal needs, and the pool it addresses. *)
Definition proposal_header (plat : platform) (ioc : acrn_ai_sched_ioc) (pool : sched_cpupool_config) : Prop :=
  ioc_pcpu_id ioc < pcpu_nums plat /\
  sched_get_pcpu_pool_config (sched_config plat) (ioc_pcpu_id ioc) = Some pool /\
  ai_assist pool = true /\ policy pool = SCHED_POLICY_CBS /\ period_us pool <> 0 /\
  sequence ioc <> 0 /\ entry_count ioc <> 0 /\ entry_count ioc <= ACRN_AI_SCHED_MAX_ENTRIES.

Lemma ai_sched_pool_iff plat ioc pool :
  ai_sched_pool plat ioc = inr pool <->
  ioc_pcpu_id ioc < pcpu_nums plat /\
  sched_get_pcpu_pool_config (sched_config plat) (ioc_pcpu_id ioc) = Some pool /\
  ai_assist pool = true /\ policy pool = SCHED_POLICY_CBS /\ period_us pool <> 0.
Proof.
  unfold ai_sched_pool. destruct (Z.leb_spec (pcpu_nums plat) (ioc_pcpu_id ioc)); [split; [done|lia]|].
  destruct (sched_get_pcpu_pool_config _ _) as [q|]; [|naive_solver].
  destruct (ai_assist q) eqn:A; cbn; [|split; [done|]; intros (_ & [= ->] & ? & _); congruence].
  case_bool_decide as P; cbn; [|naive_solver]. destruct (Z.eqb_spec (period_us q) 0); naive_solver.
Qed.

Lemma ai_sched_pool_err plat ioc ret : ai_sched_pool plat ioc = inl ret -> ret < 0.
Proof.
  unfold ai_sched_pool. repeat case_match; naive_solver.
Qed.

Lemma mask_eq_iff a b : (forall j, 0 <= j -> Z.testbit a j = true <-> Z.testbit b j = true) -> a = b.
Proof.
  intros H. apply Z.bits_inj'. intros j Hj. specialize (H j Hj).
  destruct (Z.testbit a j), (Z.testbit b j); intuition congruence.
Qed.

(** The verdict on a proposal with a good header. *)
Lemma validate_ok plat ioc pool :
  proposal_header plat ioc pool -> in_u32 (period_us pool) -> Forall entry_typed (entries ioc) ->
  let '(ret, ioc') := ai_sched_validate_proposal plat ioc in
  ret = 0 /\ proposal_fits plat pool (ioc_pcpu_id ioc) (proposed ioc) /\
    utilization_ppm ioc' = utilization_of pool (proposed ioc) \/
  ret < 0 /\ ~ proposal_fits plat pool (ioc_pcpu_id ioc) (proposed ioc).
Proof.
  intros (Hc & Hg & Ha & Hpo & Hp & Hs & Hn & Hm) Hu Ht. unfold ai_sched_validate_proposal.
  rewrite (proj2 (ai_sched_pool_iff plat ioc pool)) by done.
  rewrite (proj2 (Z.eqb_neq _ _) Hs), (proj2 (Z.eqb_neq _ _) Hn), (proj2 (Z.ltb_ge _ _) Hm). cbn [orb].
  destruct (active_all plat (ioc_pcpu_id ioc)) as (active & -> & Hact). fold (proposed ioc).
  pose proof (entry_loop_ok plat pool (ioc_pcpu_id ioc) active (proposed ioc) 0 0 Hact) as H.
  specialize (H ltac:(unfold in_u32 in Hu; lia) (Forall_take _ _ _ Ht) ltac:(lia)).
  assert (Forall (fun e => Z.testbit 0 (vmid e) = false) (proposed ioc)) as H0.
  { apply Forall_true. intros. apply Z.bits_0. }
  destruct (entry_loop _ _ _ _ _ _) as [ret|[seen util]].
  - right. destruct H as [Hr H]. split; [done|]. intros (Hf & Hnd & _ & Hle). by apply H.
  - destruct H as (Hf & Hnd & _ & -> & Hle & Hb). destruct (Z.eqb_spec seen active) as [->|Hne]; cbn; [left|right].
    + unfold proposal_fits. split_and!; [done..| |done|done]. intros id Hid.
      assert (0 <= id) by apply Hid. apply Hact, Hb in Hid as [Hz|]; [|done..]. by rewrite Z.bits_0 in Hz.
    + split; [done|]. intros (_ & _ & Hall & _). apply Hne, mask_eq_iff. intros j Hj.
      rewrite Hb, Hact, Z.bits_0 by done. split; [|by auto]. intros [?|Hin]; [done|].
      apply list_elem_of_fmap in Hin as (e & -> & Hin). eapply Forall_forall in Hf; [|exact Hin].
      by destruct Hf as (_ & ? & _).
Qed.

(** Without a good header nothing is accepted. *)
Lemma validate_header plat ioc :
  (ai_sched_validate_proposal plat ioc).1 = 0 -> exists pool, proposal_header plat ioc pool.
Proof.
  unfold ai_sched_validate_proposal. destruct (ai_sched_pool plat ioc) as [ret|pool] eqn:E.
  { apply ai_sched_pool_err in E. cbn. lia. }
  apply ai_sched_pool_iff in E as (? & ? & ? & ? & ?).
  destruct (Z.eqb_spec (sequence ioc) 0), (Z.eqb_spec (entry_count ioc) 0), (Z.ltb_spec ACRN_AI_SCHED_MAX_ENTRIES (entry_count ioc));
    try done. intros _. by exists pool.
Qed.

(** C40: a proposal is accepted exactly when it addresses an advised CBS pool
    with a sequence number and 1 to 16 entries, the entries name every VM
    configured on the pCPU once and nothing else, each budget is within the
    pool's limits and one step of the configured budget, and the budgets
    together are at most one processor (in parts per million).  The reported
    utilisation is then the exact sum. *)
Theorem ai_proposal_accepted_iff plat ioc :
  (forall pool, sched_get_pcpu_pool_config (sched_config plat) (ioc_pcpu_id ioc) = Some pool -> in_u32 (period_us pool)) ->
  Forall entry_typed (entries ioc) ->
  ((ai_sched_validate_proposal plat ioc).1 = 0 <->
   exists pool, proposal_header plat ioc pool /\ proposal_fits plat pool (ioc_pcpu_id ioc) (proposed ioc)) /\
  (forall pool, proposal_header plat ioc pool -> (ai_sched_validate_proposal plat ioc).1 = 0 ->
   utilization_ppm (ai_sched_validate_proposal plat ioc).2 = utilization_of pool (proposed ioc)).
Proof.
  intros Hu Ht. pose proof (fun pool Hh => validate_ok plat ioc pool Hh (Hu pool (proj1 (proj2 Hh))) Ht) as V.
  pose proof (validate_header plat ioc) as H.
  destruct (ai_sched_validate_proposal plat ioc) as [ret ioc']. cbn in *. split; [split|].
  - intros E. destruct (H E) as [pool Hh]. destruct (V pool Hh) as [(_ & Hf & _)|[? _]]; [by exists pool|lia].
  - intros (pool & Hh & Hf). destruct (V pool Hh) as [[? _]|[_ ?]]; done.
  - intros pool Hh E. destruct (V pool Hh) as [(_ & _ & ?)|[? _]]; [done|lia].
Qed.

(** Two VMs of an advised pool, moved from 2 ms of 4 ms each to 1 ms and 3 ms. *)
Definition ex_ai_pool : sched_cpupool_config :=
  mk_pool true true 3 SCHED_POLICY_CBS 4000 2000 true 500 3000 1000 10.
Definition ex_ai_plat : platform :=
  mk_platform 62500 4 (mk_plat_config true false ex_pool ex_ai_pool)
    [mk_vm_config false 1 0 [] ex_params; mk_vm_config false 1 0 [] ex_params].
Definition ex_proposal (ms : Z) : acrn_ai_sched_ioc :=
  mk_ioc ACRN_AI_SCHED_OP_PROPOSE 0 1 ioc_sizeof 7 1 0 2 0 0 SCHED_POLICY_NONE 0 0 0 0 0 ms 0 0
    [mk_ai_entry 0 0 1000; mk_ai_entry 1 0 3000].

Lemma ai_proposal_accepted_iff_witness :
  exists pool, proposal_header ex_ai_plat (ex_proposal 10) pool /\
    proposal_fits ex_ai_plat pool 0 (proposed (ex_proposal 10)).
Proof.
  refine (proj1 (proj1 (ai_proposal_accepted_iff ex_ai_plat (ex_proposal 10) _ _)) _).
  - intros pool Eq. vm_compute in Eq. injection Eq as <-. by vm_compute.
  - by repeat constructor.
  - vm_compute. reflexivity.
Defined.

(** ** Who is served

    The calls the hypervisor handles, in order, and what each leaves. *)
Inductive gate_event :=
| Hypercall (service_vm : bool) (vm now : Z) (copied : option acrn_ai_sched_ioc) (copy_back : bool)
| VmGone (vm : Z).

Definition gate_step (plat : platform) (ev : gate_event) (g : ai_sched_gate) : ai_sched_gate :=
  match ev with
  | Hypercall s vm now c b => (hcall_ai_sched plat s vm now c b g).2
  | VmGone vm => ai_sched_invalidate_vm vm g
  end.

Definition gate_run (plat : platform) (evs : list gate_event) : ai_sched_gate :=
  foldl (fun g ev => gate_step plat ev g) ai_sched_gate_init evs.

Definition header_good (ioc : acrn_ai_sched_ioc) : bool :=
  (abi_version ioc =? ACRN_AI_SCHED_ABI_VERSION) && (ioc_size ioc =? ioc_sizeof) && (reserved0 ioc =? 0).

Definition registers (ioc : acrn_ai_sched_ioc) : bool :=
  header_good ioc && (op ioc =? ACRN_AI_SCHED_OP_REGISTER) &&
  (capability ioc =? 0) && (sequence ioc =? 0) && (entry_count ioc =? 0).

(** The advisor a history leaves: the last VM that registered, unless that VM
    has gone since. *)
Definition advisor_after (holder : option Z) (ev : gate_event) : option Z :=
  match ev with
  | Hypercall true vm _ (Some ioc) _ => if registers ioc then Some vm else holder
  | Hypercall _ _ _ _ _ => holder
  | VmGone vm => if bool_decide (holder = Some vm) then None else holder
  end.
Definition advisor_of (evs : list gate_event) : option Z := foldl advisor_after None evs.

(** The VM ids of callers are not the invalid id. *)
Definition event_ok (ev : gate_event) : Prop :=
  match ev with Hypercall _ vm _ _ _ => vm <> ACRN_INVALID_VMID | VmGone vm => vm <> ACRN_INVALID_VMID end.

Definition gate_tracks (g : ai_sched_gate) (holder : option Z) : Prop :=
  advisor_vmid g = default ACRN_INVALID_VMID holder /\ holder <> Some ACRN_INVALID_VMID /\
  (holder = None -> gate_capability g = 0).

(** An operation other than a registration keeps advisor and capability. *)
Lemma propose_keeps plat now ioc g :
  advisor_vmid (ai_sched_propose plat now ioc g).2 = advisor_vmid g /\
  gate_capability (ai_sched_propose plat now ioc g).2 = gate_capability g.
Proof. unfold ai_sched_propose. by repeat case_match. Qed.

Lemma hcall_tracks plat s vm now c b g holder :
  vm <> ACRN_INVALID_VMID -> gate_tracks g holder ->
  gate_tracks (hcall_ai_sched plat s vm now c b g).2 (advisor_after holder (Hypercall s vm now c b)).
Proof.
  intros Hvm Hg. unfold hcall_ai_sched, advisor_after, registers, header_good.
  destruct s; [|done]. destruct c as [ioc|]; [|done].
  destruct (abi_version ioc =? _); [|done]. destruct (ioc_size ioc =? _); [|done].
  destruct (reserved0 ioc =? 0); [|done]. cbn [negb orb andb].
  unfold ai_sched_op. set (ioc' := ioc <| ioc_status := _ |>).
  change (op ioc') with (op ioc). destruct (op ioc =? ACRN_AI_SCHED_OP_REGISTER); cbn [andb].
  - unfold ai_sched_register.
    change (capability ioc') with (capability ioc). change (sequence ioc') with (sequence ioc).
    change (entry_count ioc') with (entry_count ioc).
    destruct (capability ioc =? 0); [|done]. destruct (sequence ioc =? 0); [|done].
    destruct (entry_count ioc =? 0); [|done]. cbn [negb orb andb].
    unfold gate_tracks. destruct (Z.lxor _ _ =? 0); cbn; split_and!; congruence.
  - destruct (_ || _ || _); [done|]. destruct (op ioc =? _); [by destruct (ai_sched_snapshot _ _ _)|].
    destruct (op ioc =? _); [|done]. pose proof (propose_keeps plat now ioc' g) as [E1 E2].
    destruct (ai_sched_propose _ _ _ _) as [[ret r] g']. cbn in *. unfold gate_tracks. by rewrite E1, E2.
Qed.

Lemma gate_run_tracks plat evs : Forall event_ok evs -> gate_tracks (gate_run plat evs) (advisor_of evs).
Proof.
  unfold gate_run, advisor_of.
  assert (gate_tracks ai_sched_gate_init None) as H0 by done. revert H0.
  generalize ai_sched_gate_init, (@None Z). intros g holder Hg Hf. revert g holder Hg.
  induction Hf as [|ev evs Hev Hf IH]; intros g holder Hg; [done|]. cbn [foldl]. apply IH.
  destruct ev as [s vm now c b|vm]; [by apply hcall_tracks|].
  cbn [gate_step advisor_after]. unfold ai_sched_invalidate_vm. destruct Hg as (Ha & Hn & Hc). cbn in Hev.
  case_bool_decide as E; destruct (Z.eqb_spec (advisor_vmid g) vm) as [E'|E']; unfold gate_tracks.
  - done.
  - rewrite E in Ha. done.
  - destruct holder; cbn in *; congruence.
  - done.
Qed.

(** in every history only the registered advisor is served.  A hypercall
    that is not a registration and succeeds comes from the last VM that
    registered and has not gone since, with the capability of the gate; all
    other callers get an error and leave the gate as it was. *)
Theorem ai_only_advisor_served plat evs s vm now ioc b r out g' :
  Forall event_ok evs -> vm <> ACRN_INVALID_VMID -> op ioc <> ACRN_AI_SCHED_OP_REGISTER ->
  hcall_ai_sched plat s vm now (Some ioc) b (gate_run plat evs) = (r, out, g') ->
  (r = 0 -> advisor_of evs = Some vm /\ capability ioc = gate_capability (gate_run plat evs)) /\
  (advisor_of evs <> Some vm \/ capability ioc <> gate_capability (gate_run plat evs) ->
   r < 0 /\ g' = gate_run plat evs).
Proof.
  intros Hevs Hvm Hop. destruct (gate_run_tracks plat evs Hevs) as (Ha & Hn & Hc).
  unfold hcall_ai_sched. destruct s; [|intros [= <- <- <-]; done].
  destruct (_ || _ || negb (reserved0 ioc =? 0)); [intros [= <- <- <-]; done|].
  unfold ai_sched_op. set (ioc' := ioc <| ioc_status := _ |>).
  change (op ioc') with (op ioc). change (capability ioc') with (capability ioc).
  rewrite (proj2 (Z.eqb_neq _ _) Hop). destruct (_ || _ || _) eqn:G.
  - destruct b; cbn; intros [= <- <- <-]; done.
  - rewrite !orb_false_iff, !negb_false_iff, !Z.eqb_eq, Z.eqb_neq in G. destruct G as [[G1 G2] G3].
    assert (advisor_of evs = Some vm) as Hs.
    { destruct (advisor_of evs) as [h|]; cbn in Ha; [congruence|]. by specialize (Hc eq_refl). }
    intros _. split; [by split|]. intros [?|?]; done.
Qed.

(** VM 3 registers and proposes with the capability it was given. *)
Definition ex_register : acrn_ai_sched_ioc :=
  mk_ioc ACRN_AI_SCHED_OP_REGISTER 0 1 ioc_sizeof 0 0 0 0 0 0 SCHED_POLICY_NONE 0 0 0 0 0 0 0 0 [].
Definition ex_history : list gate_event := [Hypercall true 3 5 (Some ex_register) true].

Lemma ai_only_advisor_served_witness :
  (hcall_ai_sched ex_ai_plat true 3 1000 (Some (ex_proposal 10)) true (gate_run ex_ai_plat ex_history)).1.1 = 0 /\
  advisor_of ex_history = Some 3.
Proof.
  split; [vm_compute; reflexivity|].
  apply (ai_only_advisor_served ex_ai_plat ex_history true 3 1000 (ex_proposal 10) true
    (hcall_ai_sched ex_ai_plat true 3 1000 (Some (ex_proposal 10)) true (gate_run ex_ai_plat ex_history)).1.1
    (hcall_ai_sched ex_ai_plat true 3 1000 (Some (ex_proposal 10)) true (gate_run ex_ai_plat ex_history)).1.2
    (hcall_ai_sched ex_ai_plat true 3 1000 (Some (ex_proposal 10)) true (gate_run ex_ai_plat ex_history)).2).
  - by repeat constructor.
  - done.
  - done.
  - vm_compute. reflexivity.
  - vm_compute. reflexivity.
Defined.

(** The pool asks for 10 ms between proposals, the interval enforced is the one
    in the caller's payload: with [min_update_ms] 0 a second proposal is accepted
    one tick after the first. *)
Theorem ai_rate_limit_from_guest :
  let g := gate_run ex_ai_plat ex_history in
  let '(r1, _, g1) := hcall_ai_sched ex_ai_plat true 3 1000 (Some (ex_proposal 0)) true g in
  let '(r2, _, g2) := hcall_ai_sched ex_ai_plat true 3 1001 (Some (ex_proposal 0)) true g1 in
  ai_min_update_ms ex_ai_pool = 10 /\ r1 = 0 /\ r2 = 0 /\ last_proposal_ticks g2 !!! 0%nat = 1001.
Proof. vm_compute. done. Qed.
