(* ===== verification/Notify.v ===== *)
(** * Calls on other pCPUs

    core/notify.c: a caller publishes a callback in the mailbox of every target
    pCPU and waits for the acknowledgements; the interrupt handler of a target runs
    the callback and clears its bit.  Callers and handlers of all pCPUs interleave
    between any two accesses to the shared variables, which the model makes one
    step each, in sequentially consistent order. *)
From S2P Require Import Prelude Bits Ticks SchedTypes.

(** ** State *)
Record smp_call_info_data := { sc_func : Z; sc_data : Z; sc_generation : Z }.
#[export] Instance smp_call_info_data_eta : Eta smp_call_info_data := fun r =>
  {| sc_func := sc_func r; sc_data := sc_data r; sc_generation := sc_generation r |}.

(** The variables of notify.c and the mailboxes of the pCPUs. *)
Record smp_shared := {
  smp_call_mask : Z;
  smp_call_owner : Z;
  smp_call_next_generation : Z;
  smp_call_active_generation : Z;
  smp_call_info : Z -> smp_call_info_data;
}.
#[export] Instance smp_shared_eta : Eta smp_shared := fun r =>
  {| smp_call_mask := smp_call_mask r; smp_call_owner := smp_call_owner r;
     smp_call_next_generation := smp_call_next_generation r;
     smp_call_active_generation := smp_call_active_generation r; smp_call_info := smp_call_info r |}.

Definition set_info (p : Z) (f : smp_call_info_data -> smp_call_info_data) (m : smp_shared) : smp_shared :=
  m <| smp_call_info := fun q => if q =? p then f (smp_call_info m p) else smp_call_info m q |>.

(** The bits of a mask held in a variable. *)
Definition test_bit (nr w : Z) : bool := bitmap_test nr [w] 0.
Definition clear_bit (nr w : Z) : Z := word (bitmap_clear_non_atomic nr [w] 0) 0.

(** A callback that was run: the pCPU, the function, its argument and the
    generation it was run for. *)
Record ran := { ran_on : Z; ran_func : Z; ran_data : Z; ran_for : Z }.

(** ** The interrupt handler

    Where [kick_notification] is, with its local variables. *)
Inductive kick_at :=
| KTest
| KGeneration
| KFunc (generation : Z)
| KData (generation func : Z)
| KCheck (generation func data : Z)
| KCall (generation func data : Z)
| KRecheck (generation : Z)
| KOwn (generation : Z)
| KClear (generation : Z).

Definition kick_notification (pcpu : Z) (k : kick_at) (m : smp_shared) : option kick_at * smp_shared * list ran :=
  match k with
  | KTest => (if test_bit pcpu (smp_call_mask m) then Some KGeneration else None, m, [])
  | KGeneration => (Some (KFunc (sc_generation (smp_call_info m pcpu))), m, [])
  | KFunc g => (Some (KData g (sc_func (smp_call_info m pcpu))), m, [])
  | KData g f => (Some (KCheck g f (sc_data (smp_call_info m pcpu))), m, [])
  | KCheck g f d =>
      (Some (if negb (g =? 0) && (g =? smp_call_active_generation m) && negb (f =? 0) then KCall g f d else KRecheck g), m, [])
  | KCall g f d => (Some (KRecheck g), m, [{| ran_on := pcpu; ran_func := f; ran_data := d; ran_for := g |}])
  | KRecheck g => (if negb (g =? 0) && (g =? smp_call_active_generation m) then Some (KOwn g) else None, m, [])
  | KOwn g => (if g =? sc_generation (smp_call_info m pcpu) then Some (KClear g) else None, m, [])
  | KClear g => (None, m <| smp_call_mask := clear_bit pcpu (smp_call_mask m) |>, [])
  end.

(** ** The caller

    Where [smp_call_function_common] is; [rest] is the part of the mask that is not
    yet handled. *)
Inductive call_at :=
| SAcquire
| SContended
| SAcquired
| SGeneration
| SGeneration2
| SActive
| SMask
| SNext (rest : Z)
| SSelf (rest : Z)
| SLoad (rest pcpu : Z)
| SStore (rest seen : Z)
| SFunc (rest pcpu : Z)
| SData (rest pcpu : Z)
| SPublish (rest pcpu : Z)
| SWait
| SLate
| SRevoke (completed : bool)
| SInfo (completed : bool) (rest : Z)
| SInfoGeneration (completed : bool) (rest pcpu : Z)
| SInfoFunc (completed : bool) (rest pcpu : Z)
| SInfoData (completed : bool) (rest pcpu : Z)
| SClearMask
| SRelease (ret : Z)
| SDone (ret : Z).

Record smp_call := {
  c_pcpu : Z;
  c_mask : Z;
  c_func : Z;
  c_data : Z;
  c_deadline : Z;
  c_try : bool;
  c_generation : Z;
  c_at : call_at;
}.
#[export] Instance smp_call_eta : Eta smp_call := fun r =>
  {| c_pcpu := c_pcpu r; c_mask := c_mask r; c_func := c_func r; c_data := c_data r; c_deadline := c_deadline r;
     c_try := c_try r; c_generation := c_generation r; c_at := c_at r |}.

Definition smp_call_deadline_expired (now deadline : Z) : bool := 0 <=? s64 (u64 (now - deadline)).

Section Calls.
Context (khz : Z) (is_pcpu_active : Z -> bool).

Definition begin_call (now pcpu mask func data timeout_us : Z) (try_acquire : bool) : smp_call :=
  {| c_pcpu := pcpu; c_mask := mask; c_func := func; c_data := data;
     c_deadline := u64 (now + us_to_ticks khz timeout_us); c_try := try_acquire; c_generation := 0;
     c_at := if (mask =? 0) || (func =? 0) || (timeout_us =? 0) then SDone (- EINVAL) else SAcquire |}.

(** [smp_call_acquire], [smp_call_function_common], [wait_smp_call_done] and
    [clear_smp_call_info], one access to a shared variable at a time.  The interrupt
    that is sent after a mailbox is published has no effect of its own: a handler
    may start at any time. *)
Definition call_step (now : Z) (c : smp_call) (m : smp_shared) : smp_call * smp_shared * list ran :=
  let go s := c <| c_at := s |> in
  match c_at c with
  | SAcquire =>
      if smp_call_owner m =? 0 then (go SAcquired, m <| smp_call_owner := 1 |>, [])
      else (go (if c_try c then SDone (- EBUSY) else SContended), m, [])
  | SContended => (go (if smp_call_deadline_expired now (c_deadline c) then SDone (- ETIMEDOUT) else SAcquire), m, [])
  | SAcquired => (go (if smp_call_deadline_expired now (c_deadline c) then SRelease (- ETIMEDOUT) else SGeneration), m, [])
  | SGeneration =>
      let g := u64 (smp_call_next_generation m + 1) in
      ((go (if g =? 0 then SGeneration2 else SActive)) <| c_generation := g |>, m <| smp_call_next_generation := g |>, [])
  | SGeneration2 =>
      let g := u64 (smp_call_next_generation m + 1) in
      ((go SActive) <| c_generation := g |>, m <| smp_call_next_generation := g |>, [])
  | SActive => (go SMask, m <| smp_call_active_generation := c_generation c |>, [])
  | SMask => (go (SNext (c_mask c)), m <| smp_call_mask := c_mask c |>, [])
  | SNext rest =>
      let p := ffs64 rest in
      if p <? MAX_PCPU_NUM then
        let rest := clear_bit p rest in
        (go (if p =? c_pcpu c then SSelf rest else if is_pcpu_active p then SFunc rest p else SLoad rest p), m, [])
      else (go SWait, m, [])
  | SSelf rest =>
      (go (SLoad rest (c_pcpu c)), m,
       [{| ran_on := c_pcpu c; ran_func := c_func c; ran_data := c_data c; ran_for := c_generation c |}])
  | SLoad rest p => (go (SStore rest (clear_bit p (smp_call_mask m))), m, [])
  | SStore rest seen => (go (SNext rest), m <| smp_call_mask := seen |>, [])
  | SFunc rest p => (go (SData rest p), set_info p (fun i => i <| sc_func := c_func c |>) m, [])
  | SData rest p => (go (SPublish rest p), set_info p (fun i => i <| sc_data := c_data c |>) m, [])
  | SPublish rest p => (go (SNext rest), set_info p (fun i => i <| sc_generation := c_generation c |>) m, [])
  | SWait => (go (if smp_call_mask m =? 0 then SRevoke true else SLate), m, [])
  | SLate => (go (if smp_call_deadline_expired now (c_deadline c) then SRevoke false else SWait), m, [])
  | SRevoke completed => (go (SInfo completed (c_mask c)), m <| smp_call_active_generation := 0 |>, [])
  | SInfo completed rest =>
      let p := ffs64 rest in
      (go (if p <? MAX_PCPU_NUM then SInfoGeneration completed rest p
           else if completed then SRelease 0 else SClearMask), m, [])
  | SInfoGeneration completed rest p => (go (SInfoFunc completed rest p), set_info p (fun i => i <| sc_generation := 0 |>) m, [])
  | SInfoFunc completed rest p => (go (SInfoData completed rest p), set_info p (fun i => i <| sc_func := 0 |>) m, [])
  | SInfoData completed rest p => (go (SInfo completed (clear_bit p rest)), set_info p (fun i => i <| sc_data := 0 |>) m, [])
  | SClearMask => (go (SRelease (- ETIMEDOUT)), m <| smp_call_mask := 0 |>, [])
  | SRelease ret => (go (SDone ret), m <| smp_call_owner := 0 |>, [])
  | SDone ret => (c, m, [])
  end.

(** ** Interleavings *)
Record smp_world := {
  w_shared : smp_shared;
  w_now : Z;
  w_calls : list smp_call;
  w_kicks : gmap Z kick_at;
  w_ran : list ran;
}.

Inductive smp_event :=
| Call (pcpu mask func data timeout_us : Z) (try_acquire : bool)
| Run (i : nat)
| Interrupt (pcpu : Z)
| Handle (pcpu : Z)
| Tick (ticks : Z).

(** A call starts, call [i] or the handler of a pCPU takes a step, a pCPU takes the
    interrupt (one at a time, it is masked in the handler), or time passes. *)
Definition smp_step (e : smp_event) (w : smp_world) : option smp_world :=
  match e with
  | Call pcpu mask func data timeout_us try_acquire =>
      Some {| w_shared := w_shared w; w_now := w_now w; w_kicks := w_kicks w; w_ran := w_ran w;
              w_calls := w_calls w ++ [begin_call (w_now w) pcpu mask func data timeout_us try_acquire] |}
  | Run i =>
      c ← w_calls w !! i;
      let '(c', m, es) := call_step (w_now w) c (w_shared w) in
      Some {| w_shared := m; w_now := w_now w; w_calls := <[i := c']> (w_calls w); w_kicks := w_kicks w; w_ran := w_ran w ++ es |}
  | Interrupt pcpu =>
      match w_kicks w !! pcpu with
      | Some _ => None
      | None => Some {| w_shared := w_shared w; w_now := w_now w; w_calls := w_calls w; w_ran := w_ran w;
                        w_kicks := <[pcpu := KTest]> (w_kicks w) |}
      end
  | Handle pcpu =>
      k ← w_kicks w !! pcpu;
      let '(k', m, es) := kick_notification pcpu k (w_shared w) in
      Some {| w_shared := m; w_now := w_now w; w_calls := w_calls w; w_ran := w_ran w ++ es;
              w_kicks := match k' with Some k' => <[pcpu := k']> (w_kicks w) | None => delete pcpu (w_kicks w) end |}
  | Tick t => Some {| w_shared := w_shared w; w_now := u64 (w_now w + t); w_calls := w_calls w; w_kicks := w_kicks w; w_ran := w_ran w |}
  end.

Definition no_mailbox : smp_call_info_data := {| sc_func := 0; sc_data := 0; sc_generation := 0 |}.
Definition smp_init : smp_world :=
  {| w_shared := {| smp_call_mask := 0; smp_call_owner := 0; smp_call_next_generation := 0;
                    smp_call_active_generation := 0; smp_call_info := fun _ => no_mailbox |};
     w_now := 0; w_calls := []; w_kicks := ∅; w_ran := [] |}.

Definition event_ok (e : smp_event) : Prop :=
  match e with
  | Call pcpu mask _ _ _ _ => 0 <= pcpu < MAX_PCPU_NUM /\ in_u64 mask
  | Interrupt pcpu => 0 <= pcpu < MAX_PCPU_NUM
  | _ => True
  end.

(** Histories of fewer than 2^64 calls, so that generations are not reused. *)
Inductive smp_reach : smp_world -> Prop :=
| smp_reach_init : smp_reach smp_init
| smp_reach_step e w w' : smp_reach w -> event_ok e -> smp_call_next_generation (w_shared w) < UINT64_MAX ->
    smp_step e w = Some w' -> smp_reach w'.

Fixpoint smp_run (es : list smp_event) (w : smp_world) : option smp_world :=
  match es with
  | [] => Some w
  | e :: es => w ← smp_step e w; smp_run es w
  end.
End Calls.

(** ** Bits of a mask *)
Lemma test_bit_eq r w : 0 <= r < 64 -> test_bit r w = Z.testbit w r.
Proof. intros H. unfold test_bit. by rewrite bitmap_test_spec, bit_nr_small. Qed.

Lemma clear_bit_eq p w r : 0 <= p < 64 -> 0 <= r < 64 -> Z.testbit (clear_bit p w) r = Z.testbit w r && negb (p =? r).
Proof. intros Hp Hr. unfold clear_bit. rewrite clear_bits by (cbn; lia). by rewrite bit_nr_small. Qed.

Lemma clear_bit_u64 p w : in_u64 w -> in_u64 (clear_bit p w).
Proof.
  intros H. unfold clear_bit, bitmap_clear_non_atomic. rewrite word_set by (cbn; lia). cbn.
  apply land_u64; [done|]. apply u64_range.
Qed.

Lemma clear_bit_sub p w r : Z.testbit (clear_bit p w) r = true -> Z.testbit w r = true.
Proof.
  unfold clear_bit, bitmap_clear_non_atomic. rewrite word_set by (cbn; lia). cbn. rewrite Z.land_spec.
  by intros [? _]%andb_true_iff.
Qed.

(** The loops take the lowest bit; they stop when no pCPU number is left. *)
Lemma ffs64_cases w : let p := ffs64 w in
  if p <? MAX_PCPU_NUM then 0 <= p < MAX_PCPU_NUM /\ Z.testbit w p = true
  else forall r, 0 <= r < MAX_PCPU_NUM -> Z.testbit w r = false.
Proof.
  cbn zeta. unfold ffs64. pose proof (ffs_from_spec w 64 0) as H. cbn zeta in H.
  destruct (Z.ltb_spec (ffs_from w 0 64) MAX_PCPU_NUM) as [Hl|Hg]; unfold MAX_PCPU_NUM in *.
  - destruct H as [[E _]|(H1 & H2 & _)]; [lia|]. split; [lia|done].
  - intros r Hr. destruct H as [[_ H]|(H1 & _ & H)]; apply H; lia.
Qed.

(** ** Two races *)
Section Races.
Let run := smp_run 62500 (fun p => p <? 3).

(** pCPU 1 calls function 7 on the pCPUs 0 and 1.  pCPU 0 acknowledges between
    the two accesses of the non-atomic clear of pCPU 1's own bit. *)
Definition lost_ack : list smp_event :=
  [Call 1 3 7 9 100000 false] ++ replicate 12 (Run 0) ++ [Interrupt 0] ++ replicate 9 (Handle 0) ++
  replicate 4 (Run 0) ++ [Tick 10000000] ++ replicate 14 (Run 0).

(** Finding: the acknowledgement is overwritten.  Both pCPUs have run the callback
    and no handler is left that could clear the bit, but the caller waits for the
    whole timeout and reports a failure. *)
Lemma smp_call_ack_lost : match run lost_ack smp_init with
  | Some w => (c_at <$> w_calls w) = [SDone (- ETIMEDOUT)] /\ w_kicks w = ∅ /\ (ran_on <$> w_ran w) = [1; 0]
  | None => False
  end.
Proof. vm_compute. split_and!; reflexivity. Qed.

(** pCPU 1 calls function 7 on pCPU 0, whose handler is about to clear its bit when
    the call times out.  pCPU 2 then calls function 8 on pCPU 0. *)
Definition stale_ack : list smp_event :=
  [Call 1 1 7 9 100000 false] ++ replicate 9 (Run 0) ++ [Interrupt 0] ++ replicate 8 (Handle 0) ++ [Tick 10000000] ++
  replicate 14 (Run 0) ++ [Call 2 1 8 9 100000 false] ++ replicate 9 (Run 1) ++ [Handle 0] ++ replicate 14 (Run 1).

(** Finding: the stale handler acknowledges the second call, which returns success
    although function 8 was never run. *)
Lemma smp_call_stale_ack : match run stale_ack smp_init with
  | Some w => (c_at <$> w_calls w) = [SDone (- ETIMEDOUT); SDone 0] /\ (ran_func <$> w_ran w) = [7]
  | None => False
  end.
Proof. vm_compute. split_and!; reflexivity. Qed.
End Races.

(** ** Invariant *)
Section Invariant.
Context (is_pcpu_active : Z -> bool).

(** The stages of the owner of the mailboxes; those in which its generation is
    active; those from the publication of the mask on. *)
Definition owning (s : call_at) : bool := match s with SAcquire | SContended | SDone _ => false | _ => true end.
Definition live (s : call_at) : bool :=
  match s with
  | SMask | SNext _ | SSelf _ | SLoad _ _ | SStore _ _ | SFunc _ _ | SData _ _ | SPublish _ _ | SWait | SLate | SRevoke _ => true
  | _ => false
  end.
Definition masked (s : call_at) : bool :=
  match s with
  | SNext _ | SSelf _ | SLoad _ _ | SStore _ _ | SFunc _ _ | SData _ _ | SPublish _ _ | SWait | SLate | SRevoke _
  | SInfo _ _ | SInfoGeneration _ _ _ | SInfoFunc _ _ _ | SInfoData _ _ _ | SClearMask => true
  | _ => false
  end.

(** A call that published its mailboxes and timed out. *)
Definition gave_up (c : smp_call) : bool :=
  match c_at c with
  | SRevoke b | SInfo b _ | SInfoGeneration b _ _ | SInfoFunc b _ _ | SInfoData b _ _ => negb b
  | SClearMask => true
  | SRelease ret | SDone ret => negb (ret =? 0) && negb (c_generation c =? 0)
  | _ => false
  end.

(** The pCPUs that get a mailbox. *)
Definition target (c : smp_call) (r : Z) : Prop :=
  Z.testbit (c_mask c) r = true /\ 0 <= r < MAX_PCPU_NUM /\ r <> c_pcpu c /\ is_pcpu_active r = true.

(** Those whose mailbox may hold a generation. *)
Definition published (s : call_at) (r : Z) : Prop :=
  match s with
  | SNext rest | SSelf rest | SLoad rest _ | SStore rest _ => Z.testbit rest r = false
  | SFunc rest p | SData rest p | SPublish rest p => Z.testbit rest r = false /\ r <> p
  | SWait | SLate | SRevoke _ => True
  | SInfo _ rest | SInfoGeneration _ rest _ => Z.testbit rest r = true
  | SInfoFunc _ rest p | SInfoData _ rest p => Z.testbit rest r = true /\ r <> p
  | _ => False
  end.

Definition request (c : smp_call) (r : Z) : ran :=
  {| ran_on := r; ran_func := c_func c; ran_data := c_data c; ran_for := c_generation c |}.

Definition subset (rest : Z) (c : smp_call) : Prop := forall r, Z.testbit rest r = true -> Z.testbit (c_mask c) r = true.

(** Facts about the local variables and the mailbox being written. *)
Definition stage_ok (c : smp_call) (m : smp_shared) : Prop :=
  match c_at c with
  | SAcquired | SGeneration => c_generation c = 0
  | SGeneration2 => False
  | SNext rest | SStore rest _ => subset rest c
  | SSelf rest => subset rest c /\ Z.testbit (c_mask c) (c_pcpu c) = true
  | SLoad rest p => subset rest c /\ 0 <= p < MAX_PCPU_NUM /\ ~ target c p
  | SFunc rest p => subset rest c /\ Z.testbit rest p = false /\ target c p
  | SData rest p => subset rest c /\ Z.testbit rest p = false /\ target c p /\ sc_func (smp_call_info m p) = c_func c
  | SPublish rest p => subset rest c /\ Z.testbit rest p = false /\ target c p /\ sc_func (smp_call_info m p) = c_func c /\ sc_data (smp_call_info m p) = c_data c
  | SInfoGeneration _ _ p | SInfoFunc _ _ p | SInfoData _ _ p => 0 <= p < MAX_PCPU_NUM
  | SRelease ret => ret = 0 -> c_generation c <> 0
  | _ => True
  end /\ (live (c_at c) || masked (c_at c) = true -> c_generation c <> 0) /\ (c_at c = SActive -> c_generation c <> 0).

(** The generation a handler has loaded. *)
Definition kick_gen (k : kick_at) : Z :=
  match k with
  | KTest | KGeneration => 0
  | KFunc g | KData g _ | KCheck g _ _ | KCall g _ _ | KRecheck g | KOwn g | KClear g => g
  end.

(** A handler that has loaded the active generation has loaded its callback. *)
Definition kick_ok (m : smp_shared) (A : ran -> Prop) (r : Z) (k : kick_at) : Prop :=
  0 <= r < MAX_PCPU_NUM /\ 0 <= kick_gen k <= smp_call_next_generation m /\
  (kick_gen k <> 0 -> kick_gen k = smp_call_active_generation m ->
    sc_generation (smp_call_info m r) = kick_gen k /\
    match k with
    | KData _ f => f = sc_func (smp_call_info m r)
    | KCheck _ f d => f = sc_func (smp_call_info m r) /\ d = sc_data (smp_call_info m r)
    | _ => True
    end) /\
  match k with
  | KCall g f d => A {| ran_on := r; ran_func := f; ran_data := d; ran_for := g |}
  | KOwn g | KClear g => g <> 0
  | _ => True
  end.

(** A pCPU of the mask needs no further acknowledgement. *)
Definition settled (rn : list ran) (c : smp_call) (r : Z) : Prop :=
  (r <> c_pcpu c /\ is_pcpu_active r = false) \/ request c r ∈ rn.
Definition all_settled (rn : list ran) (c : smp_call) : Prop :=
  forall r, 0 <= r < 64 -> Z.testbit (c_mask c) r = true -> settled rn c r.
Definition cover (rn : list ran) (c : smp_call) (v : Z) : Prop :=
  forall r, 0 <= r < 64 -> Z.testbit (c_mask c) r = true -> Z.testbit v r = true \/ settled rn c r.

(** The mask of a call that has not timed out. *)
Definition mask_ok (rn : list ran) (c : smp_call) (v : Z) : Prop :=
  in_u64 v /\
  match c_at c with
  | SNext _ | SSelf _ | SFunc _ _ | SData _ _ | SPublish _ _ | SWait | SLate => cover rn c v
  | SLoad _ p => cover rn c v /\ settled rn c p
  | SStore _ seen => cover rn c v /\ cover rn c seen /\ in_u64 seen /\ forall r, target c r -> Z.testbit v r = true -> Z.testbit seen r = true
  | SRevoke _ | SInfo _ _ | SInfoGeneration _ _ _ | SInfoFunc _ _ _ | SInfoData _ _ _ => v = 0 /\ all_settled rn c
  | SClearMask => False
  | SRelease ret => v = 0 /\ (ret = 0 -> all_settled rn c)
  | _ => v = 0
  end.

(** A handler past its test of the mask, while no call has timed out. *)
Definition kick_live (o : option smp_call) (m : smp_shared) (rn : list ran) (r : Z) (k : kick_at) : Prop :=
  (forall c, o = Some c -> masked (c_at c) = true -> target c r -> Z.testbit (smp_call_mask m) r = true) /\
  (kick_gen k <> 0 -> exists c, o = Some c /\ masked (c_at c) = true /\ c_generation c = kick_gen k /\ target c r /\
    match k with
    | KCall _ f d => f = c_func c /\ d = c_data c
    | KRecheck _ | KOwn _ | KClear _ => request c r ∈ rn
    | _ => True
    end).

(** [o] is the call that owns the mailboxes, [A] the callbacks that were asked for. *)
Record core (o : option smp_call) (m : smp_shared) (ks : gmap Z kick_at) (rn : list ran) (A : ran -> Prop) (late : bool) : Prop := {
  core_owner : smp_call_owner m = match o with Some _ => 1 | None => 0 end;
  core_active : smp_call_active_generation m =
    match o with Some c => if live (c_at c) then c_generation c else 0 | None => 0 end;
  core_next : 0 <= smp_call_next_generation m;
  core_call : forall c, o = Some c -> owning (c_at c) = true /\ in_u64 (c_mask c) /\ 0 <= c_pcpu c < MAX_PCPU_NUM /\
    c_func c <> 0 /\ 0 <= c_generation c <= smp_call_next_generation m /\ stage_ok c m /\
    (c_at c = SActive -> forall r k, ks !! r = Some k -> kick_gen k < c_generation c) /\
    (c_generation c <> 0 -> forall r, Z.testbit (c_mask c) r = true -> A (request c r));
  core_info : forall r, sc_generation (smp_call_info m r) <> 0 -> exists c, o = Some c /\
    sc_generation (smp_call_info m r) = c_generation c /\ target c r /\ published (c_at c) r /\
    sc_func (smp_call_info m r) = c_func c /\ sc_data (smp_call_info m r) = c_data c;
  core_kicks : forall r k, ks !! r = Some k -> kick_ok m A r k;
  core_ran : Forall A rn;
  core_mask : late = false -> match o with Some c => gave_up c = false /\ mask_ok rn c (smp_call_mask m) | None => smp_call_mask m = 0 end;
  core_live : late = false -> forall r k, ks !! r = Some k -> k <> KTest -> kick_live o m rn r k;
}.

(** *** Monotonicity *)
Lemma core_mono o m ks rn A A' late late' : core o m ks rn A late -> (forall e, A e -> A' e) -> (late' = false -> late = false) ->
  core o m ks rn A' late'.
Proof.
  intros [C1 C2 C3 C4 C5 C6 C7 C8 C9] HA HL. constructor; auto.
  - intros c E. destruct (C4 c E) as (? & ? & ? & ? & ? & ? & ? & Hr). do 7 (split; [done|]). auto.
  - intros r k E. destruct (C6 r k E) as (? & ? & ? & Hk). do 3 (split; [done|]). destruct k; auto.
  - eapply Forall_impl; [exact C7|]. auto.
  - intros E. by apply C8, HL.
Qed.

Lemma settled_mono rn es c r : settled rn c r -> settled (rn ++ es) c r.
Proof. intros [?|?]; [by left|right; set_solver]. Qed.

Lemma cover_mono rn es c v : cover rn c v -> cover (rn ++ es) c v.
Proof. intros H r Hr Hb. destruct (H r Hr Hb) as [?|?]; [by left|right; by apply settled_mono]. Qed.

Lemma all_settled_mono rn es c : all_settled rn c -> all_settled (rn ++ es) c.
Proof. intros H r Hr Hb. apply settled_mono. by apply H. Qed.

Lemma mask_ok_mono rn es c v : mask_ok rn c v -> mask_ok (rn ++ es) c v.
Proof.
  intros [Hu H]. split; [done|]. destruct (c_at c); intuition auto using cover_mono, settled_mono, all_settled_mono.
Qed.

Lemma kick_live_mono o m rn es r k : kick_live o m rn r k -> kick_live o m (rn ++ es) r k.
Proof.
  intros [H1 H2]. split; [done|]. intros Hg. destruct (H2 Hg) as (c & E1 & E2 & E3 & E4 & E5). exists c. do 4 (split; [done|]).
  destruct k; try done; set_solver.
Qed.

(** *** Steps of a handler *)

(** A handler gets new local variables, and runs callbacks that were asked for. *)
Lemma core_kick o m ks rn A late r k' es : core o m ks rn A late -> kick_ok m A r k' -> Forall A es ->
  (forall c, o = Some c -> c_at c = SActive -> kick_gen k' < c_generation c) ->
  (late = false -> k' <> KTest -> kick_live o m (rn ++ es) r k') ->
  core o m (<[r := k']> ks) (rn ++ es) A late.
Proof.
  intros [C1 C2 C3 C4 C5 C6 C7 C8 C9] Hk Hes Hf Hl. constructor; try done.
  - intros c E. destruct (C4 c E) as (? & ? & ? & ? & ? & ? & Hfr & Hr). do 6 (split; [done|]). split; [|done].
    intros Ea r0 k0 [[<- <-]|[_ E0]]%lookup_insert_Some; [by apply Hf|by eapply Hfr].
  - intros r0 k0 [[<- <-]|[_ E0]]%lookup_insert_Some; [done|by apply C6].
  - by apply Forall_app.
  - intros E. specialize (C8 E). destruct o as [c|]; [|done]. destruct C8. split; [done|by apply mask_ok_mono].
  - intros E r0 k0 [[<- <-]|[_ E0]]%lookup_insert_Some Hne; [by apply Hl|]. apply kick_live_mono. by apply C9.
Qed.

(** A handler returns. *)
Lemma core_unkick o m ks rn A late r : core o m ks rn A late -> core o m (delete r ks) rn A late.
Proof.
  intros [C1 C2 C3 C4 C5 C6 C7 C8 C9]. constructor; try done.
  - intros c E. destruct (C4 c E) as (? & ? & ? & ? & ? & ? & Hfr & Hr). do 6 (split; [done|]). split; [|done].
    intros Ea r0 k0 [_ E0]%lookup_delete_Some. by eapply Hfr.
  - intros r0 k0 [_ E0]%lookup_delete_Some. by apply C6.
  - intros E r0 k0 [_ E0]%lookup_delete_Some Hne. by apply C9.
Qed.

(** A handler clears the bit of its pCPU after it ran the callback. *)
Lemma core_clear o m ks rn A late r g : core o m ks rn A late -> ks !! r = Some (KClear g) -> g <> 0 ->
  core o (m <| smp_call_mask := clear_bit r (smp_call_mask m) |>) (delete r ks) rn A late.
Proof.
  intros C Hk Hg. destruct C as [C1 C2 C3 C4 C5 C6 C7 C8 C9]. destruct (C6 r _ Hk) as (Hr & _). unfold MAX_PCPU_NUM in Hr.
  constructor; try done.
  - intros c E. destruct (C4 c E) as (? & ? & ? & ? & ? & ? & Hfr & Hrq). do 6 (split; [done|]). split; [|done].
    intros Ea r0 k0 [_ E0]%lookup_delete_Some. by eapply Hfr.
  - intros r0 k0 [_ E0]%lookup_delete_Some. by apply C6.
  - intros HL. destruct (C9 HL r _ Hk) as [_ H2]; [done|]. destruct (H2 Hg) as (c & -> & Hm & _ & Ht & Hin).
    specialize (C8 HL). cbn in C8. destruct C8 as [Hgu [Hu Hmk]]. split; [done|]. split; [by apply clear_bit_u64|]. cbn.
    assert (forall v, cover rn c v -> cover rn c (clear_bit r v)) as Hc.
    { intros v Hv r0 Hr0 Hb. destruct (Hv r0 Hr0 Hb) as [Hb'|]; [|by right]. destruct (Z.eqb_spec r r0) as [<-|Hne]; [right; by right|].
      left. rewrite clear_bit_eq by lia. rewrite Hb'. by rewrite (proj2 (Z.eqb_neq _ _) Hne). }
    assert (Z.testbit (smp_call_mask m) r = true) as Hbit by (destruct (C9 HL r _ Hk) as [H1 _]; [done|by apply (H1 c)]).
    destruct (c_at c); try done; try (by apply Hc); try (destruct Hmk as [Hm0 _]; by rewrite Hm0, Z.bits_0 in Hbit).
    + destruct Hmk. split; [by apply Hc|done].
    + destruct Hmk as (H1 & H3 & H4 & H5). split; [by apply Hc|split; [done|split; [done|]]]. intros r0 Ht0 Hb. apply H5; [done|].
      destruct Ht0 as (_ & Hr0 & _). unfold MAX_PCPU_NUM in Hr0. rewrite clear_bit_eq in Hb by lia. by apply andb_true_iff in Hb as [? _].
  - intros HL r0 k0 [Hne E0]%lookup_delete_Some Hnt. destruct (C9 HL r0 k0 E0 Hnt) as [H1 H2]. split; [|done].
    intros c E Hm Ht. cbn. destruct (C6 r0 k0 E0) as (Hr0 & _). unfold MAX_PCPU_NUM in Hr0. rewrite clear_bit_eq by lia.
    rewrite (H1 c E Hm Ht). by rewrite (proj2 (Z.eqb_neq _ _) Hne).
Qed.

Lemma published_masked s r : published s r -> masked s = true.
Proof. by destruct s. Qed.

(** While no call has timed out, a handler that has loaded a generation has loaded
    the one of a call that still waits for it. *)
Lemma live_kick o m ks rn A r k : core o m ks rn A false -> ks !! r = Some k -> kick_gen k <> 0 ->
  exists c, o = Some c /\ c_generation c = kick_gen k /\ smp_call_active_generation m = kick_gen k /\ c_func c <> 0 /\
    sc_func (smp_call_info m r) = c_func c /\ sc_data (smp_call_info m r) = c_data c.
Proof.
  intros [C1 C2 C3 C4 C5 C6 C7 C8 C9] Hk Hg. destruct (C9 eq_refl r k Hk) as [H1 H2]; [by intros ->|].
  destruct (H2 Hg) as (c & -> & Hm & Eg & Ht & _). destruct (C4 c eq_refl) as (_ & _ & _ & Hf & _).
  assert (smp_call_active_generation m = kick_gen k) as Ea.
  { rewrite C2, <- Eg. destruct (live (c_at c)) eqn:El; [done|]. destruct (C8 eq_refl) as [_ [_ Hmk]].
    specialize (H1 c eq_refl Hm Ht). destruct (c_at c); try done; destruct Hmk as [Hm0 _]; by rewrite Hm0, Z.bits_0 in H1. }
  destruct (C6 r k Hk) as (_ & _ & H3 & _). destruct (H3 Hg ltac:(done)) as [Hi _].
  destruct (C5 r ltac:(by rewrite Hi)) as (c' & [= <-] & _ & _ & _ & F & D). exists c. done.
Qed.

Section Handler.
Context (o : option smp_call) (m : smp_shared) (ks : gmap Z kick_at) (rn : list ran) (A : ran -> Prop) (late : bool) (r : Z) (k : kick_at).
Hypothesis C : core o m ks rn A late.
Hypothesis Hk : ks !! r = Some k.

(** A handler that moves on with the generation it has loaded. *)
Lemma kick_fresh k' : kick_gen k' = kick_gen k -> forall c, o = Some c -> c_at c = SActive -> kick_gen k' < c_generation c.
Proof.
  intros E c Ec Es. destruct (core_call _ _ _ _ _ _ C c Ec) as (_ & _ & _ & _ & _ & _ & Hf & _). rewrite E. by eapply Hf.
Qed.

Lemma kick_live_next k' es : k <> KTest -> kick_gen k' = kick_gen k -> late = false ->
  (kick_gen k <> 0 -> forall c, o = Some c -> c_generation c = kick_gen k ->
     match k with KCall _ f d => f = c_func c /\ d = c_data c | KRecheck _ | KOwn _ | KClear _ => request c r ∈ rn | _ => True end ->
     match k' with KCall _ f d => f = c_func c /\ d = c_data c | KRecheck _ | KOwn _ | KClear _ => request c r ∈ rn ++ es | _ => True end) ->
  kick_live o m (rn ++ es) r k'.
Proof.
  intros Hnt Eg HL Hm. destruct (core_live _ _ _ _ _ _ C HL r k Hk Hnt) as [H1 H2]. split; [done|]. rewrite Eg. intros Hn.
  destruct (H2 Hn) as (c & Ec & Hmk & Egc & Ht & Hl). exists c. do 4 (split; [done|]). by apply Hm.
Qed.

Lemma kick_move k' es : k <> KTest -> kick_gen k' = kick_gen k -> kick_ok m A r k' -> Forall A es ->
  (late = false -> kick_gen k <> 0 -> forall c, o = Some c -> c_generation c = kick_gen k ->
     match k with KCall _ f d => f = c_func c /\ d = c_data c | KRecheck _ | KOwn _ | KClear _ => request c r ∈ rn | _ => True end ->
     match k' with KCall _ f d => f = c_func c /\ d = c_data c | KRecheck _ | KOwn _ | KClear _ => request c r ∈ rn ++ es | _ => True end) ->
  core o m (<[r := k']> ks) (rn ++ es) A late.
Proof.
  intros Hnt Eg Ho Hes Hm. apply core_kick; [done..|by apply kick_fresh|]. intros HL _. apply kick_live_next; [done..|]. by apply Hm.
Qed.

Lemma kick_return : core o m (delete r ks) (rn ++ []) A late.
Proof. rewrite app_nil_r. by apply core_unkick. Qed.

End Handler.

Lemma kick_generation_ok o m ks rn A late r : core o m ks rn A late -> ks !! r = Some KGeneration ->
  core o m (<[r := KFunc (sc_generation (smp_call_info m r))]> ks) (rn ++ []) A late.
Proof.
  intros C Hk. destruct (core_kicks _ _ _ _ _ _ C r _ Hk) as (Hr & Hg & _). set (g := sc_generation (smp_call_info m r)).
  assert (g <> 0 -> 0 <= g <= smp_call_next_generation m) as Hb.
  { intros Hn. destruct (core_info _ _ _ _ _ _ C r Hn) as (c & Ec & Eg & _). destruct (core_call _ _ _ _ _ _ C c Ec) as (_ & _ & _ & _ & ? & _). unfold g. lia. }
  apply core_kick; [done| |done| |].
  - split; [done|split; [cbn in *; destruct (decide (g = 0)); lia|done]].
  - intros c Ec Es. cbn. destruct (core_call _ _ _ _ _ _ C c Ec) as (_ & _ & _ & _ & Hcg & (_ & _ & Hz) & _). specialize (Hz Es).
    destruct (decide (g = 0)) as [->|Hn]; [lia|]. destruct (core_info _ _ _ _ _ _ C r Hn) as (c' & Ec' & _ & _ & Hp & _).
    rewrite Ec in Ec'. injection Ec' as <-. by rewrite Es in Hp.
  - intros HL _. destruct (core_live _ _ _ _ _ _ C HL r _ Hk ltac:(done)) as [H1 _]. split; [done|]. cbn. intros Hn.
    destruct (core_info _ _ _ _ _ _ C r Hn) as (c & Ec & Eg & Ht & Hp & _). exists c. split_and!; try done. by eapply published_masked.
Qed.

(** The check before the call lets the callback of the active generation pass. *)
Lemma kick_check_ok o m ks rn A late r g f d : core o m ks rn A late -> ks !! r = Some (KCheck g f d) ->
  core o m (<[r := if negb (g =? 0) && (g =? smp_call_active_generation m) && negb (f =? 0) then KCall g f d else KRecheck g]> ks)
    (rn ++ []) A late.
Proof.
  intros C Hk. destruct (core_kicks _ _ _ _ _ _ C r _ Hk) as (Hr & Hg & Ha & _). cbn [kick_gen] in *.
  destruct (_ && _) eqn:Ec; apply (kick_move _ _ _ _ _ _ _ _ C Hk); try done.
  - apply andb_true_iff in Ec as [[Hn%negb_true_iff%Z.eqb_neq Ea%Z.eqb_eq]%andb_true_iff _]. destruct (Ha Hn Ea) as (Hi & -> & ->).
    destruct (core_info _ _ _ _ _ _ C r ltac:(by rewrite Hi)) as (c & Ec & Eg & Ht & _ & -> & ->).
    destruct (core_call _ _ _ _ _ _ C c Ec) as (_ & _ & _ & _ & _ & _ & _ & HA).
    split; [done|split; [done|split; [|cbn]]]; [cbn; intros; by destruct (Ha Hn Ea)|].
    assert (g = c_generation c) as -> by congruence. apply HA; [congruence|apply Ht].
  - intros HL Hn c Eo Egc _. apply andb_true_iff in Ec as [[_ Ea%Z.eqb_eq]%andb_true_iff _]. destruct (Ha Hn Ea) as (Hi & -> & ->).
    destruct (core_info _ _ _ _ _ _ C r ltac:(by rewrite Hi)) as (c' & Ec' & _ & _ & _ & -> & ->). split; congruence.
  - split; [done|split; [done|split; [|done]]]. cbn. intros Hn Ea. by destruct (Ha Hn Ea).
  - intros HL Hn. exfalso. subst late. destruct (live_kick _ _ _ _ _ _ _ C Hk Hn) as (c & _ & _ & Ea & Hf & Ef & _). cbn in Ea.
    destruct (Ha Hn ltac:(done)) as (_ & -> & _). rewrite Ea, Ef in Ec.
    by rewrite (proj2 (Z.eqb_neq g 0) Hn), (proj2 (Z.eqb_neq _ 0) Hf), Z.eqb_refl in Ec.
Qed.

Lemma kick_step_ok o m ks rn A late r k k' m' es : core o m ks rn A late -> ks !! r = Some k ->
  kick_notification r k m = (k', m', es) ->
  core o m' (match k' with Some k' => <[r := k']> ks | None => delete r ks end) (rn ++ es) A late.
Proof.
  intros C Hk E. destruct (core_kicks _ _ _ _ _ _ C r k Hk) as (Hr & Hg & Ha & Hx). pose proof (kick_return _ _ _ _ _ _ r C) as Hret.
  pose proof (kick_move _ _ _ _ _ _ _ _ C Hk) as Hmove.
  destruct k as [| |g|g f|g f d|g f d|g|g|g]; cbn in E; injection E as <- <- <-; cbn [kick_gen] in *.
  - destruct (test_bit r (smp_call_mask m)) eqn:Et; [|done].
    apply core_kick; [done|split; [done|split; [done|done]]|done|by apply (kick_fresh _ _ _ _ _ _ _ _ C Hk)|]. intros HL _. split; [|done].
    intros c _ _ _. by rewrite <- test_bit_eq by (unfold MAX_PCPU_NUM in Hr; lia).
  - by apply (kick_generation_ok _ _ _ _ _ _ _ C Hk).
  - apply Hmove; try done. split; [done|split; [done|split; [|done]]]. cbn. intros Hn Ea. by destruct (Ha Hn Ea).
  - apply Hmove; try done. split; [done|split; [done|split; [|done]]]. cbn. intros Hn Ea. by destruct (Ha Hn Ea).
  - by apply (kick_check_ok _ _ _ _ _ _ _ _ _ _ C Hk).
  - apply Hmove; try done; [by apply Forall_singleton|].
    intros HL Hn c _ Eg [-> ->]. apply elem_of_app. right. apply list_elem_of_singleton. unfold request. by rewrite Eg.
  - destruct (_ && _) eqn:Ec; [|done]. apply andb_true_iff in Ec as [Hn%negb_true_iff%Z.eqb_neq _].
    apply Hmove; try done. intros; by rewrite app_nil_r.
  - destruct (_ =? _) eqn:Ec; [|done]. apply Hmove; try done. intros; by rewrite app_nil_r.
  - rewrite app_nil_r. by apply (core_clear _ _ _ _ _ _ _ g).
Qed.

(** *** Steps of the owner *)
Lemma core_own c c' m m' ks rn es A late : core (Some c) m ks rn A late ->
  c_pcpu c' = c_pcpu c -> c_mask c' = c_mask c -> c_func c' = c_func c -> c_data c' = c_data c ->
  owning (c_at c') = true -> smp_call_owner m' = 1 ->
  smp_call_active_generation m' = (if live (c_at c') then c_generation c' else 0) ->
  smp_call_next_generation m <= smp_call_next_generation m' -> 0 <= c_generation c' <= smp_call_next_generation m' ->
  stage_ok c' m' -> (c_at c' = SActive -> forall r k, ks !! r = Some k -> kick_gen k < c_generation c') ->
  (c_generation c' <> 0 -> forall r, Z.testbit (c_mask c') r = true -> A (request c' r)) ->
  (forall r, sc_generation (smp_call_info m' r) <> 0 -> sc_generation (smp_call_info m' r) = c_generation c' /\ target c r /\
    published (c_at c') r /\ sc_func (smp_call_info m' r) = c_func c /\ sc_data (smp_call_info m' r) = c_data c) ->
  (forall r k, ks !! r = Some k -> kick_gen k <> 0 -> kick_gen k = smp_call_active_generation m' ->
    kick_gen k = smp_call_active_generation m /\ (sc_generation (smp_call_info m r) <> 0 -> smp_call_info m' r = smp_call_info m r)) ->
  Forall A es ->
  (late = false -> mask_ok rn c (smp_call_mask m) -> gave_up c' = false /\ mask_ok (rn ++ es) c' (smp_call_mask m')) ->
  (late = false -> mask_ok rn c (smp_call_mask m) -> masked (c_at c') = true -> forall r, target c r ->
    (masked (c_at c) = true -> Z.testbit (smp_call_mask m) r = true) -> Z.testbit (smp_call_mask m') r = true) ->
  (late = false -> mask_ok rn c (smp_call_mask m) -> masked (c_at c) = true ->
    (masked (c_at c') = true /\ c_generation c' = c_generation c) \/ smp_call_mask m = 0) ->
  core (Some c') m' ks (rn ++ es) A late.
Proof.
  intros [C1 C2 C3 C4 C5 C6 C7 C8 C9] E1 E2 E3 E4 Ho Hw Ha Hn Hg Hs Hf HA Hi Hk Hes Hm Hl1 Hl2.
  destruct (C4 c eq_refl) as (_ & Hu & Hp & Hfn & _).
  assert (forall r, target c' r <-> target c r) as Ht by (intros r; unfold target; by rewrite E1, E2).
  constructor; try done.
  - lia.
  - intros c0 [= <-]. split; [done|]. rewrite E1, E2, E3. do 5 (split; [done|]). split; [done|]. by rewrite <- E2.
  - intros r Hr. destruct (Hi r Hr) as (G & T & P & F & D). exists c'. rewrite E3, E4. split_and!; try done. by apply Ht.
  - intros r k E. destruct (C6 r k E) as (H1 & H2 & H3 & H4). split; [done|split; [lia|split; [|done]]]. intros Hz Hact.
    destruct (Hk r k E Hz Hact) as [Hold Hinf]. destruct (H3 Hz Hold) as [Hgen Hl]. by rewrite Hinf by congruence.
  - by apply Forall_app.
  - intros HL. specialize (C8 HL). cbn in C8. destruct C8 as [_ Hmk]. by apply Hm.
  - intros HL r k E Hnt. destruct (C9 HL r k E Hnt) as [H1 H2]. specialize (C8 HL). cbn in C8. destruct C8 as [_ Hmk]. split.
    + intros c0 [= <-] Hmm Htr%Ht. apply Hl1; try done. intros Hmc. by apply (H1 c).
    + intros Hz. destruct (H2 Hz) as (c0 & [= <-] & Hmm & Egc & Htr & Hx). specialize (H1 c eq_refl Hmm Htr).
      destruct (Hl2 HL Hmk Hmm) as [[Hm' Eg']|H0]; [|by rewrite H0, Z.bits_0 in H1].
      exists c'. split; [done|split; [done|split; [congruence|split; [by apply Ht|]]]].
      unfold request. rewrite E3, E4, Eg'. destruct k; try done; set_solver.
Qed.

(** A step that only moves on. *)
Lemma core_move c s m ks rn A late : core (Some c) m ks rn A late -> let c' := c <| c_at := s |> in
  owning s = true -> live s = live (c_at c) -> s <> SActive -> stage_ok c' m ->
  (forall r, target c r -> published (c_at c) r -> published s r) ->
  (late = false -> mask_ok rn c (smp_call_mask m) -> gave_up c' = false /\ mask_ok rn c' (smp_call_mask m)) ->
  (masked s = true -> masked (c_at c) = true) ->
  (late = false -> mask_ok rn c (smp_call_mask m) -> masked (c_at c) = true -> masked s = true \/ smp_call_mask m = 0) ->
  core (Some c') m ks (rn ++ []) A late.
Proof.
  intros C c' Ho Hl Ha Hs Hp Hm H1 H2. pose proof C as [C1 C2 C3 C4 C5 _ _ _ _].
  destruct (C4 c eq_refl) as (_ & _ & _ & _ & Hg & _ & _ & HA).
  apply (core_own c c' m m ks rn [] A late C); try done.
  - by rewrite C2; subst c'; cbn; rewrite Hl.
  - intros r Hr. destruct (C5 r Hr) as (c0 & [= <-] & G & T & P & F & D). split_and!; try done; [apply T..|]. by apply Hp.
  - rewrite app_nil_r. done.
  - intros HL Hmk Hms r Ht Hb. apply Hb. by apply H1.
  - intros HL Hmk Hms. destruct (H2 HL Hmk Hms); auto.
Qed.


Section Owner.
Context (now : Z) (c : smp_call) (m : smp_shared) (ks : gmap Z kick_at) (rn : list ran) (A : ran -> Prop) (late : bool).
Hypothesis C : core (Some c) m ks rn A late.
Hypothesis Hnext : smp_call_next_generation m < UINT64_MAX.

Definition owner_step_ok : Prop := forall c' m' es, call_step is_pcpu_active now c m = (c', m', es) ->
  (late = false -> gave_up c' = false) ->
  (c_generation c' <> 0 -> forall r, Z.testbit (c_mask c') r = true -> A (request c' r)) ->
  core (if owning (c_at c') then Some c' else None) m' ks (rn ++ es) A late.

Lemma owner_facts : in_u64 (c_mask c) /\ 0 <= c_pcpu c < MAX_PCPU_NUM /\ c_func c <> 0 /\
  0 <= c_generation c <= smp_call_next_generation m /\ stage_ok c m.
Proof. destruct (core_call _ _ _ _ _ _ C c eq_refl) as (_ & ? & ? & ? & ? & ? & _). done. Qed.

Lemma owner_active : smp_call_active_generation m = if live (c_at c) then c_generation c else 0.
Proof. apply (core_active _ _ _ _ _ _ C). Qed.

Lemma unpublished p : ~ published (c_at c) p -> sc_generation (smp_call_info m p) = 0.
Proof.
  intros Hn. destruct (decide (sc_generation (smp_call_info m p) = 0)) as [|Hz]; [done|].
  by destruct (core_info _ _ _ _ _ _ C p Hz) as (c0 & [= <-] & _ & _ & Hp & _).
Qed.

Lemma acquired_ok : c_at c = SAcquired -> owner_step_ok.
Proof.
  intros Es c' m' es E Hgu HA. unfold call_step in E. rewrite Es in E. injection E as <- <- <-.
  destruct owner_facts as (_ & _ & _ & _ & Hs & _). rewrite Es in Hs.
  replace (owning _) with true by (by destruct (smp_call_deadline_expired _ _)).
  apply (core_move c _ m ks rn A late C).
  - by destruct (smp_call_deadline_expired _ _).
  - rewrite Es. by destruct (smp_call_deadline_expired _ _).
  - by destruct (smp_call_deadline_expired _ _).
  - unfold stage_ok. cbn. by destruct (smp_call_deadline_expired _ _).
  - rewrite Es. done.
  - intros HL [Hu Hm]. rewrite Es in Hm. split; [by apply Hgu|]. split; [done|]. cbn. by destruct (smp_call_deadline_expired _ _).
  - by destruct (smp_call_deadline_expired _ _).
  - rewrite Es. done.
Qed.

Lemma generation_ok : c_at c = SGeneration -> owner_step_ok.
Proof.
  intros Es c' m' es E Hgu HA. unfold call_step in E. rewrite Es in E.
  pose proof (core_next _ _ _ _ _ _ C). rewrite u64_small in E by (unfold in_u64; lia).
  rewrite (proj2 (Z.eqb_neq _ 0)) in E by lia. injection E as <- <- <-. cbn [c_at owning].
  pose proof owner_active as Hact. rewrite Es in Hact. cbn in Hact.
  apply (core_own c _ m _ ks rn [] A late C); try done; cbn; try lia.
  - apply (core_owner _ _ _ _ _ _ C).
  - split; [done|]. cbn. split; [done|]. intros _. lia.
  - intros _ r k Hk. destruct (core_kicks _ _ _ _ _ _ C r k Hk) as (_ & ? & _). lia.
  - intros r Hr. by rewrite unpublished in Hr by (rewrite Es; auto).
  - intros HL [Hu Hm]. rewrite Es in Hm. by split; [|split].
  - rewrite Es. done.
Qed.

Lemma active_ok : c_at c = SActive -> owner_step_ok.
Proof.
  intros Es c' m' es E Hgu HA. unfold call_step in E. rewrite Es in E. injection E as <- <- <-. cbn [c_at owning].
  destruct owner_facts as (_ & _ & _ & Hg & (_ & _ & Hz)). specialize (Hz Es).
  apply (core_own c _ m _ ks rn [] A late C); try done; cbn.
  - apply (core_owner _ _ _ _ _ _ C).
  - intros r Hr. by rewrite unpublished in Hr by (rewrite Es; auto).
  - intros r k Hk _ Hkg. destruct (core_call _ _ _ _ _ _ C c eq_refl) as (_ & _ & _ & _ & _ & _ & Hf & _). specialize (Hf Es r k Hk). lia.
  - intros HL [Hu Hm]. rewrite Es in Hm. by split; [|split].
  - rewrite Es. done.
Qed.

Lemma mask_stage_ok : c_at c = SMask -> owner_step_ok.
Proof.
  intros Es c' m' es E Hgu HA. unfold call_step in E. rewrite Es in E. injection E as <- <- <-. cbn [c_at owning].
  destruct owner_facts as (Hu & _ & _ & Hg & (_ & Hz & _)). rewrite Es in Hz.
  pose proof owner_active as Hact. rewrite Es in Hact. cbn in Hact.
  apply (core_own c _ m _ ks rn [] A late C); try done; cbn.
  - apply (core_owner _ _ _ _ _ _ C).
  - split; [by intros r|]. split; [by intros _; apply Hz|done].
  - intros r Hr. by rewrite unpublished in Hr by (rewrite Es; auto).
  - intros HL [_ Hm]. split; [done|]. split; [done|]. intros r Hr Hb. by left.
  - intros HL _ _ r (Hb & _) _. done.
  - rewrite Es. done.
Qed.


(** What is left of a step that only moves on, from stage [Es]. *)
Ltac move_on Es := cbn [c_at owning]; apply (core_move c _ m ks rn A late C); try done; try (by rewrite Es); try (rewrite Es; cbn; by auto);
  try (intros HL [? Hm]; rewrite Es in Hm; by auto).

Lemma next_ok rest : c_at c = SNext rest -> owner_step_ok.
Proof.
  intros Es c' m' es E Hgu HA. unfold call_step in E. rewrite Es in E.
  destruct owner_facts as (Hu & Hpc & _ & Hg & (Hs & Hz & _)). rewrite Es in Hs, Hz. specialize (Hz eq_refl).
  pose proof (ffs64_cases rest) as Hc. cbn zeta in Hc, E. set (p := ffs64 rest) in *. clearbody p.
  assert (forall r, Z.testbit rest r = false -> Z.testbit (clear_bit p rest) r = false) as Hd.
  { intros r Hr. apply not_true_iff_false. intros Hn%clear_bit_sub. congruence. }
  assert (subset (clear_bit p rest) c) as Hsub by (intros r Hr%clear_bit_sub; by apply Hs).
  destruct (p <? MAX_PCPU_NUM).
  - destruct Hc as [Hp Hb]. pose proof (Hs p Hb) as Hb'. destruct (Z.eqb_spec p (c_pcpu c)) as [Ep|Hne]; [|destruct (is_pcpu_active p) eqn:Ea];
      injection E as <- <- <-; move_on Es.
    + split; [cbn; split; [done|congruence]|done].
    + split; [|done]. cbn. split; [done|split; [|done]]. unfold MAX_PCPU_NUM in Hp. by rewrite clear_bit_eq, Z.eqb_refl, andb_false_r by lia.
    + rewrite Es. intros r Ht Hp'. split; [by apply Hd|]. cbn in Hp'. intros ->. congruence.
    + split; [|done]. cbn. split; [done|split; [done|]]. intros (_ & _ & _ & ?). congruence.
    + intros HL [? Hm]. rewrite Es in Hm. split; [done|split; [done|split; [done|by left]]].
  - injection E as <- <- <-. move_on Es.
Qed.

Lemma self_ok rest : c_at c = SSelf rest -> owner_step_ok.
Proof.
  intros Es c' m' es E Hgu HA. unfold call_step in E. rewrite Es in E. injection E as <- <- <-. cbn [c_at owning].
  destruct owner_facts as (Hu & Hpc & _ & Hg & (Hs & Hz & _)). rewrite Es in Hs, Hz. specialize (Hz eq_refl). destruct Hs as [Hs Hb].
  pose proof owner_active as Hact. rewrite Es in Hact. cbn in Hact.
  apply (core_own c _ m _ ks rn _ A late C); try done; cbn.
  - apply (core_owner _ _ _ _ _ _ C).
  - split; [|done]. cbn. split; [done|split; [done|]]. intros (_ & _ & ? & _). done.
  - intros r Hr. destruct (core_info _ _ _ _ _ _ C r Hr) as (c0 & [= <-] & ? & ? & Hp & ? & ?). rewrite Es in Hp. done.
  - apply Forall_singleton. by apply HA.
  - intros HL [? Hm]. rewrite Es in Hm. split; [done|]. split; [done|]. split; [by apply cover_mono|]. right.
    apply elem_of_app. right. by apply list_elem_of_singleton.
  - rewrite Es. auto.
  - rewrite Es. auto.
Qed.

Lemma load_stage_ok rest p : c_at c = SLoad rest p -> owner_step_ok.
Proof.
  intros Es c' m' es E Hgu HA. unfold call_step in E. rewrite Es in E. injection E as <- <- <-.
  destruct owner_facts as (Hu & Hpc & _ & Hg & (Hs & Hz & _)). rewrite Es in Hs, Hz. specialize (Hz eq_refl).
  destruct Hs as (Hs & Hp & Ht). unfold MAX_PCPU_NUM in Hp. move_on Es.
  intros HL [Hv Hm]. rewrite Es in Hm. destruct Hm as [Hc Hset]. split; [done|]. split; [done|]. cbn. split; [done|].
  split; [|split; [by apply clear_bit_u64|]].
  - intros r Hr Hb. destruct (Hc r Hr Hb) as [Hb'|]; [|by right]. destruct (Z.eqb_spec p r) as [<-|Hne]; [by right|]. left.
    rewrite clear_bit_eq, Hb' by lia. by rewrite (proj2 (Z.eqb_neq _ _) Hne).
  - intros r Htr Hb. pose proof Htr as (_ & Hr & _). unfold MAX_PCPU_NUM in Hr. rewrite clear_bit_eq, Hb by lia.
    destruct (Z.eqb_spec p r) as [<-|Hne]; [by destruct Ht|done].
Qed.

Lemma store_stage_ok rest seen : c_at c = SStore rest seen -> owner_step_ok.
Proof.
  intros Es c' m' es E Hgu HA. unfold call_step in E. rewrite Es in E. injection E as <- <- <-. cbn [c_at owning].
  destruct owner_facts as (Hu & Hpc & _ & Hg & (Hs & Hz & _)). rewrite Es in Hs, Hz. specialize (Hz eq_refl).
  pose proof owner_active as Hact. rewrite Es in Hact. cbn in Hact.
  apply (core_own c _ m _ ks rn _ A late C); try done; cbn.
  - apply (core_owner _ _ _ _ _ _ C).
  - intros r Hr. destruct (core_info _ _ _ _ _ _ C r Hr) as (c0 & [= <-] & ? & ? & Hp & ? & ?). rewrite Es in Hp. done.
  - intros HL [? Hm]. rewrite Es in Hm. destruct Hm as (_ & Hc & ? & _). rewrite app_nil_r. done.
  - intros HL [? Hm] _ r Ht Hb. rewrite Es in Hm, Hb. destruct Hm as (_ & _ & _ & Hm). auto.
  - rewrite Es. auto.
Qed.

(** A field of the mailbox of [p] is written, while the mailbox holds no generation
    or no generation is active. *)
Lemma core_write s p f : let m' := set_info p f m in owning s = true -> live s = live (c_at c) -> s <> SActive ->
  stage_ok (c <| c_at := s |>) m' -> ~ published (c_at c) p \/ live (c_at c) = false ->
  (sc_generation (smp_call_info m' p) <> 0 -> sc_generation (smp_call_info m' p) = c_generation c /\ target c p /\ published s p /\
    sc_func (smp_call_info m' p) = c_func c /\ sc_data (smp_call_info m' p) = c_data c) ->
  (forall r, target c r -> r <> p -> published (c_at c) r -> published s r) ->
  (late = false -> mask_ok rn c (smp_call_mask m) -> gave_up (c <| c_at := s |>) = false /\ mask_ok rn (c <| c_at := s |>) (smp_call_mask m)) ->
  masked s = true -> masked (c_at c) = true ->
  core (Some (c <| c_at := s |>)) m' ks (rn ++ []) A late.
Proof.
  intros m' Ho Hl Ha Hs Hp Hi Hpub Hm H1 H2. destruct owner_facts as (Hu & Hpc & _ & Hg & _). pose proof owner_active as Hact.
  destruct (core_call _ _ _ _ _ _ C c eq_refl) as (_ & _ & _ & _ & _ & _ & _ & HA).
  assert (forall r, r <> p -> smp_call_info m' r = smp_call_info m r) as Hne by (intros r Hr; cbn; by rewrite (proj2 (Z.eqb_neq _ _) Hr)).
  apply (core_own c _ m m' ks rn [] A late C); try done.
  - apply (core_owner _ _ _ _ _ _ C).
  - cbn. by rewrite Hl.
  - intros r Hr. destruct (decide (r = p)) as [->|Hrp]; [by apply Hi|]. rewrite Hne in * by done.
    destruct (core_info _ _ _ _ _ _ C r Hr) as (c0 & [= <-] & ? & ? & ? & ? & ?). split_and!; try done; try apply H0. by apply Hpub.
  - intros r k Hk Hz Ea. split; [done|]. intros Hr. destruct (decide (r = p)) as [->|Hrp]; [|by apply Hne]. exfalso.
    destruct (core_info _ _ _ _ _ _ C p Hr) as (c0 & [= <-] & _ & _ & ? & _). destruct Hp as [|Hlv]; [done|].
    change (kick_gen k = smp_call_active_generation m) in Ea. by rewrite Hact, Hlv in Ea.
  - by rewrite app_nil_r.
  - intros HL _ _ r _ Hb. by apply Hb.
  - intros HL _ _. by left.
Qed.

(** What is left of such a step. *)
Ltac write_on Es := cbn [c_at owning]; apply core_write; try done; try (by rewrite Es); try (rewrite Es; cbn; by auto);
  try (intros HL [? Hm]; rewrite Es in Hm; by auto); try (rewrite Es; left; cbn; tauto); try (rewrite Es; cbn; tauto).

Lemma func_ok rest p : c_at c = SFunc rest p -> owner_step_ok.
Proof.
  intros Es c' m' es E Hgu HA. unfold call_step in E. rewrite Es in E. injection E as <- <- <-.
  destruct owner_facts as (Hu & Hpc & _ & Hg & (Hs & Hz & _)). rewrite Es in Hs, Hz. specialize (Hz eq_refl).
  write_on Es.
  - split; [|done]. cbn. rewrite Z.eqb_refl. by destruct Hs as (? & ? & ?).
  - cbn. rewrite Z.eqb_refl. cbn. intros Hn. destruct Hn. apply unpublished. rewrite Es. cbn. tauto.
Qed.

Lemma data_ok rest p : c_at c = SData rest p -> owner_step_ok.
Proof.
  intros Es c' m' es E Hgu HA. unfold call_step in E. rewrite Es in E. injection E as <- <- <-.
  destruct owner_facts as (Hu & Hpc & _ & Hg & (Hs & Hz & _)). rewrite Es in Hs, Hz. specialize (Hz eq_refl).
  write_on Es.
  - split; [|done]. cbn. rewrite Z.eqb_refl. by destruct Hs as (? & ? & ? & ?).
  - cbn. rewrite Z.eqb_refl. cbn. intros Hn. destruct Hn. apply unpublished. rewrite Es. cbn. tauto.
Qed.

Lemma publish_ok rest p : c_at c = SPublish rest p -> owner_step_ok.
Proof.
  intros Es c' m' es E Hgu HA. unfold call_step in E. rewrite Es in E. injection E as <- <- <-.
  destruct owner_facts as (Hu & Hpc & _ & Hg & (Hs & Hz & _)). rewrite Es in Hs, Hz. specialize (Hz eq_refl).
  destruct Hs as (Hs & Hb & Ht & Hf & Hd). write_on Es.
  cbn. rewrite Z.eqb_refl. done.
Qed.

Lemma wait_ok : c_at c = SWait -> owner_step_ok.
Proof.
  intros Es c' m' es E Hgu HA. unfold call_step in E. rewrite Es in E. injection E as <- <- <-.
  destruct owner_facts as (_ & _ & _ & _ & (_ & Hz & _)). rewrite Es in Hz. specialize (Hz eq_refl).
  destruct (Z.eqb_spec (smp_call_mask m) 0) as [E0|_]; move_on Es.
  intros HL [Hu Hm]. rewrite Es in Hm. split; [done|]. split; [done|]. split; [done|]. intros r Hr Hb.
  destruct (Hm r Hr Hb) as [Hb'|]; [|done]. by rewrite E0, Z.bits_0 in Hb'.
Qed.

Lemma late_ok : c_at c = SLate -> owner_step_ok.
Proof.
  intros Es c' m' es E Hgu HA. unfold call_step in E. rewrite Es in E. injection E as <- <- <-.
  destruct owner_facts as (_ & _ & _ & _ & (_ & Hz & _)). rewrite Es in Hz. specialize (Hz eq_refl).
  destruct (smp_call_deadline_expired _ _); move_on Es. intros HL _. by specialize (Hgu HL).
Qed.

Lemma revoke_ok b : c_at c = SRevoke b -> owner_step_ok.
Proof.
  intros Es c' m' es E Hgu HA. unfold call_step in E. rewrite Es in E. injection E as <- <- <-. cbn [c_at owning].
  destruct owner_facts as (_ & _ & _ & Hg & (_ & Hz & _)). rewrite Es in Hz. specialize (Hz eq_refl).
  apply (core_own c _ m _ ks rn _ A late C); try done; cbn.
  - apply (core_owner _ _ _ _ _ _ C).
  - intros r Hr. destruct (core_info _ _ _ _ _ _ C r Hr) as (c0 & [= <-] & ? & Ht & _ & ? & ?). split_and!; try done; apply Ht.
  - intros HL [? Hm]. rewrite Es in Hm. specialize (Hgu HL). rewrite app_nil_r. done.
  - rewrite Es. auto.
  - rewrite Es. auto.
Qed.

Lemma info_ok b rest : c_at c = SInfo b rest -> owner_step_ok.
Proof.
  intros Es c' m' es E Hgu HA. unfold call_step in E. rewrite Es in E. injection E as <- <- <-.
  destruct owner_facts as (_ & _ & _ & _ & (_ & Hz & _)). rewrite Es in Hz. specialize (Hz eq_refl).
  pose proof (ffs64_cases rest) as Hc. cbn zeta in Hc. set (p := ffs64 rest) in *. clearbody p.
  destruct (p <? MAX_PCPU_NUM); [|destruct b]; move_on Es.
  - split; [apply Hc|done].
  - intros HL [Hu Hm]. rewrite Es in Hm. specialize (Hgu HL). done.
  - split; [by intros _|done].
  - rewrite Es. intros r (_ & Hr & _). cbn. by rewrite Hc.
  - intros HL [Hu Hm]. rewrite Es in Hm. split; [done|]. split; [done|]. cbn. tauto.
  - intros HL [Hu Hm] _. rewrite Es in Hm. right. tauto.
  - rewrite Es. intros r (_ & Hr & _). cbn. by rewrite Hc.
  - intros HL _. by specialize (Hgu HL).
Qed.

Lemma info_generation_ok b rest p : c_at c = SInfoGeneration b rest p -> owner_step_ok.
Proof.
  intros Es c' m' es E Hgu HA. unfold call_step in E. rewrite Es in E. injection E as <- <- <-.
  destruct owner_facts as (_ & _ & _ & _ & (Hs & Hz & _)). rewrite Es in Hs, Hz. specialize (Hz eq_refl).
  write_on Es; try (intros HL [? Hm]; rewrite Es in Hm; by specialize (Hgu HL)).
  cbn. by rewrite Z.eqb_refl.
Qed.

Lemma info_func_ok b rest p : c_at c = SInfoFunc b rest p -> owner_step_ok.
Proof.
  intros Es c' m' es E Hgu HA. unfold call_step in E. rewrite Es in E. injection E as <- <- <-.
  destruct owner_facts as (_ & _ & _ & _ & (Hs & Hz & _)). rewrite Es in Hs, Hz. specialize (Hz eq_refl).
  write_on Es; try (intros HL [? Hm]; rewrite Es in Hm; by specialize (Hgu HL)).
  cbn. rewrite Z.eqb_refl. cbn. intros Hn. destruct Hn. apply unpublished. rewrite Es. cbn. tauto.
Qed.

Lemma info_data_ok b rest p : c_at c = SInfoData b rest p -> owner_step_ok.
Proof.
  intros Es c' m' es E Hgu HA. unfold call_step in E. rewrite Es in E. injection E as <- <- <-.
  destruct owner_facts as (_ & _ & _ & _ & (Hs & Hz & _)). rewrite Es in Hs, Hz. specialize (Hz eq_refl).
  write_on Es; try (intros HL [? Hm]; rewrite Es in Hm; by specialize (Hgu HL)).
  - cbn. rewrite Z.eqb_refl. cbn. intros Hn. destruct Hn. apply unpublished. rewrite Es. cbn. tauto.
  - rewrite Es. intros r (_ & Hr & _) Hne [Hb _]. cbn. unfold MAX_PCPU_NUM in *. rewrite clear_bit_eq, Hb by lia.
    by rewrite (proj2 (Z.eqb_neq p r)) by done.
Qed.

Lemma clear_mask_ok : c_at c = SClearMask -> owner_step_ok.
Proof.
  intros Es c' m' es E Hgu HA. unfold call_step in E. rewrite Es in E. injection E as <- <- <-. cbn [c_at owning].
  destruct owner_facts as (_ & _ & _ & Hg & (_ & Hz & _)). rewrite Es in Hz. specialize (Hz eq_refl).
  pose proof owner_active as Hact. rewrite Es in Hact. cbn in Hact.
  apply (core_own c _ m _ ks rn _ A late C); try done; cbn.
  - apply (core_owner _ _ _ _ _ _ C).
  - intros r Hr. by rewrite unpublished in Hr by (rewrite Es; auto).
  - intros HL [? Hm]. by rewrite Es in Hm.
  - intros HL [? Hm]. by rewrite Es in Hm.
Qed.

Lemma release_ok ret : c_at c = SRelease ret -> owner_step_ok.
Proof.
  intros Es c' m' es E Hgu HA. unfold call_step in E. rewrite Es in E. injection E as <- <- <-. cbn [c_at owning].
  rewrite app_nil_r. pose proof owner_active as Hact. rewrite Es in Hact. pose proof C as [C1 C2 C3 C4 C5 C6 C7 C8 C9]. constructor; try done.
  - intros r Hr. cbn in Hr. by rewrite unpublished in Hr by (rewrite Es; auto).
  - intros HL. destruct (C8 HL) as [_ [_ Hm]]. rewrite Es in Hm. by destruct Hm.
  - intros HL r k Hk Hne. destruct (C9 HL r k Hk Hne) as [_ H2]. split; [done|]. intros Hz. destruct (H2 Hz) as (c0 & [= <-] & Hm & _).
    by rewrite Es in Hm.
Qed.

Lemma call_step_ok : owner_step_ok.
Proof.
  destruct (core_call _ _ _ _ _ _ C c eq_refl) as (Ho & _). destruct owner_facts as (_ & _ & _ & _ & Hs & _).
  destruct (c_at c) eqn:Es; try done;
    eauto using acquired_ok, generation_ok, active_ok, mask_stage_ok, next_ok, self_ok, load_stage_ok, store_stage_ok, func_ok, data_ok, publish_ok,
      wait_ok, late_ok, revoke_ok, info_ok, info_generation_ok, info_func_ok, info_data_ok, clear_mask_ok, release_ok.
Qed.

(** The owner keeps its generation and that it timed out; it returns 0 when every
    pCPU is settled. *)
Lemma keeps_generation c' m' es : call_step is_pcpu_active now c m = (c', m', es) -> c_generation c <> 0 -> c_generation c' = c_generation c.
Proof.
  intros E Hg. destruct owner_facts as (_ & _ & _ & _ & (Hs & _)). unfold call_step in E.
  destruct (c_at c) eqn:Es; try done; try (by injection E as <- <- <-); case_match; by injection E as <- <- <-.
Qed.

Lemma keeps_gave_up c' m' es : call_step is_pcpu_active now c m = (c', m', es) -> gave_up c = true -> gave_up c' = true.
Proof.
  intros E Hg. destruct owner_facts as (_ & _ & _ & _ & (_ & Hz & _)). unfold call_step, gave_up in *.
  destruct (c_at c) eqn:Es; try done; injection E as <- <- <-; try done; cbn.
  - destruct (_ <? _), completed; done.
  - specialize (Hz eq_refl). rewrite (proj2 (Z.eqb_neq _ 0) Hz). done.
  - by rewrite Es.
Qed.

Lemma returns_settled c' m' es : call_step is_pcpu_active now c m = (c', m', es) -> late = false -> c_at c' = SDone 0 -> all_settled (rn ++ es) c'.
Proof.
  intros E HL Hd. destruct (core_mask _ _ _ _ _ _ C HL) as [_ [_ Hm]]. destruct (core_call _ _ _ _ _ _ C c eq_refl) as (Ho & _).
  unfold call_step in E. destruct (c_at c) eqn:Es; try done;
    try (injection E as <- <- <-; cbn in Hd; repeat case_match; done); try (destruct (_ <? _); injection E as <- <- <-; cbn in Hd; repeat case_match; done).
  injection E as <- <- <-. injection Hd as Hd. apply all_settled_mono. by apply Hm.
Qed.
End Owner.

(** *** Steps of the other calls *)
Lemma core_acquire c m ks rn A late : core None m ks rn A late -> c_at c = SAcquire -> c_generation c = 0 ->
  in_u64 (c_mask c) -> 0 <= c_pcpu c < MAX_PCPU_NUM -> c_func c <> 0 ->
  core (Some (c <| c_at := SAcquired |>)) (m <| smp_call_owner := 1 |>) ks rn A late.
Proof.
  intros [C1 C2 C3 C4 C5 C6 C7 C8 C9] Es Hg Hu Hp Hf. constructor; try done.
  - intros c0 [= <-]. cbn. rewrite Hg. do 4 (split; [done|]). split; [lia|]. split; [|done]. by split.
  - intros r Hr. by destruct (C5 r Hr) as (c0 & ? & _).
  - intros HL. specialize (C8 HL). cbn in *. rewrite C8. done.
  - intros HL r k Hk Hne. destruct (C9 HL r k Hk Hne) as [_ H2]. split; [by intros c0 [= <-]|]. intros Hz.
    by destruct (H2 Hz) as (c0 & ? & _).
Qed.

(** What is known of a call that does not own the mailboxes. *)
Definition call_wf (c : smp_call) : Prop := 0 <= c_pcpu c < MAX_PCPU_NUM /\ in_u64 (c_mask c) /\
  match c_at c with SAcquire | SContended => c_generation c = 0 /\ c_func c <> 0 | _ => True end.

(** Such a call acquires them or changes nothing. *)
Lemma idle_step now c m c' m' es : call_step is_pcpu_active now c m = (c', m', es) -> owning (c_at c) = false ->
  (c_at c = SAcquire /\ smp_call_owner m = 0 /\ c' = c <| c_at := SAcquired |> /\ m' = m <| smp_call_owner := 1 |> /\ es = []) \/
  (exists s, c' = c <| c_at := s |> /\ m' = m /\ es = [] /\ owning s = false /\ (s = SDone 0 -> c_at c = SDone 0) /\
    (gave_up c = true -> gave_up c' = true)).
Proof.
  intros E Ho. unfold call_step, gave_up in *. destruct (c_at c) eqn:Es; try done.
  - destruct (Z.eqb_spec (smp_call_owner m) 0) as [E0|E0]; injection E as <- <- <-; [by left|]. right.
    eexists. do 3 (split; [done|]). by destruct (c_try c).
  - injection E as <- <- <-. right. eexists. do 3 (split; [done|]). by destruct (smp_call_deadline_expired _ _).
  - injection E as <- <- <-. right. exists (SDone ret). split; [|rewrite Es; done]. by destruct c; cbn in *; subst.
Qed.

Lemma call_step_wf now c m c' m' es : call_step is_pcpu_active now c m = (c', m', es) -> call_wf c -> call_wf c'.
Proof.
  intros E (Hp & Hu & Hc). unfold call_step in E. unfold call_wf.
  destruct (c_at c) eqn:Es;
    repeat match type of E with context [if ?b then _ else _] => destruct b end; injection E as <- <- <-; cbn; rewrite ?Es; done.
Qed.

(** ** Every interleaving *)
Definition late (w : smp_world) : bool := existsb gave_up (w_calls w).

(** Some call has asked for callback [e]. *)
Definition asked (w : smp_world) (e : ran) : Prop := exists i c, w_calls w !! i = Some c /\
  c_generation c <> 0 /\ e = request c (ran_on e) /\ Z.testbit (c_mask c) (ran_on e) = true.

Definition owner_of (h : option nat) (w : smp_world) : option smp_call := i ← h; w_calls w !! i.

Record world_ok (h : option nat) (w : smp_world) : Prop := {
  world_owner : forall i c, w_calls w !! i = Some c -> owning (c_at c) = true <-> h = Some i;
  world_holder : forall i, h = Some i -> is_Some (w_calls w !! i);
  world_calls : Forall call_wf (w_calls w);
  world_done : late w = false -> forall i c, w_calls w !! i = Some c -> c_at c = SDone 0 -> all_settled (w_ran w) c;
  world_core : core (owner_of h w) (w_shared w) (w_kicks w) (w_ran w) (asked w) (late w);
}.

Lemma late_false w i c : late w = false -> w_calls w !! i = Some c -> gave_up c = false.
Proof.
  intros HL E. apply not_true_iff_false. intros Hg. assert (late w = true); [|congruence].
  apply existsb_exists. exists c. split; [|done]. by apply list_elem_of_In, (list_elem_of_lookup_2 _ i).
Qed.

(** The calls of [w'] extend those of [w]. *)
Definition extends (w w' : smp_world) : Prop := forall i c, w_calls w !! i = Some c -> exists c', w_calls w' !! i = Some c' /\
  c_mask c' = c_mask c /\ c_func c' = c_func c /\ c_data c' = c_data c /\
  (c_generation c <> 0 -> c_generation c' = c_generation c) /\ (gave_up c = true -> gave_up c' = true).

Lemma extends_late w w' : extends w w' -> late w' = false -> late w = false.
Proof.
  intros H HL. apply not_true_iff_false. intros (c & Hin & Hg)%existsb_exists.
  apply list_elem_of_In, list_elem_of_lookup in Hin as [i Hi]. destruct (H i c Hi) as (c' & E & _ & _ & _ & _ & Hg').
  pose proof (late_false _ _ _ HL E). rewrite Hg' in *; done.
Qed.

Lemma extends_asked w w' e : extends w w' -> asked w e -> asked w' e.
Proof.
  intros H (i & c & E & Hg & Er & Hb). destruct (H i c E) as (c' & E' & Em & Ef & Ed & Eg & _). exists i, c'.
  rewrite Em, (Eg Hg). split; [done|]. split; [done|]. split; [|done]. rewrite Er at 1. unfold request. by rewrite Ef, Ed, (Eg Hg).
Qed.

Lemma extends_core w w' o m ks rn : extends w w' -> core o m ks rn (asked w) (late w) -> core o m ks rn (asked w') (late w').
Proof. intros H C. eapply core_mono; [exact C| |]; [intros e; by apply extends_asked|by apply extends_late]. Qed.

(** Call [i] moves from [c] to [c']. *)
Definition ran_step (w : smp_world) (i : nat) (c' : smp_call) (m' : smp_shared) (es : list ran) : smp_world :=
  {| w_shared := m'; w_now := w_now w; w_calls := <[i := c']> (w_calls w); w_kicks := w_kicks w; w_ran := w_ran w ++ es |}.

Definition same_call (c c' : smp_call) : Prop := c_pcpu c' = c_pcpu c /\ c_mask c' = c_mask c /\ c_func c' = c_func c /\ c_data c' = c_data c /\
  c_deadline c' = c_deadline c.

Lemma call_step_same now c m c' m' es : call_step is_pcpu_active now c m = (c', m', es) -> same_call c c'.
Proof. intros E. unfold call_step in E. destruct (c_at c); try (by injection E as <- <- <-); case_match; by injection E as <- <- <-. Qed.

Lemma ran_step_extends w i c c' m' es : w_calls w !! i = Some c -> same_call c c' ->
  (c_generation c <> 0 -> c_generation c' = c_generation c) -> (gave_up c = true -> gave_up c' = true) -> extends w (ran_step w i c' m' es).
Proof.
  intros E (_ & ? & ? & ? & _) Hg Hu j cj Ej. cbn. destruct (decide (i = j)) as [<-|Hne].
  - rewrite E in Ej. injection Ej as <-. exists c'. rewrite list_lookup_insert_eq by (by eapply lookup_lt_Some). done.
  - exists cj. by rewrite list_lookup_insert_ne by done.
Qed.

(** Who owns the mailboxes then. *)
Definition holder (h : option nat) (i : nat) (c' : smp_call) : option nat :=
  if owning (c_at c') then Some i else if decide (h = Some i) then None else h.

Lemma ran_step_world h w i c c' m' es : let w' := ran_step w i c' m' es in world_ok h w -> w_calls w !! i = Some c -> extends w w' ->
  call_wf c' -> (owning (c_at c') = true -> h = None \/ h = Some i) ->
  (late w' = false -> c_at c' = SDone 0 -> all_settled (w_ran w ++ es) c') ->
  core (if owning (c_at c') then Some c' else if decide (h = Some i) then None else owner_of h w)
    m' (w_kicks w) (w_ran w ++ es) (asked w') (late w') ->
  world_ok (holder h i c') w'.
Proof.
  intros w' [W1 W2 W3 W4 W5] E Hx Hwf Ho Hd C. pose proof (lookup_lt_Some _ _ _ E) as Hlt. unfold holder. constructor.
  - intros j cj [(<- & <- & _)|[Hne Ej]]%list_lookup_insert_Some; [destruct (owning _); [done|by destruct (decide _)]|].
    rewrite (W1 j cj Ej). destruct (owning (c_at c')); [destruct (Ho eq_refl); naive_solver|]. destruct (decide _); naive_solver.
  - intros j Hj. cbn. destruct (decide (i = j)) as [<-|Hne]; [rewrite list_lookup_insert_eq by done; by eexists|].
    rewrite list_lookup_insert_ne by done. apply W2. destruct (owning _); [congruence|]. by destruct (decide _).
  - by apply Forall_insert.
  - intros HL j cj [(<- & <- & _)|[Hne Ej]]%list_lookup_insert_Some Hs; [by apply Hd|].
    apply all_settled_mono. by apply (W4 (extends_late _ _ Hx HL) j).
  - replace (owner_of _ w') with (if owning (c_at c') then Some c' else if decide (h = Some i) then None else owner_of h w); [done|].
    destruct (owning (c_at c')); [cbn; by rewrite list_lookup_insert_eq|]. destruct (decide _) as [|Hn]; [done|].
    destruct h as [j|]; [|done]. cbn. rewrite list_lookup_insert_ne by congruence. done.
Qed.

Lemma call_run_ok h w i c c' m' es : world_ok h w -> smp_call_next_generation (w_shared w) < UINT64_MAX -> w_calls w !! i = Some c ->
  call_step is_pcpu_active (w_now w) c (w_shared w) = (c', m', es) -> world_ok (holder h i c') (ran_step w i c' m' es).
Proof.
  intros W Hn E Hs. pose proof (call_step_same _ _ _ _ _ _ Hs) as Hsame. pose proof W as [W1 W2 W3 W4 W5].
  pose proof (W1 i c E) as Ho. pose proof (proj1 (Forall_lookup _ _) W3 i c E) as (Hp & Hu & Hc).
  pose proof (call_step_wf _ _ _ _ _ _ Hs (conj Hp (conj Hu Hc))) as Hwf.
  destruct (owning (c_at c)) eqn:Eo.
  - destruct Ho as [Ho _]. specialize (Ho eq_refl). subst h. cbn in W5. rewrite E in W5.
    assert (extends w (ran_step w i c' m' es)) as Hx.
    { apply (ran_step_extends w i c); [done..| |]; [by eapply keeps_generation|by eapply keeps_gave_up]. }
    pose proof (extends_core _ _ _ _ _ _ Hx W5) as C. apply (ran_step_world _ w i c); try done.
    + auto.
    + intros HL Hd. by apply (returns_settled _ _ _ _ _ _ _ C _ _ _ Hs).
    + rewrite decide_True by done. apply (call_step_ok _ _ _ _ _ _ _ C Hn _ _ _ Hs).
      * intros HL. apply (late_false _ i _ HL). cbn. apply list_lookup_insert_eq. by eapply lookup_lt_Some.
      * intros Hg r Hb. exists i, c'. cbn. rewrite list_lookup_insert_eq by (by eapply lookup_lt_Some). done.
  - assert (h <> Some i) as Hne by (intros Hh; by apply Ho in Hh).
    destruct (idle_step _ _ _ _ _ _ Hs Eo) as [(Ea & E0 & -> & -> & ->)|(s & -> & -> & -> & Es & Hd & Hk)].
    + rewrite Ea in Hc. destruct Hc as [Hg Hf]. assert (extends w (ran_step w i (c <| c_at := SAcquired |>) ((w_shared w) <| smp_call_owner := 1 |>) [])) as Hx.
      { apply (ran_step_extends w i c); try done. unfold gave_up. by rewrite Ea. }
      assert (h = None) as ->.
      { destruct h as [j|]; [|done]. exfalso. pose proof (core_owner _ _ _ _ _ _ W5) as Hw. destruct (W2 j eq_refl) as [cj Ej]. cbn in Hw.
        rewrite Ej in Hw. congruence. }
      apply (ran_step_world _ w i c); try done; [by left|]. cbn. rewrite app_nil_r. apply core_acquire; try done.
      by apply (extends_core w).
    + assert (extends w (ran_step w i (c <| c_at := s |>) (w_shared w) [])) as Hx by (by apply (ran_step_extends w i c)).
      apply (ran_step_world _ w i c); try done.
      * cbn. congruence.
      * cbn. intros HL Hs0. apply all_settled_mono. apply (W4 (extends_late _ _ Hx HL) i c E). auto.
      * cbn. rewrite Es, decide_False by done. rewrite app_nil_r. by apply (extends_core w).
Qed.

Lemma call_ok khz h w pcpu mask func data timeout_us t : world_ok h w -> 0 <= pcpu < MAX_PCPU_NUM -> in_u64 mask ->
  world_ok h {| w_shared := w_shared w; w_now := w_now w; w_kicks := w_kicks w; w_ran := w_ran w;
                w_calls := w_calls w ++ [begin_call khz (w_now w) pcpu mask func data timeout_us t] |}.
Proof.
  intros [W1 W2 W3 W4 W5] Hp Hu. set (c := begin_call _ _ _ _ _ _ _ _). set (w' := {| w_shared := _ |}).
  assert (owning (c_at c) = false /\ call_wf c /\ c_at c <> SDone 0) as (Ho & Hwf & Hd).
  { unfold c, begin_call, call_wf. cbn. destruct (_ || _) eqn:Eb; [done|]. split; [done|]. split; [|done].
    do 3 (split; [done|]). apply orb_false_iff in Eb as [[_ ?%Z.eqb_neq]%orb_false_iff _]. done. }
  assert (forall i ci, w_calls w !! i = Some ci -> w_calls w' !! i = Some ci) as Hl by (intros; by apply lookup_app_l_Some).
  assert (extends w w') as Hx by (intros i ci E; exists ci; by rewrite (Hl i ci E)).
  constructor.
  - intros i ci [E|[Hlen E]]%lookup_app_Some; [by apply W1|]. apply list_lookup_singleton_Some in E as [E <-]. rewrite Ho. split; [done|].
    intros Hh. destruct (W2 i Hh) as [x Ex%lookup_lt_Some]. lia.
  - intros i Hh. destruct (W2 i Hh) as [x Ex]. exists x. by apply Hl.
  - by apply Forall_app_2; [|apply Forall_singleton].
  - intros HL i ci [E|[Hlen E]]%lookup_app_Some Hs; [by apply (W4 (extends_late _ _ Hx HL) i)|]. by apply list_lookup_singleton_Some in E as [_ <-].
  - replace (owner_of h w') with (owner_of h w); [by apply (extends_core w)|]. destruct h as [i|]; [|done]. cbn.
    destruct (W2 i eq_refl) as [x Ex]. rewrite Ex. symmetry. by apply (Hl i).
Qed.

(** The handlers and the callbacks change. *)
Lemma kicks_ok h w m' ks es : world_ok h w -> core (owner_of h w) m' ks (w_ran w ++ es) (asked w) (late w) ->
  world_ok h {| w_shared := m'; w_now := w_now w; w_calls := w_calls w; w_ran := w_ran w ++ es; w_kicks := ks |}.
Proof.
  intros [W1 W2 W3 W4 W5] C. constructor; try done. intros HL i c E Hs. apply all_settled_mono. by apply (W4 HL i).
Qed.

Lemma smp_step_ok khz e h w w' : world_ok h w -> event_ok e -> smp_call_next_generation (w_shared w) < UINT64_MAX ->
  smp_step khz is_pcpu_active e w = Some w' -> exists h', world_ok h' w'.
Proof.
  intros W He Hn E. pose proof (world_core _ _ W) as C. destruct e as [pcpu mask func data timeout_us t|i|pcpu|pcpu|t]; cbn in E.
  - injection E as <-. destruct He. exists h. by apply call_ok.
  - destruct (w_calls w !! i) as [c|] eqn:Ei; [|done]. cbn in E. destruct (call_step _ _ _ _) as [[c' m'] es] eqn:Es. injection E as <-.
    exists (holder h i c'). by apply (call_run_ok h w i c).
  - destruct (w_kicks w !! pcpu); [done|]. injection E as <-. exists h. rewrite <- (app_nil_r (w_ran w)). apply kicks_ok; [done|].
    apply core_kick; try done.
    + split; [done|]. split; [cbn; split; [done|apply (core_next _ _ _ _ _ _ C)]|done].
    + intros c Ec Es. destruct (core_call _ _ _ _ _ _ C c Ec) as (_ & _ & _ & _ & ? & (_ & _ & Hz) & _). specialize (Hz Es). cbn. lia.
  - destruct (w_kicks w !! pcpu) as [k|] eqn:Ek; [|done]. cbn in E. destruct (kick_notification _ _ _) as [[k' m'] es] eqn:Es. injection E as <-.
    exists h. apply kicks_ok; [done|]. by apply (kick_step_ok _ (w_shared w) _ _ _ _ _ k).
  - injection E as <-. exists h. by destruct W; constructor.
Qed.

Lemma smp_init_ok : world_ok None smp_init.
Proof. by constructor. Qed.

Lemma smp_reach_ok khz w : smp_reach khz is_pcpu_active w -> exists h, world_ok h w.
Proof. induction 1 as [|e w w' _ [h W] He Hn E]; [exists None; apply smp_init_ok|by eapply smp_step_ok]. Qed.
End Invariant.

(** ** Guarantees *)
Section Guarantees.
Context (khz : Z) (is_pcpu_active : Z -> bool).

(** C22: In every interleaving of callers, handlers and time in which no call has
    timed out after it published its mailboxes: a call that returned 0 has run its
    callback, with its argument, on the calling pCPU when the mask names it and on
    every other active pCPU of the mask. *)
Theorem smp_call_completes w i c r : smp_reach khz is_pcpu_active w -> late w = false ->
  w_calls w !! i = Some c -> c_at c = SDone 0 -> 0 <= r < 64 -> Z.testbit (c_mask c) r = true ->
  r = c_pcpu c \/ is_pcpu_active r = true -> request c r ∈ w_ran w.
Proof.
  intros [h W]%smp_reach_ok HL E Hd Hr Hb Hor. destruct (world_done _ _ _ W HL i c E Hd r Hr Hb) as [[Hne Ha]|?]; [|done].
  destruct Hor; congruence.
Qed.

(** In every interleaving, timeouts included, a callback that a pCPU has run
    was asked for: some call that got a generation named this pCPU in its mask and
    gave this function and this argument. *)
Theorem smp_callbacks_asked w e : smp_reach khz is_pcpu_active w -> e ∈ w_ran w -> asked w e.
Proof.
  intros [h W]%smp_reach_ok He. pose proof (core_ran _ _ _ _ _ _ _ (world_core _ _ _ W)) as Ha.
  by eapply Forall_forall in Ha.
Qed.

(** Between its acquisition and its release a call is alone with the shared
    mailboxes: no two calls are in these stages at once. *)
Theorem smp_calls_exclusive w i j ci cj : smp_reach khz is_pcpu_active w -> w_calls w !! i = Some ci -> w_calls w !! j = Some cj ->
  i <> j -> owning (c_at ci) = true -> owning (c_at cj) = false.
Proof.
  intros [h W]%smp_reach_ok Ei Ej Hne Hi%(world_owner _ _ _ W i ci Ei). apply not_true_iff_false.
  intros Hj%(world_owner _ _ _ W j cj Ej). congruence.
Qed.

(** *** A call returns once its deadline has passed *)

(** The steps of one call; the clock and the shared variables it meets at each step
    are arbitrary. *)
Fixpoint own_steps (env : list (Z * smp_shared)) (c : smp_call) : smp_call :=
  match env with
  | [] => c
  | (now, m) :: env => own_steps env (call_step is_pcpu_active now c m).1.1
  end.

Definition bits (w : Z) : nat := length (filter (fun r => Z.testbit w r = true) (seqZ 0 MAX_PCPU_NUM)).

Lemma bits_le w : (bits w <= 8)%nat.
Proof. unfold bits. etransitivity; [apply length_filter|]. by vm_compute; lia. Qed.

Lemma bits_clear p w : 0 <= p < MAX_PCPU_NUM -> Z.testbit w p = true -> (bits (clear_bit p w) < bits w)%nat.
Proof.
  intros Hp Hb. unfold bits.
  rewrite <- (list_filter_filter_l (fun r => Z.testbit (clear_bit p w) r = true) (fun r => Z.testbit w r = true)) by (intros r; apply clear_bit_sub).
  apply (length_filter_lt _ _ p); [apply list_elem_of_filter; split; [done|apply elem_of_seqZ; lia]|].
  unfold MAX_PCPU_NUM in Hp. by rewrite clear_bit_eq, Z.eqb_refl, andb_false_r by lia.
Qed.

(** A bound on the steps that are left. *)
Definition steps_left (c : smp_call) : nat :=
  let withdraw := (4 + 4 * bits (c_mask c))%nat in
  let publish rest := (withdraw + 3 + 4 * bits rest)%nat in
  match c_at c with
  | SAcquire => 9 + publish (c_mask c)
  | SContended => 1
  | SAcquired => 8 + publish (c_mask c)
  | SGeneration => 4 + publish (c_mask c)
  | SGeneration2 => 3 + publish (c_mask c)
  | SActive => 2 + publish (c_mask c)
  | SMask => 1 + publish (c_mask c)
  | SNext rest => publish rest
  | SSelf rest | SFunc rest _ => 3 + publish rest
  | SLoad rest _ | SData rest _ => 2 + publish rest
  | SStore rest _ | SPublish rest _ => 1 + publish rest
  | SWait => withdraw + 2
  | SLate => withdraw + 1
  | SRevoke _ => withdraw
  | SInfo _ rest => 3 + 4 * bits rest
  | SInfoGeneration _ rest p => 6 + 4 * bits (clear_bit p rest)
  | SInfoFunc _ rest p => 5 + 4 * bits (clear_bit p rest)
  | SInfoData _ rest p => 4 + 4 * bits (clear_bit p rest)
  | SClearMask => 2
  | SRelease _ => 1
  | SDone _ => 0
  end%nat.

Lemma steps_left_lt now c m : smp_call_deadline_expired now (c_deadline c) = true -> (forall ret, c_at c <> SDone ret) ->
  (steps_left (call_step is_pcpu_active now c m).1.1 < steps_left c)%nat.
Proof.
  intros Hd Hn. unfold call_step, steps_left at 2. destruct (c_at c) eqn:Es; rewrite ?Hd; try (unfold steps_left; cbn; lia).
  - destruct (_ =? 0); [|destruct (c_try c)]; unfold steps_left; cbn; lia.
  - cbn zeta. destruct (_ =? 0); unfold steps_left; cbn; lia.
  - pose proof (ffs64_cases rest) as Hc. cbn zeta in *. generalize dependent (ffs64 rest). intros p Hc. destruct (_ <? _); [|unfold steps_left; cbn; lia].
    destruct Hc as [Hp Hb]. pose proof (bits_clear _ _ Hp Hb). repeat case_match; unfold steps_left; cbn; lia.
  - destruct (_ =? 0); unfold steps_left; cbn; lia.
  - pose proof (ffs64_cases rest) as Hc. cbn zeta in *. generalize dependent (ffs64 rest). intros p Hc. destruct (_ <? _).
    + destruct Hc as [Hp Hb]. pose proof (bits_clear _ _ Hp Hb). unfold steps_left; cbn; lia.
    + destruct completed; unfold steps_left; cbn; lia.
  - by destruct (Hn ret).
Qed.

Lemma steps_left_max c : (steps_left c <= 80)%nat.
Proof.
  unfold steps_left. pose proof (bits_le (c_mask c)).
  destruct (c_at c); try lia; try (pose proof (bits_le rest); lia); pose proof (bits_le (clear_bit pcpu rest)); lia.
Qed.

(** C23: One deadline bounds the whole call.  Whatever the other pCPUs do to the
    shared variables between its steps, also when the mailboxes are never released
    or no pCPU answers, a call whose deadline has passed returns within 80 of its own
    steps, from whatever stage it is in. *)
Theorem smp_call_returns env c : Forall (fun x => smp_call_deadline_expired x.1 (c_deadline c) = true) env -> (80 <= length env)%nat ->
  exists ret, c_at (own_steps env c) = SDone ret.
Proof.
  intros HF HL. assert (steps_left c <= length env)%nat as Hs by (pose proof (steps_left_max c); lia). clear HL.
  revert c HF Hs. induction env as [|[now m] env IH]; intros c HF Hs; cbn.
  - destruct (c_at c) eqn:Es; unfold steps_left in Hs; rewrite Es in Hs; cbn in Hs; try lia. by eexists.
  - inversion_clear HF as [|? ? Hd HF']. assert ((exists ret, c_at c = SDone ret) \/ forall ret, c_at c <> SDone ret) as [[ret Er]|Hn].
    { destruct (c_at c); try (by right). left. by eexists. }
    + apply IH; unfold call_step; rewrite Er; [done|]. cbn. unfold steps_left. rewrite Er. lia.
    + pose proof (steps_left_lt now c m Hd Hn) as Hlt. cbn in Hs. apply IH; [|lia].
      destruct (call_step _ _ _ _) as [[c' m'] es] eqn:E. cbn.
      destruct (call_step_same _ _ _ _ _ _ _ E) as (_ & _ & _ & _ & ->). done.
Qed.
End Guarantees.

(** *** Witnesses *)
Lemma smp_step_next khz act e w w' : 0 <= smp_call_next_generation (w_shared w) -> smp_step khz act e w = Some w' ->
  0 <= smp_call_next_generation (w_shared w') <= smp_call_next_generation (w_shared w) + 1.
Proof.
  intros H0 E. assert (0 <= u64 (smp_call_next_generation (w_shared w) + 1) <= smp_call_next_generation (w_shared w) + 1) as Hu.
  { split; [apply u64_range|]. apply Z.mod_le; lia. }
  destruct e; cbn in E; try (injection E as <-; cbn; lia).
  - destruct (w_calls w !! i) as [c|]; [|done]. cbn in E. unfold call_step in E.
    destruct (c_at c); try (injection E as <-; cbn; lia); destruct (_ : bool) in E; injection E as <-; cbn; lia.
  - destruct (w_kicks w !! pcpu); [done|]. injection E as <-. cbn. lia.
  - destruct (w_kicks w !! pcpu) as [k|]; [|done]. cbn in E. destruct k; injection E as <-; cbn; lia.
Qed.

Lemma smp_run_reach khz act es w w' : smp_reach khz act w -> Forall event_ok es ->
  0 <= smp_call_next_generation (w_shared w) -> smp_call_next_generation (w_shared w) + Z.of_nat (length es) < UINT64_MAX ->
  smp_run khz act es w = Some w' -> smp_reach khz act w'.
Proof.
  revert w. induction es as [|e es IH]; intros w Hr He H0 Hn E; cbn in E; [congruence|].
  inversion_clear He as [|? ? He1 He2]. destruct (smp_step khz act e w) as [w1|] eqn:E1; [|done]. cbn in E, Hn.
  destruct (smp_step_next _ _ _ _ _ H0 E1). apply (IH w1); try done; [|lia]. apply (smp_reach_step _ _ e w); try done. lia.
Qed.

(** pCPU 1 calls function 7 on the pCPUs 0 and 1 while pCPU 2 waits to call function
    8 on pCPU 0; both succeed. *)
Definition two_calls : list smp_event :=
  [Call 1 3 7 9 100000 false; Call 2 1 8 5 100000 false] ++ replicate 5 (Run 0) ++ [Run 1; Run 1] ++ replicate 20 (Run 0) ++
  [Interrupt 0] ++ replicate 9 (Handle 0) ++ replicate 20 (Run 0) ++ replicate 12 (Run 1) ++ [Interrupt 0] ++ replicate 9 (Handle 0) ++
  replicate 20 (Run 1).

Definition two_calls_world : smp_world := default smp_init (smp_run 62500 (fun p => p <? 3) two_calls smp_init).

Lemma two_calls_reach : smp_reach 62500 (fun p => p <? 3) two_calls_world.
Proof.
  apply (smp_run_reach _ _ two_calls smp_init); [constructor| |done|done|by vm_compute].
  unfold two_calls, event_ok, in_u64, MAX_PCPU_NUM. repeat (apply Forall_app; split); try (apply Forall_replicate; done); repeat constructor; lia.
Qed.

Lemma smp_call_completes_witness : exists c, w_calls two_calls_world !! 1%nat = Some c /\ c_at c = SDone 0 /\ request c 0 ∈ w_ran two_calls_world.
Proof.
  eexists. split; [by vm_compute|]. split; [done|].
  apply (smp_call_completes 62500 (fun p => p <? 3) two_calls_world 1); [apply two_calls_reach|by vm_compute|by vm_compute|done|lia|done|by right].
Defined.

Lemma smp_callbacks_asked_witness : asked two_calls_world {| ran_on := 0; ran_func := 8; ran_data := 5; ran_for := 2 |}.
Proof.
  apply (smp_callbacks_asked 62500 (fun p => p <? 3)); [apply two_calls_reach|].
  replace (w_ran two_calls_world) with
    [{| ran_on := 1; ran_func := 7; ran_data := 9; ran_for := 1 |}; {| ran_on := 0; ran_func := 7; ran_data := 9; ran_for := 1 |};
     {| ran_on := 0; ran_func := 8; ran_data := 5; ran_for := 2 |}] by (by vm_compute). by repeat constructor.
Defined.

(** Call 0 owns the mailboxes, call 1 waits for them. *)
Definition contended : list smp_event := [Call 1 3 7 9 100000 false; Call 2 1 8 5 100000 false] ++ replicate 5 (Run 0) ++ [Run 1; Run 1].
Definition contended_world : smp_world := default smp_init (smp_run 62500 (fun p => p <? 3) contended smp_init).

Lemma contended_reach : smp_reach 62500 (fun p => p <? 3) contended_world.
Proof.
  apply (smp_run_reach _ _ contended smp_init); [constructor| |done|done|by vm_compute].
  repeat constructor; unfold MAX_PCPU_NUM, in_u64; lia.
Qed.

Lemma smp_calls_exclusive_witness : exists c, w_calls contended_world !! 1%nat = Some c /\ owning (c_at c) = false.
Proof.
  eexists. split; [by vm_compute|].
  eapply (smp_calls_exclusive 62500 (fun p => p <? 3) contended_world 0 1); [apply contended_reach|by vm_compute|by vm_compute|done|done].
Defined.

Lemma smp_call_returns_witness : exists ret, c_at (own_steps (fun p => p <? 3) (replicate 80 (7000000, w_shared smp_init))
  (begin_call 62500 0 1 1 7 9 100000 false)) = SDone ret.
Proof. apply smp_call_returns; [by apply Forall_replicate|done]. Defined.
