(* ===== verification/PagePool.v ===== *)
(** * The page pools of core/mmu.c

    A pool hands out the 4 KiB pages of a reserved array.  One bit of
    [pool->bitmap] stands for a page; [alloc_page] takes the first clear bit
    from the word used last, [free_page] validates and clears it.  Memory is a
    map from word addresses to words, read as zero where nothing was stored.
    The build is the one without the Memory Tagging Extension (asm/mte.h), where
    tagging and untagging a page are identities and always succeed; locks are
    not modelled, one operation runs at a time. *)
From S2P Require Import Prelude Bits.

Definition PAGE_SHIFT : Z := 12.
Definition PAGE_SIZE : Z := 4096.
Definition PTRS_PER_PGTL0E : Z := 512.

(** ** Memory *)
Abbreviation memory := (gmap Z Z) (only parsing).
Definition mload (m : memory) (a : Z) : Z := default 0 (m !! a).
Definition mstore (a v : Z) (m : memory) : memory := <[a := v]> m.

(** The address of [pt_page + i] for [uint64_t *pt_page]. *)
Definition entry_ptr (pt_page i : Z) : Z := pt_page + 8 * i.

(** [sanitized_page_hpa] is zero: [init_sanitized_page] is not called on arm64. *)
Definition sanitized_page_hpa : Z := 0.
Definition sanitize_pte_entry (ptep : Z) (m : memory) : memory := mstore ptep sanitized_page_hpa m.

Fixpoint sanitize_loop (n : nat) (pt_page i : Z) (m : memory) : memory :=
  match n with
  | O => m
  | S n => sanitize_loop n pt_page (i + 1) (sanitize_pte_entry (entry_ptr pt_page i) m)
  end.
Definition sanitize_pte (pt_page : Z) (m : memory) : memory :=
  sanitize_loop (Z.to_nat PTRS_PER_PGTL0E) pt_page 0 m.

(** ** The pool *)
Record page_pool := {
  start_page : Z;
  bitmap : list Z;
  bitmap_size : Z;
  last_hint_id : Z;
  dummy_page : Z;
}.
#[export] Instance page_pool_eta : Eta page_pool := fun r =>
  {| start_page := start_page r; bitmap := bitmap r; bitmap_size := bitmap_size r;
     last_hint_id := last_hint_id r; dummy_page := dummy_page r |}.

(** [init_page_pool]: [page_num] is a C int; the bitmap array is longer than the
    part the pool uses. *)
Definition init_page_pool (page_base : Z) (bitmap_base : list Z) (page_num : Z) : outcome page_pool :=
  if (page_base =? 0) || (page_num <=? 0) || negb (Z.land (u32 page_num) 63 =? 0)
  then Panic "invalid page pool configuration"
  else
    let size := u32 page_num / 8 in
    let words := size / 8 in
    Ret {| start_page := page_base;
           bitmap := replicate (Z.to_nat words) 0 ++ drop (Z.to_nat words) bitmap_base;
           bitmap_size := words; last_hint_id := 0; dummy_page := 0 |}.

(** The scan of [alloc_page]: [n] rounds are left of the [bitmap_size] the loop
    makes from [last_hint_id]. *)
Fixpoint alloc_scan (n : nat) (loop_idx : Z) (pool : page_pool) : option (Z * Z) :=
  match n with
  | O => None
  | S n =>
      let idx := loop_idx mod bitmap_size pool in
      let w := word (bitmap pool) idx in
      if negb (w =? UINT64_MAX) then Some (idx, ffz64 w)
      else alloc_scan n (u64 (loop_idx + 1)) pool
  end.

Definition alloc_page (pool : page_pool) (m : memory) : outcome (Z * page_pool * memory) :=
  let '(page, pool) :=
    match alloc_scan (Z.to_nat (bitmap_size pool)) (last_hint_id pool) pool with
    | Some (idx, bit) =>
        (start_page pool + (u64 (Z.shiftl idx 6) + bit) * PAGE_SIZE,
         pool <| bitmap := bitmap_set_non_atomic bit (bitmap pool) idx |> <| last_hint_id := idx |>)
    | None => (0, pool)
    end in
  _ ← ASSERT (negb (page =? 0)) "no page aviable!";
  let page := if negb (page =? 0) then page else dummy_page pool in
  if page =? 0 then Panic "no dummy aviable!" else Ret (page, pool, sanitize_pte page m).

Definition free_page (pool : page_pool) (page : Z) : outcome page_pool :=
  if page =? 0 then Panic "invalid page pool free request"
  else
    let pool_size := u64 (u64 (Z.shiftl (bitmap_size pool) 6) * PAGE_SIZE) in
    if negb (Z.land page (PAGE_SIZE - 1) =? 0) || (page <? start_page pool) ||
       (pool_size <=? u64 (page - start_page pool))
    then Panic "page pool free address out of range"
    else
      let page_id := u64 (page - start_page pool) / PAGE_SIZE in
      let idx := Z.shiftr page_id 6 in
      let bit := Z.land page_id 63 in
      if Z.land (word (bitmap pool) idx) (bit64 bit) =? 0 then Panic "page pool double free"
      else Ret (pool <| bitmap := bitmap_clear_non_atomic bit (bitmap pool) idx |>).

Record page_pool_stats := { total_pages : Z; used_pages : Z; free_pages : Z }.

Fixpoint stats_loop (n : nat) (idx used : Z) (pool : page_pool) : outcome Z :=
  match n with
  | O => Ret used
  | S n => w ← bitmap_weight (word (bitmap pool) idx); stats_loop n (idx + 1) (u64 (used + w)) pool
  end.

Definition page_pool_get_stats (pool : page_pool) : outcome page_pool_stats :=
  used ← stats_loop (Z.to_nat (bitmap_size pool)) 0 0 pool;
  let total := u64 (Z.shiftl (bitmap_size pool) 6) in
  Ret {| total_pages := total; used_pages := used; free_pages := u64 (total - used) |}.

(** ** Memory laws *)
Lemma mload_mstore a v m b : mload (mstore a v m) b = if a =? b then v else mload m b.
Proof.
  unfold mload, mstore. destruct (Z.eqb_spec a b) as [->|].
  - by rewrite lookup_insert_eq.
  - by rewrite lookup_insert_ne.
Qed.

Lemma sanitize_loop_load : forall n p i m b,
  mload (sanitize_loop n p i m) b =
    if existsb (fun k => b =? entry_ptr p (i + Z.of_nat k)) (seq 0 n) then 0 else mload m b.
Proof.
  induction n as [|n IH]; intros p i m b; cbn [sanitize_loop seq existsb]; [done|].
  rewrite IH. unfold sanitize_pte_entry, sanitized_page_hpa. rewrite mload_mstore, Z.add_0_r, (Z.eqb_sym _ b).
  rewrite <- (seq_shift n 0). assert (forall l,
    existsb (fun k => b =? entry_ptr p (i + Z.of_nat k)) (S <$> l) =
    existsb (fun k => b =? entry_ptr p (i + 1 + Z.of_nat k)) l) as ->.
  { induction l as [|k l IHl]; cbn; [done|]. rewrite IHl. do 3 f_equal. unfold entry_ptr. lia. }
  destruct (existsb _ _); [by rewrite orb_true_r|]. by rewrite orb_false_r.
Qed.

(** The words of the page read as zero, no other word changes. *)
Lemma sanitize_pte_load p m b :
  (forall i, 0 <= i < 512 -> mload (sanitize_pte p m) (entry_ptr p i) = 0) /\
  ((forall i, 0 <= i < 512 -> b <> entry_ptr p i) -> mload (sanitize_pte p m) b = mload m b).
Proof.
  unfold sanitize_pte. split.
  - intros i Hi. rewrite sanitize_loop_load.
    assert (existsb (fun k => entry_ptr p i =? entry_ptr p (0 + Z.of_nat k)) (seq 0 (Z.to_nat PTRS_PER_PGTL0E)) = true) as ->; [|done].
    apply existsb_exists. exists (Z.to_nat i). split; [apply in_seq; unfold PTRS_PER_PGTL0E; lia|].
    apply Z.eqb_eq. f_equal. lia.
  - intros H. rewrite sanitize_loop_load.
    destruct (existsb _ _) eqn:E; [|done]. apply existsb_exists in E as (k & Hk%in_seq & Hb%Z.eqb_eq).
    unfold PTRS_PER_PGTL0E in Hk. exfalso. apply (H (Z.of_nat k)); [lia|]. by rewrite Hb.
Qed.

(** ** Pools in use *)

(** A pool whose bitmap covers its pages, inside the 48-bit output address
    space and without a dummy page. *)
Definition pool_ok (pool : page_pool) : Prop :=
  0 < bitmap_size pool <= Z.of_nat (length (bitmap pool)) /\ Forall in_u64 (bitmap pool) /\
  0 <= last_hint_id pool < bitmap_size pool /\
  0 < start_page pool /\ start_page pool mod PAGE_SIZE = 0 /\
  start_page pool + 64 * bitmap_size pool * PAGE_SIZE <= 2 ^ 48 /\ dummy_page pool = 0.

Definition in_pool (pool : page_pool) (q : Z) : Prop :=
  start_page pool <= q < start_page pool + 64 * bitmap_size pool * PAGE_SIZE /\ q mod PAGE_SIZE = 0.

(** The bit of page number [id]. *)
Definition page_bit (pool : page_pool) (id : Z) : bool :=
  Z.testbit (word (bitmap pool) (id / 64)) (id mod 64).

Definition page_id (pool : page_pool) (q : Z) : Z := (q - start_page pool) / PAGE_SIZE.

Definition allocated (pool : page_pool) (q : Z) : Prop :=
  in_pool pool q /\ page_bit pool (page_id pool q) = true.

Definition free_ids (pool : page_pool) : list Z :=
  filter (fun id => page_bit pool id = false) (seqZ 0 (64 * bitmap_size pool)).
Definition free_count (pool : page_pool) : nat := length (free_ids pool).

Lemma page_id_range pool q : pool_ok pool -> in_pool pool q ->
  0 <= page_id pool q < 64 * bitmap_size pool /\ q = start_page pool + page_id pool q * PAGE_SIZE.
Proof.
  intros (_ & _ & _ & H1 & H2 & _) [H3 H4]. unfold page_id, PAGE_SIZE in *.
  assert ((q - start_page pool) mod 4096 = 0) by (rewrite Zminus_mod, H2, H4; done). mlia.
Qed.

Lemma in_pool_page pool id : pool_ok pool -> 0 <= id < 64 * bitmap_size pool ->
  in_pool pool (start_page pool + id * PAGE_SIZE) /\ page_id pool (start_page pool + id * PAGE_SIZE) = id.
Proof.
  intros (_ & _ & _ & H1 & H2 & _) Hid. unfold in_pool, page_id, PAGE_SIZE in *. split_and!; [lia|lia| |].
  - by rewrite Z.mod_add.
  - rewrite Z.add_simpl_l. by apply Z.div_mul.
Qed.

(** The pages of a pool determine where it starts and its size. *)
Lemma in_pool_same pool pool' : pool_ok pool -> pool_ok pool' -> (forall q, in_pool pool' q <-> in_pool pool q) ->
  start_page pool' = start_page pool /\ bitmap_size pool' = bitmap_size pool.
Proof.
  intros P P' H. assert (forall p, pool_ok p -> 0 < bitmap_size p) as Hpos by (intros p (? & _); lia).
  pose proof (Hpos _ P). pose proof (Hpos _ P').
  assert (forall p p', pool_ok p -> pool_ok p' -> (forall q, in_pool p q -> in_pool p' q) -> start_page p' <= start_page p /\
    start_page p + 64 * bitmap_size p * PAGE_SIZE <= start_page p' + 64 * bitmap_size p' * PAGE_SIZE) as Hsub.
  { intros p p' Hp Hp' Hq. pose proof (Hpos p Hp). destruct (in_pool_page p 0 Hp ltac:(lia)) as [I0 _].
    destruct (in_pool_page p (64 * bitmap_size p - 1) Hp ltac:(lia)) as [I1 _].
    apply Hq in I0, I1. destruct I0 as [? A0], I1 as [? A1]. destruct Hp as (_ & _ & _ & _ & Ha & _), Hp' as (_ & _ & _ & _ & Ha' & _).
    unfold PAGE_SIZE in *. mlia. }
  destruct (Hsub pool pool' P P' (fun q => proj2 (H q))), (Hsub pool' pool P' P (fun q => proj1 (H q))). unfold PAGE_SIZE in *. lia.
Qed.

Lemma word_u64 l i : Forall in_u64 l -> in_u64 (word l i).
Proof.
  intros H. unfold word. rewrite nth_lookup. destruct (l !! Z.to_nat i) eqn:E; cbn; [|unfold in_u64; lia].
  by eapply Forall_lookup in H.
Qed.

(** ** One bit of the bitmap changes *)

(** [pool'] is [pool] with the bit of page [id] set to [b]. *)
Definition bit_changed (pool pool' : page_pool) (id : Z) (b : bool) : Prop :=
  start_page pool' = start_page pool /\ bitmap_size pool' = bitmap_size pool /\
  (forall i, 0 <= i < 64 * bitmap_size pool ->
    page_bit pool' i = if i =? id then b else page_bit pool i).

Lemma bit_changed_allocated pool pool' id b : pool_ok pool -> bit_changed pool pool' id b ->
  0 <= id < 64 * bitmap_size pool ->
  forall q, allocated pool' q <->
    if b then allocated pool q \/ q = start_page pool + id * PAGE_SIZE
    else allocated pool q /\ q <> start_page pool + id * PAGE_SIZE.
Proof.
  intros Hok (Es & Ez & Eb) Hid q. destruct (in_pool_page pool id Hok Hid) as [Hin Epid].
  unfold allocated. unfold in_pool at 1, page_id at 1. rewrite Es, Ez. fold (in_pool pool q) (page_id pool q).
  destruct (decide (q = start_page pool + id * PAGE_SIZE)) as [->|Hne].
  - rewrite Epid, Eb, Z.eqb_refl by done. destruct b; tauto || (intuition discriminate).
  - assert (in_pool pool q -> page_bit pool' (page_id pool q) = page_bit pool (page_id pool q)) as E.
    { intros H. destruct (page_id_range _ _ Hok H) as [Hr Hq]. rewrite Eb by done.
      destruct (Z.eqb_spec (page_id pool q) id) as [E|]; [|done]. by rewrite E in Hq. }
    destruct b; intuition congruence.
Qed.

Lemma bit_changed_count pool pool' id : bit_changed pool pool' id true ->
  0 <= id < 64 * bitmap_size pool -> page_bit pool id = false -> free_count pool = S (free_count pool').
Proof.
  intros (Es & Ez & Eb) Hid H0. unfold free_count, free_ids. rewrite Ez.
  apply (filter_length_remove _ _ _ id); [apply NoDup_seqZ|apply elem_of_seqZ; lia|done|].
  intros i Hi%elem_of_seqZ. rewrite Eb by lia. destruct (Z.eqb_spec i id) as [->|]; intuition congruence.
Qed.

Lemma bit_changed_count_clear pool pool' id : bit_changed pool pool' id false ->
  0 <= id < 64 * bitmap_size pool -> page_bit pool id = true -> free_count pool' = S (free_count pool).
Proof.
  intros (Es & Ez & Eb) Hid H0. apply (bit_changed_count pool' pool id); [|by rewrite Ez|].
  - split_and!; [done..|]. intros i Hi. rewrite Eb by congruence. destruct (Z.eqb_spec i id) as [->|]; done.
  - by rewrite Eb, Z.eqb_refl.
Qed.

Section BitUpdate.
Context (pool : page_pool) (idx bit : Z).
Hypothesis Hok : pool_ok pool.
Hypothesis Hidx : 0 <= idx < bitmap_size pool.
Hypothesis Hbit : 0 <= bit < 64.

Lemma split_id i : 0 <= i -> (i =? idx * 64 + bit) = (i / 64 =? idx) && (bit =? i mod 64).
Proof.
  intros Hi. destruct (Z.eqb_spec i (idx * 64 + bit)) as [->|Hne].
  - rewrite Z.div_add_l, Z.div_small, Z.add_0_r, Z.eqb_refl by lia. rewrite Z.add_comm, Z.mod_add, Z.mod_small by lia.
    by rewrite Z.eqb_refl.
  - symmetry. apply andb_false_iff. rewrite !Z.eqb_neq. mlia.
Qed.

Lemma set_word_ok w : in_u64 w -> pool_ok (pool <| bitmap := set_word (bitmap pool) idx w |>).
Proof.
  intros Hw. destruct Hok as (H1 & H2 & H3). unfold pool_ok. cbn. rewrite set_word_length.
  split_and!; try apply H3; try lia. unfold set_word. by apply Forall_insert.
Qed.

Lemma bitmap_set_changed :
  let pool' := pool <| bitmap := bitmap_set_non_atomic bit (bitmap pool) idx |> in
  pool_ok pool' /\ bit_changed pool pool' (idx * 64 + bit) true.
Proof.
  cbn zeta. pose proof Hok as (H1 & H2 & _). split.
  - apply set_word_ok. apply lor_u64; [by apply word_u64|apply bit64_u64].
  - split_and!; [done..|]. intros i Hi. rewrite split_id by lia. unfold page_bit. cbn.
    destruct (Z.eqb_spec (i / 64) idx) as [->|].
    + rewrite set_bits, bit_nr_small by mlia. destruct (bit =? i mod 64); [apply orb_true_r|apply orb_false_r].
    + unfold bitmap_set_non_atomic. rewrite word_set by mlia. by rewrite (proj2 (Z.eqb_neq (i / 64) idx)).
Qed.

Lemma bitmap_clear_changed :
  let pool' := pool <| bitmap := bitmap_clear_non_atomic bit (bitmap pool) idx |> in
  pool_ok pool' /\ bit_changed pool pool' (idx * 64 + bit) false.
Proof.
  cbn zeta. pose proof Hok as (H1 & H2 & _). split.
  - apply set_word_ok. apply land_u64; [by apply word_u64|apply u64_range].
  - split_and!; [done..|]. intros i Hi. rewrite split_id by lia. unfold page_bit. cbn.
    destruct (Z.eqb_spec (i / 64) idx) as [->|].
    + rewrite clear_bits, bit_nr_small by mlia. destruct (bit =? i mod 64); [apply andb_false_r|apply andb_true_r].
    + unfold bitmap_clear_non_atomic. rewrite word_set by mlia. by rewrite (proj2 (Z.eqb_neq (i / 64) idx)).
Qed.
End BitUpdate.

(** ** Allocation *)
Lemma alloc_scan_spec pool : pool_ok pool -> forall n i, 0 <= i -> i + Z.of_nat n <= 2 ^ 63 ->
  match alloc_scan n i pool with
  | Some (idx, bit) => 0 <= idx < bitmap_size pool /\ 0 <= bit < 64 /\ page_bit pool (idx * 64 + bit) = false
  | None => forall k, 0 <= k < Z.of_nat n -> word (bitmap pool) ((i + k) mod bitmap_size pool) = UINT64_MAX
  end.
Proof.
  intros (H1 & H2 & _) n. induction n as [|n IH]; intros i Hi Hb; cbn [alloc_scan]; [lia|].
  destruct (Z.eqb_spec (word (bitmap pool) (i mod bitmap_size pool)) UINT64_MAX) as [E|Hne]; cbn [negb].
  - rewrite u64_small by (unfold in_u64; lia). specialize (IH (i + 1) ltac:(lia) ltac:(lia)).
    destruct (alloc_scan n (i + 1) pool) as [[idx bit]|]; [done|]. intros k Hk.
    destruct (decide (k = 0)) as [->|]; [by rewrite Z.add_0_r|].
    replace (i + k) with (i + 1 + (k - 1)) by lia. apply IH. lia.
  - destruct (ffz64_spec _ (word_u64 _ (i mod bitmap_size pool) H2) Hne) as [Hr Hf].
    split_and!; [apply Z.mod_pos_bound; lia..|apply Hr|apply Hr|]. unfold page_bit.
    set (b := ffz64 _) in *. set (idx := i mod _) in *.
    rewrite Z.div_add_l, (Z.div_small b), Z.add_0_r, (Z.add_comm _ b), Z.mod_add, (Z.mod_small b) by lia. done.
Qed.

Lemma all_ones_bit j : 0 <= j < 64 -> Z.testbit UINT64_MAX j = true.
Proof. intros. change UINT64_MAX with (Z.ones 64). apply Z.ones_spec_low. lia. Qed.

(** The scan fails only when no page is free. *)
Lemma alloc_scan_none pool : pool_ok pool ->
  alloc_scan (Z.to_nat (bitmap_size pool)) (last_hint_id pool) pool = None <-> free_count pool = 0%nat.
Proof.
  intros Hok. pose proof Hok as (H1 & _ & H3 & H4 & _ & H6 & _). unfold PAGE_SIZE in *.
  pose proof (alloc_scan_spec pool Hok (Z.to_nat (bitmap_size pool)) (last_hint_id pool) ltac:(lia) ltac:(lia)) as Hs.
  unfold free_count, free_ids.
  split.
  - intros E. rewrite E in Hs. rewrite list_filter_none; [done|]. intros id Hid%elem_of_seqZ.
    specialize (Hs ((id / 64 - last_hint_id pool) mod bitmap_size pool)
      ltac:(rewrite Z2Nat.id by lia; apply Z.mod_pos_bound; lia)).
    rewrite Zplus_mod_idemp_r, Zplus_minus, Z.mod_small in Hs by mlia.
    unfold page_bit. rewrite Hs, all_ones_bit by mlia. done.
  - intros E%nil_length_inv. destruct (alloc_scan _ _ _) as [[idx bit]|]; [|done].
    destruct Hs as (Hi & Hb & Hf). exfalso. eapply (filter_nil_not_elem_of _ _ (idx * 64 + bit)); [exact E|exact Hf|].
    apply elem_of_seqZ. lia.
Qed.

(** What a successful allocation of page [q] does to the pool. *)
Definition taken (pool pool' : page_pool) (q : Z) : Prop :=
  pool_ok pool' /\ in_pool pool q /\ ~ allocated pool q /\
  (forall q', in_pool pool' q' <-> in_pool pool q') /\
  (forall q', allocated pool' q' <-> allocated pool q' \/ q' = q) /\ free_count pool = S (free_count pool').

Lemma alloc_page_spec pool m : pool_ok pool ->
  if decide (free_count pool = 0%nat) then alloc_page pool m = Panic "no page aviable!"
  else exists q pool', alloc_page pool m = Ret (q, pool', sanitize_pte q m) /\ taken pool pool' q.
Proof.
  intros Hok. pose proof Hok as (H1 & H2 & H3 & H4 & H5 & H6 & H7). unfold PAGE_SIZE in *. unfold alloc_page.
  pose proof (alloc_scan_spec pool Hok (Z.to_nat (bitmap_size pool)) (last_hint_id pool) ltac:(lia) ltac:(lia)) as Hs.
  destruct (decide _) as [Hf|Hf].
  { rewrite <- alloc_scan_none in Hf by done. rewrite Hf. done. }
  rewrite <- alloc_scan_none in Hf by done.
  destruct (alloc_scan _ _ _) as [[idx bit]|]; [clear Hf|done]. destruct Hs as (Hi & Hb & Hfree).
  rewrite Z.shiftl_mul_pow2, u64_small by (unfold in_u64; lia). change (2 ^ 6) with 64.
  destruct (bitmap_set_changed pool idx bit Hok Hi Hb) as [Hok' Hch].
  assert (0 <= idx * 64 + bit < 64 * bitmap_size pool) as Hid by lia.
  destruct (in_pool_page pool _ Hok Hid) as [Hin Epid].
  unfold PAGE_SIZE in *. set (q := start_page pool + (idx * 64 + bit) * 4096) in *.
  assert (q <> 0) as Hq by lia. rewrite (proj2 (Z.eqb_neq q 0) Hq). cbn [negb ASSERT mbind outcome_bind].
  rewrite (proj2 (Z.eqb_neq q 0) Hq). eexists q, _. split; [done|].
  set (pool1 := pool <| bitmap := _ |>) in *. set (pool2 := pool1 <| last_hint_id := idx |>).
  assert (pool_ok pool2) as Hok2 by (destruct Hok' as (A1 & A2 & A3 & A4); unfold pool_ok; cbn in *; tauto).
  assert (bit_changed pool pool2 (idx * 64 + bit) true) as Hch2 by exact Hch.
  refine (conj Hok2 (conj Hin (conj _ (conj _ (conj _ _))))).
  - intros [_ Ha]. rewrite Epid in Ha. congruence.
  - done.
  - intros q'. apply (bit_changed_allocated pool pool2 _ true Hok Hch2 Hid).
  - by apply (bit_changed_count pool pool2 (idx * 64 + bit)).
Qed.

(** ** Release *)
Definition returned (pool pool' : page_pool) (q : Z) : Prop :=
  pool_ok pool' /\ (forall q', in_pool pool' q' <-> in_pool pool q') /\
  (forall q', allocated pool' q' <-> allocated pool q' /\ q' <> q) /\ free_count pool' = S (free_count pool).

(** The range and double-free checks let exactly the allocated pages through. *)
Lemma free_page_spec pool q : pool_ok pool -> in_u64 q ->
  (allocated pool q /\ exists pool', free_page pool q = Ret pool' /\ returned pool pool' q) \/
  (~ allocated pool q /\ exists why, free_page pool q = Panic why).
Proof.
  intros Hok Hq. pose proof Hok as (H1 & H2 & H3 & H4 & H5 & H6 & H7). unfold in_u64 in Hq. unfold free_page, PAGE_SIZE in *.
  destruct (Z.eqb_spec q 0) as [->|Hq0].
  { right. split; [|eauto]. intros [[Hin _] _]. lia. }
  rewrite Z.shiftl_mul_pow2 by lia. change (2 ^ 6) with 64. rewrite !(u64_small (bitmap_size pool * 64)),
    (u64_small (bitmap_size pool * 64 * 4096)) by (unfold in_u64; lia).
  change (4096 - 1) with (Z.ones 12). rewrite Z.land_ones by lia. change (2 ^ 12) with 4096.
  destruct (Z.eqb_spec (q mod 4096) 0) as [Ha|Ha]; cbn [negb orb].
  2:{ right. split; [|eauto]. intros [[_ Hin] _]. done. }
  destruct (Z.ltb_spec q (start_page pool)) as [Hs|Hs]; cbn [negb orb].
  { right. split; [|eauto]. intros [[Hin _] _]. lia. }
  rewrite u64_small by (unfold in_u64; lia).
  destruct (Z.leb_spec (bitmap_size pool * 64 * 4096) (q - start_page pool)) as [Hr|Hr].
  { right. split; [|eauto]. intros [[Hin _] _]. unfold PAGE_SIZE in *. lia. }
  assert (in_pool pool q) as Hin by (unfold in_pool, PAGE_SIZE; lia).
  destruct (page_id_range pool q Hok Hin) as [Hid Hpage]. unfold PAGE_SIZE in Hpage.
  change ((q - start_page pool) / 4096) with (page_id pool q). set (id := page_id pool q) in *.
  change 63 with (Z.ones 6). rewrite Z.land_ones, Z.shiftr_div_pow2 by lia. change (2 ^ 6) with 64.
  rewrite bit64_pow, land_pow2 by mlia. change (Z.testbit _ _) with (page_bit pool id).
  destruct (page_bit pool id) eqn:E; cbn [negb].
  - left. split; [by split|]. eexists. split; [done|].
    destruct (bitmap_clear_changed pool (id / 64) (id mod 64) Hok ltac:(mlia) ltac:(mlia)) as [Hok' Hch].
    replace (id / 64 * 64 + id mod 64) with id in Hch by mlia.
    refine (conj Hok' (conj _ (conj _ _))); [done| |].
    + intros q'. rewrite Hpage at 1. apply (bit_changed_allocated pool _ _ false Hok Hch Hid).
    + by apply (bit_changed_count_clear pool _ id).
  - right. split; [|eauto]. intros [_ Hb]. fold id in Hb. congruence.
Qed.

(** A new pool is well formed and all its pages are free. *)
Lemma init_page_pool_ok base arr n pool : Forall in_u64 arr -> n <= 64 * Z.of_nat (length arr) -> n < 2 ^ 31 ->
  0 <= base -> base mod PAGE_SIZE = 0 -> base + n * PAGE_SIZE <= 2 ^ 48 ->
  init_page_pool base arr n = Ret pool ->
  pool_ok pool /\ start_page pool = base /\ 64 * bitmap_size pool = n /\ (forall q, ~ allocated pool q) /\
  Z.of_nat (free_count pool) = n.
Proof.
  intros Ha Hn H31 Hb Hal Hend. unfold init_page_pool, PAGE_SIZE in *.
  destruct (Z.eqb_spec base 0) as [|Hb0]; [discriminate|]. destruct (Z.leb_spec n 0) as [|Hn0]; [discriminate|].
  rewrite u32_small by (unfold in_u32; lia). change 63 with (Z.ones 6). rewrite Z.land_ones by lia. change (2 ^ 6) with 64.
  destruct (Z.eqb_spec (n mod 64) 0) as [Hm|]; cbn [negb orb]; [|discriminate]. intros [= <-].
  rewrite Z.div_div by lia. change (8 * 8) with 64. set (k := n / 64). assert (64 * k = n) as Ek by (subst k; mlia).
  set (pool := {| start_page := _ |}).
  assert (pool_ok pool) as Hok.
  { unfold pool_ok, PAGE_SIZE. cbn. rewrite length_app, length_replicate, length_drop. split_and!; try (done || lia).
    apply Forall_app. split; [apply Forall_replicate; unfold in_u64; lia|by apply Forall_drop]. }
  assert (forall id, 0 <= id < n -> page_bit pool id = false) as Hz.
  { intros id Hid. unfold page_bit, word. cbn. rewrite nth_lookup, lookup_app_l by (rewrite length_replicate; mlia).
    rewrite (proj2 (lookup_replicate _ 0 0 _)) by (split; [done|mlia]). apply Z.bits_0. }
  split; [done|]. split_and!; [done|done| |].
  - intros q [Hin Hbit]. rewrite Hz in Hbit; [done|]. pose proof (page_id_range _ _ Hok Hin) as [Hr _]. cbn in Hr. lia.
  - unfold free_count, free_ids. change (bitmap_size pool) with k. rewrite list_filter_all.
    + rewrite length_seqZ. lia.
    + intros id Hid%elem_of_seqZ. apply Hz. lia.
Qed.

(** ** Statistics *)
Lemma stats_loop_spec pool : pool_ok pool -> forall n idx used,
  0 <= idx -> idx + Z.of_nat n = bitmap_size pool -> 0 <= used -> used + 64 * Z.of_nat n < 2 ^ 63 ->
  stats_loop n idx used pool = Ret (used +
    Z.of_nat (length (filter (fun id => page_bit pool id = true) (seqZ (64 * idx) (64 * Z.of_nat n))))).
Proof.
  intros (H1 & H2 & _). induction n as [|n IH]; intros idx used Hi Hn Hu Hb; cbn [stats_loop].
  { rewrite seqZ_nil by lia. cbn. f_equal. lia. }
  rewrite bitmap_weight_spec by (by apply word_u64). cbn [mbind outcome_bind].
  pose proof (popcount_le (word (bitmap pool) idx)) as Hp. rewrite u64_small by (unfold in_u64; lia).
  rewrite IH by lia. f_equal. replace (64 * Z.of_nat (S n)) with (64 + 64 * Z.of_nat n) by lia.
  rewrite seqZ_app, filter_app, length_app, Nat2Z.inj_add, <- Z.add_assoc by lia.
  replace (64 * idx + 64) with (64 * (idx + 1)) by lia. do 3 f_equal.
  unfold popcount. replace (seqZ (64 * idx) 64) with ((fun j => 64 * idx + j) <$> seqZ 0 64)
    by (rewrite fmap_add_seqZ; f_equal; lia).
  rewrite filter_length_fmap. apply filter_length_ext. intros j Hj%elem_of_seqZ. cbn.
  unfold page_bit. by rewrite (Z.mul_comm 64), Z.div_add_l, (Z.div_small j), Z.add_0_r, (Z.add_comm _ j), Z.mod_add,
    (Z.mod_small j) by lia.
Qed.

(** [page_pool_get_stats] counts the set bits word by word: the numbers it
    reports are the numbers of allocated and of free pages. *)
Lemma page_pool_stats_exact pool : pool_ok pool ->
  exists s, page_pool_get_stats pool = Ret s /\
    total_pages s = 64 * bitmap_size pool /\ free_pages s = Z.of_nat (free_count pool) /\
    used_pages s + free_pages s = total_pages s.
Proof.
  intros Hok. pose proof Hok as (H1 & _ & _ & H4 & _ & H6 & _). unfold PAGE_SIZE in H6. unfold page_pool_get_stats.
  rewrite (stats_loop_spec pool Hok) by lia. rewrite Z2Nat.id by lia. cbn [mbind outcome_bind].
  eexists. split; [done|]. cbn. rewrite Z.shiftl_mul_pow2 by lia. change (2 ^ 6) with 64.
  rewrite (u64_small (bitmap_size pool * 64)) by (unfold in_u64; lia).
  unfold free_count, free_ids. rewrite Z.mul_0_r.
  assert (Z.of_nat (length (filter (fun id => page_bit pool id = true) (seqZ 0 (64 * bitmap_size pool)))) +
    Z.of_nat (length (filter (fun id => page_bit pool id = false) (seqZ 0 (64 * bitmap_size pool)))) =
    64 * bitmap_size pool) as E.
  { rewrite <- (Z2Nat.id (64 * bitmap_size pool)) at 3 by lia. rewrite <- (length_seqZ 0), <- Nat2Z.inj_add. f_equal.
    induction (seqZ 0 (64 * bitmap_size pool)) as [|i l IH]; [done|]. rewrite !filter_cons.
    destruct (page_bit pool i); cbn [decide]; repeat case_decide; try done; cbn [length]; lia. }
  rewrite u64_small by (unfold in_u64; lia). lia.
Qed.
