(* ===== verification/Pgtable.v ===== *)
(** * The page-table walker of core/mmu.c

    The architecture-neutral walker builds, splits, changes and removes
    four-level translation tables through the hooks of a [struct pgtable].  A
    level is the value of the C enum, 0 for the root [PGT_LVL3] to 3 for
    [PGT_LVL0].  The two middle levels of each operation are the same code at
    different sizes; they are one definition here, with the next lower level as
    an argument.  Log output and cache maintenance have no effect on the tables
    and are left out; host virtual and physical addresses are equal. *)
From S2P Require Import Prelude Bits PagePool.

Definition MR_DEL : Z := 2.
Definition MR_MODIFY : Z := 3.
Definition PGT_LVL3 : Z := 0.
Definition PGT_LVL2 : Z := 1.
Definition PGT_LVL1 : Z := 2.
Definition PGT_LVL0 : Z := 3.
Definition PTRS_PER_PGTL : Z := 512.
Definition PFN_MASK : Z := 0xFFFFFFFFF000.
Definition PAGE_MASK : Z := 0xFFFFFFFFFFFFF000.
Definition PAGE_DESC_VALID : Z := 1.
Definition PAGE_BLOCK_DESC : Z := 1.
Definition PAGE_PAGE_DESC : Z := 3.
Definition PAGE_TABLE_DESC : Z := 3.
Definition PAGE_DESC_TYPE_MASK : Z := 3.
Definition PGTABLE_LEAF_LVL0 : Z := 8.
Definition PGTABLE_LEAF_LEVEL_MASK : Z := 14.
Definition PGTABLE_UPDATE_MAP : Z := 1.
Definition PGTABLE_UPDATE_MODIFY : Z := 2.
Definition PGTABLE_UPDATE_DELETE : Z := 4.

(** [PGD_SHIFT], [PUD_SHIFT], [PMD_SHIFT], [PTE_SHIFT]. *)
Definition pgtl_shift (level : Z) : Z := PAGE_SHIFT + (3 - level) * 9.

Definition get_level_size (level : Z) : Z :=
  if (0 <=? level) && (level <=? 3) then Z.shiftl 1 (pgtl_shift level) else 0.

(** [PGTLn_MASK] = ~(PGTLn_SIZE - 1). *)
Definition level_mask (level : Z) : Z := not64 (get_level_size level - 1).

(** [pgtl3e_index] to [pgtl0e_index]. *)
Definition pgtle_index (level address : Z) : Z :=
  Z.land (Z.shiftr address (pgtl_shift level)) (PTRS_PER_PGTL - 1).

Definition round_page_up (addr : Z) : Z := Z.land (u64 (u64 (addr + PAGE_SIZE) - 1)) PAGE_MASK.
Definition round_page_down (addr : Z) : Z := Z.land addr PAGE_MASK.
Definition mem_aligned_check (value req_align : Z) : bool := Z.land value (u64 (req_align - 1)) =? 0.

(** ** Descriptors *)
Definition arch_pgtl_large (pgtle : Z) : bool :=
  negb (Z.land pgtle PAGE_DESC_VALID =? 0) && (Z.land pgtle PAGE_DESC_TYPE_MASK =? PAGE_BLOCK_DESC).
Definition arch_pgtl_page_paddr (pgtle : Z) : Z := Z.land pgtle PFN_MASK.
Definition page_addr (pgtle : Z) : Z := arch_pgtl_page_paddr pgtle.
Definition pfn2paddr (pfn : Z) : Z := u64 (Z.shiftl (Z.shiftr pfn 12) PAGE_SHIFT).
Definition paddr2pfn (paddr : Z) : Z := u64 (Z.shiftl (Z.shiftr paddr PAGE_SHIFT) 12).

(** The word [make_pgentry] stores. *)
Definition make_pgentry (page prot : Z) : Z := Z.lor prot (paddr2pfn page).

(** ** The hooks of a table

    [set_pgentry] gives the word the hook stores.  [replace_pgentry] is the
    optional break-before-make hook: it publishes its second argument in place
    of a valid descriptor, or stops the system. *)
Record pgtable := {
  pgentry_present : Z -> Z;
  large_page_support : Z -> Z -> bool;
  set_pgentry : Z -> Z -> Z -> bool -> Z;
  replace_pgentry : option (Z -> Z -> Z -> outcome Z);
}.

Record pgtable_update := {
  retired_bitmap : list Z;
  retired_bitmap_words : Z;
  retired_pages : Z;
  range_start : Z;
  range_end : Z;
  operations : Z;
  changed : bool;
}.
#[export] Instance pgtable_update_eta : Eta pgtable_update := fun r =>
  {| retired_bitmap := retired_bitmap r; retired_bitmap_words := retired_bitmap_words r;
     retired_pages := retired_pages r; range_start := range_start r; range_end := range_end r;
     operations := operations r; changed := changed r |}.

Record pgtable_map_request := {
  paddr_base : Z;
  vaddr_base : Z;
  map_size : Z;
  prot : Z;
  allowed_leaf_levels : Z;
}.

(** What an operation works on: memory, the pool of the table and the update
    batch of the caller, absent for [update == NULL]. *)
Record walk := { mem : memory; pool : page_pool; update : option pgtable_update }.
#[export] Instance walk_eta : Eta walk := fun r => {| mem := mem r; pool := pool r; update := update r |}.

Definition load (s : walk) (a : Z) : Z := mload (mem s) a.
Definition store (a v : Z) (s : walk) : walk := s <| mem := mstore a v (mem s) |>.
Definition set_changed (s : walk) : walk :=
  s <| update := (fun u => u <| changed := true |>) <$> update s |>.

(** [alloc_page(table->pool)]. *)
Definition walk_alloc (s : walk) : outcome (Z * walk) :=
  '(page, p, m) ← alloc_page (pool s) (mem s);
  Ret (page, s <| pool := p |> <| mem := m |>).

(** ** Update batches *)
Definition pgtable_update_init (retired : list Z) (words : Z) (p : page_pool) : outcome pgtable_update :=
  if words <? bitmap_size p then Panic "invalid deferred page-table update"
  else Ret {| retired_bitmap := replicate (Z.to_nat words) 0 ++ drop (Z.to_nat words) retired;
              retired_bitmap_words := words; retired_pages := 0; range_start := 0; range_end := 0;
              operations := 0; changed := false |}.

Definition pgtable_update_record_range (start finish operation : Z) (s : walk) : walk :=
  s <| update := (fun u =>
    let u1 := if (operations u =? 0) || (start <? range_start u) then u <| range_start := start |> else u in
    let u2 := if (operations u1 =? 0) || (range_end u1 <? finish) then u1 <| range_end := finish |> else u1 in
    u2 <| operations := Z.lor (operations u2) operation |>) <$> update s |>.

Definition pgtable_update_record (start finish operation : Z) (s : walk) : walk :=
  set_changed (pgtable_update_record_range start finish operation s).

(** [defer_pgtable_page]: the bitmap operations get the page number and the start
    of the retired bitmap, as in the source. *)
Definition defer_pgtable_page (pt_page : Z) (s : walk) : outcome walk :=
  match update s with
  | None => p ← free_page (pool s) pt_page; Ret (s <| pool := p |>)
  | Some u =>
      let pool_start := start_page (pool s) in
      let pool_pages := u64 (Z.shiftl (bitmap_size (pool s)) 6) in
      if (pt_page <? pool_start) || (u64 (pool_pages * PAGE_SIZE) <=? u64 (pt_page - pool_start)) ||
         negb (u64 (pt_page - pool_start) mod PAGE_SIZE =? 0)
      then Panic "deferred page-table page is outside its pool"
      else
        let page_id := u64 (pt_page - pool_start) / PAGE_SIZE in
        if retired_bitmap_words u <=? Z.shiftr page_id 6 then Panic "deferred page-table bitmap overflow"
        else if bitmap_test page_id (retired_bitmap u) 0 then Panic "duplicate deferred page-table page"
        else Ret (s <| update := Some (u
                    <| retired_bitmap := bitmap_set_non_atomic page_id (retired_bitmap u) 0 |>
                    <| retired_pages := u64 (retired_pages u + 1) |>) |>)
  end.

(** [pgtable_free_retired_pages]: the loop over all page numbers of the pool. *)
Fixpoint free_retired_loop (n : nat) (page_id freed : Z) (u : pgtable_update) (p : page_pool)
  : outcome (Z * pgtable_update * page_pool) :=
  match n with
  | O => Ret (freed, u, p)
  | S n =>
      if bitmap_test page_id (retired_bitmap u) 0 then
        p ← free_page p (start_page p + page_id * PAGE_SIZE);
        free_retired_loop n (page_id + 1) (freed + 1)
          (u <| retired_bitmap := bitmap_clear_non_atomic page_id (retired_bitmap u) 0 |>) p
      else free_retired_loop n (page_id + 1) freed u p
  end.

Definition pgtable_free_retired_pages (u : pgtable_update) (p : page_pool) : outcome (pgtable_update * page_pool) :=
  if retired_bitmap_words u <? bitmap_size p then Panic "invalid retired page-table batch"
  else
    '(freed, u, p) ← free_retired_loop (Z.to_nat (u64 (Z.shiftl (bitmap_size p) 6))) 0 0 u p;
    if negb (freed =? retired_pages u) then Panic "retired page-table count mismatch"
    else Ret (u <| retired_pages := 0 |>, p).

(** ** The walker *)
Section Walker.
Context (table : pgtable).

Definition present (pte : Z) : bool := negb (pgentry_present table pte =? 0).

Definition replace_pgtable_entry (pte new_pte vaddr size : Z) (s : walk) : outcome walk :=
  match replace_pgentry table with
  | Some hook => v ← hook new_pte vaddr size; Ret (store pte v s)
  | None => Ret (store pte new_pte s)
  end.

(** The index at which the search for a present entry stops. *)
Fixpoint first_present (n : nat) (pt_page index : Z) (s : walk) : Z :=
  match n with
  | O => index
  | S n => if present (load s (entry_ptr pt_page index)) then index else first_present n pt_page (index + 1) s
  end.

Definition try_to_free_pgtable_page (pgte pt_page type : Z) (s : walk) : outcome walk :=
  if type =? MR_DEL then
    if first_present (Z.to_nat PTRS_PER_PGTL) pt_page 0 s =? PTRS_PER_PGTL then
      defer_pgtable_page pt_page (set_changed (store pgte sanitized_page_hpa s))
    else Ret s
  else Ret s.

Fixpoint split_loop (n : nat) (pbase i paddr paddrinc ref_prot level : Z) (s : walk) : walk :=
  match n with
  | O => s
  | S n => split_loop n pbase (i + 1) (u64 (paddr + paddrinc)) paddrinc ref_prot level
             (store (entry_ptr pbase i) (set_pgentry table paddr ref_prot (level + 1) true) s)
  end.

Definition split_large_page (pte level vaddr : Z) (s : walk) : outcome walk :=
  let paddrinc := get_level_size (level + 1) in
  let ref_paddr := Z.land (load s pte) PFN_MASK in
  let ref_prot := Z.land (load s pte) (not64 PFN_MASK) in
  '(pbase, s) ← walk_alloc s;
  let s := split_loop (Z.to_nat PTRS_PER_PGTL) pbase 0 (pfn2paddr ref_paddr) paddrinc ref_prot level s in
  s ← replace_pgtable_entry pte (set_pgentry table pbase 0 level false) vaddr (get_level_size level) s;
  Ret (set_changed s).

Section ModifyOrDelete.
Context (prot_set prot_clr type : Z).

Definition local_modify_or_del_pte (pte vaddr size : Z) (s : walk) : outcome walk :=
  if type =? MR_MODIFY then
    let new_pte := Z.lor (Z.land (load s pte) (not64 prot_clr)) prot_set in
    if negb (new_pte =? load s pte) then
      s ← replace_pgtable_entry pte new_pte vaddr size s; Ret (set_changed s)
    else Ret s
  else Ret (set_changed (store pte sanitized_page_hpa s)).

Fixpoint modify_or_del_loop0 (n : nat) (page index vaddr vaddr_end : Z) (s : walk) : outcome walk :=
  match n with
  | O => Ret s
  | S n =>
      let pgtl0e := entry_ptr page index in
      s ← (if negb (present (load s pgtl0e)) then Ret s
           else local_modify_or_del_pte pgtl0e vaddr (get_level_size PGT_LVL0) s);
      let vaddr := u64 (vaddr + get_level_size PGT_LVL0) in
      if vaddr_end <=? vaddr then Ret s else modify_or_del_loop0 n page (index + 1) vaddr vaddr_end s
  end.

Definition modify_or_del_pgtl0 (pgtl1e vaddr_start vaddr_end : Z) (s : walk) : outcome walk :=
  let pgtl0_page := page_addr (load s pgtl1e) in
  let index := pgtle_index PGT_LVL0 vaddr_start in
  s ← modify_or_del_loop0 (Z.to_nat (PTRS_PER_PGTL - index)) pgtl0_page index vaddr_start vaddr_end s;
  try_to_free_pgtable_page pgtl1e pgtl0_page type s.

(** The loop of [modify_or_del_pgtl1] and [modify_or_del_pgtl2]; [lower] is the
    function of the next level. *)
Fixpoint modify_or_del_loop (level : Z) (lower : Z -> Z -> Z -> walk -> outcome walk)
  (n : nat) (page index vaddr vaddr_end : Z) (s : walk) : outcome walk :=
  match n with
  | O => Ret s
  | S n =>
      let pte := entry_ptr page index in
      let vaddr_next := u64 (Z.land vaddr (level_mask level) + get_level_size level) in
      let continue := modify_or_del_loop level lower n page (index + 1) vaddr_next vaddr_end in
      let descend s :=
        s ← lower pte vaddr vaddr_end s;
        if vaddr_end <=? vaddr_next then Ret s else continue s in
      if negb (present (load s pte)) then
        if vaddr_end <=? vaddr_next then Ret s else continue s
      else if arch_pgtl_large (load s pte) then
        if (vaddr_end <? vaddr_next) || negb (mem_aligned_check vaddr (get_level_size level)) then
          s ← split_large_page pte level vaddr s; descend s
        else
          s ← local_modify_or_del_pte pte vaddr (get_level_size level) s;
          if vaddr_next <? vaddr_end then continue s else Ret s
      else descend s
  end.

Definition modify_or_del_pgtl (level : Z) (lower : Z -> Z -> Z -> walk -> outcome walk)
  (upper_entry vaddr_start vaddr_end : Z) (s : walk) : outcome walk :=
  let page := page_addr (load s upper_entry) in
  let index := pgtle_index level vaddr_start in
  s ← modify_or_del_loop level lower (Z.to_nat (PTRS_PER_PGTL - index)) page index vaddr_start vaddr_end s;
  try_to_free_pgtable_page upper_entry page type s.

Definition modify_or_del_pgtl1 := modify_or_del_pgtl PGT_LVL1 modify_or_del_pgtl0.
Definition modify_or_del_pgtl2 := modify_or_del_pgtl PGT_LVL2 modify_or_del_pgtl1.

(** The loop over the root table.  A range that does not wrap needs at most one
    round for each root entry it touches. *)
Fixpoint modify_or_del_root (fuel : nat) (pgtl3_page vaddr vaddr_end : Z) (s : walk) : outcome walk :=
  if vaddr <? vaddr_end then
    match fuel with
    | O => Hang "pgtable_modify_or_del_map_deferred"
    | S fuel =>
        let vaddr_next := u64 (Z.land vaddr (level_mask PGT_LVL3) + get_level_size PGT_LVL3) in
        let pgtl3e := entry_ptr pgtl3_page (pgtle_index PGT_LVL3 vaddr) in
        s ← (if negb (present (load s pgtl3e)) then
               if type =? MR_MODIFY then Panic "invalid op, pgtl3e not present" else Ret s
             else modify_or_del_pgtl2 pgtl3e vaddr vaddr_end s);
        modify_or_del_root fuel pgtl3_page vaddr_next vaddr_end s
    end
  else Ret s.

Definition root_fuel (vaddr vaddr_end : Z) : nat :=
  S (S (Z.to_nat ((vaddr_end - vaddr) / get_level_size PGT_LVL3))).

Definition pgtable_modify_or_del_map_deferred (pgtl3_page vaddr_base size : Z) (s : walk) : outcome walk :=
  let vaddr := round_page_up vaddr_base in
  let vaddr_end := u64 (vaddr + round_page_down size) in
  let s := pgtable_update_record_range vaddr vaddr_end
             (if type =? MR_MODIFY then PGTABLE_UPDATE_MODIFY else PGTABLE_UPDATE_DELETE) s in
  modify_or_del_root (root_fuel vaddr vaddr_end) pgtl3_page vaddr vaddr_end s.
End ModifyOrDelete.

(** [pgtable_modify_or_del_map]: no update batch, empty tables are freed at once. *)
Definition pgtable_modify_or_del_map (pgtl3_page vaddr_base size prot_set prot_clr type : Z) (s : walk) : outcome walk :=
  s' ← pgtable_modify_or_del_map_deferred prot_set prot_clr type pgtl3_page vaddr_base size (s <| update := None |>);
  Ret (s' <| update := update s |>).

Section AddMap.
Context (request : pgtable_map_request).

Definition pgtable_map_allows_leaf (level paddr vaddr vaddr_next vaddr_end : Z) : bool :=
  negb (Z.land (allowed_leaf_levels request) (u32 (Z.shiftl 1 level)) =? 0) &&
  large_page_support table level (prot request) &&
  mem_aligned_check paddr (get_level_size level) &&
  mem_aligned_check vaddr (get_level_size level) &&
  (vaddr_next <=? vaddr_end).

(** The "already present" branch of the add functions: an error with a
    break-before-make hook, a log line otherwise. *)
Definition overlap (s : walk) : outcome walk :=
  match replace_pgentry table with Some _ => Panic "stage-2 mapping overlap" | None => Ret s end.

Fixpoint add_loop0 (n : nat) (page index paddr vaddr vaddr_end : Z) (s : walk) : outcome walk :=
  match n with
  | O => Ret s
  | S n =>
      let pgtl0e := entry_ptr page index in
      s ← (if present (load s pgtl0e) then overlap s
           else Ret (store pgtl0e (set_pgentry table paddr (prot request) PGT_LVL0 true) s));
      let paddr := u64 (paddr + get_level_size PGT_LVL0) in
      let vaddr := u64 (vaddr + get_level_size PGT_LVL0) in
      if vaddr_end <=? vaddr then Ret s else add_loop0 n page (index + 1) paddr vaddr vaddr_end s
  end.

Definition add_pgtl0 (pgtl1e paddr_start vaddr_start vaddr_end : Z) (s : walk) : outcome walk :=
  let index := pgtle_index PGT_LVL0 vaddr_start in
  add_loop0 (Z.to_nat (PTRS_PER_PGTL - index)) (page_addr (load s pgtl1e)) index paddr_start vaddr_start vaddr_end s.

(** The loop of [add_pgtl1] and [add_pgtl2]. *)
Fixpoint add_loop (level : Z) (lower : Z -> Z -> Z -> Z -> walk -> outcome walk)
  (n : nat) (page index paddr vaddr vaddr_end : Z) (s : walk) : outcome walk :=
  match n with
  | O => Ret s
  | S n =>
      let pte := entry_ptr page index in
      let vaddr_next := u64 (Z.land vaddr (level_mask level) + get_level_size level) in
      let continue := add_loop level lower n page (index + 1) (u64 (paddr + u64 (vaddr_next - vaddr))) vaddr_next vaddr_end in
      let proceed s := if vaddr_end <=? vaddr_next then Ret s else continue s in
      if arch_pgtl_large (load s pte) then s ← overlap s; proceed s
      else if negb (present (load s pte)) then
        if pgtable_map_allows_leaf level paddr vaddr vaddr_next vaddr_end then
          let s := store pte (set_pgentry table paddr (prot request) level true) s in
          if vaddr_next <? vaddr_end then continue s else Ret s
        else
          '(child, s) ← walk_alloc s;
          let s := store pte (set_pgentry table child 0 level false) s in
          s ← lower pte paddr vaddr vaddr_end s; proceed s
      else s ← lower pte paddr vaddr vaddr_end s; proceed s
  end.

Definition add_pgtl (level : Z) (lower : Z -> Z -> Z -> Z -> walk -> outcome walk)
  (upper_entry paddr_start vaddr_start vaddr_end : Z) (s : walk) : outcome walk :=
  let index := pgtle_index level vaddr_start in
  add_loop level lower (Z.to_nat (PTRS_PER_PGTL - index)) (page_addr (load s upper_entry)) index
    paddr_start vaddr_start vaddr_end s.

Definition add_pgtl1 := add_pgtl PGT_LVL1 add_pgtl0.
Definition add_pgtl2 := add_pgtl PGT_LVL2 add_pgtl1.

Fixpoint add_root (fuel : nat) (pgtl3_page paddr vaddr vaddr_end : Z) (s : walk) : outcome walk :=
  if vaddr <? vaddr_end then
    match fuel with
    | O => Hang "pgtable_add_map_deferred"
    | S fuel =>
        let vaddr_next := u64 (Z.land vaddr (level_mask PGT_LVL3) + get_level_size PGT_LVL3) in
        let pgtl3e := entry_ptr pgtl3_page (pgtle_index PGT_LVL3 vaddr) in
        s ← (if negb (present (load s pgtl3e)) then
               '(child, s) ← walk_alloc s; Ret (store pgtl3e (set_pgentry table child 0 PGT_LVL3 false) s)
             else Ret s);
        s ← add_pgtl2 pgtl3e paddr vaddr vaddr_end s;
        add_root fuel pgtl3_page (u64 (paddr + u64 (vaddr_next - vaddr))) vaddr_next vaddr_end s
    end
  else Ret s.

Definition pgtable_add_map_deferred (pgtl3_page : Z) (s : walk) : outcome (Z * walk) :=
  if (pgtl3_page =? 0) || (map_size request =? 0) ||
     negb (Z.land (allowed_leaf_levels request) (u32 (Z.lnot PGTABLE_LEAF_LEVEL_MASK)) =? 0) ||
     (Z.land (allowed_leaf_levels request) PGTABLE_LEAF_LVL0 =? 0)
  then Ret (- EINVAL, s)
  else if (UINT64_MAX - (PAGE_SIZE - 1) <? vaddr_base request) || (UINT64_MAX - (PAGE_SIZE - 1) <? paddr_base request)
  then Ret (- EINVAL, s)
  else
    let size := round_page_down (map_size request) in
    let vaddr := round_page_up (vaddr_base request) in
    let paddr := round_page_up (paddr_base request) in
    if (size =? 0) || (UINT64_MAX - vaddr <? size) || (UINT64_MAX - paddr <? size) then Ret (- EINVAL, s)
    else
      let vaddr_end := u64 (vaddr + size) in
      s ← add_root (root_fuel vaddr vaddr_end) pgtl3_page paddr vaddr vaddr_end s;
      Ret (0, pgtable_update_record vaddr vaddr_end PGTABLE_UPDATE_MAP s).
End AddMap.

(** [pgtable_add_map]: every leaf size allowed, no update batch. *)
Definition pgtable_add_map (pgtl3_page pa va size prot : Z) (s : walk) : outcome walk :=
  let request := {| paddr_base := pa; vaddr_base := va; map_size := size; prot := prot;
                    allowed_leaf_levels := PGTABLE_LEAF_LEVEL_MASK |} in
  '(status, s') ← pgtable_add_map_deferred request pgtl3_page (s <| update := None |>);
  if negb (status =? 0) then Panic "invalid page-table map status" else Ret (s' <| update := update s |>).

Definition pgtable_create_root (s : walk) : outcome (Z * walk) := walk_alloc s.

(** [pgtable_lookup_entry]: the address of the leaf descriptor and [*pg_size]. *)
Definition pgtable_lookup_entry (pgtl3_page addr : Z) (s : walk) : option (Z * Z) :=
  let pgtl3e := entry_ptr pgtl3_page (pgtle_index PGT_LVL3 addr) in
  if present (load s pgtl3e) then
    let pgtl2e := entry_ptr (page_addr (load s pgtl3e)) (pgtle_index PGT_LVL2 addr) in
    if present (load s pgtl2e) then
      if arch_pgtl_large (load s pgtl2e) then Some (pgtl2e, get_level_size PGT_LVL2)
      else
        let pgtl1e := entry_ptr (page_addr (load s pgtl2e)) (pgtle_index PGT_LVL1 addr) in
        if present (load s pgtl1e) then
          if arch_pgtl_large (load s pgtl1e) then Some (pgtl1e, get_level_size PGT_LVL1)
          else
            let pgtl0e := entry_ptr (page_addr (load s pgtl1e)) (pgtle_index PGT_LVL0 addr) in
            if present (load s pgtl0e) then Some (pgtl0e, get_level_size PGT_LVL0) else None
        else None
    else None
  else None.
End Walker.
