(* ===== verification/PgtableInv.v ===== *)
(** * Translation tables: meaning and invariant

    What the words of a table mean: the tables on the walk of an address, the
    leaf that ends it, and the translation it gives.  [wf] says that the tables
    reachable from a root form a tree of allocated pool pages with well-formed
    leaves; [slot_update] is the one lemma by which every store of the walker
    keeps [wf] and changes the translation of one slot only. *)
From S2P Require Import Prelude Bits PagePool Pgtable.

(** ** Levels

    [sz d] is the range an entry of level [d] covers, [slot d va] the number of
    the entry for [va], counted over all tables of the level, and [region d va]
    the number of the table. *)
Definition sz (d : nat) : Z := 2 ^ (39 - 9 * Z.of_nat d).
Definition slot (d : nat) (va : Z) : Z := va / sz d.
Definition region (d : nat) (va : Z) : Z := match d with O => 0 | S d' => slot d' va end.
Definition VA_LIMIT : Z := 2 ^ 48.

Lemma sz_pos d : (d <= 3)%nat -> 0 < sz d.
Proof. intros. unfold sz. apply Z.pow_pos_nonneg; lia. Qed.

Lemma sz_S d : (d < 3)%nat -> sz d = 512 * sz (S d).
Proof. intros. unfold sz. change 512 with (2 ^ 9). rewrite <- Z.pow_add_r by lia. f_equal. lia. Qed.

Lemma sz_page d : (d <= 3)%nat -> exists k, 0 < k /\ sz d = k * 4096.
Proof.
  intros. exists (2 ^ (27 - 9 * Z.of_nat d)). split; [apply Z.pow_pos_nonneg; lia|].
  unfold sz. change 4096 with (2 ^ 12). rewrite <- Z.pow_add_r by lia. f_equal. lia.
Qed.

Lemma sz_limit d : (d <= 3)%nat -> exists k, 0 < k /\ VA_LIMIT = k * sz d.
Proof.
  intros. exists (2 ^ (9 + 9 * Z.of_nat d)). split; [apply Z.pow_pos_nonneg; lia|].
  unfold sz, VA_LIMIT. rewrite <- Z.pow_add_r by lia. f_equal. lia.
Qed.

Lemma level_size d : (d <= 3)%nat -> get_level_size (Z.of_nat d) = sz d.
Proof.
  intros. unfold get_level_size. rewrite (proj2 (Z.leb_le 0 _)), (proj2 (Z.leb_le _ 3)) by lia. cbn [andb].
  rewrite Z.shiftl_1_l. unfold pgtl_shift, PAGE_SHIFT, sz. f_equal. lia.
Qed.

Lemma level_index d va : (d <= 3)%nat -> pgtle_index (Z.of_nat d) va = slot d va mod 512.
Proof.
  intros. unfold pgtle_index, PTRS_PER_PGTL. change (512 - 1) with (Z.ones 9).
  rewrite Z.land_ones, Z.shiftr_div_pow2 by (unfold pgtl_shift, PAGE_SHIFT; lia).
  unfold slot, sz, pgtl_shift, PAGE_SHIFT. do 3 f_equal. lia.
Qed.

Lemma slot_S d va : (d < 3)%nat -> slot d va = slot (S d) va / 512.
Proof.
  intros. unfold slot. pose proof (sz_pos (S d)). rewrite Z.div_div, Z.mul_comm by lia. by rewrite sz_S.
Qed.

Lemma slot_region d va : (d <= 3)%nat -> 0 <= va < VA_LIMIT -> slot d va = 512 * region d va + slot d va mod 512.
Proof.
  intros Hd Hva. destruct d as [|d]; cbn [region].
  - rewrite Z.mod_small; [lia|]. unfold slot. change (sz 0) with (2 ^ 39). unfold VA_LIMIT in Hva.
    split; [apply Z.div_pos; lia|]. apply Z.div_lt_upper_bound; lia.
  - rewrite (slot_S d) by lia. apply Z.div_mod. lia.
Qed.

(** Equal slots have equal coarser slots and regions. *)
Lemma slot_coarser d1 d2 va va' : (d1 <= d2 <= 3)%nat -> slot d2 va = slot d2 va' -> slot d1 va = slot d1 va'.
Proof.
  intros [H1 H2] E. induction H1 as [|d2 H1 IH]; [done|].
  apply IH; [lia|]. rewrite !(slot_S d2) by lia. by rewrite E.
Qed.

Lemma slot_eq_region d va va' : (d <= 3)%nat -> slot d va = slot d va' -> region d va = region d va'.
Proof. intros. destruct d as [|d]; cbn; [done|]. apply (slot_coarser d (S d)); [lia|done]. Qed.

(** The bounds of a slot. *)
Lemma slot_bounds d va : (d <= 3)%nat -> slot d va * sz d <= va < slot d va * sz d + sz d.
Proof. intros. pose proof (sz_pos d). unfold slot. mlia. Qed.

Lemma slot_iff d k va : (d <= 3)%nat -> slot d va = k <-> k * sz d <= va < k * sz d + sz d.
Proof.
  intros. pose proof (sz_pos d). unfold slot. split; [intros <-; mlia|].
  intros. symmetry. apply (Z.div_unique_pos va (sz d) k (va - k * sz d)); lia.
Qed.

Lemma slot_limit d k va va0 : (d <= 3)%nat -> 0 <= va0 < VA_LIMIT -> slot d va0 = k -> slot d va = k -> 0 <= va < VA_LIMIT.
Proof.
  intros Hd Hva E0 E. pose proof (sz_pos d Hd). destruct (sz_limit d Hd) as (n & Hn & EL).
  rewrite EL in *. rewrite slot_iff in E0, E by done.
  assert (0 <= k) by (destruct (Z.lt_ge_cases k 0); [nia|done]).
  assert (k < n) by (destruct (Z.lt_ge_cases k n); [done|nia]). nia.
Qed.

(** ** Descriptors *)
Definition ATTR_MASK : Z := 0xFFFF000000000FFC.
Definition attrs (e : Z) : Z := Z.land e ATTR_MASK.

Lemma pfn_bits j : 0 <= j -> Z.testbit PFN_MASK j = (12 <=? j) && (j <? 48).
Proof.
  intros. change PFN_MASK with (Z.shiftl (Z.ones 36) 12). rewrite Z.shiftl_spec by lia.
  destruct (Z.leb_spec 12 j); cbn; [|by rewrite Z.testbit_neg_r by lia].
  rewrite Z.testbit_ones by lia. zb; lia || done.
Qed.

Lemma attr_bits j : 0 <= j -> Z.testbit ATTR_MASK j = ((2 <=? j) && (j <? 12)) || ((48 <=? j) && (j <? 64)).
Proof.
  intros. change ATTR_MASK with (Z.lor (Z.shiftl (Z.ones 10) 2) (Z.shiftl (Z.ones 16) 48)).
  rewrite Z.lor_spec, !Z.shiftl_spec by lia.
  destruct (Z.lt_ge_cases j 2); [rewrite !Z.testbit_neg_r by lia; zb; lia || done|].
  rewrite Z.testbit_ones by lia. destruct (Z.lt_ge_cases j 48).
  - rewrite (Z.testbit_neg_r _ (j - 48)) by lia. zb; lia || done.
  - rewrite Z.testbit_ones by lia. zb; lia || done.
Qed.

Lemma type_bits j : 0 <= j -> Z.testbit 3 j = (j <? 2).
Proof. intros. change 3 with (Z.ones 2). rewrite Z.testbit_ones by lia. zb; lia || done. Qed.

(** A page address that fits the output address field. *)
Definition page_ok (p : Z) : Prop := 0 <= p < 2 ^ 48 /\ p mod 4096 = 0.

Lemma page_bits p j : page_ok p -> 0 <= j -> j < 12 \/ 48 <= j -> Z.testbit p j = false.
Proof.
  intros [Hr Ha] Hj [H|H].
  - rewrite <- (Z.mod_pow2_bits_low p 12 j) by lia. change (2 ^ 12) with 4096. rewrite Ha. apply Z.bits_0.
  - rewrite <- (Z.mod_small p (2 ^ 48)) by lia. apply Z.mod_pow2_bits_high. lia.
Qed.

Lemma page_paddr2pfn p : page_ok p -> paddr2pfn p = p.
Proof.
  intros [Hr Ha]. unfold paddr2pfn, PAGE_SHIFT. rewrite Z.shiftl_mul_pow2, Z.shiftr_div_pow2 by lia.
  change (2 ^ 12) with 4096. rewrite u64_small by (unfold in_u64; mlia). mlia.
Qed.

(** Descriptors put together from an output page, attributes and a type. *)
Definition desc (p a ty : Z) : Z := make_pgentry p (Z.lor a ty).

Definition attr_ok (a : Z) : Prop := 0 <= a /\ Z.land a ATTR_MASK = a.

Lemma attr_ok_bits a j : attr_ok a -> 0 <= j -> Z.testbit a j = true -> (2 <= j < 12 \/ 48 <= j < 64).
Proof.
  intros [_ Ha] Hj H. rewrite <- Ha, Z.land_spec, attr_bits in H by done.
  apply andb_true_iff in H as [_ H]. zb; cbn in H; lia || done.
Qed.

Definition ty (e : Z) : Z := Z.land e 3.

Lemma ty_range e : 0 <= ty e <= 3.
Proof.
  unfold ty. change (Z.land e 3) with (Z.land e (Z.ones 2)). rewrite Z.land_ones by lia.
  pose proof (Z.mod_pos_bound e (2 ^ 2)). lia.
Qed.


Lemma small_ty_bits t j : 0 <= t <= 3 -> 0 <= j -> Z.testbit t j = true -> j < 2.
Proof.
  intros Ht Hj H. destruct (Z.lt_ge_cases j 2); [done|].
  rewrite <- (Z.mod_small t (2 ^ 2)), Z.mod_pow2_bits_high in H by lia. done.
Qed.

Section Fields.
Context (p a t : Z).
Hypothesis Hp : page_ok p.
Hypothesis Ha : attr_ok a.
Hypothesis Ht : 0 <= t <= 3.

Lemma desc_bit j : 0 <= j -> Z.testbit (desc p a t) j =
  if j <? 2 then Z.testbit t j else if (12 <=? j) && (j <? 48) then Z.testbit p j else Z.testbit a j.
Proof.
  intros Hj. unfold desc, make_pgentry. rewrite page_paddr2pfn, !Z.lor_spec by done.
  pose proof (page_bits p j Hp Hj) as Bp. pose proof (attr_ok_bits a j Ha Hj) as Ba.
  pose proof (small_ty_bits t j Ht Hj) as Bt.
  destruct (Z.ltb_spec j 2); [|destruct (Z.leb_spec 12 j), (Z.ltb_spec j 48)]; cbn [andb];
    destruct (Z.testbit a j); try (specialize (Ba eq_refl); lia);
    destruct (Z.testbit t j); try (specialize (Bt eq_refl); lia);
    destruct (Z.testbit p j); try (specialize (Bp ltac:(lia)); discriminate); done.
Qed.

Lemma desc_page : page_addr (desc p a t) = p.
Proof.
  apply Z.bits_inj'. intros j Hj. unfold page_addr, arch_pgtl_page_paddr.
  rewrite Z.land_spec, desc_bit, pfn_bits by done. pose proof (page_bits p j Hp Hj) as Bp.
  zb; cbn [andb]; rewrite ?andb_true_r, ?andb_false_r; try lia; try done; symmetry; apply Bp; lia.
Qed.

Lemma desc_attrs : attrs (desc p a t) = a.
Proof.
  apply Z.bits_inj'. intros j Hj. unfold attrs.
  rewrite Z.land_spec, desc_bit, attr_bits by done. pose proof (attr_ok_bits a j Ha Hj) as Ba.
  zb; cbn [andb orb]; rewrite ?andb_true_r, ?andb_false_r; try lia; try done.
  all: destruct (Z.testbit a j); [specialize (Ba eq_refl); lia|done].
Qed.

Lemma desc_ty : ty (desc p a t) = t.
Proof.
  apply Z.bits_inj'. intros j Hj. unfold ty.
  rewrite Z.land_spec, desc_bit, type_bits by done. pose proof (small_ty_bits t j Ht Hj) as Bt.
  zb; cbn [andb]; rewrite ?andb_true_r, ?andb_false_r; try done.
  all: destruct (Z.testbit t j); [specialize (Bt eq_refl); lia|done].
Qed.

Lemma desc_prot : Z.land (desc p a t) (not64 PFN_MASK) = Z.lor a t.
Proof.
  apply Z.bits_inj'. intros j Hj. rewrite Z.land_spec, desc_bit, Z.lor_spec, not64_bits, pfn_bits by done.
  pose proof (attr_ok_bits a j Ha Hj) as Ba. pose proof (small_ty_bits t j Ht Hj) as Bt.
  zb; cbn [andb negb]; rewrite ?andb_true_r, ?andb_false_r; try lia.
  all: destruct (Z.testbit a j); try (specialize (Ba eq_refl); lia);
    destruct (Z.testbit t j); try (specialize (Bt eq_refl); lia); done.
Qed.

Lemma desc_u64 : in_u64 (desc p a t).
Proof.
  apply in_u64_bits.
  - unfold desc, make_pgentry. rewrite page_paddr2pfn by done. destruct Hp, Ha.
    repeat (apply Z.lor_nonneg; split); lia.
  - intros j Hj. rewrite desc_bit by lia. pose proof (attr_ok_bits a j Ha ltac:(lia)) as Ba.
    zb; cbn [andb]; try lia. destruct (Z.testbit a j); [specialize (Ba eq_refl); lia|done].
Qed.
End Fields.

(** A 64-bit word is made of its three fields. *)
Lemma page_addr_ok e : page_ok (page_addr e).
Proof.
  unfold page_ok, page_addr, arch_pgtl_page_paddr. change PFN_MASK with (Z.shiftl (Z.ones 36) 12).
  assert (Z.land e (Z.shiftl (Z.ones 36) 12) = Z.shiftl (Z.shiftr e 12 mod 2 ^ 36) 12) as ->.
  { rewrite <- Z.land_ones by lia. apply Z.bits_inj'. intros j Hj. rewrite Z.land_spec, !Z.shiftl_spec by lia.
    destruct (Z.lt_ge_cases j 12); [rewrite !(Z.testbit_neg_r _ (j - 12)) by lia; apply andb_false_r|].
    rewrite Z.land_spec, Z.shiftr_spec by lia. do 2 f_equal. lia. }
  rewrite Z.shiftl_mul_pow2 by lia. pose proof (Z.mod_pos_bound (Z.shiftr e 12) (2 ^ 36)).
  change (2 ^ 12) with 4096. split; [lia|]. by apply Z.mod_mul.
Qed.

Lemma attrs_ok e : 0 <= e -> attr_ok (attrs e).
Proof.
  intros He. unfold attrs. split; [apply Z.land_nonneg; by left|].
  by rewrite <- Z.land_assoc, Z.land_diag.
Qed.

Lemma desc_eta e : in_u64 e -> e = desc (page_addr e) (attrs e) (ty e).
Proof.
  intros He. apply Z.bits_inj'. intros j Hj.
  rewrite desc_bit by (apply page_addr_ok || (apply attrs_ok, He) || apply ty_range || done).
  unfold page_addr, arch_pgtl_page_paddr, attrs, ty. rewrite !Z.land_spec, pfn_bits, attr_bits, type_bits by done.
  pose proof (testbit_high e j He) as Hh.
  zb; cbn [andb orb]; rewrite ?andb_true_r, ?andb_false_r; try lia; try done; apply Hh; lia.
Qed.

(** ** The meaning of a table *)
Definition va_ok (va : Z) : Prop := 0 <= va < VA_LIMIT.

(** The type of a leaf descriptor at level [d]. *)
Definition leaf_ty (d : nat) : Z := if (d =? 3)%nat then 3 else 1.

(** The entry of table page [p] of level [d] for [va]. *)
Definition at_slot (p : Z) (d : nat) (va : Z) : Z := entry_ptr p (slot d va mod 512).

(** The table page of level [d] on the walk of [va]. *)
Fixpoint tbl (m : memory) (root : Z) (d : nat) (va : Z) : option Z :=
  match d with
  | O => Some root
  | S d => match tbl m root d va with
           | Some p => let e := mload m (at_slot p d va) in if ty e =? 3 then Some (page_addr e) else None
           | None => None
           end
  end.

(** The walk of [va] from table page [p] of level [d] on: the output address and
    the attributes of the leaf that ends it. *)
Fixpoint xl (m : memory) (n d : nat) (p va : Z) : option (Z * Z) :=
  let e := mload m (at_slot p d va) in
  if ty e =? leaf_ty d then Some (page_addr e + va mod sz d, attrs e)
  else match n with
       | O => None
       | S n => if ty e =? 3 then xl m n (S d) (page_addr e) va else None
       end.
Definition xlate (m : memory) (root va : Z) : option (Z * Z) := xl m 3 0 root va.

Lemma tbl_le m root d1 d2 va p : (d1 <= d2)%nat -> tbl m root d2 va = Some p -> is_Some (tbl m root d1 va).
Proof.
  intros H. revert p. induction H as [|d2 H IH]; intros p E; [by exists p|].
  cbn in E. destruct (tbl m root d2 va) as [q|] eqn:E2; [|done]. by eapply IH.
Qed.

Lemma tbl_S m root d va p : tbl m root (S d) va = Some p ->
  exists q, tbl m root d va = Some q /\ ty (mload m (at_slot q d va)) = 3 /\ page_addr (mload m (at_slot q d va)) = p.
Proof.
  cbn. destruct (tbl m root d va) as [q|]; [|done]. destruct (Z.eqb_spec (ty (mload m (at_slot q d va))) 3) as [E|]; [|done].
  intros [= <-]. eauto.
Qed.

(** The walk depends on the region only. *)
Lemma tbl_region m root d va va' : (d <= 3)%nat -> region d va = region d va' -> tbl m root d va = tbl m root d va'.
Proof.
  induction d as [|d IH]; intros Hd E; [done|]. cbn in *.
  rewrite (IH ltac:(lia)) by (apply slot_eq_region; [lia|done]).
  destruct (tbl m root d va') as [p|]; [|done]. unfold at_slot. by rewrite E.
Qed.

Lemma xlate_tbl m root d va p : (d <= 3)%nat -> tbl m root d va = Some p -> xlate m root va = xl m (3 - d) d p va.
Proof.
  revert p. induction d as [|d IH]; intros p Hd E; [by injection E as <-|].
  apply tbl_S in E as (q & Eq & Et & <-). rewrite (IH q) by (lia || done).
  replace (3 - d)%nat with (S (3 - S d)) by lia. cbn [xl]. rewrite Et.
  unfold leaf_ty at 1. by rewrite (proj2 (Nat.eqb_neq d 3)) by lia.
Qed.

(** Tables that agree on the walk of an address translate it alike. *)
Lemma xlate_ext m m' root va :
  (forall d p, (d <= 3)%nat -> tbl m root d va = Some p -> mload m' (at_slot p d va) = mload m (at_slot p d va)) ->
  xlate m' root va = xlate m root va.
Proof.
  intros H. unfold xlate. cut (forall n d p, (n + d = 3)%nat -> tbl m root d va = Some p -> xl m' n d p va = xl m n d p va).
  { intros Hc. apply Hc; [lia|done]. }
  induction n as [|n IH]; intros d p Hd E; cbn [xl]; rewrite (H d p) by (lia || done); [done|].
  destruct (ty (mload m (at_slot p d va)) =? leaf_ty d); [done|].
  destruct (Z.eqb_spec (ty (mload m (at_slot p d va))) 3) as [Et|]; [|done].
  apply IH; [lia|]. cbn. by rewrite E, Et, Z.eqb_refl.
Qed.

(** Entries of different pages or positions are different words. *)
Lemma entry_ptr_inj p q i j : p mod 4096 = 0 -> q mod 4096 = 0 -> 0 <= i < 512 -> 0 <= j < 512 ->
  entry_ptr p i = entry_ptr q j -> p = q /\ i = j.
Proof. unfold entry_ptr. intros. mlia. Qed.

Lemma slot_mod d va : 0 <= slot d va mod 512 < 512.
Proof. apply Z.mod_pos_bound. lia. Qed.

(** ** The invariant *)
Section Invariant.
(** The attributes the hook gives a leaf that is asked for with [prot]. *)
Context (leaf_attrs : Z -> Z).

(** A leaf's output address is aligned to its size, and its attributes are those
    the hook would give it again. *)
Definition leaf_ok (d : nat) (e : Z) : Prop :=
  page_addr e mod sz d = 0 /\ leaf_attrs (Z.lor (attrs e) (ty e)) = attrs e.

(** Blocks are at the two middle levels only. *)
Definition ent_ok (d : nat) (e : Z) : Prop :=
  in_u64 e /\ (ty e = 1 -> d = 1%nat \/ d = 2%nat) /\ (ty e = leaf_ty d -> leaf_ok d e).

Record wf (root : Z) (s : walk) : Prop := {
  wf_pool : pool_ok (pool s);
  wf_alloc : forall d va p, (d <= 3)%nat -> va_ok va -> tbl (mem s) root d va = Some p -> allocated (pool s) p;
  wf_inj : forall d1 d2 va1 va2 p, (d1 <= 3)%nat -> (d2 <= 3)%nat -> va_ok va1 -> va_ok va2 ->
    tbl (mem s) root d1 va1 = Some p -> tbl (mem s) root d2 va2 = Some p ->
    d1 = d2 /\ region d1 va1 = region d2 va2;
  wf_ent : forall d va p, (d <= 3)%nat -> va_ok va -> tbl (mem s) root d va = Some p ->
    ent_ok d (mload (mem s) (at_slot p d va));
}.

(** A page is one of the tables below [root]. *)
Definition reach (m : memory) (root q : Z) : Prop :=
  exists d va, (d <= 3)%nat /\ va_ok va /\ tbl m root d va = Some q.

Lemma in_pool_page_ok p q : pool_ok p -> in_pool p q -> page_ok q /\ 0 < q.
Proof. intros (_ & _ & _ & H & _ & H6 & _) [H1 H2]. unfold page_ok, PAGE_SIZE in *. lia. Qed.

Lemma reach_page root s q : wf root s -> reach (mem s) root q -> page_ok q /\ 0 < q.
Proof.
  intros W (d & va & Hd & Hva & E). eapply in_pool_page_ok; [apply W|]. by eapply (wf_alloc _ _ W).
Qed.

(** *** One slot changes

    [s'] differs from [s], on the tables below [root], in the entry of level [d0]
    for [va0] only, which is now [v]; below the new entry there is no table but a fresh
    child. *)
Section SlotUpdate.
Context (root : Z) (s s' : walk) (d0 : nat) (va0 p v : Z).
Hypothesis W : wf root s.
Hypothesis Hd0 : (d0 <= 3)%nat.
Hypothesis Hva0 : va_ok va0.
Hypothesis Hp : tbl (mem s) root d0 va0 = Some p.
Hypothesis Hv : mload (mem s') (at_slot p d0 va0) = v.
Hypothesis Hsame : forall q i, reach (mem s) root q -> 0 <= i < 512 -> entry_ptr q i <> at_slot p d0 va0 ->
  mload (mem s') (entry_ptr q i) = mload (mem s) (entry_ptr q i).

Definition in_slot (va : Z) : Prop := slot d0 va = slot d0 va0.

(** The entry read on a walk is the changed one only in the slot. *)
Lemma update_load d va q : (d <= 3)%nat -> va_ok va -> tbl (mem s) root d va = Some q ->
  ~ (d = d0 /\ in_slot va) -> mload (mem s') (at_slot q d va) = mload (mem s) (at_slot q d va).
Proof.
  intros Hd Hva E Hne. apply Hsame; [by exists d, va|apply slot_mod|]. intros Ea.
  assert (reach (mem s) root p) as Rp by (by exists d0, va0).
  assert (reach (mem s) root q) as Rq by (by exists d, va).
  apply entry_ptr_inj in Ea as [-> Ei]; [|apply (reach_page _ _ _ W Rq)|apply (reach_page _ _ _ W Rp)|apply slot_mod..].
  destruct (wf_inj _ _ W d d0 va va0 p) as [-> Er]; [done..|]. apply Hne. split; [done|].
  unfold in_slot. by rewrite (slot_region d0 va), (slot_region d0 va0), Er, Ei.
Qed.

Lemma update_tbl d va : (d <= 4)%nat -> va_ok va -> (d <= d0)%nat \/ ~ in_slot va ->
  tbl (mem s') root d va = tbl (mem s) root d va.
Proof.
  induction d as [|d IH]; intros Hd Hva Hc; [done|]. cbn. rewrite IH by (lia || done || (destruct Hc; [left; lia|by right])).
  destruct (tbl (mem s) root d va) as [q|] eqn:E; [|done].
  rewrite update_load; [done|lia|done..|]. intros [-> Hin]. destruct Hc; [lia|done].
Qed.

(** Outside the slot nothing changes. *)
Lemma update_xlate_out va : va_ok va -> ~ in_slot va -> xlate (mem s') root va = xlate (mem s) root va.
Proof. intros Hva Hn. apply xlate_ext. intros d q Hd E. apply update_load; [done..|]. by intros [_ ?]. Qed.

Lemma update_at va : va_ok va -> in_slot va -> tbl (mem s') root d0 va = Some p /\ mload (mem s') (at_slot p d0 va) = v.
Proof.
  intros Hva Hin. split.
  - rewrite update_tbl by (lia || done || by left). rewrite <- Hp. apply tbl_region; [done|by apply slot_eq_region].
  - unfold at_slot in *. by rewrite Hin.
Qed.

(** Inside, the walk goes on from the new entry. *)
Lemma update_xlate_in va : va_ok va -> in_slot va ->
  xlate (mem s') root va =
    if ty v =? leaf_ty d0 then Some (page_addr v + va mod sz d0, attrs v)
    else match (3 - d0)%nat with
         | O => None
         | S n => if ty v =? 3 then xl (mem s') n (S d0) (page_addr v) va else None
         end.
Proof.
  intros Hva Hin. destruct (update_at va Hva Hin) as [E1 E2].
  rewrite (xlate_tbl _ _ d0 va p) by done. destruct (3 - d0)%nat; cbn [xl]; by rewrite E2.
Qed.

(** The new child. *)
Hypothesis Hvok : ent_ok d0 v.
Hypothesis Hchild : ty v = 3 -> (d0 < 3)%nat ->
  allocated (pool s') (page_addr v) /\ ~ reach (mem s) root (page_addr v) /\
  (forall i, 0 <= i < 512 -> let e := mload (mem s') (entry_ptr (page_addr v) i) in
    ent_ok (S d0) e /\ ((S d0 < 3)%nat -> ty e <> 3)).
Hypothesis Hpool : pool_ok (pool s').
Hypothesis Halloc : forall d va q, (d <= 3)%nat -> va_ok va -> tbl (mem s) root d va = Some q ->
  (d <= d0)%nat \/ ~ in_slot va -> allocated (pool s') q.

(** The tables below the new entry: the fresh child, if there is one. *)
Lemma update_tbl_in d va q : (d0 < d <= 3)%nat -> va_ok va -> in_slot va ->
  tbl (mem s') root d va = Some q -> d = S d0 /\ ty v = 3 /\ q = page_addr v.
Proof.
  intros Hd Hva Hin E. destruct (update_at va Hva Hin) as [E1 E2].
  assert (is_Some (tbl (mem s') root (S d0) va)) as [q1 Eq1] by (eapply tbl_le; [|exact E]; lia).
  pose proof Eq1 as Eq1'. cbn in Eq1. rewrite E1, E2 in Eq1. destruct (Z.eqb_spec (ty v) 3) as [Et|]; [|done].
  injection Eq1 as <-. destruct (decide (d = S d0)) as [->|Hne]; [by rewrite Eq1' in E; injection E as <-|].
  exfalso. destruct (tbl_le _ _ (S (S d0)) d va q ltac:(lia) E) as [q2 Eq2]. apply tbl_S in Eq2 as (q3 & Eq3 & Et3 & _).
  rewrite Eq1' in Eq3. injection Eq3 as <-. destruct (Hchild Et ltac:(lia)) as (_ & _ & Hc).
  destruct (Hc (slot (S d0) va mod 512) (slot_mod _ _)) as [_ Hc']. apply Hc'; [lia|exact Et3].
Qed.

(** A table of [s'] is a table of [s] outside the slot's subtree, or the child. *)
Lemma update_tbl_cases d va q : (d <= 3)%nat -> va_ok va -> tbl (mem s') root d va = Some q ->
  (((d <= d0)%nat \/ ~ in_slot va) /\ tbl (mem s) root d va = Some q) \/
  (d = S d0 /\ in_slot va /\ ty v = 3 /\ q = page_addr v).
Proof.
  intros Hd Hva E. destruct (decide (slot d0 va = slot d0 va0)) as [Hin|Hn]; [destruct (decide (d <= d0)%nat) as [Hl|Hg]|].
  - left. split; [by left|]. by rewrite update_tbl in E by (lia || done || by left).
  - right. destruct (update_tbl_in d va q ltac:(lia) Hva Hin E) as (-> & Et & ->). done.
  - left. split; [by right|]. by rewrite update_tbl in E by (lia || done || by right).
Qed.

Lemma slot_update_wf : wf root s'.
Proof.
  constructor.
  - exact Hpool.
  - intros d va q Hd Hva E. destruct (update_tbl_cases _ _ _ Hd Hva E) as [[Hc E']|(-> & Hin & Et & ->)].
    + by eapply Halloc.
    + apply (Hchild Et). lia.
  - intros d1 d2 va1 va2 q H1 H2 V1 V2 E1 E2.
    destruct (update_tbl_cases _ _ _ H1 V1 E1) as [[C1 E1']|(-> & I1 & T1 & ->)],
      (update_tbl_cases _ _ _ H2 V2 E2) as [[C2 E2']|(-> & I2 & T2 & Eq2)].
    + by eapply (wf_inj _ _ W).
    + subst q. exfalso. apply (Hchild T2 ltac:(lia)). by exists d1, va1.
    + exfalso. apply (Hchild T1 ltac:(lia)). by exists d2, va2.
    + split; [done|]. cbn. by rewrite I1, I2.
  - intros d va q Hd Hva E. destruct (update_tbl_cases _ _ _ Hd Hva E) as [[Hc E']|(-> & Hin & Et & ->)].
    + destruct (decide (d = d0)) as [->|Hne]; [destruct (decide (slot d0 va = slot d0 va0)) as [Hin|Hn]|].
      * destruct (update_at va Hva Hin) as [E1 E2]. rewrite E1 in E. injection E as <-. by rewrite E2.
      * rewrite update_load by (done || (intros [_ ?]; done)). by eapply (wf_ent _ _ W).
      * rewrite update_load by (done || (intros [? _]; done)). by eapply (wf_ent _ _ W).
    + apply (Hchild Et ltac:(lia)). apply slot_mod.
Qed.
End SlotUpdate.
End Invariant.
