(* ===== verification/PgtableOps.v ===== *)
(** * Correctness of the page-table operations

    Adding and removing a range, the splitting of blocks and the lookup, against
    the translation [xlate].  An operation on [lo, hi) is specified by [eff]:
    the tables stay well formed, pages of other tables are not touched, the
    translation of each address of the range changes by a function and of no
    other address, and the pool lends at most a stated number of pages. *)
From S2P Require Import Prelude Bits PagePool Pgtable PgtableInv.

(** ** What the walker needs of the hooks of a table *)
Class PgtableLaws (table : pgtable) (leaf_attrs : Z -> Z) : Prop := {
  present_law : forall e, pgentry_present table e = Z.land e PAGE_DESC_VALID;
  table_law : forall page prot level, set_pgentry table page prot level false = make_pgentry page PAGE_TABLE_DESC;
  leaf_law : forall page prot level, in_u64 prot -> set_pgentry table page prot level true =
    make_pgentry page (Z.lor (leaf_attrs prot) (if level =? PGT_LVL0 then PAGE_PAGE_DESC else PAGE_BLOCK_DESC));
  leaf_attrs_ok : forall prot, in_u64 prot -> Z.land prot PFN_MASK = 0 -> attr_ok (leaf_attrs prot);
  leaf_attrs_idem : forall prot t, in_u64 prot -> t = 1 \/ t = 3 ->
    leaf_attrs (Z.lor (leaf_attrs prot) t) = leaf_attrs prot;
}.

(** The break-before-make hook publishes the new descriptor. *)
Class ReplaceLaw (table : pgtable) : Prop :=
  replace_law : forall f new_pte vaddr size, replace_pgentry table = Some f -> f new_pte vaddr size = Ret new_pte.

(** Run one test or one call of a piece of the walker. *)
Ltac run_branch :=
  match goal with
  | |- context [if ?b then _ else _] => destruct b
  | |- context [walk_alloc ?s] => destruct (walk_alloc s) as [[? ?]| |]
  | |- context [?o ≫= _] => destruct o
  end; cbn [negb mbind outcome_bind].

(** ** Address arithmetic of the loops *)
Definition slot_end (d : nat) (va : Z) : Z := slot d va * sz d + sz d.

(** The end of the range the table of level [d] for [va] covers. *)
Definition table_end (d : nat) (va : Z) : Z := match d with O => VA_LIMIT | S d' => slot_end d' va end.

Lemma slot_end_bounds d va : (d <= 3)%nat -> va < slot_end d va <= va + sz d.
Proof. intros. pose proof (slot_bounds d va H). unfold slot_end. lia. Qed.

Lemma page_slot v : v mod 4096 = 0 -> slot_end 3 v = v + 4096.
Proof. intros. unfold slot_end, slot. change (sz 3) with 4096. mlia. Qed.

Lemma table_end_gt d v : (d <= 3)%nat -> va_ok v -> v < table_end d v.
Proof. intros Hd [H1 H2]. destruct d as [|d]; [done|]. apply slot_end_bounds. lia. Qed.

Lemma slot_start d' v : (d' <= 3)%nat -> v mod sz d' = 0 -> v = slot_end d' v - sz d'.
Proof. intros H E. unfold slot_end, slot. pose proof (sz_pos d' H). rewrite (Z.div_mod v (sz d')) at 1 by lia. lia. Qed.

Lemma slot_of_end d va : (d <= 3)%nat -> slot d (slot_end d va) = slot d va + 1.
Proof.
  intros. apply slot_iff; [done|]. pose proof (sz_pos d H). unfold slot_end. lia.
Qed.

Lemma in_slot_iff d va va0 : (d <= 3)%nat -> slot d va = slot d va0 <-> slot_end d va0 - sz d <= va < slot_end d va0.
Proof. intros. rewrite slot_iff by done. unfold slot_end. lia. Qed.

Lemma slot_end_limit d va : (d <= 3)%nat -> va_ok va -> slot_end d va <= VA_LIMIT.
Proof.
  intros Hd Hva. unfold va_ok in Hva. pose proof (sz_pos d Hd). destruct (sz_limit d Hd) as (k & Hk & EL).
  pose proof (slot_bounds d va Hd). unfold slot_end. rewrite EL in *.
  assert (slot d va < k) by (destruct (Z.lt_ge_cases (slot d va) k); [done|nia]). nia.
Qed.

(** The next slot is in the same table, or the slot was the table's last. *)
Lemma slot_end_table d va : (d <= 3)%nat -> va_ok va -> let i := slot d va mod 512 in
  if i =? 511 then slot_end d va = table_end d va
  else slot_end d va < table_end d va /\ slot d (slot_end d va) mod 512 = i + 1 /\
       region d (slot_end d va) = region d va /\ table_end d (slot_end d va) = table_end d va.
Proof.
  intros Hd Hva. cbn zeta. pose proof (slot_region d va Hd Hva) as E. pose proof (slot_of_end d va Hd) as Ee.
  pose proof (Z.mod_pos_bound (slot d va) 512). destruct (Z.eqb_spec (slot d va mod 512) 511) as [E5|Hne].
  - destruct d as [|d]; cbn [region table_end] in *.
    + rewrite E5 in E. unfold slot_end, VA_LIMIT. change (sz 0) with (2 ^ 39). lia.
    + unfold slot_end. rewrite (sz_S d) by lia. lia.
  - assert (slot d (slot_end d va) mod 512 = slot d va mod 512 + 1) as Em.
    { rewrite Ee. rewrite E at 1. replace (512 * region d va + slot d va mod 512 + 1) with
        (slot d va mod 512 + 1 + region d va * 512) by lia. rewrite Z.mod_add, Z.mod_small by lia. done. }
    assert (region d (slot_end d va) = region d va) as Er.
    { destruct d as [|d]; [done|]. cbn [region] in *. rewrite (slot_S d (slot_end _ _)), Ee by lia.
      rewrite E. replace (512 * slot d va + slot (S d) va mod 512 + 1) with
        (slot (S d) va mod 512 + 1 + slot d va * 512) by lia. rewrite Z.div_add, Z.div_small by lia. lia. }
    split_and!; [|done..|].
    + destruct d as [|d]; cbn [region table_end] in *.
      * unfold slot_end, VA_LIMIT. change (sz 0) with (2 ^ 39). lia.
      * unfold slot_end. rewrite (sz_S d) by lia. pose proof (sz_pos (S d) Hd). nia.
    + destruct d as [|d]; [done|]. cbn [region table_end] in *. unfold slot_end at 1 3. by rewrite Er.
Qed.

Lemma land_mask v k : 0 <= v -> in_u64 v -> 0 <= k < 64 -> Z.land v (not64 (2 ^ k - 1)) = v / 2 ^ k * 2 ^ k.
Proof.
  intros H0 Hv Hk. rewrite Z.sub_1_r, <- Z.ones_equiv. rewrite <- Z.shiftl_mul_pow2, <- Z.shiftr_div_pow2 by lia.
  apply Z.bits_inj'. intros j Hj. rewrite Z.land_spec, not64_bits, Z.testbit_ones, Z.shiftl_spec by lia.
  pose proof (testbit_high v j Hv) as Hh. destruct (Z.lt_ge_cases j k).
  - rewrite (Z.testbit_neg_r _ (j - k)) by lia. zb; cbn; try lia. all: by rewrite ?andb_false_r.
  - rewrite Z.shiftr_spec by lia. replace (j - k + k) with j by lia.
    zb; cbn; try lia; rewrite ?andb_true_r; [done|]. rewrite Hh by lia. done.
Qed.

Lemma va_u64 va : 0 <= va <= VA_LIMIT -> in_u64 va.
Proof. unfold VA_LIMIT, in_u64. lia. Qed.

(** The loops' [vaddr_next]. *)
Lemma vaddr_next_eq d va : (d <= 3)%nat -> va_ok va ->
  u64 (Z.land va (level_mask (Z.of_nat d)) + get_level_size (Z.of_nat d)) = slot_end d va.
Proof.
  intros Hd Hva. unfold level_mask. rewrite !level_size by done. unfold sz at 1. unfold va_ok in Hva.
  rewrite land_mask by (lia || (apply va_u64; lia)). fold (sz d). change (va / sz d) with (slot d va).
  fold (slot_end d va). pose proof (slot_end_limit d va Hd Hva). pose proof (slot_end_bounds d va Hd).
  apply u64_small, va_u64. lia.
Qed.

(** At the root level. *)
Lemma root_next va : va_ok va ->
  u64 (Z.land va (level_mask PGT_LVL3) + get_level_size PGT_LVL3) = slot_end 0 va.
Proof. apply (vaddr_next_eq 0). lia. Qed.

Lemma root_index va : pgtle_index PGT_LVL3 va = slot 0 va mod 512.
Proof. apply (level_index 0). lia. Qed.

(** Enough rounds for a range: one for each root entry it touches. *)
Lemma root_fuel_enough v ve : 0 <= v < ve -> slot 0 (ve - 1) - slot 0 v < Z.of_nat (root_fuel v ve).
Proof.
  intros H. unfold root_fuel. change (get_level_size PGT_LVL3) with (sz 0). pose proof (sz_pos 0 ltac:(lia)).
  assert (0 <= (ve - v) / sz 0) by (apply Z.div_pos; lia). unfold slot. change (sz 0) with 549755813888 in *. mlia.
Qed.

Lemma aligned_check_eq d v : (d <= 3)%nat -> mem_aligned_check v (get_level_size (Z.of_nat d)) = (v mod sz d =? 0).
Proof.
  intros Hd. unfold mem_aligned_check. rewrite level_size by done. pose proof (sz_pos d Hd).
  assert (sz d <= 2 ^ 39) by (unfold sz; apply Z.pow_le_mono_r; lia).
  rewrite u64_small by (unfold in_u64; lia). unfold sz. rewrite Z.sub_1_r, <- Z.ones_equiv, Z.land_ones by lia. done.
Qed.

Section Ops.
Context (table : pgtable) (leaf_attrs : Z -> Z) `{L : !PgtableLaws table leaf_attrs}.
Context (root : Z).
Notation wf := (wf leaf_attrs).

Lemma present_ty e : present table e = (ty e =? 1) || (ty e =? 3).
Proof.
  unfold present. rewrite present_law. unfold PAGE_DESC_VALID. pose proof (ty_range e) as Ht.
  assert (Z.land e 1 = Z.land (ty e) 1) as -> by (unfold ty; by rewrite <- Z.land_assoc).
  assert (ty e = 0 \/ ty e = 1 \/ ty e = 2 \/ ty e = 3) as [->|[->|[->| ->]]] by lia; reflexivity.
Qed.

Lemma large_ty e : arch_pgtl_large e = (ty e =? 1).
Proof.
  unfold arch_pgtl_large. fold (ty e). change (Z.land e PAGE_DESC_TYPE_MASK) with (ty e).
  pose proof (present_ty e) as P. unfold present in P. rewrite present_law in P. rewrite P.
  unfold PAGE_BLOCK_DESC. by destruct (ty e =? 1), (ty e =? 3).
Qed.

(** ** Effects *)
Implicit Types (T : Z -> option (Z * Z) -> option (Z * Z)).

(** Tables down to level [d] stay where they are. *)
Definition keeps (d : nat) (s s' : walk) : Prop :=
  forall d' va, (d' <= d)%nat -> va_ok va -> tbl (mem s') root d' va = tbl (mem s) root d' va.

(** Allocated pages that are not tables of [root] are left alone. *)
Definition frame (s s' : walk) : Prop :=
  (forall q, allocated (pool s) q -> ~ reach (mem s) root q ->
    allocated (pool s') q /\ ~ reach (mem s') root q /\
    forall i, 0 <= i < 512 -> mload (mem s') (entry_ptr q i) = mload (mem s) (entry_ptr q i)) /\
  (forall q, in_pool (pool s') q <-> in_pool (pool s) q).

(** The pages a batch has retired: those whose bit is set in the first word of
    its bitmap. *)
Definition retired (u : pgtable_update) (id : Z) : bool := Z.testbit (word (retired_bitmap u) 0) id.
Definition retired_ids (u : pgtable_update) : list Z := filter (fun id => retired u id = true) (seqZ 0 64).

(** The batch of a walk: in a pool of 64 pages, its bitmap and counter agree, a
    page is retired only with a change, and the retired pages are allocated but
    no longer tables of [root]. *)
Definition batch_ok (s : walk) : Prop := forall u, update s = Some u ->
  bitmap_size (pool s) = 1 /\ 1 <= retired_bitmap_words u /\ (0 < length (retired_bitmap u))%nat /\
  retired_pages u = Z.of_nat (length (retired_ids u)) /\ (retired_pages u <> 0 -> changed u = true) /\
  forall id, 0 <= id < 64 -> retired u id = true ->
    allocated (pool s) (start_page (pool s) + id * PAGE_SIZE) /\ ~ reach (mem s) root (start_page (pool s) + id * PAGE_SIZE).

(** A batch that retires nothing more. *)
Definition same_batch (o o' : option pgtable_update) : Prop :=
  match o, o' with
  | Some u, Some u' =>
      retired_bitmap u' = retired_bitmap u /\ retired_bitmap_words u' = retired_bitmap_words u /\
      retired_pages u' = retired_pages u /\ (changed u = true -> changed u' = true)
  | None, None => True
  | _, _ => False
  end.

(** A step keeps the batch proper and retires only tables of [root]. *)
Definition in_batch (s : walk) (q : Z) : Prop := exists u, update s = Some u /\ retired u (page_id (pool s) q) = true.
Definition batch_step (s s' : walk) : Prop := batch_ok s -> batch_ok s' /\ (is_Some (update s) -> is_Some (update s')) /\
  forall q, allocated (pool s) q -> ~ reach (mem s) root q -> in_batch s' q -> in_batch s q.

Record eff (d : nat) T (lo hi k : Z) (s s' : walk) : Prop := {
  eff_wf : wf root s';
  eff_frame : frame s s';
  eff_keeps : keeps d s s';
  eff_xlate : forall va, va_ok va -> xlate (mem s') root va =
    if (lo <=? va) && (va <? hi) then T va (xlate (mem s) root va) else xlate (mem s) root va;
  eff_free : Z.of_nat (free_count (pool s)) <= Z.of_nat (free_count (pool s')) + k;
  eff_batch : batch_step s s';
}.

Lemma frame_refl s : frame s s.
Proof. split; [|done]. intros q Ha Hr. by split_and!. Qed.

Lemma frame_trans s1 s2 s3 : frame s1 s2 -> frame s2 s3 -> frame s1 s3.
Proof.
  intros [F1 P1] [F2 P2]. split; [|intros q; by rewrite P2]. intros q Ha Hr.
  destruct (F1 q Ha Hr) as (A1 & R1 & E1). destruct (F2 q A1 R1) as (A2 & R2 & E2).
  split_and!; [done..|]. intros i Hi. by rewrite E2, E1.
Qed.

Lemma same_batch_refl o : same_batch o o.
Proof. by destruct o. Qed.

Lemma same_batch_changed s : same_batch (update s) (update (set_changed s)).
Proof. cbn. by destruct (update s). Qed.

Lemma same_batch_record lo hi op s : same_batch (update s) (update (pgtable_update_record_range lo hi op s)).
Proof. cbn. destruct (update s) as [u|]; [|done]. cbn. destruct (_ || _); cbn; destruct (_ || _); done. Qed.

Lemma same_batch_trans o1 o2 o3 : same_batch o1 o2 -> same_batch o2 o3 -> same_batch o1 o3.
Proof.
  destruct o1 as [u1|], o2 as [u2|], o3 as [u3|]; cbn; try done. intros (A1 & A2 & A3 & A4) (-> & -> & -> & B4). split_and!; auto.
Qed.

(** The batch stays as it should be when the walk keeps other pages. *)
Lemma batch_frame s s' : pool_ok (pool s) -> pool_ok (pool s') -> frame s s' -> same_batch (update s) (update s') ->
  batch_step s s'.
Proof.
  intros P P' [F Fin] Hs Hb. destruct (in_pool_same (pool s) (pool s') P P' Fin) as [Es Ez]. destruct (update s) as [u|] eqn:E, (update s') as [u'|] eqn:E'; cbn in Hs;
    try done; [|split; [intros u'; by rewrite E'|split; [done|intros q _ _ (u' & E0 & _); congruence]]].
  destruct Hs as (E1 & E2 & E3 & E4). split; [|split; [done|]]; cycle 1.
  { intros q _ _ (u0 & E0 & Hr). exists u. split; [done|]. assert (u0 = u') as -> by congruence.
    unfold retired, page_id in *. by rewrite <- E1, <- Es. }
  intros u0 E0. assert (u0 = u') as -> by congruence.
  destruct (Hb u E) as (B1 & B2 & B3 & B4 & B5 & B6).
  unfold retired_ids, retired in *. rewrite Es, Ez, E1, E2, E3. split_and!; auto.
  intros id Hid Hr. destruct (B6 id Hid Hr) as [A R]. by destruct (F _ A R) as (A' & R' & _).
Qed.

Lemma batch_step_trans s1 s2 s3 : frame s1 s2 -> batch_step s1 s2 -> batch_step s2 s3 -> batch_step s1 s3.
Proof.
  intros [F _] H1 H2 B1. destruct (H1 B1) as (B2 & U1 & I1). destruct (H2 B2) as (B3 & U2 & I2). split; [done|split; [auto|]].
  intros q Ha Hr Hi. destruct (F q Ha Hr) as (A' & R' & _). auto.
Qed.

(** An operation that changes nothing. *)
Lemma eff_same d T lo hi k s : wf root s -> 0 <= k ->
  (forall va, va_ok va -> lo <= va < hi -> T va (xlate (mem s) root va) = xlate (mem s) root va) ->
  eff d T lo hi k s s.
Proof.
  intros W Hk HT. constructor; [done|apply frame_refl|done| |lia|done].
  intros va Hva. destruct (Z.leb_spec lo va), (Z.ltb_spec va hi); cbn; try done. by rewrite HT by (done || lia).
Qed.

Lemma eff_seq d d1 d2 T lo mid hi k1 k2 s1 s2 s3 : lo <= mid <= hi -> (d <= d1)%nat -> (d <= d2)%nat ->
  eff d1 T lo mid k1 s1 s2 -> eff d2 T mid hi k2 s2 s3 -> eff d T lo hi (k1 + k2) s1 s3.
Proof.
  intros Hm H1 H2 [W1 F1 K1 X1 N1 U1] [W2 F2 K2 X2 N2 U2].
  constructor; [done|by eapply frame_trans| | |lia|by eapply batch_step_trans].
  - intros d' va Hd' Hva. rewrite K2, K1 by (lia || done). done.
  - intros va Hva. rewrite X2, X1 by done. zb; cbn; done || lia.
Qed.

(** A step that keeps the translation, before or after an effect. *)
Lemma eff_after d d1 d2 T lo hi k1 k2 s1 s2 s3 : (d <= d1)%nat -> (d <= d2)%nat ->
  eff d1 T lo hi k1 s1 s2 -> eff d2 (fun _ x => x) lo hi k2 s2 s3 -> eff d T lo hi (k1 + k2) s1 s3.
Proof.
  intros H1 H2 [W1 F1 K1 X1 N1 U1] [W2 F2 K2 X2 N2 U2].
  constructor; [done|by eapply frame_trans| | |lia|by eapply batch_step_trans].
  - intros d' va Hd' Hva. rewrite K2, K1 by (lia || done). done.
  - intros va Hva. rewrite X2, X1 by done. zb; cbn; done.
Qed.

Lemma eff_before d d1 d2 T lo hi k1 k2 s1 s2 s3 : (d <= d1)%nat -> (d <= d2)%nat ->
  eff d1 (fun _ x => x) lo hi k1 s1 s2 -> eff d2 T lo hi k2 s2 s3 -> eff d T lo hi (k1 + k2) s1 s3.
Proof.
  intros H1 H2 [W1 F1 K1 X1 N1 U1] [W2 F2 K2 X2 N2 U2].
  constructor; [done|by eapply frame_trans| | |lia|by eapply batch_step_trans].
  - intros d' va Hd' Hva. rewrite K2, K1 by (lia || done). done.
  - intros va Hva. rewrite X2, X1 by done. zb; cbn; done.
Qed.

Lemma eff_id_range d lo hi lo' hi' k s s' :
  eff d (fun _ x => x) lo hi k s s' -> eff d (fun _ x => x) lo' hi' k s s'.
Proof.
  intros [W1 F1 K1 X1 N1 U1]. constructor; try done. intros va Hva. rewrite X1 by done.
  destruct ((lo <=? va) && (va <? hi)), ((lo' <=? va) && (va <? hi')); done.
Qed.

Lemma eff_weaken d d' T lo hi k k' s s' : (d' <= d)%nat -> k <= k' -> eff d T lo hi k s s' -> eff d' T lo hi k' s s'.
Proof.
  intros Hd Hk [W1 F1 K1 X1 N1 U1]. constructor; try done; [|lia]. intros d'' va Hd'' Hva. apply K1; [lia|done].
Qed.

(** ** Storing an entry *)

(** The pages other than the target of a walk of [root] are not written. *)
Lemma reach_entry_ne s p d va q i : wf root s -> (d <= 3)%nat -> va_ok va -> tbl (mem s) root d va = Some p ->
  allocated (pool s) q -> ~ reach (mem s) root q -> 0 <= i < 512 -> entry_ptr q i <> at_slot p d va.
Proof.
  intros W Hd Hva E [Hq _] Hn Hi Ea. assert (reach (mem s) root p) as Rp by (by exists d, va).
  apply entry_ptr_inj in Ea as [-> _]; [done|by apply Hq|apply (reach_page _ _ _ _ W Rp)|done|apply slot_mod].
Qed.

Section Store.
Context (s : walk) (d : nat) (va0 p v : Z).
Hypothesis W : wf root s.
Hypothesis Hd : (d <= 3)%nat.
Hypothesis Hva0 : va_ok va0.
Hypothesis Hp : tbl (mem s) root d va0 = Some p.
Let s' := store (at_slot p d va0) v s.

Lemma store_at : mload (mem s') (at_slot p d va0) = v.
Proof. subst s'. cbn. by rewrite mload_mstore, Z.eqb_refl. Qed.

Lemma store_ne a : a <> at_slot p d va0 -> mload (mem s') a = mload (mem s) a.
Proof. intros H. subst s'. cbn. rewrite mload_mstore. destruct (Z.eqb_spec (at_slot p d va0) a); congruence. Qed.

(** An entry that points to no table: the slot takes its translation, all
    others keep theirs. *)
Lemma store_leaf T : ent_ok leaf_attrs d v -> (ty v = 3 -> d = 3%nat) ->
  (forall va, va_ok va -> slot d va = slot d va0 ->
    T va (xlate (mem s) root va) =
      if ty v =? leaf_ty d then Some (page_addr v + va mod sz d, attrs v) else None) ->
  eff d T (slot_end d va0 - sz d) (slot_end d va0) 0 s s'.
Proof.
  intros Hv Ht HT.
  assert (forall q i, reach (mem s) root q -> 0 <= i < 512 -> entry_ptr q i <> at_slot p d va0 ->
    mload (mem s') (entry_ptr q i) = mload (mem s) (entry_ptr q i)) as Hs by (intros q i _ _ Hne; by apply store_ne).
  assert (ty v = 3 -> (d < 3)%nat -> False) as Hc by (intros H3 Hlt; rewrite Ht in Hlt by done; lia).
  assert (wf root s') as W'.
  { apply (slot_update_wf leaf_attrs root s s' d va0 p v); try done.
    - apply store_at.
    - intros H3 Hlt. by destruct (Hc H3 Hlt).
    - apply W.
    - intros. by eapply (wf_alloc _ _ _ W). }
  assert (frame s s') as HF.
  { split; [|done]. intros q Ha Hr. split_and!; [done| |].
    + intros (d' & va & Hd' & Hva & E).
      destruct (update_tbl_cases leaf_attrs root s s' d va0 p v W Hd Hva0 Hp store_at Hs
        (fun H3 Hlt => False_ind _ (Hc H3 Hlt)) d' va q Hd' Hva E) as [[_ E']|(-> & _ & T3 & _)].
      * apply Hr. by exists d', va.
      * rewrite (Ht T3) in Hd'. lia.
    + intros i Hi. apply store_ne. by apply (reach_entry_ne s p d va0 q i). }
  constructor; [done|done| | |change (pool s') with (pool s); lia|
    by apply batch_frame; [apply W|apply W|done|apply same_batch_refl]].
  - intros d' va Hd' Hva. apply (update_tbl leaf_attrs root s s' d va0 p W Hd Hva0 Hp Hs); [lia|done|by left].
  - intros va Hva. pose proof (in_slot_iff d va va0 Hd) as Hin.
    destruct (Z.leb_spec (slot_end d va0 - sz d) va), (Z.ltb_spec va (slot_end d va0)); cbn [andb].
    2-4: apply (update_xlate_out leaf_attrs root s s' d va0 p W Hd Hva0 Hp Hs); [done|]; unfold in_slot; rewrite Hin; lia.
    rewrite HT by (done || (apply Hin; lia)).
    rewrite (update_xlate_in leaf_attrs root s s' d va0 p v W Hd Hva0 Hp store_at Hs) by (done || (apply Hin; lia)).
    destruct (Z.eqb_spec (ty v) (leaf_ty d)) as [|Hne]; [done|]. destruct (3 - d)%nat eqn:E3; [done|].
    destruct (Z.eqb_spec (ty v) 3) as [H3|]; [|done]. rewrite Ht in E3 by done. done.
Qed.
End Store.

(** ** Publishing a new table *)

(** A table descriptor for page [q]. *)
Lemma table_desc q : page_ok q -> let v := make_pgentry q PAGE_TABLE_DESC in
  ty v = 3 /\ page_addr v = q /\ in_u64 v.
Proof.
  intros Hq. cbn zeta. change (make_pgentry q PAGE_TABLE_DESC) with (desc q 0 3).
  assert (attr_ok 0) by (split; [lia|done]).
  split_and!; [apply desc_ty|apply desc_page|apply desc_u64]; done || lia.
Qed.

Lemma table_ent_ok d q : page_ok q -> (d < 3)%nat -> ent_ok leaf_attrs d (make_pgentry q PAGE_TABLE_DESC).
Proof.
  intros Hq Hd. destruct (table_desc q Hq) as (E1 & E2 & E3). split; [done|split; [rewrite E1; lia|]].
  rewrite E1. unfold leaf_ty. rewrite (proj2 (Nat.eqb_neq d 3)) by lia. lia.
Qed.

Section Publish.
Context (s s' : walk) (d : nat) (va0 p q : Z).
Hypothesis W : wf root s.
Hypothesis Hd : (d < 3)%nat.
Hypothesis Hva0 : va_ok va0.
Hypothesis Hp : tbl (mem s) root d va0 = Some p.
Hypothesis Htaken : taken (pool s) (pool s') q.
Hypothesis Hentry : mload (mem s') (at_slot p d va0) = make_pgentry q PAGE_TABLE_DESC.
Hypothesis Hother : forall a, a <> at_slot p d va0 -> (forall i, 0 <= i < 512 -> a <> entry_ptr q i) ->
  mload (mem s') a = mload (mem s) a.
Hypothesis Hchild : forall i, 0 <= i < 512 -> let e := mload (mem s') (entry_ptr q i) in
  ent_ok leaf_attrs (S d) e /\ ((S d < 3)%nat -> ty e <> 3).

Lemma publish_page : page_ok q.
Proof. destruct Htaken as (_ & Hin & _). eapply in_pool_page_ok; [apply W|done]. Qed.

Lemma publish_fresh : ~ reach (mem s) root q.
Proof.
  intros (d' & va & Hd' & Hva & E). destruct Htaken as (_ & _ & Hn & _). apply Hn. by eapply (wf_alloc _ _ _ W).
Qed.

(** Words of pages other than [q] are kept, the published entry apart. *)
Lemma publish_same q' i : q' mod 4096 = 0 -> q' <> q -> 0 <= i < 512 -> entry_ptr q' i <> at_slot p d va0 ->
  mload (mem s') (entry_ptr q' i) = mload (mem s) (entry_ptr q' i).
Proof.
  intros Hq' Hne Hi Ha. apply Hother; [done|]. intros j Hj Ej.
  apply entry_ptr_inj in Ej as [-> _]; [done|done|apply publish_page|done..].
Qed.

Lemma publish_reach q' i : reach (mem s) root q' -> 0 <= i < 512 -> entry_ptr q' i <> at_slot p d va0 ->
  mload (mem s') (entry_ptr q' i) = mload (mem s) (entry_ptr q' i).
Proof.
  intros Hr Hi Ha. apply publish_same; [apply (reach_page _ _ _ _ W Hr)| |done..]. intros ->. by apply publish_fresh.
Qed.

Lemma publish_child : ty (make_pgentry q PAGE_TABLE_DESC) = 3 -> (d < 3)%nat ->
  allocated (pool s') (page_addr (make_pgentry q PAGE_TABLE_DESC)) /\
  ~ reach (mem s) root (page_addr (make_pgentry q PAGE_TABLE_DESC)) /\
  (forall i, 0 <= i < 512 -> let e := mload (mem s') (entry_ptr (page_addr (make_pgentry q PAGE_TABLE_DESC)) i) in
    ent_ok leaf_attrs (S d) e /\ ((S d < 3)%nat -> ty e <> 3)).
Proof.
  intros _ _. destruct (table_desc q publish_page) as (_ & -> & _). split_and!; [|apply publish_fresh|apply Hchild].
  destruct Htaken as (_ & _ & _ & _ & Ha & _). apply Ha. by right.
Qed.

Lemma publish_tbl : tbl (mem s') root (S d) va0 = Some q.
Proof.
  destruct (table_desc q publish_page) as (E1 & E2 & _).
  destruct (update_at leaf_attrs root s s' d va0 p _ W ltac:(lia) Hva0 Hp Hentry publish_reach va0 Hva0 eq_refl) as [T1 T2].
  cbn. by rewrite T1, T2, E1, E2, Z.eqb_refl.
Qed.

Lemma publish_eff T : same_batch (update s) (update s') ->
  (forall va, va_ok va -> slot d va = slot d va0 ->
    let e := mload (mem s') (at_slot q (S d) va) in
    T va (xlate (mem s) root va) =
      if ty e =? leaf_ty (S d) then Some (page_addr e + va mod sz (S d), attrs e) else None) ->
  eff d T (slot_end d va0 - sz d) (slot_end d va0) 1 s s'.
Proof.
  intros HU HT. destruct (table_desc q publish_page) as (E1 & E2 & _).
  pose proof Htaken as (Hok & Hin & Hn & Hpool & Hall & Hfree).
  assert (d <= 3)%nat as Hd3 by lia.
  assert (frame s s') as HF.
  { split; [|done]. intros q' Ha Hr. assert (q' <> q) as Hne by (intros ->; done). split_and!.
    + apply Hall. by left.
    + intros (d' & va & Hd' & Hva & E).
      destruct (update_tbl_cases leaf_attrs root s s' d va0 p _ W Hd3 Hva0 Hp Hentry publish_reach publish_child d' va q' Hd' Hva E)
        as [[_ E']|(_ & _ & _ & Eq)]; [apply Hr; by exists d', va|]. congruence.
    + intros i Hi. apply publish_same; [apply Ha|done..|]. by apply (reach_entry_ne s p d va0 q' i). }
  constructor; [|done| | |lia|by apply batch_frame; [apply W|..]].
  - apply (slot_update_wf leaf_attrs root s s' d va0 p _ W Hd3 Hva0 Hp Hentry publish_reach
      (table_ent_ok d q publish_page Hd) publish_child Hok).
    intros d' va q' Hd' Hva E _. apply Hall. left. by eapply (wf_alloc _ _ _ W).
  - intros d' va Hd' Hva. apply (update_tbl leaf_attrs root s s' d va0 p W Hd3 Hva0 Hp publish_reach); [lia|done|by left].
  - intros va Hva. pose proof (in_slot_iff d va va0 Hd3) as Hsl.
    destruct (Z.leb_spec (slot_end d va0 - sz d) va), (Z.ltb_spec va (slot_end d va0)); cbn [andb].
    2-4: apply (update_xlate_out leaf_attrs root s s' d va0 p W Hd3 Hva0 Hp publish_reach); [done|]; unfold in_slot; rewrite Hsl; lia.
    rewrite HT by (done || (apply Hsl; lia)).
    rewrite (update_xlate_in leaf_attrs root s s' d va0 p _ W Hd3 Hva0 Hp Hentry publish_reach) by (done || (apply Hsl; lia)).
    rewrite E1, E2. unfold leaf_ty at 1. rewrite (proj2 (Nat.eqb_neq d 3)) by lia.
    change (3 =? 1) with false. cbn iota. destruct (3 - d)%nat as [|n] eqn:E3; [lia|]. rewrite Z.eqb_refl.
    destruct n as [|n]; cbn [xl]; destruct (_ =? leaf_ty (S d)); try done.
    destruct (Hchild (slot (S d) va mod 512) (slot_mod _ _)) as [_ Hnt].
    change (entry_ptr q (slot (S d) va mod 512)) with (at_slot q (S d) va) in Hnt.
    by rewrite (proj2 (Z.eqb_neq _ 3) (Hnt ltac:(lia))).
Qed.
End Publish.

(** ** Loops over the entries of a table

    The four entry loops of the walker go through the slots of one table from
    [v] until the range or the table ends; they differ in what they do with a
    slot. *)
Section RangeLoop.
Context (d : nat) (p ve : Z) (T : Z -> option (Z * Z) -> option (Z * Z)) (R : Z -> option (Z * Z) -> Prop).
Context (need : Z -> Z -> Z) (retires : Prop) (step : Z -> walk -> outcome walk).

Fixpoint range_loop (n : nat) (v : Z) (s : walk) : outcome walk :=
  match n with
  | O => Ret s
  | S n => s ← step v s; if ve <=? slot_end d v then Ret s else range_loop n (slot_end d v) s
  end.

(** What an operation on [lo, hi) may assume: [R] on the translations of the
    range, enough free pages, and a proper batch where pages are retired. *)
Definition ready (lo hi : Z) (s : walk) : Prop :=
  wf root s /\ (forall va, va_ok va -> lo <= va < hi -> R va (xlate (mem s) root va)) /\
  need lo hi <= Z.of_nat (free_count (pool s)) /\ (retires -> batch_ok s).

(** A specification of a piece of the walker: it returns, with the effect. *)
Definition does (dk : nat) (lo hi : Z) (s : walk) (o : outcome walk) : Prop :=
  exists s', o = Ret s' /\ eff dk T lo hi (need lo hi) s s'.

Hypothesis Hd : (d <= 3)%nat.
Hypothesis Hve : ve <= VA_LIMIT.
Hypothesis need_pos : forall lo hi, 0 <= need lo hi.
Hypothesis need_split : forall lo hi, slot_end d lo < hi -> need lo (slot_end d lo) + need (slot_end d lo) hi <= need lo hi.
Hypothesis Hstep : forall v s, va_ok v -> v mod 4096 = 0 -> v < ve -> tbl (mem s) root d v = Some p ->
  ready v (Z.min ve (slot_end d v)) s -> does d v (Z.min ve (slot_end d v)) s (step v s).

Lemma slot_end_page v : slot_end d v mod 4096 = 0.
Proof.
  destruct (sz_page d Hd) as (k & _ & E). unfold slot_end. rewrite E.
  replace (slot d v * (k * 4096) + k * 4096) with ((slot d v * k + k) * 4096) by lia. by apply Z.mod_mul.
Qed.

(** The rest of the range is still ready after the first part is done. *)
Lemma ready_rest lo mid hi s s' dk : lo <= mid <= hi -> need lo mid + need mid hi <= need lo hi ->
  ready lo hi s -> eff dk T lo mid (need lo mid) s s' -> ready mid hi s'.
Proof.
  intros Hm Hn (W & HR & Hf & HU) [W' F K X N U]. split_and!; [done| |lia|intros Hr; by apply U, HU].
  intros va Hva Hr. rewrite X by done. destruct (Z.ltb_spec va mid); [lia|]. rewrite andb_false_r. apply HR; [done|lia].
Qed.

Lemma ready_part lo mid hi s : lo <= mid <= hi -> need lo mid + need mid hi <= need lo hi ->
  ready lo hi s -> ready lo mid s.
Proof.
  intros Hm Hn (W & HR & Hf & HU). pose proof (need_pos mid hi). split_and!; [done| |lia|done].
  intros va Hva Hr. apply HR; [done|lia].
Qed.

Lemma range_loop_ok : forall n v s, Z.of_nat n = 512 - slot d v mod 512 -> va_ok v -> v mod 4096 = 0 -> v < ve ->
  tbl (mem s) root d v = Some p -> ready v (Z.min ve (table_end d v)) s ->
  does d v (Z.min ve (table_end d v)) s (range_loop n v s).
Proof.
  induction n as [|n IH]; intros v s Hn Hva Hal Hlt Hp Hpre; pose proof (slot_mod d v) as Hm; [lia|]. cbn [range_loop].
  pose proof (slot_end_table d v Hd Hva) as Ht. cbn zeta in Ht.
  pose proof (slot_end_bounds d v Hd) as Hb. unfold does in *.
  assert (slot_end d v <= table_end d v) as Hle by (destruct (Z.eqb_spec (slot d v mod 512) 511); lia).
  destruct (Z.leb_spec ve (slot_end d v)) as [Hend|Hgo].
  { rewrite (Z.min_l ve (table_end d v)) in * by lia.
    destruct (Hstep v s Hva Hal Hlt Hp) as (s' & -> & E); rewrite Z.min_l in * by lia; [done|]. by exists s'. }
  pose proof (Hstep v s Hva Hal Hlt Hp) as Hst. rewrite Z.min_r in Hst by lia.
  pose proof (need_split v (Z.min ve (table_end d v))) as Hns0. pose proof (slot_end_page v) as Hpg.
  remember (slot_end d v) as mid eqn:Emid.
  assert (need v mid + need mid (Z.min ve (table_end d v)) <= need v (Z.min ve (table_end d v)) \/
    Z.min ve (table_end d v) = mid) as Hns.
  { destruct (decide (mid < Z.min ve (table_end d v))); [left; by apply Hns0|right; lia]. }
  assert (ready v mid s) as Hr1.
  { destruct Hns as [Hns|E]; [|by rewrite <- E]. eapply ready_part; [|exact Hns|exact Hpre]. lia. }
  destruct (Hst Hr1) as (s1 & -> & E1). cbn.
  destruct (Z.eqb_spec (slot d v mod 512) 511) as [E5|Hne].
  - assert (n = 0%nat) as -> by lia. exists s1. split; [done|]. by rewrite <- Ht, Z.min_r by lia.
  - destruct Ht as (H1 & H2 & H3 & H4). destruct Hns as [Hns|E]; [|lia].
    assert (va_ok mid) as Hvm by (unfold va_ok in *; lia).
    destruct (IH mid s1) as (s' & E' & Eff); [lia|done|done|lia| | |].
    + rewrite (eff_keeps _ _ _ _ _ _ _ E1 d mid) by (lia || done). rewrite <- Hp. by apply tbl_region.
    + rewrite H4. eapply ready_rest; [|exact Hns|exact Hpre|exact E1]. lia.
    + exists s'. split; [done|]. rewrite H4 in Eff. eapply eff_weaken; [reflexivity|exact Hns|].
      eapply (eff_seq d d d T v mid); [lia|done|done|exact E1|exact Eff].
Qed.
End RangeLoop.

(** ** The entry of a slot *)
Lemma xlate_slot s d va0 va p : (d <= 3)%nat -> tbl (mem s) root d va0 = Some p -> slot d va = slot d va0 ->
  let e := mload (mem s) (at_slot p d va0) in
  (ty e = leaf_ty d -> xlate (mem s) root va = Some (page_addr e + va mod sz d, attrs e)) /\
  (ty e <> leaf_ty d -> (ty e = 3 -> d = 3%nat) -> xlate (mem s) root va = None).
Proof.
  intros Hd Hp Es. cbn zeta.
  assert (tbl (mem s) root d va = Some p) as Hp' by (rewrite <- Hp; apply tbl_region; [done|by apply slot_eq_region]).
  assert (at_slot p d va = at_slot p d va0) as Ea by (unfold at_slot; by rewrite Es).
  rewrite (xlate_tbl _ _ d va p) by done. destruct (3 - d)%nat as [|n] eqn:E3; cbn [xl]; rewrite Ea.
  all: split; [intros ->; by rewrite Z.eqb_refl|intros Hne Ht; rewrite (proj2 (Z.eqb_neq _ _) Hne); try done].
  destruct (Z.eqb_spec (ty (mload (mem s) (at_slot p d va0))) 3) as [H3|]; [|done]. rewrite Ht in E3 by done. done.
Qed.

(** An entry that is present is a leaf or, above the last level, a table. *)
Lemma entry_cases s d va p : wf root s -> (d <= 3)%nat -> va_ok va -> tbl (mem s) root d va = Some p ->
  let e := mload (mem s) (at_slot p d va) in
  (ty e = leaf_ty d /\ (1 <= d)%nat /\ leaf_ok leaf_attrs d e) \/ (ty e = 3 /\ (d < 3)%nat) \/
  (present table e = false /\ ty e <> leaf_ty d /\ ty e <> 3 /\ ty e <> 1).
Proof.
  intros W Hd Hva Hp. cbn zeta. destruct (wf_ent _ _ _ W d va p Hd Hva Hp) as (_ & H1 & H2).
  rewrite present_ty. unfold leaf_ty in *. set (e := mload _ _) in *.
  destruct (Nat.eqb_spec d 3) as [->|Hne].
  - destruct (Z.eqb_spec (ty e) 3) as [E3|]; [left; split_and!; [done|lia|by apply H2]|].
    destruct (Z.eqb_spec (ty e) 1) as [E1|]; [destruct (H1 E1); lia|]. right; right. done.
  - destruct (Z.eqb_spec (ty e) 1) as [E1|]; [left; split_and!; [done|destruct (H1 E1); lia|by apply H2]|].
    destruct (Z.eqb_spec (ty e) 3) as [E3|]; [right; left; split; [done|lia]|]. right; right. done.
Qed.

(** A leaf made by the hook. *)
Lemma leaf_desc d page pr : (1 <= d <= 3)%nat -> page_ok page -> page mod sz d = 0 -> in_u64 pr -> Z.land pr PFN_MASK = 0 ->
  let v := set_pgentry table page pr (Z.of_nat d) true in
  ty v = leaf_ty d /\ page_addr v = page /\ attrs v = leaf_attrs pr /\ ent_ok leaf_attrs d v.
Proof.
  intros Hd Hp Hal Hu Hpr. cbn zeta. rewrite leaf_law by done. pose proof (leaf_attrs_ok pr Hu Hpr) as Ha.
  assert ((if Z.of_nat d =? PGT_LVL0 then PAGE_PAGE_DESC else PAGE_BLOCK_DESC) = leaf_ty d) as ->.
  { unfold leaf_ty, PGT_LVL0. destruct (Z.eqb_spec (Z.of_nat d) 3), (Nat.eqb_spec d 3); try lia; done. }
  fold (desc page (leaf_attrs pr) (leaf_ty d)).
  assert (0 <= leaf_ty d <= 3) as Ht by (unfold leaf_ty; destruct (d =? 3)%nat; lia).
  pose proof (desc_ty page _ _ Hp Ha Ht) as E1. pose proof (desc_page page _ _ Hp Ha Ht) as E2.
  pose proof (desc_attrs page _ _ Hp Ha Ht) as E3. split; [done|split; [done|split; [done|split; [by apply desc_u64|split]]]].
  - rewrite E1. unfold leaf_ty. destruct (Nat.eqb_spec d 3); lia.
  - intros _. unfold leaf_ok. rewrite E1, E2, E3. split; [done|]. apply leaf_attrs_idem; [done|].
    unfold leaf_ty. destruct (d =? 3)%nat; auto.
Qed.

(** ** Adding a child table *)
Lemma zero_ent_ok d : ent_ok leaf_attrs d 0 /\ ty 0 = 0.
Proof.
  split; [|done]. split; [unfold in_u64; lia|]. split; [done|]. unfold leaf_ty. change (ty 0) with 0. destruct (d =? 3)%nat; lia.
Qed.

(** A page taken from the pool and filled, then published in the slot. *)
Lemma publish_store s s1 d va p q T : wf root s -> (d < 3)%nat -> va_ok va -> tbl (mem s) root d va = Some p ->
  taken (pool s) (pool s1) q -> same_batch (update s) (update s1) ->
  (forall a, (forall i, 0 <= i < 512 -> a <> entry_ptr q i) -> mload (mem s1) a = mload (mem s) a) ->
  (forall i, 0 <= i < 512 -> let e := mload (mem s1) (entry_ptr q i) in
    ent_ok leaf_attrs (S d) e /\ ((S d < 3)%nat -> ty e <> 3)) ->
  (forall va', va_ok va' -> slot d va' = slot d va ->
    let e := mload (mem s1) (at_slot q (S d) va') in
    T va' (xlate (mem s) root va') =
      if ty e =? leaf_ty (S d) then Some (page_addr e + va' mod sz (S d), attrs e) else None) ->
  let s2 := store (at_slot p d va) (make_pgentry q PAGE_TABLE_DESC) s1 in
  eff d T (slot_end d va - sz d) (slot_end d va) 1 s s2 /\
  tbl (mem s2) root (S d) va = Some q /\ page_addr (load s2 (at_slot p d va)) = q /\ ty (load s2 (at_slot p d va)) = 3.
Proof.
  intros W Hd Hva Hp Ht Hb Ho Hc HT. cbn zeta. set (s2 := store _ _ _).
  pose proof Ht as (_ & Hin & Hna & _). destruct (in_pool_page_ok _ _ (wf_pool _ _ _ W) Hin) as [Hq _].
  assert (reach (mem s) root p) as Rp by (exists d, va; split_and!; [lia|done..]).
  assert (forall i, 0 <= i < 512 -> at_slot p d va <> entry_ptr q i) as Hne.
  { intros i Hi E. apply entry_ptr_inj in E as [-> _]; [|apply (reach_page _ _ _ _ W Rp)|apply Hq|apply slot_mod|done].
    apply Hna. destruct Rp as (d' & va' & ? & ? & ?). by eapply (wf_alloc _ _ _ W). }
  assert (mload (mem s2) (at_slot p d va) = make_pgentry q PAGE_TABLE_DESC) as He
    by (cbn; by rewrite mload_mstore, Z.eqb_refl).
  assert (forall a, a <> at_slot p d va -> mload (mem s2) a = mload (mem s1) a) as Hm.
  { intros a Hna'. cbn. rewrite mload_mstore. destruct (Z.eqb_spec (at_slot p d va) a); congruence. }
  assert (forall a, a <> at_slot p d va -> (forall i, 0 <= i < 512 -> a <> entry_ptr q i) ->
    mload (mem s2) a = mload (mem s) a) as Ho2 by (intros a H1 H2; rewrite Hm by done; by apply Ho).
  assert (forall i, 0 <= i < 512 -> mload (mem s2) (entry_ptr q i) = mload (mem s1) (entry_ptr q i)) as Hq2
    by (intros i Hi; by apply Hm, not_eq_sym, Hne).
  assert (forall i, 0 <= i < 512 -> let e := mload (mem s2) (entry_ptr q i) in
    ent_ok leaf_attrs (S d) e /\ ((S d < 3)%nat -> ty e <> 3)) as Hc2 by (intros i Hi; rewrite Hq2 by done; by apply Hc).
  change (load s2 (at_slot p d va)) with (mload (mem s2) (at_slot p d va)). rewrite He.
  destruct (table_desc q Hq) as (T1 & T2 & _). split; [|split; [by apply (publish_tbl s s2 d va p q)|done]].
  apply (publish_eff s s2 d va p q); try done. intros va' Hv' Es. cbn zeta. rewrite HT by done. unfold at_slot.
  by rewrite Hq2 by apply slot_mod.
Qed.

(** [alloc_page] then [set_pgentry] of the table descriptor: an absent slot gets
    an empty table, which changes no translation. *)
Lemma add_table s d va p : wf root s -> (d < 3)%nat -> va_ok va -> tbl (mem s) root d va = Some p ->
  present table (mload (mem s) (at_slot p d va)) = false -> free_count (pool s) <> 0%nat ->
  exists q s1, walk_alloc s = Ret (q, s1) /\
    let s2 := store (at_slot p d va) (set_pgentry table q 0 (Z.of_nat d) false) s1 in
    eff d (fun _ x => x) (slot_end d va - sz d) (slot_end d va) 1 s s2 /\
    tbl (mem s2) root (S d) va = Some q /\ page_addr (load s2 (at_slot p d va)) = q.
Proof.
  intros W Hd Hva Hp Habs Hf. pose proof (alloc_page_spec (pool s) (mem s) (wf_pool _ _ _ W)) as Ha.
  rewrite decide_False in Ha by done. destruct Ha as (q & pool' & Ea & Ht). exists q.
  eexists. split; [unfold walk_alloc; rewrite Ea; reflexivity|]. cbn zeta. rewrite table_law. set (s1 := _ <| mem := _ |>).
  assert (forall i, 0 <= i < 512 -> mload (mem s1) (entry_ptr q i) = 0) as Hz
    by (intros i Hi; by apply (sanitize_pte_load q (mem s) 0)).
  destruct (publish_store s s1 d va p q (fun _ x => x)) as (E1 & E2 & E3 & _); try done; [apply same_batch_refl|..].
  - intros a Hout. by apply sanitize_pte_load.
  - intros i Hi. cbn zeta. rewrite Hz by done. destruct (zero_ent_ok (S d)) as [Z1 Z2]. split; [done|]. rewrite Z2. lia.
  - intros va' Hva' Hs'. cbn zeta. unfold at_slot. rewrite Hz by apply slot_mod.
    change (ty 0) with 0. destruct (xlate_slot s d va va' p ltac:(lia) Hp Hs') as [_ Hx].
    destruct (entry_cases s d va p W ltac:(lia) Hva Hp) as [(E & H1 & _)|[(E & _)|(_ & E1 & E2 & _)]].
    + rewrite present_ty, E in Habs. unfold leaf_ty in Habs. by destruct (d =? 3)%nat.
    + by rewrite present_ty, E in Habs.
    + rewrite Hx by (done || lia). unfold leaf_ty. by destruct (S d =? 3)%nat.
Qed.

(** ** Adding a range *)

(** Number of entries of level [k] that [lo, hi) touches. *)
Definition slots (k : nat) (lo hi : Z) : Z := if lo <? hi then slot k (hi - 1) - slot k lo + 1 else 0.

Lemma slot_mono k a b : (k <= 3)%nat -> a <= b -> slot k a <= slot k b.
Proof. intros. unfold slot. apply Z.div_le_mono; [by apply sz_pos|done]. Qed.

Lemma slots_nonneg k lo hi : (k <= 3)%nat -> 0 <= slots k lo hi.
Proof.
  intros. unfold slots. destruct (Z.ltb_spec lo hi); [|lia]. pose proof (slot_mono k lo (hi - 1)). lia.
Qed.

Lemma slots_pos k lo hi : (k <= 3)%nat -> lo < hi -> 1 <= slots k lo hi.
Proof.
  intros. unfold slots. destruct (Z.ltb_spec lo hi); [|lia]. pose proof (slot_mono k lo (hi - 1)). lia.
Qed.

Lemma sz_div d k : (d <= k <= 3)%nat -> exists n, sz d = n * sz k.
Proof.
  intros. exists (2 ^ (9 * (Z.of_nat k - Z.of_nat d))). unfold sz. rewrite <- Z.pow_add_r by lia. f_equal. lia.
Qed.

Lemma slots_split d k lo hi : (d <= k <= 3)%nat -> slot_end d lo < hi ->
  slots k lo (slot_end d lo) + slots k (slot_end d lo) hi = slots k lo hi.
Proof.
  intros Hk Hlt. pose proof (slot_end_bounds d lo ltac:(lia)). unfold slots.
  rewrite !(proj2 (Z.ltb_lt _ _)) by lia. destruct (sz_div d k Hk) as (n & En). pose proof (sz_pos k ltac:(lia)).
  set (j := slot d lo * n + n).
  assert (slot_end d lo = j * sz k) as Ee by (unfold slot_end, j; rewrite En; lia).
  assert (slot k (slot_end d lo) = j) as -> by (rewrite Ee; unfold slot; apply Z.div_mul; lia).
  assert (slot k (slot_end d lo - 1) = j - 1) as -> by (rewrite Ee; apply slot_iff; [lia|lia]). lia.
Qed.

(** How many ends of [lo, hi) lie inside an entry of level [k]. *)
Definition split_ends (k : nat) (lo hi : Z) : Z :=
  (if lo mod sz k =? 0 then 0 else 1) + (if hi mod sz k =? 0 then 0 else 1).

Lemma split_ends_range k lo hi : 0 <= split_ends k lo hi <= 2.
Proof. unfold split_ends. zb; lia. Qed.

Lemma split_ends_split d k lo hi : (d <= k <= 3)%nat ->
  split_ends k lo (slot_end d lo) + split_ends k (slot_end d lo) hi = split_ends k lo hi.
Proof.
  intros Hk. destruct (sz_div d k Hk) as (n & En). pose proof (sz_pos k ltac:(lia)).
  assert (slot_end d lo mod sz k = 0) as E.
  { unfold slot_end. rewrite En. replace (slot d lo * (n * sz k) + n * sz k) with ((slot d lo * n + n) * sz k) by lia.
    apply Z.mod_mul. lia. }
  unfold split_ends. rewrite E, Z.eqb_refl. lia.
Qed.

(** A slot covered in part has an end of the range inside. *)
Lemma split_ends_partial d v ve : (d <= 3)%nat -> v < ve -> ve < slot_end d v \/ v mod sz d <> 0 ->
  1 <= split_ends d v (Z.min ve (slot_end d v)).
Proof.
  intros Hd Hlt Hpart. unfold split_ends. destruct Hpart as [Hl|Hm]; [|by rewrite (proj2 (Z.eqb_neq _ 0) Hm); zb; lia].
  rewrite Z.min_l by lia. assert (ve mod sz d <> 0) as Hne.
  { pose proof (sz_pos d Hd). intros E. apply Z.mod_divide in E as [k ->]; [|lia].
    pose proof (slot_bounds d v Hd). unfold slot_end in Hl.
    assert (slot d v < k) by nia. assert (k < slot d v + 1) by nia. lia. }
  rewrite (proj2 (Z.eqb_neq _ 0) Hne). zb; lia.
Qed.

(** A leaf of level [d] serves the slots the range covers: the level is allowed,
    supported and the output has its alignment. *)
Definition leaf_level (r : pgtable_map_request) (delta : Z) (d : nat) : bool :=
  (1 <=? d)%nat && negb (Z.land (allowed_leaf_levels r) (u32 (Z.shiftl 1 (Z.of_nat d))) =? 0) &&
  large_page_support table (Z.of_nat d) (prot r) && (delta mod sz d =? 0).

(** The tables the slots of level [d] can need: one for each slot, or for the
    slots covered in part. *)
Definition level_tables (r : pgtable_map_request) (delta : Z) (d : nat) (lo hi : Z) : Z :=
  if leaf_level r delta d then split_ends d lo hi else slots d lo hi.

(** A bound on the pages the tables of levels below [d] for [lo, hi) can take. *)
Definition tables_needed (r : pgtable_map_request) (delta : Z) (d : nat) (lo hi : Z) : Z :=
  match d with
  | 0%nat => level_tables r delta 0 lo hi + (level_tables r delta 1 lo hi + level_tables r delta 2 lo hi)
  | 1%nat => level_tables r delta 1 lo hi + level_tables r delta 2 lo hi
  | 2%nat => level_tables r delta 2 lo hi
  | _ => 0
  end.

Lemma level_tables_nonneg r delta d lo hi : (d <= 3)%nat -> 0 <= level_tables r delta d lo hi.
Proof.
  intros. unfold level_tables. destruct (leaf_level r delta d); [apply split_ends_range|by apply slots_nonneg].
Qed.

Lemma level_tables_split r delta d k lo hi : (d <= k <= 3)%nat -> slot_end d lo < hi ->
  level_tables r delta k lo (slot_end d lo) + level_tables r delta k (slot_end d lo) hi = level_tables r delta k lo hi.
Proof.
  intros. unfold level_tables. destruct (leaf_level r delta k); [by apply split_ends_split|by apply slots_split].
Qed.

Lemma tables_needed_pos r delta d lo hi : 0 <= tables_needed r delta d lo hi.
Proof.
  pose proof (fun k => level_tables_nonneg r delta k lo hi) as H.
  pose proof (H 0%nat). pose proof (H 1%nat). pose proof (H 2%nat). destruct d as [|[|[|]]]; cbn [tables_needed]; lia.
Qed.

Lemma tables_needed_split r delta d lo hi : (d <= 3)%nat -> slot_end d lo < hi ->
  tables_needed r delta d lo (slot_end d lo) + tables_needed r delta d (slot_end d lo) hi <= tables_needed r delta d lo hi.
Proof.
  intros Hd H. pose proof (fun k => level_tables_split r delta d k lo hi) as Hk.
  destruct d as [|[|[|d]]]; cbn [tables_needed];
    [pose proof (Hk 0%nat); pose proof (Hk 1%nat)|pose proof (Hk 1%nat)| |]; pose proof (Hk 2%nat); lia.
Qed.

Lemma tables_needed_S r delta d lo hi : (d < 3)%nat ->
  tables_needed r delta d lo hi = level_tables r delta d lo hi + tables_needed r delta (S d) lo hi.
Proof. intros. destruct d as [|[|[|d]]]; cbn [tables_needed]; lia. Qed.

Section Add.
Context (request : pgtable_map_request) (delta ve : Z).
Notation pr := (prot request).
Hypothesis Hprot : in_u64 pr.
Hypothesis Hpfn : Z.land pr PFN_MASK = 0.
Hypothesis Hdelta : delta mod 4096 = 0.
Hypothesis Hve : ve <= VA_LIMIT /\ ve mod 4096 = 0 /\ ve + delta <= VA_LIMIT.

(** An unmapped address of the range is mapped at distance [delta]; a mapped one
    keeps its translation. *)
Definition add_T (va : Z) (x : option (Z * Z)) : option (Z * Z) :=
  match x with Some _ => x | None => Some (va + delta, leaf_attrs pr) end.

(** With a break-before-make hook the range must be unmapped. *)
Definition add_R (va : Z) (x : option (Z * Z)) : Prop :=
  0 <= va + delta /\ match replace_pgentry table with Some _ => x = None | None => True end.

Notation needed := (tables_needed request delta).
Notation add_ready d := (ready add_R (needed d) False).
Notation add_does d := (does add_T (needed d) d).

(** An entry that is already a leaf is left as it is. *)
Lemma add_overlap s d v hi p : wf root s -> (d <= 3)%nat -> va_ok v -> v < hi <= slot_end d v ->
  tbl (mem s) root d v = Some p -> ty (mload (mem s) (at_slot p d v)) = leaf_ty d ->
  add_R v (xlate (mem s) root v) -> overlap table s = Ret s /\ eff d add_T v hi 0 s s.
Proof.
  intros W Hd Hva Hhi Hp Ht HR. destruct (xlate_slot s d v v p Hd Hp eq_refl) as [Hx _]. specialize (Hx Ht). split.
  - unfold overlap, add_R in *. destruct (replace_pgentry table); [destruct HR; congruence|done].
  - apply eff_same; [done|lia|]. intros va Hva' Hr. pose proof (slot_bounds d v Hd).
    destruct (xlate_slot s d v va p Hd Hp) as [Hx' _]; [apply in_slot_iff; [done|unfold slot_end in *; lia]|].
    by rewrite (Hx' Ht).
Qed.

(** A leaf for a whole absent slot. *)
Lemma add_leaf s d v p : wf root s -> (1 <= d <= 3)%nat -> va_ok v -> v = slot_end d v - sz d -> slot_end d v <= ve ->
  0 <= v + delta -> (v + delta) mod sz d = 0 -> tbl (mem s) root d v = Some p ->
  present table (mload (mem s) (at_slot p d v)) = false ->
  eff d add_T v (slot_end d v) 0 s (store (at_slot p d v) (set_pgentry table (v + delta) pr (Z.of_nat d) true) s).
Proof.
  intros W Hd Hva Hv Hend H0 Hal Hp Habs. pose proof (sz_pos d ltac:(lia)). pose proof (sz_page d ltac:(lia)) as (k & _ & Ek).
  assert (page_ok (v + delta)) as Hpage.
  { split; [unfold VA_LIMIT in *; lia|]. rewrite Ek in Hal. by apply Z.mod_divide in Hal as [j ->]; [|lia];
      rewrite Z.mul_assoc, Z.mod_mul. }
  destruct (leaf_desc d (v + delta) pr Hd Hpage Hal Hprot Hpfn) as (E1 & E2 & E3 & E4).
  rewrite Hv at 1. apply store_leaf; [done|lia|done|done|done| |].
  - rewrite E1. unfold leaf_ty. destruct (Nat.eqb_spec d 3); lia.
  - intros va Hva' Hs. rewrite E1, E2, E3, Z.eqb_refl.
    destruct (entry_cases s d v p W ltac:(lia) Hva Hp) as [(E & _)|[(E & _)|(_ & X1 & X2 & _)]].
    1,2: rewrite present_ty, E in Habs; unfold leaf_ty in Habs; by destruct (d =? 3)%nat.
    destruct (xlate_slot s d v va p ltac:(lia) Hp Hs) as [_ ->]; [|done|lia]. cbn. do 2 f_equal.
    apply in_slot_iff in Hs; [|lia]. rewrite (Z.mod_eq va (sz d)) by lia. fold (slot d va).
    assert (slot d va = slot d v) as -> by (apply in_slot_iff; [lia|done]). unfold slot_end in Hv. lia.
Qed.

(** One slot of [add_pgtl0]. *)
Definition add_step0 (p v : Z) (s : walk) : outcome walk :=
  if present table (load s (at_slot p 3 v)) then overlap table s
  else Ret (store (at_slot p 3 v) (set_pgentry table (v + delta) pr PGT_LVL0 true) s).

Lemma add_page v : v mod 4096 = 0 -> (v + delta) mod 4096 = 0.
Proof. intros H. by rewrite Zplus_mod, H, Hdelta. Qed.

Lemma add_step0_ok p v s : va_ok v -> v mod 4096 = 0 -> v < ve -> tbl (mem s) root 3 v = Some p ->
  add_ready 3 v (Z.min ve (slot_end 3 v)) s -> add_does 3 v (Z.min ve (slot_end 3 v)) s (add_step0 p v s).
Proof.
  intros Hva Hal Hlt Hp (W & HR & _ & _). pose proof (page_slot v Hal) as Ee.
  assert (slot_end 3 v <= ve) as Hle by (rewrite Ee; mlia). rewrite Z.min_r in * by done.
  pose proof (HR v Hva ltac:(lia)) as HRv. unfold does, add_step0.
  change (load s (at_slot p 3 v)) with (mload (mem s) (at_slot p 3 v)). cbn [tables_needed].
  destruct (entry_cases s 3 v p W ltac:(lia) Hva Hp) as [(E & _ & _)|[(_ & E)|(E & _)]]; [|lia|].
  - assert (present table (mload (mem s) (at_slot p 3 v)) = true) as -> by (rewrite present_ty, E; done).
    destruct (add_overlap s 3 v (slot_end 3 v) p) as [-> Heff]; [done|lia|done|lia|done..|]. by exists s.
  - rewrite E. eexists. split; [done|]. apply (add_leaf s 3 v p); [done|lia|done|change (sz 3) with 4096; lia|done|apply HRv| |done..].
    by apply add_page.
Qed.

Lemma add_loop0_eq p : forall n v s, Z.of_nat n = 512 - slot 3 v mod 512 -> va_ok v -> v mod 4096 = 0 -> v < ve -> 0 <= v + delta ->
  add_loop0 table request n p (slot 3 v mod 512) (v + delta) v ve s = range_loop 3 ve (add_step0 p) n v s.
Proof.
  induction n as [|n IH]; intros v s Hn Hva Hal Hlt H0; [done|]. cbn [add_loop0 range_loop].
  change (get_level_size PGT_LVL0) with 4096. pose proof (page_slot v Hal) as Ee. unfold VA_LIMIT, va_ok in *.
  rewrite !u64_small by (unfold in_u64; lia). replace (v + delta + 4096) with (slot_end 3 v + delta) by lia. rewrite <- Ee.
  change (entry_ptr p (slot 3 v mod 512)) with (at_slot p 3 v). fold (add_step0 p v s).
  destruct (add_step0 p v s) as [s1| |]; cbn; [|done..]. destruct (Z.leb_spec ve (slot_end 3 v)); [done|].
  pose proof (slot_end_table 3 v ltac:(lia) Hva) as Ht. cbn zeta in Ht.
  destruct (Z.eqb_spec (slot 3 v mod 512) 511) as [E5|Hne]; [by assert (n = 0%nat) as -> by lia|].
  destruct Ht as (H1 & H2 & _). rewrite <- H2. apply IH; [lia|unfold va_ok, VA_LIMIT; lia|rewrite Ee; mlia|lia|lia].
Qed.

(** The specification of the function of level [d]. *)
Definition add_level_ok (d : nat) (f : Z -> Z -> Z -> Z -> walk -> outcome walk) : Prop :=
  forall pte v s p, va_ok v -> v mod 4096 = 0 -> v < ve -> tbl (mem s) root d v = Some p ->
    page_addr (load s pte) = p -> add_ready d v (Z.min ve (table_end d v)) s ->
    add_does d v (Z.min ve (table_end d v)) s (f pte (v + delta) v ve s).

Lemma ready_start d v s : va_ok v -> v < ve -> v < table_end d v -> add_ready d v (Z.min ve (table_end d v)) s -> 0 <= v + delta.
Proof. intros Hva H1 H2 (_ & HR & _). apply (HR v Hva). lia. Qed.

Lemma add_pgtl0_ok : add_level_ok 3 (add_pgtl0 table request).
Proof.
  intros pte v s p Hva Hal Hlt Hp Hpte Hr. unfold add_pgtl0. change PGT_LVL0 with (Z.of_nat 3).
  pose proof (table_end_gt 3 v ltac:(lia) Hva). pose proof (slot_mod 3 v).
  rewrite level_index, Hpte, add_loop0_eq by (done || (unfold PTRS_PER_PGTL; lia) || by eapply ready_start).
  apply range_loop_ok with (R := add_R) (retires := False) (p := p); try done; try lia.
  - intros. by apply add_step0_ok.
  - unfold PTRS_PER_PGTL. lia.
Qed.

(** *** The middle levels *)
Section AddLevel.
Context (d : nat) (lower : Z -> Z -> Z -> Z -> walk -> outcome walk).
Hypothesis Hd : (d < 3)%nat.
Hypothesis Hlower : add_level_ok (S d) lower.

(** Descend into an existing table. *)
Lemma add_descend p v s : va_ok v -> v mod 4096 = 0 -> v < ve -> tbl (mem s) root d v = Some p ->
  ty (mload (mem s) (at_slot p d v)) = 3 -> add_ready d v (Z.min ve (slot_end d v)) s ->
  add_does d v (Z.min ve (slot_end d v)) s (lower (at_slot p d v) (v + delta) v ve s).
Proof.
  intros Hva Hal Hlt Hp Ht (W & HR & Hf & HU). rewrite tables_needed_S in Hf by done.
  pose proof (level_tables_nonneg request delta d v (Z.min ve (slot_end d v)) ltac:(lia)).
  destruct (Hlower (at_slot p d v) v s (page_addr (mload (mem s) (at_slot p d v)))) as (s' & E & Eff); try done.
  - cbn. by rewrite Hp, Ht.
  - split_and!; [done|done| |done]. cbn [table_end]. lia.
  - exists s'. split; [done|]. rewrite tables_needed_S by done. eapply eff_weaken; [|..|exact Eff]; [lia|]. cbn [table_end]. lia.
Qed.

(** Give an absent slot a table and descend. *)
Lemma add_table_descend p v s : va_ok v -> v mod 4096 = 0 -> v < ve -> tbl (mem s) root d v = Some p ->
  present table (mload (mem s) (at_slot p d v)) = false -> 1 <= level_tables request delta d v (Z.min ve (slot_end d v)) ->
  add_ready d v (Z.min ve (slot_end d v)) s ->
  add_does d v (Z.min ve (slot_end d v)) s
    ('(child, s) ← walk_alloc s;
     lower (at_slot p d v) (v + delta) v ve (store (at_slot p d v) (set_pgentry table child 0 (Z.of_nat d) false) s)).
Proof.
  intros Hva Hal Hlt Hp Habs H1 (W & HR & Hf & HU). pose proof (slot_end_bounds d v ltac:(lia)).
  rewrite tables_needed_S in Hf by done. pose proof (tables_needed_pos request delta (S d) v (Z.min ve (slot_end d v))).
  destruct (add_table s d v p W Hd Hva Hp Habs ltac:(lia)) as (q & s1 & E1 & Heff & Htbl & Hq). cbn zeta in *.
  set (s2 := store _ _ s1) in *. unfold does. rewrite E1. cbn [mbind outcome_bind]. fold s2.
  assert (forall va, va_ok va -> xlate (mem s2) root va = xlate (mem s) root va) as Hx.
  { intros va Hv. rewrite (eff_xlate _ _ _ _ _ _ _ Heff va Hv). by destruct (_ && _). }
  destruct (Hlower (at_slot p d v) v s2 q) as (s' & E & Eff); try done.
  - split_and!; [apply Heff| | |done].
    + intros va Hv Hr. rewrite Hx by done. by apply HR.
    + pose proof (eff_free _ _ _ _ _ _ _ Heff). cbn [table_end]. lia.
  - exists s'. split; [done|]. cbn [table_end] in Eff. rewrite tables_needed_S by done.
    eapply eff_weaken; [reflexivity| |]; [|eapply (eff_before d d (S d)); [lia|lia|eapply eff_id_range; exact Heff|exact Eff]]. lia.
Qed.

Definition add_step (p v : Z) (s : walk) : outcome walk :=
  let pte := at_slot p d v in
  if arch_pgtl_large (load s pte) then overlap table s
  else if negb (present table (load s pte)) then
    if pgtable_map_allows_leaf table request (Z.of_nat d) (v + delta) v (slot_end d v) ve then
      Ret (store pte (set_pgentry table (v + delta) pr (Z.of_nat d) true) s)
    else
      '(child, s) ← walk_alloc s;
      lower pte (v + delta) v ve (store pte (set_pgentry table child 0 (Z.of_nat d) false) s)
  else lower pte (v + delta) v ve s.

(** A slot that may not be a leaf counts as a table. *)
Lemma level_tables_refused v : (1 <= d)%nat -> v < ve ->
  pgtable_map_allows_leaf table request (Z.of_nat d) (v + delta) v (slot_end d v) ve = false ->
  1 <= level_tables request delta d v (Z.min ve (slot_end d v)).
Proof.
  intros H1 Hlt Ha. pose proof (slot_end_bounds d v ltac:(lia)). unfold level_tables.
  destruct (leaf_level request delta d) eqn:El; [|apply slots_pos; lia].
  apply andb_true_iff in El as [El Hdl%Z.eqb_eq]. apply andb_true_iff in El as [El Hsup]. apply andb_true_iff in El as [_ Hall].
  unfold pgtable_map_allows_leaf in Ha. rewrite !aligned_check_eq, Hall, Hsup in Ha by lia. cbn [andb] in Ha.
  apply split_ends_partial; [lia|done|]. destruct (Z.leb_spec (slot_end d v) ve); [right|by left].
  intros Hv. rewrite Hv, Z.eqb_refl, andb_true_r in Ha. rewrite Zplus_mod, Hv, Hdl in Ha. done.
Qed.

Lemma add_step_ok p v s : (1 <= d)%nat -> va_ok v -> v mod 4096 = 0 -> v < ve -> tbl (mem s) root d v = Some p ->
  add_ready d v (Z.min ve (slot_end d v)) s -> add_does d v (Z.min ve (slot_end d v)) s (add_step p v s).
Proof.
  intros H1 Hva Hal Hlt Hp Hr. pose proof Hr as (W & HR & _ & _). pose proof (slot_end_bounds d v ltac:(lia)).
  pose proof (HR v Hva ltac:(lia)) as HRv. pose proof (tables_needed_pos request delta d v (Z.min ve (slot_end d v))).
  unfold add_step. cbn zeta. change (load s (at_slot p d v)) with (mload (mem s) (at_slot p d v)). rewrite large_ty.
  assert (leaf_ty d = 1) as El by (unfold leaf_ty; rewrite (proj2 (Nat.eqb_neq d 3)) by lia; done).
  destruct (entry_cases s d v p W ltac:(lia) Hva Hp) as [(E & _ & _)|[(E & _)|(E & _ & _ & E1)]].
  - rewrite E, El. destruct (add_overlap s d v (Z.min ve (slot_end d v)) p) as [-> Heff]; [done|lia|done|lia|done..|].
    exists s. split; [done|]. eapply eff_weaken; [reflexivity| |exact Heff]. lia.
  - rewrite (present_ty (mload _ _)), E. by apply add_descend.
  - rewrite E, (proj2 (Z.eqb_neq _ 1) E1). cbn [negb].
    destruct (pgtable_map_allows_leaf _ _ _ _ _ _ _) eqn:Ea;
      [|apply add_table_descend; try done; apply level_tables_refused; try done; lia].
    unfold pgtable_map_allows_leaf in Ea. rewrite !aligned_check_eq in Ea by lia.
    apply andb_true_iff in Ea as [[[_ A1%Z.eqb_eq]%andb_true_iff A2%Z.eqb_eq]%andb_true_iff A3%Z.leb_le].
    eexists. split; [done|]. rewrite Z.min_r in * by done. eapply eff_weaken; [reflexivity| |apply add_leaf]; try done; try lia.
    + apply slot_start; [lia|done].
    + apply HRv.
Qed.

Lemma add_loop_eq p : forall n v s, Z.of_nat n = 512 - slot d v mod 512 -> va_ok v -> v < ve -> 0 <= v + delta ->
  add_loop table request (Z.of_nat d) lower n p (slot d v mod 512) (v + delta) v ve s = range_loop d ve (add_step p) n v s.
Proof.
  induction n as [|n IH]; intros v s Hn Hva Hlt H0; [done|]. cbn [add_loop range_loop]. rewrite vaddr_next_eq by (lia || done).
  pose proof (slot_end_bounds d v ltac:(lia)) as Hb. pose proof (slot_end_limit d v ltac:(lia) Hva) as Hl.
  assert (ve <= slot_end d v \/ (slot_end d v < ve /\ forall s,
    add_loop table request (Z.of_nat d) lower n p (slot d v mod 512 + 1) (u64 (v + delta + u64 (slot_end d v - v))) (slot_end d v) ve s =
    range_loop d ve (add_step p) n (slot_end d v) s)) as Hc.
  { destruct (Z.le_gt_cases ve (slot_end d v)) as [|Hg]; [by left|right]. split; [done|]. intros s'.
    unfold VA_LIMIT, va_ok in *. rewrite (u64_small (slot_end d v - v)) by (unfold in_u64; lia).
    rewrite u64_small by (unfold in_u64; lia). replace (v + delta + (slot_end d v - v)) with (slot_end d v + delta) by lia.
    pose proof (slot_end_table d v ltac:(lia) Hva) as Ht. cbn zeta in Ht.
    destruct (Z.eqb_spec (slot d v mod 512) 511) as [E5|Hne]; [by assert (n = 0%nat) as -> by lia|].
    destruct Ht as (H1 & H2 & _). rewrite <- H2. apply IH; [lia|unfold va_ok, VA_LIMIT; lia|lia|lia]. }
  change (entry_ptr p (slot d v mod 512)) with (at_slot p d v).
  set (rest := range_loop d ve (add_step p) n) in *. unfold add_step. cbn zeta.
  destruct Hc as [Hc|[Hc Hrest]].
  - rewrite !(proj2 (Z.leb_le _ _) Hc), (proj2 (Z.ltb_ge _ _) Hc). cbn iota. repeat run_branch; done.
  - rewrite !(proj2 (Z.leb_gt _ _) Hc), (proj2 (Z.ltb_lt _ _) Hc). cbn iota. repeat run_branch; done || apply Hrest.
Qed.

Lemma add_pgtl_ok : (1 <= d)%nat -> add_level_ok d (add_pgtl table request (Z.of_nat d) lower).
Proof.
  intros H1 pte v s p Hva Hal Hlt Hp Hpte Hr. unfold add_pgtl.
  pose proof (table_end_gt d v ltac:(lia) Hva). pose proof (slot_mod d v).
  rewrite level_index, Hpte, add_loop_eq by (done || (unfold PTRS_PER_PGTL; lia) || (by eapply ready_start)).
  apply range_loop_ok with (R := add_R) (retires := False) (p := p); try done; try lia.
  - intros. apply tables_needed_pos.
  - intros. by apply tables_needed_split; [lia|].
  - intros. by apply add_step_ok.
  - unfold PTRS_PER_PGTL. lia.
Qed.
End AddLevel.

(** *** The root *)
Lemma add_pgtl2_ok : add_level_ok 1 (add_pgtl2 table request).
Proof.
  apply (add_pgtl_ok 1 (add_pgtl1 table request)); [lia| |lia].
  apply (add_pgtl_ok 2 (add_pgtl0 table request)); [lia|apply add_pgtl0_ok|lia].
Qed.

Definition add_root_step (v : Z) (s : walk) : outcome walk :=
  s ← (if negb (present table (load s (at_slot root 0 v))) then
         '(child, s) ← walk_alloc s; Ret (store (at_slot root 0 v) (set_pgentry table child 0 PGT_LVL3 false) s)
       else Ret s);
  add_pgtl2 table request (at_slot root 0 v) (v + delta) v ve s.

Lemma add_root_step_ok v s : va_ok v -> v mod 4096 = 0 -> v < ve -> tbl (mem s) root 0 v = Some root ->
  add_ready 0 v (Z.min ve (slot_end 0 v)) s -> add_does 0 v (Z.min ve (slot_end 0 v)) s (add_root_step v s).
Proof.
  intros Hva Hal Hlt Hp Hr. pose proof Hr as (W & _). unfold add_root_step.
  change (load s (at_slot root 0 v)) with (mload (mem s) (at_slot root 0 v)).
  destruct (entry_cases s 0 v root W ltac:(lia) Hva Hp) as [(_ & E & _)|[(E & _)|(E & _)]]; [lia| |].
  - rewrite present_ty, E. cbn. apply (add_descend 0); [lia|apply add_pgtl2_ok|done..].
  - rewrite E. cbn [negb].
    pose proof (slot_end_bounds 0 v ltac:(lia)).
    pose proof (add_table_descend 0 _ ltac:(lia) add_pgtl2_ok root v s Hva Hal Hlt Hp E ltac:(apply slots_pos; lia) Hr) as Hx.
    change (Z.of_nat 0) with PGT_LVL3 in Hx. destruct (walk_alloc s) as [[child s1]| |]; exact Hx.
Qed.

Lemma add_root_eq : forall n fuel v s, Z.of_nat n = 512 - slot 0 v mod 512 -> va_ok v -> v < ve -> 0 <= v + delta ->
  slot 0 (ve - 1) - slot 0 v < Z.of_nat fuel ->
  add_root table request fuel root (v + delta) v ve s = range_loop 0 ve add_root_step n v s.
Proof.
  induction n as [|n IH]; intros fuel v s Hn Hva Hlt H0 Hf; pose proof (slot_mod 0 v); [lia|].
  pose proof (slot_mono 0 v (ve - 1) ltac:(lia) ltac:(lia)). destruct fuel as [|fuel]; [lia|]. cbn [add_root range_loop].
  rewrite (proj2 (Z.ltb_lt v ve) Hlt). rewrite (root_next v Hva), root_index.
  change (entry_ptr root (slot 0 v mod 512)) with (at_slot root 0 v).
  pose proof (slot_end_bounds 0 v ltac:(lia)) as Hb. pose proof (slot_end_limit 0 v ltac:(lia) Hva) as Hl.
  unfold VA_LIMIT, va_ok in *. rewrite (u64_small (slot_end 0 v - v)) by (unfold in_u64; lia).
  assert (forall s', add_root table request fuel root (u64 (v + delta + (slot_end 0 v - v))) (slot_end 0 v) ve s' =
    if ve <=? slot_end 0 v then Ret s' else range_loop 0 ve add_root_step n (slot_end 0 v) s') as Hrest.
  { intros s'. destruct (Z.leb_spec ve (slot_end 0 v)) as [Hge|Hgt].
    - destruct fuel; cbn [add_root]; by rewrite (proj2 (Z.ltb_ge _ _) Hge).
    - rewrite u64_small by (unfold in_u64; lia). replace (v + delta + (slot_end 0 v - v)) with (slot_end 0 v + delta) by lia.
      pose proof (slot_end_table 0 v ltac:(lia) Hva) as Ht. cbn zeta in Ht. cbn [table_end] in Ht. unfold VA_LIMIT in Ht.
      destruct (Z.eqb_spec (slot 0 v mod 512) 511) as [E5|Hne]; [lia|]. destruct Ht as (Ht1 & Ht2 & _).
      pose proof (slot_of_end 0 v ltac:(lia)). apply IH; unfold va_ok, VA_LIMIT; lia. }
  set (rest := range_loop 0 ve add_root_step n) in *. unfold add_root_step. destruct (negb _); cbn [mbind outcome_bind].
  - destruct (walk_alloc s) as [[child s1]| |]; cbn [mbind outcome_bind]; [|done..].
    destruct (add_pgtl2 _ _ _ _ _ _ _) as [s2| |]; cbn [mbind outcome_bind]; done || apply Hrest.
  - destruct (add_pgtl2 _ _ _ _ _ _ _) as [s2| |]; cbn [mbind outcome_bind]; done || apply Hrest.
Qed.

Lemma add_root_ok v s : va_ok v -> v mod 4096 = 0 -> v < ve -> add_ready 0 v ve s ->
  add_does 0 v ve s (add_root table request (root_fuel v ve) root (v + delta) v ve s).
Proof.
  intros Hva Hal Hlt Hr. pose proof (slot_mod 0 v).
  rewrite (add_root_eq (Z.to_nat (512 - slot 0 v mod 512))); [|lia|done|done| |apply root_fuel_enough; unfold va_ok in *; lia].
  - replace ve with (Z.min ve (table_end 0 v)) at 1 by (cbn; lia).
    apply range_loop_ok with (R := add_R) (retires := False) (p := root); try done; try lia.
    + intros. apply tables_needed_pos.
    + intros. by apply tables_needed_split; [lia|].
    + intros. by apply add_root_step_ok.
    + cbn [table_end]. by rewrite Z.min_l by lia.
  - destruct Hr as (_ & HR & _). apply (HR v Hva). lia.
Qed.
End Add.

(** The update batch is no part of the tables. *)
Lemma wf_set_update s s' : mem s' = mem s -> pool s' = pool s -> wf root s -> wf root s'.
Proof. intros Em Ep [W1 W2 W3 W4]. constructor; rewrite ?Em, ?Ep; done. Qed.

Lemma eff_set_update d T lo hi k s s1 s2 : mem s2 = mem s1 -> pool s2 = pool s1 -> same_batch (update s1) (update s2) ->
  eff d T lo hi k s s1 -> eff d T lo hi k s s2.
Proof.
  intros Em Ep Eu [W F K X N U]. constructor.
  - by eapply wf_set_update.
  - unfold frame in *. by rewrite Em, Ep.
  - intros d' va. rewrite Em. apply K.
  - intros va. rewrite Em. apply X.
  - by rewrite Ep.
  - eapply batch_step_trans; [done|done|]. apply batch_frame; [apply W|rewrite Ep; apply W| |done].
    split; rewrite Ep; [|done]. intros q Ha Hr. by rewrite Em.
Qed.

Lemma round_down_eq a : in_u64 a -> round_page_down a = a / 4096 * 4096.
Proof.
  intros H. unfold round_page_down. change PAGE_MASK with (not64 (2 ^ 12 - 1)). change 4096 with (2 ^ 12).
  apply land_mask; [apply H|done|lia].
Qed.

Lemma round_up_eq a : 0 <= a <= VA_LIMIT -> round_page_up a = (a + 4095) / 4096 * 4096.
Proof.
  unfold VA_LIMIT. intros H. unfold round_page_up, PAGE_SIZE. rewrite (u64_small (a + 4096)) by (unfold in_u64; lia).
  rewrite u64_small by (unfold in_u64; lia). replace (a + 4096 - 1) with (a + 4095) by lia.
  apply (round_down_eq (a + 4095)). unfold in_u64. lia.
Qed.

(** A request for a range inside the 48-bit input and output spaces. *)
Definition request_ok (r : pgtable_map_request) : Prop :=
  in_u64 (prot r) /\ Z.land (prot r) PFN_MASK = 0 /\
  Z.land (allowed_leaf_levels r) (u32 (Z.lnot PGTABLE_LEAF_LEVEL_MASK)) = 0 /\
  Z.land (allowed_leaf_levels r) PGTABLE_LEAF_LVL0 <> 0 /\
  0 <= vaddr_base r /\ 0 <= paddr_base r /\ PAGE_SIZE <= map_size r /\
  round_page_up (vaddr_base r) + map_size r <= VA_LIMIT /\ round_page_up (paddr_base r) + map_size r <= VA_LIMIT /\
  vaddr_base r <= VA_LIMIT /\ paddr_base r <= VA_LIMIT.

(** The range of a request after rounding, and the distance to its output. *)
Definition req_lo (r : pgtable_map_request) : Z := round_page_up (vaddr_base r).
Definition req_hi (r : pgtable_map_request) : Z := round_page_up (vaddr_base r) + round_page_down (map_size r).
Definition req_delta (r : pgtable_map_request) : Z := round_page_up (paddr_base r) - round_page_up (vaddr_base r).

Lemma add_map_ok r s : request_ok r -> wf root s ->
  (replace_pgentry table <> None -> forall va, req_lo r <= va < req_hi r -> xlate (mem s) root va = None) ->
  tables_needed r (req_delta r) 0 (req_lo r) (req_hi r) <= Z.of_nat (free_count (pool s)) ->
  exists s', pgtable_add_map_deferred table r root s = Ret (0, s') /\
    eff 0 (add_T r (req_delta r)) (req_lo r) (req_hi r) (tables_needed r (req_delta r) 0 (req_lo r) (req_hi r)) s s'.
Proof.
  intros (Hu & Hpfn & Hl1 & Hl2 & Hv0 & Hp0 & Hsz & Hv & Hp & Hvl & Hpl) W Hunm Hfree.
  assert (0 < root) as Hroot.
  { apply (in_pool_page_ok (pool s)); [apply W|]. by apply (wf_alloc _ _ _ W 0 0 root); [lia|unfold va_ok, VA_LIMIT; lia|]. }
  unfold pgtable_add_map_deferred, req_lo, req_hi, req_delta in *. unfold PAGE_SIZE in *.
  rewrite (proj2 (Z.eqb_neq root 0)), (proj2 (Z.eqb_neq (map_size r) 0)), (proj2 (Z.eqb_eq _ 0) Hl1), (proj2 (Z.eqb_neq _ 0) Hl2) by lia.
  unfold VA_LIMIT in Hvl, Hpl. rewrite !(proj2 (Z.ltb_ge _ _)) by lia. cbn [negb orb].
  assert (in_u64 (map_size r)) as Hsu by (rewrite round_up_eq in Hv by (unfold VA_LIMIT; lia); unfold in_u64, VA_LIMIT in *; mlia).
  rewrite round_down_eq in * by done. rewrite !round_up_eq in * by (unfold VA_LIMIT; lia).
  set (V := (vaddr_base r + 4095) / 4096 * 4096) in *. set (P := (paddr_base r + 4095) / 4096 * 4096) in *.
  set (n := map_size r / 4096 * 4096) in *.
  assert (V mod 4096 = 0 /\ P mod 4096 = 0 /\ n mod 4096 = 0) as (A1 & A2 & A3) by (split_and!; apply Z.mod_mul; lia).
  assert (0 <= V /\ 0 <= P /\ 0 < n <= map_size r) as (B1 & B2 & B3) by (unfold V, P, n; mlia).
  unfold VA_LIMIT in *. rewrite (proj2 (Z.eqb_neq n 0)), !(proj2 (Z.ltb_ge _ _)) by lia. cbn [orb].
  rewrite (u64_small (V + n)) by (unfold in_u64; lia).
  assert (does (add_T r (P - V)) (tables_needed r (P - V) 0) 0 V (V + n) s
    (add_root table r (root_fuel V (V + n)) root P V (V + n) s)) as (s' & -> & Heff).
  { replace P with (V + (P - V)) at 3 by lia. apply add_root_ok; try done.
    - by rewrite Zminus_mod, A1, A2.
    - split_and!; [unfold VA_LIMIT; lia|by rewrite Zplus_mod, A1, A3|unfold VA_LIMIT; lia].
    - unfold va_ok, VA_LIMIT. lia.
    - lia.
    - split_and!; [done| |done|done]. intros va Hva Hr. split; [lia|].
      destruct (replace_pgentry table); [|done]. by apply Hunm. }
  eexists. split; [reflexivity|]. eapply eff_set_update; [..|exact Heff]; [done|done|].
  eapply same_batch_trans; [apply same_batch_record|apply same_batch_changed].
Qed.
End Ops.
