(* ===== verification/PgtableDel.v ===== *)
(** * Removing and modifying a range

    [pgtable_modify_or_del_map] and its deferred form: partially covered blocks
    are split, covered leaves are changed or removed, emptied tables go back to
    the pool or are retired in the update batch.  The effect on the translation
    is the change of the addresses of the range and of no other. *)
From S2P Require Import Prelude Bits PagePool Pgtable PgtableInv PgtableOps.

Section Del.
Context (table : pgtable) (leaf_attrs : Z -> Z) `{L : !PgtableLaws table leaf_attrs} `{RL : !ReplaceLaw table}.
Context (root : Z).
Notation wf := (wf leaf_attrs).
Notation eff := (eff leaf_attrs root).

Lemma replace_ok pte v va size s : replace_pgtable_entry table pte v va size s = Ret (store pte v s).
Proof.
  unfold replace_pgtable_entry. destruct (replace_pgentry table) as [f|] eqn:E; [|done].
  by rewrite (replace_law f v va size E).
Qed.

(** ** Splitting a block *)
Lemma split_loop_load pbase inc prot level : forall n i paddr s a,
  let s' := split_loop table n pbase i paddr inc prot level s in
  pool s' = pool s /\ update s' = update s /\
  ((forall k, 0 <= k < Z.of_nat n -> a <> entry_ptr pbase (i + k)) -> mload (mem s') a = mload (mem s) a).
Proof.
  induction n as [|n IH]; intros i paddr s a; cbn zeta; cbn [split_loop]; [done|].
  destruct (IH (i + 1) (u64 (paddr + inc)) (store (entry_ptr pbase i) (set_pgentry table paddr prot (level + 1) true) s) a) as (E1 & E2 & E3).
  split_and!; [done..|]. intros Ha. rewrite E3.
  - cbn. rewrite mload_mstore. destruct (Z.eqb_spec (entry_ptr pbase i) a) as [<-|]; [|done].
    exfalso. apply (Ha 0); [lia|]. f_equal. lia.
  - intros k Hk. replace (i + 1 + k) with (i + (k + 1)) by lia. apply Ha. lia.
Qed.

Lemma split_loop_entry pbase inc prot level : 0 <= inc -> forall n i paddr s k,
  0 <= paddr -> paddr + inc * Z.of_nat n < 2 ^ 64 -> 0 <= k < Z.of_nat n ->
  mload (mem (split_loop table n pbase i paddr inc prot level s)) (entry_ptr pbase (i + k)) =
    set_pgentry table (paddr + inc * k) prot (level + 1) true.
Proof.
  intros Hinc. induction n as [|n IH]; intros i paddr s k Hp Hb Hk; [lia|]. cbn [split_loop].
  rewrite u64_small by (unfold in_u64; nia). destruct (decide (k = 0)) as [->|Hk0].
  - destruct (split_loop_load pbase inc prot level n (i + 1) (paddr + inc)
      (store (entry_ptr pbase i) (set_pgentry table paddr prot (level + 1) true) s) (entry_ptr pbase (i + 0))) as (_ & _ & ->).
    + cbn. rewrite mload_mstore. rewrite Z.add_0_r, Z.eqb_refl. f_equal. lia.
    + intros k Hk'. unfold entry_ptr. lia.
  - replace (i + k) with (i + 1 + (k - 1)) by lia. rewrite IH by nia. f_equal. lia.
Qed.

Lemma pfn2paddr_page a : page_ok a -> pfn2paddr a = a.
Proof. apply page_paddr2pfn. Qed.

(** The leaves of a split block. *)
Lemma split_leaf d e i : (1 <= d <= 2)%nat -> in_u64 e -> ty e = 1 -> leaf_ok leaf_attrs d e -> 0 <= i < 512 ->
  let v := set_pgentry table (page_addr e + sz (S d) * i) (Z.lor (attrs e) (ty e)) (Z.of_nat d + 1) true in
  ty v = leaf_ty (S d) /\ page_addr v = page_addr e + sz (S d) * i /\ attrs v = attrs e /\ ent_ok leaf_attrs (S d) v.
Proof.
  intros Hd Hu Ht [Hal Hat] Hi. cbn zeta. replace (Z.of_nat d + 1) with (Z.of_nat (S d)) by lia.
  pose proof (sz_pos (S d) ltac:(lia)). pose proof (sz_S d ltac:(lia)) as Es. pose proof (page_addr_ok e) as [Hr Hp4].
  destruct (sz_page (S d) ltac:(lia)) as (k & _ & Ek). destruct (sz_limit d ltac:(lia)) as (j & _ & Ej).
  apply Z.mod_divide in Hal as [m Em]; [|lia]. unfold VA_LIMIT in Ej.
  assert (m < j) by nia. assert (page_addr e + sz d <= 2 ^ 48) by nia.
  assert (page_ok (page_addr e + sz (S d) * i)) as Hpage.
  { split; [nia|]. rewrite Ek. replace (k * 4096 * i) with (k * i * 4096) by lia. by rewrite Z.mod_add. }
  pose proof (attrs_ok e (proj1 Hu)) as Ha.
  destruct (leaf_desc table leaf_attrs (S d) (page_addr e + sz (S d) * i) (Z.lor (attrs e) (ty e))) as (E1 & E2 & E3 & E4).
  - lia.
  - done.
  - rewrite Em, Es. replace (m * (512 * sz (S d)) + sz (S d) * i) with ((m * 512 + i) * sz (S d)) by lia. by apply Z.mod_mul; lia.
  - apply lor_u64; [|rewrite Ht; unfold in_u64; lia]. apply land_u64; [done|by vm_compute].
  - apply Z.bits_inj'. intros b Hb. rewrite Z.land_spec, Z.lor_spec, pfn_bits, Z.bits_0 by done.
    pose proof (attr_ok_bits _ b Ha Hb). pose proof (small_ty_bits (ty e) b (ty_range e) Hb).
    destruct (Z.testbit (attrs e) b), (Z.testbit (ty e) b); cbn; try done; zb; cbn; try done; lia.
  - rewrite E1, E2, E3. by rewrite Hat.
Qed.

(** An offset in a block is an offset in one of its 512 parts. *)
Lemma offset_split d va : (d < 3)%nat -> va mod sz d = sz (S d) * (slot (S d) va mod 512) + va mod sz (S d).
Proof.
  intros Hd. pose proof (sz_pos (S d) ltac:(lia)). rewrite sz_S, Z.mul_comm by done.
  rewrite Z.rem_mul_r by lia. unfold slot. lia.
Qed.

(** Splitting gives the block's slot a table with the same translations. *)
Lemma split_ok s d v p : wf root s -> (1 <= d <= 2)%nat -> va_ok v -> tbl (mem s) root d v = Some p ->
  ty (mload (mem s) (at_slot p d v)) = 1 -> free_count (pool s) <> 0%nat ->
  exists s', split_large_page table (at_slot p d v) (Z.of_nat d) v s = Ret s' /\
    eff d (fun _ x => x) (slot_end d v - sz d) (slot_end d v) 1 s s' /\
    ty (mload (mem s') (at_slot p d v)) = 3.
Proof.
  intros W Hd Hva Hp Ht Hf. pose proof (wf_ent _ _ _ W d v p ltac:(lia) Hva Hp) as (Hu & _ & Hl).
  assert (leaf_ty d = 1) as El by (unfold leaf_ty; rewrite (proj2 (Nat.eqb_neq d 3)) by lia; done).
  rewrite El in Hl. specialize (Hl Ht).
  pose proof (alloc_page_spec (pool s) (mem s) (wf_pool _ _ _ W)) as Ha.
  rewrite decide_False in Ha by done. destruct Ha as (q & pool' & Ea & Htk).
  unfold split_large_page, walk_alloc. rewrite Ea. cbn [mbind outcome_bind]. rewrite replace_ok, table_law. cbn [mbind outcome_bind].
  change (load s (at_slot p d v)) with (mload (mem s) (at_slot p d v)). set (e := mload (mem s) (at_slot p d v)) in *.
  assert (Z.land e (not64 PFN_MASK) = Z.lor (attrs e) (ty e)) as ->.
  { rewrite (desc_eta e Hu) at 1. apply desc_prot; [apply page_addr_ok|apply attrs_ok, Hu|apply ty_range]. }
  change (Z.land e PFN_MASK) with (page_addr e). rewrite pfn2paddr_page by apply page_addr_ok.
  replace (Z.of_nat d + 1) with (Z.of_nat (S d)) by lia. rewrite level_size by lia.
  set (s0 := s <| pool := pool' |> <| mem := _ |>). set (s1 := split_loop _ _ _ _ _ _ _ _ _).
  pose proof (sz_pos (S d) ltac:(lia)) as Hsz. pose proof (page_addr_ok e) as [Hpr _].
  assert (sz (S d) <= 2 ^ 39) as Hs39 by (unfold sz; apply Z.pow_le_mono_r; lia).
  assert (forall i, 0 <= i < 512 -> mload (mem s1) (entry_ptr q i) =
    set_pgentry table (page_addr e + sz (S d) * i) (Z.lor (attrs e) (ty e)) (Z.of_nat d + 1) true) as He.
  { intros i Hi. rewrite <- (Z.add_0_l i) at 1. apply split_loop_entry; unfold PTRS_PER_PGTL; lia. }
  assert (forall a, pool s1 = pool' /\ update s1 = update s /\
    ((forall i, 0 <= i < 512 -> a <> entry_ptr q i) -> mload (mem s1) a = mload (mem s) a)) as Ho.
  { intros a. destruct (split_loop_load q (sz (S d)) (Z.lor (attrs e) (ty e)) (Z.of_nat d) (Z.to_nat PTRS_PER_PGTL) 0 (page_addr e) s0 a)
      as (E1 & E2 & E3). fold s1 in E1, E2, E3. split_and!; [done..|]. intros Ha. rewrite E3.
    - by apply (sanitize_pte_load q (mem s) a).
    - unfold PTRS_PER_PGTL. intros k Hk. apply Ha. lia. }
  clearbody s1. eexists. split; [reflexivity|]. destruct (Ho 0) as (P1 & U1 & _).
  destruct (publish_store leaf_attrs root s s1 d v p q (fun _ x => x)) as (E1 & _ & _ & E4); try done; try lia.
  - by rewrite P1.
  - rewrite U1. apply same_batch_refl.
  - intros a. apply Ho.
  - intros i Hi. cbn zeta. rewrite He by done. destruct (split_leaf d e i Hd Hu Ht Hl Hi) as (E1 & E2 & E3 & E4).
    split; [done|]. rewrite E1. unfold leaf_ty. destruct (Nat.eqb_spec (S d) 3); lia.
  - intros va Hv Hs. cbn zeta. unfold at_slot at 1 2 3. rewrite He by apply slot_mod.
    destruct (split_leaf d e (slot (S d) va mod 512) Hd Hu Ht Hl (slot_mod _ _)) as (E1 & E2 & E3 & E4).
    rewrite E1, E2, E3, Z.eqb_refl. destruct (xlate_slot root s d v va p ltac:(lia) Hp Hs) as [Hx _]. fold e in Hx.
    rewrite (Hx ltac:(congruence)). do 2 f_equal. rewrite offset_split by lia. lia.
  - split; [|exact E4]. eapply eff_set_update; [| | |exact E1]; [done..|apply same_batch_changed].
Qed.

(** ** Releasing an empty table *)
Lemma first_present_spec page s : forall n i, first_present table n page i s = i + Z.of_nat n ->
  forall k, 0 <= k < Z.of_nat n -> present table (load s (entry_ptr page (i + k))) = false.
Proof.
  induction n as [|n IH]; intros i E k Hk; [lia|]. cbn [first_present] in E.
  destruct (present table (load s (entry_ptr page i))) eqn:Ep; [lia|].
  destruct (decide (k = 0)) as [->|]; [by rewrite Z.add_0_r|].
  replace (i + k) with (i + 1 + (k - 1)) by lia. apply IH; lia.
Qed.

Section Release.
Context (s : walk) (d : nat) (v p : Z).
Hypothesis W : wf root s.
Hypothesis Hd : (d < 3)%nat.
Hypothesis Hva : va_ok v.
Hypothesis Hp : tbl (mem s) root d v = Some p.
Hypothesis Ht : ty (mload (mem s) (at_slot p d v)) = 3.
Notation q := (page_addr (mload (mem s) (at_slot p d v))).
Hypothesis Hempty : forall i, 0 <= i < 512 -> present table (mload (mem s) (entry_ptr q i)) = false.

Lemma release_tbl : tbl (mem s) root (S d) v = Some q.
Proof. cbn. by rewrite Hp, Ht. Qed.

(** Nothing is mapped through an empty table. *)
Lemma release_unmapped va : slot d va = slot d v -> xlate (mem s) root va = None.
Proof.
  intros Es. assert (tbl (mem s) root (S d) va = Some q) as E by (rewrite <- release_tbl; by apply tbl_region; [lia|]).
  rewrite (xlate_tbl _ _ (S d) va q) by (lia || done). specialize (Hempty _ (slot_mod (S d) va)).
  fold (at_slot q (S d) va) in Hempty. rewrite (present_ty table leaf_attrs) in Hempty.
  apply orb_false_iff in Hempty as [H1%Z.eqb_neq H2%Z.eqb_neq].
  assert (ty (mload (mem s) (at_slot q (S d) va)) <> leaf_ty (S d)) as H3 by (unfold leaf_ty; by destruct (S d =? 3)%nat).
  destruct (3 - S d)%nat; cbn [xl]; rewrite (proj2 (Z.eqb_neq _ _) H3); [done|]. by rewrite (proj2 (Z.eqb_neq _ 3) H2).
Qed.

(** Its entry is cleared; its page [q] may be freed. *)
Section Cleared.
Context (s' : walk).
Hypothesis Hmem : mem s' = mstore (at_slot p d v) 0 (mem s).
Hypothesis Hok : pool_ok (pool s').
Hypothesis Hin : forall q', in_pool (pool s') q' <-> in_pool (pool s) q'.
Hypothesis Hall : forall q', allocated (pool s) q' -> q' <> q -> allocated (pool s') q'.

Lemma cleared_at : mload (mem s') (at_slot p d v) = 0.
Proof. by rewrite Hmem, mload_mstore, Z.eqb_refl. Qed.

Lemma cleared_ne a : a <> at_slot p d v -> mload (mem s') a = mload (mem s) a.
Proof. intros Hna. rewrite Hmem, mload_mstore. destruct (Z.eqb_spec (at_slot p d v) a); congruence. Qed.

Lemma cleared_same q' i : reach (mem s) root q' -> 0 <= i < 512 -> entry_ptr q' i <> at_slot p d v ->
  mload (mem s') (entry_ptr q' i) = mload (mem s) (entry_ptr q' i).
Proof. intros. by apply cleared_ne. Qed.

Lemma cleared_child : ty 0 = 3 -> (d < 3)%nat -> allocated (pool s') (page_addr 0) /\ ~ reach (mem s) root (page_addr 0) /\
  (forall i, 0 <= i < 512 -> let e := mload (mem s') (entry_ptr (page_addr 0) i) in
    ent_ok leaf_attrs (S d) e /\ ((S d < 3)%nat -> ty e <> 3)).
Proof. done. Qed.

(** The tables are those before, without [q]. *)
Lemma cleared_reach q' : reach (mem s') root q' -> reach (mem s) root q' /\ q' <> q.
Proof.
  intros (d' & va & Hd' & Hva' & E).
  destruct (update_tbl_cases leaf_attrs root s s' d v p 0 W ltac:(lia) Hva Hp cleared_at cleared_same cleared_child d' va q' Hd' Hva' E)
    as [[Hor E']|(_ & _ & H3 & _)]; [|done].
  split; [by exists d', va|]. intros ->.
  destruct (wf_inj _ _ _ W d' (S d) va v q Hd' ltac:(lia) Hva' Hva E' release_tbl) as [-> Er]. cbn in Er. destruct Hor; [lia|done].
Qed.

Lemma cleared_frame : frame root s s'.
Proof.
  split; [|exact Hin]. intros q' Hal Hr. split_and!.
  - apply Hall; [done|]. intros ->. apply Hr. exists (S d), v. split_and!; [lia|done|apply release_tbl].
  - intros H. by apply Hr, cleared_reach.
  - intros i Hi. apply cleared_ne. apply (reach_entry_ne leaf_attrs root s p d v q' i); done || lia.
Qed.

Lemma cleared_eff lo hi : (free_count (pool s) <= free_count (pool s'))%nat -> batch_step root s s' ->
  eff d (fun _ x => x) lo hi 0 s s'.
Proof.
  intros Hfree Hb. assert (d <= 3)%nat as Hd3 by lia. pose proof cleared_same as Hs. pose proof cleared_at as He.
  constructor; [|apply cleared_frame| | |lia|done].
  - apply (slot_update_wf leaf_attrs root s s' d v p 0 W Hd3 Hva Hp He Hs (proj1 (zero_ent_ok leaf_attrs d)) cleared_child Hok).
    intros d' va q' Hd' Hva' E Hor. apply Hall; [by eapply (wf_alloc _ _ _ W)|]. intros ->.
    destruct (wf_inj _ _ _ W d' (S d) va v q Hd' ltac:(lia) Hva' Hva E release_tbl) as [-> Er]. cbn in Er. destruct Hor; [lia|done].
  - intros d' va Hd' Hva'. apply (update_tbl leaf_attrs root s s' d v p W Hd3 Hva Hp Hs); [lia|done|by left].
  - intros va Hva'. assert (xlate (mem s') root va = xlate (mem s) root va) as ->; [|by destruct (_ && _)].
    destruct (decide (slot d va = slot d v)) as [Es|Hne].
    + rewrite (update_xlate_in leaf_attrs root s s' d v p 0 W Hd3 Hva Hp He Hs) by done. rewrite release_unmapped by done.
      change (ty 0) with 0. unfold leaf_ty. destruct (d =? 3)%nat, (3 - d)%nat; done.
    + by apply (update_xlate_out leaf_attrs root s s' d v p W Hd3 Hva Hp Hs).
Qed.
End Cleared.

(** The page goes back to the pool. *)
Lemma release_eff pool' lo hi : returned (pool s) pool' q -> update s = None ->
  eff d (fun _ x => x) lo hi 0 s ((store (at_slot p d v) 0 s) <| pool := pool' |>).
Proof.
  intros (Hok & Hin & Hall & Hfree) HU. apply cleared_eff; [done..| | |].
  - intros q' Ha Hne. by apply Hall.
  - cbn. lia.
  - intros _. split; [intros u; cbn; by rewrite HU|split; [done|]]. intros q' _ _ (u & E & _). cbn in E. by rewrite HU in E.
Qed.

(** The page is retired in the batch. *)
Lemma retire_eff u u' lo hi : update s = Some u -> batch_ok root s ->
  (forall id, 0 <= id < 64 -> retired u' id = retired u id || (id =? page_id (pool s) q)) ->
  retired_bitmap_words u' = retired_bitmap_words u -> length (retired_bitmap u') = length (retired_bitmap u) ->
  retired_pages u' = Z.of_nat (length (retired_ids u')) -> changed u' = true ->
  eff d (fun _ x => x) lo hi 0 s ((store (at_slot p d v) 0 s) <| update := Some u' |>).
Proof.
  intros HU HB Hr Hw Hlen Hn Hch. set (s' := _ <| update := _ |>). pose proof (wf_pool _ _ _ W) as Hok.
  destruct (HB u HU) as (B1 & B2 & B3 & _ & _ & B6).
  pose proof (wf_alloc _ _ _ W (S d) v _ ltac:(lia) Hva release_tbl) as Hal. destruct (page_id_range _ _ Hok (proj1 Hal)) as [_ Eq].
  apply cleared_eff; [done..|]. intros _. split; [|split; [done|]]; cycle 1.
  { intros q' Ha Hnr (u1 & [= <-] & Hb). exists u. split; [done|]. change (pool s') with (pool s) in Hb.
    destruct (page_id_range _ _ Hok (proj1 Ha)) as [Hi Eq']. rewrite B1 in Hi.
    rewrite Hr in Hb by lia. apply orb_true_iff in Hb as [Hb|Hb%Z.eqb_eq]; [done|]. destruct Hnr. rewrite Eq', Hb, <- Eq.
    exists (S d), v. split_and!; [lia|done|apply release_tbl]. }
  intros u1 [= <-]. rewrite Hw, Hlen. split_and!; [done..|].
  intros id Hid Hb. change (pool s') with (pool s). rewrite Hr in Hb by done.
  apply orb_true_iff in Hb as [Hb|Hb%Z.eqb_eq].
  - destruct (B6 id Hid Hb) as [A1 R1]. split; [done|]. intros H. by apply R1, (cleared_reach s').
  - rewrite Hb, <- Eq. split; [done|]. intros H. by apply (cleared_reach s' eq_refl) in H as [_ ?].
Qed.
End Release.

Lemma retired_ids_add u u' k : 0 <= k < 64 -> retired u k = false ->
  (forall id, 0 <= id < 64 -> retired u' id = retired u id || (id =? k)) ->
  length (retired_ids u') = S (length (retired_ids u)).
Proof.
  intros Hk H0 Hr. apply (filter_length_remove _ _ _ k); [apply NoDup_seqZ|apply elem_of_seqZ; lia| |].
  - rewrite Hr, Z.eqb_refl by done. apply orb_true_r.
  - intros id Hid%elem_of_seqZ. rewrite Hr by lia. destruct (Z.eqb_spec id k) as [->|]; [rewrite H0; naive_solver|].
    rewrite orb_false_r. naive_solver.
Qed.

Lemma retired_ids_bound u : (length (retired_ids u) <= 64)%nat.
Proof. unfold retired_ids. etransitivity; [apply length_filter|]. rewrite length_seqZ. lia. Qed.

(** [defer_pgtable_page] with a batch marks the page in the bitmap. *)
Lemma defer_ok s u pt : pool_ok (pool s) -> in_pool (pool s) pt -> update s = Some u ->
  bitmap_size (pool s) = 1 -> 1 <= retired_bitmap_words u -> (0 < length (retired_bitmap u))%nat ->
  retired_pages u = Z.of_nat (length (retired_ids u)) -> retired u (page_id (pool s) pt) = false ->
  exists u', defer_pgtable_page pt s = Ret (s <| update := Some u' |>) /\
    (forall id, 0 <= id < 64 -> retired u' id = retired u id || (id =? page_id (pool s) pt)) /\
    retired_bitmap_words u' = retired_bitmap_words u /\ length (retired_bitmap u') = length (retired_bitmap u) /\
    retired_pages u' = Z.of_nat (length (retired_ids u')) /\ changed u' = changed u.
Proof.
  intros Hok Hin HU B1 B2 B3 B4 Hnr. destruct (page_id_range _ _ Hok Hin) as [Hid Eq]. rewrite B1 in Hid.
  pose proof Hok as (_ & _ & _ & K1 & _ & K2 & _). destruct Hin as [Hin _]. rewrite B1 in Hin.
  unfold defer_pgtable_page. rewrite HU, B1. unfold PAGE_SIZE in *.
  change (u64 (u64 (Z.shiftl 1 6) * 4096)) with 262144. change (64 * 1 * 4096) with 262144 in *.
  rewrite (u64_small (pt - start_page (pool s))) by (unfold in_u64; lia).
  replace ((pt - start_page (pool s)) / 4096) with (page_id (pool s) pt) by done. set (id := page_id (pool s) pt) in *.
  assert ((pt - start_page (pool s)) mod 4096 = 0) as -> by (rewrite Eq; mlia).
  rewrite (proj2 (Z.ltb_ge pt _)), (proj2 (Z.leb_gt 262144 _)) by lia. cbn [orb negb Z.eqb].
  rewrite Z.shiftr_div_pow2, Z.div_small by lia. rewrite (proj2 (Z.leb_gt _ 0)), bitmap_test_spec, bit_nr_small by lia.
  fold (retired u id). rewrite Hnr. eexists. split; [reflexivity|]. set (u' := u <| retired_bitmap := _ |> <| retired_pages := _ |>).
  assert (forall j, 0 <= j < 64 -> retired u' j = retired u j || (j =? id)) as Hr.
  { intros j Hj. unfold retired. cbn. rewrite set_bits by lia. by rewrite bit_nr_small, (Z.eqb_sym id) by lia. }
  split_and!; [done|done|cbn; apply set_word_length| |done].
  rewrite (retired_ids_add u u' id) by done. cbn. rewrite B4. pose proof (retired_ids_bound u).
  rewrite u64_small by (unfold in_u64; lia). lia.
Qed.

Lemma try_to_free_ok s d v p type lo hi : wf root s -> (d < 3)%nat -> va_ok v -> tbl (mem s) root d v = Some p ->
  ty (mload (mem s) (at_slot p d v)) = 3 -> batch_ok root s ->
  exists s', try_to_free_pgtable_page table (at_slot p d v) (page_addr (mload (mem s) (at_slot p d v))) type s = Ret s' /\
    eff d (fun _ x => x) lo hi 0 s s'.
Proof.
  intros W Hd Hva Hp Ht HB. unfold try_to_free_pgtable_page, sanitized_page_hpa. set (q := page_addr (mload (mem s) (at_slot p d v))).
  assert (eff d (fun _ x => x) lo hi 0 s s) as Hid by (apply eff_same; [done|lia|done]).
  destruct (type =? MR_DEL); [|by exists s].
  destruct (Z.eqb_spec (first_present table (Z.to_nat PTRS_PER_PGTL) q 0 s) PTRS_PER_PGTL) as [E|]; [|by exists s].
  assert (forall i, 0 <= i < 512 -> present table (mload (mem s) (entry_ptr q i)) = false) as Hempty.
  { intros i Hi. apply (first_present_spec _ s (Z.to_nat PTRS_PER_PGTL) 0); unfold PTRS_PER_PGTL in *; [exact E|lia]. }
  assert (tbl (mem s) root (S d) v = Some q) as Htbl by (cbn; by rewrite Hp, Ht).
  pose proof (wf_alloc _ _ _ W (S d) v _ ltac:(lia) Hva Htbl) as Hal.
  destruct (update s) as [u|] eqn:HU.
  - destruct (HB u HU) as (B1 & B2 & B3 & B4 & B5 & B6). destruct (page_id_range _ _ (wf_pool _ _ _ W) (proj1 Hal)) as [Hi Eq].
    rewrite B1 in Hi. destruct (defer_ok (set_changed (store (at_slot p d v) 0 s)) (u <| changed := true |>) q)
      as (u' & -> & R1 & R2 & R3 & R4 & R5); try done; [apply W|apply Hal|cbn; by rewrite HU| |].
    + change (retired u (page_id (pool s) q) = false). destruct (retired u (page_id (pool s) q)) eqn:Er; [|done].
      destruct (B6 (page_id (pool s) q) ltac:(lia) Er) as [_ []]. rewrite <- Eq. exists (S d), v. split_and!; [lia|done..].
    + eexists. split; [reflexivity|]. by apply (retire_eff s d v p W Hd Hva Hp Ht Hempty u u').
  - unfold defer_pgtable_page. change (update (set_changed _)) with ((fun u => u <| changed := true |>) <$> update s).
    rewrite HU. cbn [fmap option_fmap option_map]. change (pool (set_changed _)) with (pool s).
    destruct (free_page_spec (pool s) q) as [[_ (pool' & -> & Hret)]|[Hn _]];
      [apply W|destruct (page_addr_ok (mload (mem s) (at_slot p d v))) as [? _]; unfold in_u64; lia| |done].
    eexists. split; [reflexivity|]. eapply eff_set_update; [| | |apply (release_eff s d v p W Hd Hva Hp Ht Hempty pool'); done]; try done.
    cbn. rewrite HU. done.
Qed.

(** ** The range operation *)
(** A bound on the pages that splitting blocks at the ends of [lo, hi) takes. *)
Definition splits_needed (d : nat) (lo hi : Z) : Z :=
  match d with
  | 0%nat | 1%nat => split_ends 1 lo hi + split_ends 2 lo hi
  | 2%nat => split_ends 2 lo hi
  | _ => 0
  end.

Lemma splits_needed_range d lo hi : 0 <= splits_needed d lo hi <= 4.
Proof.
  pose proof (split_ends_range 1 lo hi). pose proof (split_ends_range 2 lo hi). destruct d as [|[|[|d]]]; cbn; lia.
Qed.

Lemma splits_needed_split d lo hi : (d <= 3)%nat ->
  splits_needed d lo (slot_end d lo) + splits_needed d (slot_end d lo) hi <= splits_needed d lo hi.
Proof.
  intros Hd. destruct d as [|[|[|d]]]; cbn [splits_needed];
    [pose proof (split_ends_split 0 1 lo hi); pose proof (split_ends_split 0 2 lo hi)|
     pose proof (split_ends_split 1 1 lo hi); pose proof (split_ends_split 1 2 lo hi)|
     pose proof (split_ends_split 2 2 lo hi)|]; lia.
Qed.

Section ModDel.
Context (prot_set prot_clr type ve : Z).
Hypothesis Htype : type = MR_DEL \/ type = MR_MODIFY.
Hypothesis Hve : ve <= VA_LIMIT /\ ve mod 4096 = 0.

(** The change of a leaf's attributes. *)
Definition new_attrs (t : Z) : Z := Z.lor (Z.land t (not64 prot_clr)) prot_set.

(** A modification touches attributes only, and leaves attributes the hook
    would give again. *)
Hypothesis Hattrs : type = MR_MODIFY -> attr_ok prot_set /\ attr_ok prot_clr /\
  forall a t, attr_ok a -> t = 1 \/ t = 3 -> leaf_attrs (Z.lor a t) = a -> leaf_attrs (Z.lor (new_attrs a) t) = new_attrs a.

Definition mod_T (va : Z) (x : option (Z * Z)) : option (Z * Z) :=
  if type =? MR_MODIFY then match x with Some (a, t) => Some (a, new_attrs t) | None => None end else None.

(** A modified range must be mapped. *)
Definition mod_R (va : Z) (x : option (Z * Z)) : Prop := type = MR_MODIFY -> is_Some x.

Notation mod_ready d := (ready leaf_attrs root mod_R (splits_needed d) True).
Notation mod_does d := (does leaf_attrs root mod_T (splits_needed d)).

Lemma mod_T_none va : mod_T va None = None.
Proof. unfold mod_T. by destruct (type =? MR_MODIFY). Qed.

(** The fields of a modified descriptor. *)
Lemma modified_desc e : in_u64 e -> type = MR_MODIFY ->
  Z.lor (Z.land e (not64 prot_clr)) prot_set = desc (page_addr e) (new_attrs (attrs e)) (ty e) /\ attr_ok (new_attrs (attrs e)).
Proof.
  intros Hu Hm. destruct (Hattrs Hm) as (Hs & Hc & _). pose proof (attrs_ok e (proj1 Hu)) as Ha.
  assert (attr_ok (new_attrs (attrs e))) as Hn.
  { split; [unfold new_attrs; apply Z.lor_nonneg; split; [apply Z.land_nonneg; left; apply Ha|apply Hs]|].
    unfold new_attrs. apply Z.bits_inj'. intros j Hj. rewrite Z.land_spec, Z.lor_spec, Z.land_spec, attr_bits by done.
    pose proof (attr_ok_bits _ j Ha Hj). pose proof (attr_ok_bits _ j Hs Hj).
    destruct (Z.testbit (attrs e) j), (Z.testbit prot_set j); cbn [andb orb]; rewrite ?orb_true_r, ?orb_false_r;
      try done; zb; cbn; rewrite ?andb_true_r; done || lia. }
  split; [|done]. apply Z.bits_inj'. intros j Hj. rewrite desc_bit by (done || apply page_addr_ok || apply ty_range).
  unfold new_attrs. rewrite !Z.lor_spec, !Z.land_spec, not64_bits by done. unfold page_addr, arch_pgtl_page_paddr, attrs, ty.
  rewrite !Z.land_spec, attr_bits, pfn_bits, type_bits by done.
  pose proof (attr_ok_bits _ j Hs Hj) as Bs. pose proof (attr_ok_bits _ j Hc Hj) as Bc. pose proof (testbit_high e j Hu) as Hh.
  destruct (Z.testbit prot_set j); [specialize (Bs eq_refl)|]; (destruct (Z.testbit prot_clr j); [specialize (Bc eq_refl)|]);
    zb; cbn [andb orb negb]; rewrite ?orb_true_r, ?orb_false_r, ?andb_true_r, ?andb_false_r; try done; lia || (rewrite Hh by lia; done).
Qed.

(** A leaf whose slot the range covers. *)
Lemma local_ok s d v p size : wf root s -> (1 <= d <= 3)%nat -> va_ok v -> v = slot_end d v - sz d ->
  tbl (mem s) root d v = Some p -> ty (mload (mem s) (at_slot p d v)) = leaf_ty d ->
  exists s', local_modify_or_del_pte table prot_set prot_clr type (at_slot p d v) v size s = Ret s' /\
    eff d mod_T v (slot_end d v) 0 s s'.
Proof.
  intros W Hd Hva Hv Hp Ht. pose proof (wf_ent _ _ _ W d v p ltac:(lia) Hva Hp) as (Hu & H1 & Hl). specialize (Hl Ht).
  assert (forall va, slot d va = slot d v -> xlate (mem s) root va =
    Some (page_addr (mload (mem s) (at_slot p d v)) + va mod sz d, attrs (mload (mem s) (at_slot p d v)))) as Hx.
  { intros va Es. by apply (xlate_slot root s d v va p ltac:(lia) Hp Es). }
  unfold local_modify_or_del_pte. change (load s (at_slot p d v)) with (mload (mem s) (at_slot p d v)).
  set (e := mload (mem s) (at_slot p d v)) in *. destruct (Z.eqb_spec type MR_MODIFY) as [Hm|Hm].
  - destruct (modified_desc e Hu Hm) as [-> Hn]. pose proof (page_addr_ok e) as Hpo. pose proof (ty_range e) as Htr.
    set (e' := desc _ _ _).
    assert (ty e' = ty e /\ page_addr e' = page_addr e /\ attrs e' = new_attrs (attrs e) /\ in_u64 e') as (F1 & F2 & F3 & F4)
      by (split_and!; [by apply desc_ty|by apply desc_page|by apply desc_attrs|by apply desc_u64..]).
    assert (ent_ok leaf_attrs d e') as He'.
    { split; [done|split; [by rewrite F1|]]. intros _. destruct Hl as [L1 L2]. unfold leaf_ok. rewrite F1, F2, F3. split; [done|].
      apply (Hattrs Hm); [apply attrs_ok, Hu| |done]. rewrite Ht. unfold leaf_ty. destruct (d =? 3)%nat; auto. }
    destruct (Z.eqb_spec e' e) as [E|Hne]; cbn [negb].
    + exists s. split; [done|]. apply eff_same; [done|lia|]. intros va Hva' Hr.
      rewrite Hx by (apply in_slot_iff; lia). unfold mod_T. rewrite Hm. cbn. by rewrite <- F3, E.
    + rewrite replace_ok. cbn [mbind outcome_bind]. eexists. split; [reflexivity|].
      eapply eff_set_update; [| | |rewrite Hv at 1; apply store_leaf]; try done; try lia.
      * apply same_batch_changed.
      * rewrite F1, Ht. unfold leaf_ty. destruct (Nat.eqb_spec d 3); lia.
      * intros va Hva' Es. rewrite Hx by done. unfold mod_T. rewrite Hm, F1, F2, F3, Ht, !Z.eqb_refl. done.
  - eexists. split; [reflexivity|]. eapply eff_set_update; [| | |rewrite Hv at 1; apply store_leaf with (v := 0)]; try done; try lia.
    + apply same_batch_changed.
    + apply zero_ent_ok.
    + intros va Hva' Es. unfold mod_T. rewrite (proj2 (Z.eqb_neq _ _) Hm). change (ty 0) with 0. unfold leaf_ty. by destruct (d =? 3)%nat.
Qed.

(** *** The last level *)
Definition mod_step0 (p v : Z) (s : walk) : outcome walk :=
  if negb (present table (load s (at_slot p 3 v))) then Ret s
  else local_modify_or_del_pte table prot_set prot_clr type (at_slot p 3 v) v (get_level_size PGT_LVL0) s.

(** An absent slot stays as it is. *)
Lemma mod_absent s d v hi p : wf root s -> (d <= 3)%nat -> va_ok v -> hi <= slot_end d v ->
  tbl (mem s) root d v = Some p -> ty (mload (mem s) (at_slot p d v)) <> leaf_ty d -> ty (mload (mem s) (at_slot p d v)) <> 3 ->
  eff d mod_T v hi 0 s s.
Proof.
  intros W Hd Hva Hhi Hp H1 H2. apply eff_same; [done|lia|]. intros va Hva' Hr. pose proof (slot_end_bounds d v Hd).
  destruct (xlate_slot root s d v va p Hd Hp) as [_ ->];
    [apply in_slot_iff; [done|unfold slot_end in *; lia]|apply mod_T_none|done|done].
Qed.

Lemma mod_step0_ok p v s : va_ok v -> v mod 4096 = 0 -> v < ve -> tbl (mem s) root 3 v = Some p ->
  mod_ready 3 v (Z.min ve (slot_end 3 v)) s -> mod_does 3 3 v (Z.min ve (slot_end 3 v)) s (mod_step0 p v s).
Proof.
  intros Hva Hal Hlt Hp (W & _). pose proof (page_slot v Hal) as Ee.
  assert (slot_end 3 v <= ve) as Hle by (rewrite Ee; mlia). rewrite Z.min_r by done. unfold mod_step0, does. cbn [splits_needed].
  change (load s (at_slot p 3 v)) with (mload (mem s) (at_slot p 3 v)).
  destruct (entry_cases table leaf_attrs root s 3 v p W ltac:(lia) Hva Hp) as [(E & _ & _)|[(_ & E)|(E & E1 & E2 & _)]]; [|lia|].
  - rewrite (present_ty table leaf_attrs), E. cbn [negb leaf_ty Nat.eqb Z.eqb orb].
    apply (local_ok s 3 v p); [done|lia|done|change (sz 3) with 4096; lia|done..].
  - rewrite E. exists s. split; [done|]. by apply (mod_absent s 3 v _ p).
Qed.

Lemma mod_loop0_eq p : forall n v s, Z.of_nat n = 512 - slot 3 v mod 512 -> va_ok v -> v mod 4096 = 0 -> v < ve ->
  modify_or_del_loop0 table prot_set prot_clr type n p (slot 3 v mod 512) v ve s = range_loop 3 ve (mod_step0 p) n v s.
Proof.
  induction n as [|n IH]; intros v s Hn Hva Hal Hlt; [done|]. cbn [modify_or_del_loop0 range_loop].
  change (get_level_size PGT_LVL0) with 4096. pose proof (page_slot v Hal) as Ee. unfold VA_LIMIT, va_ok in *.
  rewrite u64_small by (unfold in_u64; lia). rewrite <- Ee.
  change (entry_ptr p (slot 3 v mod 512)) with (at_slot p 3 v). fold (mod_step0 p v s).
  change 4096 with (get_level_size PGT_LVL0). fold (mod_step0 p v s).
  destruct (mod_step0 p v s) as [s1| |]; cbn; [|done..]. destruct (Z.leb_spec ve (slot_end 3 v)); [done|].
  pose proof (slot_end_table 3 v ltac:(lia) Hva) as Ht. cbn zeta in Ht.
  destruct (Z.eqb_spec (slot 3 v mod 512) 511) as [E5|Hne]; [by assert (n = 0%nat) as -> by lia|].
  destruct Ht as (H1 & H2 & _). rewrite <- H2. apply IH; [lia|unfold va_ok, VA_LIMIT; lia|rewrite Ee; mlia|lia].
Qed.

(** The specification of the function of level [S d], called with the entry of
    level [d] that points to its table. *)
Definition mod_level_ok (d : nat) (f : Z -> Z -> Z -> walk -> outcome walk) : Prop :=
  forall p v s, va_ok v -> v mod 4096 = 0 -> v < ve -> tbl (mem s) root d v = Some p ->
    ty (mload (mem s) (at_slot p d v)) = 3 -> mod_ready (S d) v (Z.min ve (slot_end d v)) s ->
    mod_does (S d) d v (Z.min ve (slot_end d v)) s (f (at_slot p d v) v ve s).

(** A level is its loop followed by the release of an emptied table. *)
Lemma level_ok d (loop : Z -> Z -> walk -> outcome walk) f : (d < 3)%nat ->
  (forall pte v s, f pte v ve s =
     (s' ← loop (page_addr (load s pte)) v s; try_to_free_pgtable_page table pte (page_addr (load s pte)) type s')) ->
  (forall q v s, va_ok v -> v mod 4096 = 0 -> v < ve -> tbl (mem s) root (S d) v = Some q ->
     mod_ready (S d) v (Z.min ve (slot_end d v)) s ->
     mod_does (S d) (S d) v (Z.min ve (slot_end d v)) s (loop q v s)) ->
  mod_level_ok d f.
Proof.
  intros Hd Hf Hloop p v s Hva Hal Hlt Hp Ht Hr. rewrite Hf.
  change (load s (at_slot p d v)) with (mload (mem s) (at_slot p d v)).
  assert (tbl (mem s) root (S d) v = Some (page_addr (mload (mem s) (at_slot p d v)))) as Hq by (cbn; by rewrite Hp, Ht).
  destruct (Hloop _ v s Hva Hal Hlt Hq Hr) as (s1 & -> & E1). cbn [mbind outcome_bind].
  pose proof (eff_keeps _ _ _ _ _ _ _ _ _ E1) as K1.
  assert (tbl (mem s1) root d v = Some p) as Hp1 by (rewrite K1; [done|lia|done]).
  assert (tbl (mem s1) root (S d) v = Some (page_addr (mload (mem s) (at_slot p d v)))) as Hq1 by (rewrite K1; [done|lia|done]).
  apply tbl_S in Hq1 as (p' & Ep' & Et' & <-). rewrite Hp1 in Ep'. injection Ep' as <-.
  destruct Hr as (_ & _ & _ & HU).
  destruct (try_to_free_ok s1 d v p type v (Z.min ve (slot_end d v))) as (s2 & -> & E2); try done; [apply E1|by apply (eff_batch _ _ _ _ _ _ _ _ _ E1), HU|].
  exists s2. split; [done|]. eapply eff_weaken; [reflexivity| |eapply (eff_after leaf_attrs root d (S d) d); [lia|lia|exact E1|exact E2]]. lia.
Qed.

Lemma modify_or_del_pgtl0_ok : mod_level_ok 2 (modify_or_del_pgtl0 table prot_set prot_clr type).
Proof.
  apply (level_ok 2 (fun q v s => modify_or_del_loop0 table prot_set prot_clr type
    (Z.to_nat (PTRS_PER_PGTL - pgtle_index PGT_LVL0 v)) q (pgtle_index PGT_LVL0 v) v ve s)); [lia|done|].
  intros q v s Hva Hal Hlt Hq Hr. change PGT_LVL0 with (Z.of_nat 3). pose proof (slot_mod 3 v).
  rewrite level_index, mod_loop0_eq by (done || (unfold PTRS_PER_PGTL; lia)).
  apply (range_loop_ok leaf_attrs root 3 q ve mod_T mod_R (splits_needed 3) True (mod_step0 q)); try done; try lia.
  - intros. by apply mod_step0_ok.
  - unfold PTRS_PER_PGTL. lia.
Qed.

(** *** The middle levels *)
Section ModLevel.
Context (d : nat) (lower : Z -> Z -> Z -> walk -> outcome walk).
Hypothesis Hd : (1 <= d <= 2)%nat.
Hypothesis Hlower : mod_level_ok d lower.

Definition mod_step (p v : Z) (s : walk) : outcome walk :=
  let pte := at_slot p d v in
  if negb (present table (load s pte)) then Ret s
  else if arch_pgtl_large (load s pte) then
    if (ve <? slot_end d v) || negb (mem_aligned_check v (get_level_size (Z.of_nat d))) then
      s ← split_large_page table pte (Z.of_nat d) v s; lower pte v ve s
    else local_modify_or_del_pte table prot_set prot_clr type pte v (get_level_size (Z.of_nat d)) s
  else lower pte v ve s.

Lemma splits_needed_S lo hi : splits_needed d lo hi = split_ends d lo hi + splits_needed (S d) lo hi.
Proof. destruct d as [|[|[|d']]]; cbn; lia. Qed.

(** Descend into a table. *)
Lemma mod_descend p v s : va_ok v -> v mod 4096 = 0 -> v < ve -> tbl (mem s) root d v = Some p ->
  ty (mload (mem s) (at_slot p d v)) = 3 -> mod_ready d v (Z.min ve (slot_end d v)) s ->
  mod_does d d v (Z.min ve (slot_end d v)) s (lower (at_slot p d v) v ve s).
Proof.
  intros Hva Hal Hlt Hp Ht (W & HR & Hf & HU). rewrite splits_needed_S in Hf.
  pose proof (split_ends_range d v (Z.min ve (slot_end d v))).
  destruct (Hlower p v s Hva Hal Hlt Hp Ht) as (s' & E & Heff); [split_and!; [done..|lia|done]|].
  exists s'. split; [done|]. rewrite splits_needed_S. eapply eff_weaken; [reflexivity| |exact Heff]. lia.
Qed.

(** Split a block that the range covers in part and descend. *)
Lemma mod_split_descend p v s : va_ok v -> v mod 4096 = 0 -> v < ve -> tbl (mem s) root d v = Some p ->
  ty (mload (mem s) (at_slot p d v)) = 1 -> ve < slot_end d v \/ v mod sz d <> 0 ->
  mod_ready d v (Z.min ve (slot_end d v)) s ->
  mod_does d d v (Z.min ve (slot_end d v)) s
    (s ← split_large_page table (at_slot p d v) (Z.of_nat d) v s; lower (at_slot p d v) v ve s).
Proof.
  intros Hva Hal Hlt Hp Ht Hpart (W & HR & Hf & HU). rewrite splits_needed_S in Hf.
  pose proof (splits_needed_range (S d) v (Z.min ve (slot_end d v))).
  pose proof (split_ends_partial d v ve ltac:(lia) Hlt Hpart) as H1.
  destruct (split_ok s d v p W Hd Hva Hp Ht ltac:(lia)) as (s1 & -> & E1 & Ht1). cbn [mbind outcome_bind].
  assert (tbl (mem s1) root d v = Some p) as Hp1 by (rewrite (eff_keeps _ _ _ _ _ _ _ _ _ E1); [done|lia|done]).
  assert (forall va, va_ok va -> xlate (mem s1) root va = xlate (mem s) root va) as Hx.
  { intros va Hv. rewrite (eff_xlate _ _ _ _ _ _ _ _ _ E1 va Hv). by destruct (_ && _). }
  destruct (Hlower p v s1 Hva Hal Hlt Hp1 Ht1) as (s' & E & Heff).
  - split_and!; [apply E1| | |].
    + intros va Hv Hr. rewrite Hx by done. by apply HR.
    + pose proof (eff_free _ _ _ _ _ _ _ _ _ E1). lia.
    + intros _. by apply E1, HU.
  - exists s'. split; [done|]. rewrite splits_needed_S.
    eapply eff_weaken; [reflexivity| |eapply (eff_before leaf_attrs root d d d); [lia|lia|eapply eff_id_range; exact E1|exact Heff]]. lia.
Qed.

Lemma mod_step_ok p v s : va_ok v -> v mod 4096 = 0 -> v < ve -> tbl (mem s) root d v = Some p ->
  mod_ready d v (Z.min ve (slot_end d v)) s -> mod_does d d v (Z.min ve (slot_end d v)) s (mod_step p v s).
Proof.
  intros Hva Hal Hlt Hp Hr. pose proof Hr as (W & _). unfold mod_step. cbn zeta.
  pose proof (splits_needed_range d v (Z.min ve (slot_end d v))).
  change (load s (at_slot p d v)) with (mload (mem s) (at_slot p d v)). rewrite (large_ty table leaf_attrs), aligned_check_eq by lia.
  assert (leaf_ty d = 1) as El by (unfold leaf_ty; rewrite (proj2 (Nat.eqb_neq d 3)) by lia; done).
  destruct (entry_cases table leaf_attrs root s d v p W ltac:(lia) Hva Hp) as [(E & _ & _)|[(E & _)|(E & E1 & E2 & _)]].
  - rewrite (present_ty table leaf_attrs), E, El. cbn [Z.eqb orb negb]. change (1 =? 1) with true. cbn [orb negb].
    destruct (Z.ltb_spec ve (slot_end d v)) as [Hl|Hl]; cbn [orb]; [apply mod_split_descend; by auto; congruence|].
    destruct (Z.eqb_spec (v mod sz d) 0) as [Hm|Hm]; cbn [negb]; [|apply mod_split_descend; auto; congruence].
    rewrite Z.min_r in * by done. destruct (local_ok s d v p (get_level_size (Z.of_nat d))) as (s' & E' & Heff); try done; try lia.
    + apply slot_start; [lia|done].
    + exists s'. split; [done|]. eapply eff_weaken; [reflexivity| |exact Heff]. lia.
  - rewrite (present_ty table leaf_attrs), E. by apply mod_descend.
  - rewrite E. exists s. split; [done|]. eapply eff_weaken; [reflexivity| |apply (mod_absent s d v _ p)]; try done; lia.
Qed.

Lemma mod_loop_eq p : forall n v s, Z.of_nat n = 512 - slot d v mod 512 -> va_ok v -> v < ve ->
  modify_or_del_loop table prot_set prot_clr type (Z.of_nat d) lower n p (slot d v mod 512) v ve s =
    range_loop d ve (mod_step p) n v s.
Proof.
  induction n as [|n IH]; intros v s Hn Hva Hlt; [done|]. cbn [modify_or_del_loop range_loop]. rewrite vaddr_next_eq by (lia || done).
  pose proof (slot_end_bounds d v ltac:(lia)) as Hb. pose proof (slot_end_limit d v ltac:(lia) Hva) as Hl.
  assert (ve <= slot_end d v \/ (slot_end d v < ve /\ forall s,
    modify_or_del_loop table prot_set prot_clr type (Z.of_nat d) lower n p (slot d v mod 512 + 1) (slot_end d v) ve s =
    range_loop d ve (mod_step p) n (slot_end d v) s)) as Hc.
  { destruct (Z.le_gt_cases ve (slot_end d v)) as [|Hg]; [by left|right]. split; [done|]. intros s'.
    pose proof (slot_end_table d v ltac:(lia) Hva) as Ht. cbn zeta in Ht.
    destruct (Z.eqb_spec (slot d v mod 512) 511) as [E5|Hne]; [by assert (n = 0%nat) as -> by lia|].
    destruct Ht as (H1 & H2 & _). rewrite <- H2. apply IH; [lia|unfold va_ok in *; lia|lia]. }
  change (entry_ptr p (slot d v mod 512)) with (at_slot p d v).
  set (rest := range_loop d ve (mod_step p) n) in *. unfold mod_step. cbn zeta.
  destruct Hc as [Hc|[Hc Hrest]].
  - rewrite !(proj2 (Z.leb_le _ _) Hc), (proj2 (Z.ltb_ge (slot_end d v) ve) Hc). cbn iota. repeat run_branch; done.
  - rewrite !(proj2 (Z.leb_gt _ _) Hc), (proj2 (Z.ltb_lt (slot_end d v) ve) Hc). cbn iota. repeat run_branch; done || apply Hrest.
Qed.
End ModLevel.

Lemma modify_or_del_pgtl_ok d lower : (S d <= 2)%nat -> mod_level_ok (S d) lower ->
  mod_level_ok d (modify_or_del_pgtl table prot_set prot_clr type (Z.of_nat (S d)) lower).
Proof.
  intros Hd Hlower.
  apply (level_ok d (fun q v s => modify_or_del_loop table prot_set prot_clr type (Z.of_nat (S d)) lower
    (Z.to_nat (PTRS_PER_PGTL - pgtle_index (Z.of_nat (S d)) v)) q (pgtle_index (Z.of_nat (S d)) v) v ve s)); [lia|done|].
  intros q v s Hva Hal Hlt Hq Hr. pose proof (slot_mod (S d) v).
  rewrite level_index, mod_loop_eq by (done || lia || (unfold PTRS_PER_PGTL; lia)).
  apply (range_loop_ok leaf_attrs root (S d) q ve mod_T mod_R (splits_needed (S d)) True (mod_step (S d) lower q)); try done; try lia.
  - intros. apply splits_needed_range.
  - intros. apply splits_needed_split. lia.
  - intros. apply mod_step_ok; try done. lia.
  - unfold PTRS_PER_PGTL. lia.
Qed.

Lemma modify_or_del_pgtl2_ok : mod_level_ok 0 (modify_or_del_pgtl2 table prot_set prot_clr type).
Proof.
  apply (modify_or_del_pgtl_ok 0); [lia|]. apply (modify_or_del_pgtl_ok 1); [lia|]. apply modify_or_del_pgtl0_ok.
Qed.

(** *** The root *)
Definition mod_root_step (v : Z) (s : walk) : outcome walk :=
  if negb (present table (load s (at_slot root 0 v))) then
    if type =? MR_MODIFY then Panic "invalid op, pgtl3e not present" else Ret s
  else modify_or_del_pgtl2 table prot_set prot_clr type (at_slot root 0 v) v ve s.

Lemma mod_root_step_ok v s : va_ok v -> v mod 4096 = 0 -> v < ve -> tbl (mem s) root 0 v = Some root ->
  mod_ready 0 v (Z.min ve (slot_end 0 v)) s -> mod_does 0 0 v (Z.min ve (slot_end 0 v)) s (mod_root_step v s).
Proof.
  intros Hva Hal Hlt Hp Hr. pose proof Hr as (W & HR & Hf & HU). pose proof (slot_end_bounds 0 v ltac:(lia)).
  unfold mod_root_step. change (load s (at_slot root 0 v)) with (mload (mem s) (at_slot root 0 v)).
  destruct (entry_cases table leaf_attrs root s 0 v root W ltac:(lia) Hva Hp) as [(_ & E & _)|[(E & _)|(E & E1 & E2 & _)]]; [lia| |].
  - rewrite (present_ty table leaf_attrs), E. by apply modify_or_del_pgtl2_ok.
  - rewrite E. cbn [negb]. destruct (Z.eqb_spec type MR_MODIFY) as [Hm|Hm].
    + destruct (HR v Hva ltac:(lia) Hm) as [x Hx]. exfalso.
      destruct (xlate_slot root s 0 v v root ltac:(lia) Hp eq_refl) as [_ Hn]. rewrite Hn in Hx by done. done.
    + exists s. split; [done|]. pose proof (splits_needed_range 0 v (Z.min ve (slot_end 0 v))).
      eapply eff_weaken; [reflexivity| |apply (mod_absent s 0 v _ root)]; try done; lia.
Qed.

Lemma mod_root_eq : forall n fuel v s, Z.of_nat n = 512 - slot 0 v mod 512 -> va_ok v -> v < ve ->
  slot 0 (ve - 1) - slot 0 v < Z.of_nat fuel ->
  modify_or_del_root table prot_set prot_clr type fuel root v ve s = range_loop 0 ve mod_root_step n v s.
Proof.
  induction n as [|n IH]; intros fuel v s Hn Hva Hlt Hf; pose proof (slot_mod 0 v); [lia|].
  pose proof (slot_mono 0 v (ve - 1) ltac:(lia) ltac:(lia)). destruct fuel as [|fuel]; [lia|]. cbn [modify_or_del_root range_loop].
  rewrite (proj2 (Z.ltb_lt v ve) Hlt), (root_next v Hva), root_index.
  change (entry_ptr root (slot 0 v mod 512)) with (at_slot root 0 v). fold (mod_root_step v s).
  pose proof (slot_end_bounds 0 v ltac:(lia)) as Hb. pose proof (slot_end_limit 0 v ltac:(lia) Hva) as Hl.
  destruct (mod_root_step v s) as [s1| |]; cbn [mbind outcome_bind]; [|done..].
  destruct (Z.leb_spec ve (slot_end 0 v)) as [Hge|Hgt].
  - destruct fuel; cbn [modify_or_del_root]; by rewrite (proj2 (Z.ltb_ge _ _) Hge).
  - pose proof (slot_end_table 0 v ltac:(lia) Hva) as Ht. cbn zeta in Ht. cbn [table_end] in Ht.
    destruct (Z.eqb_spec (slot 0 v mod 512) 511) as [E5|Hne]; [lia|]. destruct Ht as (Ht1 & Ht2 & _).
    pose proof (slot_of_end 0 v ltac:(lia)). apply IH; unfold va_ok in *; lia.
Qed.

Lemma mod_root_ok v s : va_ok v -> v mod 4096 = 0 -> v < ve -> mod_ready 0 v ve s ->
  mod_does 0 0 v ve s (modify_or_del_root table prot_set prot_clr type (root_fuel v ve) root v ve s).
Proof.
  intros Hva Hal Hlt Hr. pose proof (slot_mod 0 v).
  rewrite (mod_root_eq (Z.to_nat (512 - slot 0 v mod 512))); [|lia|done|done|apply root_fuel_enough; unfold va_ok in *; lia].
  replace ve with (Z.min ve (table_end 0 v)) at 1 by (cbn; lia).
  apply (range_loop_ok leaf_attrs root 0 root ve mod_T mod_R (splits_needed 0) True mod_root_step); try done; try lia.
  - intros. apply splits_needed_range.
  - intros. apply splits_needed_split. lia.
  - intros. by apply mod_root_step_ok.
  - cbn [table_end]. by rewrite Z.min_l by lia.
Qed.
End ModDel.

(** A range that lies in the 48-bit space. *)
Definition range_ok (base size : Z) : Prop :=
  0 <= base <= VA_LIMIT /\ PAGE_SIZE <= size /\ round_page_up base + size <= VA_LIMIT.

(** The premises of a modification: the attributes are attributes the hook would
    give again, and the range is mapped. *)
Definition modify_ok (prot_set prot_clr lo hi : Z) (s : walk) : Prop :=
  attr_ok prot_set /\ attr_ok prot_clr /\
  (forall a t, attr_ok a -> t = 1 \/ t = 3 -> leaf_attrs (Z.lor a t) = a ->
    leaf_attrs (Z.lor (new_attrs prot_set prot_clr a) t) = new_attrs prot_set prot_clr a) /\
  forall va, lo <= va < hi -> is_Some (xlate (mem s) root va).

Lemma batch_set_update s s' : mem s' = mem s -> pool s' = pool s -> pool_ok (pool s) -> same_batch (update s) (update s') ->
  batch_step root s s'.
Proof.
  intros Em Ep P. apply batch_frame; [done|by rewrite Ep|]. split; [|by rewrite Ep]. intros q Ha Hr. by rewrite Em, Ep.
Qed.

Lemma mod_map_deferred_ok prot_set prot_clr type base size s : type = MR_DEL \/ type = MR_MODIFY -> range_ok base size ->
  let lo := round_page_up base in let hi := round_page_up base + round_page_down size in
  (type = MR_MODIFY -> modify_ok prot_set prot_clr lo hi s) -> wf root s -> batch_ok root s ->
  splits_needed 0 lo hi <= Z.of_nat (free_count (pool s)) ->
  exists s', pgtable_modify_or_del_map_deferred table prot_set prot_clr type root base size s = Ret s' /\
    eff 0 (mod_T prot_set prot_clr type) lo hi (splits_needed 0 lo hi) s s'.
Proof.
  intros Hty (Hb & Hs & He). cbn zeta. intros Hat W HB Hf.
  unfold pgtable_modify_or_del_map_deferred, PAGE_SIZE, VA_LIMIT in *.
  assert (in_u64 size) as Hsu by (rewrite round_up_eq in He by (unfold VA_LIMIT; lia); unfold in_u64; mlia).
  rewrite round_down_eq in * by done. rewrite !round_up_eq in * by (unfold VA_LIMIT; lia).
  set (V := (base + 4095) / 4096 * 4096) in *. set (n := size / 4096 * 4096) in *.
  assert (V mod 4096 = 0 /\ n mod 4096 = 0) as (A1 & A2) by (split; apply Z.mod_mul; lia).
  assert (0 <= V /\ 0 < n <= size) as (B1 & B2) by (unfold V, n; mlia).
  rewrite (u64_small (V + n)) by (unfold in_u64; lia). set (s0 := pgtable_update_record_range _ _ _ _).
  assert (wf root s0) as W0 by (by eapply (wf_set_update leaf_attrs root s)).
  assert (batch_step root s s0) as HB0 by (apply batch_set_update; [done..|apply W|apply same_batch_record]).
  assert (does leaf_attrs root (mod_T prot_set prot_clr type) (splits_needed 0) 0 V (V + n) s0
    (modify_or_del_root table prot_set prot_clr type (root_fuel V (V + n)) root V (V + n) s0)) as (s' & -> & Heff).
  { apply mod_root_ok; try done.
    - split; [unfold VA_LIMIT; lia|by rewrite Zplus_mod, A1, A2].
    - intros Hm. by destruct (Hat Hm) as (? & ? & ? & _).
    - unfold va_ok, VA_LIMIT. lia.
    - lia.
    - split_and!; [done| |done|by intros _; apply HB0]. intros va Hva Hr Hm. destruct (Hat Hm) as (_ & _ & _ & HR). by apply HR. }
  exists s'. split; [done|]. destruct Heff as [E1 E2 E3 E4 E5 E6]. constructor; try done.
  by apply (batch_step_trans root s s0 s' (frame_refl root s)).
Qed.

Lemma mod_map_ok prot_set prot_clr type base size s : type = MR_DEL \/ type = MR_MODIFY -> range_ok base size ->
  let lo := round_page_up base in let hi := round_page_up base + round_page_down size in
  (type = MR_MODIFY -> modify_ok prot_set prot_clr lo hi s) -> wf root s ->
  splits_needed 0 lo hi <= Z.of_nat (free_count (pool s)) ->
  exists s', pgtable_modify_or_del_map table root base size prot_set prot_clr type s = Ret s' /\
    eff 0 (mod_T prot_set prot_clr type) lo hi (splits_needed 0 lo hi) s s'.
Proof.
  intros Hty Hr. cbn zeta. intros Hat W Hf. unfold pgtable_modify_or_del_map.
  destruct (mod_map_deferred_ok prot_set prot_clr type base size (s <| update := None |>)) as (s' & -> & [E1 E2 E3 E4 E5 E6]);
    [done..| |by intros u|done|]; [by eapply (wf_set_update leaf_attrs root s)|].
  cbn [mbind outcome_bind]. eexists. split; [reflexivity|].
  assert (wf root (s' <| update := update s |>)) as W' by (by eapply (wf_set_update leaf_attrs root s')).
  constructor; try done. apply batch_frame; [apply W|apply W'|exact E2|apply same_batch_refl].
Qed.
End Del.

(** ** Returning the retired pages *)
Lemma free_retired_loop_ok : forall n id freed u p, pool_ok p -> bitmap_size p = 1 -> 0 <= id -> id + Z.of_nat n = 64 ->
  (0 < length (retired_bitmap u))%nat ->
  (forall j, id <= j < 64 -> retired u j = true -> allocated p (start_page p + j * PAGE_SIZE)) ->
  exists u' p', free_retired_loop n id freed u p =
      Ret (freed + Z.of_nat (length (filter (fun j => retired u j = true) (seqZ id (Z.of_nat n)))), u', p') /\
    pool_ok p' /\ (forall q, in_pool p' q <-> in_pool p q) /\ (free_count p <= free_count p')%nat /\
    (forall q, allocated p' q <-> allocated p q /\ ~ (id <= page_id p q < 64 /\ retired u (page_id p q) = true)) /\
    retired_pages u' = retired_pages u.
Proof.
  induction n as [|n IH]; intros id freed u p Hok B1 H0 Hn Hlen Hal; cbn [free_retired_loop].
  { exists u, p. split; [by rewrite Z.add_0_r|]. split_and!; try done. intros q. split; [|tauto]. intros Ha. split; [done|lia]. }
  rewrite bitmap_test_spec, bit_nr_small by lia. fold (retired u id).
  rewrite seqZ_cons by lia. rewrite filter_cons. replace (Z.succ id) with (id + 1) by lia. replace (Z.pred (Z.of_nat (S n))) with (Z.of_nat n) by lia.
  destruct (retired u id) eqn:Er.
  - rewrite decide_True by done. specialize (Hal id ltac:(lia) Er) as Hid.
    destruct (in_pool_page_ok p _ Hok (proj1 Hid)) as [[Hpg _] _].
    destruct (free_page_spec p (start_page p + id * PAGE_SIZE) Hok ltac:(unfold in_u64; lia)) as [[_ (p1 & -> & Hok1 & Hin1 & Hall1 & Hf1)]|[[] _]]; [|done].
    cbn [mbind outcome_bind]. set (u1 := u <| retired_bitmap := _ |>). destruct (in_pool_same p p1 Hok Hok1 Hin1) as [Es Ez].
    assert (forall j, id < j < 64 -> retired u1 j = retired u j) as Hr1.
    { intros j Hj. unfold retired. cbn. rewrite clear_bits by lia. rewrite bit_nr_small by lia. zb; cbn; try lia. by rewrite andb_true_r. }
    destruct (IH (id + 1) (freed + 1) u1 p1) as (u' & p' & -> & P1 & P2 & P3 & P4 & P5); [done|by rewrite Ez|lia|lia|cbn; unfold bitmap_clear_non_atomic; by rewrite set_word_length| |].
    { intros j Hj Hr. rewrite Es. apply Hall1. split; [apply Hal; [lia|by rewrite <- Hr1 by lia]|]. unfold PAGE_SIZE. lia. }
    exists u', p'. split; [|split_and!; try done; [intros q; by rewrite P2|lia|]].
    + do 3 f_equal. cbn [length].
      rewrite (filter_length_ext (fun j => retired u1 j = true) (fun j => retired u j = true)); [lia|].
      intros j Hj%elem_of_seqZ. by rewrite Hr1 by lia.
    + intros q. rewrite P4, Hall1. replace (page_id p1 q) with (page_id p q) by (unfold page_id; by rewrite Es). split.
      * intros [[Ha Hne] Hnr]. split; [done|]. intros [Hr1' Hr2']. destruct (page_id_range _ _ Hok (proj1 Ha)) as [_ Eq].
        destruct (decide (page_id p q = id)) as [E|Hd]; [by rewrite E in Eq|]. apply Hnr. rewrite Hr1 by lia. split; [lia|done].
      * intros [Ha Hnr]. split; [split; [done|]|].
        -- intros ->. apply Hnr. destruct (in_pool_page p id Hok ltac:(lia)) as [_ ->]. split; [lia|done].
        -- intros [Hr1' Hr2']. apply Hnr. rewrite Hr1 in Hr2' by lia. split; [lia|done].
  - rewrite decide_False by done.
    destruct (IH (id + 1) freed u p) as (u' & p' & -> & P1 & P2 & P3 & P4 & P5); [done|done|lia|lia|done| |].
    { intros j Hj Hr. apply Hal; [lia|done]. }
    exists u', p'. split; [done|split_and!; try done]. intros q. rewrite P4. split; intros [Ha Hnr]; (split; [done|]); intros [Hr1 Hr2]; apply Hnr.
    + destruct (decide (page_id p q = id)) as [E|]; [by rewrite E, Er in Hr2|split; [lia|done]].
    + split; [lia|done].
Qed.

(** [pgtable_free_retired_pages] frees the pages of the batch and no other. *)
Lemma free_retired_ok root s u : pool_ok (pool s) -> batch_ok root s -> update s = Some u ->
  exists u' p', pgtable_free_retired_pages u (pool s) = Ret (u', p') /\
    pool_ok p' /\ (forall q, in_pool p' q <-> in_pool (pool s) q) /\ (free_count (pool s) <= free_count p')%nat /\
    (forall q, allocated p' q <-> allocated (pool s) q /\ ~ in_batch s q).
Proof.
  intros Hok HB HU. destruct (HB u HU) as (B1 & B2 & B3 & B4 & _ & B6). unfold pgtable_free_retired_pages.
  rewrite B1, (proj2 (Z.ltb_ge _ 1)) by lia. change (Z.to_nat (u64 (Z.shiftl 1 6))) with 64%nat.
  destruct (free_retired_loop_ok 64 0 0 u (pool s)) as (u' & p' & -> & P1 & P2 & P3 & P4 & P5); try done.
  { intros j Hj Hr. by apply B6. }
  cbn [mbind outcome_bind]. change (filter _ (seqZ 0 (Z.of_nat 64))) with (retired_ids u).
  rewrite P5, B4, Z.eqb_refl. eexists _, _. split; [reflexivity|]. split_and!; try done.
  intros q. rewrite P4. split; intros [Ha Hn]; (split; [done|]); intros Hr; apply Hn.
  - destruct Hr as (u1 & E & Hr). rewrite HU in E. injection E as <-.
    destruct (page_id_range _ _ Hok (proj1 Ha)) as [Hp _]. rewrite B1 in Hp. split; [lia|done].
  - exists u. by split; [|apply Hr].
Qed.
