(* ===== verification/Hooks.v ===== *)
(** * The page-table hooks of arm64

    The host stage-1 table ([ppt_pgtable], arch/arm64/mmu.c) and the guest
    stage-2 tables ([stage2_pgtable_template], arch/arm64/guest/vm.c) as
    instances of what the walker needs of its hooks. *)
From S2P Require Import Prelude Bits PagePool Pgtable PgtableInv PgtableOps.

(** ** Host stage 1 *)
Definition PAGE_ATTR_IDX_DEVICE : Z := Z.shiftl 1 2.
Definition PAGE_AP_RO_EL2 : Z := Z.shiftl 1 7.
Definition PAGE_SH_INNER : Z := Z.shiftl 3 8.
Definition PAGE_AF : Z := Z.shiftl 1 10.
Definition PAGE_PXN : Z := Z.shiftl 1 53.
Definition PAGE_UXN : Z := Z.shiftl 1 54.
Definition PAGE_ATTR_NORMAL : Z := Z.lor PAGE_SH_INNER PAGE_AF.
Definition PAGE_ATTR_DEVICE : Z :=
  Z.lor (Z.lor (Z.lor (Z.lor PAGE_ATTR_IDX_DEVICE PAGE_SH_INNER) PAGE_AF) PAGE_PXN) PAGE_UXN.

Definition ppt_large_page_support (level _prot : Z) : bool := (level =? PGT_LVL1) || (level =? PGT_LVL2).
Definition ppt_pgentry_present (pte : Z) : Z := Z.land pte PAGE_DESC_VALID.
Definition arm64_leaf_desc_type (level : Z) : Z := if level =? PGT_LVL0 then PAGE_PAGE_DESC else PAGE_BLOCK_DESC.

Definition ppt_set_pgentry (page prot level : Z) (is_leaf : bool) : Z :=
  let prot_tmp :=
    if negb is_leaf then PAGE_TABLE_DESC
    else
      let p := Z.lor (Z.lor (Z.land prot (not64 PAGE_DESC_TYPE_MASK)) (arm64_leaf_desc_type level)) PAGE_AF in
      if Z.land p (Z.lor PAGE_ATTR_IDX_DEVICE PAGE_ATTR_NORMAL) =? 0 then Z.lor p PAGE_ATTR_NORMAL else p in
  make_pgentry page prot_tmp.

Definition ppt_pgtable : pgtable :=
  {| pgentry_present := ppt_pgentry_present; large_page_support := ppt_large_page_support;
     set_pgentry := ppt_set_pgentry; replace_pgentry := None |}.

(** ** Guest stage 2 *)
Definition PAGE_S2_MEMATTR_MASK : Z := Z.shiftl 15 2.
Definition PAGE_S2_MEMATTR_NORMAL : Z := Z.shiftl 15 2.
Definition PAGE_S2_MEMATTR_DEVICE : Z := Z.shiftl 1 2.
Definition PAGE_S2_S2AP_READ : Z := Z.shiftl 1 6.
Definition PAGE_S2_S2AP_WRITE : Z := Z.shiftl 1 7.
Definition PAGE_S2_S2AP_RW : Z := Z.lor PAGE_S2_S2AP_READ PAGE_S2_S2AP_WRITE.
Definition PAGE_S2_SH_INNER : Z := Z.shiftl 3 8.
Definition PAGE_S2_AF : Z := Z.shiftl 1 10.
Definition PAGE_S2_XN : Z := Z.shiftl 3 53.
Definition PAGE_S2_ATTR_NORMAL : Z := Z.lor (Z.lor (Z.lor PAGE_S2_MEMATTR_NORMAL PAGE_S2_S2AP_RW) PAGE_S2_SH_INNER) PAGE_S2_AF.

(** The part of a VM the stage-2 code reads and writes. *)
Record stage2_vm := {
  s2_vm_id : Z;
  root_stg2ptp : Z;
  cpu_affinity : Z;
  stage2_update_owner : Z;
  vm_creating : bool;
  created_vcpus : Z;
}.
#[export] Instance stage2_vm_eta : Eta stage2_vm := fun r =>
  {| s2_vm_id := s2_vm_id r; root_stg2ptp := root_stg2ptp r; cpu_affinity := cpu_affinity r;
     stage2_update_owner := stage2_update_owner r; vm_creating := vm_creating r; created_vcpus := created_vcpus r |}.

Definition stage2_large_page_support (level _prot : Z) : bool := (level =? PGT_LVL2) || (level =? PGT_LVL1).
Definition stage2_pgentry_present (pte : Z) : Z := Z.land pte PAGE_DESC_VALID.
Definition stage2_leaf_desc_type (level : Z) : Z := if level =? PGT_LVL0 then PAGE_PAGE_DESC else PAGE_BLOCK_DESC.

Definition stage2_set_pgentry (page prot level : Z) (is_leaf : bool) : Z :=
  let prot_tmp :=
    if negb is_leaf then PAGE_TABLE_DESC
    else
      let p := Z.lor (Z.lor (Z.land prot (not64 PAGE_DESC_TYPE_MASK)) (stage2_leaf_desc_type level)) PAGE_S2_AF in
      if Z.land p PAGE_S2_MEMATTR_MASK =? 0 then Z.lor p PAGE_S2_ATTR_NORMAL else p in
  make_pgentry page prot_tmp.

Definition ARM64_STAGE2_VMID_SHIFT : Z := 48.
Definition ARM64_STAGE2_VMID_MASK : Z := 0xff.

Definition arm64_stage2_vmid (vm : stage2_vm) : outcome Z :=
  let vmid := u64 (s2_vm_id vm + 1) in
  if ARM64_STAGE2_VMID_MASK <? vmid then Panic "vm exceeds arm64 stage-2 vmid range" else Ret vmid.

Definition arm64_stage2_vttbr (vm : stage2_vm) : outcome Z :=
  vmid ← arm64_stage2_vmid vm; Ret (Z.lor (root_stg2ptp vm) (u64 (Z.shiftl vmid ARM64_STAGE2_VMID_SHIFT))).

(** The TLB invalidation of a VM; the register accesses have no model. *)
Definition arm64_stage2_invalidate_vm_tlb (vm : stage2_vm) : outcome Z :=
  if (root_stg2ptp vm =? 0) || (cpu_affinity vm =? 0) then Ret (- EINVAL)
  else _target_vttbr ← arm64_stage2_vttbr vm; Ret 0.

(** [smmu] is the status of [arm_smmu_sync_vm_stage2]. *)
Definition arm64_stage2_sync_translation (vm : stage2_vm) (smmu : Z) : outcome Z :=
  status ← arm64_stage2_invalidate_vm_tlb vm; Ret (if status =? 0 then smmu else status).

Definition arm64_stage2_sync_or_panic (vm : stage2_vm) (smmu : Z) : outcome unit :=
  status ← arm64_stage2_sync_translation vm smmu;
  if negb (status =? 0) then Panic "stage-2 sync failed" else Ret tt.

(** The descriptor is cleared, the translation caches are synchronized and the
    new descriptor is published; the owner of the update runs on [pcpu]. *)
Definition stage2_replace_pgentry (vm : stage2_vm) (pcpu smmu : Z) (new_pte _ipa _size : Z) : outcome Z :=
  if negb (stage2_update_owner vm =? u64 (pcpu + 1)) then Panic "invalid stage-2 BBM owner"
  else
    let pte := sanitized_page_hpa in
    _ ← arm64_stage2_sync_or_panic vm smmu;
    if negb (stage2_pgentry_present pte =? 0) then Panic "stage-2 BBM descriptor republished early"
    else Ret new_pte.

Definition stage2_pgtable (vm : stage2_vm) (pcpu smmu : Z) : pgtable :=
  {| pgentry_present := stage2_pgentry_present; large_page_support := stage2_large_page_support;
     set_pgentry := stage2_set_pgentry; replace_pgentry := Some (stage2_replace_pgentry vm pcpu smmu) |}.

(** ** The laws *)
Definition ppt_leaf_attrs (prot : Z) : Z := Z.lor (Z.land prot (not64 PAGE_DESC_TYPE_MASK)) PAGE_AF.

Definition stage2_leaf_attrs (prot : Z) : Z :=
  let p := Z.lor (Z.land prot (not64 PAGE_DESC_TYPE_MASK)) PAGE_S2_AF in
  if Z.land p PAGE_S2_MEMATTR_MASK =? 0 then Z.lor p PAGE_S2_ATTR_NORMAL else p.

Lemma af_bits j : 0 <= j -> Z.testbit PAGE_AF j = (j =? 10).
Proof.
  intros Hj. change PAGE_AF with (2 ^ 10). rewrite Z.pow2_bits_eqb by lia. apply Z.eqb_sym.
Qed.

Lemma type_mask_bits j : 0 <= j -> Z.testbit (not64 PAGE_DESC_TYPE_MASK) j = (2 <=? j) && (j <? 64).
Proof. intros Hj. rewrite not64_bits, type_bits by done. zb; cbn; done || lia. Qed.

(** The attribute part of a protection with the access flag set. *)
Lemma ppt_leaf_attrs_ok prot : in_u64 prot -> Z.land prot PFN_MASK = 0 -> attr_ok (ppt_leaf_attrs prot).
Proof.
  intros Hu Hp. unfold ppt_leaf_attrs. split.
  - apply Z.lor_nonneg. split; [apply Z.land_nonneg; left; apply Hu|by vm_compute].
  - apply Z.bits_inj'. intros j Hj. rewrite Z.land_spec, Z.lor_spec, Z.land_spec, attr_bits, type_mask_bits, af_bits by done.
    apply (f_equal (fun z => Z.testbit z j)) in Hp. rewrite Z.land_spec, pfn_bits, Z.bits_0 in Hp by done.
    pose proof (testbit_high prot j Hu). destruct (Z.testbit prot j); cbn [andb orb] in *; zb; cbn in *; done || lia || (rewrite H in *; done || lia).
Qed.

Lemma ppt_leaf_attrs_idem prot t : t = 1 \/ t = 3 -> ppt_leaf_attrs (Z.lor (ppt_leaf_attrs prot) t) = ppt_leaf_attrs prot.
Proof.
  intros Ht. unfold ppt_leaf_attrs. apply Z.bits_inj'. intros j Hj.
  rewrite !Z.lor_spec, !Z.land_spec, !Z.lor_spec, !Z.land_spec, !type_mask_bits, !af_bits by done.
  assert (Z.testbit t j = true -> j < 2) by (intros; eapply small_ty_bits; [|done|done]; lia).
  destruct (Z.testbit prot j), (Z.testbit t j); zb; cbn; done || lia.
Qed.

Lemma lor_swap a b c : Z.lor (Z.lor a b) c = Z.lor (Z.lor a c) b.
Proof. rewrite <- !Z.lor_assoc. f_equal. apply Z.lor_comm. Qed.

#[export] Instance ppt_laws : PgtableLaws ppt_pgtable ppt_leaf_attrs.
Proof.
  constructor; cbn.
  - done.
  - done.
  - intros page prot level Hu. unfold ppt_set_pgentry, ppt_leaf_attrs. cbn [negb]. rewrite lor_swap.
    set (p := Z.lor _ (arm64_leaf_desc_type level)).
    destruct (Z.eqb_spec (Z.land p (Z.lor PAGE_ATTR_IDX_DEVICE PAGE_ATTR_NORMAL)) 0) as [E|]; [|done].
    exfalso. apply (f_equal (fun z => Z.testbit z 10)) in E. unfold p in E.
    rewrite Z.bits_0, Z.land_spec, !Z.lor_spec, af_bits, orb_true_r in E by lia. done.
  - intros prot Hu Hp. by apply ppt_leaf_attrs_ok.
  - intros prot t _ Ht. by apply ppt_leaf_attrs_idem.
Qed.

#[export] Instance ppt_replace : ReplaceLaw ppt_pgtable.
Proof. intros f new_pte vaddr size. cbn. done. Qed.

(** The memory type field is apart from the type bits. *)
Lemma memattr_type p t : t = 1 \/ t = 3 -> Z.land (Z.lor p t) PAGE_S2_MEMATTR_MASK = Z.land p PAGE_S2_MEMATTR_MASK.
Proof. intros [->| ->]; rewrite Z.land_lor_distr_l; apply Z.lor_0_r. Qed.

Lemma attr_ok_lor a b : attr_ok a -> attr_ok b -> attr_ok (Z.lor a b).
Proof.
  intros [A1 A2] [B1 B2]. split; [by apply Z.lor_nonneg|]. by rewrite Z.land_lor_distr_l, A2, B2.
Qed.

Lemma stage2_leaf_attrs_idem prot t : t = 1 \/ t = 3 ->
  stage2_leaf_attrs (Z.lor (stage2_leaf_attrs prot) t) = stage2_leaf_attrs prot.
Proof.
  intros Ht. unfold stage2_leaf_attrs at 2 3. fold (ppt_leaf_attrs prot). change PAGE_S2_AF with PAGE_AF. fold (ppt_leaf_attrs prot).
  destruct (Z.eqb_spec (Z.land (ppt_leaf_attrs prot) PAGE_S2_MEMATTR_MASK) 0) as [E|E]; unfold stage2_leaf_attrs; change PAGE_S2_AF with PAGE_AF.
  - fold (ppt_leaf_attrs (Z.lor (Z.lor (ppt_leaf_attrs prot) PAGE_S2_ATTR_NORMAL) t)).
    assert (ppt_leaf_attrs (Z.lor (Z.lor (ppt_leaf_attrs prot) PAGE_S2_ATTR_NORMAL) t) =
      Z.lor (ppt_leaf_attrs prot) PAGE_S2_ATTR_NORMAL) as ->.
    { rewrite lor_swap. unfold ppt_leaf_attrs at 1. rewrite Z.land_lor_distr_l, lor_swap.
      fold (ppt_leaf_attrs (Z.lor (ppt_leaf_attrs prot) t)). by rewrite ppt_leaf_attrs_idem. }
    rewrite Z.land_lor_distr_l, E. done.
  - fold (ppt_leaf_attrs (Z.lor (ppt_leaf_attrs prot) t)). rewrite ppt_leaf_attrs_idem by done.
    by rewrite (proj2 (Z.eqb_neq _ 0) E).
Qed.

Section Stage2Laws.
Context (vm : stage2_vm) (pcpu smmu : Z).

#[export] Instance stage2_laws : PgtableLaws (stage2_pgtable vm pcpu smmu) stage2_leaf_attrs.
Proof.
  constructor; cbn.
  - done.
  - done.
  - intros page prot level Hu. unfold stage2_set_pgentry, stage2_leaf_attrs. cbn [negb]. rewrite lor_swap.
    fold (stage2_leaf_desc_type level). rewrite memattr_type by (unfold stage2_leaf_desc_type; destruct (level =? PGT_LVL0); auto).
    destruct (_ =? 0); [|done]. by rewrite lor_swap.
  - intros prot Hu Hp. pose proof (ppt_leaf_attrs_ok prot Hu Hp) as Ha. unfold stage2_leaf_attrs. change PAGE_S2_AF with PAGE_AF.
    fold (ppt_leaf_attrs prot). destruct (_ =? 0); [|done]. apply attr_ok_lor; [done|]. split; [by vm_compute|reflexivity].
  - intros prot t _ Ht. by apply stage2_leaf_attrs_idem.
Qed.

(** The replacement hook succeeds for the owner of an update whose
    synchronization succeeds. *)
Lemma stage2_replace : stage2_update_owner vm = u64 (pcpu + 1) -> arm64_stage2_sync_translation vm smmu = Ret 0 ->
  ReplaceLaw (stage2_pgtable vm pcpu smmu).
Proof.
  intros Ho Hs f new_pte vaddr size. cbn. intros [= <-]. unfold stage2_replace_pgentry, arm64_stage2_sync_or_panic.
  by rewrite Ho, Z.eqb_refl, Hs.
Qed.
End Stage2Laws.
