(* ===== verification/AddressSpace.v ===== *)
(** * Address spaces

    The contract of the page-table component.  An address space is a partial
    function from addresses to output addresses and attributes; mapping,
    unmapping and changing attributes are its operations.  Any sequence of calls
    of the walker implements the same sequence of operations on the function,
    and leaves the address spaces of other roots in the same pool alone. *)
From S2P Require Import Prelude Bits PagePool Pgtable PgtableInv PgtableOps PgtableDel Hooks.

(** ** The specification *)
Definition aspace := Z -> option (Z * Z).

Inductive as_op :=
| AsMap (r : pgtable_map_request)
| AsUnmap (base size : Z)
| AsProtect (base size prot_set prot_clr : Z).

Definition in_range (lo hi va : Z) : bool := (lo <=? va) && (va <? hi).
Definition range_lo (base : Z) : Z := round_page_up base.
Definition range_hi (base size : Z) : Z := round_page_up base + round_page_down size.

Section Spec.
Context (leaf_attrs : Z -> Z) (exclusive : bool).

Definition as_apply (op : as_op) (a : aspace) : aspace := fun va =>
  match op with
  | AsMap r =>
      if in_range (req_lo r) (req_hi r) va then
        match a va with Some x => Some x | None => Some (va + req_delta r, leaf_attrs (prot r)) end
      else a va
  | AsUnmap base size => if in_range (range_lo base) (range_hi base size) va then None else a va
  | AsProtect base size prot_set prot_clr =>
      if in_range (range_lo base) (range_hi base size) va
      then (fun x => (fst x, new_attrs prot_set prot_clr (snd x))) <$> a va else a va
  end.

(** When an operation may be called: an [exclusive] table refuses to map over a
    mapping; only mapped ranges are protected, with attributes the hook keeps. *)
Definition as_allowed (op : as_op) (a : aspace) : Prop :=
  match op with
  | AsMap r => request_ok r /\ (exclusive = true -> forall va, req_lo r <= va < req_hi r -> a va = None)
  | AsUnmap base size => range_ok base size
  | AsProtect base size prot_set prot_clr =>
      range_ok base size /\ (forall va, range_lo base <= va < range_hi base size -> is_Some (a va)) /\
      attr_ok prot_set /\ attr_ok prot_clr /\
      forall x t, attr_ok x -> t = 1 \/ t = 3 -> leaf_attrs (Z.lor x t) = x ->
        leaf_attrs (Z.lor (new_attrs prot_set prot_clr x) t) = new_attrs prot_set prot_clr x
  end.

Fixpoint ops_allowed (ops : list as_op) (a : aspace) : Prop :=
  match ops with
  | [] => True
  | op :: ops => as_allowed op a /\ ops_allowed ops (as_apply op a)
  end.
End Spec.

(** Pool pages an operation can take: the tables of a mapped range, the splits
    at the ends of a removed or changed one. *)
Definition as_cost (table : pgtable) (op : as_op) : Z :=
  match op with
  | AsMap r => tables_needed table r (req_delta r) 0 (req_lo r) (req_hi r)
  | AsUnmap base size | AsProtect base size _ _ => splits_needed 0 (range_lo base) (range_hi base size)
  end.
Definition ops_cost (table : pgtable) (ops : list as_op) : Z := foldr (fun op n => as_cost table op + n) 0 ops.

(** ** The implementation

    A mapping request that is refused stops the system, as in [pgtable_add_map]
    and [arm64_stage2_add_map]. *)
Definition as_run1 (table : pgtable) (root : Z) (op : as_op) (s : walk) : outcome walk :=
  match op with
  | AsMap r =>
      '(status, s) ← pgtable_add_map_deferred table r root s;
      if negb (status =? 0) then Panic "invalid page-table map status" else Ret s
  | AsUnmap base size => pgtable_modify_or_del_map table root base size 0 0 MR_DEL s
  | AsProtect base size prot_set prot_clr => pgtable_modify_or_del_map table root base size prot_set prot_clr MR_MODIFY s
  end.

Fixpoint as_run (table : pgtable) (root : Z) (ops : list as_op) (s : walk) : outcome walk :=
  match ops with
  | [] => Ret s
  | op :: ops => s ← as_run1 table root op s; as_run table root ops s
  end.

(** ** Refinement *)
Section Refinement.
Context (table : pgtable) (leaf_attrs : Z -> Z) `{L : !PgtableLaws table leaf_attrs} `{RL : !ReplaceLaw table}.
Context (root : Z).

Definition exclusive_table : bool := match replace_pgentry table with Some _ => true | None => false end.

(** The tables below [root] translate like [a]. *)
Definition represents (s : walk) (a : aspace) : Prop :=
  wf leaf_attrs root s /\ forall va, va_ok va -> xlate (mem s) root va = a va.

(** The addresses of a range are 48-bit addresses. *)
Lemma range_va base size va : range_ok base size -> range_lo base <= va < range_hi base size -> va_ok va.
Proof.
  intros (Hb & Hs & He) Hr. unfold range_lo, range_hi, va_ok, PAGE_SIZE in *. rewrite round_up_eq in * by done.
  rewrite round_down_eq in Hr by (unfold in_u64, VA_LIMIT in *; mlia). unfold VA_LIMIT in *. mlia.
Qed.

Lemma req_va r va : request_ok r -> req_lo r <= va < req_hi r -> va_ok va.
Proof.
  intros (_ & _ & _ & _ & H1 & _ & H2 & H3 & _ & H4 & _) Hr. apply (range_va (vaddr_base r) (map_size r)); [|exact Hr].
  split_and!; done || lia.
Qed.

Lemma run1_refines op s a : represents s a -> as_allowed leaf_attrs exclusive_table op a ->
  as_cost table op <= Z.of_nat (free_count (pool s)) ->
  exists s', as_run1 table root op s = Ret s' /\ represents s' (as_apply leaf_attrs op a) /\ frame root s s' /\
    Z.of_nat (free_count (pool s)) <= Z.of_nat (free_count (pool s')) + as_cost table op.
Proof.
  intros [W Hx] Hal Hc. destruct op as [r|base size|base size pset pclr]; cbn [as_allowed as_cost as_run1] in *.
  - destruct Hal as [Hr Hex].
    destruct (add_map_ok table leaf_attrs root r s Hr W) as (s' & -> & [E1 E2 E3 E4 E5 E6]); [|done|].
    + intros Hrep va Hva. rewrite Hx by (by eapply req_va). apply Hex; [|done].
      unfold exclusive_table. by destruct (replace_pgentry table).
    + cbn [mbind outcome_bind]. exists s'. split; [done|split; [split; [done|]|done]].
      intros va Hva. rewrite E4, Hx by done. cbn. unfold in_range, add_T. destruct (_ && _); [|done]. by destruct (a va).
  - destruct (mod_map_ok table leaf_attrs root 0 0 MR_DEL base size s) as (s' & -> & [E1 E2 E3 E4 E5 E6]); try done; [by left|].
    exists s'. split; [done|split; [split; [done|]|done]]. intros va Hva. rewrite E4, Hx by done. reflexivity.
  - destruct Hal as (Hr & Hm & Hs & Hcl & Hcan).
    destruct (mod_map_ok table leaf_attrs root pset pclr MR_MODIFY base size s) as (s' & -> & [E1 E2 E3 E4 E5 E6]); try done; [by right| |].
    + intros _. split_and!; [done..|]. intros va Hva. rewrite Hx by (by eapply range_va). by apply Hm.
    + exists s'. split; [done|split; [split; [done|]|done]]. intros va Hva. rewrite E4, Hx by done. cbn. unfold in_range, range_lo, range_hi.
      destruct (_ && _); [|done]. by destruct (a va) as [[x t]|].
Qed.

Lemma as_cost_nonneg op : 0 <= as_cost table op.
Proof. destruct op; cbn [as_cost]; [apply tables_needed_pos|apply splits_needed_range..]. Qed.

Lemma ops_cost_nonneg ops : 0 <= ops_cost table ops.
Proof. unfold ops_cost. induction ops as [|op ops IH]; cbn [foldr]; [lia|]. pose proof (as_cost_nonneg op). lia. Qed.

Lemma run_refines : forall ops s a, represents s a -> ops_allowed leaf_attrs exclusive_table ops a ->
  ops_cost table ops <= Z.of_nat (free_count (pool s)) ->
  exists s', as_run table root ops s = Ret s' /\ represents s' (foldl (fun a op => as_apply leaf_attrs op a) a ops) /\ frame root s s'.
Proof.
  induction ops as [|op ops IH]; intros s a Hr Hal Hc; cbn [as_run].
  - exists s. split; [done|split; [exact Hr|apply frame_refl]].
  - destruct Hal as [H1 H2]. change (ops_cost table (op :: ops)) with (as_cost table op + ops_cost table ops) in Hc.
    pose proof (as_cost_nonneg op). pose proof (ops_cost_nonneg ops).
    destruct (run1_refines op s a Hr H1) as (s1 & -> & R1 & F1 & C1); [lia|]. cbn [mbind outcome_bind].
    destruct (IH s1 (as_apply leaf_attrs op a) R1 H2) as (s' & E & R' & F'); [lia|].
    exists s'. split; [done|split; [exact R'|by eapply frame_trans]].
Qed.
End Refinement.

(** ** A new root *)

(** An allocated page of absent entries is the root of the empty address space. *)
Lemma empty_root leaf_attrs root s : pool_ok (pool s) -> allocated (pool s) root ->
  (forall i, 0 <= i < 512 -> mload (mem s) (entry_ptr root i) = 0) ->
  represents leaf_attrs root s (fun _ => None) /\ (forall q, reach (mem s) root q -> q = root).
Proof.
  intros Hok Hal Hz.
  assert (forall d va p, tbl (mem s) root d va = Some p -> d = 0%nat /\ p = root) as Htbl.
  { intros d va p E. destruct d as [|d]; [injection E as <-; done|]. exfalso.
    assert (is_Some (tbl (mem s) root 1 va)) as [q1 E1] by (eapply tbl_le; [|exact E]; lia).
    apply tbl_S in E1 as (q0 & [= <-] & E2 & _). unfold at_slot in E2. rewrite Hz in E2 by apply slot_mod. done. }
  split; [split; [constructor|]|].
  - exact Hok.
  - intros d va p _ _ E. by destruct (Htbl _ _ _ E) as [-> ->].
  - intros d1 d2 va1 va2 p _ _ _ _ E1 E2. destruct (Htbl _ _ _ E1) as [-> ->], (Htbl _ _ _ E2) as [-> _]. done.
  - intros d va p _ _ E. destruct (Htbl _ _ _ E) as [-> ->]. unfold at_slot. rewrite Hz by apply slot_mod. apply zero_ent_ok.
  - intros va _. unfold xlate. cbn [xl]. unfold at_slot. by rewrite Hz by apply slot_mod.
  - intros q (d & va & _ & _ & E). by destruct (Htbl _ _ _ E) as [_ ->].
Qed.

(** The root is a page that was free; the other pages stay as they are. *)
Lemma create_root_fresh leaf_attrs s : pool_ok (pool s) -> free_count (pool s) <> 0%nat ->
  exists root s', pgtable_create_root s = Ret (root, s') /\ represents leaf_attrs root s' (fun _ => None) /\
    free_count (pool s) = S (free_count (pool s')) /\ (forall q, reach (mem s') root q -> q = root) /\
    ~ allocated (pool s) root /\ (forall q, in_pool (pool s') q <-> in_pool (pool s) q) /\
    forall q, allocated (pool s) q -> allocated (pool s') q /\
      forall i, 0 <= i < 512 -> mload (mem s') (entry_ptr q i) = mload (mem s) (entry_ptr q i).
Proof.
  intros Hok Hf. pose proof (alloc_page_spec (pool s) (mem s) Hok) as Ha. rewrite decide_False in Ha by done.
  destruct Ha as (q & pool' & Ea & Hok' & Hin & Hna & Hpool & Hall & Hfree).
  unfold pgtable_create_root, walk_alloc. rewrite Ea. cbn [mbind outcome_bind]. exists q. eexists. split; [reflexivity|].
  set (s' := _ <| mem := _ |>). destruct (empty_root leaf_attrs q s') as [E1 E2]; [exact Hok'|by apply Hall; right| |].
  { intros i Hi. by apply (sanitize_pte_load q (mem s) 0). }
  split; [done|split; [done|split; [done|split; [done|split; [done|]]]]]. intros q' Ha. split; [by apply Hall; left|].
  intros i Hi. apply sanitize_pte_load. intros j Hj E. destruct (in_pool_page_ok _ _ Hok Hin) as [[_ Hq] _].
  apply entry_ptr_inj in E as [-> _]; [done|by apply Ha|done..].
Qed.

(** ** Several roots in one pool *)

(** A root whose tables are kept translates as before. *)
Section Kept.
Context (leaf_attrs : Z -> Z) (root : Z) (s s' : walk).
Hypothesis W : wf leaf_attrs root s.
Hypothesis Hok : pool_ok (pool s').
Hypothesis Hkeep : forall q, reach (mem s) root q -> allocated (pool s') q /\
  forall i, 0 <= i < 512 -> mload (mem s') (entry_ptr q i) = mload (mem s) (entry_ptr q i).

Lemma kept_tbl d va : (d <= 3)%nat -> va_ok va -> tbl (mem s') root d va = tbl (mem s) root d va.
Proof.
  induction d as [|d IH]; intros Hd Hva; [done|]. cbn. rewrite IH by (lia || done).
  destruct (tbl (mem s) root d va) as [q|] eqn:E; [|done].
  destruct (Hkeep q) as [_ He]; [exists d, va; split_and!; [lia|done..]|].
  unfold at_slot. by rewrite He by apply slot_mod.
Qed.

Lemma kept_reach q : reach (mem s') root q <-> reach (mem s) root q.
Proof.
  unfold reach. split; intros (d & va & Hd & Hva & E); exists d, va; split_and!; try done.
  - by rewrite <- kept_tbl.
  - by rewrite kept_tbl.
Qed.

Lemma kept_represents a : represents leaf_attrs root s a -> represents leaf_attrs root s' a.
Proof.
  intros [_ X]. assert (forall d va q, (d <= 3)%nat -> va_ok va -> tbl (mem s) root d va = Some q ->
    mload (mem s') (at_slot q d va) = mload (mem s) (at_slot q d va)) as Hload.
  { intros d va q Hd Hva E. destruct (Hkeep q) as [_ He]; [by exists d, va|]. apply He, slot_mod. }
  split; [constructor|].
  - exact Hok.
  - intros d va p Hd Hva E. rewrite kept_tbl in E by done. apply (Hkeep p). by exists d, va.
  - intros d1 d2 va1 va2 p H1 H2 V1 V2 E1 E2. rewrite kept_tbl in E1, E2 by done. by eapply (wf_inj _ _ _ W).
  - intros d va p Hd Hva E. rewrite kept_tbl in E by done. rewrite Hload by done. by eapply (wf_ent _ _ _ W).
  - intros va Hva. rewrite <- X by done. apply xlate_ext. intros d p Hd E. by apply Hload.
Qed.
End Kept.

(** An operation on [r1] keeps the tables of a root [r2] that shares none. *)
Lemma other_root leaf_attrs r1 r2 a2 s s' : pool_ok (pool s') -> represents leaf_attrs r2 s a2 ->
  (forall q, reach (mem s) r1 q -> ~ reach (mem s) r2 q) -> frame r1 s s' ->
  represents leaf_attrs r2 s' a2 /\ (forall q, reach (mem s') r2 q <-> reach (mem s) r2 q) /\
  (forall q, reach (mem s') r1 q -> ~ reach (mem s') r2 q).
Proof.
  intros Hok [W2 X2] Hdisj [F _].
  assert (forall q, reach (mem s) r2 q -> allocated (pool s') q /\ ~ reach (mem s') r1 q /\
    forall i, 0 <= i < 512 -> mload (mem s') (entry_ptr q i) = mload (mem s) (entry_ptr q i)) as Hq.
  { intros q Hr. apply F; [destruct Hr as (d & va & ? & ? & ?); by eapply (wf_alloc _ _ _ W2)|]. intros H1. by apply (Hdisj q). }
  assert (forall q, reach (mem s') r2 q <-> reach (mem s) r2 q) as Hr
    by (apply kept_reach; intros q H; destruct (Hq q H) as (? & _ & ?); done).
  split; [|split; [done|]].
  - apply (kept_represents leaf_attrs r2 s); [done..| |done]. intros q H. by destruct (Hq q H) as (? & _ & ?).
  - intros q H1 H2. apply Hr in H2. by apply (Hq q).
Qed.

(** ** Lookup *)

Lemma lookup_entry_xlate table leaf_attrs `{!PgtableLaws table leaf_attrs} root s va :
  wf leaf_attrs root s -> va_ok va ->
  match pgtable_lookup_entry table root va s with
  | Some (entry, size) =>
      xlate (mem s) root va = Some (page_addr (load s entry) + va mod size, attrs (load s entry))
  | None => xlate (mem s) root va = None
  end.
Proof.
  intros W Hva. unfold pgtable_lookup_entry.
  assert (forall d, (d <= 3)%nat -> forall p, entry_ptr p (pgtle_index (Z.of_nat d) va) = at_slot p d va) as Hi
    by (intros d Hd p; unfold at_slot; by rewrite level_index).
  change PGT_LVL3 with (Z.of_nat 0). change PGT_LVL2 with (Z.of_nat 1). change PGT_LVL1 with (Z.of_nat 2). change PGT_LVL0 with (Z.of_nat 3).
  rewrite !Hi, !level_size by lia. change (fun a => load s a) with (load s).
  assert (forall d p, (d <= 3)%nat -> tbl (mem s) root d va = Some p ->
    let e := load s (at_slot p d va) in
    (ty e = leaf_ty d /\ (1 <= d)%nat /\ present table e = true /\ arch_pgtl_large e = negb (d =? 3)%nat /\
      xlate (mem s) root va = Some (page_addr e + va mod sz d, attrs e)) \/
    (present table e = true /\ arch_pgtl_large e = false /\ (d < 3)%nat /\ tbl (mem s) root (S d) va = Some (page_addr e)) \/
    (present table e = false /\ xlate (mem s) root va = None)) as Hstep.
  { intros d p Hd Hp. destruct (xlate_slot root s d va va p Hd Hp eq_refl) as [X1 X2]. cbn zeta. unfold load in *.
    rewrite (large_ty table leaf_attrs). destruct (entry_cases table leaf_attrs root s d va p W Hd Hva Hp) as [(E & E1 & _)|[(E & E1)|(E & E1 & E2 & _)]].
    - left. rewrite (present_ty table leaf_attrs), E. split_and!; try done; [..|by apply X1]; unfold leaf_ty; by destruct (d =? 3)%nat.
    - right; left. rewrite (present_ty table leaf_attrs), E. split_and!; try done. cbn. by rewrite Hp, E.
    - right; right. split; [done|]. apply X2; [done|]. done. }
  destruct (Hstep 0%nat root ltac:(lia) eq_refl) as [(_ & E & _)|[(-> & _ & _ & T1)|(-> & X)]]; [lia| |done].
  destruct (Hstep 1%nat _ ltac:(lia) T1) as [(_ & _ & -> & -> & X)|[(-> & -> & _ & T2)|(-> & X)]]; [done| |done].
  destruct (Hstep 2%nat _ ltac:(lia) T2) as [(_ & _ & -> & -> & X)|[(-> & -> & _ & T3)|(-> & X)]]; [done| |done].
  destruct (Hstep 3%nat _ ltac:(lia) T3) as [(_ & _ & -> & _ & X)|[(_ & _ & E & _)|(-> & X)]]; [done|lia|done].
Qed.

(** [pgtable_lookup_entry] agrees with the translation: it returns the leaf
    descriptor and its size exactly for the mapped addresses, and the address
    translates to that descriptor's output page plus the offset in the leaf,
    with the descriptor's attributes. *)
Theorem lookup_entry_exact table leaf_attrs `{!PgtableLaws table leaf_attrs} root s va :
  wf leaf_attrs root s -> va_ok va ->
  match pgtable_lookup_entry table root va s with
  | Some (entry, size) =>
      xlate (mem s) root va = Some (page_addr (load s entry) + va mod size, attrs (load s entry))
  | None => xlate (mem s) root va = None
  end.
Proof. by apply lookup_entry_xlate. Qed.

(** ** The contract *)



(** ** Examples: host stage 1 on a pool of 64 pages *)
Definition demo_pool (allocated_bits : Z) : page_pool :=
  {| start_page := 0x41000000; bitmap := [allocated_bits]; bitmap_size := 1; last_hint_id := 0; dummy_page := 0 |}.
Definition demo_state (allocated_bits : Z) : walk := {| mem := ∅; pool := demo_pool allocated_bits; update := None |}.

(** 1 GiB of RAM, a hole of three pages in it and a device page. *)
Definition demo_ops : list as_op :=
  [AsMap {| paddr_base := 0x40000000; vaddr_base := 0x40000000; map_size := 0x40000000;
            prot := Z.lor PAGE_ATTR_NORMAL PAGE_BLOCK_DESC; allowed_leaf_levels := PGTABLE_LEAF_LEVEL_MASK |};
   AsUnmap 0x48000000 0x3000;
   AsMap {| paddr_base := 0x9000000; vaddr_base := 0x9000000; map_size := 0x1000;
            prot := Z.lor PAGE_ATTR_DEVICE PAGE_BLOCK_DESC; allowed_leaf_levels := PGTABLE_LEAF_LEVEL_MASK |}].

Ltac closed_arith := repeat split; vm_compute; first [reflexivity | discriminate].

Lemma demo_pool_ok b : in_u64 b -> pool_ok (demo_pool b).
Proof.
  intros Hb. unfold pool_ok, demo_pool. cbn. split_and!; try lia; try done. by apply Forall_singleton.
Qed.

Lemma demo_allowed : ops_allowed ppt_leaf_attrs (exclusive_table ppt_pgtable) demo_ops (fun _ => None).
Proof. cbn [ops_allowed demo_ops as_allowed]. split_and!; try (intros; discriminate); closed_arith. Qed.


(** Two empty roots, the first two pages of the pool. *)
Lemma demo_root i : 0 <= i < 2 ->
  represents ppt_leaf_attrs (0x41000000 + i * 0x1000) (demo_state 3) (fun _ => None) /\
  (forall q, reach (mem (demo_state 3)) (0x41000000 + i * 0x1000) q -> q = 0x41000000 + i * 0x1000).
Proof.
  intros Hi. apply empty_root.
  - apply demo_pool_ok. closed_arith.
  - assert (i = 0 \/ i = 1) as [-> | ->] by lia; closed_arith.
  - intros j _. unfold mload. cbn. by rewrite lookup_empty.
Qed.


Lemma lookup_entry_exact_witness : exists s, as_run ppt_pgtable 0x41000000 demo_ops (demo_state 3) = Ret s /\
  match pgtable_lookup_entry ppt_pgtable 0x41000000 0x48005678 s with
  | Some (entry, size) =>
      xlate (mem s) 0x41000000 0x48005678 = Some (page_addr (load s entry) + 0x48005678 mod size, attrs (load s entry))
  | None => xlate (mem s) 0x41000000 0x48005678 = None
  end.
Proof.
  destruct (run_refines ppt_pgtable ppt_leaf_attrs 0x41000000 demo_ops (demo_state 3) (fun _ => None)
    (proj1 (demo_root 0 ltac:(lia))) demo_allowed ltac:(vm_compute; discriminate)) as (s & E & [W _] & _).
  exists s. split; [exact E|].
  apply (lookup_entry_exact ppt_pgtable ppt_leaf_attrs 0x41000000 s 0x48005678 W). split; vm_compute; [discriminate|reflexivity].
Defined.
