(* ===== verification/Stage2.v ===== *)
(** * Guest stage-2 address spaces

    arch/arm64/guest/vm.c: building the boot-time map of a VM, mapping and
    unmapping ranges of a VM that exists, with the update owner that excludes a
    second writer and the retirement of table pages after the translation caches
    are synchronized.  The values a compare-and-swap of the owner word finds and
    the status of the SMMU synchronization are inputs. *)
From S2P Require Import Prelude Bits PagePool Pgtable PgtableInv PgtableOps PgtableDel Hooks AddressSpace.

Definition ARM64_STAGE2_ADDRESS_LIMIT : Z := Z.shiftl 1 48.
Definition ARM64_STAGE2_OWNER_RETRIES : Z := 100000 / 10.
Definition ARM64_STAGE2_MAP_READ : Z := 1.
Definition ARM64_STAGE2_MAP_WRITE : Z := 2.
Definition ARM64_STAGE2_MAP_DEVICE : Z := 4.
Definition ARM64_STAGE2_MAP_NORMAL : Z := 8.
Definition ARM64_STAGE2_MAP_FLAG_MASK : Z := 15.
Definition ARM64_STAGE2_STATIC_RAM_LEAVES : Z := 14.
Definition ARM64_STAGE2_DYNAMIC_LEAVES : Z := 12.
Definition ARM64_STAGE2_PAGE_LEAVES : Z := 8.

(** ** Operations *)
Section Stage2.
Context (pcpu smmu : Z).
Notation table vm := (stage2_pgtable vm pcpu smmu).

Definition validate_stage2_ram_identity (mem_start mem_hpa mem_size : Z) : outcome unit :=
  if negb (mem_hpa =? mem_start) then Panic "stage-2 ram is not 1:1"
  else if (mem_size =? 0) || (ARM64_STAGE2_ADDRESS_LIMIT <=? mem_start) || (ARM64_STAGE2_ADDRESS_LIMIT <=? mem_hpa) ||
     (ARM64_STAGE2_ADDRESS_LIMIT - mem_start <? mem_size) || (ARM64_STAGE2_ADDRESS_LIMIT - mem_hpa <? mem_size)
  then Panic "invalid stage-2 ram window"
  else if negb (mem_aligned_check mem_start PAGE_SIZE) || negb (mem_aligned_check mem_hpa PAGE_SIZE) ||
     negb (mem_aligned_check mem_size PAGE_SIZE)
  then Panic "stage-2 ram is not page aligned"
  else Ret tt.

Definition arm64_stage2_add_map (vm : stage2_vm) (hpa ipa size prot leaves : Z) (s : walk) : outcome walk :=
  let request := {| paddr_base := hpa; vaddr_base := ipa; map_size := size; prot := prot; allowed_leaf_levels := leaves |} in
  '(status, s) ← pgtable_add_map_deferred (table vm) request (root_stg2ptp vm) s;
  if negb (status =? 0) then Panic "stage-2 map request failed" else Ret s.

(** [init_stage2_identity_map]; [zero_page] is the address of [stage2_zero_page],
    and the pool has been set up by [init_stage2_page_pool]. *)
Definition init_stage2_identity_map (mem_start mem_size mem_hpa zero_page : Z) (vm : stage2_vm) (s : walk)
  : outcome (stage2_vm * walk) :=
  let vm := vm <| stage2_update_owner := 0 |> in
  '(root, s) ← pgtable_create_root s;
  let vm := vm <| root_stg2ptp := root |> in
  if root =? 0 then Panic "failed to create arm64 stage-2 root page table"
  else
    _ ← validate_stage2_ram_identity mem_start mem_hpa mem_size;
    s ← arm64_stage2_add_map vm mem_hpa mem_start mem_size (Z.lor PAGE_S2_ATTR_NORMAL PAGE_BLOCK_DESC)
          ARM64_STAGE2_STATIC_RAM_LEAVES s;
    s ← arm64_stage2_add_map vm zero_page 0 PAGE_SIZE
          (Z.lor (Z.lor (Z.lor PAGE_S2_MEMATTR_NORMAL PAGE_S2_S2AP_READ) PAGE_S2_SH_INNER) PAGE_S2_AF)
          ARM64_STAGE2_PAGE_LEAVES s;
    Ret (vm, s).

Definition arm64_stage2_map_prot (flags : Z) : Z :=
  let prot := Z.lor (Z.lor PAGE_S2_AF PAGE_S2_SH_INNER) PAGE_S2_XN in
  let prot := Z.lor prot (if negb (Z.land flags ARM64_STAGE2_MAP_DEVICE =? 0) then PAGE_S2_MEMATTR_DEVICE else PAGE_S2_MEMATTR_NORMAL) in
  let prot := if negb (Z.land flags ARM64_STAGE2_MAP_READ =? 0) then Z.lor prot PAGE_S2_S2AP_READ else prot in
  let prot := if negb (Z.land flags ARM64_STAGE2_MAP_WRITE =? 0) then Z.lor prot PAGE_S2_S2AP_WRITE else prot in
  Z.lor prot PAGE_BLOCK_DESC.

Definition arm64_stage2_validate_range (vm : stage2_vm) (hpa ipa size : Z) (has_hpa : bool) : outcome unit :=
  if (root_stg2ptp vm =? 0) || (size =? 0) || negb (mem_aligned_check ipa PAGE_SIZE) || negb (mem_aligned_check size PAGE_SIZE) ||
     (ARM64_STAGE2_ADDRESS_LIMIT <=? ipa) || (ARM64_STAGE2_ADDRESS_LIMIT - ipa <? size)
  then Panic "invalid arm64 stage-2 range"
  else if has_hpa && (negb (mem_aligned_check hpa PAGE_SIZE) || (ARM64_STAGE2_ADDRESS_LIMIT <=? hpa) ||
     (ARM64_STAGE2_ADDRESS_LIMIT - hpa <? size))
  then Panic "invalid arm64 stage-2 output range"
  else Ret tt.

(** [seen i] is the value the [i]-th compare-and-swap finds in the owner word. *)
Fixpoint acquire_loop (n : nat) (seen : nat -> Z) (i : nat) (vm : stage2_vm) : outcome (Z * stage2_vm) :=
  match n with
  | O => Panic "stage-2 update owner timeout"
  | S n =>
      let owner := u64 (pcpu + 1) in
      let previous := seen i in
      if previous =? 0 then Ret (owner, vm <| stage2_update_owner := owner |>)
      else if previous =? owner then Panic "reentrant stage-2 update"
      else acquire_loop n seen (S i) vm
  end.
Definition arm64_stage2_acquire_update (seen : nat -> Z) (vm : stage2_vm) : outcome (Z * stage2_vm) :=
  acquire_loop (Z.to_nat ARM64_STAGE2_OWNER_RETRIES) seen 0 vm.

Definition arm64_stage2_release_update (vm : stage2_vm) (owner : Z) : outcome stage2_vm :=
  if negb (stage2_update_owner vm =? owner) then Panic "stage-2 update owner corruption"
  else Ret (vm <| stage2_update_owner := 0 |>).

Definition arm64_stage2_sync_required (vm : stage2_vm) : bool := negb (vm_creating vm) || negb (created_vcpus vm =? 0).

Definition arm64_stage2_complete_update (vm : stage2_vm) (s : walk) : outcome walk :=
  match update s with
  | None => Panic "stage-2 unmap has no update batch"
  | Some u =>
      if negb (retired_pages u =? 0) && negb (changed u) then Panic "stage-2 unmap retire without descriptor update"
      else
        _ ← (if changed u && arm64_stage2_sync_required vm then arm64_stage2_sync_or_panic vm smmu else Ret tt);
        if negb (retired_pages u =? 0) then
          '(u, p) ← pgtable_free_retired_pages u (pool s); Ret (s <| update := Some u |> <| pool := p |>)
        else Ret s
  end.

(** The retired bitmap of an operation has a word for each 64 pool pages. *)
Definition retired_words (s : walk) : Z := bitmap_size (pool s).

Definition arm64_stage2_map (hpa ipa size flags : Z) (seen : nat -> Z) (vm : stage2_vm) (s : walk) : outcome (stage2_vm * walk) :=
  _ ← arm64_stage2_validate_range vm hpa ipa size true;
  let kind := Z.land flags (Z.lor ARM64_STAGE2_MAP_DEVICE ARM64_STAGE2_MAP_NORMAL) in
  if (kind =? 0) || (kind =? Z.lor ARM64_STAGE2_MAP_DEVICE ARM64_STAGE2_MAP_NORMAL) ||
     (Z.land flags (Z.lor ARM64_STAGE2_MAP_READ ARM64_STAGE2_MAP_WRITE) =? 0) ||
     negb (Z.land flags (u32 (Z.lnot ARM64_STAGE2_MAP_FLAG_MASK)) =? 0)
  then Panic "invalid arm64 stage-2 map flags"
  else
    let prot := arm64_stage2_map_prot flags in
    '(owner, vm) ← arm64_stage2_acquire_update seen vm;
    u ← pgtable_update_init (replicate (Z.to_nat (retired_words s)) 0) (retired_words s) (pool s);
    s ← arm64_stage2_add_map vm hpa ipa size prot ARM64_STAGE2_DYNAMIC_LEAVES (s <| update := Some u |>);
    s ← arm64_stage2_complete_update vm s;
    vm ← arm64_stage2_release_update vm owner;
    Ret (vm, s <| update := None |>).

Definition arm64_stage2_unmap (ipa size : Z) (seen : nat -> Z) (vm : stage2_vm) (s : walk) : outcome (stage2_vm * walk) :=
  _ ← arm64_stage2_validate_range vm 0 ipa size false;
  '(owner, vm) ← arm64_stage2_acquire_update seen vm;
  u ← pgtable_update_init (replicate (Z.to_nat (retired_words s)) 0) (retired_words s) (pool s);
  s ← pgtable_modify_or_del_map_deferred (table vm) 0 0 MR_DEL (root_stg2ptp vm) ipa size (s <| update := Some u |>);
  s ← arm64_stage2_complete_update vm s;
  vm ← arm64_stage2_release_update vm owner;
  Ret (vm, s <| update := None |>).
End Stage2.

(** ** Adding a map leaves the batch to its caller *)
Section UpdateKept.
Context (table : pgtable) (request : pgtable_map_request).

Lemma walk_alloc_update s q s' : walk_alloc s = Ret (q, s') -> update s' = update s.
Proof. unfold walk_alloc. destruct (alloc_page (pool s) (mem s)) as [[[page p] m]| |]; cbn; [|done..]. by intros [= <- <-]. Qed.

Lemma overlap_update s s' : overlap table s = Ret s' -> update s' = update s.
Proof. unfold overlap. destruct (replace_pgentry table); intros H; inv_ret. by subst. Qed.

Lemma add_loop0_update : forall n page i pa va ve s s', add_loop0 table request n page i pa va ve s = Ret s' -> update s' = update s.
Proof.
  induction n as [|n IH]; intros page i pa va ve s s' H; cbn [add_loop0] in H; [by inv_ret; subst|].
  inv_ret. assert (update r = update s) as <- by (destruct (present _ _); [by apply overlap_update|inv_ret; by subst]).
  destruct (_ <=? _); [inv_ret; by subst|by eapply IH].
Qed.

Lemma add_loop_update level lower :
  (forall pte pa va ve s s', lower pte pa va ve s = Ret s' -> update s' = update s) ->
  forall n page i pa va ve s s', add_loop table request level lower n page i pa va ve s = Ret s' -> update s' = update s.
Proof.
  intros Hl. induction n as [|n IH]; intros page i pa va ve s s' H; cbn [add_loop] in H; [by inv_ret; subst|].
  destruct (arch_pgtl_large _); [|destruct (negb _); [destruct (pgtable_map_allows_leaf _ _ _ _ _ _ _)|]].
  - inv_ret. apply overlap_update in E as <-. destruct (_ <=? _); [inv_ret; by subst|by eapply IH].
  - destruct (_ <? _); [apply IH in H; by rewrite H|inv_ret; by subst].
  - inv_ret. destruct r as [child s1]. apply walk_alloc_update in E as <-. inv_ret. apply Hl in E as E'.
    change (update (store _ _ s1)) with (update s1) in E'. rewrite <- E'. destruct (_ <=? _); [inv_ret; by subst|by eapply IH].
  - inv_ret. apply Hl in E as <-. destruct (_ <=? _); [inv_ret; by subst|by eapply IH].
Qed.

Lemma add_pgtl2_update pte pa va ve s s' : add_pgtl2 table request pte pa va ve s = Ret s' -> update s' = update s.
Proof.
  unfold add_pgtl2, add_pgtl1, add_pgtl. apply add_loop_update. intros. eapply add_loop_update; [|done].
  intros. eapply add_loop0_update. done.
Qed.

Lemma add_root_update : forall fuel root pa va ve s s', add_root table request fuel root pa va ve s = Ret s' -> update s' = update s.
Proof.
  induction fuel as [|fuel IH]; intros root pa va ve s s' H; cbn [add_root] in H; (destruct (_ <? _); [|inv_ret; by subst]); [done|].
  inv_ret. apply IH in H as ->. apply add_pgtl2_update in E0 as ->. destruct (negb _); [|inv_ret; by subst].
  destruct (walk_alloc s) as [[child s1]| |] eqn:Ea; cbn in E; [|done..]. apply walk_alloc_update in Ea as <-.
  inv_ret. by subst.
Qed.

(** The batch only learns that the range was mapped. *)
Lemma add_map_update root s s' : pgtable_add_map_deferred table request root s = Ret (0, s') ->
  update s' = update (pgtable_update_record (req_lo request) (u64 (req_hi request)) PGTABLE_UPDATE_MAP s).
Proof.
  unfold pgtable_add_map_deferred. destruct (_ || _ || _ || _); [discriminate|]. destruct (_ || _); [discriminate|].
  destruct (_ || _ || _); [discriminate|]. intros H. apply bind_Ret_inv in H as (s1 & E & [= <-]). apply add_root_update in E.
  cbn. by rewrite E.
Qed.
End UpdateKept.

(** ** Correctness *)
Section Stage2Ok.
Context (pcpu smmu : Z).
Notation table vm := (stage2_pgtable vm pcpu smmu).
Notation rep := (represents stage2_leaf_attrs).

Definition s2_request (hpa ipa size prot leaves : Z) : pgtable_map_request :=
  {| paddr_base := hpa; vaddr_base := ipa; map_size := size; prot := prot; allowed_leaf_levels := leaves |}.

(** Page-aligned addresses and sizes are not rounded. *)
Lemma round_id v : 0 <= v <= VA_LIMIT -> v mod 4096 = 0 -> round_page_up v = v /\ round_page_down v = v.
Proof. intros H Ha. rewrite round_up_eq, round_down_eq by (done || (apply va_u64; done)). mlia. Qed.

(** A window of pages inside both 48-bit spaces. *)
Definition window_ok (hpa ipa size : Z) : Prop :=
  0 <= hpa /\ 0 <= ipa /\ 4096 <= size /\ hpa mod 4096 = 0 /\ ipa mod 4096 = 0 /\ size mod 4096 = 0 /\
  ipa + size <= VA_LIMIT /\ hpa + size <= VA_LIMIT.

Lemma s2_request_range hpa ipa size prot leaves : window_ok hpa ipa size ->
  let r := s2_request hpa ipa size prot leaves in
  req_lo r = ipa /\ req_hi r = ipa + size /\ req_delta r = hpa - ipa.
Proof.
  intros (H1 & H2 & H3 & H4 & H5 & H6 & H7 & H8). unfold req_lo, req_hi, req_delta. cbn.
  destruct (round_id hpa) as [-> _]; [lia|done|]. destruct (round_id ipa) as [-> _]; [lia|done|].
  destruct (round_id size) as [_ ->]; [lia|done|]. done.
Qed.

Lemma s2_request_ok hpa ipa size prot leaves : window_ok hpa ipa size -> in_u64 prot -> Z.land prot PFN_MASK = 0 ->
  leaves = 14 \/ leaves = 12 \/ leaves = 8 -> request_ok (s2_request hpa ipa size prot leaves).
Proof.
  intros (H1 & H2 & H3 & H4 & H5 & H6 & H7 & H8) Hu Hp Hl. unfold request_ok, PAGE_SIZE. cbn.
  destruct (round_id hpa) as [-> _]; [lia|done|]. destruct (round_id ipa) as [-> _]; [lia|done|].
  split_and!; try done; try lia; try apply Hu; destruct Hl as [->|[->| ->]]; by vm_compute.
Qed.

(** [arm64_stage2_add_map] of an unmapped window. *)
Lemma stage2_add_ok vm a hpa ipa size prot leaves s : let r := s2_request hpa ipa size prot leaves in
  request_ok r -> rep (root_stg2ptp vm) s a -> (forall va, req_lo r <= va < req_hi r -> a va = None) ->
  tables_needed (table vm) r (req_delta r) 0 (req_lo r) (req_hi r) <= Z.of_nat (free_count (pool s)) ->
  exists s', arm64_stage2_add_map pcpu smmu vm hpa ipa size prot leaves s = Ret s' /\
    rep (root_stg2ptp vm) s' (as_apply stage2_leaf_attrs (AsMap r) a) /\ frame (root_stg2ptp vm) s s' /\
    Z.of_nat (free_count (pool s)) <= Z.of_nat (free_count (pool s')) + tables_needed (table vm) r (req_delta r) 0 (req_lo r) (req_hi r) /\
    update s' = update (pgtable_update_record (req_lo r) (u64 (req_hi r)) PGTABLE_UPDATE_MAP s).
Proof.
  cbn zeta. intros Hr [W Hx] Hun Hf.
  destruct (add_map_ok (table vm) stage2_leaf_attrs (root_stg2ptp vm) _ s Hr W) as (s' & E & [E1 E2 E3 E4 E5 E6]); [|done|].
  { intros _ va Hva. rewrite Hx by (by eapply req_va). by apply Hun. }
  unfold arm64_stage2_add_map. fold (s2_request hpa ipa size prot leaves). rewrite E. cbn [mbind outcome_bind].
  exists s'. split; [done|split; [split; [done|]|split; [done|split; [done|by eapply add_map_update]]]].
  intros va Hva. rewrite E4, Hx by done. cbn [as_apply]. unfold in_range, add_T. destruct (_ && _); [|done]. by destruct (a va).
Qed.

(** *** The boot-time map *)
Lemma validate_window_ok start size : window_ok start start size -> validate_stage2_ram_identity start start size = Ret tt.
Proof.
  intros (H1 & _ & H3 & H4 & _ & H6 & H7 & _). unfold validate_stage2_ram_identity, PAGE_SIZE.
  change 4096 with (get_level_size (Z.of_nat 3)). rewrite Z.eqb_refl, !aligned_check_eq by lia. change (sz 3) with 4096.
  change ARM64_STAGE2_ADDRESS_LIMIT with VA_LIMIT. rewrite H4, H6, (proj2 (Z.eqb_neq size 0)) by lia.
  rewrite !(proj2 (Z.leb_gt _ _)), !(proj2 (Z.ltb_ge _ _)) by lia. done.
Qed.

Definition ram_request (start size : Z) : pgtable_map_request :=
  s2_request start start size (Z.lor PAGE_S2_ATTR_NORMAL PAGE_BLOCK_DESC) ARM64_STAGE2_STATIC_RAM_LEAVES.
Definition S2_ATTR_READ_ONLY : Z := Z.lor (Z.lor (Z.lor PAGE_S2_MEMATTR_NORMAL PAGE_S2_S2AP_READ) PAGE_S2_SH_INNER) PAGE_S2_AF.
Definition zero_request (zero_page : Z) : pgtable_map_request :=
  s2_request zero_page 0 PAGE_SIZE S2_ATTR_READ_ONLY ARM64_STAGE2_PAGE_LEAVES.

(** What a VM may access when it starts. *)
Definition boot_space (start size zero_page : Z) : aspace := fun va =>
  if (0 <=? va) && (va <? PAGE_SIZE) then Some (zero_page + va, S2_ATTR_READ_ONLY)
  else if (start <=? va) && (va <? start + size) then Some (va, PAGE_S2_ATTR_NORMAL)
  else None.

(** Pool pages the boot-time map can take. *)
Definition boot_cost (vm : stage2_vm) (start size zero_page : Z) : Z :=
  1 + tables_needed (table vm) (ram_request start size) 0 0 start (start + size) +
  tables_needed (table vm) (zero_request zero_page) zero_page 0 0 PAGE_SIZE.

Lemma represents_ext root s a a' : rep root s a -> (forall va, va_ok va -> a va = a' va) -> rep root s a'.
Proof. intros [W X] H. split; [done|]. intros va Hva. by rewrite X, H. Qed.

(** The root of the new tables was a free page; the pages in use are kept and do
    not become tables of the VM. *)
Lemma stage2_boot_ok vm s start size zero_page :
  pool_ok (pool s) -> window_ok start start size -> PAGE_SIZE <= start ->
  window_ok zero_page 0 PAGE_SIZE -> boot_cost vm start size zero_page <= Z.of_nat (free_count (pool s)) ->
  exists root s', init_stage2_identity_map pcpu smmu start size start zero_page vm s =
      Ret (vm <| stage2_update_owner := 0 |> <| root_stg2ptp := root |>, s') /\
    rep root s' (boot_space start size zero_page) /\
    Z.of_nat (free_count (pool s)) <= Z.of_nat (free_count (pool s')) + boot_cost vm start size zero_page /\
    (forall q, in_pool (pool s') q <-> in_pool (pool s) q) /\
    forall q, allocated (pool s) q -> allocated (pool s') q /\ ~ reach (mem s') root q /\
      forall i, 0 <= i < 512 -> mload (mem s') (entry_ptr q i) = mload (mem s) (entry_ptr q i).
Proof.
  intros Hok Hw Hst Hz Hc. unfold boot_cost in Hc.
  pose proof (s2_request_range start start size (Z.lor PAGE_S2_ATTR_NORMAL PAGE_BLOCK_DESC) ARM64_STAGE2_STATIC_RAM_LEAVES Hw) as (R1 & R2 & R3).
  pose proof (s2_request_range zero_page 0 PAGE_SIZE S2_ATTR_READ_ONLY ARM64_STAGE2_PAGE_LEAVES Hz) as (Z1 & Z2 & Z3).
  fold (ram_request start size) in *. fold (zero_request zero_page) in *. rewrite Z.sub_diag in R3. rewrite Z.sub_0_r in Z3.
  change (0 + PAGE_SIZE) with PAGE_SIZE in Z2.
  pose proof (tables_needed_pos (table vm) (ram_request start size) 0 0 start (start + size)).
  pose proof (tables_needed_pos (table vm) (zero_request zero_page) zero_page 0 0 PAGE_SIZE).
  unfold init_stage2_identity_map. destruct (create_root_fresh stage2_leaf_attrs s Hok ltac:(lia)) as (root & s1 & -> & Hr & F1 & Hroot & Hna & Hin & Hkeep).
  cbn [mbind outcome_bind]. set (vm' := _ <| root_stg2ptp := root |>).
  assert (root =? 0 = false) as ->.
  { apply Z.eqb_neq. destruct Hr as [W _]. destruct (in_pool_page_ok (pool s1) root) as [_ H1]; [apply W| |lia].
    by apply (wf_alloc _ _ _ W 0 0 root); [lia|unfold va_ok, VA_LIMIT; lia|]. }
  rewrite validate_window_ok by done. cbn [mbind outcome_bind].
  destruct (stage2_add_ok vm' (fun _ => None) start start size (Z.lor PAGE_S2_ATTR_NORMAL PAGE_BLOCK_DESC) ARM64_STAGE2_STATIC_RAM_LEAVES s1)
    as (s2 & -> & Hr2 & G2 & F2 & _); fold (ram_request start size); rewrite ?R1, ?R2, ?R3; [|done|done| |].
  { apply s2_request_ok; [done|closed_arith|reflexivity|by left]. }
  { change (tables_needed (table vm')) with (tables_needed (table vm)). lia. }
  fold (ram_request start size) in *. rewrite R1, R2, R3 in F2. cbn [mbind outcome_bind].
  destruct (stage2_add_ok vm' (as_apply stage2_leaf_attrs (AsMap (ram_request start size)) (fun _ => None))
    zero_page 0 PAGE_SIZE S2_ATTR_READ_ONLY ARM64_STAGE2_PAGE_LEAVES s2)
    as (s3 & E3 & Hr3 & G3 & F3 & _); fold (zero_request zero_page); rewrite ?Z1, ?Z2, ?Z3; [|done|..].
  { apply s2_request_ok; [done|closed_arith|reflexivity|by right; right]. }
  { intros va Hva. cbn [as_apply]. rewrite R1, R2. unfold in_range. rewrite (proj2 (Z.leb_gt start va)) by lia. done. }
  { change (tables_needed (table vm')) with (tables_needed (table vm)) in *. lia. }
  fold (zero_request zero_page) in *. rewrite Z1, Z2, Z3 in F3. change (tables_needed (table vm')) with (tables_needed (table vm)) in *.
  unfold S2_ATTR_READ_ONLY in E3. rewrite E3. cbn [mbind outcome_bind]. exists root, s3. split; [done|].
  pose proof (frame_trans _ _ _ _ G2 G3) as [G Gin]. split; [|split; [unfold boot_cost; lia|split]].
  - apply (represents_ext root s3 _ _ Hr3). intros va Hva. cbn [as_apply]. rewrite Z1, Z2, Z3, R1, R2, R3. unfold in_range, boot_space.
    destruct (Z.ltb_spec va PAGE_SIZE), (Z.leb_spec start va), (Z.leb_spec 0 va), (Z.ltb_spec va (start + size)); cbn [andb]; try lia;
      rewrite ?Z.add_0_r; try done; f_equal; f_equal; try lia; reflexivity.
  - intros q. by rewrite Gin.
  - intros q Ha. destruct (Hkeep q Ha) as [A1 M1]. destruct (G q A1) as (A3 & N3 & M3).
    + intros Hq. apply Hroot in Hq as ->. done.
    + split_and!; [done..|]. intros i Hi. by rewrite M3, M1.
Qed.

(** C6: the boot-time stage-2 map of a VM translates exactly the configured RAM
    window, one to one and as normal read-write memory, and the first page, read
    only, to the shared zero page.  Every other guest address is unmapped, so
    device accesses exit to the hypervisor; the map is built without fault when
    the pool holds the pages it can take, and the VM starts without an update
    owner. *)
Theorem stage2_boot_map_exact vm s start size zero_page :
  pool_ok (pool s) -> window_ok start start size -> PAGE_SIZE <= start ->
  window_ok zero_page 0 PAGE_SIZE -> boot_cost vm start size zero_page <= Z.of_nat (free_count (pool s)) ->
  exists vm' s', init_stage2_identity_map pcpu smmu start size start zero_page vm s = Ret (vm', s') /\
    rep (root_stg2ptp vm') s' (boot_space start size zero_page) /\ stage2_update_owner vm' = 0.
Proof.
  intros Hok Hw Hst Hz Hc. destruct (stage2_boot_ok vm s start size zero_page) as (root & s' & E & Hr & _); try done.
  by eexists _, s'.
Qed.

(** *** Mapping a window of an existing VM *)

(** The flag combinations [arm64_stage2_map] accepts: read or write access, and
    exactly one memory type. *)
Definition flags_ok (flags : Z) : Prop := flags ∈ [5; 6; 7; 9; 10; 11].

(** The attributes of a window mapped with [flags]. *)
Definition window_attrs (flags : Z) : Z :=
  Z.lor (Z.lor (Z.lor PAGE_S2_AF PAGE_S2_SH_INNER) PAGE_S2_XN)
    (Z.lor (if Z.testbit flags 2 then PAGE_S2_MEMATTR_DEVICE else PAGE_S2_MEMATTR_NORMAL)
      (Z.lor (if Z.testbit flags 0 then PAGE_S2_S2AP_READ else 0) (if Z.testbit flags 1 then PAGE_S2_S2AP_WRITE else 0))).

Lemma map_prot_ok flags : flags_ok flags ->
  in_u64 (arm64_stage2_map_prot flags) /\ Z.land (arm64_stage2_map_prot flags) PFN_MASK = 0 /\
  stage2_leaf_attrs (arm64_stage2_map_prot flags) = window_attrs flags.
Proof.
  intros H. unfold flags_ok in H. rewrite !elem_of_cons, elem_of_nil in H.
  destruct H as [->|[->|[->|[->|[->|[->|[]]]]]]]; closed_arith.
Qed.

(** The owner word is free at one of the attempts, and not held by this pCPU
    before. *)
Definition owner_free (seen : nat -> Z) : Prop :=
  exists k, (k < Z.to_nat ARM64_STAGE2_OWNER_RETRIES)%nat /\ seen k = 0 /\ forall i, (i < k)%nat -> seen i <> u64 (pcpu + 1).

Lemma acquire_ok seen vm : owner_free seen ->
  arm64_stage2_acquire_update pcpu seen vm = Ret (u64 (pcpu + 1), vm <| stage2_update_owner := u64 (pcpu + 1) |>).
Proof.
  intros (k & Hk & H0 & Hne). unfold arm64_stage2_acquire_update.
  revert Hk. generalize (Z.to_nat ARM64_STAGE2_OWNER_RETRIES) as n. intros n Hk.
  assert (forall n i, (i <= k)%nat -> (k < n + i)%nat -> acquire_loop pcpu n seen i vm =
    Ret (u64 (pcpu + 1), vm <| stage2_update_owner := u64 (pcpu + 1) |>)) as Hloop.
  { clear n Hk. induction n as [|n IH]; intros i Hi Hn; [lia|]. cbn [acquire_loop].
    destruct (Z.eqb_spec (seen i) 0) as [|Hnz]; [done|]. destruct (decide (i = k)) as [->|]; [done|].
    rewrite (proj2 (Z.eqb_neq _ _) (Hne i ltac:(lia))). apply IH; lia. }
  apply Hloop; lia.
Qed.

Definition window_space (hpa ipa size flags : Z) (a : aspace) : aspace := fun va =>
  if (ipa <=? va) && (va <? ipa + size) then Some (hpa + (va - ipa), window_attrs flags) else a va.

Definition window_request (hpa ipa size flags : Z) : pgtable_map_request :=
  s2_request hpa ipa size (arm64_stage2_map_prot flags) ARM64_STAGE2_DYNAMIC_LEAVES.

Lemma root_nonzero vm s a : rep (root_stg2ptp vm) s a -> 0 < root_stg2ptp vm.
Proof.
  intros [W _]. apply (in_pool_page_ok (pool s)); [apply W|].
  by apply (wf_alloc _ _ _ W 0 0); [lia|unfold va_ok, VA_LIMIT; lia|].
Qed.

Lemma validate_range_ok vm hpa ipa size : 0 < root_stg2ptp vm -> window_ok hpa ipa size ->
  arm64_stage2_validate_range vm hpa ipa size true = Ret tt.
Proof.
  intros H0 (B1 & B2 & B3 & B4 & B5 & B6 & B7 & B8). unfold arm64_stage2_validate_range, PAGE_SIZE.
  change 4096 with (get_level_size (Z.of_nat 3)). rewrite !aligned_check_eq by lia. change (sz 3) with 4096.
  change ARM64_STAGE2_ADDRESS_LIMIT with VA_LIMIT. rewrite B4, B5, B6, (proj2 (Z.eqb_neq size 0)), (proj2 (Z.eqb_neq _ 0)) by lia.
  rewrite !(proj2 (Z.leb_gt _ _)), !(proj2 (Z.ltb_ge _ _)) by lia. done.
Qed.

(** A batch that retired nothing only needs the synchronization. *)
Lemma complete_nothing_retired vm s u : update s = Some u -> retired_pages u = 0 ->
  (arm64_stage2_sync_required vm = true -> arm64_stage2_sync_translation vm smmu = Ret 0) ->
  arm64_stage2_complete_update smmu vm s = Ret s.
Proof.
  intros Hu H0 Hs. unfold arm64_stage2_complete_update. rewrite Hu, H0. cbn [Z.eqb negb andb].
  unfold arm64_stage2_sync_or_panic. destruct (changed u), (arm64_stage2_sync_required vm); cbn; try done.
  by rewrite Hs.
Qed.

(** [arm64_stage2_map] of an unmapped window. *)
Lemma stage2_map_ok vm s a hpa ipa size flags seen :
  rep (root_stg2ptp vm) s a -> window_ok hpa ipa size -> flags_ok flags -> owner_free seen ->
  (forall va, ipa <= va < ipa + size -> a va = None) ->
  (arm64_stage2_sync_required vm = true -> arm64_stage2_sync_translation vm smmu = Ret 0) ->
  let cost := tables_needed (table vm) (window_request hpa ipa size flags) (hpa - ipa) 0 ipa (ipa + size) in
  cost <= Z.of_nat (free_count (pool s)) ->
  exists s', arm64_stage2_map pcpu smmu hpa ipa size flags seen vm s = Ret (vm <| stage2_update_owner := 0 |>, s') /\
    rep (root_stg2ptp vm) s' (window_space hpa ipa size flags a) /\ frame (root_stg2ptp vm) s s' /\
    Z.of_nat (free_count (pool s)) <= Z.of_nat (free_count (pool s')) + cost.
Proof.
  intros Hr Hw Hfl Hown Hun Hsync. cbn zeta. intros Hc. unfold arm64_stage2_map.
  destruct (map_prot_ok flags Hfl) as (P1 & P2 & P3). set (r := window_request hpa ipa size flags) in *.
  pose proof (s2_request_range hpa ipa size (arm64_stage2_map_prot flags) ARM64_STAGE2_DYNAMIC_LEAVES Hw) as (R1 & R2 & R3).
  change (s2_request _ _ _ _ _) with r in *.
  rewrite validate_range_ok by (done || by eapply root_nonzero). cbn [mbind outcome_bind].
  match goal with |- context [if ?b then Panic "invalid arm64 stage-2 map flags" else _] => assert (b = false) as -> end.
  { unfold flags_ok in Hfl. rewrite !elem_of_cons, elem_of_nil in Hfl.
    destruct Hfl as [->|[->|[->|[->|[->|[->|[]]]]]]]; reflexivity. }
  rewrite (acquire_ok seen vm Hown). cbn [mbind outcome_bind]. set (vm1 := vm <| stage2_update_owner := _ |>).
  unfold pgtable_update_init, retired_words. rewrite Z.ltb_irrefl. cbn [mbind outcome_bind]. set (u := {| retired_bitmap := _ |}).
  set (s0 := s <| update := Some u |>).
  destruct (stage2_add_ok vm1 a hpa ipa size (arm64_stage2_map_prot flags) ARM64_STAGE2_DYNAMIC_LEAVES s0)
    as (s1 & -> & [W1 X1] & F1 & N1 & U1); change (s2_request _ _ _ _ _) with r in *; rewrite ?R1, ?R2, ?R3 in *;
    [apply s2_request_ok; [done..|by right; left]|destruct Hr as [W0 X0]; split; [by apply (wf_set_update _ _ s)|done]|done|done|].
  cbn in U1. cbn [mbind outcome_bind]. rewrite (complete_nothing_retired vm1 s1 _ U1 eq_refl Hsync). cbn [mbind outcome_bind].
  unfold arm64_stage2_release_update. cbn [vm1 stage2_update_owner]. rewrite Z.eqb_refl. cbn [negb mbind outcome_bind].
  eexists. split; [reflexivity|]. split; [split; [by apply (wf_set_update _ _ s1)|]|split; [exact F1|exact N1]].
  intros va Hva. change (mem (s1 <| update := None |>)) with (mem s1).
  change (root_stg2ptp vm) with (root_stg2ptp vm1). rewrite (X1 va Hva). cbn [as_apply].
  rewrite R1, R2, R3. unfold in_range, window_space. destruct (Z.leb_spec ipa va), (Z.ltb_spec va (ipa + size)); cbn [andb]; try done.
  rewrite Hun by lia. change (prot r) with (arm64_stage2_map_prot flags). rewrite P3. do 2 f_equal. lia.
Qed.
(** *** Unmapping a window *)

(** Completing an update frees exactly the retired pages. *)
Lemma complete_ok vm s u : pool_ok (pool s) -> batch_ok (root_stg2ptp vm) s -> update s = Some u ->
  arm64_stage2_sync_translation vm smmu = Ret 0 ->
  exists s', arm64_stage2_complete_update smmu vm s = Ret s' /\ mem s' = mem s /\
    pool_ok (pool s') /\ (forall q, in_pool (pool s') q <-> in_pool (pool s) q) /\ (free_count (pool s) <= free_count (pool s'))%nat /\
    (forall q, allocated (pool s') q <-> allocated (pool s) q /\ ~ in_batch s q).
Proof.
  intros Hok HB HU Hs. destruct (HB u HU) as (B1 & _ & _ & B4 & B5 & _).
  destruct (Z.eqb_spec (retired_pages u) 0) as [E0|Hne].
  - exists s. split; [by eapply complete_nothing_retired|]. split_and!; try done. intros q. split; [|tauto]. intros Ha. split; [done|].
    intros (u1 & E & Hr). rewrite HU in E. injection E as <-. destruct (page_id_range _ _ Hok (proj1 Ha)) as [Hp _]. rewrite B1 in Hp.
    rewrite B4 in E0. assert (page_id (pool s) q ∈ retired_ids u) as Hin.
    { unfold retired_ids. apply list_elem_of_filter. split; [done|]. apply elem_of_seqZ. lia. }
    destruct (retired_ids u); [by apply elem_of_nil in Hin|done].
  - unfold arm64_stage2_complete_update. rewrite HU, (B5 Hne), (proj2 (Z.eqb_neq _ 0) Hne). cbn [negb andb].
    assert ((if arm64_stage2_sync_required vm then arm64_stage2_sync_or_panic vm smmu else Ret tt) = Ret tt) as ->.
    { unfold arm64_stage2_sync_or_panic. rewrite Hs. by destruct (arm64_stage2_sync_required vm). }
    cbn [mbind outcome_bind]. destruct (free_retired_ok (root_stg2ptp vm) s u Hok HB HU) as (u' & p' & -> & P).
    cbn [mbind outcome_bind]. eexists. split; [reflexivity|]. done.
Qed.

(** A pool that still holds the tables. *)
Lemma wf_pool_change root s s' : wf stage2_leaf_attrs root s -> mem s' = mem s -> pool_ok (pool s') ->
  (forall q, reach (mem s) root q -> allocated (pool s') q) -> wf stage2_leaf_attrs root s'.
Proof.
  intros [W1 W2 W3 W4] Em Hok Ha. constructor; rewrite ?Em; try done. intros d va p Hd Hva E. apply Ha. by exists d, va.
Qed.

Definition window_cleared (ipa size : Z) (a : aspace) : aspace := fun va =>
  if (ipa <=? va) && (va <? ipa + size) then None else a va.

Lemma stage2_unmap_ok vm s a ipa size seen :
  rep (root_stg2ptp vm) s a -> bitmap_size (pool s) = 1 -> window_ok ipa ipa size -> owner_free seen ->
  arm64_stage2_sync_translation vm smmu = Ret 0 -> splits_needed 0 ipa (ipa + size) <= Z.of_nat (free_count (pool s)) ->
  exists s', arm64_stage2_unmap pcpu smmu ipa size seen vm s = Ret (vm <| stage2_update_owner := 0 |>, s') /\
    rep (root_stg2ptp vm) s' (window_cleared ipa size a) /\ frame (root_stg2ptp vm) s s' /\
    Z.of_nat (free_count (pool s)) <= Z.of_nat (free_count (pool s')) + splits_needed 0 ipa (ipa + size).
Proof.
  intros Hr B1 Hw Hown Hsync Hc. unfold arm64_stage2_unmap. pose proof Hr as [W X].
  assert (arm64_stage2_validate_range vm 0 ipa size false = Ret tt) as ->.
  { pose proof (validate_range_ok vm ipa ipa size ltac:(by eapply root_nonzero) Hw) as Hv. unfold arm64_stage2_validate_range in *.
    destruct (_ || _); [done|]. done. }
  cbn [mbind outcome_bind]. rewrite (acquire_ok seen vm Hown). cbn [mbind outcome_bind].
  set (vm1 := vm <| stage2_update_owner := _ |>).
  unfold pgtable_update_init, retired_words. rewrite Z.ltb_irrefl. cbn [mbind outcome_bind]. set (u := {| retired_bitmap := _ |}).
  set (s0 := s <| update := Some u |>). destruct Hw as (_ & H1 & H2 & _ & H3 & H4 & H5 & _).
  destruct (round_id ipa ltac:(lia) H3) as [Ru _]. destruct (round_id size ltac:(lia) H4) as [_ Rd].
  assert (batch_ok (root_stg2ptp vm) s0) as HB0.
  { intros u0 [= <-]. subst u. cbn. rewrite B1. change (Z.to_nat 1) with 1%nat. split_and!; try done; try lia; [cbn; lia|].
    intros id Hid Hr0. unfold retired in Hr0. cbn in Hr0. by rewrite Z.bits_0 in Hr0. }
  destruct (mod_map_deferred_ok (table vm1) stage2_leaf_attrs (RL := stage2_replace vm1 pcpu smmu eq_refl Hsync) (root_stg2ptp vm) 0 0 MR_DEL ipa size s0)
    as (s1 & E1 & [E2 E3 E4 E5 E6 E7]); [by left|split_and!; rewrite ?Ru; unfold PAGE_SIZE; lia|done| |done| |].
  { by apply (wf_set_update _ _ s). }
  { by rewrite Ru, Rd. }
  rewrite Ru, Rd in *. change (root_stg2ptp vm1) with (root_stg2ptp vm). rewrite E1. cbn [mbind outcome_bind].
  destruct (E7 HB0) as (HB1 & [u1 HU1] & Hown1); [done|].
  destruct (complete_ok vm1 s1 u1) as (s2 & -> & Em & P1 & P2 & P3 & P4); [apply E2|done|done|done|]. cbn [mbind outcome_bind].
  unfold arm64_stage2_release_update. cbn [vm1 stage2_update_owner]. rewrite Z.eqb_refl. cbn [negb mbind outcome_bind].
  exists (s2 <| update := None |>). split; [done|split; [split|split; [|change (pool (s2 <| update := None |>)) with (pool s2); change (pool s0) with (pool s) in E6; lia]]].
  - apply (wf_set_update _ _ s2); [done|done|]. apply (wf_pool_change _ s1); [done..|]. intros q Hq. apply P4.
    assert (allocated (pool s1) q) as Ha by (destruct Hq as (d & va & ? & ? & ?); by eapply (wf_alloc _ _ _ E2)).
    split; [done|]. intros (u2 & E & Hrt). destruct (HB1 u2 E) as (C1 & _ & _ & _ & _ & C6).
    destruct (page_id_range _ _ (wf_pool _ _ _ E2) (proj1 Ha)) as [Hp Eq]. rewrite C1 in Hp.
    destruct (C6 (page_id (pool s1) q) ltac:(lia) Hrt) as [_ []]. by rewrite <- Eq.
  - intros va Hva. change (mem (s2 <| update := None |>)) with (mem s2). rewrite Em, E5 by done. change (mem s0) with (mem s). rewrite X by done. unfold window_cleared. done.
  - split; [|intros q; cbn; by rewrite P2, (proj2 E3)]. intros q Ha Hnr. destruct (proj1 E3 q Ha Hnr) as (A1 & R1 & M1).
    cbn. rewrite Em. split_and!; [|done..]. apply P4. split; [done|]. intros Hb.
    destruct (Hown1 q Ha Hnr Hb) as (u2 & [= <-] & Hrt). unfold retired in Hrt. subst u. cbn in Hrt. rewrite B1 in Hrt. cbn in Hrt.
    by rewrite Z.bits_0 in Hrt.
Qed.
End Stage2Ok.

(** ** Examples *)
Definition demo_vm (root : Z) : stage2_vm :=
  {| s2_vm_id := 1; root_stg2ptp := root; cpu_affinity := 1; stage2_update_owner := 0; vm_creating := false; created_vcpus := 1 |}.

Lemma stage2_boot_map_exact_witness : exists vm' s',
  init_stage2_identity_map 0 0 0x40000000 0x20000000 0x40000000 0x42000000 (demo_vm 0) (demo_state 0) = Ret (vm', s') /\
  represents stage2_leaf_attrs (root_stg2ptp vm') s' (boot_space 0x40000000 0x20000000 0x42000000) /\ stage2_update_owner vm' = 0.
Proof.
  apply (stage2_boot_map_exact 0 0 (demo_vm 0) (demo_state 0)).
  - apply demo_pool_ok. closed_arith.
  - closed_arith.
  - vm_compute. discriminate.
  - closed_arith.
  - vm_compute. discriminate.
Defined.

(** ** Retired pages beyond the first 64

    A pool of 128 pages.  VM B has page 0 as root and maps one page through the
    tables 1, 2 and 3; the rest of the first 64 pages is in use elsewhere.  VM A
    has its root and its tables in the second half. *)
Definition two_vm_pool : page_pool :=
  {| start_page := 0x41000000; bitmap := [0; 0]; bitmap_size := 2; last_hint_id := 0; dummy_page := 0 |}.

Definition fill_first_word (s : walk) : walk :=
  s <| pool := (pool s) <| bitmap := [UINT64_MAX; 0] |> <| last_hint_id := 1 |> |>.

Definition root_of (id : Z) : Z := 0x41000000 + id * 0x1000.

(** B is set up, then A maps a page: the state before A unmaps it. *)
Definition two_vms : outcome (stage2_vm * walk) :=
  '(rb, s) ← pgtable_create_root {| mem := ∅; pool := two_vm_pool; update := None |};
  '(_, s) ← arm64_stage2_map 0 0 0x90000000 0x80000000 0x1000 11 (fun _ => 0) (demo_vm rb) s;
  '(ra, s) ← pgtable_create_root (fill_first_word s);
  arm64_stage2_map 0 0 0xa0000000 0x80000000 0x1000 11 (fun _ => 0) (demo_vm ra) s.

(** After A's unmap the last pages of the second word are taken elsewhere, and A
    maps its page again. *)
Definition unmap_and_remap : outcome (walk * walk) :=
  '(vm, s) ← two_vms;
  '(vm, s1) ← arm64_stage2_unmap 0 0 0x80000000 0x1000 (fun _ => 0) vm s;
  let s2 := s1 <| pool := (pool s1) <| bitmap := set_word (bitmap (pool s1)) 1 UINT64_MAX |> |> in
  '(_, s3) ← arm64_stage2_map 0 0 0xa0000000 0x80000000 0x1000 11 (fun _ => 0) vm s2;
  Ret (s1, s3).

(** Finding: the retired bitmap is indexed with the full page number, but the bit
    operations act on its first word only, so the page numbers are taken modulo
    64.  A's unmap leaves its own three tables allocated and frees pages 1, 2
    and 3, which B's root still walks through; A's next map takes them, and B's
    address then translates to A's memory. *)
Lemma unmap_frees_foreign_tables :
  match two_vms, unmap_and_remap with
  | Ret (_, s), Ret (s1, s3) =>
      xlate (mem s) (root_of 0) 0x80000000 = Some (0x90000000, window_attrs 11) /\
      (page_bit (pool s) <$> [1; 2; 3; 65; 66; 67]) = [true; true; true; true; true; true] /\
      (page_bit (pool s1) <$> [1; 2; 3; 65; 66; 67]) = [false; false; false; true; true; true] /\
      xlate (mem s3) (root_of 0) 0x80000000 = Some (0xa0000000, window_attrs 11)
  | _, _ => False
  end.
Proof. vm_compute. split_and!; reflexivity. Qed.
