(* ===== verification/Stage2Vms.v ===== *)
(** * The virtual machines of a host

    Several VMs take the tables of their stage-2 translation from one pool.  They
    are created, and windows are mapped and unmapped, in any order and from any
    pCPU; each operation holds the update ownership of its VM while it runs, and
    the SMMU acknowledges every synchronization. *)
From S2P Require Import Prelude Bits PagePool Pgtable PgtableInv PgtableOps PgtableDel Hooks AddressSpace Stage2.

Notation s2_represents := (represents stage2_leaf_attrs).

(** ** Runs *)
Record s2_world := { s2_vms : list stage2_vm; s2_tables : walk }.

Inductive s2_op :=
| S2Boot (pcpu : Z) (vm : stage2_vm) (start size zero_page : Z)
| S2Map (pcpu : Z) (i : nat) (hpa ipa size flags : Z)
| S2Unmap (pcpu : Z) (i : nat) (ipa size : Z).

(** [f] is an operation on VM [i]; its compare-and-swap finds the owner word of
    the VM. *)
Definition on_vm (w : s2_world) (i : nat)
  (f : (nat -> Z) -> stage2_vm -> walk -> outcome (stage2_vm * walk)) : outcome s2_world :=
  match s2_vms w !! i with
  | None => Panic "no such vm"
  | Some vm =>
      '(vm, s) ← f (fun _ => stage2_update_owner vm) vm (s2_tables w);
      Ret {| s2_vms := <[i := vm]> (s2_vms w); s2_tables := s |}
  end.

Definition s2_exec (op : s2_op) (w : s2_world) : outcome s2_world :=
  match op with
  | S2Boot pcpu vm start size zero_page =>
      '(vm, s) ← init_stage2_identity_map pcpu 0 start size start zero_page vm (s2_tables w);
      Ret {| s2_vms := s2_vms w ++ [vm]; s2_tables := s |}
  | S2Map pcpu i hpa ipa size flags => on_vm w i (arm64_stage2_map pcpu 0 hpa ipa size flags)
  | S2Unmap pcpu i ipa size => on_vm w i (arm64_stage2_unmap pcpu 0 ipa size)
  end.

Fixpoint s2_run (ops : list s2_op) (w : s2_world) : outcome s2_world :=
  match ops with
  | [] => Ret w
  | op :: ops => w ← s2_exec op w; s2_run ops w
  end.

(** ** Specification: the list of the address spaces *)
Definition s2_apply (op : s2_op) (l : list aspace) : list aspace :=
  match op with
  | S2Boot _ _ start size zero_page => l ++ [boot_space start size zero_page]
  | S2Map _ i hpa ipa size flags => alter (window_space hpa ipa size flags) i l
  | S2Unmap _ i ipa size => alter (window_cleared ipa size) i l
  end.

(** What the callers respect.  A VM has a pCPU and an identifier that fits the
    VMID; a window is mapped where nothing is; windows are unmapped with a pool of
    one bitmap word, [words], since the retired pages are kept in one word. *)
Definition s2_allowed (words : Z) (op : s2_op) (l : list aspace) : Prop :=
  match op with
  | S2Boot _ vm start size zero_page =>
      cpu_affinity vm <> 0 /\ 0 <= s2_vm_id vm < ARM64_STAGE2_VMID_MASK /\
      window_ok start start size /\ PAGE_SIZE <= start /\ window_ok zero_page 0 PAGE_SIZE
  | S2Map _ i hpa ipa size flags =>
      window_ok hpa ipa size /\ flags_ok flags /\
      exists a, l !! i = Some a /\ forall va, ipa <= va < ipa + size -> a va = None
  | S2Unmap _ i ipa size => window_ok ipa ipa size /\ words = 1 /\ (i < length l)%nat
  end.

Fixpoint s2_all_allowed (words : Z) (ops : list s2_op) (l : list aspace) : Prop :=
  match ops with
  | [] => True
  | op :: ops => s2_allowed words op l /\ s2_all_allowed words ops (s2_apply op l)
  end.

(** The pool pages an operation can take; they depend on the leaf sizes of the
    stage-2 tables only. *)
Definition no_vm : stage2_vm :=
  {| s2_vm_id := 0; root_stg2ptp := 0; cpu_affinity := 0; stage2_update_owner := 0; vm_creating := false; created_vcpus := 0 |}.
Definition s2_cost (op : s2_op) : Z :=
  match op with
  | S2Boot pcpu vm start size zero_page => boot_cost pcpu 0 vm start size zero_page
  | S2Map pcpu _ hpa ipa size flags =>
      tables_needed (stage2_pgtable no_vm pcpu 0) (window_request hpa ipa size flags) (hpa - ipa) 0 ipa (ipa + size)
  | S2Unmap _ _ ipa size => splits_needed 0 ipa (ipa + size)
  end.
Definition s2_costs (ops : list s2_op) : Z := foldr (fun op n => s2_cost op + n) 0 ops.

Lemma alter_is_insert {A} (f : A -> A) (i : nat) (l : list A) a : l !! i = Some a -> alter f i l = <[i := f a]> l.
Proof. revert i. induction l as [|x l IH]; intros [|i] E; cbn in *; try done; [by injection E as ->|]. f_equal. by apply IH. Qed.

(** ** The invariant *)
Definition idle_vm (vm : stage2_vm) : Prop :=
  stage2_update_owner vm = 0 /\ cpu_affinity vm <> 0 /\ 0 <= s2_vm_id vm < ARM64_STAGE2_VMID_MASK.

Record s2_ok (w : s2_world) (l : list aspace) : Prop := {
  ok_pool : pool_ok (pool (s2_tables w));
  ok_spaces : Forall2 (fun vm a => idle_vm vm /\ s2_represents (root_stg2ptp vm) (s2_tables w) a) (s2_vms w) l;
  ok_disjoint : forall i j vm1 vm2 q, i <> j -> s2_vms w !! i = Some vm1 -> s2_vms w !! j = Some vm2 ->
    reach (mem (s2_tables w)) (root_stg2ptp vm1) q -> ~ reach (mem (s2_tables w)) (root_stg2ptp vm2) q;
}.

Lemma idle_sync vm s a : idle_vm vm -> s2_represents (root_stg2ptp vm) s a -> arm64_stage2_sync_translation vm 0 = Ret 0.
Proof.
  intros (_ & H1 & H2) Hr. apply root_nonzero in Hr. unfold arm64_stage2_sync_translation, arm64_stage2_invalidate_vm_tlb.
  rewrite (proj2 (Z.eqb_neq (root_stg2ptp vm) 0)), (proj2 (Z.eqb_neq (cpu_affinity vm) 0)) by lia. cbn [orb].
  unfold arm64_stage2_vttbr, arm64_stage2_vmid, ARM64_STAGE2_VMID_MASK in *. rewrite u64_small by (unfold in_u64; lia).
  rewrite (proj2 (Z.ltb_ge _ _)) by lia. done.
Qed.

Lemma idle_owner pcpu vm : idle_vm vm -> owner_free pcpu (fun _ => stage2_update_owner vm).
Proof.
  intros (H & _). exists 0%nat. rewrite H. split_and!; [|done|lia].
  assert (ARM64_STAGE2_OWNER_RETRIES = 10000) as -> by reflexivity. lia.
Qed.

(** An operation on one VM that keeps the pages of the others. *)
Lemma update_ok w l i vm a s' a' : s2_ok w l -> s2_vms w !! i = Some vm -> l !! i = Some a ->
  s2_represents (root_stg2ptp vm) s' a' -> frame (root_stg2ptp vm) (s2_tables w) s' ->
  s2_ok {| s2_vms := <[i := vm <| stage2_update_owner := 0 |>]> (s2_vms w); s2_tables := s' |} (<[i := a']> l).
Proof.
  intros [P F D] Hv Ha Hr Hf. pose proof (Forall2_length _ _ _ F) as Hlen. pose proof (lookup_lt_Some _ _ _ Hv) as Hi.
  assert (forall j vm2 a2, j <> i -> s2_vms w !! j = Some vm2 -> l !! j = Some a2 ->
    s2_represents (root_stg2ptp vm2) s' a2 /\
    (forall q, reach (mem s') (root_stg2ptp vm2) q <-> reach (mem (s2_tables w)) (root_stg2ptp vm2) q) /\
    (forall q, reach (mem s') (root_stg2ptp vm) q -> ~ reach (mem s') (root_stg2ptp vm2) q)) as Ho.
  { intros j vm2 a2 Hj Hv2 Ha2. destruct (Forall2_lookup_lr _ _ _ _ _ _ F Hv2 Ha2) as [_ R2].
    apply (other_root stage2_leaf_attrs _ _ a2 (s2_tables w)); [apply Hr|done| |done]. intros q. by apply (D i j vm vm2). }
  assert (forall j vm2, j <> i -> s2_vms w !! j = Some vm2 -> exists a2, l !! j = Some a2) as Hex.
  { intros j vm2 _ Hv2. apply lookup_lt_is_Some. rewrite <- Hlen. by eapply lookup_lt_Some. }
  constructor; cbn [s2_vms s2_tables].
  - apply Hr.
  - apply Forall2_same_length_lookup. split; [by rewrite !length_insert|]. intros j vm2 a2 E1 E2.
    destruct (decide (j = i)) as [->|Hj].
    + rewrite list_lookup_insert_eq in E1 by lia. rewrite list_lookup_insert_eq in E2 by lia. injection E1 as <-. injection E2 as <-. split; [|exact Hr].
      destruct (Forall2_lookup_lr _ _ _ _ _ _ F Hv Ha) as [(_ & H2 & H3) _]. done.
    + rewrite list_lookup_insert_ne in E1 by done. rewrite list_lookup_insert_ne in E2 by done. split; [apply (Forall2_lookup_lr _ _ _ _ _ _ F E1 E2)|]. by apply (Ho j vm2 a2).
  - intros j k vm1 vm2 q Hjk E1 E2 R1 R2.
    destruct (decide (j = i)) as [->|Hj]; [|destruct (decide (k = i)) as [->|Hk]].
    + rewrite list_lookup_insert_eq in E1 by lia. injection E1 as <-. rewrite list_lookup_insert_ne in E2 by done.
      destruct (Hex k vm2) as [a2 Ea]; [done..|]. by destruct (Ho k vm2 a2) as (_ & _ & H); [done..|apply (H q)].
    + rewrite list_lookup_insert_eq in E2 by lia. injection E2 as <-. rewrite list_lookup_insert_ne in E1 by done.
      destruct (Hex j vm1) as [a1 Ea]; [done..|]. by destruct (Ho j vm1 a1) as (_ & _ & H); [done..|apply (H q)].
    + rewrite list_lookup_insert_ne in E1 by done. rewrite list_lookup_insert_ne in E2 by done. destruct (Hex j vm1) as [a1 Ea1]; [done..|]. destruct (Hex k vm2) as [a2 Ea2]; [done..|].
      destruct (Ho j vm1 a1) as (_ & H1 & _); [done..|]. destruct (Ho k vm2 a2) as (_ & H2 & _); [done..|].
      apply H1 in R1. apply H2 in R2. by apply (D j k vm1 vm2 q).
Qed.

(** A new VM, whose tables are pages that were free. *)
Lemma boot_ok w l vm a s' : s2_ok w l -> idle_vm vm -> s2_represents (root_stg2ptp vm) s' a ->
  (forall q, allocated (pool (s2_tables w)) q -> allocated (pool s') q /\ ~ reach (mem s') (root_stg2ptp vm) q /\
    forall i, 0 <= i < 512 -> mload (mem s') (entry_ptr q i) = mload (mem (s2_tables w)) (entry_ptr q i)) ->
  s2_ok {| s2_vms := s2_vms w ++ [vm]; s2_tables := s' |} (l ++ [a]).
Proof.
  intros [P F D] Hid Hr Hk. pose proof (Forall2_length _ _ _ F) as Hlen.
  assert (forall vm2 a2 q, s2_represents (root_stg2ptp vm2) (s2_tables w) a2 -> reach (mem (s2_tables w)) (root_stg2ptp vm2) q ->
    allocated (pool (s2_tables w)) q) as Hal.
  { intros vm2 a2 q [W2 _] (d & va & ? & ? & ?). by eapply (wf_alloc _ _ _ W2). }
  assert (forall vm2 a2, s2_represents (root_stg2ptp vm2) (s2_tables w) a2 -> s2_represents (root_stg2ptp vm2) s' a2 /\
    (forall q, reach (mem s') (root_stg2ptp vm2) q <-> reach (mem (s2_tables w)) (root_stg2ptp vm2) q)) as Ho.
  { intros vm2 a2 R2. split.
    - apply (kept_represents _ _ (s2_tables w)); [apply R2|apply Hr| |done]. intros q Hq. by destruct (Hk q) as (? & _ & ?); [by eapply Hal|].
    - apply kept_reach. intros q Hq. by destruct (Hk q) as (? & _ & ?); [by eapply Hal|]. }
  assert (forall i vm2, s2_vms w !! i = Some vm2 -> exists a2, s2_represents (root_stg2ptp vm2) (s2_tables w) a2) as Hex.
  { intros i vm2 E. destruct (Forall2_lookup_l _ _ _ _ _ F E) as (a2 & _ & _ & R2). by exists a2. }
  assert (forall i vm2 q, s2_vms w !! i = Some vm2 -> reach (mem s') (root_stg2ptp vm) q -> ~ reach (mem s') (root_stg2ptp vm2) q) as Hd.
  { intros i vm2 q E R1 R2. destruct (Hex i vm2 E) as [a2 Ha2]. apply (Ho vm2 a2 Ha2) in R2. by destruct (Hk q) as (_ & H & _); [by eapply Hal|]. }
  constructor; cbn [s2_vms s2_tables].
  - apply Hr.
  - apply Forall2_app; [|constructor; [by split|constructor]]. eapply Forall2_impl; [exact F|]. intros vm2 a2 [H1 H2]. split; [done|]. by apply (Ho vm2 a2).
  - intros i j vm1 vm2 q Hij E1 E2 R1 R2.
    apply lookup_app_Some in E1 as [E1|[L1 E1]]; apply lookup_app_Some in E2 as [E2|[L2 E2]].
    + destruct (Hex i vm1 E1) as [a1 H1], (Hex j vm2 E2) as [a2 H2]. apply (Ho vm1 a1 H1) in R1. apply (Ho vm2 a2 H2) in R2.
      by apply (D i j vm1 vm2 q).
    + apply list_lookup_singleton_Some in E2 as [_ ->]. by apply (Hd i vm1 q).
    + apply list_lookup_singleton_Some in E1 as [_ ->]. by apply (Hd j vm2 q).
    + apply list_lookup_singleton_Some in E1 as [? ->]. apply list_lookup_singleton_Some in E2 as [? ->]. lia.
Qed.

(** ** Refinement *)
Lemma exec_ok words op w l : s2_ok w l -> s2_allowed words op l -> bitmap_size (pool (s2_tables w)) = words ->
  s2_cost op <= Z.of_nat (free_count (pool (s2_tables w))) ->
  exists w', s2_exec op w = Ret w' /\ s2_ok w' (s2_apply op l) /\ bitmap_size (pool (s2_tables w')) = words /\
    Z.of_nat (free_count (pool (s2_tables w))) <= Z.of_nat (free_count (pool (s2_tables w'))) + s2_cost op.
Proof.
  intros Hok Hal Hw Hc. pose proof Hok as [P F D].
  assert (forall i a, l !! i = Some a -> exists vm, s2_vms w !! i = Some vm /\ idle_vm vm /\ s2_represents (root_stg2ptp vm) (s2_tables w) a) as Hvm.
  { intros i a E. destruct (Forall2_lookup_r _ _ _ _ _ F E) as (vm & E1 & H1 & H2). by exists vm. }
  assert (forall s', pool_ok (pool s') -> (forall q, in_pool (pool s') q <-> in_pool (pool (s2_tables w)) q) -> bitmap_size (pool s') = words) as Hb.
  { intros s' P' H. by destruct (in_pool_same _ _ P P' H) as [_ ->]. }
  destruct op as [pcpu vm start size zp|pcpu i hpa ipa size flags|pcpu i ipa size]; cbn [s2_exec s2_apply s2_allowed s2_cost] in *.
  - destruct Hal as (A1 & A2 & A3 & A4 & A5).
    destruct (stage2_boot_ok pcpu 0 vm (s2_tables w) start size zp) as (root & s' & -> & R & N & I & K); [done..|].
    cbn [mbind outcome_bind]. eexists. split; [reflexivity|split; [|split; [|done]]].
    + by apply (boot_ok w l).
    + apply Hb; [apply R|done].
  - destruct Hal as (A1 & A2 & a & Ea & A3). destruct (Hvm i a Ea) as (vm & Ev & Hid & R). unfold on_vm. rewrite Ev.
    destruct (stage2_map_ok pcpu 0 vm (s2_tables w) a hpa ipa size flags (fun _ => stage2_update_owner vm)) as (s' & -> & R' & Fr & N); try done.
    + by apply idle_owner.
    + intros _. by eapply idle_sync.
    + cbn [mbind outcome_bind]. eexists. split; [reflexivity|split; [|split; [|done]]].
      * rewrite (alter_is_insert _ _ _ a) by done. by apply (update_ok w l i vm a).
      * apply Hb; [apply R'|apply Fr].
  - destruct Hal as (A1 & -> & Hi). destruct (lookup_lt_is_Some_2 l i Hi) as [a Ea]. destruct (Hvm i a Ea) as (vm & Ev & Hid & R).
    unfold on_vm. rewrite Ev.
    destruct (stage2_unmap_ok pcpu 0 vm (s2_tables w) a ipa size (fun _ => stage2_update_owner vm)) as (s' & -> & R' & Fr & N); try done.
    + by apply idle_owner.
    + by eapply idle_sync.
    + cbn [mbind outcome_bind]. eexists. split; [reflexivity|split; [|split; [|done]]].
      * rewrite (alter_is_insert _ _ _ a) by done. by apply (update_ok w l i vm a).
      * apply Hb; [apply R'|apply Fr].
Qed.

Lemma s2_cost_nonneg op : 0 <= s2_cost op.
Proof.
  destruct op; cbn [s2_cost]; [unfold boot_cost|apply tables_needed_pos|apply splits_needed_range].
  match goal with |- 0 <= 1 + ?x + ?y => assert (0 <= x /\ 0 <= y) as [? ?] by (split; apply tables_needed_pos); lia end.
Qed.

Lemma s2_costs_nonneg ops : 0 <= s2_costs ops.
Proof. unfold s2_costs. induction ops as [|op ops IH]; cbn [foldr]; [lia|]. pose proof (s2_cost_nonneg op). lia. Qed.

Lemma run_ok words : forall ops w l, s2_ok w l -> s2_all_allowed words ops l -> bitmap_size (pool (s2_tables w)) = words ->
  s2_costs ops <= Z.of_nat (free_count (pool (s2_tables w))) ->
  exists w', s2_run ops w = Ret w' /\ s2_ok w' (foldl (fun l op => s2_apply op l) l ops).
Proof.
  induction ops as [|op ops IH]; intros w l Hok Hal Hw Hc; cbn [s2_run foldl]; [by exists w|]. destruct Hal as [H1 H2].
  change (s2_costs (op :: ops)) with (s2_cost op + s2_costs ops) in Hc. pose proof (s2_cost_nonneg op). pose proof (s2_costs_nonneg ops).
  destruct (exec_ok words op w l Hok H1 Hw ltac:(lia)) as (w1 & -> & O1 & B1 & C1). cbn [mbind outcome_bind]. apply IH; [done..|lia].
Qed.


(** ** Example: two VMs of 512 MiB *)
Definition demo_history : list s2_op :=
  [S2Boot 0 (demo_vm 0) 0x40000000 0x20000000 0x42000000; S2Boot 0 (demo_vm 0) 0x60000000 0x20000000 0x42000000;
   S2Map 1 0 0x9000000 0x8000000 0x2000 7; S2Unmap 0 1 0x60010000 0x3000; S2Unmap 1 0 0x8000000 0x1000].

Lemma demo_windows : window_ok 0x40000000 0x40000000 0x20000000 /\ window_ok 0x60000000 0x60000000 0x20000000 /\
  window_ok 0x42000000 0 0x1000 /\ window_ok 0x9000000 0x8000000 0x2000 /\ window_ok 0x60010000 0x60010000 0x3000 /\
  window_ok 0x8000000 0x8000000 0x1000.
Proof. split_and!; closed_arith. Qed.

Lemma demo_history_allowed : s2_all_allowed 1 demo_history [].
Proof.
  destruct demo_windows as (W1 & W2 & W3 & W4 & W5 & W6).
  assert (0 <= s2_vm_id (demo_vm 0) < ARM64_STAGE2_VMID_MASK) as Hid by closed_arith.
  split; [split_and!; done|split; [split_and!; done|split; [split; [done|split]|split; [split; [done|]|split; [split; [done|]|done]]]]].
  - unfold flags_ok. rewrite !elem_of_cons. auto.
  - eexists. split; [reflexivity|]. intros va Hva. unfold boot_space, PAGE_SIZE. zb; cbn; try done; lia.
  - split; [done|cbn; lia].
  - split; [done|cbn; lia].
Qed.

