(* ===== verification/Stage2Walk.v ===== *)
(** * Queries of the stage-2 tables

    The read-only part of arch/arm64/guest/vm.c: the walk that copies the
    descriptors of one guest address, the query of its memory type, and the
    count of the table pages of a VM.  They run under the table lock of the VM. *)
From S2P Require Import Prelude Bits PagePool Pgtable PgtableInv PgtableOps Hooks AddressSpace Stage2.

(** [arm64_stage2_page_index]: [bitmap_test] gets the page number and the start of
    the bitmap, as in the source. *)
Definition arm64_stage2_page_index (page : Z) (p : page_pool) : option Z :=
  let pool_end := start_page p + 64 * bitmap_size p * PAGE_SIZE in
  if (page =? 0) || negb (Z.land page (PAGE_SIZE - 1) =? 0) || (page <? start_page p) || (pool_end <=? page) then None
  else
    let page_index := (page - start_page p) / PAGE_SIZE in
    if bitmap_test (u32 page_index) (bitmap p) 0 then Some page_index else None.

(** ** The walk of one address *)
Inductive arm64_stage2_walk_result := WALK_MAPPED | WALK_UNMAPPED | WALK_MALFORMED.

Record arm64_stage2_walk_step := { table_hpa : Z; descriptor : Z; index : Z; level : Z }.

(** [struct arm64_stage2_walk]; [step_count] is the length of [step]. *)
Record walk_snapshot := {
  step : list arm64_stage2_walk_step;
  vttbr : Z;
  ipa : Z;
  hpa : Z;
  walk_start : Z;
  walk_size : Z;
  leaf_level : Z;
  result : arm64_stage2_walk_result;
}.
#[export] Instance walk_snapshot_eta : Eta walk_snapshot := fun r =>
  {| step := step r; vttbr := vttbr r; ipa := ipa r; hpa := hpa r; walk_start := walk_start r; walk_size := walk_size r;
     leaf_level := leaf_level r; result := result r |}.

Definition arm64_stage2_walk_set_leaf (w : walk_snapshot) (level descriptor : Z) : option walk_snapshot :=
  let range_size := get_level_size level in
  let hpa_base := arch_pgtl_page_paddr descriptor in
  if (range_size =? 0) || (ARM64_STAGE2_ADDRESS_LIMIT <=? hpa_base) || (ARM64_STAGE2_ADDRESS_LIMIT - hpa_base <? range_size) then None
  else
    let offset := Z.land (ipa w) (range_size - 1) in
    if UINT64_MAX - hpa_base <? offset then None
    else Some (w <| leaf_level := level |> <| walk_size := range_size |>
                 <| walk_start := Z.land (ipa w) (not64 (range_size - 1)) |> <| hpa := hpa_base + offset |>
                 <| result := WALK_MAPPED |>).

Definition arm64_stage2_walk_child_table (descriptor : Z) (p : page_pool) : option Z :=
  let next := arch_pgtl_page_paddr descriptor in
  match arm64_stage2_page_index next p with Some _ => Some next | None => None end.

(** The loop of [arm64_stage2_walk] from [level] on; [n] levels are left below it. *)
Fixpoint walk_loop (n : nat) (lvl table : Z) (s : walk) (w : walk_snapshot) : walk_snapshot :=
  let index := pgtle_index lvl (ipa w) in
  let descriptor := load s (entry_ptr table index) in
  let w := w <| step := step w ++ [{| table_hpa := table; descriptor := descriptor; index := index; level := lvl |}] |>
             <| leaf_level := lvl |> in
  let malformed := w <| result := WALK_MALFORMED |> in
  if stage2_pgentry_present descriptor =? 0 then w <| result := WALK_UNMAPPED |>
  else
    let type := Z.land descriptor PAGE_DESC_TYPE_MASK in
    if lvl =? PGT_LVL0 then
      if negb (type =? PAGE_PAGE_DESC) then malformed
      else default malformed (arm64_stage2_walk_set_leaf w lvl descriptor)
    else if type =? PAGE_BLOCK_DESC then
      if lvl =? PGT_LVL3 then malformed else default malformed (arm64_stage2_walk_set_leaf w lvl descriptor)
    else if negb (type =? PAGE_TABLE_DESC) then malformed
    else
      match arm64_stage2_walk_child_table descriptor (pool s), n with
      | Some table, S n => walk_loop n (lvl + 1) table s w
      | _, _ => malformed
      end.

Definition walk_empty (ipa : Z) : walk_snapshot :=
  {| step := []; vttbr := 0; ipa := ipa; hpa := 0; walk_start := 0; walk_size := 0; leaf_level := 0; result := WALK_MALFORMED |}.

Definition arm64_stage2_walk (vm : stage2_vm) (ipa : Z) (s : walk) : outcome (Z * walk_snapshot) :=
  if ARM64_STAGE2_ADDRESS_LIMIT <=? ipa then Ret (- EINVAL, walk_empty ipa)
  else if root_stg2ptp vm =? 0 then Ret (- ENODEV, walk_empty ipa)
  else if negb (stage2_update_owner vm =? 0) then Ret (- EBUSY, walk_empty ipa)
  else
    match arm64_stage2_page_index (root_stg2ptp vm) (pool s) with
    | None => Ret (- EFAULT, walk_empty ipa)
    | Some _ =>
        v ← arm64_stage2_vttbr vm;
        Ret (0, walk_loop 3 PGT_LVL3 (root_stg2ptp vm) s ((walk_empty ipa) <| vttbr := v |>))
    end.

(** ** The memory type of an address *)
Inductive arm64_memory_type :=
  MEMORY_UNKNOWN | MEMORY_UNMAPPED | MEMORY_NORMAL | MEMORY_DEVICE_GRE | MEMORY_DEVICE_nGRE | MEMORY_DEVICE_nGnRE | MEMORY_DEVICE_nGnRnE.
Record arm64_memory_attr := { attr_type : arm64_memory_type; attr_encoding : Z }.

Definition arm64_stage2_memory_type (memattr : Z) : arm64_memory_type :=
  if memattr =? 0 then MEMORY_DEVICE_nGnRnE
  else if memattr =? Z.shiftl 1 2 then MEMORY_DEVICE_nGnRE
  else if memattr =? Z.shiftl 2 2 then MEMORY_DEVICE_nGRE
  else if memattr =? Z.shiftl 3 2 then MEMORY_DEVICE_GRE
  else MEMORY_NORMAL.

(** [None] stands for [false]. *)
Definition arm64_get_stage2_memory_attr (vm : stage2_vm) (pcpu smmu ipa : Z) (s : walk) : option arm64_memory_attr :=
  if (root_stg2ptp vm =? 0) || negb (stage2_update_owner vm =? 0) then None
  else
    match pgtable_lookup_entry (stage2_pgtable vm pcpu smmu) (root_stg2ptp vm) ipa s with
    | None => Some {| attr_type := MEMORY_UNMAPPED; attr_encoding := 0 |}
    | Some (entry, _) =>
        let memattr := Z.land (load s entry) PAGE_S2_MEMATTR_MASK in
        Some {| attr_type := arm64_stage2_memory_type memattr; attr_encoding := u8 (Z.shiftr memattr 2) |}
    end.

(** ** The count of table pages *)
Record arm64_stage2_vm_stats := { root_address : Z; level_pages : Z -> Z; stat_total : Z; malformed_entries : Z }.
#[export] Instance arm64_stage2_vm_stats_eta : Eta arm64_stage2_vm_stats := fun r =>
  {| root_address := root_address r; level_pages := level_pages r; stat_total := stat_total r; malformed_entries := malformed_entries r |}.

Record arm64_stage2_walk_context := { stats : arm64_stage2_vm_stats; visited : list Z }.

Definition count_malformed (c : arm64_stage2_walk_context) : arm64_stage2_walk_context :=
  {| stats := (stats c) <| malformed_entries := u64 (malformed_entries (stats c) + 1) |>; visited := visited c |}.

Definition count_page (lvl page_index : Z) (c : arm64_stage2_walk_context) : arm64_stage2_walk_context :=
  {| stats := {| root_address := root_address (stats c);
                 level_pages := fun l => if l =? lvl then u64 (level_pages (stats c) l + 1) else level_pages (stats c) l;
                 stat_total := u64 (stat_total (stats c) + 1); malformed_entries := malformed_entries (stats c) |};
     visited := bitmap_set_non_atomic (Z.land page_index 63) (visited c) (Z.shiftr page_index 6) |}.

Fixpoint arm64_stage2_count_table (n : nat) (s : walk) (c : arm64_stage2_walk_context) (table lvl : Z) : arm64_stage2_walk_context :=
  match arm64_stage2_page_index table (pool s) with
  | None => count_malformed c
  | Some page_index =>
      if bitmap_test (u32 page_index) (visited c) 0 then count_malformed c
      else
        let c := count_page lvl page_index c in
        match n with
        | O => c
        | S n =>
            foldl (fun c i =>
              let entry := load s (entry_ptr table i) in
              if (stage2_pgentry_present entry =? 0) || arch_pgtl_large entry then c
              else arm64_stage2_count_table n s c (page_addr entry) (lvl + 1)) c (seqZ 0 PTRS_PER_PGTL0E)
        end
  end.

Definition no_stats (root : Z) : arm64_stage2_vm_stats := {| root_address := root; level_pages := fun _ => 0; stat_total := 0; malformed_entries := 0 |}.

Definition arm64_get_stage2_vm_stats (vm : stage2_vm) (s : walk) : option arm64_stage2_vm_stats :=
  if (root_stg2ptp vm =? 0) || negb (stage2_update_owner vm =? 0) then None
  else
    let c := arm64_stage2_count_table 3 s {| stats := no_stats (root_stg2ptp vm); visited := replicate (Z.to_nat (bitmap_size (pool s))) 0 |}
               (root_stg2ptp vm) PGT_LVL3 in
    if negb (stat_total (stats c) =? 0) then Some (stats c) else None.

(** ** The walk against the translation *)
Lemma present0_ty e : stage2_pgentry_present e = 0 <-> ty e <> 1 /\ ty e <> 3.
Proof.
  unfold stage2_pgentry_present, PAGE_DESC_VALID. pose proof (ty_range e).
  assert (Z.land e 1 = Z.land (ty e) 1) as -> by (unfold ty; by rewrite <- Z.land_assoc).
  assert (ty e = 0 \/ ty e = 1 \/ ty e = 2 \/ ty e = 3) as [->|[->|[->| ->]]] by lia; cbn; intuition discriminate.
Qed.

Lemma set_leaf_hpa d w e w' : (d <= 3)%nat -> 0 <= ipa w -> arm64_stage2_walk_set_leaf w (Z.of_nat d) e = Some w' ->
  result w' = WALK_MAPPED /\ hpa w' = page_addr e + ipa w mod sz d /\ step w' = step w /\ ipa w' = ipa w.
Proof.
  intros Hd Hi. unfold arm64_stage2_walk_set_leaf. rewrite level_size by done. destruct (_ || _); [done|].
  assert (Z.land (ipa w) (sz d - 1) = ipa w mod sz d) as ->.
  { unfold sz. replace (2 ^ (39 - 9 * Z.of_nat d) - 1) with (Z.ones (39 - 9 * Z.of_nat d)) by (rewrite Z.ones_equiv; lia).
    by rewrite Z.land_ones by lia. }
  destruct (_ <? _); [done|]. by intros [= <-].
Qed.

(** A leaf of the output address space is accepted. *)
Lemma set_leaf_some d w e : (d <= 3)%nat -> va_ok (ipa w) -> page_addr e mod sz d = 0 ->
  is_Some (arm64_stage2_walk_set_leaf w (Z.of_nat d) e).
Proof.
  intros Hd Hi Ha. unfold arm64_stage2_walk_set_leaf. rewrite level_size by done. destruct (page_addr_ok e) as [Hp _].
  pose proof (sz_pos d Hd). destruct (sz_limit d Hd) as (k & Hk & El). change (arch_pgtl_page_paddr e) with (page_addr e).
  unfold ARM64_STAGE2_ADDRESS_LIMIT. change (Z.shiftl 1 48) with VA_LIMIT. change (2 ^ 48) with VA_LIMIT in Hp.
  assert (page_addr e + sz d <= VA_LIMIT) as Hfit.
  { apply Z.mod_divide in Ha as [j Ej]; [|lia]. rewrite Ej, El in *. assert (j < k) by nia. nia. }
  rewrite (proj2 (Z.eqb_neq (sz d) 0)), (proj2 (Z.leb_gt VA_LIMIT _)), (proj2 (Z.ltb_ge _ (sz d))) by lia. cbn [orb].
  rewrite (proj2 (Z.ltb_ge _ _)); [by eexists|].
  unfold sz. replace (2 ^ (39 - 9 * Z.of_nat d) - 1) with (Z.ones (39 - 9 * Z.of_nat d)) by (rewrite Z.ones_equiv; lia).
  rewrite Z.land_ones by lia. pose proof (Z.mod_pos_bound (ipa w) (2 ^ (39 - 9 * Z.of_nat d)) ltac:(unfold sz in *; lia)).
  fold (sz d) in *. unfold VA_LIMIT in *. lia.
Qed.

(** Whatever the walk reports of an address is what the hardware does with it,
    also for tables that are not well formed. *)
Definition reported (w : walk_snapshot) (x : option (Z * Z)) : Prop :=
  match result w with
  | WALK_MAPPED => exists st, last (step w) = Some st /\ x = Some (hpa w, attrs (descriptor st))
  | WALK_UNMAPPED => x = None
  | WALK_MALFORMED => True
  end.

Lemma leaf_reported d w e st : (d <= 3)%nat -> 0 <= ipa w -> last (step w) = Some st -> descriptor st = e ->
  reported (default (w <| result := WALK_MALFORMED |>) (arm64_stage2_walk_set_leaf w (Z.of_nat d) e))
    (Some (page_addr e + ipa w mod sz d, attrs e)).
Proof.
  intros Hd Hi Hst <-. destruct (arm64_stage2_walk_set_leaf _ _ _) as [w'|] eqn:E; [|done]. change (default _ (Some w')) with w'.
  destruct (set_leaf_hpa d w _ w' Hd Hi E) as (E1 & E2 & E3 & _). unfold reported. rewrite E1, E2, E3. by exists st.
Qed.

Lemma walk_loop_sound : forall n d table s w, (n + d = 3)%nat -> 0 <= ipa w ->
  reported (walk_loop n (Z.of_nat d) table s w) (xl (mem s) n d table (ipa w)).
Proof.
  induction n as [|n IH]; intros d table s w Hd Hi; cbn [walk_loop xl]; rewrite level_index by lia;
    change (entry_ptr table (slot d (ipa w) mod 512)) with (at_slot table d (ipa w)); unfold load;
    set (e := mload (mem s) (at_slot table d (ipa w))); change (Z.land e PAGE_DESC_TYPE_MASK) with (ty e);
    set (st := {| table_hpa := _ |}); set (w1 := (w <| step := _ |>) <| leaf_level := _ |>);
    assert (last (step w1) = Some st) as Hst by (by apply last_snoc);
    unfold PAGE_PAGE_DESC, PAGE_BLOCK_DESC, PAGE_TABLE_DESC.
  - assert (d = 3)%nat as -> by lia. cbn [leaf_ty Nat.eqb]. change (Z.of_nat 3 =? PGT_LVL0) with true. cbn iota.
    destruct (Z.eqb_spec (stage2_pgentry_present e) 0) as [[H1 H3]%present0_ty|Hpr]; [by rewrite (proj2 (Z.eqb_neq _ _) H3)|].
    destruct (Z.eqb_spec (ty e) 3) as [E3|]; [|done]. by apply (leaf_reported 3 w1 e st ltac:(lia)).
  - unfold leaf_ty. rewrite (proj2 (Nat.eqb_neq d 3)) by lia.
    assert (Z.of_nat d =? PGT_LVL0 = false) as -> by (apply Z.eqb_neq; unfold PGT_LVL0; lia).
    destruct (Z.eqb_spec (stage2_pgentry_present e) 0) as [[H1 H3]%present0_ty|Hpr].
    { by rewrite (proj2 (Z.eqb_neq _ _) H1), (proj2 (Z.eqb_neq _ _) H3). }
    destruct (Z.eqb_spec (ty e) 1) as [E1|]; [destruct (_ =? _); [done|]; by apply (leaf_reported d w1 e st ltac:(lia))|].
    destruct (Z.eqb_spec (ty e) 3) as [E3|]; [|done]. cbn [negb]. unfold arm64_stage2_walk_child_table.
    destruct (arm64_stage2_page_index _ _); [|done]. replace (Z.of_nat d + 1) with (Z.of_nat (S d)) by lia.
    by apply (IH (S d) _ s w1); [lia|].
Qed.

(** The pool bit of every allocated page is found. *)
Definition indexable (p : page_pool) : Prop := forall q, allocated p q -> is_Some (arm64_stage2_page_index q p).

Lemma bit_nr_mod x : bit_nr x = x mod 64.
Proof.
  unfold bit_nr, u32. change 63 with (Z.ones 6). rewrite Z.land_ones by lia. change (2 ^ 6) with 64. mlia.
Qed.

Lemma page_index_test p q : pool_ok p -> in_pool p q ->
  arm64_stage2_page_index q p = if Z.testbit (word (bitmap p) 0) (page_id p q mod 64) then Some (page_id p q) else None.
Proof.
  intros P Hq. destruct (page_id_range p q P Hq) as [Hid _]. destruct P as (Hb & _ & _ & Hs & Ha & Hl & _), Hq as [Hq Hqa].
  unfold arm64_stage2_page_index. change (PAGE_SIZE - 1) with (Z.ones 12). rewrite Z.land_ones by lia. change (2 ^ 12) with PAGE_SIZE.
  rewrite Hqa, (proj2 (Z.eqb_neq q 0)), (proj2 (Z.ltb_ge q _)), (proj2 (Z.leb_gt _ q)) by lia. cbn [Z.eqb negb orb].
  fold (page_id p q). rewrite bitmap_test_spec, bit_nr_mod. replace (u32 (page_id p q) mod 64) with (page_id p q mod 64); [done|].
  unfold u32. mlia.
Qed.

(** This is so when the bitmap is one word, or when its first word is full. *)
Lemma indexable_one_word p : pool_ok p -> bitmap_size p = 1 -> indexable p.
Proof.
  intros P H1 q [Hq Hb]. rewrite page_index_test by done. destruct (page_id_range p q P Hq) as [Hid _]. rewrite H1 in Hid.
  unfold page_bit in Hb. rewrite Z.div_small in Hb by lia. rewrite Hb. by eexists.
Qed.

Lemma indexable_full p : pool_ok p -> word (bitmap p) 0 = UINT64_MAX -> indexable p.
Proof.
  intros P H1 q [Hq Hb]. rewrite page_index_test, H1 by done. pose proof (Z.mod_pos_bound (page_id p q) 64).
  change UINT64_MAX with (Z.ones 64). rewrite Z.ones_spec_low by lia. by eexists.
Qed.

Lemma leaf_mapped d w e : (d <= 3)%nat -> va_ok (ipa w) -> page_addr e mod sz d = 0 ->
  result (default (w <| result := WALK_MALFORMED |>) (arm64_stage2_walk_set_leaf w (Z.of_nat d) e)) = WALK_MAPPED.
Proof.
  intros Hd Hi Ha. destruct (set_leaf_some d w e Hd Hi Ha) as [w' E]. rewrite E. change (default _ (Some w')) with w'.
  apply (set_leaf_hpa d w e w' Hd); [apply Hi|done].
Qed.

Lemma walk_loop_complete root s : wf stage2_leaf_attrs root s -> indexable (pool s) ->
  forall n d table w, (n + d = 3)%nat -> va_ok (ipa w) -> tbl (mem s) root d (ipa w) = Some table ->
  result (walk_loop n (Z.of_nat d) table s w) <> WALK_MALFORMED.
Proof.
  intros W Hx. induction n as [|n IH]; intros d table w Hd Hi Ht;
    destruct (wf_ent _ _ _ W d (ipa w) table ltac:(lia) Hi Ht) as (_ & Hblk & Hleaf); cbn [walk_loop]; rewrite level_index by lia;
    change (entry_ptr table (slot d (ipa w) mod 512)) with (at_slot table d (ipa w)); unfold load;
    set (e := mload (mem s) (at_slot table d (ipa w))) in *; change (Z.land e PAGE_DESC_TYPE_MASK) with (ty e);
    set (w1 := (w <| step := _ |>) <| leaf_level := _ |>); unfold PAGE_PAGE_DESC, PAGE_BLOCK_DESC, PAGE_TABLE_DESC.
  - assert (d = 3)%nat as -> by lia. change (Z.of_nat 3 =? PGT_LVL0) with true. cbn iota.
    destruct (Z.eqb_spec (stage2_pgentry_present e) 0) as [|Hpr]; [done|]. destruct (Z.eqb_spec (ty e) 3) as [E3|N3]; cbn [negb].
    + rewrite leaf_mapped; [done|lia|done|]. by apply Hleaf.
    + exfalso. apply Hpr, present0_ty. split; [|done]. intros E1. destruct (Hblk E1); lia.
  - assert (Z.of_nat d =? PGT_LVL0 = false) as -> by (apply Z.eqb_neq; unfold PGT_LVL0; lia).
    assert (leaf_ty d = 1) as Hl by (unfold leaf_ty; by rewrite (proj2 (Nat.eqb_neq d 3)) by lia). rewrite Hl in Hleaf.
    destruct (Z.eqb_spec (stage2_pgentry_present e) 0) as [|Hpr]; [done|].
    destruct (Z.eqb_spec (ty e) 1) as [E1|N1].
    { assert (Z.of_nat d =? PGT_LVL3 = false) as -> by (apply Z.eqb_neq; unfold PGT_LVL3; destruct (Hblk E1); lia).
      rewrite leaf_mapped; [done|lia|done|]. by apply Hleaf. }
    destruct (Z.eqb_spec (ty e) 3) as [E3|N3]; [|by destruct Hpr; apply present0_ty]. cbn [negb].
    assert (tbl (mem s) root (S d) (ipa w) = Some (page_addr e)) as Ht' by (cbn; rewrite Ht; fold e; by rewrite E3).
    unfold arm64_stage2_walk_child_table. destruct (Hx _ (wf_alloc _ _ _ W (S d) _ _ ltac:(lia) Hi Ht')) as [id Eid].
    change (arch_pgtl_page_paddr e) with (page_addr e). rewrite Eid. replace (Z.of_nat d + 1) with (Z.of_nat (S d)) by lia.
    by apply (IH (S d) (page_addr e) w1); [lia|..].
Qed.

(** A walk that reports success reports the translation. *)
Lemma stage2_walk_sound vm va s w : 0 <= va -> arm64_stage2_walk vm va s = Ret (0, w) ->
  reported w (xlate (mem s) (root_stg2ptp vm) va).
Proof.
  intros Hva E. unfold arm64_stage2_walk in E. destruct (_ <=? _); [done|]. destruct (_ =? _); [done|]. destruct (negb _); [done|].
  destruct (arm64_stage2_page_index _ _); [|done]. inv_ret. simplify_eq.
  exact (walk_loop_sound 3 0 (root_stg2ptp vm) s ((walk_empty va) <| vttbr := r |>) eq_refl Hva).
Qed.

(** Which walks report success. *)
Lemma stage2_walk_reports vm s va : wf stage2_leaf_attrs (root_stg2ptp vm) s -> indexable (pool s) ->
  stage2_update_owner vm = 0 -> 0 <= s2_vm_id vm < ARM64_STAGE2_VMID_MASK -> va_ok va ->
  exists w, arm64_stage2_walk vm va s = Ret (0, w) /\ result w <> WALK_MALFORMED /\ reported w (xlate (mem s) (root_stg2ptp vm) va).
Proof.
  intros W Hx Ho Hid Hva. assert (allocated (pool s) (root_stg2ptp vm)) as Hroot by (by apply (wf_alloc _ _ _ W 0 va); [lia|..]).
  destruct (Hx _ Hroot) as [id Eid]. assert (root_stg2ptp vm <> 0) as Hr0.
  { destruct (wf_pool _ _ _ W) as (_ & _ & _ & ? & _), Hroot as [[? _] _]. lia. }
  assert (exists w, arm64_stage2_walk vm va s = Ret (0, w) /\ result w <> WALK_MALFORMED) as (w & E & Hm).
  { unfold arm64_stage2_walk, arm64_stage2_vttbr, arm64_stage2_vmid, ARM64_STAGE2_VMID_MASK in *.
    change ARM64_STAGE2_ADDRESS_LIMIT with VA_LIMIT. rewrite (proj2 (Z.leb_gt VA_LIMIT va)) by (unfold va_ok in *; lia).
    rewrite (proj2 (Z.eqb_neq _ 0) Hr0), Ho, Eid, u64_small, (proj2 (Z.ltb_ge _ _)) by (unfold in_u64; lia). cbn.
    eexists. split; [done|]. exact (walk_loop_complete _ s W Hx 3 0 _ ((walk_empty va) <| vttbr := _ |>) eq_refl Hva eq_refl). }
  exists w. split; [done|]. split; [done|]. apply (stage2_walk_sound _ _ _ _ (proj1 Hva) E).
Qed.

(** C35: The walk of a guest address in the stage-2 tables of an idle VM succeeds and
    agrees with the hardware: it reports the output address and the attributes of
    the leaf exactly when the address is mapped, and that it is unmapped otherwise.
    The pool bits must be found, see [indexable]. *)
Theorem stage2_walk_exact vm s va : wf stage2_leaf_attrs (root_stg2ptp vm) s -> indexable (pool s) ->
  stage2_update_owner vm = 0 -> 0 <= s2_vm_id vm < ARM64_STAGE2_VMID_MASK -> va_ok va ->
  exists w, arm64_stage2_walk vm va s = Ret (0, w) /\
    match xlate (mem s) (root_stg2ptp vm) va with
    | Some (pa, a) => result w = WALK_MAPPED /\ hpa w = pa /\ exists st, last (step w) = Some st /\ attrs (descriptor st) = a
    | None => result w = WALK_UNMAPPED
    end.
Proof.
  intros W Hx Ho Hid Hva. destruct (stage2_walk_reports vm s va W Hx Ho Hid Hva) as (w & E & Hm & Hr). exists w. split; [done|].
  unfold reported in Hr. destruct (result w) eqn:Er; [|by rewrite Hr|done]. destruct Hr as (st & Hst & ->). by eauto.
Qed.

Lemma attrs_memattr e : Z.land (attrs e) PAGE_S2_MEMATTR_MASK = Z.land e PAGE_S2_MEMATTR_MASK.
Proof. unfold attrs. by rewrite <- Z.land_assoc. Qed.

(** The memory type that is reported is that of the translation. *)
Lemma stage2_memory_attr_exact vm pcpu smmu s va : wf stage2_leaf_attrs (root_stg2ptp vm) s -> stage2_update_owner vm = 0 -> va_ok va ->
  arm64_get_stage2_memory_attr vm pcpu smmu va s =
    Some match xlate (mem s) (root_stg2ptp vm) va with
         | Some (_, a) => let memattr := Z.land a PAGE_S2_MEMATTR_MASK in
             {| attr_type := arm64_stage2_memory_type memattr; attr_encoding := u8 (Z.shiftr memattr 2) |}
         | None => {| attr_type := MEMORY_UNMAPPED; attr_encoding := 0 |}
         end.
Proof.
  intros W Ho Hva. pose proof (lookup_entry_xlate (stage2_pgtable vm pcpu smmu) stage2_leaf_attrs _ s va W Hva) as Hl.
  unfold arm64_get_stage2_memory_attr. assert (root_stg2ptp vm <> 0) as Hr.
  { destruct (wf_pool _ _ _ W) as (_ & _ & _ & ? & _), (wf_alloc _ _ _ W 0 va _ ltac:(lia) Hva eq_refl) as [[? _] _]. lia. }
  rewrite (proj2 (Z.eqb_neq _ 0) Hr), Ho. cbn [Z.eqb negb orb].
  destruct (pgtable_lookup_entry _ _ _ _) as [[entry size]|]; rewrite Hl; [|done]. cbn zeta. by rewrite attrs_memattr.
Qed.

(** ** The count against the tables *)

(** The table pages from page [p] of level [d] on, with their levels. *)
Fixpoint below (m : memory) (n d : nat) (p : Z) : list (nat * Z) :=
  (d, p) :: match n with
            | O => []
            | S n => seqZ 0 512 ≫= fun i => let e := mload m (entry_ptr p i) in if ty e =? 3 then below m n (S d) (page_addr e) else []
            end.

(** An address of slot [i] in the region of [va]. *)
Lemma slot_addr d va i : (d <= 3)%nat -> va_ok va -> 0 <= i < 512 ->
  exists va', va_ok va' /\ region d va' = region d va /\ slot d va' mod 512 = i.
Proof.
  intros Hd Hva Hi. pose proof (slot_region d va Hd Hva) as Es. pose proof (sz_pos d Hd). set (k := 512 * region d va + i).
  assert (0 <= region d va) as Hr.
  { destruct d as [|d]; cbn; [lia|]. unfold slot. pose proof (sz_pos d ltac:(lia)). apply Z.div_pos; [apply Hva|lia]. }
  assert (slot d (k * sz d) = k) as Ek by (unfold slot; apply Z.div_mul; lia).
  exists (k * sz d). split; [|split].
  - assert (VA_LIMIT = 512 * 2 ^ (9 * Z.of_nat d) * sz d) as El.
    { unfold VA_LIMIT, sz. change 512 with (2 ^ 9). rewrite <- !Z.pow_add_r by lia. f_equal. lia. }
    pose proof (slot_bounds d va Hd). pose proof (slot_mod d va). unfold va_ok in *. rewrite El in *.
    assert (slot d va < 512 * 2 ^ (9 * Z.of_nat d)) by nia.
    assert (0 <= k < 512 * 2 ^ (9 * Z.of_nat d)) by lia. clearbody k. clear -H H3. nia.
  - destruct d as [|d]; [done|]. cbn [region]. rewrite slot_S, Ek by lia. unfold k. cbn [region].
    rewrite Z.add_comm, Z.mul_comm, Z.div_add, Z.div_small by lia. lia.
  - rewrite Ek. unfold k. rewrite Z.add_comm, Z.mul_comm, Z.mod_add, Z.mod_small by lia. done.
Qed.

Section Count.
Context (root : Z) (s : walk).
Hypothesis W : wf stage2_leaf_attrs root s.

(** The child of entry [i] of a table. *)
Lemma child_tbl d va p i : (d < 3)%nat -> va_ok va -> tbl (mem s) root d va = Some p -> 0 <= i < 512 ->
  ty (mload (mem s) (entry_ptr p i)) = 3 -> exists va', va_ok va' /\ region d va' = region d va /\ slot d va' mod 512 = i /\
  tbl (mem s) root (S d) va' = Some (page_addr (mload (mem s) (entry_ptr p i))).
Proof.
  intros Hd Hva Hp Hi Et. destruct (slot_addr d va i ltac:(lia) Hva Hi) as (va' & V & R & M). exists va'. split_and!; try done; [apply V..|].
  cbn. rewrite (tbl_region _ _ d va' va), Hp by (lia || done). unfold at_slot. rewrite M, Et. done.
Qed.

Lemma below_tbl : forall n d p va e q, (n + d = 3)%nat -> va_ok va -> tbl (mem s) root d va = Some p -> (e, q) ∈ below (mem s) n d p ->
  (d <= e <= 3)%nat /\ exists va', va_ok va' /\ region d va' = region d va /\ tbl (mem s) root e va' = Some q.
Proof.
  induction n as [|n IH]; intros d p va e q Hd Hva Hp; cbn [below]; rewrite elem_of_cons; intros [[= -> ->]|Hin];
    try (split; [lia|]; by exists va); [by apply not_elem_of_nil in Hin|].
  apply list_elem_of_bind in Hin as (i & Hin & Hi%elem_of_seqZ). cbn zeta in Hin. destruct (Z.eqb_spec (ty (mload (mem s) (entry_ptr p i))) 3) as [Et|]; [|by apply not_elem_of_nil in Hin].
  destruct (child_tbl d va p i ltac:(lia) Hva Hp ltac:(lia) Et) as (va1 & V1 & R1 & M1 & T1).
  destruct (IH (S d) _ va1 e q ltac:(lia) V1 T1 Hin) as (Hle & va2 & V2 & R2 & T2). split; [lia|]. exists va2. split_and!; try done; [apply V2..|].
  rewrite <- R1. apply slot_eq_region; [lia|done].
Qed.

Lemma tbl_below : forall n d p va e va' q, (n + d = 3)%nat -> (d <= e <= 3)%nat -> tbl (mem s) root d va = Some p ->
  region d va' = region d va -> tbl (mem s) root e va' = Some q -> (e, q) ∈ below (mem s) n d p.
Proof.
  induction n as [|n IH]; intros d p va e va' q Hd He Hp Hr Hq; cbn [below]; rewrite elem_of_cons;
    (destruct (decide (e = d)) as [->|Hne]; [left; rewrite (tbl_region _ _ d va' va) in Hq by (lia || done); congruence|]); [lia|]. right.
  destruct (tbl_le _ _ (S d) e va' q ltac:(lia) Hq) as [p' Hp']. pose proof Hp' as (p1 & E1 & Et & Ep)%tbl_S.
  rewrite (tbl_region _ _ d va' va), Hp in E1 by (lia || done). injection E1 as <-. apply list_elem_of_bind. exists (slot d va' mod 512). cbn zeta.
  unfold at_slot in Et, Ep. rewrite Et, Ep, Z.eqb_refl. split; [by apply (IH (S d) p' va' e va' q ltac:(lia) ltac:(lia))|].
  apply elem_of_seqZ. pose proof (slot_mod d va'). lia.
Qed.

Lemma below_NoDup : forall n d p va, (n + d = 3)%nat -> va_ok va -> tbl (mem s) root d va = Some p -> NoDup (below (mem s) n d p).
Proof.
  induction n as [|n IH]; intros d p va Hd Hva Hp; cbn [below]; (apply NoDup_cons; split); [by apply not_elem_of_nil|by constructor|..].
  - intros (i & Hin & Hi%elem_of_seqZ)%list_elem_of_bind. cbn zeta in Hin.
    destruct (Z.eqb_spec (ty (mload (mem s) (entry_ptr p i))) 3) as [Et|]; [|by apply not_elem_of_nil in Hin].
    destruct (child_tbl d va p i ltac:(lia) Hva Hp ltac:(lia) Et) as (va1 & V1 & _ & _ & T1).
    destruct (below_tbl n (S d) _ va1 _ _ ltac:(lia) V1 T1 Hin) as (? & _). lia.
  - assert (forall i e q, (e, q) ∈ (if ty (mload (mem s) (entry_ptr p i)) =? 3 then below (mem s) n (S d) (page_addr (mload (mem s) (entry_ptr p i))) else []) ->
      0 <= i < 512 -> exists va2, va_ok va2 /\ slot d va2 mod 512 = i /\ tbl (mem s) root e va2 = Some q /\ (S d <= e <= 3)%nat) as Hchild.
    { intros i e q Hin Hi. destruct (Z.eqb_spec (ty (mload (mem s) (entry_ptr p i))) 3) as [Et|]; [|by apply not_elem_of_nil in Hin].
      destruct (child_tbl d va p i ltac:(lia) Hva Hp Hi Et) as (va1 & V1 & _ & <- & T1).
      destruct (below_tbl n (S d) _ va1 _ _ ltac:(lia) V1 T1 Hin) as (He & va2 & V2 & R2 & T2). exists va2. cbn in R2. rewrite R2. done. }
    apply NoDup_bind.
    + intros i1 i2 [e q] H1%elem_of_seqZ H2%elem_of_seqZ Hin1 Hin2. cbn zeta in *.
      destruct (Hchild i1 e q Hin1 ltac:(lia)) as (v1 & V1 & <- & T1 & He), (Hchild i2 e q Hin2 ltac:(lia)) as (v2 & V2 & <- & T2 & _).
      destruct (wf_inj _ _ _ W e e v1 v2 q ltac:(lia) ltac:(lia) V1 V2 T1 T2) as [_ R]. destruct e as [|e]; [lia|]. cbn in R.
      by rewrite (slot_coarser d e v1 v2) by (lia || done).
    + intros i Hi%elem_of_seqZ. cbn zeta. destruct (Z.eqb_spec (ty (mload (mem s) (entry_ptr p i))) 3) as [Et|]; [|by constructor].
      destruct (child_tbl d va p i ltac:(lia) Hva Hp ltac:(lia) Et) as (va1 & V1 & _ & _ & T1). by apply (IH (S d) _ va1); [lia|..].
    + apply NoDup_seqZ.
Qed.

(** All tables, each once. *)
Definition table_pages : list (nat * Z) := below (mem s) 3 0 root.

Lemma table_pages_reach q : q ∈ snd <$> table_pages <-> reach (mem s) root q.
Proof.
  assert (va_ok 0) as H0 by (unfold va_ok, VA_LIMIT; lia). rewrite list_elem_of_fmap. split.
  - intros ((e & q') & -> & Hin). destruct (below_tbl 3 0 root 0 e q' eq_refl H0 eq_refl Hin) as (He & va & V & _ & T). exists e, va. split_and!; [lia|apply V..|done].
  - intros (e & va & He & V & T). exists (e, q). split; [done|]. by apply (tbl_below 3 0 root 0 e va); [|lia|..].
Qed.

Lemma below_pages_NoDup n d p va : (n + d = 3)%nat -> va_ok va -> tbl (mem s) root d va = Some p -> NoDup (snd <$> below (mem s) n d p).
Proof.
  intros Hd Hva Hp. apply NoDup_fmap_2_strong; [|by apply (below_NoDup n d p va)].
  intros [e1 q1] [e2 q2] H1 H2. cbn. intros ->. destruct (below_tbl n d p va _ _ Hd Hva Hp H1) as (He1 & v1 & V1 & _ & T1).
  destruct (below_tbl n d p va _ _ Hd Hva Hp H2) as (He2 & v2 & V2 & _ & T2).
  by destruct (wf_inj _ _ _ W e1 e2 v1 v2 q2 ltac:(lia) ltac:(lia) V1 V2 T1 T2) as [-> _].
Qed.

(** *** The traversal

    With a bitmap of one word it marks every page it counts. *)
Hypothesis One : bitmap_size (pool s) = 1.

Definition marked (c : arm64_stage2_walk_context) (q : Z) : bool := Z.testbit (word (visited c) 0) (page_id (pool s) q mod 64).
Definition count_all (L : list (nat * Z)) (c : arm64_stage2_walk_context) : arm64_stage2_walk_context :=
  foldl (fun c x => count_page (Z.of_nat x.1) (page_id (pool s) x.2) c) c L.

Lemma page_id_64 q : in_pool (pool s) q -> 0 <= page_id (pool s) q < 64.
Proof. intros H. destruct (page_id_range _ _ (wf_pool _ _ _ W) H) as [? _]. lia. Qed.

Lemma page_id_inj p q : in_pool (pool s) p -> in_pool (pool s) q -> page_id (pool s) p = page_id (pool s) q -> p = q.
Proof.
  intros Hp Hq E. destruct (page_id_range _ _ (wf_pool _ _ _ W) Hp) as [_ ->], (page_id_range _ _ (wf_pool _ _ _ W) Hq) as [_ ->]. congruence.
Qed.

Lemma count_page_marked lvl p q c : length (visited c) = 1%nat -> in_pool (pool s) p -> in_pool (pool s) q -> p <> q ->
  marked (count_page lvl (page_id (pool s) p) c) q = marked c q.
Proof.
  intros Hlen Hp Hq Hne. pose proof (page_id_64 p Hp). pose proof (page_id_64 q Hq). unfold marked, count_page. cbn [visited].
  rewrite Z.shiftr_div_pow2, Z.div_small by lia. rewrite set_bits by mlia. rewrite bit_nr_mod.
  change (Z.land _ 63) with (Z.land (page_id (pool s) p) (Z.ones 6)). rewrite Z.land_ones by lia. change (2 ^ 6) with 64. rewrite Z.mod_mod, !Z.mod_small by lia.
  rewrite (proj2 (Z.eqb_neq _ _)); [by rewrite orb_false_r|]. intros E. by apply Hne, page_id_inj.
Qed.

Lemma count_page_length lvl id c : length (visited (count_page lvl id c)) = length (visited c).
Proof. unfold count_page, bitmap_set_non_atomic. cbn. apply set_word_length. Qed.

Lemma count_all_length L c : length (visited (count_all L c)) = length (visited c).
Proof. unfold count_all. revert c. induction L as [|x L IH]; intros c; [done|]. cbn. by rewrite IH, count_page_length. Qed.

Lemma count_all_marked L c q : length (visited c) = 1%nat -> in_pool (pool s) q -> (forall x, x ∈ L -> in_pool (pool s) x.2 /\ x.2 <> q) ->
  marked (count_all L c) q = marked c q.
Proof.
  unfold count_all. revert c. induction L as [|x L IH]; intros c Hl Hq HL; [done|]. cbn. destruct (HL x (list_elem_of_here _ _)).
  rewrite IH; [|by rewrite count_page_length|done|intros y Hy; apply HL; by right]. by apply count_page_marked.
Qed.

Lemma below_in_pool n d p va x : (n + d = 3)%nat -> va_ok va -> tbl (mem s) root d va = Some p -> x ∈ below (mem s) n d p -> in_pool (pool s) x.2.
Proof.
  intros Hd Hva Hp Hx. destruct x as [e q]. destruct (below_tbl n d p va e q Hd Hva Hp Hx) as (He & va' & V & _ & T).
  by destruct (wf_alloc _ _ _ W e va' q ltac:(lia) V T).
Qed.

Lemma not_table e : (stage2_pgentry_present e =? 0) || arch_pgtl_large e = negb (ty e =? 3).
Proof.
  unfold arch_pgtl_large. fold (stage2_pgentry_present e). change (Z.land e PAGE_DESC_TYPE_MASK) with (ty e). unfold PAGE_BLOCK_DESC.
  destruct (Z.eqb_spec (stage2_pgentry_present e) 0) as [[H1 H3]%present0_ty|Hpr]; [by rewrite (proj2 (Z.eqb_neq _ _) H3)|].
  destruct (Z.eqb_spec (ty e) 1) as [->|H1]; [done|]. destruct (Z.eqb_spec (ty e) 3) as [|H3]; [done|]. by destruct Hpr; apply present0_ty.
Qed.

(** The loop over the entries of page [p], when the tables below are counted right. *)
Lemma count_entries n d p va : (S n + d = 3)%nat -> va_ok va -> tbl (mem s) root d va = Some p ->
  (forall p' va' c, va_ok va' -> tbl (mem s) root (S d) va' = Some p' -> length (visited c) = 1%nat ->
    (forall x, x ∈ below (mem s) n (S d) p' -> marked c x.2 = false) ->
    arm64_stage2_count_table n s c p' (Z.of_nat (S d)) = count_all (below (mem s) n (S d) p') c) ->
  let f i := let e := mload (mem s) (entry_ptr p i) in if ty e =? 3 then below (mem s) n (S d) (page_addr e) else [] in
  forall l c, (forall i, i ∈ l -> 0 <= i < 512) -> NoDup (snd <$> (l ≫= f)) -> length (visited c) = 1%nat ->
  (forall x, x ∈ l ≫= f -> marked c x.2 = false) ->
  foldl (fun c i => let entry := load s (entry_ptr p i) in
    if (stage2_pgentry_present entry =? 0) || arch_pgtl_large entry then c
    else arm64_stage2_count_table n s c (page_addr entry) (Z.of_nat d + 1)) c l = count_all (l ≫= f) c.
Proof.
  intros Hd Hva Hp IH f. replace (Z.of_nat d + 1) with (Z.of_nat (S d)) by lia. induction l as [|i l IHl]; intros c Hl Hnd Hlen Hm; [done|].
  cbn [foldl]. rewrite bind_cons in *. rewrite not_table. change (load s (entry_ptr p i)) with (mload (mem s) (entry_ptr p i)).
  rewrite fmap_app in Hnd. apply NoDup_app in Hnd as (_ & Hdisj & Hnd). assert (0 <= i < 512) as Hi by (apply Hl; by left).
  unfold f at 1. cbn zeta. destruct (Z.eqb_spec (ty (mload (mem s) (entry_ptr p i))) 3) as [Et|Hne]; cbn [negb].
  - destruct (child_tbl d va p i ltac:(lia) Hva Hp Hi Et) as (va1 & V1 & _ & _ & T1).
    assert (f i = below (mem s) n (S d) (page_addr (mload (mem s) (entry_ptr p i)))) as Ef by (unfold f; by rewrite Et).
    rewrite (IH _ va1) by (done || intros x Hx; apply Hm, elem_of_app; left; by rewrite Ef).
    unfold count_all. rewrite foldl_app. fold (count_all (below (mem s) n (S d) (page_addr (mload (mem s) (entry_ptr p i)))) c).
    apply IHl; [intros j Hj; apply Hl; by right|done|by rewrite count_all_length|]. intros x Hx.
    rewrite count_all_marked; [apply Hm, elem_of_app; by right|done| |].
    + apply list_elem_of_bind in Hx as (j & Hx & Hj). unfold f in Hx. cbn zeta in Hx.
      destruct (Z.eqb_spec (ty (mload (mem s) (entry_ptr p j))) 3) as [Ej|]; [|by apply not_elem_of_nil in Hx].
      destruct (child_tbl d va p j ltac:(lia) Hva Hp ltac:(apply Hl; by right) Ej) as (va2 & V2 & _ & _ & T2).
      by apply (below_in_pool n (S d) _ va2 x ltac:(lia) V2 T2).
    + intros y Hy. split; [by apply (below_in_pool n (S d) _ va1 y ltac:(lia) V1 T1)|]. intros Exy.
      apply (Hdisj x.2); apply list_elem_of_fmap; [exists y; by rewrite Ef|by exists x].
  - assert (f i = []) as Ef by (unfold f; cbn zeta; by rewrite (proj2 (Z.eqb_neq _ _) Hne)). rewrite Ef in *.
    apply IHl; [intros j Hj; apply Hl; by right|done|done|]. intros x Hx. by apply Hm.
Qed.

Lemma count_table_all : forall n d p va c, (n + d = 3)%nat -> va_ok va -> tbl (mem s) root d va = Some p -> length (visited c) = 1%nat ->
  (forall x, x ∈ below (mem s) n d p -> marked c x.2 = false) ->
  arm64_stage2_count_table n s c p (Z.of_nat d) = count_all (below (mem s) n d p) c.
Proof.
  induction n as [|n IH]; intros d p va c Hd Hva Hp Hlen Hm; pose proof (below_pages_NoDup _ d p va Hd Hva Hp) as Hnd;
    pose proof (fun x => below_in_pool _ d p va x Hd Hva Hp) as Hpool;
    cbn [arm64_stage2_count_table below count_all foldl] in *;
    destruct (wf_alloc _ _ _ W d va p ltac:(lia) Hva Hp) as [Hin Hbit]; rewrite page_index_test by (done || apply W);
    pose proof (page_id_64 p Hin); unfold page_bit in Hbit; rewrite Z.div_small in Hbit by lia; rewrite Hbit;
    rewrite bitmap_test_spec, bit_nr_mod; pose proof (Hm (d, p) (list_elem_of_here _ _)) as Hmp; cbn in Hmp; unfold marked in Hmp;
    replace (u32 (page_id (pool s) p) mod 64) with (page_id (pool s) p mod 64) by (unfold u32; mlia); rewrite Hmp; [done|].
  rewrite fmap_cons in Hnd. apply NoDup_cons in Hnd as [Hni Hnd]. change PTRS_PER_PGTL0E with 512.
  apply (count_entries n d p va Hd Hva Hp).
  - intros p' va' c' V' T' L' M'. by apply (IH (S d) p' va'); [lia|..].
  - intros i Hi%elem_of_seqZ. lia.
  - done.
  - by rewrite count_page_length.
  - intros x Hx. rewrite count_page_marked; [apply Hm; by right|done|done|apply Hpool; by right|].
    intros ->. apply Hni. apply list_elem_of_fmap. by exists x.
Qed.

Lemma count_all_malformed L c : malformed_entries (stats (count_all L c)) = malformed_entries (stats c).
Proof. unfold count_all. revert c. induction L as [|x L IH]; intros c; [done|]. cbn [foldl]. by rewrite IH. Qed.

Lemma count_all_total L c : 0 <= stat_total (stats c) -> stat_total (stats c) + Z.of_nat (length L) <= UINT64_MAX ->
  stat_total (stats (count_all L c)) = stat_total (stats c) + Z.of_nat (length L).
Proof.
  unfold count_all. revert c. induction L as [|x L IH]; intros c H0 H1; cbn [foldl length] in *; [lia|].
  rewrite IH; cbn [count_page stats stat_total]; rewrite u64_small by (unfold in_u64; lia); lia.
Qed.

Lemma count_all_level d L c : 0 <= level_pages (stats c) (Z.of_nat d) -> level_pages (stats c) (Z.of_nat d) + Z.of_nat (length L) <= UINT64_MAX ->
  level_pages (stats (count_all L c)) (Z.of_nat d) = level_pages (stats c) (Z.of_nat d) + Z.of_nat (length (filter (fun x => x.1 = d) L)).
Proof.
  unfold count_all. revert c. induction L as [|x L IH]; intros c H0 H1; cbn [foldl]; [cbn; lia|]. rewrite filter_cons. cbn [length] in H1.
  assert (level_pages (stats (count_page (Z.of_nat x.1) (page_id (pool s) x.2) c)) (Z.of_nat d) =
    level_pages (stats c) (Z.of_nat d) + if decide (x.1 = d) then 1 else 0) as E.
  { cbn [count_page stats level_pages]. destruct (decide (x.1 = d)) as [<-|Hne]; [rewrite Z.eqb_refl, u64_small by (unfold in_u64; lia); lia|].
    rewrite (proj2 (Z.eqb_neq _ _)) by lia. lia. }
  rewrite IH; rewrite E; destruct (decide (x.1 = d)); cbn [length]; lia.
Qed.

(** At most the 64 pages of the pool are tables. *)
Lemma table_pages_length : (length table_pages <= 64)%nat.
Proof.
  assert (va_ok 0) as H0 by (unfold va_ok, VA_LIMIT; lia). rewrite <- (length_fmap snd), <- (length_fmap (page_id (pool s))).
  change 64%nat with (length (seqZ 0 64)). apply submseteq_length, NoDup_submseteq.
  - apply NoDup_fmap_2_strong; [|by apply (below_pages_NoDup 3 0 root 0)]. intros p q (x & -> & Hx)%list_elem_of_fmap (y & -> & Hy)%list_elem_of_fmap.
    apply page_id_inj; [by apply (below_in_pool 3 0 root 0 x)|by apply (below_in_pool 3 0 root 0 y)].
  - intros k (q & -> & (x & -> & Hx)%list_elem_of_fmap)%list_elem_of_fmap. apply elem_of_seqZ.
    pose proof (page_id_64 _ (below_in_pool 3 0 root 0 x eq_refl H0 eq_refl Hx)). lia.
Qed.
End Count.

(** The statistics of an idle VM count its table pages exactly: every page
    below the root is counted once, at its level, and nothing is reported as
    malformed.  The pool must have a bitmap of one word. *)
Theorem stage2_stats_exact vm s : wf stage2_leaf_attrs (root_stg2ptp vm) s -> bitmap_size (pool s) = 1 -> stage2_update_owner vm = 0 ->
  exists st, arm64_get_stage2_vm_stats vm s = Some st /\ malformed_entries st = 0 /\
    let L := table_pages (root_stg2ptp vm) s in
    NoDup (snd <$> L) /\ (forall q, q ∈ snd <$> L <-> reach (mem s) (root_stg2ptp vm) q) /\ stat_total st = Z.of_nat (length L) /\
    forall d, (d <= 3)%nat -> level_pages st (Z.of_nat d) = Z.of_nat (length (filter (fun x => x.1 = d) L)).
Proof.
  intros W One Ho. assert (va_ok 0) as H0 by (unfold va_ok, VA_LIMIT; lia). set (root := root_stg2ptp vm) in *.
  assert (root <> 0) as Hr by (by destruct (reach_page _ _ _ root W (ex_intro _ 0%nat (ex_intro _ 0 (conj (Nat.le_0_l 3) (conj H0 eq_refl))))); lia).
  pose proof (table_pages_length root s W One) as Hlen. assert (0 < length (table_pages root s))%nat as Hpos by (unfold table_pages; cbn; lia).
  unfold arm64_get_stage2_vm_stats. fold root. rewrite (proj2 (Z.eqb_neq _ _) Hr), Ho, One. cbn [Z.eqb negb orb].
  set (c := {| stats := no_stats _; visited := _ |}).
  pose proof (count_table_all root s W One 3 0 root 0 c eq_refl H0 eq_refl eq_refl ltac:(intros x _; apply Z.bits_0)) as E.
  change PGT_LVL3 with (Z.of_nat 0). rewrite E. fold (table_pages root s).
  assert (stat_total (stats (count_all s (table_pages root s) c)) = Z.of_nat (length (table_pages root s))) as Et.
  { rewrite count_all_total; cbn [c stats no_stats stat_total]; lia. }
  rewrite Et, (proj2 (Z.eqb_neq _ 0)) by lia. cbn [negb]. eexists. split; [done|]. split; [apply count_all_malformed|].
  split; [by apply (below_pages_NoDup root s W 3 0 root 0)|]. split; [by apply table_pages_reach|]. split; [done|].
  intros d Hd. rewrite count_all_level; cbn [c stats no_stats level_pages]; lia.
Qed.

(** ** Pages beyond the first 64

    A pool of 128 pages; the first 64 are in use. *)

(** A VM gets page 64 as its root, then page 0 is freed elsewhere. *)
Definition late_root : outcome (stage2_vm * walk) :=
  '(rb, s) ← pgtable_create_root {| mem := ∅; pool := two_vm_pool; update := None |};
  '(ra, s) ← pgtable_create_root (fill_first_word s);
  p ← free_page (pool s) rb;
  Ret (demo_vm ra, s <| pool := p |>).

(** Finding: [bitmap_test] looks at the first word of the bitmap only.  The walk of
    the VM is refused because of the bit of page 0, and page 65, which is not
    allocated, passes for a table because of the bit of page 1. *)
Lemma page_index_wrong_word : match late_root with
  | Ret (vm, s) =>
      page_bit (pool s) 64 = true /\ arm64_stage2_walk vm 0 s = Ret (- EFAULT, walk_empty 0) /\
      page_bit (pool s) 65 = false /\ arm64_stage2_page_index (root_of 65) (pool s) = Some 65
  | _ => False
  end.
Proof. vm_compute. split_and!; reflexivity. Qed.

(** A VM has page 0 as its root; a page is mapped after the first word is full. *)
Definition two_word_vm : outcome (stage2_vm * walk) :=
  '(r, s) ← pgtable_create_root {| mem := ∅; pool := two_vm_pool; update := None |};
  arm64_stage2_map 0 0 0x90000000 0x80000000 0x1000 11 (fun _ => 0) (demo_vm r) (fill_first_word s).

(** Finding: the visited bits are set in the right word and tested in the first
    one, so the table in page 64 is taken for page 0: of the four tables one is
    counted and the rest is reported as malformed. *)
Lemma stats_wrong_word : match two_word_vm with
  | Ret (vm, s) =>
      xlate (mem s) (root_stg2ptp vm) 0x80000000 = Some (0x90000000, window_attrs 11) /\
      (fun st => (stat_total st, malformed_entries st)) <$> arm64_get_stage2_vm_stats vm s = Some (1, 1)
  | _ => False
  end.
Proof. vm_compute. split_and!; reflexivity. Qed.

(** ** Examples: a VM with 512 MiB of RAM *)
Lemma demo_booted : exists vm s, init_stage2_identity_map 0 0 0x40000000 0x20000000 0x40000000 0x42000000 (demo_vm 0) (demo_state 0) = Ret (vm, s) /\
  represents stage2_leaf_attrs (root_stg2ptp vm) s (boot_space 0x40000000 0x20000000 0x42000000) /\
  bitmap_size (pool s) = 1 /\ stage2_update_owner vm = 0 /\ s2_vm_id vm = 1.
Proof.
  assert (pool_ok (pool (demo_state 0))) as P by (apply demo_pool_ok; closed_arith).
  destruct (stage2_boot_ok 0 0 (demo_vm 0) (demo_state 0) 0x40000000 0x20000000 0x42000000 P) as (root & s & E & R & _ & Hin & _).
  - closed_arith.
  - vm_compute. discriminate.
  - closed_arith.
  - vm_compute. discriminate.
  - eexists _, s. split; [exact E|]. split; [exact R|]. split; [|split; reflexivity].
    apply (in_pool_same (pool (demo_state 0)) (pool s) P (wf_pool _ _ _ (proj1 R)) Hin).
Qed.

Lemma stage2_walk_exact_witness : exists vm s w, arm64_stage2_walk vm 0x48000123 s = Ret (0, w) /\ result w = WALK_MAPPED /\ hpa w = 0x48000123.
Proof.
  destruct demo_booted as (vm & s & _ & [W X] & One & Ho & Hid). exists vm, s.
  assert (va_ok 0x48000123) as Hva by (unfold va_ok, VA_LIMIT; lia).
  destruct (stage2_walk_exact vm s 0x48000123 W (indexable_one_word _ (wf_pool _ _ _ W) One) Ho) as (w & E & H); [|done|].
  - rewrite Hid. unfold ARM64_STAGE2_VMID_MASK. lia.
  - exists w. rewrite (X _ Hva) in H. change (boot_space _ _ _ _) with (Some (0x48000123, PAGE_S2_ATTR_NORMAL)) in H. by destruct H as (? & ? & _).
Defined.

Lemma stage2_stats_exact_witness : exists vm s st, arm64_get_stage2_vm_stats vm s = Some st /\ malformed_entries st = 0.
Proof.
  destruct demo_booted as (vm & s & _ & [W _] & One & Ho & _). exists vm, s.
  destruct (stage2_stats_exact vm s W One Ho) as (st & E & M & _). by exists st.
Defined.
