(* ===== verification/GuestMem.v ===== *)
(** * Access to guest memory

    arch/arm64/guest/memory.c: copies between the hypervisor and the memory of a
    VM, by guest physical address and by guest virtual address.  A guest virtual
    address is translated by the guest's own tables, which are read from guest
    memory; every guest physical address on the way is checked against the RAM
    window of the VM and its stage-2 tables.

    Host memory is a function from addresses to bytes; host virtual and physical
    addresses are equal.  The stage-2 tables are a [walk] of their own. *)
From S2P Require Import Prelude Bits SchedTypes PagePool Pgtable PgtableInv PgtableOps Hooks AddressSpace Stage2 Stage2Walk.

Definition INVALID_HPA : Z := Z.shiftl 1 52.
Definition ARM64_GVA_PAGE_SIZE : Z := 4096.
Definition ARM64_GVA_PAGE_MASK : Z := 4095.
Definition ARM64_GVA_TCR_EPD0 : Z := Z.shiftl 1 7.
Definition ARM64_GVA_TCR_EPD1 : Z := Z.shiftl 1 23.
Definition ARM64_GVA_TCR_TBI0 : Z := Z.shiftl 1 37.
Definition ARM64_GVA_TCR_TBI1 : Z := Z.shiftl 1 38.
Definition ARM64_GVA_TCR_TG0_4K : Z := 0.
Definition ARM64_GVA_TCR_TG1_4K : Z := 2.
Definition ARM64_GVA_SCTLR_M : Z := 1.
Definition ARM64_GVA_PTE_VALID : Z := 1.
Definition ARM64_GVA_PTE_TABLE : Z := 2.
Definition ARM64_GVA_PTE_AF : Z := Z.shiftl 1 10.

Inductive arm64_guest_memory_access := MEMORY_READ | MEMORY_WRITE.
Definition is_write (access : arm64_guest_memory_access) : bool := match access with MEMORY_READ => false | MEMORY_WRITE => true end.

Inductive guest_memory_error :=
| GUEST_MEMORY_ERR_NONE
| GUEST_MEMORY_ERR_ARGUMENT
| GUEST_MEMORY_ERR_VCPU_BUSY
| GUEST_MEMORY_ERR_TRANSLATION
| GUEST_MEMORY_ERR_PERMISSION
| GUEST_MEMORY_ERR_STAGE2
| GUEST_MEMORY_ERR_RETRY.

(** ** Host memory *)
Abbreviation bytes := (Z -> Z) (only parsing).
Definition read_bytes (host : bytes) (a : Z) (n : nat) : list Z := (fun i => host (a + Z.of_nat i)) <$> seq 0 n.
Definition write_bytes (a : Z) (data : list Z) (host : bytes) : bytes := fun x =>
  if (a <=? x) && (x <? a + Z.of_nat (length data)) then nth (Z.to_nat (x - a)) data 0 else host x.
(** The value of a little-endian 64-bit word. *)
Definition le64 (l : list Z) : Z := foldr (fun b acc => b + 256 * acc) 0 l.

Record arch_vm_config := { guest_ram_start : Z; guest_ram_size : Z; guest_ram_hpa : Z }.

(** The registers of a vCPU that control its translation, while it runs and while
    it is paused. *)
Record el1_regs := { sctlr_el1 : Z; tcr_el1 : Z; ttbr0_el1 : Z; ttbr1_el1 : Z }.
Record gva_vcpu := { v_vm : stage2_vm; v_running : bool; v_paused : bool; v_live : el1_regs; v_gctx : el1_regs }.
Record arm64_guest_gva_context := { ctx_regs : el1_regs; ctx_generation : Z; ctx_live : bool }.

Section GuestMemory.
Context (get_vm_config : Z -> arch_vm_config).

(** ** Guest physical addresses *)
Definition arm64_guest_gpa_range_valid (vm : stage2_vm) (gpa size : Z) : bool :=
  if (CONFIG_MAX_VM_NUM <=? s2_vm_id vm) || (size =? 0) then false
  else
    let arch_config := get_vm_config (s2_vm_id vm) in
    let ram_start := guest_ram_start arch_config in
    let ram_size := guest_ram_size arch_config in
    if (ram_size =? 0) || (UINT64_MAX - ram_size <? ram_start) || (UINT64_MAX - size <? gpa) then false
    else (ram_start <=? gpa) && (gpa + size <=? ram_start + ram_size).

Definition gpa2hpa (vm : stage2_vm) (gpa : Z) : Z :=
  let arch_config := get_vm_config (s2_vm_id vm) in
  if arm64_guest_gpa_range_valid vm gpa 1 then u64 (guest_ram_hpa arch_config + (gpa - guest_ram_start arch_config))
  else INVALID_HPA.

Definition gpa2hva (vm : stage2_vm) (x : Z) : Z := let hpa := gpa2hpa vm x in if hpa =? INVALID_HPA then 0 else hpa.

Definition arm64_guest_hpa_to_gpa (vm : stage2_vm) (hpa : Z) : option Z :=
  if CONFIG_MAX_VM_NUM <=? s2_vm_id vm then None
  else
    let arch_config := get_vm_config (s2_vm_id vm) in
    let hpa_start := guest_ram_hpa arch_config in
    let ram_size := guest_ram_size arch_config in
    if (ram_size =? 0) || (UINT64_MAX - ram_size <? hpa_start) || (hpa <? hpa_start) || (hpa_start + ram_size <=? hpa) then None
    else
      let offset := hpa - hpa_start in
      if UINT64_MAX - offset <? guest_ram_start arch_config then None
      else
        let candidate := guest_ram_start arch_config + offset in
        if negb (arm64_guest_gpa_range_valid vm candidate 1) || negb (gpa2hpa vm candidate =? hpa) then None
        else Some candidate.

(** [h_ptr] tells a null pointer; the bytes are those stored at [h_ptr]. *)
Definition copy_from_gpa (vm : stage2_vm) (h_ptr : bool) (gpa size : Z) (host : bytes) : Z * list Z :=
  if size =? 0 then (0, [])
  else if negb h_ptr then (- EINVAL, [])
  else if arm64_guest_gpa_range_valid vm gpa size then
    let hva := gpa2hva vm gpa in
    if negb (hva =? 0) then (0, read_bytes host hva (Z.to_nat size)) else (- EFAULT, [])
  else (- EFAULT, []).

(** [h_ptr] holds the bytes from [h_ptr] on, [None] is a null pointer. *)
Definition copy_to_gpa (vm : stage2_vm) (h_ptr : option (list Z)) (gpa size : Z) (host : bytes) : Z * bytes :=
  if size =? 0 then (0, host)
  else
    match h_ptr with
    | None => (- EINVAL, host)
    | Some data =>
        if arm64_guest_gpa_range_valid vm gpa size then
          let hva := gpa2hva vm gpa in
          if negb (hva =? 0) then (0, write_bytes hva (take (Z.to_nat size) data) host) else (- EFAULT, host)
        else (- EFAULT, host)
    end.

(** ** The translation of a guest virtual address *)

(** [generation] is a reading of the VM's lifecycle generation. *)
Definition arm64_guest_gva_context_snapshot (vcpu : gva_vcpu) (generation : Z) : Z * arm64_guest_gva_context :=
  let status c := (if negb (ctx_generation c =? 0) then 0 else - EAGAIN, c) in
  if v_running vcpu then status {| ctx_regs := v_live vcpu; ctx_generation := generation; ctx_live := true |}
  else if v_paused vcpu then status {| ctx_regs := v_gctx vcpu; ctx_generation := generation; ctx_live := false |}
  else (- EBUSY, {| ctx_regs := {| sctlr_el1 := 0; tcr_el1 := 0; ttbr0_el1 := 0; ttbr1_el1 := 0 |}; ctx_generation := 0; ctx_live := false |}).

Definition arm64_guest_gva_is_low (gva t0sz : Z) : bool := (0 <? t0sz) && (t0sz <? 64) && (Z.shiftr gva (64 - t0sz) =? 0).
Definition arm64_guest_gva_is_high (gva t1sz : Z) : bool :=
  (0 <? t1sz) && (t1sz <? 64) && (Z.shiftr gva (64 - t1sz) =? Z.shiftl 1 t1sz - 1).

(** The status with the address to translate and the table base. *)
Definition arm64_guest_gva_select_ttbr (regs : el1_regs) (input_gva : Z) : Z * Z * Z :=
  let tcr := tcr_el1 regs in
  let t0sz := Z.land tcr 0x3f in
  let t1sz := Z.land (Z.shiftr tcr 16) 0x3f in
  let tg0 := Z.land (Z.shiftr tcr 14) 3 in
  let tg1 := Z.land (Z.shiftr tcr 30) 3 in
  let low gva := if negb (Z.land tcr ARM64_GVA_TCR_EPD0 =? 0) then (- EFAULT, 0, 0) else (0, gva, ttbr0_el1 regs) in
  let high gva := if negb (Z.land tcr ARM64_GVA_TCR_EPD1 =? 0) then (- EFAULT, 0, 0) else (0, gva, ttbr1_el1 regs) in
  if negb (tg0 =? ARM64_GVA_TCR_TG0_4K) || negb (tg1 =? ARM64_GVA_TCR_TG1_4K) || negb (t0sz =? 16) || negb (t1sz =? 16) then (- ENOTSUP, 0, 0)
  else
    let untagged_gva := Z.land input_gva 0x00ffffffffffffff in
    if negb (Z.land tcr ARM64_GVA_TCR_TBI0 =? 0) && arm64_guest_gva_is_low untagged_gva t0sz then low untagged_gva
    else if negb (Z.land tcr ARM64_GVA_TCR_TBI1 =? 0) && arm64_guest_gva_is_high (Z.lor untagged_gva 0xff00000000000000) t1sz
    then high (Z.lor untagged_gva 0xff00000000000000)
    else if arm64_guest_gva_is_low input_gva t0sz then low input_gva
    else if arm64_guest_gva_is_high input_gva t1sz then high input_gva
    else (- EFAULT, 0, 0).

Definition arm64_guest_gva_validate_gpa (vm : stage2_vm) (gpa : Z) (access : arm64_guest_memory_access) (s : walk) : outcome Z :=
  if negb (arm64_guest_gpa_range_valid vm gpa 1) then Ret (- EFAULT)
  else
    '(ret, w) ← arm64_stage2_walk vm gpa s;
    match ret =? 0, result w, last (step w) with
    | true, WALK_MAPPED, Some st =>
        let expected_hpa := gpa2hpa vm gpa in
        Ret (if negb (Z.land (descriptor st) PAGE_S2_MEMATTR_MASK =? PAGE_S2_MEMATTR_NORMAL) ||
                (Z.land (descriptor st) PAGE_S2_S2AP_READ =? 0) ||
                is_write access && (Z.land (descriptor st) PAGE_S2_S2AP_WRITE =? 0) ||
                (expected_hpa =? INVALID_HPA) || negb (hpa w =? expected_hpa)
             then - EACCES else 0)
    | _, _, _ => Ret (if negb (ret =? 0) then ret else - EFAULT)
    end.

Definition arm64_guest_gva_read_pte (vm : stage2_vm) (gpa : Z) (s : walk) (host : bytes) : outcome (Z * Z) :=
  ret ← arm64_guest_gva_validate_gpa vm gpa MEMORY_READ s;
  if ret =? 0 then let '(ret, d) := copy_from_gpa vm true gpa 8 host in Ret (ret, le64 d) else Ret (ret, 0).

(** The end of the loop of [arm64_guest_gva_translate], at a leaf descriptor. *)
Definition gva_leaf (descriptor page_size gva : Z) (vm : stage2_vm) (access : arm64_guest_memory_access) (s : walk) : outcome (Z * Z) :=
  if (Z.land descriptor ARM64_GVA_PTE_AF =? 0) || is_write access && (2 <=? Z.land (Z.shiftr descriptor 6) 3) then Ret (- EACCES, 0)
  else
    let output_base := Z.land (Z.land descriptor PFN_MASK) (not64 (page_size - 1)) in
    let offset := Z.land gva (page_size - 1) in
    if UINT64_MAX - output_base <? offset then Ret (- EFAULT, 0)
    else ret ← arm64_guest_gva_validate_gpa vm (output_base + offset) access s; Ret (ret, output_base + offset).

(** The levels from [level] on; [n] levels are left below it. *)
Fixpoint gva_walk (n : nat) (level table_gpa gva : Z) (vm : stage2_vm) (access : arm64_guest_memory_access) (s : walk) (host : bytes)
  : outcome (Z * Z) :=
  let shift := 39 - level * 9 in
  let index := Z.land (Z.shiftr gva shift) (PTRS_PER_PGTL - 1) in
  if UINT64_MAX - index * 8 <? table_gpa then Ret (- EFAULT, 0)
  else
    '(ret, descriptor) ← arm64_guest_gva_read_pte vm (table_gpa + index * 8) s host;
    if negb (ret =? 0) then Ret (ret, 0)
    else if Z.land descriptor ARM64_GVA_PTE_VALID =? 0 then Ret (- EFAULT, 0)
    else
      let leaf page_size := gva_leaf descriptor page_size gva vm access s in
      if level =? 3 then
        if Z.land descriptor ARM64_GVA_PTE_TABLE =? 0 then Ret (- EFAULT, 0) else leaf ARM64_GVA_PAGE_SIZE
      else if Z.land descriptor ARM64_GVA_PTE_TABLE =? 0 then
        if level =? 0 then Ret (- EFAULT, 0) else leaf (Z.shiftl 1 shift)
      else if is_write access && (2 <=? Z.land (Z.shiftr descriptor 61) 3) then Ret (- EACCES, 0)
      else
        match n with
        | O => Ret (- EFAULT, 0)
        | S n => gva_walk n (level + 1) (Z.land descriptor PFN_MASK) gva vm access s host
        end.

Definition arm64_guest_gva_translate (vm : stage2_vm) (regs : el1_regs) (input_gva : Z) (access : arm64_guest_memory_access) (s : walk) (host : bytes)
  : outcome (Z * Z) :=
  if Z.land (sctlr_el1 regs) ARM64_GVA_SCTLR_M =? 0 then
    if negb (arm64_guest_gpa_range_valid vm input_gva 1) then Ret (- EFAULT, 0)
    else ret ← arm64_guest_gva_validate_gpa vm input_gva access s; Ret (ret, if ret =? 0 then input_gva else 0)
  else
    let '(ret, gva, ttbr) := arm64_guest_gva_select_ttbr regs input_gva in
    if negb (ret =? 0) then Ret (ret, 0)
    else gva_walk 3 0 (Z.land ttbr PFN_MASK) gva vm access s host.

Definition arm64_guest_gva_error (ret : Z) : guest_memory_error :=
  if ret =? - EBUSY then GUEST_MEMORY_ERR_VCPU_BUSY
  else if ret =? - EAGAIN then GUEST_MEMORY_ERR_RETRY
  else if ret =? - EACCES then GUEST_MEMORY_ERR_PERMISSION
  else if (ret =? - ENODEV) || (ret =? - EIO) then GUEST_MEMORY_ERR_STAGE2
  else GUEST_MEMORY_ERR_TRANSLATION.

(** [*err_code] and [*fault_addr]. *)
Definition arm64_guest_memory_report (error : guest_memory_error) (gva : Z) : guest_memory_error * Z :=
  (error, match error with GUEST_MEMORY_ERR_NONE => 0 | _ => gva end).

Definition report_status (ret gva : Z) : guest_memory_error * Z :=
  arm64_guest_memory_report (if ret =? 0 then GUEST_MEMORY_ERR_NONE else arm64_guest_gva_error ret) gva.

(** [gens] are the successive readings of the generation: 0 by the snapshot. *)
Definition gva2gpa (vcpu : gva_vcpu) (gva : Z) (gens : nat -> Z) (s : walk) (host : bytes) : outcome (Z * Z * guest_memory_error) :=
  let '(ret, context) := arm64_guest_gva_context_snapshot vcpu (gens 0%nat) in
  '(ret, gpa) ← (if ret =? 0 then
                   '(ret, gpa) ← arm64_guest_gva_translate (v_vm vcpu) (ctx_regs context) gva MEMORY_READ s host;
                   Ret (if (ret =? 0) && negb (gens 1%nat =? ctx_generation context) then - EAGAIN else ret, gpa)
                 else Ret (ret, 0));
  Ret (ret, gpa, (report_status ret gva).1).

(** ** Copies by guest virtual address

    The loops; [k] is the number of generation readings so far.  They give the
    status, the address reached and what was copied. *)
Definition chunk_size (current_gva remaining : Z) : Z :=
  let page_remaining := u32 (ARM64_GVA_PAGE_SIZE - Z.land current_gva ARM64_GVA_PAGE_MASK) in
  if remaining <? page_remaining then remaining else page_remaining.

Fixpoint copy_from_loop (fuel : nat) (vm : stage2_vm) (context : arm64_guest_gva_context) (current_gva remaining : Z) (destination : list Z)
  (gens : nat -> Z) (k : nat) (s : walk) (host : bytes) : outcome (Z * Z * list Z) :=
  if 0 <? remaining then
    match fuel with
    | O => Hang "copy_from_gva"
    | S fuel =>
        let chunk := chunk_size current_gva remaining in
        '(ret, gpa) ← arm64_guest_gva_translate vm (ctx_regs context) current_gva MEMORY_READ s host;
        if negb (ret =? 0) then Ret (ret, current_gva, destination)
        else
          let '(ret, d) := copy_from_gpa vm true gpa chunk host in
          let destination := destination ++ d in
          if negb (ret =? 0) then Ret (ret, current_gva, destination)
          else if negb (gens k =? ctx_generation context) then Ret (- EAGAIN, current_gva, destination)
          else copy_from_loop fuel vm context (u64 (current_gva + chunk)) (u32 (remaining - chunk)) destination gens (S k) s host
    end
  else Ret (0, current_gva, destination).

Definition copy_from_gva (vcpu : gva_vcpu) (h_ptr : bool) (gva size : Z) (gens : nat -> Z) (s : walk) (host : bytes)
  : outcome (Z * (guest_memory_error * Z) * list Z) :=
  if negb (size =? 0) && (negb h_ptr || (UINT64_MAX - size <? gva)) then
    Ret (- EINVAL, arm64_guest_memory_report GUEST_MEMORY_ERR_ARGUMENT gva, [])
  else if size =? 0 then Ret (0, report_status 0 gva, [])
  else
    let '(ret, context) := arm64_guest_gva_context_snapshot vcpu (gens 0%nat) in
    if negb (ret =? 0) then Ret (ret, report_status ret gva, [])
    else
      '(ret, current_gva, destination) ← copy_from_loop (Z.to_nat size) (v_vm vcpu) context gva size [] gens 1 s host;
      Ret (ret, report_status ret current_gva, destination).

Fixpoint copy_to_loop (fuel : nat) (vm : stage2_vm) (context : arm64_guest_gva_context) (current_gva remaining : Z) (source : list Z)
  (gens : nat -> Z) (k : nat) (s : walk) (host : bytes) : outcome (Z * Z * bytes) :=
  if 0 <? remaining then
    match fuel with
    | O => Hang "copy_to_gva"
    | S fuel =>
        let chunk := chunk_size current_gva remaining in
        '(ret, gpa) ← arm64_guest_gva_translate vm (ctx_regs context) current_gva MEMORY_WRITE s host;
        if negb (ret =? 0) then Ret (ret, current_gva, host)
        else
          let '(ret, host) := copy_to_gpa vm (Some source) gpa chunk host in
          if negb (ret =? 0) then Ret (ret, current_gva, host)
          else if negb (gens k =? ctx_generation context) then Ret (- EAGAIN, current_gva, host)
          else copy_to_loop fuel vm context (u64 (current_gva + chunk)) (u32 (remaining - chunk)) (drop (Z.to_nat chunk) source)
                 gens (S k) s host
    end
  else Ret (0, current_gva, host).

Definition copy_to_gva (vcpu : gva_vcpu) (h_ptr : option (list Z)) (gva size : Z) (gens : nat -> Z) (s : walk) (host : bytes)
  : outcome (Z * (guest_memory_error * Z) * bytes) :=
  let invalid := Ret (- EINVAL, arm64_guest_memory_report GUEST_MEMORY_ERR_ARGUMENT gva, host) in
  if size =? 0 then Ret (0, report_status 0 gva, host)
  else
    match h_ptr with
    | None => invalid
    | Some source =>
        if UINT64_MAX - size <? gva then invalid
        else
          let '(ret, context) := arm64_guest_gva_context_snapshot vcpu (gens 0%nat) in
          if negb (ret =? 0) then Ret (ret, report_status ret gva, host)
          else
            '(ret, current_gva, host) ← copy_to_loop (Z.to_nat size) (v_vm vcpu) context gva size source gens 1 s host;
            Ret (ret, report_status ret current_gva, host)
    end.
End GuestMemory.

(** ** Pages *)

(** [b] is in the page of [a]. *)
Definition same_page (a b : Z) : Prop := 0 <= a /\ 0 <= b /\ a / 4096 = b / 4096.

Lemma same_page_div k a b : 0 < k -> same_page a b -> a / (4096 * k) = b / (4096 * k) /\ b mod (4096 * k) = a mod (4096 * k) + (b - a).
Proof.
  intros Hk (Ha & Hb & E). assert (a / (4096 * k) = b / (4096 * k)) as Ed by (rewrite <- !Z.div_div by lia; by rewrite E). split; [done|].
  pose proof (Z.div_mod a (4096 * k) ltac:(lia)). pose proof (Z.div_mod b (4096 * k) ltac:(lia)). rewrite Ed in *. lia.
Qed.

Lemma same_page_pow n a b : 12 <= n -> same_page a b -> a / 2 ^ n = b / 2 ^ n /\ b mod 2 ^ n = a mod 2 ^ n + (b - a).
Proof.
  intros Hn H. replace (2 ^ n) with (4096 * 2 ^ (n - 12)).
  - apply same_page_div; [|done]. apply Z.pow_pos_nonneg; lia.
  - change 4096 with (2 ^ 12). rewrite <- Z.pow_add_r by lia. f_equal. lia.
Qed.

Lemma same_page_mod n a b : 12 <= n -> same_page a b -> same_page (a mod 2 ^ n) (b mod 2 ^ n).
Proof.
  intros Hn H. pose proof H as (Ha & Hb & E). pose proof (Z.pow_pos_nonneg 2 n ltac:(lia) ltac:(lia)).
  split; [by apply Z.mod_pos_bound|]. split; [by apply Z.mod_pos_bound|].
  replace (2 ^ n) with (4096 * 2 ^ (n - 12)) by (change 4096 with (2 ^ 12); rewrite <- Z.pow_add_r by lia; f_equal; lia).
  pose proof (Z.pow_pos_nonneg 2 (n - 12) ltac:(lia) ltac:(lia)).
  rewrite !Z.rem_mul_r by lia. rewrite !Z.add_comm with (n := _ mod 4096), !Z.mul_comm with (n := 4096), !Z.div_add_l by lia.
  rewrite !(Z.div_small (_ mod 4096)) by (apply Z.mod_pos_bound; lia). by rewrite E.
Qed.

Lemma same_page_shift a b c : 0 <= a + c -> 0 <= b + c -> c mod 4096 = 0 -> same_page a b -> same_page (a + c) (b + c).
Proof.
  intros H1 H2 Hc (Ha & Hb & E). split; [done|]. split; [done|]. apply Z.mod_divide in Hc as [q ->]; [|lia]. rewrite !Z.div_add by lia. by rewrite E.
Qed.

(** Masks. *)
Lemma land_low x n : 0 <= n -> Z.land x (2 ^ n - 1) = x mod 2 ^ n.
Proof. intros. replace (2 ^ n - 1) with (Z.ones n) by (rewrite Z.ones_equiv; lia). by apply Z.land_ones. Qed.

(** The translation of a page is one piece. *)
Lemma xl_page m : forall n d p va va' pa a, (n + d = 3)%nat -> same_page va va' -> xl m n d p va = Some (pa, a) ->
  xl m n d p va' = Some (pa + (va' - va), a).
Proof.
  induction n as [|n IH]; intros d p va va' pa a Hd Hp; cbn [xl];
    destruct (same_page_pow (39 - 9 * Z.of_nat d) va va' ltac:(lia) Hp) as [E1 E2];
    assert (at_slot p d va' = at_slot p d va) as -> by (unfold at_slot, slot, sz; by rewrite E1);
    set (e := mload m (at_slot p d va)); (destruct (ty e =? leaf_ty d);
      [intros [= <- <-]; change (sz d) with (2 ^ (39 - 9 * Z.of_nat d)); rewrite E2; do 2 f_equal; lia|]); [done|].
  destruct (ty e =? 3); [|done]. by apply IH; [lia|].
Qed.

Lemma xlate_page m root va va' pa a : same_page va va' -> xlate m root va = Some (pa, a) -> xlate m root va' = Some (pa + (va' - va), a).
Proof. by apply xl_page. Qed.

(** ** Tagged addresses *)
Lemma is_low_page a b : same_page a b -> arm64_guest_gva_is_low a 16 = arm64_guest_gva_is_low b 16.
Proof.
  intros H. unfold arm64_guest_gva_is_low. change (64 - 16) with 48. rewrite !Z.shiftr_div_pow2 by lia.
  by destruct (same_page_pow 48 a b ltac:(lia) H) as [-> _].
Qed.

Lemma is_high_page a b : same_page a b -> arm64_guest_gva_is_high a 16 = arm64_guest_gva_is_high b 16.
Proof.
  intros H. unfold arm64_guest_gva_is_high. change (64 - 16) with 48. rewrite !Z.shiftr_div_pow2 by lia.
  by destruct (same_page_pow 48 a b ltac:(lia) H) as [-> _].
Qed.

Lemma untag x : Z.land x 0x00ffffffffffffff = x mod 2 ^ 56.
Proof. change 0x00ffffffffffffff with (2 ^ 56 - 1). by apply land_low. Qed.

Lemma retag x : 0 <= x < 2 ^ 56 -> Z.lor x 0xff00000000000000 = x + 0xff00000000000000.
Proof.
  intros H. assert (Z.land x 0xff00000000000000 = 0) as E.
  { replace x with (Z.land x 0x00ffffffffffffff) by (rewrite untag; by apply Z.mod_small). rewrite <- Z.land_assoc. by apply Z.land_0_r. }
  rewrite <- Z.lxor_lor, <- Z.add_nocarry_lxor by done. done.
Qed.

(** The address whose tag is removed keeps its page and its offset. *)
Definition retagged (gva gva' gva1 gva1' : Z) : Prop := gva1' = gva1 + (gva' - gva) /\ same_page gva1 gva1' /\ gva1 mod 4096 = gva mod 4096.

Lemma select_by_pages regs gva gva' : same_page gva gva' -> let '(ret, gva1, ttbr) := arm64_guest_gva_select_ttbr regs gva in
  exists gva1', arm64_guest_gva_select_ttbr regs gva' = (ret, gva1', ttbr) /\ (ret = 0 -> retagged gva gva' gva1 gva1').
Proof.
  intros Hp. unfold arm64_guest_gva_select_ttbr. destruct (_ || _) eqn:Et; [by eexists|].
  apply orb_false_iff in Et as [[[_ _]%orb_false_iff E0%negb_false_iff%Z.eqb_eq]%orb_false_iff E1%negb_false_iff%Z.eqb_eq]. rewrite E0, E1, !untag. cbn zeta.
  pose proof (same_page_mod 56 gva gva' ltac:(lia) Hp) as Hu. destruct (same_page_pow 56 gva gva' ltac:(lia) Hp) as [_ Eu].
  pose proof (Z.mod_pos_bound gva (2 ^ 56) ltac:(lia)). pose proof (Z.mod_pos_bound gva' (2 ^ 56) ltac:(lia)). rewrite !retag by done.
  pose proof (same_page_shift (gva mod 2 ^ 56) (gva' mod 2 ^ 56) 0xff00000000000000 ltac:(lia) ltac:(lia) eq_refl Hu) as Hv.
  assert ((gva mod 2 ^ 56) mod 4096 = gva mod 4096) as Em.
  { change (2 ^ 56) with (4096 * 2 ^ 44). rewrite Z.rem_mul_r, Z.mul_comm, Z.mod_add by lia. apply Z.mod_mod. lia. }
  rewrite <- (is_low_page _ _ Hu), <- (is_high_page _ _ Hv), <- (is_low_page _ _ Hp), <- (is_high_page _ _ Hp).
  assert (retagged gva gva' (gva mod 2 ^ 56) (gva' mod 2 ^ 56) /\ retagged gva gva' gva gva' /\
    retagged gva gva' (gva mod 2 ^ 56 + 0xff00000000000000) (gva' mod 2 ^ 56 + 0xff00000000000000)) as (R1 & R2 & R3).
  { unfold retagged. split; [done|]. split; [split; [lia|done]|]. split; [lia|]. split; [done|].
    change 0xff00000000000000 with (0xff0000000000 * 4096 * 16). rewrite <- Em. mlia. }
  destruct (_ && _); [destruct (negb _); eexists; by split|]. destruct (_ && _); [destruct (negb _); eexists; by split|].
  destruct (arm64_guest_gva_is_low _ _); [destruct (negb _); eexists; by split|]. destruct (arm64_guest_gva_is_high _ _); [destruct (negb _); eexists; by split|].
  eexists; by split.
Qed.

(** ** What an address must satisfy *)

(** The RAM window of a VM in host memory. *)
Definition config_ok (c : arch_vm_config) : Prop :=
  0 <= guest_ram_start c /\ 0 < guest_ram_size c /\ guest_ram_start c + guest_ram_size c <= UINT64_MAX /\
  0 < guest_ram_hpa c /\ guest_ram_hpa c + guest_ram_size c <= INVALID_HPA.

(** A VM outside of an update of its tables. *)
Record vm_ok (vm : stage2_vm) (s : walk) : Prop := {
  vm_wf : wf stage2_leaf_attrs (root_stg2ptp vm) s;
  vm_indexable : indexable (pool s);
  vm_owner : stage2_update_owner vm = 0;
  vm_id_ok : 0 <= s2_vm_id vm < CONFIG_MAX_VM_NUM;
}.

Section Access.
Context (get_vm_config : Z -> arch_vm_config) (vm : stage2_vm) (s : walk).
Hypothesis Cfg : config_ok (get_vm_config (s2_vm_id vm)).
Hypothesis Vm : vm_ok vm s.
Let cfg := get_vm_config (s2_vm_id vm).
Let root := root_stg2ptp vm.
Let valid := arm64_guest_gpa_range_valid get_vm_config vm.
Let to_hpa := gpa2hpa get_vm_config vm.

(** The guest physical addresses of the RAM. *)
Definition in_ram (gpa : Z) : Prop := guest_ram_start cfg <= gpa < guest_ram_start cfg + guest_ram_size cfg.

Lemma range_valid_iff gpa size : 0 < size -> valid gpa size = true <->
  guest_ram_start cfg <= gpa /\ gpa + size <= guest_ram_start cfg + guest_ram_size cfg.
Proof.
  intros Hs. destruct Cfg as (C1 & C2 & C3 & _). pose proof (vm_id_ok _ _ Vm). unfold valid, arm64_guest_gpa_range_valid. fold cfg in C1, C2, C3 |- *.
  rewrite (proj2 (Z.leb_gt CONFIG_MAX_VM_NUM _)), (proj2 (Z.eqb_neq size 0)), (proj2 (Z.eqb_neq (guest_ram_size cfg) 0)), (proj2 (Z.ltb_ge _ (guest_ram_start cfg))) by lia.
  cbn [orb]. destruct (Z.ltb_spec (UINT64_MAX - size) gpa); [split; [done|lia]|]. rewrite andb_true_iff, !Z.leb_le. done.
Qed.

Lemma valid1_iff gpa : valid gpa 1 = true <-> in_ram gpa.
Proof. rewrite range_valid_iff by lia. unfold in_ram. lia. Qed.

Lemma gpa2hpa_ram gpa : in_ram gpa -> to_hpa gpa = guest_ram_hpa cfg + (gpa - guest_ram_start cfg).
Proof.
  intros H. unfold to_hpa, gpa2hpa. fold valid cfg. rewrite (proj2 (valid1_iff gpa) H). destruct Cfg as (C1 & C2 & C3 & C4 & C5). fold cfg in C1, C2, C3, C4, C5.
  apply u64_small. unfold in_u64, in_ram, INVALID_HPA in *. change (Z.shiftl 1 52) with 4503599627370496 in C5. lia.
Qed.

Lemma hpa_window gpa : in_ram gpa -> 0 < to_hpa gpa < INVALID_HPA /\ guest_ram_hpa cfg <= to_hpa gpa < guest_ram_hpa cfg + guest_ram_size cfg.
Proof. intros H. rewrite gpa2hpa_ram by done. destruct Cfg as (C1 & C2 & C3 & C4 & C5). fold cfg in C1, C2, C3, C4, C5. unfold in_ram in H. lia. Qed.

Lemma gpa2hva_ram gpa : in_ram gpa -> gpa2hva get_vm_config vm gpa = to_hpa gpa /\ to_hpa gpa <> 0.
Proof.
  intros H. destruct (hpa_window gpa H) as [? _]. unfold gpa2hva. fold to_hpa. by rewrite (proj2 (Z.eqb_neq _ INVALID_HPA)) by lia; split; [|lia].
Qed.

(** Stage 2 gives the VM this access to the address, as RAM. *)
Definition accessible (access : arm64_guest_memory_access) (gpa : Z) : Prop :=
  in_ram gpa /\ va_ok gpa /\ exists a, xlate (mem s) root gpa = Some (to_hpa gpa, a) /\
    Z.land a PAGE_S2_MEMATTR_MASK = PAGE_S2_MEMATTR_NORMAL /\ Z.land a PAGE_S2_S2AP_READ <> 0 /\
    (is_write access = true -> Z.land a PAGE_S2_S2AP_WRITE <> 0).

Lemma attrs_ap e : Z.land (attrs e) PAGE_S2_S2AP_READ = Z.land e PAGE_S2_S2AP_READ /\ Z.land (attrs e) PAGE_S2_S2AP_WRITE = Z.land e PAGE_S2_S2AP_WRITE.
Proof. unfold attrs. by rewrite <- !Z.land_assoc. Qed.

(** The check of an address decides this. *)
Lemma validate_spec access gpa : exists ret, arm64_guest_gva_validate_gpa get_vm_config vm gpa access s = Ret ret /\
  (ret = 0 <-> accessible access gpa) /\ (~ in_ram gpa -> ret = - EFAULT).
Proof.
  unfold arm64_guest_gva_validate_gpa. fold valid to_hpa. destruct (valid gpa 1) eqn:Ev; cbn [negb].
  2: { assert (~ in_ram gpa) by (intros H%valid1_iff; congruence). exists (- EFAULT). split; [done|]. split; [|done]. split; [done|]. by intros (? & _). }
  apply valid1_iff in Ev as Hram. destruct (decide (va_ok gpa)) as [Hva|Hva].
  2: { exists (- EINVAL). split; [|split; [|done]]; [|split; [done|by intros (_ & ? & _)]].
       unfold arm64_stage2_walk. change ARM64_STAGE2_ADDRESS_LIMIT with VA_LIMIT. destruct Cfg as (C1 & _). fold cfg in C1.
       rewrite (proj2 (Z.leb_le VA_LIMIT gpa)) by (unfold va_ok, in_ram in *; lia). done. }
  destruct (stage2_walk_reports vm s gpa) as (w & Ew & Hm & Hr); try apply Vm; [pose proof (vm_id_ok _ _ Vm); unfold CONFIG_MAX_VM_NUM, ARM64_STAGE2_VMID_MASK in *; lia|done|].
  rewrite Ew. cbn [mbind outcome_bind Z.eqb]. unfold reported in Hr. fold root in Hr. destruct (result w); [|eexists; split; [done|]; split; [|done]; split; [done|]; intros (_ & _ & a & E & _); congruence|done].
  destruct Hr as (st & -> & Ex). destruct (hpa_window gpa Hram) as [? _]. destruct (attrs_ap (descriptor st)) as [Ar Aw]. pose proof (attrs_memattr (descriptor st)) as Am.
  rewrite (proj2 (Z.eqb_neq (to_hpa gpa) INVALID_HPA)), orb_false_r by lia. eexists. split; [done|]. split; [|done]. unfold accessible. rewrite Ex, <- Ar, <- Aw, <- Am.
  destruct (Z.eqb_spec (Z.land (attrs (descriptor st)) PAGE_S2_MEMATTR_MASK) PAGE_S2_MEMATTR_NORMAL) as [E1|N1]; cbn [negb orb];
    [|split; [done|]; intros (_ & _ & a & [= _ <-] & ? & _); done].
  destruct (Z.eqb_spec (Z.land (attrs (descriptor st)) PAGE_S2_S2AP_READ) 0) as [E2|N2]; cbn [orb];
    [split; [done|]; intros (_ & _ & a & [= _ <-] & _ & ? & _); done|].
  destruct (is_write access && (Z.land (attrs (descriptor st)) PAGE_S2_S2AP_WRITE =? 0)) eqn:E3; cbn [orb].
  { apply andb_true_iff in E3 as [Hw E3%Z.eqb_eq]. split; [done|]. intros (_ & _ & a & [= _ <-] & _ & _ & Hn). by destruct (Hn Hw). }
  destruct (Z.eqb_spec (hpa w) (to_hpa gpa)) as [E4|N4]; cbn [negb]; [|split; [done|]; intros (_ & _ & a & [= ? _] & _); done].
  split; [intros _|done]. do 2 (split; [done|]). eexists. split; [by rewrite E4|]. do 2 (split; [done|]). intros Hw. rewrite Hw in E3. by apply Z.eqb_neq in E3.
Qed.

Lemma accessible_page access gpa gpa' : accessible access gpa -> same_page gpa gpa' -> in_ram gpa' -> accessible access gpa'.
Proof.
  intros (Hr & Hva & a & Ex & Ha) Hp Hr'. split; [done|]. split.
  - destruct (same_page_pow 48 gpa gpa' ltac:(lia) Hp) as [E _]. unfold va_ok, VA_LIMIT in *. rewrite Z.div_small in E by lia.
    pose proof Hp as (_ & ? & _). split; [done|]. symmetry in E. apply Z.div_small_iff in E; lia.
  - exists a. split; [|done]. rewrite (xlate_page _ _ _ _ _ _ Hp Ex). rewrite !gpa2hpa_ram by done. do 2 f_equal. lia.
Qed.

(** ** The walk of the guest's tables *)
Context (access : arm64_guest_memory_access) (host : Z -> Z).

Lemma read_pte_total gpa : exists ret d, arm64_guest_gva_read_pte get_vm_config vm gpa s host = Ret (ret, d).
Proof.
  unfold arm64_guest_gva_read_pte. destruct (validate_spec MEMORY_READ gpa) as (ret & -> & _). cbn [mbind outcome_bind].
  destruct (ret =? 0); [|by eauto]. destruct (copy_from_gpa _ _ _ _ _ _) as [r d]. by eauto.
Qed.

(** [x] is the outcome for an address that translates to [gpa] when [gpa] is RAM. *)
Definition lands (x : outcome (Z * Z)) (gpa : Z) : Prop :=
  exists ret g, x = Ret (ret, g) /\ (in_ram gpa -> ret = 0 /\ g = gpa) /\ (~ in_ram gpa -> ret <> 0).

(** [f] translates the pages around [gva] as wholes. *)
Definition by_pages (f : Z -> outcome (Z * Z)) (gva : Z) : Prop := exists ret gpa, f gva = Ret (ret, gpa) /\
  (ret = 0 -> accessible access gpa /\ gpa mod 4096 = gva mod 4096 /\ forall gva', same_page gva gva' -> lands (f gva') (gpa + (gva' - gva))).

Lemma output_page d m : page_ok (Z.land (Z.land d PFN_MASK) m).
Proof. rewrite <- Z.land_assoc, (Z.land_comm PFN_MASK), Z.land_assoc. apply page_addr_ok. Qed.

(** The end of the walk at a leaf of [2 ^ k] bytes. *)
Lemma leaf_by_pages k d : 12 <= k <= 39 -> forall gva, 0 <= gva ->
  by_pages (fun gva => gva_leaf get_vm_config d (2 ^ k) gva vm access s) gva.
Proof.
  intros Hk gva Hg. unfold by_pages, gva_leaf. destruct (_ || _); [by eexists _, _|]. cbn zeta. destruct (output_page d (not64 (2 ^ k - 1))) as [Ho Hal].
  set (o := Z.land (Z.land d PFN_MASK) _) in *. assert (forall x, (UINT64_MAX - o <? Z.land x (2 ^ k - 1)) = false) as Hno.
  { intros x. rewrite land_low by lia. apply Z.ltb_ge. pose proof (Z.mod_pos_bound x (2 ^ k) ltac:(apply Z.pow_pos_nonneg; lia)).
    pose proof (Z.pow_le_mono_r 2 k 39 ltac:(lia) ltac:(lia)). lia. }
  rewrite Hno. destruct (validate_spec access (o + Z.land gva (2 ^ k - 1))) as (ret & -> & Hret & _). cbn [mbind outcome_bind].
  rewrite !land_low in * by lia. exists ret, (o + gva mod 2 ^ k). split; [done|]. intros Hr0. apply Hret in Hr0 as Hacc. split; [done|].
  assert ((o + gva mod 2 ^ k) mod 4096 = gva mod 4096) as Em.
  { apply Z.mod_divide in Hal as [q ->]; [|lia]. rewrite Z.add_comm, Z.mod_add by lia.
    replace (2 ^ k) with (4096 * 2 ^ (k - 12)) by (change 4096 with (2 ^ 12); rewrite <- Z.pow_add_r by lia; f_equal; lia).
    pose proof (Z.pow_pos_nonneg 2 (k - 12) ltac:(lia) ltac:(lia)). rewrite Z.rem_mul_r, Z.mul_comm, Z.mod_add by lia. apply Z.mod_mod. lia. }
  split; [done|]. intros gva' Hp. rewrite Hno. destruct (same_page_pow k gva gva' ltac:(lia) Hp) as [_ E2]. rewrite land_low by lia.
  replace (o + gva mod 2 ^ k + (gva' - gva)) with (o + gva' mod 2 ^ k) by lia.
  destruct (validate_spec access (o + gva' mod 2 ^ k)) as (ret' & -> & Hret' & Hnram). cbn [mbind outcome_bind]. eexists _, _. split; [done|]. split.
  - intros Hram. split; [|done]. apply Hret'. apply (accessible_page access (o + gva mod 2 ^ k)); [done| |done].
    apply (same_page_mod k) in Hp; [|lia]. rewrite !(Z.add_comm o). pose proof Hp as (? & ? & _). apply same_page_shift; [lia|lia|done|done].
  - intros Hn ->. by apply Hn, Hret'.
Qed.

Lemma by_pages_ext f g gva : 0 <= gva -> (forall gva', same_page gva gva' -> f gva' = g gva') -> by_pages g gva -> by_pages f gva.
Proof.
  intros Hg H (ret & gpa & E & Hr). exists ret, gpa. rewrite H by done. split; [done|]. intros Hr0. destruct (Hr Hr0) as (H1 & H2 & H3).
  do 2 (split; [done|]). intros gva' Hp. rewrite H by done. by apply H3.
Qed.

Lemma by_pages_fail f gva ret x : ret <> 0 -> 0 <= gva -> (forall gva', same_page gva gva' -> f gva' = Ret (ret, x)) -> by_pages f gva.
Proof. intros Hr Hg H. exists ret, x. rewrite H by done. by split. Qed.

Lemma gva_walk_by_pages : forall n level table gva, Z.of_nat n + level = 3 -> 0 <= level -> 0 <= gva ->
  by_pages (fun gva => gva_walk get_vm_config n level table gva vm access s host) gva.
Proof.
  induction n as [|n IH]; intros level table gva Hn Hl Hg;
    assert (forall gva', same_page gva gva' -> Z.land (Z.shiftr gva' (39 - level * 9)) (PTRS_PER_PGTL - 1) = Z.land (Z.shiftr gva (39 - level * 9)) (PTRS_PER_PGTL - 1)) as Hix
      by (intros gva' Hp; rewrite !Z.shiftr_div_pow2 by lia; by destruct (same_page_pow (39 - level * 9) gva gva' ltac:(lia) Hp) as [-> _]);
    set (ix := Z.land (Z.shiftr gva (39 - level * 9)) (PTRS_PER_PGTL - 1)) in *;
    destruct (read_pte_total (table + ix * 8)) as (ret & d & Ed);
    pose proof (leaf_by_pages 12 d ltac:(lia) gva Hg) as Hpage; pose proof (leaf_by_pages (39 - level * 9) d ltac:(lia) gva Hg) as Hblock.
  all: eapply by_pages_ext; [done|intros gva' Hp; cbn [gva_walk]; rewrite (Hix gva' Hp), Ed; cbn [mbind outcome_bind]; reflexivity|].
  all: destruct (UINT64_MAX - ix * 8 <? table); [by apply (by_pages_fail _ _ (- EFAULT) 0)|].
  all: destruct (Z.eqb_spec ret 0) as [->|Hr]; cbn [negb]; [|by apply (by_pages_fail _ _ ret 0)].
  all: destruct (Z.land d ARM64_GVA_PTE_VALID =? 0); [by apply (by_pages_fail _ _ (- EFAULT) 0)|]; cbn zeta.
  - assert (level = 3) as -> by lia. cbn [Z.eqb Pos.eqb]. by destruct (Z.land d ARM64_GVA_PTE_TABLE =? 0); [apply (by_pages_fail _ _ (- EFAULT) 0)|].
  - rewrite (proj2 (Z.eqb_neq level 3)) by lia. rewrite Z.shiftl_1_l. destruct (Z.land d ARM64_GVA_PTE_TABLE =? 0).
    + by destruct (level =? 0); [apply (by_pages_fail _ _ (- EFAULT) 0)|].
    + clear Hpage Hblock. destruct (_ && _); [by apply (by_pages_fail _ _ (- EACCES) 0)|]. apply IH; lia.
Qed.

(** The whole translation maps pages to pages. *)
Lemma translate_by_pages regs gva : 0 <= gva -> by_pages (fun gva => arm64_guest_gva_translate get_vm_config vm regs gva access s host) gva.
Proof.
  intros Hg. unfold arm64_guest_gva_translate. fold valid. destruct (Z.land (sctlr_el1 regs) ARM64_GVA_SCTLR_M =? 0).
  - assert (forall g, exists ret x, (if negb (valid g 1) then Ret (- EFAULT, 0)
      else ret ← arm64_guest_gva_validate_gpa get_vm_config vm g access s; Ret (ret, if ret =? 0 then g else 0)) = Ret (ret, x) /\
      (ret = 0 <-> accessible access g) /\ (ret = 0 -> x = g)) as Hstep.
    { intros g. destruct (valid g 1) eqn:Ev; cbn [negb].
      - destruct (validate_spec access g) as (ret & -> & Hret & _). cbn [mbind outcome_bind]. eexists _, _. split; [done|]. split; [done|]. by intros ->.
      - eexists _, _. split; [done|]. split; [|done]. split; [done|]. intros (Hr%valid1_iff & _). congruence. }
    destruct (Hstep gva) as (ret & x & E & Hret & Hx). exists ret, x. split; [done|]. intros Hr0. rewrite (Hx Hr0). apply Hret in Hr0 as Hacc.
    do 2 (split; [done|]). intros gva' Hp. replace (gva + (gva' - gva)) with gva' by lia. destruct (Hstep gva') as (ret' & x' & E' & Hret' & Hx').
    exists ret', x'. split; [done|]. split.
    + intros Hr. assert (ret' = 0) by (apply Hret'; by apply (accessible_page access gva)). auto.
    + intros Hn ->. destruct Hret' as [Hret' _]. by destruct (Hret' eq_refl) as (? & _).
  - pose proof (select_by_pages regs gva) as Hsel. destruct (arm64_guest_gva_select_ttbr regs gva) as [[ret gva1] ttbr] eqn:Es.
    assert (same_page gva gva) as Hrefl by done.
    destruct (Z.eqb_spec ret 0) as [->|Hr]; cbn [negb].
    + destruct (Hsel gva Hrefl) as (? & _ & R0). destruct (R0 eq_refl) as (_ & Hg1 & Em). destruct (gva_walk_by_pages 3 0 (Z.land ttbr PFN_MASK) gva1 ltac:(lia) ltac:(lia) (proj1 Hg1)) as (ret & gpa & E & Hok).
      exists ret, gpa. rewrite Es. cbn [Z.eqb negb]. split; [done|]. intros Hr0. destruct (Hok Hr0) as (H1 & H2 & H3). do 2 (split; [congruence|]).
      intros gva' Hp. destruct (Hsel gva' Hp) as (gva1' & Es' & R). destruct (R eq_refl) as (E1 & Hp1 & _). rewrite Es'. cbn [Z.eqb negb].
      replace (gpa + (gva' - gva)) with (gpa + (gva1' - gva1)) by lia. by apply H3.
    + apply (by_pages_fail _ _ ret 0); [done|done|]. intros gva' Hp. destruct (Hsel gva' Hp) as (gva1' & -> & _). by rewrite (proj2 (Z.eqb_neq ret 0) Hr).
Qed.
End Access.

(** ** Copies *)
Lemma read_bytes_lookup host a n i : (i < n)%nat -> read_bytes host a n !! i = Some (host (a + Z.of_nat i)).
Proof. intros H. unfold read_bytes. rewrite list_lookup_fmap, lookup_seq_lt by done. done. Qed.

Lemma read_bytes_length host a n : length (read_bytes host a n) = n.
Proof. unfold read_bytes. by rewrite length_fmap, length_seq. Qed.

Lemma chunk_bounds cur remaining : 0 <= cur -> 0 < remaining -> let c := chunk_size cur remaining in
  1 <= c <= remaining /\ c <= 4096 /\ forall i, 0 <= i < c -> same_page cur (cur + i).
Proof.
  intros Hc Hr. cbn zeta. unfold chunk_size, ARM64_GVA_PAGE_SIZE, ARM64_GVA_PAGE_MASK. change 4095 with (2 ^ 12 - 1). rewrite land_low by lia.
  change (2 ^ 12) with 4096. pose proof (Z.mod_pos_bound cur 4096 ltac:(lia)). rewrite u32_small by (unfold in_u32; lia).
  assert (forall i, 0 <= i < 4096 - cur mod 4096 -> same_page cur (cur + i)) as Hp by (intros i Hi; split_and!; [lia|lia|mlia]).
  destruct (Z.ltb_spec remaining (4096 - cur mod 4096)); split_and!; try lia; intros i Hi; apply Hp; lia.
Qed.

Section Copies.
Context (get_vm_config : Z -> arch_vm_config) (vm : stage2_vm) (s : walk).
Hypothesis Cfg : config_ok (get_vm_config (s2_vm_id vm)).
Hypothesis Vm : vm_ok vm s.
Let cfg := get_vm_config (s2_vm_id vm).
Let ram := in_ram get_vm_config vm.
Let to_hpa := gpa2hpa get_vm_config vm.

(** A range of RAM is one range of host memory. *)
Lemma range_hpa gpa size : 0 < size -> arm64_guest_gpa_range_valid get_vm_config vm gpa size = true <-> (forall i, 0 <= i < size -> ram (gpa + i)).
Proof.
  intros Hs. rewrite (range_valid_iff _ _ _ Cfg Vm) by done. unfold ram, in_ram. split; [intros; lia|]. intros H. pose proof (H 0). pose proof (H (size - 1)). lia.
Qed.

Lemma to_hpa_add gpa i : ram gpa -> ram (gpa + i) -> to_hpa (gpa + i) = to_hpa gpa + i.
Proof. intros H1 H2. unfold to_hpa. rewrite !(gpa2hpa_ram _ _ _ Cfg Vm) by done. lia. Qed.

Lemma copy_from_gpa_spec gpa size host : 0 < size -> copy_from_gpa get_vm_config vm true gpa size host =
  if arm64_guest_gpa_range_valid get_vm_config vm gpa size then (0, read_bytes host (to_hpa gpa) (Z.to_nat size)) else (- EFAULT, []).
Proof.
  intros Hs. unfold copy_from_gpa. rewrite (proj2 (Z.eqb_neq size 0)) by lia. cbn [negb]. destruct (arm64_guest_gpa_range_valid _ _ _ _) eqn:E; [|done].
  pose proof (proj1 (range_hpa gpa size Hs) E 0 ltac:(lia)) as Hr. rewrite Z.add_0_r in Hr.
  destruct (gpa2hva_ram _ _ _ Cfg Vm gpa Hr) as [-> Hn]. by rewrite (proj2 (Z.eqb_neq _ 0) Hn).
Qed.

Lemma copy_to_gpa_spec gpa size data host : 0 < size -> copy_to_gpa get_vm_config vm (Some data) gpa size host =
  if arm64_guest_gpa_range_valid get_vm_config vm gpa size then (0, write_bytes (to_hpa gpa) (take (Z.to_nat size) data) host) else (- EFAULT, host).
Proof.
  intros Hs. unfold copy_to_gpa. rewrite (proj2 (Z.eqb_neq size 0)) by lia. destruct (arm64_guest_gpa_range_valid _ _ _ _) eqn:E; [|done].
  pose proof (proj1 (range_hpa gpa size Hs) E 0 ltac:(lia)) as Hr. rewrite Z.add_0_r in Hr.
  destruct (gpa2hva_ram _ _ _ Cfg Vm gpa Hr) as [-> Hn]. by rewrite (proj2 (Z.eqb_neq _ 0) Hn).
Qed.

(** The bytes of one page that a chunk covers. *)
Lemma chunk_cases regs access host cur size : 0 <= cur -> 0 < size -> (forall i, 0 <= i < size -> same_page cur (cur + i)) ->
  let T a := arm64_guest_gva_translate get_vm_config vm regs a access s host in
  (exists ret x, T cur = Ret (ret, x) /\ ret <> 0) \/
  (exists gpa, T cur = Ret (0, gpa) /\ arm64_guest_gpa_range_valid get_vm_config vm gpa size = false /\
    exists i, 0 <= i < size /\ forall g, T (cur + i) <> Ret (0, g)) \/
  (exists gpa, T cur = Ret (0, gpa) /\ arm64_guest_gpa_range_valid get_vm_config vm gpa size = true /\
    forall i, 0 <= i < size -> T (cur + i) = Ret (0, gpa + i) /\ to_hpa (gpa + i) = to_hpa gpa + i /\ accessible get_vm_config vm s access (gpa + i)).
Proof.
  intros Hc Hs Hp T. destruct (translate_by_pages _ _ _ Cfg Vm access host regs cur Hc) as (ret & gpa & E & Hok). fold (T cur) in E.
  destruct (Z.eq_dec ret 0) as [->|Hr]; [|by left; eauto]. right. destruct (Hok eq_refl) as (Hacc & Hoff & Hl).
  assert (forall i, 0 <= i < size -> lands get_vm_config vm (T (cur + i)) (gpa + i)) as Hli.
  { intros i Hi. replace (gpa + i) with (gpa + (cur + i - cur)) by lia. by apply Hl, Hp. }
  destruct (arm64_guest_gpa_range_valid get_vm_config vm gpa size) eqn:Ev.
  - right. exists gpa. split; [done|]. split; [done|]. intros i Hi. pose proof (proj1 (range_hpa gpa size Hs) Ev) as Hram.
    destruct (Hli i Hi) as (ret & g & Eg & Hin & _). destruct (Hin (Hram i Hi)) as [-> ->]. split; [done|].
    split; [apply to_hpa_add; [|by apply Hram]; rewrite <- (Z.add_0_r gpa); apply Hram; lia|].
    apply (accessible_page _ _ _ Cfg Vm access gpa); [done| |by apply Hram]. destruct Hacc as (_ & [Hg0 _] & _). destruct (Hp i Hi) as (_ & _ & Hq).
    split_and!; [done|lia|]. mlia.
  - left. exists gpa. split; [done|]. split; [done|]. exists (size - 1). split; [lia|]. intros g Hg.
    destruct (Hli (size - 1) ltac:(lia)) as (ret & g' & Eg & _ & Hout). rewrite Hg in Eg. injection Eg as <- <-. apply Hout; [|done].
    intros Hr1. destruct Hacc as (Hr0 & _). apply not_true_iff_false in Ev. apply Ev. apply range_hpa; [done|]. intros i Hi. unfold ram, in_ram in *. lia.
Qed.

(** *** Reading *)
Definition byte_at (regs : el1_regs) (access : arm64_guest_memory_access) (host : Z -> Z) (a gpa : Z) : Prop :=
  arm64_guest_gva_translate get_vm_config vm regs a access s host = Ret (0, gpa).

(** [d] holds the bytes of the addresses from [cur] on. *)
Definition bytes_of (regs : el1_regs) (host : Z -> Z) (cur : Z) (d : list Z) : Prop := forall i, (i < length d)%nat ->
  exists gpa, byte_at regs MEMORY_READ host (cur + Z.of_nat i) gpa /\ d !! i = Some (host (to_hpa gpa)).

Lemma bytes_of_app regs host cur d1 d2 : bytes_of regs host cur d1 -> bytes_of regs host (cur + Z.of_nat (length d1)) d2 -> bytes_of regs host cur (d1 ++ d2).
Proof.
  intros H1 H2 i Hi. rewrite length_app in Hi. destruct (decide (i < length d1)%nat) as [Hl|Hl].
  - rewrite lookup_app_l by done. by apply H1.
  - rewrite lookup_app_r by lia. destruct (H2 (i - length d1)%nat ltac:(lia)) as (gpa & Hg & Hd). exists gpa. split; [|done].
    by replace (cur + Z.of_nat i) with (cur + Z.of_nat (length d1) + Z.of_nat (i - length d1)) by lia.
Qed.

(** What a copy of [remaining] bytes from [cur] on delivered when it stopped at
    [cur'] with status [ret]. *)
Definition delivered (regs : el1_regs) (host : Z -> Z) (cur remaining ret cur' : Z) (d : list Z) : Prop :=
  cur' = cur + Z.of_nat (length d) /\ cur' <= cur + remaining /\ bytes_of regs host cur d /\ (ret = 0 -> cur' = cur + remaining) /\
  (ret <> 0 -> exists a, cur' <= a < cur + remaining /\ same_page cur' a /\ forall gpa, ~ byte_at regs MEMORY_READ host a gpa).

Lemma delivered_nil regs host cur : delivered regs host cur 0 0 cur [].
Proof. split_and!; try done; cbn; try lia. intros i Hi. cbn in Hi. lia. Qed.

Lemma delivered_fail regs host cur remaining ret i : 0 <= i < remaining -> same_page cur (cur + i) -> ret <> 0 ->
  (forall gpa, ~ byte_at regs MEMORY_READ host (cur + i) gpa) -> delivered regs host cur remaining ret cur [].
Proof.
  intros Hi Hp Hr Hn. split; [cbn; lia|]. split; [lia|]. split; [intros j Hj; cbn in Hj; lia|]. split; [done|].
  intros _. exists (cur + i). split_and!; try done; try lia; apply Hp.
Qed.

Lemma copy_from_loop_spec ctx gens host : (forall k, gens k = ctx_generation ctx) -> forall fuel cur remaining dest k,
  0 <= cur -> 0 <= remaining <= UINT32_MAX -> cur + remaining <= UINT64_MAX -> (Z.to_nat remaining <= fuel)%nat ->
  exists ret cur' d, copy_from_loop get_vm_config fuel vm ctx cur remaining dest gens k s host = Ret (ret, cur', dest ++ d) /\
    delivered (ctx_regs ctx) host cur remaining ret cur' d.
Proof.
  intros Hgen. induction fuel as [|fuel IH]; intros cur remaining dest k Hc Hr Hmax Hf; cbn [copy_from_loop]; destruct (Z.ltb_spec 0 remaining) as [Hpos|]; try lia;
    try (assert (remaining = 0) as -> by lia; exists 0, cur, []; rewrite app_nil_r; split; [done|apply delivered_nil]).
  destruct (chunk_bounds cur remaining Hc Hpos) as (Hch & H4 & Hp). set (chunk := chunk_size cur remaining) in *. clearbody chunk. cbn zeta.
  assert (0 < chunk) as Hch0 by lia. pose proof (Hp 0 ltac:(lia)) as Hp0.
  destruct (chunk_cases (ctx_regs ctx) MEMORY_READ host cur chunk Hc Hch0 Hp) as [(ret & x & E & Hn)|[(gpa & E & Ev & j & Hj & Hno)|(gpa & E & Ev & Hall)]];
    rewrite E; cbn [mbind outcome_bind].
  - rewrite (proj2 (Z.eqb_neq ret 0) Hn). cbn [negb]. exists ret, cur, []. rewrite app_nil_r. split; [done|].
    apply (delivered_fail _ _ _ _ _ 0); [lia|done|done|]. unfold byte_at. rewrite Z.add_0_r, E. intros g [= ? _]. done.
  - cbn [Z.eqb negb]. rewrite copy_from_gpa_spec, Ev by done. exists (- EFAULT), cur, []. rewrite app_nil_r. split; [done|].
    apply (delivered_fail _ _ _ _ _ j); [lia|by apply Hp|done|done].
  - cbn [Z.eqb negb]. rewrite copy_from_gpa_spec, Ev, Hgen, !Z.eqb_refl by done. cbn [negb].
    rewrite u64_small, u32_small by (unfold in_u64, in_u32; lia). set (d := read_bytes host (to_hpa gpa) (Z.to_nat chunk)).
    assert (Z.of_nat (length d) = chunk) as Hd by (unfold d; rewrite read_bytes_length; lia).
    destruct (IH (cur + chunk) (remaining - chunk) (dest ++ d) (S k) ltac:(lia) ltac:(lia) ltac:(lia) ltac:(lia)) as (ret & cur' & d' & El & D1 & D2 & D3 & D4 & D5).
    exists ret, cur', (d ++ d'). rewrite El, <- app_assoc. split; [done|]. unfold delivered. rewrite length_app. split; [lia|]. split; [lia|].
    split; [apply bytes_of_app; [|by rewrite Hd]|replace (cur + remaining) with (cur + chunk + (remaining - chunk)) by lia; done].
    intros i Hi. destruct (Hall (Z.of_nat i) ltac:(lia)) as (Ht & Eh & _). exists (gpa + Z.of_nat i). split; [done|].
    unfold d. rewrite read_bytes_lookup by (unfold d in Hi; by rewrite read_bytes_length in Hi). by rewrite Eh.
Qed.

(** *** Writing *)
Lemma write_bytes_out a data host x : ~ (a <= x < a + Z.of_nat (length data)) -> write_bytes a data host x = host x.
Proof. intros H. unfold write_bytes. destruct (Z.leb_spec a x), (Z.ltb_spec x (a + Z.of_nat (length data))); try done. lia. Qed.

Lemma write_bytes_in a data host i b : data !! i = Some b -> write_bytes a data host (a + Z.of_nat i) = b.
Proof.
  intros H. pose proof (lookup_lt_Some _ _ _ H). unfold write_bytes. rewrite (proj2 (Z.leb_le a _)), (proj2 (Z.ltb_lt _ (a + _))) by lia. cbn [andb].
  replace (Z.to_nat (a + Z.of_nat i - a)) with i by lia. by apply nth_lookup_Some.
Qed.

(** A copy into the VM returns and changes only bytes that stage 2 lets the VM write. *)
Lemma copy_to_loop_confined ctx gens : forall fuel cur remaining source k host,
  0 <= cur -> 0 <= remaining <= UINT32_MAX -> cur + remaining <= UINT64_MAX -> (Z.to_nat remaining <= fuel)%nat -> exists ret cur' host',
  copy_to_loop get_vm_config fuel vm ctx cur remaining source gens k s host = Ret (ret, cur', host') /\
  forall x, host' x <> host x -> exists gpa, accessible get_vm_config vm s MEMORY_WRITE gpa /\ to_hpa gpa = x.
Proof.
  induction fuel as [|fuel IH]; intros cur remaining source k host Hc Hr Hmax Hf; cbn [copy_to_loop]; destruct (Z.ltb_spec 0 remaining) as [Hpos|]; try lia;
    try (by eexists _, _, _). cbn zeta.
  destruct (chunk_bounds cur remaining Hc Hpos) as (Hch & H4 & Hp). set (chunk := chunk_size cur remaining) in *. clearbody chunk.
  assert (0 < chunk) as Hch0 by lia.
  destruct (chunk_cases (ctx_regs ctx) MEMORY_WRITE host cur chunk Hc Hch0 Hp) as [(ret & x & E & Hn)|[(gpa & E & Ev & _)|(gpa & E & Ev & Hall)]];
    rewrite E; cbn [mbind outcome_bind].
  - rewrite (proj2 (Z.eqb_neq ret 0) Hn). by eexists _, _, _.
  - rewrite Z.eqb_refl, copy_to_gpa_spec, Ev by done. by eexists _, _, _.
  - rewrite Z.eqb_refl, copy_to_gpa_spec, Ev by done. cbn [negb]. rewrite Z.eqb_refl. cbn [negb]. set (host1 := write_bytes _ _ host).
    assert (forall x, host1 x <> host x -> exists gpa, accessible get_vm_config vm s MEMORY_WRITE gpa /\ to_hpa gpa = x) as H1.
    { intros x Hx. destruct (decide (to_hpa gpa <= x < to_hpa gpa + chunk)) as [Hin|Hout].
      - destruct (Hall (x - to_hpa gpa) ltac:(lia)) as (_ & Eh & Ha). exists (gpa + (x - to_hpa gpa)). split; [done|]. lia.
      - destruct Hx. apply write_bytes_out. rewrite length_take. lia. }
    destruct (negb _); [by eexists _, _, _|]. rewrite u64_small, u32_small by (unfold in_u64, in_u32; lia).
    destruct (IH (cur + chunk) (remaining - chunk) (drop (Z.to_nat chunk) source) (S k) host1 ltac:(lia) ltac:(lia) ltac:(lia) ltac:(lia)) as (ret & cur' & host' & El & Hl).
    exists ret, cur', host'. split; [done|]. intros x Hx. destruct (decide (host' x = host1 x)) as [E1|N1]; [|by apply Hl]. apply H1. congruence.
Qed.

Section Exact.
Context (regs : el1_regs) (host0 : Z -> Z) (gva size : Z) (data : list Z).
Hypothesis Size : Z.of_nat (length data) = size.

(** The bytes the copy is for. *)
Definition target (i gpa : Z) : Prop := 0 <= i < size /\ byte_at regs MEMORY_WRITE host0 (gva + i) gpa.
Definition touched (x : Z) : Prop := exists i gpa, target i gpa /\ to_hpa gpa = x.

(** The copy does not write to the tables that translate its own addresses, and
    no byte has two of the addresses. *)
Definition separate : Prop :=
  (forall host, (forall x, ~ touched x -> host x = host0 x) -> forall i, 0 <= i < size ->
    arm64_guest_gva_translate get_vm_config vm regs (gva + i) MEMORY_WRITE s host =
    arm64_guest_gva_translate get_vm_config vm regs (gva + i) MEMORY_WRITE s host0) /\
  (forall i j gi gj, target i gi -> target j gj -> to_hpa gi = to_hpa gj -> i = j).
Hypothesis Sep : separate.

(** The first [o] bytes are written and nothing else. *)
Definition written (o : Z) (host : Z -> Z) : Prop := (forall x, ~ touched x -> host x = host0 x) /\
  forall i gpa, target i gpa -> i < o -> data !! Z.to_nat i = Some (host (to_hpa gpa)).

Lemma written_chunk o chunk gpa host : written o host -> 0 <= o -> 0 < chunk -> o + chunk <= size ->
  (forall i, 0 <= i < chunk -> target (o + i) (gpa + i) /\ to_hpa (gpa + i) = to_hpa gpa + i) ->
  written (o + chunk) (write_bytes (to_hpa gpa) (take (Z.to_nat chunk) (drop (Z.to_nat o) data)) host).
Proof.
  intros [H1 H2] Ho Hc Hs Hall. set (d := take _ _). assert (Z.of_nat (length d) = chunk) as Hd by (unfold d; rewrite length_take, length_drop; lia). split.
  - intros x Hx. rewrite write_bytes_out; [by apply H1|]. intros Hin. apply Hx. destruct (Hall (x - to_hpa gpa) ltac:(lia)) as [Ht Eh].
    exists (o + (x - to_hpa gpa)), (gpa + (x - to_hpa gpa)). split; [done|lia].
  - intros i g Ht Hi. destruct (decide (i < o)) as [Hlt|Hge].
    + rewrite write_bytes_out; [by apply H2|]. intros Hin. destruct (Hall (to_hpa g - to_hpa gpa) ltac:(lia)) as [Ht' Eh].
      pose proof (proj2 Sep _ _ _ _ Ht Ht' ltac:(lia)). lia.
    + destruct (Hall (i - o) ltac:(lia)) as [Ht' Eh]. replace (o + (i - o)) with i in Ht' by lia.
      destruct Ht as [Hi0 Hb], Ht' as [_ Hb']. unfold byte_at in *. rewrite Hb in Hb'. injection Hb' as ->. rewrite Eh.
      destruct (lookup_lt_is_Some_2 data (Z.to_nat i) ltac:(lia)) as [b Eb]. rewrite Eb. f_equal. replace (i - o) with (Z.of_nat (Z.to_nat (i - o))) by lia.
      symmetry. apply write_bytes_in. unfold d. rewrite lookup_take_lt by lia. rewrite lookup_drop. rewrite <- Eb. f_equal. lia.
Qed.

Lemma copy_to_loop_spec ctx gens : ctx_regs ctx = regs -> (forall k, gens k = ctx_generation ctx) -> 0 <= gva -> gva + size <= UINT64_MAX -> size <= UINT32_MAX ->
  forall fuel o k host, 0 <= o <= size -> written o host -> (Z.to_nat (size - o) <= fuel)%nat -> exists ret o' host',
  copy_to_loop get_vm_config fuel vm ctx (gva + o) (size - o) (drop (Z.to_nat o) data) gens k s host = Ret (ret, gva + o', host') /\
  o <= o' <= size /\ written o' host' /\ (ret = 0 -> o' = size) /\
  (ret <> 0 -> exists i, o' <= i < size /\ same_page (gva + o') (gva + i) /\ forall gpa, ~ target i gpa).
Proof.
  intros Er Hgen Hg Hmax Hs32. induction fuel as [|fuel IH]; intros o k host Ho Hw Hf; cbn [copy_to_loop]; destruct (Z.ltb_spec 0 (size - o)) as [Hpos|]; try lia;
    try (assert (o = size) as -> by lia; exists 0, size, host; split_and!; try done; lia). cbn zeta.
  destruct (chunk_bounds (gva + o) (size - o) ltac:(lia) Hpos) as (Hch & H4 & Hp). set (chunk := chunk_size (gva + o) (size - o)) in *. clearbody chunk.
  assert (0 < chunk) as Hch0 by lia. assert (forall i gpa, 0 <= i < chunk -> byte_at regs MEMORY_WRITE host (gva + o + i) gpa <-> target (o + i) gpa) as Hsame.
  { intros i g Hi. unfold target, byte_at. replace (gva + o + i) with (gva + (o + i)) by lia. rewrite (proj1 Sep host (proj1 Hw) (o + i)) by lia. split; [split; [lia|done]|by intros []]. }
  rewrite Er. destruct (chunk_cases regs MEMORY_WRITE host (gva + o) chunk ltac:(lia) Hch0 Hp) as [(ret & x & E & Hn)|[(gpa & E & Ev & j & Hj & Hno)|(gpa & E & Ev & Hall)]];
    rewrite E; cbn [mbind outcome_bind].
  - rewrite (proj2 (Z.eqb_neq ret 0) Hn). cbn [negb]. exists ret, o, host. split; [done|]. split; [lia|]. split; [done|]. split; [done|]. intros _. exists o.
    split; [lia|]. split; [split_and!; [lia..|done]|]. intros g Hg0. rewrite <- (Z.add_0_r o) in Hg0. apply Hsame in Hg0; [|lia].
    unfold byte_at in Hg0. rewrite Z.add_0_r, E in Hg0. by injection Hg0 as ? _.
  - rewrite Z.eqb_refl, copy_to_gpa_spec, Ev by done. cbn [Z.eqb negb]. exists (- EFAULT), o, host. split; [done|]. split; [lia|]. split; [done|]. split; [done|].
    intros _. exists (o + j). split; [lia|]. split; [rewrite Z.add_assoc; by apply Hp|]. intros g Hg0. apply Hsame in Hg0; [|done]. by apply (Hno g).
  - rewrite Z.eqb_refl, copy_to_gpa_spec, Ev by done. cbn [negb]. rewrite Z.eqb_refl, Hgen, Z.eqb_refl. cbn [negb].
    rewrite u64_small, u32_small by (unfold in_u64, in_u32; lia). rewrite drop_drop.
    replace (gva + o + chunk) with (gva + (o + chunk)) by lia. replace (size - o - chunk) with (size - (o + chunk)) by lia.
    replace (Z.to_nat o + Z.to_nat chunk)%nat with (Z.to_nat (o + chunk)) by lia.
    destruct (IH (o + chunk) (S k) (write_bytes (to_hpa gpa) (take (Z.to_nat chunk) (drop (Z.to_nat o) data)) host)) as (ret & o' & host' & El & Ho' & Hw' & Hr'); try lia.
    + apply written_chunk; try done; try lia. intros i Hi. destruct (Hall i Hi) as (Ht & Eh & _). split; [|done]. by apply Hsame.
    + exists ret, o', host'. split; [exact El|]. split; [lia|done].
Qed.
End Exact.

(** An address that can be written can be read, at the same place. *)
Lemma accessible_read gpa : accessible get_vm_config vm s MEMORY_WRITE gpa -> accessible get_vm_config vm s MEMORY_READ gpa.
Proof. intros (H1 & H2 & a & H3 & H4 & H5 & _). split; [done|]. split; [done|]. by exists a. Qed.

Lemma validate_read gpa : arm64_guest_gva_validate_gpa get_vm_config vm gpa MEMORY_WRITE s = Ret 0 ->
  arm64_guest_gva_validate_gpa get_vm_config vm gpa MEMORY_READ s = Ret 0.
Proof.
  destruct (validate_spec _ _ _ Cfg Vm MEMORY_WRITE gpa) as (r1 & -> & H1 & _), (validate_spec _ _ _ Cfg Vm MEMORY_READ gpa) as (r2 & -> & H2 & _).
  intros [= ->]. f_equal. apply H2, accessible_read. by apply H1.
Qed.

Lemma gva_leaf_read d page_size gva gpa : gva_leaf get_vm_config d page_size gva vm MEMORY_WRITE s = Ret (0, gpa) ->
  gva_leaf get_vm_config d page_size gva vm MEMORY_READ s = Ret (0, gpa).
Proof.
  unfold gva_leaf. destruct (Z.land d ARM64_GVA_PTE_AF =? 0); [done|]. cbn [orb is_write andb]. destruct (2 <=? _); [done|]. cbn zeta. destruct (_ <? _); [done|].
  intros H. inv_ret. simplify_eq. by rewrite validate_read.
Qed.

Lemma gva_walk_read host : forall n level table gva gpa, gva_walk get_vm_config n level table gva vm MEMORY_WRITE s host = Ret (0, gpa) ->
  gva_walk get_vm_config n level table gva vm MEMORY_READ s host = Ret (0, gpa).
Proof.
  induction n as [|n IH]; intros level table gva gpa; cbn [gva_walk]; (destruct (_ <? _); [done|]);
    destruct (arm64_guest_gva_read_pte _ _ _ _ _) as [[ret d]| |]; try done; cbn [mbind outcome_bind]; (destruct (negb _); [done|]);
    (destruct (Z.land d ARM64_GVA_PTE_VALID =? 0); [done|]); cbn zeta;
    destruct (level =? 3); (destruct (Z.land d ARM64_GVA_PTE_TABLE =? 0); [try done|]); try apply gva_leaf_read;
    try (destruct (level =? 0); [done|apply gva_leaf_read]); cbn [is_write andb]; (destruct (2 <=? _); [done|]); [done|apply IH].
Qed.

Lemma translate_read regs host gva gpa : byte_at regs MEMORY_WRITE host gva gpa -> byte_at regs MEMORY_READ host gva gpa.
Proof.
  unfold byte_at, arm64_guest_gva_translate. destruct (Z.land (sctlr_el1 regs) ARM64_GVA_SCTLR_M =? 0).
  - destruct (negb _); [done|]. intros H. inv_ret. simplify_eq. by rewrite validate_read.
  - destruct (arm64_guest_gva_select_ttbr regs gva) as [[ret g] t]. destruct (negb _); [done|]. apply gva_walk_read.
Qed.
End Copies.

(** The attribution of a host address is the inverse of [gpa2hpa]. *)
Lemma hpa_to_gpa_exact get_vm_config vm s hpa gpa : config_ok (get_vm_config (s2_vm_id vm)) -> vm_ok vm s ->
  arm64_guest_hpa_to_gpa get_vm_config vm hpa = Some gpa <-> in_ram get_vm_config vm gpa /\ gpa2hpa get_vm_config vm gpa = hpa.
Proof.
  intros Cfg Vm. pose proof (vm_id_ok _ _ Vm). pose proof Cfg as (C1 & C2 & C3 & C4 & C5). set (cfg := get_vm_config (s2_vm_id vm)) in *.
  unfold INVALID_HPA in C5. change (Z.shiftl 1 52) with 4503599627370496 in C5. unfold arm64_guest_hpa_to_gpa. fold cfg.
  rewrite (proj2 (Z.leb_gt CONFIG_MAX_VM_NUM _)), (proj2 (Z.eqb_neq (guest_ram_size cfg) 0)), (proj2 (Z.ltb_ge _ (guest_ram_hpa cfg))) by lia. cbn [orb].
  assert (forall g, in_ram get_vm_config vm g -> gpa2hpa get_vm_config vm g = guest_ram_hpa cfg + (g - guest_ram_start cfg)) as Hh by (intros; by apply (gpa2hpa_ram _ _ _ Cfg Vm)).
  destruct (Z.ltb_spec hpa (guest_ram_hpa cfg)), (Z.leb_spec (guest_ram_hpa cfg + guest_ram_size cfg) hpa); cbn [orb];
    try (split; [done|]; intros [Hr E]; rewrite (Hh _ Hr) in E; unfold in_ram in Hr; fold cfg in Hr; lia).
  rewrite (proj2 (Z.ltb_ge _ (guest_ram_start cfg))) by lia. set (g := guest_ram_start cfg + (hpa - guest_ram_hpa cfg)).
  assert (in_ram get_vm_config vm g) as Hg by (unfold in_ram, g; fold cfg; lia). rewrite (proj2 (valid1_iff _ _ _ Cfg Vm g) Hg), (Hh g Hg).
  rewrite (proj2 (Z.eqb_eq _ hpa)) by (unfold g; lia). cbn [negb orb]. split.
  - intros [= <-]. split; [done|]. rewrite (Hh g Hg). unfold g. lia.
  - intros [Hr E]. rewrite (Hh _ Hr) in E. f_equal. unfold g. lia.
Qed.

(** With the guest's translation off, the addresses are guest physical ones. *)
Lemma mmu_off_separate get_vm_config vm s regs host gva size : config_ok (get_vm_config (s2_vm_id vm)) -> vm_ok vm s ->
  Z.land (sctlr_el1 regs) ARM64_GVA_SCTLR_M = 0 -> separate get_vm_config vm s regs host gva size.
Proof.
  intros Cfg Vm Hm. assert (forall h a, arm64_guest_gva_translate get_vm_config vm regs a MEMORY_WRITE s h = arm64_guest_gva_translate get_vm_config vm regs a MEMORY_WRITE s host) as Hh
    by (intros h a; unfold arm64_guest_gva_translate; rewrite Hm; change (0 =? 0) with true; cbv iota; reflexivity).
  assert (forall i g, target get_vm_config vm s regs host gva size i g -> g = gva + i /\ in_ram get_vm_config vm g) as Ht.
  { intros i g [_ Hb]. unfold byte_at, arm64_guest_gva_translate in Hb. rewrite Hm in Hb. cbn [Z.eqb] in Hb. destruct (negb _) eqn:Ev; [done|].
    apply negb_false_iff in Ev. inv_ret. simplify_eq. split; [done|]. by apply (valid1_iff _ _ _ Cfg Vm). }
  split; [intros; by apply Hh|]. intros i j gi gj [-> Hi]%Ht [-> Hj]%Ht E. rewrite !(gpa2hpa_ram _ _ _ Cfg Vm) in E by done. lia.
Qed.

(** ** Guarantees *)

(** The registers a copy works with. *)
Definition vcpu_regs (vcpu : gva_vcpu) : el1_regs := if v_running vcpu then v_live vcpu else v_gctx vcpu.

(** A vCPU whose memory can be accessed: it runs here or is paused, and its VM is
    not going through a lifecycle transition, [gens] being the readings of its
    generation. *)
Definition vcpu_settled (vcpu : gva_vcpu) (gens : nat -> Z) : Prop :=
  v_running vcpu || v_paused vcpu = true /\ gens 0%nat <> 0 /\ forall k, gens k = gens 0%nat.

Lemma snapshot_settled vcpu gens : vcpu_settled vcpu gens -> exists ctx, arm64_guest_gva_context_snapshot vcpu (gens 0%nat) = (0, ctx) /\
  ctx_regs ctx = vcpu_regs vcpu /\ forall k, gens k = ctx_generation ctx.
Proof.
  intros (Hr & Hg & Hk). unfold arm64_guest_gva_context_snapshot, vcpu_regs. destruct (v_running vcpu); [|destruct (v_paused vcpu); [|done]]; cbn;
    rewrite (proj2 (Z.eqb_neq _ 0) Hg); cbn; eexists; by split.
Qed.

Lemma gva_error_some ret gva : ret <> 0 -> exists err, err <> GUEST_MEMORY_ERR_NONE /\ report_status ret gva = (err, gva).
Proof.
  intros H. unfold report_status, arm64_guest_memory_report, arm64_guest_gva_error. rewrite (proj2 (Z.eqb_neq ret 0) H).
  destruct (ret =? - EBUSY), (ret =? - EAGAIN), (ret =? - EACCES), ((ret =? - ENODEV) || (ret =? - EIO));
    (eexists; split; [|reflexivity]; done).
Qed.

Section Guarantees.
Context (get_vm_config : Z -> arch_vm_config) (vcpu : gva_vcpu) (s : walk).
Let vm := v_vm vcpu.
Let regs := vcpu_regs vcpu.


(** C19: Whatever a guest's tables say, and however its registers, the generation
    and the data are, a copy into the VM returns, and every byte of host memory it
    changes belongs to the VM's RAM window, at an address that the stage-2 tables
    map there as normal memory the VM may write. *)
Theorem copy_to_gva_confined h_ptr gva size gens host : config_ok (get_vm_config (s2_vm_id vm)) -> vm_ok vm s ->
  0 <= gva -> 0 <= size <= UINT32_MAX ->
  exists ret report host', copy_to_gva get_vm_config vcpu h_ptr gva size gens s host = Ret (ret, report, host') /\
    forall x, host' x <> host x -> exists gpa a, in_ram get_vm_config vm gpa /\ gpa2hpa get_vm_config vm gpa = x /\
      xlate (mem s) (root_stg2ptp vm) gpa = Some (x, a) /\ Z.land a PAGE_S2_MEMATTR_MASK = PAGE_S2_MEMATTR_NORMAL /\ Z.land a PAGE_S2_S2AP_WRITE <> 0.
Proof.
  intros Cfg Vm Hg Hs. unfold copy_to_gva. destruct (Z.eqb_spec size 0) as [|Hn]; [by eexists _, _, _|]. destruct h_ptr as [source|]; [|by eexists _, _, _].
  destruct (Z.ltb_spec (UINT64_MAX - size) gva) as [|Hmax]; [by eexists _, _, _|]. destruct (arm64_guest_gva_context_snapshot vcpu (gens 0%nat)) as [ret ctx].
  destruct (negb _); [by eexists _, _, _|]. fold vm.
  destruct (copy_to_loop_confined get_vm_config vm s Cfg Vm ctx gens (Z.to_nat size) gva size source 1 host Hg Hs ltac:(lia) ltac:(lia)) as (ret' & cur' & host' & -> & Hx).
  cbn [mbind outcome_bind]. eexists _, _, _. split; [done|]. intros x Hne. destruct (Hx x Hne) as (gpa & (H1 & _ & a & E & M & _ & Hw) & <-).
  exists gpa, a. by split_and!; try apply H1; auto.
Qed.

(** C21: What is copied into a VM can be read back.  When the addresses translate
    for writing, and the copy writes neither to the guest tables that translate
    them nor to one byte through two of the addresses, it succeeds, and reading the
    same addresses afterwards gives the data. *)
Theorem guest_write_read gva size data gens host : config_ok (get_vm_config (s2_vm_id vm)) -> vm_ok vm s -> vcpu_settled vcpu gens ->
  0 <= gva -> Z.of_nat (length data) = size -> size <= UINT32_MAX -> gva + size <= UINT64_MAX ->
  separate get_vm_config vm s regs host gva size ->
  (forall i, 0 <= i < size -> exists gpa, byte_at get_vm_config vm s regs MEMORY_WRITE host (gva + i) gpa) ->
  exists host', copy_to_gva get_vm_config vcpu (Some data) gva size gens s host = Ret (0, (GUEST_MEMORY_ERR_NONE, 0), host') /\
    copy_from_gva get_vm_config vcpu true gva size gens s host' = Ret (0, (GUEST_MEMORY_ERR_NONE, 0), data).
Proof.
  intros Cfg Vm Hset Hg Hlen Hs Hmax Sep Hall.
  unfold copy_to_gva, copy_from_gva. rewrite (proj2 (Z.ltb_ge _ gva)) by lia. cbn [negb orb]. rewrite andb_false_r. destruct (Z.eqb_spec size 0) as [->|Hn].
  { exists host. split; [done|]. destruct data; [done|]. cbn in Hlen. lia. }
  destruct (snapshot_settled vcpu gens Hset) as (ctx & -> & Er & Hgen). cbn [Z.eqb negb]. fold vm. fold regs in Er.
  destruct (copy_to_loop_spec get_vm_config vm s Cfg Vm regs host gva size data Hlen Sep ctx gens Er Hgen Hg Hmax Hs (Z.to_nat size) 0 1 host) as (ret & o' & host' & E & Ho' & Hw & H0 & H1);
    [lia|by split; [|intros i gpa [? _] ?; lia]|lia|].
  rewrite Z.add_0_r, Z.sub_0_r in E. change (drop (Z.to_nat 0) data) with data in E. rewrite E. cbn [mbind outcome_bind].
  assert (ret = 0) as ->.
  { destruct (Z.eq_dec ret 0) as [|Hr]; [done|]. destruct (H1 Hr) as (i & Hi & _ & Hno). destruct (Hall i ltac:(lia)) as (gpa & Hb). by destruct (Hno gpa); split; [lia|]. }
  rewrite (H0 eq_refl) in *. exists host'. split; [done|].
  destruct (copy_from_loop_spec get_vm_config vm s Cfg Vm ctx gens host' Hgen (Z.to_nat size) gva size [] 1 Hg ltac:(lia) Hmax ltac:(lia)) as (ret & cur' & d & E' & D1 & D2 & D3 & D4 & D5).
  assert (forall i, 0 <= i < size -> exists gpa, target get_vm_config vm s regs host gva size i gpa /\ byte_at get_vm_config vm s regs MEMORY_READ host' (gva + i) gpa) as Hrd.
  { intros i Hi. destruct (Hall i Hi) as (gpa & Hb). exists gpa. split; [done|]. apply (translate_read _ _ _ Cfg Vm). unfold byte_at in *. by rewrite (proj1 Sep host' (proj1 Hw) i Hi). }
  assert (ret = 0) as ->.
  { destruct (Z.eq_dec ret 0) as [|Hr]; [done|]. destruct (D5 Hr) as (a & Ha & _ & Hno). destruct (Hrd (a - gva) ltac:(lia)) as (gpa & _ & Hb). rewrite Er in Hno.
    destruct (Hno gpa). by replace a with (gva + (a - gva)) by lia. }
  specialize (D4 eq_refl). rewrite E'. cbn [mbind outcome_bind app]. change (report_status 0 cur') with (GUEST_MEMORY_ERR_NONE, 0). do 2 f_equal.
  apply list_eq_same_length with (n := length data); [done|lia|]. intros i x y Hi Hx Hy. destruct (D3 i ltac:(lia)) as (gpa & Hb & Hd). rewrite Er in Hb.
  destruct (Hrd (Z.of_nat i) ltac:(lia)) as (gpa' & Ht & Hb'). unfold byte_at in Hb, Hb'. rewrite Hb in Hb'. injection Hb' as <-.
  pose proof (proj2 Hw _ _ Ht ltac:(lia)) as Hd'. rewrite Nat2Z.id in Hd'. congruence.
Qed.
End Guarantees.

(** ** A booted VM

    The whole RAM of a VM that was just booted can be read and written. *)
Lemma booted_accessible get_vm_config vm s start size zero_page access gpa : let cfg := get_vm_config (s2_vm_id vm) in
  config_ok cfg -> vm_ok vm s -> guest_ram_start cfg = start -> guest_ram_hpa cfg = start -> guest_ram_size cfg = size ->
  represents stage2_leaf_attrs (root_stg2ptp vm) s (boot_space start size zero_page) -> PAGE_SIZE <= start -> start + size <= VA_LIMIT ->
  start <= gpa < start + size -> accessible get_vm_config vm s access gpa.
Proof.
  intros cfg Cfg Vm Es Eh Ez [_ X] Hst Hlim Hg. assert (in_ram get_vm_config vm gpa) as Hr by (unfold in_ram; fold cfg; lia).
  assert (va_ok gpa) as Hva by (unfold va_ok, PAGE_SIZE in *; lia). split; [done|]. split; [done|]. rewrite (X gpa Hva), (gpa2hpa_ram _ _ _ Cfg Vm) by done. fold cfg.
  unfold boot_space. rewrite (proj2 (Z.ltb_ge gpa PAGE_SIZE)), (proj2 (Z.leb_le start gpa)), (proj2 (Z.ltb_lt gpa (start + size))) by lia. rewrite andb_false_r. cbn [andb].
  eexists. split; [do 2 f_equal; lia|]. by vm_compute.
Qed.

(** The VM of [demo_booted] and a vCPU of it whose translation is off. *)
Definition demo_config (_ : Z) : arch_vm_config := {| guest_ram_start := 0x40000000; guest_ram_size := 0x20000000; guest_ram_hpa := 0x40000000 |}.
Definition demo_regs : el1_regs := {| sctlr_el1 := 0; tcr_el1 := 0; ttbr0_el1 := 0; ttbr1_el1 := 0 |}.
Definition demo_vcpu (vm : stage2_vm) : gva_vcpu := {| v_vm := vm; v_running := true; v_paused := false; v_live := demo_regs; v_gctx := demo_regs |}.

Lemma demo_config_ok id : config_ok (demo_config id).
Proof. unfold config_ok, demo_config. vm_compute. split_and!; try discriminate; done. Qed.

Lemma demo_vm_ok : exists vm s, vm_ok vm s /\ represents stage2_leaf_attrs (root_stg2ptp vm) s (boot_space 0x40000000 0x20000000 0x42000000).
Proof.
  destruct demo_booted as (vm & s & _ & R & One & Ho & Hid). exists vm, s. split; [|done]. pose proof (proj1 R) as W.
  constructor; [done|by apply indexable_one_word; [apply (wf_pool _ _ _ W)|]|done|]. rewrite Hid. unfold CONFIG_MAX_VM_NUM. lia.
Qed.

Lemma demo_settled vm : vcpu_settled (demo_vcpu vm) (fun _ => 1).
Proof. by split_and!. Qed.


Lemma copy_to_gva_confined_witness : exists vm s ret report host',
  copy_to_gva demo_config (demo_vcpu vm) (Some [1; 2; 3; 4]) 0x48000ffe 4 (fun _ => 1) s (fun _ => 0) = Ret (ret, report, host').
Proof.
  destruct demo_vm_ok as (vm & s & Vm & _). exists vm, s.
  destruct (copy_to_gva_confined demo_config (demo_vcpu vm) s (Some [1; 2; 3; 4]) 0x48000ffe 4 (fun _ => 1) (fun _ => 0) (demo_config_ok _) Vm) as (ret & report & host' & E & _); try lia.
  by exists ret, report, host'.
Defined.

Lemma guest_write_read_witness : exists vm s host',
  copy_to_gva demo_config (demo_vcpu vm) (Some [1; 2; 3; 4]) 0x48000ffe 4 (fun _ => 1) s (fun _ => 0) = Ret (0, (GUEST_MEMORY_ERR_NONE, 0), host') /\
  copy_from_gva demo_config (demo_vcpu vm) true 0x48000ffe 4 (fun _ => 1) s host' = Ret (0, (GUEST_MEMORY_ERR_NONE, 0), [1; 2; 3; 4]).
Proof.
  destruct demo_vm_ok as (vm & s & Vm & R). exists vm, s.
  apply (guest_write_read demo_config (demo_vcpu vm) s 0x48000ffe 4 [1; 2; 3; 4] (fun _ => 1) (fun _ => 0) (demo_config_ok _) Vm (demo_settled vm)); try done.
  - by apply (mmu_off_separate _ _ _ _ _ _ _ (demo_config_ok _) Vm).
  - intros i Hi. exists (0x48000ffe + i).
    pose proof (booted_accessible demo_config vm s _ _ _ MEMORY_WRITE (0x48000ffe + i) (demo_config_ok _) Vm eq_refl eq_refl eq_refl R) as Ha.
    assert (accessible demo_config vm s MEMORY_WRITE (0x48000ffe + i)) as Hacc by (apply Ha; unfold PAGE_SIZE, VA_LIMIT; cbn [demo_config guest_ram_start guest_ram_size]; lia).
    unfold byte_at, arm64_guest_gva_translate. cbn [sctlr_el1 demo_regs vcpu_regs demo_vcpu v_running v_live v_vm]. change (Z.land 0 ARM64_GVA_SCTLR_M =? 0) with true. cbv iota.
    rewrite (proj2 (valid1_iff _ _ _ (demo_config_ok _) Vm _) (proj1 Hacc)). cbn [negb].
    destruct (validate_spec _ _ _ (demo_config_ok _) Vm MEMORY_WRITE (0x48000ffe + i)) as (ret & -> & Hret & _). by rewrite (proj2 Hret Hacc).
Defined.

(** The guest maps the page at 0x40001000 to 0x50000000, read only, and ignores the
    top byte of low addresses. *)
Definition demo_tables (a : Z) : Z :=
  let word := match a / 8 * 8 with
              | 0x48000000 => 0x48001003 | 0x48001008 => 0x48002003 | 0x48002000 => 0x48003003 | 0x48003008 => 0x50000483 | _ => 0 end in
  Z.land (Z.shiftr word (8 * (a mod 8))) 0xff.
Definition demo_mmu_on : el1_regs :=
  {| sctlr_el1 := 1; tcr_el1 := Z.lor (Z.lor 16 (Z.shiftl 16 16)) (Z.lor (Z.shiftl 2 30) ARM64_GVA_TCR_TBI0); ttbr0_el1 := 0x48000000; ttbr1_el1 := 0 |}.

Example demo_translation :
  match init_stage2_identity_map 0 0 0x40000000 0x20000000 0x40000000 0x42000000 (demo_vm 0) (demo_state 0) with
  | Ret (vm, s) =>
      (fun '(a, access) => arm64_guest_gva_translate demo_config vm demo_mmu_on a access s demo_tables) <$>
        [(0xab00000040001234, MEMORY_READ); (0x40001234, MEMORY_WRITE); (0x40002000, MEMORY_READ)] =
      [Ret (0, 0x50000234); Ret (- EACCES, 0); Ret (- EFAULT, 0)]
  | _ => False
  end.
Proof. by vm_compute. Qed.
