(* ===== verification/Trace.v ===== *)
(** * The event trace

    core/trace.c: every pCPU appends the records of its events to a ring of its
    own; the shell starts and stops the capture, and reads the rings when every
    writer has left its publish window.  Writers and the shell interleave between
    any two accesses to the shared variables. *)
From S2P Require Import Prelude Bits Ticks SchedTypes.

(** ** Events *)
Definition TRACE_TIMER_ACTION_ADDED : Z := 1.
Definition TRACE_TIMER_ACTION_PCKUP : Z := 2.
Definition TRACE_TIMER_ACTION_UPDAT : Z := 3.
Definition TRACE_TIMER_IRQ : Z := 4.
Definition TRACE_VM_EXIT : Z := 0x10.
Definition TRACE_VM_ENTER : Z := 0x11.
Definition TRACE_SCHED_NEXT : Z := 0x20.
Definition TRACE_VIRQ_INJECT : Z := 0x21.
Definition TRACE_VMEXIT_VMCALL : Z := 0x10012.
Definition TRACE_MASK_TIMER : Z := Z.shiftl 1 0.
Definition TRACE_MASK_SCHED : Z := Z.shiftl 1 1.
Definition TRACE_MASK_HCALL : Z := Z.shiftl 1 2.
Definition TRACE_MASK_VM : Z := Z.shiftl 1 3.
Definition TRACE_MASK_VIRQ : Z := Z.shiftl 1 4.
Definition TRACE_MASK_ALL : Z :=
  Z.lor (Z.lor (Z.lor (Z.lor TRACE_MASK_TIMER TRACE_MASK_SCHED) TRACE_MASK_HCALL) TRACE_MASK_VM) TRACE_MASK_VIRQ.
Definition CONFIG_TRACE_RECORDS_PER_CPU : Z := 256.
Definition TRACE_STOP_TIMEOUT_US : Z := 1000.

Definition trace_event_category (evid : Z) : Z :=
  if (evid =? TRACE_TIMER_ACTION_ADDED) || (evid =? TRACE_TIMER_ACTION_PCKUP) || (evid =? TRACE_TIMER_ACTION_UPDAT) ||
     (evid =? TRACE_TIMER_IRQ) then TRACE_MASK_TIMER
  else if evid =? TRACE_SCHED_NEXT then TRACE_MASK_SCHED
  else if evid =? TRACE_VIRQ_INJECT then TRACE_MASK_VIRQ
  else if (evid =? TRACE_VM_ENTER) || (evid =? TRACE_VM_EXIT) then TRACE_MASK_VM
  else if evid =? TRACE_VMEXIT_VMCALL then TRACE_MASK_HCALL
  else 0.

(** The test of [trace_event_enabled] behind the load of [trace_running]. *)
Definition event_enabled (evid mask : Z) : bool :=
  let category := trace_event_category evid in negb (category =? 0) && negb (Z.land mask category =? 0).

(** ** State *)
Inductive trace_payload :=
| fields_32 (a b c d : Z)
| fields_64 (e f : Z)
| str (s : list Z).

Record trace_record := { tsc : Z; id : Z; n_data : Z; cpu : Z; payload : trace_payload }.

Record trace_cpu_ring := {
  records : list trace_record;
  head : Z;
  count : Z;
  overwritten : Z;
  writer_active : bool;
}.
#[export] Instance trace_cpu_ring_eta : Eta trace_cpu_ring := fun r =>
  {| records := records r; head := head r; count := count r; overwritten := overwritten r; writer_active := writer_active r |}.

Inductive trace_capture_state := CAPTURE_IDLE | CAPTURE_CAPTURING | CAPTURE_DRAINING | CAPTURE_READY.
#[export] Instance trace_capture_state_eq_dec : EqDecision trace_capture_state.
Proof. solve_decision. Defined.

Record trace_shared := {
  trace_rings : Z -> trace_cpu_ring;
  trace_running : bool;
  trace_event_mask : Z;
  trace_session : Z;
  trace_last_stop_status : Z;
  trace_state : trace_capture_state;
}.
#[export] Instance trace_shared_eta : Eta trace_shared := fun r =>
  {| trace_rings := trace_rings r; trace_running := trace_running r; trace_event_mask := trace_event_mask r;
     trace_session := trace_session r; trace_last_stop_status := trace_last_stop_status r; trace_state := trace_state r |}.

Definition set_ring (p : Z) (r : trace_cpu_ring) (m : trace_shared) : trace_shared :=
  m <| trace_rings := fun q => if q =? p then r else trace_rings m q |>.

(** The bytes 0 of a cleared ring. *)
Definition no_record : trace_record := {| tsc := 0; id := 0; n_data := 0; cpu := 0; payload := fields_64 0 0 |}.
Definition empty_ring : trace_cpu_ring :=
  {| records := replicate (Z.to_nat CONFIG_TRACE_RECORDS_PER_CPU) no_record; head := 0; count := 0; overwritten := 0; writer_active := false |}.

(** ** A writer

    Where a [TRACE_*] call is.  [PEnabled again] and [PCategory again] are the two
    loads of [trace_event_enabled] with interrupts on, in [TRACE_*] when [again],
    then in [trace_put]; the stages from [PEnter] on have interrupts off.  [late]
    marks a store of [writer_active] that is still in the store buffer: the
    barrier orders it before the following stores only. *)
Inductive put_at :=
| PEnabled (again : bool)
| PCategory (again : bool)
| PEnter
| PRunning (late : bool)
| PMask (late : bool)
| PAbort
| PStamp (late : bool)
| PHead (tsc : Z)
| PRecord (tsc head : Z)
| PNext (r : trace_record) (next : Z)
| PCount (r : trace_record)
| PLeave.

Record trace_call := { t_evid : Z; t_n_data : Z; t_payload : trace_payload; t_at : put_at }.
#[export] Instance trace_call_eta : Eta trace_call := fun r =>
  {| t_evid := t_evid r; t_n_data := t_n_data r; t_payload := t_payload r; t_at := t_at r |}.

Definition TRACE_2L (evid e f : Z) : trace_call :=
  {| t_evid := evid; t_n_data := 2; t_payload := fields_64 e f; t_at := PEnabled true |}.
Definition TRACE_4I (evid a b c d : Z) : trace_call :=
  {| t_evid := evid; t_n_data := 4; t_payload := fields_32 a b c d; t_at := PEnabled true |}.

(** [strnlen_s]: the length of a string that ends with the first 0. *)
Fixpoint strnlen (name : list Z) (max : nat) : nat :=
  match name, max with
  | c :: name, S max => if c =? 0 then O else S (strnlen name max)
  | _, _ => O
  end.
Definition TRACE_16STR (evid : Z) (name : list Z) : trace_call :=
  let len := strnlen name 15 in
  {| t_evid := evid; t_n_data := 16; t_payload := str (take len name ++ replicate (16 - len) 0); t_at := PEnabled true |}.

Section Trace.
Context (khz : Z) (get_pcpu_nums : Z).

(** One step of a writer on [pcpu]; [None] when the call has returned, and the
    record whose publication the step completes. *)
Definition put_step (now pcpu : Z) (c : trace_call) (m : trace_shared) : option trace_call * trace_shared * list trace_record :=
  let go s := Some (c <| t_at := s |>) in
  let ring := trace_rings m pcpu in
  let enabled := event_enabled (t_evid c) (trace_event_mask m) in
  match t_at c with
  | PEnabled again => (if trace_running m then go (PCategory again) else None, m, [])
  | PCategory again =>
      (if negb enabled then None else if again then go (PEnabled false) else if get_pcpu_nums <=? pcpu then None else go PEnter, m, [])
  | PEnter => (go (PRunning false), set_ring pcpu (ring <| writer_active := true |>) m, [])
  | PRunning late => (go (if trace_running m then PMask late else PAbort), m, [])
  | PMask late => (go (if enabled then PStamp late else PAbort), m, [])
  | PAbort => (None, set_ring pcpu (ring <| writer_active := false |>) m, [])
  | PStamp late => (go (PHead now), if late then set_ring pcpu (ring <| writer_active := true |>) m else m, [])
  | PHead tsc => (go (PRecord tsc (head ring)), m, [])
  | PRecord tsc h =>
      let r := {| tsc := tsc; id := t_evid c; n_data := u8 (t_n_data c); cpu := u8 pcpu; payload := t_payload c |} in
      let next := if CONFIG_TRACE_RECORDS_PER_CPU <=? u32 (h + 1) then 0 else u32 (h + 1) in
      (go (PNext r next), set_ring pcpu (ring <| records := <[Z.to_nat h := r]> (records ring) |>) m, [])
  | PNext r next => (go (PCount r), set_ring pcpu (ring <| head := next |>) m, [])
  | PCount r =>
      (go PLeave,
       set_ring pcpu (if count ring <? CONFIG_TRACE_RECORDS_PER_CPU then ring <| count := u32 (count ring + 1) |>
                      else ring <| overwritten := u64 (overwritten ring + 1) |>) m, [r])
  | PLeave => (None, set_ring pcpu (ring <| writer_active := false |>) m, [])
  end.

(** ** The control operations

    Where the shell is; [why] says which operation waits for the writers. *)
Inductive wait_for := WStop | WClear | WStart (event_mask : Z).

Inductive control_at :=
| CStart (event_mask : Z)
| CStop
| CStopped
| CStopWait
| CClear (why : wait_for)
| CDeadline (why : wait_for)
| CScan (why : wait_for) (deadline pcpu : Z)
| CRelax (why : wait_for) (deadline : Z)
| CStatus (ret : Z)
| CReady
| CMemset (why : wait_for) (pcpu : Z)
| CMask (why : wait_for)
| CIdle (why : wait_for)
| CSession (event_mask : Z)
| CCapturing
| CRun
| CDone (ret : Z).

(** [trace_wait_writers] has returned [ret]. *)
Definition waited (why : wait_for) (ret : Z) : control_at :=
  match why with
  | WStop => CStatus ret
  | _ => if ret =? 0 then CMemset why 0 else CDone ret
  end.

Definition capture_busy (m : trace_shared) : bool :=
  bool_decide (trace_state m = CAPTURE_CAPTURING) || bool_decide (trace_state m = CAPTURE_DRAINING).

(** One step of [trace_start], [trace_stop], [trace_clear] or [trace_wait_writers].
    Only the shell stores to the capture state, the mask, the session and the
    status; assignments to variables that only the shell reads share a step. *)
Definition control_step (now : Z) (c : control_at) (m : trace_shared) : control_at * trace_shared :=
  match c with
  | CStart mask =>
      (if (mask =? 0) || negb (Z.land mask (not64 TRACE_MASK_ALL) =? 0) then CDone (- EINVAL)
       else if capture_busy m then CDone (- EBUSY) else CClear (WStart mask), m)
  | CClear why => (if capture_busy m then CDone (- EBUSY) else CDeadline why, m)
  | CStop =>
      match trace_state m with
      | CAPTURE_CAPTURING => (CStopped, m <| trace_running := false |>)
      | CAPTURE_IDLE => (CDone (- EINVAL), m)
      | _ => (CStopWait, m)
      end
  | CStopped => (CStopWait, m <| trace_state := CAPTURE_DRAINING |>)
  | CStopWait => (if bool_decide (trace_state m = CAPTURE_READY) then CDone 0 else CDeadline WStop, m)
  | CDeadline why => (CScan why (u64 (now + us_to_ticks khz TRACE_STOP_TIMEOUT_US)) 0, m)
  | CScan why deadline p =>
      (if p <? get_pcpu_nums then if writer_active (trace_rings m p) then CRelax why deadline else CScan why deadline (p + 1)
       else waited why 0, m)
  | CRelax why deadline => (if now <? deadline then CScan why deadline 0 else waited why (- ETIMEDOUT), m)
  | CStatus ret => (if ret =? 0 then CReady else CDone ret, m <| trace_last_stop_status := ret |>)
  | CReady => (CDone 0, m <| trace_state := CAPTURE_READY |>)
  | CMemset why p => if p <? MAX_PCPU_NUM then (CMemset why (p + 1), set_ring p empty_ring m) else (CMask why, m)
  | CMask why => (CIdle why, m <| trace_event_mask := 0 |> <| trace_last_stop_status := 0 |>)
  | CIdle why => (match why with WStart mask => CSession mask | _ => CDone 0 end, m <| trace_state := CAPTURE_IDLE |>)
  | CSession mask =>
      (CCapturing, m <| trace_event_mask := mask |> <| trace_session := u64 (trace_session m + 1) |> <| trace_last_stop_status := 0 |>)
  | CCapturing => (CRun, m <| trace_state := CAPTURE_CAPTURING |>)
  | CRun => (CDone 0, m <| trace_running := true |>)
  | CDone ret => (CDone ret, m)
  end.

(** ** Reading *)
Definition trace_get_record (pcpu index : Z) (m : trace_shared) : option trace_record :=
  if negb (bool_decide (trace_state m = CAPTURE_READY)) || (get_pcpu_nums <=? pcpu) then None
  else
    let ring := trace_rings m pcpu in
    if count ring <=? index then None
    else
      let oldest := if count ring =? CONFIG_TRACE_RECORDS_PER_CPU then head ring else 0 in
      let slot := u32 (oldest + index) in
      let slot := if CONFIG_TRACE_RECORDS_PER_CPU <=? slot then slot - CONFIG_TRACE_RECORDS_PER_CPU else slot in
      records ring !! Z.to_nat slot.

Record trace_cpu_status := { s_count : Z; s_overwritten : Z; s_writer_active : bool }.
Definition trace_get_cpu_status (pcpu : Z) (m : trace_shared) : trace_cpu_status :=
  if pcpu <? get_pcpu_nums then
    let ring := trace_rings m pcpu in {| s_count := count ring; s_overwritten := overwritten ring; s_writer_active := writer_active ring |}
  else {| s_count := 0; s_overwritten := 0; s_writer_active := false |}.

(** ** Interleavings

    [w_calls p] are the calls of pCPU [p], interrupted ones behind the one that
    runs; [w_log p] are the records published since the ring was cleared. *)
Record trace_world := {
  w_shared : trace_shared;
  w_now : Z;
  w_calls : Z -> list trace_call;
  w_control : control_at;
  w_log : Z -> list trace_record;
}.
#[export] Instance trace_world_eta : Eta trace_world := fun r =>
  {| w_shared := w_shared r; w_now := w_now r; w_calls := w_calls r; w_control := w_control r; w_log := w_log r |}.

(** Whether interrupts are on at a stage. *)
Definition irq_on (s : put_at) : bool := match s with PEnabled _ | PCategory _ | PEnter => true | _ => false end.

Inductive trace_event :=
| Trace (pcpu : Z) (c : trace_call)
| Put (pcpu : Z)
| Delay (pcpu : Z)
| Start (event_mask : Z)
| Stop
| Clear
| Control
| Tick (ticks : Z).

Definition fset {A} (p : Z) (x : A) (f : Z -> A) : Z -> A := fun q => if q =? p then x else f q.

Definition trace_step (e : trace_event) (w : trace_world) : option trace_world :=
  let begin c := match w_control w with CDone _ => Some (w <| w_control := c |>) | _ => None end in
  match e with
  | Trace pcpu c =>
      match w_calls w pcpu with
      | c' :: _ => if irq_on (t_at c') then Some (w <| w_calls := fset pcpu (c :: w_calls w pcpu) (w_calls w) |>) else None
      | [] => Some (w <| w_calls := fset pcpu [c] (w_calls w) |>)
      end
  | Put pcpu =>
      match w_calls w pcpu with
      | c :: cs =>
          let '(c', m, rs) := put_step (w_now w) pcpu c (w_shared w) in
          Some (w <| w_shared := m |> <| w_log := fset pcpu (w_log w pcpu ++ rs) (w_log w) |>
                  <| w_calls := fset pcpu (match c' with Some c' => c' :: cs | None => cs end) (w_calls w) |>)
      | [] => None
      end
  | Delay pcpu =>
      match w_calls w pcpu with
      | c :: cs =>
          match t_at c with
          | PEnter => Some (w <| w_calls := fset pcpu (c <| t_at := PRunning true |> :: cs) (w_calls w) |>)
          | _ => None
          end
      | [] => None
      end
  | Start mask => begin (CStart mask)
  | Stop => begin CStop
  | Clear => begin (CClear WClear)
  | Control =>
      let '(c, m) := control_step (w_now w) (w_control w) (w_shared w) in
      Some (w <| w_control := c |> <| w_shared := m |>
              <| w_log := match w_control w with
                          | CMemset _ p => if p <? MAX_PCPU_NUM then fset p [] (w_log w) else w_log w
                          | _ => w_log w
                          end |>)
  | Tick t => Some (w <| w_now := u64 (w_now w + t) |>)
  end.

Definition trace_init : trace_world :=
  {| w_shared := {| trace_rings := fun _ => empty_ring; trace_running := false; trace_event_mask := 0; trace_session := 0;
                    trace_last_stop_status := 0; trace_state := CAPTURE_IDLE |};
     w_now := 0; w_calls := fun _ => []; w_control := CDone 0; w_log := fun _ => [] |}.

Fixpoint trace_run (es : list trace_event) (w : trace_world) : option trace_world :=
  match es with
  | [] => Some w
  | e :: es => w ← trace_step e w; trace_run es w
  end.

(** ** Two ways to lose the snapshot

    The store of [writer_active] is ordered before later stores but not before
    the load of [trace_running] that follows it, so the load may come first.  Then
    the wait for the writers does not see the writer, and the snapshot changes
    after it was declared ready. *)
Definition control_steps (n : nat) : list trace_event := replicate n Control.
Definition put_steps (p : Z) (n : nat) : list trace_event := replicate n (Put p).
Definition capture : list trace_event := Start TRACE_MASK_ALL :: control_steps (12 + Z.to_nat (get_pcpu_nums + MAX_PCPU_NUM)).
Definition stop_capture : list trace_event := Stop :: control_steps (7 + Z.to_nat get_pcpu_nums).
Definition event_of (p : Z) : trace_event := Trace p (TRACE_2L TRACE_SCHED_NEXT 1 2).
Definition record_count (p : Z) (w : trace_world) : Z := count (trace_rings (w_shared w) p).

Definition calm (w : trace_world) (e : trace_event) : Prop :=
  match e with
  | Trace pcpu c => 0 <= pcpu /\ t_at c = PEnabled true
  | Delay _ => False
  | Control =>
      match w_control w with
      | CMemset _ p => match w_calls w p with c :: _ => irq_on (t_at c) = true | [] => True end
      | _ => True
      end
  | _ => True
  end.

(** Interleavings in which loads and stores take effect in program order and a
    ring is not cleared while its writer is in the publish window. *)
Inductive trace_reach : trace_world -> Prop :=
| trace_reach_init : trace_reach trace_init
| trace_reach_step e w w' : trace_reach w -> calm w e -> trace_step e w = Some w' -> trace_reach w'.
End Trace.

Lemma trace_store_buffered : exists es es',
  match trace_run 1000 2 es trace_init, trace_run 1000 2 (es ++ es') trace_init with
  | Some w, Some w' =>
      trace_state (w_shared w) = CAPTURE_READY /\ w_control w = CDone 0 /\ record_count 1 w = 0 /\
      trace_state (w_shared w') = CAPTURE_READY /\ w_control w' = CDone 0 /\ record_count 1 w' = 1
  | _, _ => False
  end.
Proof.
  exists (capture 2 ++ event_of 1 :: put_steps 1 4 ++ [Delay 1; Put 1] ++ stop_capture 2), (put_steps 1 6).
  vm_compute. done.
Qed.

(** Clearing the rings for a new capture also clears the flag of a writer that has
    just entered its window, so that the stop of the new capture does not wait for
    it. *)
Lemma trace_clear_hides_writer : exists es es',
  match trace_run 1000 2 es trace_init, trace_run 1000 2 (es ++ es') trace_init with
  | Some w, Some w' =>
      Forall (fun e => match e with Delay _ => False | _ => True end) (es ++ es') /\
      trace_state (w_shared w) = CAPTURE_READY /\ w_control w = CDone 0 /\ record_count 1 w = 0 /\
      trace_state (w_shared w') = CAPTURE_READY /\ w_control w' = CDone 0 /\ record_count 1 w' = 1
  | _, _ => False
  end.
Proof.
  exists (capture 2 ++ event_of 1 :: put_steps 1 4 ++ stop_capture 2 ++
          Start TRACE_MASK_ALL :: control_steps 6 ++ put_steps 1 1 ++ control_steps (6 + Z.to_nat MAX_PCPU_NUM) ++ put_steps 1 1 ++ stop_capture 2),
    (put_steps 1 6).
  vm_compute. repeat split; repeat constructor.
Qed.

(** ** The ring as the newest records of a log *)
Local Notation cap := (Z.to_nat CONFIG_TRACE_RECORDS_PER_CPU).

Definition next_slot (h : Z) : Z := if CONFIG_TRACE_RECORDS_PER_CPU <=? u32 (h + 1) then 0 else u32 (h + 1).

Record ring_log (r : trace_cpu_ring) (log : list trace_record) : Prop := {
  rl_length : length (records r) = cap;
  rl_head : head r = Z.of_nat (length log mod cap);
  rl_count : count r = Z.of_nat (length log `min` cap);
  rl_overwritten : overwritten r = u64 (Z.of_nat (length log - cap));
  rl_records k : (k < length log)%nat -> (length log <= k + cap)%nat -> records r !! (k mod cap)%nat = log !! k;
}.

(** The rings of a writer that has stored its record, and of one that has also
    moved the head. *)
Definition ring_stored (rec : trace_record) (next : Z) (r : trace_cpu_ring) (log : list trace_record) : Prop :=
  exists r0, ring_log r0 log /\ records r = <[Z.to_nat (head r0) := rec]> (records r0) /\ next = next_slot (head r0) /\
    head r = head r0 /\ count r = count r0 /\ overwritten r = overwritten r0.
Definition ring_moved (rec : trace_record) (r : trace_cpu_ring) (log : list trace_record) : Prop :=
  exists r0, ring_log r0 log /\ records r = <[Z.to_nat (head r0) := rec]> (records r0) /\
    head r = next_slot (head r0) /\ count r = count r0 /\ overwritten r = overwritten r0.

Lemma ring_log_active r log b : ring_log r log -> ring_log (r <| writer_active := b |>) log.
Proof. intros [H1 H2 H3 H4 H5]. by split. Qed.

Lemma ring_log_empty : ring_log empty_ring [].
Proof. split; try reflexivity. intros k Hk. cbn in Hk. lia. Qed.

Lemma cap_eq : cap = 256%nat. Proof. reflexivity. Qed.

Lemma next_slot_mod n : next_slot (Z.of_nat (n mod cap)) = Z.of_nat (S n mod cap).
Proof.
  rewrite cap_eq. unfold next_slot, CONFIG_TRACE_RECORDS_PER_CPU. pose proof (Nat.mod_upper_bound n 256 ltac:(lia)).
  rewrite u32_small by (unfold in_u32; lia). destruct (Z.leb_spec 256 (Z.of_nat (n mod 256) + 1)).
  all: rewrite ?Nat2Z.inj_mod in *; mlia.
Qed.

Lemma ring_log_head r log : ring_log r log -> 0 <= head r < CONFIG_TRACE_RECORDS_PER_CPU.
Proof.
  intros [_ H _ _ _]. rewrite H, cap_eq. pose proof (Nat.mod_upper_bound (length log) 256 ltac:(lia)). unfold CONFIG_TRACE_RECORDS_PER_CPU. lia.
Qed.

(** The last step of a publication extends the log. *)
Lemma ring_moved_count rec r log : ring_moved rec r log ->
  ring_log (if count r <? CONFIG_TRACE_RECORDS_PER_CPU then r <| count := u32 (count r + 1) |> else r <| overwritten := u64 (overwritten r + 1) |>)
    (log ++ [rec]).
Proof.
  intros (r0 & [H1 H2 H3 H4 H5] & E1 & E2 & E3 & E4). rewrite cap_eq in *. set (n := length log) in *.
  pose proof (Nat.mod_upper_bound n 256 ltac:(lia)) as Hn.
  assert (records r = <[(n mod 256)%nat := rec]> (records r0)) as Er by (by rewrite E1, H2, Nat2Z.id).
  assert (forall k, (k < n + 1)%nat -> (n + 1 <= k + 256)%nat -> records r !! (k mod 256)%nat = (log ++ [rec]) !! k) as Hr.
  { intros k Hk Hk'. rewrite Er. destruct (decide (k = n)) as [->|Hne].
    - rewrite list_lookup_insert_eq by lia. by rewrite lookup_app_r, Nat.sub_diag by (unfold n; lia).
    - rewrite list_lookup_insert_ne, lookup_app_l by (try (unfold n in *; lia); rewrite <- Nat2Z.inj_iff, !Nat2Z.inj_mod; mlia).
      apply H5; unfold n in *; lia. }
  rewrite E3, H3. unfold CONFIG_TRACE_RECORDS_PER_CPU. destruct (Z.ltb_spec (Z.of_nat (n `min` 256)) 256); split; cbn.
  all: rewrite ?length_app; cbn [length]; fold n; rewrite ?cap_eq; auto.
  all: try (rewrite Er, length_insert; lia).
  all: try (rewrite E2, H2, <- cap_eq, next_slot_mod, cap_eq; by rewrite Nat.add_1_r).
  - rewrite u32_small by (unfold in_u32; lia). lia.
  - rewrite E4, H4. f_equal. lia.
  - lia.
  - rewrite E4, H4. unfold u64. rewrite Zplus_mod_idemp_l. f_equal. lia.
Qed.

(** What the reader computes from the ring is the log. *)
Lemma ring_slot r log i : ring_log r log -> 0 <= i < count r ->
  let oldest := if count r =? CONFIG_TRACE_RECORDS_PER_CPU then head r else 0 in
  let slot := u32 (oldest + i) in
  records r !! Z.to_nat (if CONFIG_TRACE_RECORDS_PER_CPU <=? slot then slot - CONFIG_TRACE_RECORDS_PER_CPU else slot)
  = log !! (length log - cap + Z.to_nat i)%nat.
Proof.
  intros R Hi. pose proof (ring_log_head _ _ R) as Hh. destruct R as [H1 H2 H3 H4 H5]. rewrite cap_eq in *. set (n := length log) in *.
  unfold CONFIG_TRACE_RECORDS_PER_CPU in *. rewrite H3 in *. cbn zeta.
  pose proof (Nat.mod_upper_bound n 256 ltac:(lia)) as Hn. rewrite <- H5 by lia. f_equal. rewrite u32_small.
  - apply Nat2Z.inj. rewrite H2, !Nat2Z.inj_mod in *.
    destruct (Z.eqb_spec (Z.of_nat (n `min` 256)) 256);
    repeat match goal with |- context [256 <=? ?x] => destruct (Z.leb_spec 256 x) end; rewrite ?Z2Nat.id by mlia; mlia.
  - unfold in_u32. destruct (_ =? _); lia.
Qed.

(** ** One writer *)
Lemma ring_set_eq m p r : trace_rings (set_ring p r m) p = r.
Proof. cbn. by rewrite Z.eqb_refl. Qed.
Lemma ring_set_ne m p q r : q <> p -> trace_rings (set_ring p r m) q = trace_rings m q.
Proof. intros. cbn. by rewrite (proj2 (Z.eqb_neq _ _)). Qed.

Definition passed (s : put_at) : bool :=
  match s with PMask _ | PStamp _ | PHead _ | PRecord _ _ | PNext _ _ | PCount _ => true | _ => false end.

Section Invariant.
Context (khz get_pcpu_nums : Z) (nums_range : get_pcpu_nums <= MAX_PCPU_NUM).

Definition record_ok (mask p : Z) (r : trace_record) : Prop := event_enabled (id r) mask = true /\ cpu r = p.

(** A call that is interrupted, or may be. *)
Definition waiting (p : Z) (c : trace_call) : Prop := irq_on (t_at c) = true /\ (t_at c = PEnter -> p < get_pcpu_nums).

Definition call_ok (mask p : Z) (c : trace_call) (r : trace_cpu_ring) (log : list trace_record) : Prop :=
  writer_active r = negb (irq_on (t_at c)) /\ (t_at c = PEnter \/ irq_on (t_at c) = false -> p < get_pcpu_nums) /\
  match t_at c with
  | PRunning late | PMask late => late = false /\ ring_log r log
  | PStamp late => late = false /\ event_enabled (t_evid c) mask = true /\ ring_log r log
  | PHead _ => event_enabled (t_evid c) mask = true /\ ring_log r log
  | PRecord _ h => event_enabled (t_evid c) mask = true /\ ring_log r log /\ h = head r
  | PNext rec next => record_ok mask p rec /\ ring_stored rec next r log
  | PCount rec => record_ok mask p rec /\ ring_moved rec r log
  | _ => ring_log r log
  end.

Record pcpu_ok (mask p : Z) (cs : list trace_call) (r : trace_cpu_ring) (log : list trace_record) : Prop := {
  po_calls : match cs with
             | [] => writer_active r = false /\ ring_log r log
             | c :: cs => 0 <= p /\ Forall (waiting p) cs /\ call_ok mask p c r log
             end;
  po_log : Forall (record_ok mask p) log;
  po_range : log <> [] -> 0 <= p < get_pcpu_nums;
}.

Definition call_passed (cs : list trace_call) : bool := match cs with c :: _ => passed (t_at c) | [] => false end.

Lemma pop_ok mask p cs r log : 0 <= p -> Forall (waiting p) cs -> writer_active r = false -> ring_log r log ->
  match cs with
  | [] => writer_active r = false /\ ring_log r log
  | c :: cs => 0 <= p /\ Forall (waiting p) cs /\ call_ok mask p c r log
  end.
Proof.
  intros Hp Hw Ha Hl. destruct cs as [|c cs]; [done|]. inversion Hw as [|? ? [Hc Hn] Hcs]; subst. split; [done|]. split; [done|].
  split; [by rewrite Hc|]. split; [intros [?|?]; [auto|congruence]|]. by destruct (t_at c).
Qed.

Lemma waiting_passed p cs : Forall (waiting p) cs -> call_passed cs = false.
Proof. intros [|c cs' [H _] _]; [done|]. cbn. by destruct (t_at c). Qed.

(** A step of a writer changes only its own ring, publishes and changes records
    only behind the check, and passes the check only while the capture runs. *)
Lemma put_step_frame now p c cs m c' m' rs : Forall (waiting p) cs -> put_step get_pcpu_nums now p c m = (c', m', rs) ->
  let cs' := match c' with Some c' => c' :: cs | None => cs end in
  (exists r, m' = set_ring p r m \/ m' = m /\ r = trace_rings m p) /\
  (call_passed cs' = true -> passed (t_at c) = true \/ trace_running m = true) /\
  (passed (t_at c) = false -> rs = [] /\ exists b, trace_rings m' p = (trace_rings m p) <| writer_active := b |>).
Proof.
  intros Hcs%waiting_passed E. assert (forall r : trace_cpu_ring, exists b, r = r <| writer_active := b |>) as Hb by (intros [? ? ? ? b]; by exists b).
  unfold put_step in E. destruct c as [evid n pl s]; cbn [t_at t_evid t_n_data t_payload] in E. destruct s as [again|again| |late|late| |[]|t|t h|r n'|r|]; simplify_eq; cbn.
  all: split; [eexists; first [by left|by right]|]; split; [|intros; first [discriminate|split; [done|]]].
  all: repeat case_match; simplify_eq; cbn in *; try congruence; auto; try (by left); by eexists.
Qed.

(** A step of a writer keeps the invariant of its pCPU. *)
Lemma put_step_ok now p c cs m log c' m' rs :
  pcpu_ok (trace_event_mask m) p (c :: cs) (trace_rings m p) log -> put_step get_pcpu_nums now p c m = (c', m', rs) ->
  pcpu_ok (trace_event_mask m) p (match c' with Some c' => c' :: cs | None => cs end) (trace_rings m' p) (log ++ rs).
Proof.
  intros [(Hp & Hcs & Ha & Hn & Hc) Hlog Hr] E. assert (p < get_pcpu_nums -> u8 p = p) as H8 by (intros; apply Z.mod_small; unfold MAX_PCPU_NUM in *; lia).
  unfold put_step in E. destruct c as [evid n pl s]; cbn [t_at t_evid t_n_data t_payload] in *.
  destruct s as [again|again| |late|late| |late|t|t h|r n'|r|]; cbn [irq_on negb] in *; simplify_eq; rewrite ?app_nil_r.
  all: rewrite ?ring_set_eq.
  - (* PEnabled *) split; [|done..]. destruct (trace_running m'); [|by apply pop_ok]. split; [done|]. split; [done|]. split; [done|]. split; [|done]. cbn. intuition discriminate.
  - (* PCategory *) split; [|done..]. destruct (event_enabled _ _); cbn [negb]; [|by apply pop_ok].
    destruct again; [|destruct (Z.leb_spec get_pcpu_nums p); [by apply pop_ok|]]; (split; [done|]); (split; [done|]); (split; [done|]); (split; [|done]); cbn; intuition discriminate.
  - (* PEnter *) split; [|done..]. split; [done|]. split; [done|]. split; [done|]. split; [intros _; auto|]. split; [done|]. by apply ring_log_active.
  - (* PRunning *) destruct Hc as [-> Hc]. split; [|done..]. split; [done|]. split; [done|]. destruct (trace_running m'); (split; [done|]); (split; [intros _; auto|]); done.
  - (* PMask *) destruct Hc as [-> Hc]. split; [|done..]. split; [done|]. split; [done|]. destruct (event_enabled _ _) eqn:E; (split; [done|]); (split; [intros _; auto|]); done.
  - (* PAbort *) split; [|done..]. apply pop_ok; try done. by apply ring_log_active.
  - (* PStamp *) destruct Hc as (-> & He & Hc). split; [|done..]. split; [done|]. split; [done|]. split; [done|]. split; [intros _; auto|]. done.
  - (* PHead *) destruct Hc as (He & Hc). split; [|done..]. split; [done|]. split; [done|]. split; [done|]. split; [intros _; auto|]. done.
  - (* PRecord *) destruct Hc as (He & Hc & ->). split; [|done..]. split; [done|]. split; [done|]. split; [done|]. split; [intros _; auto|].
    split; [by split; cbn; auto|]. exists (trace_rings m p). done.
  - (* PNext *) destruct Hc as (He & r0 & Hl & H1 & -> & H2 & H3 & H4). split; [|done..]. split; [done|]. split; [done|]. split; [done|]. split; [intros _; auto|].
    split; [done|]. exists r0. done.
  - (* PCount *) destruct Hc as (He & Hc). split; [|by apply Forall_app_2, Forall_singleton|auto]. split; [done|]. split; [done|].
    split; [by case_match|]. split; [intros _; auto|]. by apply ring_moved_count.
  - (* PLeave *) split; [|done..]. apply pop_ok; try done. by apply ring_log_active.
Qed.

(** ** All writers and the shell *)
Definition not_passed (w : trace_world) (q : Z) : Prop := call_passed (w_calls w q) = false.
Definition stopped (w : trace_world) : Prop := trace_running (w_shared w) = false.
Definition quiet (w : trace_world) : Prop := stopped w /\ forall q, not_passed w q.
Definition state_is (w : trace_world) (s : trace_capture_state) : Prop := trace_state (w_shared w) = s.
Definition at_rest (w : trace_world) : Prop := state_is w CAPTURE_IDLE \/ state_is w CAPTURE_READY.
Definition cleared (w : trace_world) : Prop := forall q, w_log w q = [].

Definition settled (w : trace_world) : Prop :=
  match trace_state (w_shared w) with
  | CAPTURE_IDLE | CAPTURE_READY => quiet w
  | CAPTURE_CAPTURING => trace_running (w_shared w) = true
  | CAPTURE_DRAINING => stopped w
  end.

Definition draining (why : wait_for) (w : trace_world) : Prop :=
  match why with WStop => stopped w /\ state_is w CAPTURE_DRAINING | _ => quiet w /\ at_rest w end.

Definition control_inv (w : trace_world) : Prop :=
  match w_control w with
  | CDone _ | CStart _ | CStop => settled w
  | CClear why => settled w /\ why <> WStop
  | CStopped => stopped w /\ state_is w CAPTURE_CAPTURING
  | CStopWait => settled w /\ (state_is w CAPTURE_DRAINING \/ state_is w CAPTURE_READY)
  | CDeadline why | CRelax why _ => draining why w
  | CScan why _ p => 0 <= p /\ draining why w /\ forall q, 0 <= q < p -> not_passed w q
  | CStatus ret => stopped w /\ state_is w CAPTURE_DRAINING /\ (ret = 0 -> quiet w)
  | CReady => quiet w /\ state_is w CAPTURE_DRAINING
  | CMemset why p => 0 <= p /\ why <> WStop /\ quiet w /\ at_rest w /\ forall q, 0 <= q < p -> w_log w q = []
  | CMask why | CIdle why => why <> WStop /\ quiet w /\ at_rest w /\ cleared w
  | CSession _ => quiet w /\ state_is w CAPTURE_IDLE /\ cleared w
  | CCapturing => quiet w /\ state_is w CAPTURE_IDLE
  | CRun => quiet w /\ state_is w CAPTURE_CAPTURING
  end.

Record trace_inv (w : trace_world) : Prop := {
  ti_pcpu p : pcpu_ok (trace_event_mask (w_shared w)) p (w_calls w p) (trace_rings (w_shared w) p) (w_log w p);
  ti_control : control_inv w;
}.

(** Writers keep the invariant of the shell: while the capture does not run, no
    writer gets past the check and no log grows. *)
Record writers_only (w w' : trace_world) : Prop := {
  wo_control : w_control w' = w_control w;
  wo_running : trace_running (w_shared w') = trace_running (w_shared w);
  wo_state : trace_state (w_shared w') = trace_state (w_shared w);
  wo_passed q : stopped w -> not_passed w q -> not_passed w' q /\ w_log w' q = w_log w q;
}.

Lemma writers_only_inv w w' : writers_only w w' -> control_inv w -> control_inv w'.
Proof.
  intros [H1 H2 H3 H4]. assert (quiet w -> quiet w') as Q by (intros [S N]; split; [by unfold stopped; rewrite H2|intros q; by apply H4]).
  assert (quiet w -> forall q, w_log w q = [] -> w_log w' q = []) as L by (intros [S N] q <-; by apply H4).
  assert (stopped w -> stopped w') as S by (by unfold stopped; rewrite H2).
  assert (settled w -> settled w') as T by (unfold settled; rewrite H3; destruct (trace_state (w_shared w)); auto; by rewrite H2).
  assert (at_rest w -> at_rest w') as A by (by unfold at_rest, state_is; rewrite H3).
  assert (forall why, draining why w -> stopped w) as D by (by intros [] ?; cbn in *; unfold quiet in *; intuition).
  unfold control_inv. rewrite H1. destruct (w_control w); unfold draining, state_is, cleared in *; rewrite ?H3; try (by intuition auto).
  - destruct why; intuition auto.
  - intros (? & Hd & Hq). split; [done|]. split; [destruct why; intuition auto|]. intros q Hr. apply H4; [|by apply Hq]. destruct why; apply Hd || apply (proj1 Hd).
  - destruct why; intuition auto.
Qed.

Lemma passed_range w p : trace_inv w -> ~ not_passed w p -> 0 <= p < get_pcpu_nums /\ writer_active (trace_rings (w_shared w) p) = true.
Proof.
  intros [H _] Hn. destruct (H p) as [Hc _ _]. unfold not_passed, call_passed in Hn. destruct (w_calls w p) as [|c cs]; [done|].
  destruct Hc as (Hp & _ & Ha & Hr & _). assert (irq_on (t_at c) = false) as E by (by destruct (t_at c)). rewrite Ha, E. auto.
Qed.

Lemma pcpu_ok_mask mask mask' p cs r : call_passed cs = false -> pcpu_ok mask p cs r [] -> pcpu_ok mask' p cs r [].
Proof.
  intros Hn [Hc _ Hr]. split; [|constructor|done]. destruct cs as [|c cs]; [done|]. destruct Hc as (? & ? & ? & ? & Hc). cbn in Hn.
  split; [done|]. split; [done|]. split; [done|]. split; [done|]. by destruct (t_at c).
Qed.

Lemma fset_eq {A} p (x : A) f : fset p x f p = x.
Proof. unfold fset. by rewrite Z.eqb_refl. Qed.
Lemma fset_ne {A} p q (x : A) f : q <> p -> fset p x f q = f q.
Proof. intros. unfold fset. by rewrite (proj2 (Z.eqb_neq _ _)). Qed.

Lemma put_inv w p c cs c' m rs : trace_inv w -> w_calls w p = c :: cs ->
  put_step get_pcpu_nums (w_now w) p c (w_shared w) = (c', m, rs) ->
  trace_inv (w <| w_shared := m |> <| w_log := fset p (w_log w p ++ rs) (w_log w) |>
               <| w_calls := fset p (match c' with Some c' => c' :: cs | None => cs end) (w_calls w) |>).
Proof.
  intros [HP HC] Ec E. pose proof (HP p) as Hp. rewrite Ec in Hp. pose proof (put_step_ok _ _ _ _ _ _ _ _ _ Hp E) as Hp'.
  destruct Hp as [(_ & Hcs & _) _ _]. destruct (put_step_frame _ _ _ _ _ _ _ _ Hcs E) as ([r Hm] & Hpass & Hrec).
  assert ((forall q, q <> p -> trace_rings m q = trace_rings (w_shared w) q) /\ trace_running m = trace_running (w_shared w) /\
    trace_event_mask m = trace_event_mask (w_shared w) /\ trace_state m = trace_state (w_shared w)) as (Hq & Hr & Hk & Hs).
  { destruct Hm as [->|[-> _]]; [|done]. split; [|done]. intros q Hne. by apply ring_set_ne. }
  split.
  - intros q. cbn. rewrite Hk. destruct (decide (q = p)) as [->|Hne]; [by rewrite !fset_eq|]. rewrite !fset_ne, Hq by done. apply HP.
  - apply (writers_only_inv w); [|done]. split; try done. intros q Hst Hn. unfold not_passed in *. cbn.
    destruct (decide (q = p)) as [->|Hne]; [|by rewrite !fset_ne]. rewrite !fset_eq. rewrite Ec in Hn. cbn in Hn. unfold stopped in Hst.
    split; [|by rewrite (proj1 (Hrec Hn)), app_nil_r]. apply not_true_is_false. intros [?|?]%Hpass; congruence.
Qed.

Lemma begin_inv w c w' : trace_inv w -> (settled w -> control_inv (w <| w_control := c |>)) ->
  match w_control w with CDone _ => Some (w <| w_control := c |>) | _ => None end = Some w' -> trace_inv w'.
Proof.
  intros [HP HC] H E. unfold control_inv in HC. destruct (w_control w); simplify_eq. split; [apply HP|by apply H].
Qed.

Lemma quiet_all w : trace_inv w -> (forall q, 0 <= q < get_pcpu_nums -> not_passed w q) -> forall q, not_passed w q.
Proof.
  intros I H q. destruct (decide (call_passed (w_calls w q) = false)) as [|Hn]; [done|]. apply H. by apply (passed_range w q I Hn).
Qed.

Lemma cleared_all w : trace_inv w -> (forall q, 0 <= q < MAX_PCPU_NUM -> w_log w q = []) -> cleared w.
Proof.
  intros [I _] H q. destruct (w_log w q) eqn:E; [done|]. pose proof (po_range _ _ _ _ _ (I q) ltac:(by rewrite E)). rewrite <- E. apply H. lia.
Qed.

Lemma quiet_settled w : quiet w -> at_rest w -> settled w.
Proof. unfold settled, at_rest, state_is. by intros Hq [->| ->]. Qed.

(** The steps of the shell that change neither a ring nor the mask. *)
Lemma control_flow_inv w c m : trace_inv w -> control_step khz get_pcpu_nums (w_now w) (w_control w) (w_shared w) = (c, m) ->
  match w_control w with CMemset _ _ | CMask _ | CSession _ => False | _ => True end ->
  trace_inv (w <| w_control := c |> <| w_shared := m |>).
Proof.
  intros I E Hno. split.
  - intros p. destruct I as [HP HC]. unfold control_step in E. clear HC.
    destruct (w_control w); try done; repeat case_match; simplify_eq; apply HP.
  - pose proof I as [HP HC]. unfold control_inv in HC |- *. destruct (w_control w) as [mask| | | |why|why|why d p|why d|ret| | | | | | | | ] eqn:Ew; try done; unfold control_step in E.
    + (* CStart *) destruct (_ || _); [|destruct (capture_busy _)]; simplify_eq; exact HC || by split.
    + (* CStop *) destruct (trace_state (w_shared w)) eqn:Es; simplify_eq; cbn; unfold settled, state_is, stopped in *; cbn; rewrite ?Es in *; auto.
    + (* CStopped *) simplify_eq. cbn. unfold settled, state_is. cbn. split; [apply HC|auto].
    + (* CStopWait *) destruct HC as [Hs [Hd|Hd]]; unfold settled, state_is in *; rewrite Hd in *; case_bool_decide; simplify_eq; try done; cbn; unfold settled; cbn; by rewrite Hd.
    + (* CClear *) destruct HC as [Hs Hw]. unfold capture_busy in E. unfold settled in *. do 2 case_bool_decide; cbn in E; simplify_eq; cbn; unfold settled; cbn; try done.
      unfold draining. destruct (trace_state (w_shared w)) eqn:Es; try done; destruct why; try done; unfold at_rest, state_is; cbn; rewrite ?Es; auto.
    + (* CDeadline *) simplify_eq. cbn. split; [lia|]. split; [by destruct why|]. intros q Hq. lia.
    + (* CScan *) destruct HC as (Hp & Hd & Hq). destruct (Z.ltb_spec p get_pcpu_nums) as [Hlt|Hge].
      * destruct (writer_active _) eqn:Ea; simplify_eq; cbn; [by destruct why|]. split; [lia|]. split; [by destruct why|]. intros q Hr.
        destruct (decide (q = p)) as [->|]; [|apply Hq; lia]. apply not_true_is_false. intros Ht. destruct (passed_range w p I) as [_ ?]; [unfold not_passed; cbn in Ht; congruence|congruence].
      * assert (forall q, not_passed w q) as Hall by (apply quiet_all; [done|]; intros; apply Hq; lia).
        simplify_eq. destruct why; cbn in *; unfold quiet, stopped, state_is, at_rest in *; cbn; intuition (auto; try lia; discriminate).
    + (* CRelax *) destruct (_ <? _); simplify_eq; [cbn; split; [lia|]; split; [by destruct why|]; intros; lia|].
      destruct why; [|apply (quiet_settled w); apply HC..]. split; [apply HC|]. split; [apply HC|]. discriminate.
    + (* CStatus *) destruct HC as (Hs & Hd & Hq). destruct (Z.eqb_spec ret 0); simplify_eq; cbn; [by split; [apply Hq|]|]. unfold settled, state_is in *. cbn. by rewrite Hd.
    + (* CReady *) simplify_eq. apply HC.
    + (* CIdle *) simplify_eq. destruct HC as (Hw & Hq & _ & Hc). by destruct why.
    + (* CCapturing *) simplify_eq. by destruct HC.
    + (* CRun *) simplify_eq. destruct HC as [_ Hs]. cbn. unfold settled, state_is in *. cbn. by rewrite Hs.
    + (* CDone *) by simplify_eq.
Qed.

(** A ring is cleared whose writer is not in its window. *)
Lemma memset_inv w why p : trace_inv w -> w_control w = CMemset why p -> p < MAX_PCPU_NUM ->
  match w_calls w p with c :: _ => irq_on (t_at c) = true | [] => True end ->
  trace_inv (w <| w_control := CMemset why (p + 1) |> <| w_shared := set_ring p empty_ring (w_shared w) |> <| w_log := fset p [] (w_log w) |>).
Proof.
  intros [HP HC] Ew Hp Hcalm. unfold control_inv in HC. rewrite Ew in HC. destruct HC as (H0 & Hw & Hq & Ha & Hl). split.
  - intros q. cbn. unfold fset. destruct (Z.eqb_spec q p) as [->|]; [|apply HP]. split; [|constructor|done].
    destruct (HP p) as [Hc _ _]. destruct (w_calls w p) as [|c cs]; [split; [done|apply ring_log_empty]|]. destruct Hc as (Hge & Hcs & _ & Hn & _).
    apply (pop_ok _ _ (c :: cs)); [done| |done|apply ring_log_empty]. constructor; [|done]. split; [done|]. auto.
  - cbn. split; [lia|]. split; [done|]. split; [done|]. split; [done|]. intros q Hr. unfold fset.
    destruct (Z.eqb_spec q p); [done|]. apply Hl. lia.
Qed.

Lemma new_mask_inv w c m : trace_inv w -> quiet w -> cleared w -> trace_rings m = trace_rings (w_shared w) ->
  control_inv (w <| w_control := c |> <| w_shared := m |>) -> trace_inv (w <| w_control := c |> <| w_shared := m |>).
Proof.
  intros [HP HC] [_ Hq] Hl Hm Hi. split; [|done]. intros p. cbn. rewrite Hl, Hm.
  apply (pcpu_ok_mask (trace_event_mask (w_shared w))); [apply Hq|]. specialize (HP p). by rewrite Hl in HP.
Qed.

Lemma trace_step_inv e w w' : trace_inv w -> calm w e -> trace_step khz get_pcpu_nums e w = Some w' -> trace_inv w'.
Proof.
  intros I Hcalm E. pose proof I as [HP HC]. destruct e as [p c|p|p|mask| | | |t]; cbn [trace_step] in E.
  - (* Trace *) destruct Hcalm as [Hp Hat]. assert (forall cs, w_calls w p = cs -> Forall (waiting p) cs ->
      trace_inv (w <| w_calls := fset p (c :: cs) (w_calls w) |>)) as H.
    { intros cs Ec Hcs. split.
      - intros q. cbn. destruct (decide (q = p)) as [->|]; [rewrite fset_eq|by rewrite fset_ne]. destruct (HP p) as [Hc Hl Hr]. split; [|done..].
        rewrite Ec in Hc. split; [done|]. split; [done|]. assert (writer_active (trace_rings (w_shared w) p) = false /\ ring_log (trace_rings (w_shared w) p) (w_log w p)) as [Ha Hg].
        { destruct cs as [|c' cs]; [done|]. destruct Hc as (_ & _ & Ha & _ & Hc). apply Forall_cons in Hcs as [[Hi _] _]. rewrite Ha, Hi. split; [done|]. by destruct (t_at c'). }
        split; [by rewrite Hat|]. rewrite Hat. split; [intuition discriminate|done].
      - apply (writers_only_inv w); [|done]. split; try done. intros q _ Hn. split; [|done]. unfold not_passed in *. cbn.
        destruct (decide (q = p)) as [->|]; [rewrite fset_eq; cbn; by rewrite Hat|by rewrite fset_ne]. }
    destruct (HP p) as [Hc _ _]. destruct (w_calls w p) as [|c' cs] eqn:Ec; [simplify_eq; by apply H|].
    destruct (irq_on (t_at c')) eqn:Ei; simplify_eq. apply H; [done|]. destruct Hc as (_ & Hcs & _ & Hn & _). constructor; [by split; auto|done].
  - (* Put *) destruct (w_calls w p) as [|c cs] eqn:Ec; [done|]. destruct (put_step _ _ _ _ _) as [[c' m] rs] eqn:Ep. simplify_eq. by eapply put_inv.
  - done.
  - eapply begin_inv; [done| |exact E]. auto.
  - eapply begin_inv; [done| |exact E]. auto.
  - eapply begin_inv; [done| |exact E]. by split.
  - (* Control *) cbn in Hcalm. destruct (control_step _ _ _ _ _) as [c m] eqn:Ec.
    destruct (w_control w) as [| | | | | | | | | |why p|why| |mask| | |] eqn:Ew;
      try (simplify_eq; apply (control_flow_inv w c m I); [by rewrite Ew|by rewrite Ew]); cbn in Ec; unfold control_inv in HC; rewrite Ew in HC.
    + destruct (Z.ltb_spec p MAX_PCPU_NUM); simplify_eq; [by apply memset_inv|]. destruct HC as (H0 & Hw & Hq & Ha & Hl). split; [apply HP|].
      split; [done|]. split; [done|]. split; [done|]. apply (cleared_all w I). intros q Hr. apply Hl. lia.
    + destruct HC as (Hw & Hq & Ha & Hl). simplify_eq. by apply new_mask_inv.
    + destruct HC as (Hq & Ha & Hl). simplify_eq. by apply new_mask_inv.
  - (* Tick *) simplify_eq. split; [apply HP|]. by apply (writers_only_inv w).
Qed.

Lemma trace_reach_inv w : trace_reach khz get_pcpu_nums w -> trace_inv w.
Proof.
  induction 1 as [|e w w' _ IH Hc E]; [|by eapply trace_step_inv]. split; [|by split].
  intros p. split; [split; [done|apply ring_log_empty]|constructor|done].
Qed.
End Invariant.

(** ** The snapshot *)
Lemma ready_record khz nums w p i : nums <= MAX_PCPU_NUM -> trace_reach khz nums w -> trace_state (w_shared w) = CAPTURE_READY -> 0 <= i ->
  let log := w_log w p in
  ring_log (trace_rings (w_shared w) p) log /\
  trace_get_record nums p i (w_shared w) =
    if (p <? nums) && (i <? Z.of_nat (length log `min` cap)) then log !! (length log - cap + Z.to_nat i)%nat else None.
Proof.
  intros Hn Hw Hs Hi log. pose proof (trace_reach_inv khz nums Hn w Hw) as [HP HC].
  assert (call_passed (w_calls w p) = false) as Hq.
  { unfold control_inv, settled, draining, quiet, at_rest, state_is, not_passed in HC. rewrite Hs in HC.
    destruct (w_control w); try destruct why; intuition (auto; discriminate). }
  assert (ring_log (trace_rings (w_shared w) p) log) as R.
  { destruct (HP p) as [Hc _ _]. destruct (w_calls w p) as [|c cs]; [apply Hc|]. destruct Hc as (_ & _ & _ & _ & Hc).
    cbn in Hq. destruct (t_at c); try done; try apply Hc. }
  split; [done|]. unfold trace_get_record. rewrite Hs, bool_decide_true by done. cbn [negb orb].
  rewrite Z.leb_antisym. destruct (p <? nums); cbn [negb andb]; [|done].
  rewrite Z.leb_antisym, (rl_count _ _ R). destruct (Z.ltb_spec i (Z.of_nat (length log `min` cap))); cbn [negb]; [|done].
  rewrite <- (rl_count _ _ R). apply (ring_slot _ _ _ R). rewrite (rl_count _ _ R). lia.
Qed.

(** C24: A ready snapshot is exact.  When the capture is ready, the records that
    can be read of a pCPU are, in order, the newest of the records that it has
    published since the rings were cleared, as many as the ring holds; the rest is
    counted as overwritten; and every one is of an enabled category and carries
    the number of its pCPU. *)
Theorem trace_snapshot_exact khz nums w p i : nums <= MAX_PCPU_NUM -> trace_reach khz nums w ->
  trace_state (w_shared w) = CAPTURE_READY -> 0 <= p < nums -> 0 <= i ->
  let log := w_log w p in
  trace_get_record nums p i (w_shared w) =
    (if i <? Z.of_nat (length log `min` cap) then log !! (length log - cap + Z.to_nat i)%nat else None) /\
  s_count (trace_get_cpu_status nums p (w_shared w)) = Z.of_nat (length log `min` cap) /\
  s_overwritten (trace_get_cpu_status nums p (w_shared w)) = u64 (Z.of_nat (length log - cap)) /\
  Forall (fun r => cpu r = p /\ event_enabled (id r) (trace_event_mask (w_shared w)) = true) log.
Proof.
  intros Hn Hw Hs Hp Hi log. destruct (ready_record khz nums w p i Hn Hw Hs Hi) as [R E]. fold log in R, E.
  unfold trace_get_cpu_status. rewrite E, (proj2 (Z.ltb_lt p nums)) by lia. split; [done|]. split; [apply R|]. split; [apply R|].
  eapply Forall_impl; [apply (po_log _ _ _ _ _ _ (ti_pcpu _ _ (trace_reach_inv khz nums Hn w Hw) p))|]. by intros r [? ?].
Qed.

(** What may happen while the shell reads: writers, time, and a further stop. *)
Definition while_reading (e : trace_event) : Prop :=
  match e with
  | Trace pcpu c => 0 <= pcpu /\ t_at c = PEnabled true
  | Delay _ | Start _ | Clear => False
  | _ => True
  end.

Definition reading (w : trace_world) : Prop :=
  trace_state (w_shared w) = CAPTURE_READY /\ match w_control w with CDone _ | CStop | CStopWait => True | _ => False end.

Lemma reading_step khz nums e w w' : nums <= MAX_PCPU_NUM -> trace_reach khz nums w -> reading w -> while_reading e -> trace_step khz nums e w = Some w' ->
  trace_reach khz nums w' /\ reading w' /\ forall p, w_log w' p = w_log w p.
Proof.
  intros Hn Hw [Hs Hc] He E. split.
  { eapply trace_reach_step; [exact Hw| |exact E]. destruct e; try done. cbn. by destruct (w_control w). }
  destruct (trace_reach_inv khz nums Hn w Hw) as [HP HC].
  assert (quiet w) as [Hst Hq].
  { unfold control_inv, settled in HC. rewrite Hs in HC. destruct (w_control w); try done; apply HC. }
  destruct e as [p c|p|p|mask| | | |t]; cbn [trace_step] in E; try done.
  - destruct (w_calls w p); [|case_match]; by simplify_eq.
  - specialize (Hq p). unfold not_passed in Hq. pose proof (po_calls _ _ _ _ _ _ (HP p)) as Hcs. destruct (w_calls w p) as [|c cs]; [done|].
    destruct (put_step _ _ _ _ _) as [[c' m] rs] eqn:Ep. destruct (put_step_frame _ _ _ _ _ _ _ _ _ (proj1 (proj2 Hcs)) Ep) as ([r Hm] & _ & Hrec).
    simplify_eq. rewrite (proj1 (Hrec Hq)), app_nil_r. split; [|intros q; cbn; unfold fset; by destruct (Z.eqb_spec q p) as [->|]].
    split; [by destruct Hm as [->|[-> _]]|done].
  - destruct (w_control w); simplify_eq; done.
  - destruct (w_control w); try done; cbn in E; rewrite ?Hs in E; simplify_eq; done.
  - by simplify_eq.
Qed.


(** ** The wait is bounded

    The steps of the shell that are left once the deadline of its wait has passed. *)
Definition wait_deadline (c : control_at) : option Z := match c with CScan _ d _ | CRelax _ d => Some d | _ => None end.
Definition steps_left (nums : Z) (c : control_at) : nat :=
  let tail := (Z.to_nat MAX_PCPU_NUM + 8)%nat in
  match c with
  | CScan _ _ p => S (S (Z.to_nat (nums - p) + tail))
  | CRelax _ _ => S tail
  | CMemset _ p => 7 + Z.to_nat (MAX_PCPU_NUM - p)
  | CMask _ => 6
  | CIdle _ => 5
  | CSession _ => 4
  | CCapturing => 3
  | CRun => 2
  | CStatus _ => 2
  | CReady => 1
  | _ => 0
  end%nat.

Local Ltac left_tac := cbn; unfold MAX_PCPU_NUM in *; split_and!; eauto; try lia; done.

Lemma control_step_left khz nums now c m : (steps_left nums c <> 0)%nat ->
  (forall d, wait_deadline c = Some d -> d <= now) -> match c with CMemset _ p => 0 <= p | _ => True end ->
  let c' := (control_step khz nums now c m).1 in
  (steps_left nums c' < steps_left nums c)%nat /\ match c' with CMemset _ p => 0 <= p | _ => True end /\
  (forall d, wait_deadline c' = Some d -> wait_deadline c = Some d) /\ (steps_left nums c' = 0%nat -> exists ret, c' = CDone ret).
Proof.
  intros H0 Hd Hp. unfold MAX_PCPU_NUM in *. destruct c as [| | | | | |why d p|why d|ret| |why p|why|why|mask| | |]; cbn in H0 |- *; try done.
  - destruct (Z.ltb_spec p nums); [destruct (writer_active _)|destruct why]; left_tac.
  - rewrite (proj2 (Z.ltb_ge _ _)) by (by apply Hd). change (waited why (- ETIMEDOUT)) with (match why with WStop => CStatus (- ETIMEDOUT) | _ => CDone (- ETIMEDOUT) end). destruct why; left_tac.
  - destruct (ret =? 0); left_tac.
  - left_tac.
  - destruct (Z.ltb_spec p MAX_PCPU_NUM); left_tac.
  - left_tac.
  - destruct why; left_tac.
  - left_tac.
  - left_tac.
  - left_tac.
Qed.

(** The shell runs against times and shared variables that change between its steps
    in any way. *)
Fixpoint control_against (khz nums : Z) (env : list (Z * trace_shared)) (c : control_at) : control_at :=
  match env with
  | [] => c
  | (now, m) :: env => control_against khz nums env (control_step khz nums now c m).1
  end.

(** C26: Stopping and clearing are bounded.  Whatever the writers do, an operation
    that waits for them returns within a fixed number of its own steps once the
    deadline of its wait has passed. *)
Theorem trace_wait_returns khz nums why d p env : 0 <= p ->
  Forall (fun e => d <= e.1) env -> (Z.to_nat nums + Z.to_nat MAX_PCPU_NUM + 10 <= length env)%nat ->
  exists ret, control_against khz nums env (CScan why d p) = CDone ret.
Proof.
  intros Hp Henv Hlen. assert (steps_left nums (CScan why d p) <= length env)%nat as Hl by (unfold steps_left; lia).
  assert (forall d', wait_deadline (CScan why d p) = Some d' -> d' = d) as Hd by (cbn; congruence).
  assert (steps_left nums (CScan why d p) = 0%nat -> exists ret, CScan why d p = CDone ret) as H0 by (cbn; lia).
  assert (match CScan why d p with CMemset _ p => 0 <= p | _ => True end) as Hm by done.
  revert Hl Hd H0 Hm. generalize (CScan why d p) as c. clear Hlen. induction Henv as [|[now m] env Hnow Henv IH]; intros c Hl Hd H0 Hm; cbn [control_against].
  - apply H0. cbn in Hl. lia.
  - destruct (decide (steps_left nums c = 0%nat)) as [E|E].
    + destruct (H0 E) as [ret ->]. cbn. apply IH; cbn; [lia|done|eauto|done].
    + destruct (control_step_left khz nums now c m E) as (H1 & H2 & H3 & H4); [intros d' Hd'; rewrite (Hd d' Hd'); exact Hnow|done|].
      apply IH; [cbn in Hl; lia|auto|auto|done].
Qed.

Lemma trace_wait_returns_witness : exists ret,
  control_against 1000 2 (replicate 20 (5, w_shared trace_init)) (CScan WStop 5 0) = CDone ret.
Proof.
  apply trace_wait_returns; [lia|by apply Forall_replicate|rewrite length_replicate; vm_compute; lia].
Defined.

(** ** A capture *)
Definition calmb (w : trace_world) (e : trace_event) : bool :=
  match e with
  | Trace pcpu c => (0 <=? pcpu) && match t_at c with PEnabled true => true | _ => false end
  | Delay _ => false
  | Control =>
      match w_control w with
      | CMemset _ p => match w_calls w p with c :: _ => irq_on (t_at c) | [] => true end
      | _ => true
      end
  | _ => true
  end.

Fixpoint calm_run (khz nums : Z) (es : list trace_event) (w : trace_world) : option trace_world :=
  match es with
  | [] => Some w
  | e :: es => if calmb w e then w ← trace_step khz nums e w; calm_run khz nums es w else None
  end.

Lemma calmb_calm w e : calmb w e = true -> calm w e.
Proof.
  destruct e as [p c|p|p|mask| | | |t]; cbn; try done.
  - intros [Hp%Z.leb_le Hc]%andb_true_iff. split; [done|]. by destruct (t_at c) as [[]| | | | | | | | | | |].
  - destruct (w_control w); try done. by destruct (w_calls w _).
Qed.

Lemma calm_run_reach khz nums es w w' : trace_reach khz nums w -> calm_run khz nums es w = Some w' -> trace_reach khz nums w'.
Proof.
  revert w. induction es as [|e es IH]; intros w Hw E; cbn in E; [by simplify_eq|]. destruct (calmb w e) eqn:Ec; [|done].
  destruct (trace_step khz nums e w) as [w1|] eqn:E1; [|done]. eapply IH; [|exact E]. eapply trace_reach_step; [done|by apply calmb_calm|done].
Qed.

(** Two events of pCPU 1, the second interrupted by the end of the capture. *)
Definition demo_capture : list trace_event :=
  capture 2 ++ event_of 1 :: put_steps 1 13 ++ event_of 1 :: put_steps 1 4 ++ stop_capture 2.

Lemma demo_ready : exists w, trace_reach 1000 2 w /\ trace_state (w_shared w) = CAPTURE_READY /\ w_control w = CDone 0 /\
  length (w_log w 1) = 1%nat /\ is_Some (trace_run 1000 2 (put_steps 1 3) w).
Proof.
  assert (match calm_run 1000 2 demo_capture trace_init with
    | Some w => trace_state (w_shared w) = CAPTURE_READY /\ w_control w = CDone 0 /\ length (w_log w 1) = 1%nat /\
        match trace_run 1000 2 (put_steps 1 3) w with Some _ => True | None => False end
    | None => False
    end) as H by (vm_compute; repeat split).
  destruct (calm_run 1000 2 demo_capture trace_init) as [w|] eqn:E; [|destruct H]. exists w. destruct H as (H1 & H2 & H3 & H4).
  split; [exact (calm_run_reach 1000 2 demo_capture trace_init w (trace_reach_init 1000 2) E)|]. clear E.
  split; [done|]. split; [done|]. split; [done|]. destruct (trace_run _ _ _ w); [by eexists|done].
Qed.

Lemma trace_snapshot_exact_witness : exists w r, trace_state (w_shared w) = CAPTURE_READY /\
  trace_get_record 2 1 0 (w_shared w) = Some r /\ cpu r = 1 /\ s_overwritten (trace_get_cpu_status 2 1 (w_shared w)) = 0.
Proof.
  destruct demo_ready as (w & Hw & Hs & _ & Hl & _). exists w.
  destruct (trace_snapshot_exact 1000 2 w 1 0 ltac:(done) Hw Hs ltac:(lia) ltac:(lia)) as (E & _ & Ho & Hf).
  destruct (w_log w 1) as [|r [|]]; try done. apply Forall_inv in Hf. exists r. split; [exact Hs|]. split; [exact E|]. split; [apply Hf|exact Ho].
Defined.

