(* ===== verification/Vgic.v ===== *)
(** * The virtual interrupt controller

    The core of arch/arm64/guest/vgicv3.c for one VM: the descriptors of the
    virtual interrupts, the list registers (LRs) in the context of every vCPU, and
    the virtual CPU interface of every pCPU, with the operations that inject,
    deassert and complete interrupts, move them into LRs (flush) and read LRs back
    (sync).  Every operation runs under the lock of the vGIC and is one step. *)
From S2P Require Import Prelude Bits.

(** ** Constants *)
Definition ARM64_VGIC_MAX_LRS : Z := 8.
Definition ARM64_VGIC_SGI_NUM : Z := 16.
Definition ARM64_VGIC_LOCAL_IRQ_NUM : Z := 32.
Definition ARM64_VGIC_IRQ_NUM : Z := 1024.
Definition ARM64_VGIC_WORDS : Z := 32.
Definition ARM64_VGIC_MAX_VCPUS : Z := 8.
Definition ARM64_VGIC_LPI_BASE : Z := 8192.
Definition ARM64_VGIC_LPI_NUM : Z := 256.
Definition ARM64_VGIC_LPI_WORDS : Z := 8.
Definition ARM64_GIC_PPI_VIRTUAL_TIMER : Z := 27.
Definition VGIC_CTLR_ENABLE_G1 : Z := Z.shiftl 1 1.
Definition VGICR_CTLR_ENABLE_LPIS : Z := Z.shiftl 1 0.
Definition ICH_HCR_EN : Z := Z.shiftl 1 0.
Definition ICH_HCR_UIE : Z := Z.shiftl 1 1.
Definition ICH_HCR_TC : Z := Z.shiftl 1 10.
Definition ICH_HCR_EOICOUNT_MASK : Z := Z.shiftl 0x1f 27.
Definition ICH_VMCR_VENG1 : Z := Z.shiftl 1 1.
Definition ICH_VMCR_EOIM : Z := Z.shiftl 1 9.
Definition ICH_VMCR_PRIORITY_MASK : Z := Z.shiftl 0xff 24.
Definition ICH_LR_VINTID_MASK : Z := 0xffffffff.
Definition ICH_LR_EOI : Z := Z.shiftl 1 41.
Definition ICH_LR_GROUP1 : Z := Z.shiftl 1 60.
Definition ICH_LR_HW : Z := Z.shiftl 1 61.
Definition ICH_LR_STATE_INVALID : Z := 0.
Definition ICH_LR_STATE_PENDING : Z := 1.
Definition ICH_LR_STATE_ACTIVE : Z := 2.
Definition ICH_LR_STATE_ACTIVE_PENDING : Z := 3.
Definition ICC_CTLR_EL1_EOIMODE : Z := Z.shiftl 1 1.
Definition ICC_SRE_SRE : Z := Z.shiftl 1 0.

Definition BIT32 (n : Z) : Z := u32 (Z.shiftl 1 n).
Definition not32 (x : Z) : Z := u32 (Z.lnot x).

(** ** State

    The field [virq] of a descriptor is its index. *)
Record arm64_vgic_irq := {
  pirq : Z;
  priority : Z;
  target_vcpu : Z;
  enabled : bool;
  pending : bool;
  active : bool;
  level : bool;
  hw : bool;
}.
#[export] Instance arm64_vgic_irq_eta : Eta arm64_vgic_irq := fun r =>
  {| pirq := pirq r; priority := priority r; target_vcpu := target_vcpu r; enabled := enabled r; pending := pending r;
     active := active r; level := level r; hw := hw r |}.

Record arm64_vgicv3_vcpu_ctx := {
  lr : list Z;
  ap0r0 : Z;
  ap1r0 : Z;
  vmcr : Z;
  hcr : Z;
  sre : Z;
  pmr : Z;
  ctlr : Z;
  used_lrs : Z;
}.
#[export] Instance arm64_vgicv3_vcpu_ctx_eta : Eta arm64_vgicv3_vcpu_ctx := fun r =>
  {| lr := lr r; ap0r0 := ap0r0 r; ap1r0 := ap1r0 r; vmcr := vmcr r; hcr := hcr r; sre := sre r; pmr := pmr r; ctlr := ctlr r;
     used_lrs := used_lrs r |}.

(** The tables of the ITS; its counters are not modelled. *)
Record arm64_vits_collection := { collection_id : Z; collection_target : Z; collection_valid : bool }.
Record arm64_vits_device := { device_id : Z; itt_addr : Z; event_count : Z; device_valid : bool }.
Record arm64_vits_event := { event_device : Z; event_id : Z; event_lpi : Z; event_collection : Z; event_valid : bool }.
#[export] Instance arm64_vits_collection_eta : Eta arm64_vits_collection := fun r =>
  {| collection_id := collection_id r; collection_target := collection_target r; collection_valid := collection_valid r |}.
#[export] Instance arm64_vits_device_eta : Eta arm64_vits_device := fun r =>
  {| device_id := device_id r; itt_addr := itt_addr r; event_count := event_count r; device_valid := device_valid r |}.
#[export] Instance arm64_vits_event_eta : Eta arm64_vits_event := fun r =>
  {| event_device := event_device r; event_id := event_id r; event_lpi := event_lpi r; event_collection := event_collection r;
     event_valid := event_valid r |}.

Record arm64_vits := {
  gits_ctlr : Z;
  gits_typer : Z;
  cbaser : Z;
  cwriter : Z;
  creadr : Z;
  baser : Z -> Z;
  collection : Z -> arm64_vits_collection;
  device : Z -> arm64_vits_device;
  event : Z -> Z -> arm64_vits_event;
}.
#[export] Instance arm64_vits_eta : Eta arm64_vits := fun r =>
  {| gits_ctlr := gits_ctlr r; gits_typer := gits_typer r; cbaser := cbaser r; cwriter := cwriter r; creadr := creadr r; baser := baser r;
     collection := collection r; device := device r; event := event r |}.

(** [irq v k] is [vgic->irq[v][k]] and, for an LPI [k], [vgic->lpi[v][k - LPI_BASE]]. *)
Record arm64_vgicv3 := {
  its_enabled : bool;
  vcpu_count : Z;
  rdist_count : Z;
  lr_count : Z;
  gicd_ctlr : Z;
  gicd_typer : Z;
  gicd_pidr2 : Z;
  rdist_vcpu : Z -> Z;
  gicr_waker : Z -> Z;
  spi_router : Z -> Z;
  pending_bitmap : Z -> Z -> Z;
  lpi_pending_bitmap : Z -> Z -> Z;
  irq : Z -> Z -> arm64_vgic_irq;
  gicr_ctlr : Z -> Z;
  gicr_propbaser : Z -> Z;
  gicr_pendbaser : Z -> Z;
  its : arm64_vits;
}.
#[export] Instance arm64_vgicv3_eta : Eta arm64_vgicv3 := fun r =>
  {| its_enabled := its_enabled r; vcpu_count := vcpu_count r; rdist_count := rdist_count r; lr_count := lr_count r; gicd_ctlr := gicd_ctlr r;
     gicd_typer := gicd_typer r; gicd_pidr2 := gicd_pidr2 r; rdist_vcpu := rdist_vcpu r; gicr_waker := gicr_waker r; spi_router := spi_router r; pending_bitmap := pending_bitmap r; lpi_pending_bitmap := lpi_pending_bitmap r; irq := irq r;
     gicr_ctlr := gicr_ctlr r; gicr_propbaser := gicr_propbaser r; gicr_pendbaser := gicr_pendbaser r; its := its r |}.

(** The registers of the virtual CPU interface of a pCPU. *)
Record ich_regs := {
  ich_lr : list Z;
  ich_vmcr : Z;
  ich_hcr : Z;
  ich_ap0r0 : Z;
  ich_ap1r0 : Z;
  icc_sre : Z;
  icc_pmr : Z;
}.
#[export] Instance ich_regs_eta : Eta ich_regs := fun r =>
  {| ich_lr := ich_lr r; ich_vmcr := ich_vmcr r; ich_hcr := ich_hcr r; ich_ap0r0 := ich_ap0r0 r; ich_ap1r0 := ich_ap1r0 r;
     icc_sre := icc_sre r; icc_pmr := icc_pmr r |}.

(** A VM: [running p] is its vCPU that is loaded on pCPU [p], [pcpu_of v] the pCPU
    that vCPU [v] is bound to, [cntv_line v] the level of its virtual timer and
    [cntv_masked v] whether the host interrupt of the timer is masked. *)
Record vgic_world := {
  vgic : arm64_vgicv3;
  vctx : Z -> arm64_vgicv3_vcpu_ctx;
  cpuif : Z -> ich_regs;
  running : Z -> option Z;
  pcpu_of : Z -> Z;
  created_vcpus : Z;
  cntv_line : Z -> bool;
  cntv_masked : Z -> bool;
}.
#[export] Instance vgic_world_eta : Eta vgic_world := fun r =>
  {| vgic := vgic r; vctx := vctx r; cpuif := cpuif r; running := running r; pcpu_of := pcpu_of r; created_vcpus := created_vcpus r;
     cntv_line := cntv_line r; cntv_masked := cntv_masked r |}.

Definition upd {A} (p : Z) (x : A) (f : Z -> A) : Z -> A := fun q => if q =? p then x else f q.
Definition upd2 {A} (p k : Z) (x : A) (f : Z -> Z -> A) : Z -> Z -> A := fun q j => if (q =? p) && (j =? k) then x else f q j.

Definition set_vgic (g : arm64_vgicv3) (w : vgic_world) : vgic_world := w <| vgic := g |>.
Definition set_ctx (v : Z) (c : arm64_vgicv3_vcpu_ctx) (w : vgic_world) : vgic_world := w <| vctx := upd v c (vctx w) |>.
Definition set_cpuif (p : Z) (r : ich_regs) (w : vgic_world) : vgic_world := w <| cpuif := upd p r (cpuif w) |>.
Definition set_irq (v k : Z) (d : arm64_vgic_irq) (w : vgic_world) : vgic_world :=
  set_vgic ((vgic w) <| irq := upd2 v k d (irq (vgic w)) |>) w.

(** ** Descriptors and the pending bitmap *)
Definition vgic_irq_word (virq : Z) : Z := virq / 32.
Definition vgic_irq_bit (virq : Z) : Z := virq mod 32.
Definition vgic_irq_is_spi (virq : Z) : bool := (ARM64_VGIC_LOCAL_IRQ_NUM <=? virq) && (virq <? ARM64_VGIC_IRQ_NUM).
Definition vgic_irq_is_lpi (virq : Z) : bool :=
  (ARM64_VGIC_LPI_BASE <=? virq) && (virq <? ARM64_VGIC_LPI_BASE + ARM64_VGIC_LPI_NUM).
Definition vgic_is_vtimer_irq (virq : Z) : bool := virq =? ARM64_GIC_PPI_VIRTUAL_TIMER.

(** Whether [vgic_irq_desc] finds a descriptor. *)
Definition vgic_irq_desc (w : vgic_world) (v virq : Z) : bool :=
  (v <? ARM64_VGIC_MAX_VCPUS) && ((virq <? ARM64_VGIC_IRQ_NUM) || its_enabled (vgic w) && vgic_irq_is_lpi virq).

Definition bit_to (b : bool) (mask word : Z) : Z := if b then Z.lor word mask else Z.land word (not32 mask).

Definition vgic_set_pending (v virq : Z) (b : bool) (w : vgic_world) : vgic_world :=
  let w := set_irq v virq ((irq (vgic w) v virq) <| pending := b |>) w in
  let g := vgic w in
  if vgic_irq_is_lpi virq then
    let virq := virq - ARM64_VGIC_LPI_BASE in
    let word := vgic_irq_word virq in
    set_vgic (g <| lpi_pending_bitmap :=
      upd2 v word (bit_to b (BIT32 (vgic_irq_bit virq)) (lpi_pending_bitmap g v word)) (lpi_pending_bitmap g) |>) w
  else
    let word := vgic_irq_word virq in
    set_vgic (g <| pending_bitmap :=
      upd2 v word (bit_to b (BIT32 (vgic_irq_bit virq)) (pending_bitmap g v word)) (pending_bitmap g) |>) w.

Definition set_active (v virq : Z) (b : bool) (w : vgic_world) : vgic_world := set_irq v virq ((irq (vgic w) v virq) <| active := b |>) w.
Definition set_level (v virq : Z) (b : bool) (w : vgic_world) : vgic_world := set_irq v virq ((irq (vgic w) v virq) <| level := b |>) w.

Definition vgic_irq_target_vcpu (v virq : Z) (w : vgic_world) : Z :=
  if vgic_irq_is_spi virq then
    let t := target_vcpu (irq (vgic w) 0 virq) in if created_vcpus w <=? t then 0 else t
  else v.

Definition vgic_irq_deliverable (w : vgic_world) (v virq : Z) : bool :=
  let g := vgic w in
  let enabled := negb (Z.land (gicd_ctlr g) VGIC_CTLR_ENABLE_G1 =? 0) && negb (Z.land (vmcr (vctx w v)) ICH_VMCR_VENG1 =? 0) &&
                 enabled (irq g v virq) in
  if enabled && vgic_irq_is_lpi virq then
    (v <? ARM64_VGIC_MAX_VCPUS) && negb (Z.land (gicr_ctlr g v) VGICR_CTLR_ENABLE_LPIS =? 0)
  else enabled.

(** ** List registers *)
Definition make_lr_state (virq : Z) (d : arm64_vgic_irq) (pending active : bool) : Z :=
  let state := if active then if pending then ICH_LR_STATE_ACTIVE_PENDING else ICH_LR_STATE_ACTIVE
               else if pending then ICH_LR_STATE_PENDING else ICH_LR_STATE_INVALID in
  let lr := Z.land virq ICH_LR_VINTID_MASK in
  let lr := Z.lor lr (Z.shiftl (priority d) 48) in
  let lr := Z.lor lr (Z.shiftl state 62) in
  let lr := Z.lor lr ICH_LR_GROUP1 in
  if hw d then Z.lor (Z.lor lr (Z.shiftl (pirq d) 32)) ICH_LR_HW
  else if active || negb (level d) || (virq =? ARM64_GIC_PPI_VIRTUAL_TIMER) then Z.lor lr ICH_LR_EOI
  else lr.

Definition make_lr (virq : Z) (d : arm64_vgic_irq) : Z := make_lr_state virq d (pending d) (active d).
Definition lr_vintid (l : Z) : Z := Z.land l ICH_LR_VINTID_MASK.
Definition lr_state (l : Z) : Z := Z.land (Z.shiftr l 62) 3.
Definition lr_pending (l : Z) : bool := negb (Z.land (lr_state l) ICH_LR_STATE_PENDING =? 0).
Definition lr_active (l : Z) : bool := negb (Z.land (lr_state l) ICH_LR_STATE_ACTIVE =? 0).

Definition lr_at (l : list Z) (i : Z) : Z := nth (Z.to_nat i) l 0.
Definition set_lr (i x : Z) (c : arm64_vgicv3_vcpu_ctx) : arm64_vgicv3_vcpu_ctx := c <| lr := <[Z.to_nat i := x]> (lr c) |>.

(** The search from [i] on among [n] slots; -1 when there is none. *)
Fixpoint find_lr_from (l : list Z) (virq : Z) (i : Z) (n : nat) : Z :=
  match n with
  | O => - 1
  | S n => if negb (lr_state (lr_at l i) =? ICH_LR_STATE_INVALID) && (lr_vintid (lr_at l i) =? virq) then i
           else find_lr_from l virq (i + 1) n
  end.
Definition find_lr_for_virq (c : arm64_vgicv3_vcpu_ctx) (virq : Z) : Z := find_lr_from (lr c) virq 0 (Z.to_nat (used_lrs c)).

Definition remove_lr (idx : Z) (c : arm64_vgicv3_vcpu_ctx) : arm64_vgicv3_vcpu_ctx :=
  if idx <? used_lrs c then
    let last := used_lrs c - 1 in
    let c := if negb (idx =? last) then set_lr idx (lr_at (lr c) last) c else c in
    (set_lr last 0 c) <| used_lrs := last |>
  else c.

Definition append_lr (x : Z) (c : arm64_vgicv3_vcpu_ctx) : arm64_vgicv3_vcpu_ctx :=
  (set_lr (used_lrs c) x c) <| used_lrs := u8 (used_lrs c + 1) |>.

Definition vgic_update_irq_lr (v virq : Z) (w : vgic_world) : vgic_world :=
  let c := vctx w v in
  let d := irq (vgic w) v virq in
  let i := find_lr_for_virq c virq in
  if 0 <=? i then
    let lr_pending := enabled d && pending d in
    if lr_pending || active d then set_ctx v (set_lr i (make_lr_state virq d lr_pending (active d)) c) w
    else set_ctx v (remove_lr i c) w
  else w.

Definition vgic_update_irq_row_lr (v virq : Z) (w : vgic_world) : vgic_world :=
  if v <? created_vcpus w then vgic_update_irq_lr v virq w else w.

(** ** Access to the virtual CPU interface *)
Definition lr_slots (w : vgic_world) : Z := Z.min (lr_count (vgic w)) ARM64_VGIC_MAX_LRS.

(** A bit of ICH_EISR_EL2: the LR is free, and asked for maintenance at its end. *)
Definition lr_eoi (l : Z) : bool :=
  (lr_state l =? ICH_LR_STATE_INVALID) && negb (Z.land l ICH_LR_EOI =? 0) && (Z.land l ICH_LR_HW =? 0).
Definition read_ich_eisr_el2 (r : ich_regs) : Z :=
  foldl (fun e i => if lr_eoi (lr_at (ich_lr r) i) then Z.lor e (Z.shiftl 1 i) else e) 0 (seqZ 0 ARM64_VGIC_MAX_LRS).

Definition vgicv3_control_hcr (hcr : Z) : Z := Z.lor (Z.land hcr (not64 (Z.lor ICH_HCR_EOICOUNT_MASK ICH_HCR_TC))) ICH_HCR_EN.

Definition vgicv3_write_lrs (me : Z) (c : arm64_vgicv3_vcpu_ctx) (w : vgic_world) : vgic_world :=
  let r := cpuif w me in
  set_cpuif me (r <| ich_lr := foldl (fun l i => <[Z.to_nat i := if i <? used_lrs c then lr_at (lr c) i else 0]> l)
                                (ich_lr r) (seqZ 0 (lr_slots w)) |>) w.

Definition write_ich_hcr_el2 (me x : Z) (w : vgic_world) : vgic_world := set_cpuif me ((cpuif w me) <| ich_hcr := x |>) w.

Definition vgicv3_write_lrs_hcr (me : Z) (c : arm64_vgicv3_vcpu_ctx) (w : vgic_world) : vgic_world :=
  write_ich_hcr_el2 me (vgicv3_control_hcr (hcr c)) (vgicv3_write_lrs me c w).

Definition vgicv3_write_cpuif (me : Z) (c : arm64_vgicv3_vcpu_ctx) (w : vgic_world) : vgic_world :=
  let w := set_cpuif me ((cpuif w me) <| icc_pmr := pmr c |> <| ich_vmcr := vmcr c |> <| ich_ap0r0 := ap0r0 c |> <| ich_ap1r0 := ap1r0 c |>) w in
  vgicv3_write_lrs_hcr me c w.

Definition vgicv3_read_lrs (me v : Z) (w : vgic_world) : vgic_world :=
  let hw := ich_lr (cpuif w me) in
  set_ctx v (foldl (fun c i => let c := set_lr i (lr_at hw i) c in
                               if negb (lr_state (lr_at hw i) =? ICH_LR_STATE_INVALID) then c <| used_lrs := u8 (i + 1) |> else c)
              ((vctx w v) <| used_lrs := 0 |>) (seqZ 0 (lr_slots w))) w.

Definition vgicv3_sync_live_cpuif (me v : Z) (w : vgic_world) : vgic_world :=
  let x := ich_vmcr (cpuif w me) in
  set_ctx v ((vctx w v) <| vmcr := x |> <| pmr := Z.shiftr (Z.land x ICH_VMCR_PRIORITY_MASK) 24 |>
               <| ctlr := if negb (Z.land x ICH_VMCR_EOIM =? 0) then ICC_CTLR_EL1_EOIMODE else 0 |>
               <| sre := icc_sre (cpuif w me) |>) w.

Definition vgicv3_vcpu_is_loaded (w : vgic_world) (me v : Z) : bool := match running w me with Some u => u =? v | None => false end.
Definition vgicv3_vcpu_is_running_remote (w : vgic_world) (me v : Z) : bool :=
  negb (pcpu_of w v =? me) && vgicv3_vcpu_is_loaded w (pcpu_of w v) v.

Definition vgicv3_read_loaded_lrs (me v : Z) (is_current : bool) (w : vgic_world) : vgic_world :=
  if is_current || vgicv3_vcpu_is_loaded w me v then vgicv3_read_lrs me v w else w.
Definition vgicv3_write_loaded_lrs (me v : Z) (is_current : bool) (w : vgic_world) : vgic_world :=
  if is_current || vgicv3_vcpu_is_loaded w me v then vgicv3_write_lrs_hcr me (vctx w v) w else w.

Definition vgicv3_active_priority_empty (w : vgic_world) (me : Z) : bool :=
  (ich_ap0r0 (cpuif w me) =? 0) && (ich_ap1r0 (cpuif w me) =? 0).

(** The part of [arm64_vtimer_set_host_mask] that matters here. *)
Definition arm64_vtimer_set_host_mask (me v : Z) (masked : bool) (w : vgic_world) : vgic_world :=
  if vgicv3_vcpu_is_loaded w me v then w <| cntv_masked := upd v masked (cntv_masked w) |> else w.

Definition vgicv3_requeue_lr (me v virq : Z) (loaded : bool) (w : vgic_world) : vgic_world :=
  let d := irq (vgic w) v virq in
  let c := vctx w v in
  if negb (pending d) || negb (vgic_irq_deliverable w v virq) || (0 <=? find_lr_for_virq c virq) then w
  else if lr_count (vgic w) <=? used_lrs c then
    let c := c <| hcr := Z.lor (hcr c) ICH_HCR_UIE |> in
    let w := set_ctx v c w in
    if loaded then write_ich_hcr_el2 me (vgicv3_control_hcr (hcr c)) w else w
  else
    let i := used_lrs c in
    let c := append_lr (make_lr virq d) c in
    let w := set_ctx v c w in
    if loaded then
      let r := cpuif w me in
      write_ich_hcr_el2 me (vgicv3_control_hcr (hcr c)) (set_cpuif me (r <| ich_lr := <[Z.to_nat i := lr_at (lr c) i]> (ich_lr r) |>) w)
    else w.

(** ** Reading the LRs back (sync) *)
Definition complete_eoi_lr (me v eoi_lrs : Z) (old_lrs : list Z) (old_used_lrs : Z) (w : vgic_world) (i : Z) : vgic_world :=
  let c := vctx w v in
  if Z.land eoi_lrs (Z.shiftl 1 i) =? 0 then w
  else
    let l := if i <? used_lrs c then lr_at (lr c) i else 0 in
    let l := if (lr_state l =? ICH_LR_STATE_INVALID) && (i <? old_used_lrs) then lr_at old_lrs i else l in
    if lr_state l =? ICH_LR_STATE_INVALID then w
    else
      let virq := lr_vintid l in
      let w :=
        if vgic_irq_desc w v virq then
          let d := irq (vgic w) v virq in
          let keep_pending := if level d then lr_pending l || pending d else lr_pending l && lr_active l in
          let keep_pending := if vgic_is_vtimer_irq virq && vgicv3_vcpu_is_loaded w me v then cntv_line w v else keep_pending in
          let w := set_active v virq false (vgic_set_pending v virq keep_pending w) in
          if vgic_is_vtimer_irq virq then arm64_vtimer_set_host_mask me v keep_pending w else w
        else w in
      if i <? used_lrs (vctx w v) then set_ctx v (remove_lr i (vctx w v)) w else w.

Definition vgicv3_complete_eoi_lrs (me v eoi_lrs : Z) (old_lrs : list Z) (old_used_lrs : Z) (w : vgic_world) : vgic_world :=
  foldl (complete_eoi_lr me v eoi_lrs old_lrs old_used_lrs) w (reverse (seqZ 0 (lr_slots w))).

(** [None] when the active priorities are not empty and nothing is done. *)
Definition vgicv3_complete_timer_lr (me v virq idx : Z) (w : vgic_world) : option vgic_world :=
  if negb (vgicv3_active_priority_empty w me) then None
  else
    let line_asserted := cntv_line w v in
    let w := vgic_set_pending v virq line_asserted (set_active v virq false w) in
    let w := set_ctx v (remove_lr idx (vctx w v)) w in
    Some (arm64_vtimer_set_host_mask me v line_asserted w).

(** An LR of the saved context that the hardware no longer holds. *)
Definition sync_old_lr (me v : Z) (loaded : bool) (eoi_lrs : Z) (old_lrs : list Z) (w : vgic_world) (idx : Z) : vgic_world :=
  let old_lr := lr_at old_lrs idx in
  let virq := lr_vintid old_lr in
  if (lr_state old_lr =? ICH_LR_STATE_INVALID) || (0 <=? find_lr_for_virq (vctx w v) virq) || negb (vgic_irq_desc w v virq) then w
  else
    let d := irq (vgic w) v virq in
    let queued_level := level d && pending d in
    let old_pending := lr_pending old_lr in
    let eoi_reported := (idx <? 64) && negb (Z.land eoi_lrs (Z.shiftl 1 idx) =? 0) in
    let timer_irq := vgic_is_vtimer_irq virq in
    let sampled := loaded && level d && timer_irq && old_pending && negb eoi_reported in
    let asserted := sampled && cntv_line w v in
    let w :=
      if sampled then
        let w := vgic_set_pending v virq asserted w in
        if asserted then vgicv3_requeue_lr me v virq loaded w else w
      else if queued_level then w
      else vgic_set_pending v virq (negb (level d) && old_pending && negb eoi_reported) w in
    let w := set_active v virq false w in
    if timer_irq && (sampled || negb queued_level) then arm64_vtimer_set_host_mask me v asserted w else w.

(** The loop over the LRs that are in use; each turn removes one or moves on. *)
Fixpoint sync_lrs (fuel : nat) (me v : Z) (loaded : bool) (idx : Z) (w : vgic_world) : vgic_world :=
  match fuel with
  | O => w
  | S fuel =>
      let c := vctx w v in
      if idx <? used_lrs c then
        let l := lr_at (lr c) idx in
        let virq := lr_vintid l in
        let next w := sync_lrs fuel me v loaded (idx + 1) w in
        let again w := sync_lrs fuel me v loaded idx w in
        let finish w := if lr_state l =? ICH_LR_STATE_INVALID then again (set_ctx v (remove_lr idx (vctx w v)) w) else next w in
        if vgic_irq_desc w v virq then
          let d := irq (vgic w) v virq in
          let timer := loaded && level d && vgic_is_vtimer_irq virq in
          let rest w :=
            if timer && lr_pending l && negb (lr_active l) then
              let line_asserted := cntv_line w v in
              let w := set_active v virq false (vgic_set_pending v virq line_asserted w) in
              let w := arm64_vtimer_set_host_mask me v line_asserted w in
              if line_asserted then next w else again (set_ctx v (remove_lr idx (vctx w v)) w)
            else
              let w := if negb (level d) && (lr_pending l || negb (lr_active l) || negb (pending d)) then vgic_set_pending v virq false w else w in
              finish (set_active v virq (lr_active l) w) in
          if negb (level d) && lr_active l && negb (lr_pending l) then next (set_active v virq true w)
          else if timer && lr_active l then
            match vgicv3_complete_timer_lr me v virq idx w with Some w => again w | None => rest w end
          else rest w
        else finish w
      else w
  end.

Definition vgicv3_sync_vcpu (me v : Z) (is_current : bool) (w : vgic_world) : vgic_world :=
  if negb is_current && vgicv3_vcpu_is_running_remote w me v then w
  else
    let loaded := is_current || vgicv3_vcpu_is_loaded w me v in
    let old_used_lrs := used_lrs (vctx w v) in
    let old_lrs := lr (vctx w v) in
    let w := vgicv3_read_loaded_lrs me v is_current w in
    let live_hcr := ich_hcr (cpuif w me) in
    let eoi_lrs := if loaded then read_ich_eisr_el2 (cpuif w me) else 0 in
    let clear := not64 (Z.lor ICH_HCR_EOICOUNT_MASK ICH_HCR_TC) in
    let w :=
      if loaded then
        let w := vgicv3_sync_live_cpuif me v w in
        if negb (Z.land live_hcr ICH_HCR_EOICOUNT_MASK =? 0) then
          let c := (vctx w v) <| hcr := Z.land live_hcr clear |> in
          write_ich_hcr_el2 me (vgicv3_control_hcr (hcr c)) (set_ctx v c w)
        else set_ctx v ((vctx w v) <| hcr := Z.land (hcr (vctx w v)) clear |>) w
      else w in
    let w :=
      if (Z.land (vmcr (vctx w v)) ICH_VMCR_EOIM =? 0) && negb (eoi_lrs =? 0)
      then vgicv3_complete_eoi_lrs me v eoi_lrs old_lrs old_used_lrs w else w in
    let w := foldl (sync_old_lr me v loaded eoi_lrs old_lrs) w (seqZ 0 old_used_lrs) in
    let w := sync_lrs (Z.to_nat (used_lrs (vctx w v))) me v loaded 0 w in
    let timer := ARM64_GIC_PPI_VIRTUAL_TIMER in
    if loaded && vgic_irq_desc w v timer && level (irq (vgic w) v timer) && pending (irq (vgic w) v timer)
    then vgicv3_requeue_lr me v timer true w else w.

(** ** Filling the LRs (flush)

    A [for] loop that a [break] leaves, and the loop over the bits of a word, which
    takes the lowest bit first. *)
Fixpoint for_break {A} (f : Z -> A -> A * bool) (l : list Z) (a : A) : A * bool :=
  match l with
  | [] => (a, false)
  | x :: l => let '(a, stop) := f x a in if stop then (a, true) else for_break f l a
  end.

Fixpoint while_bits {A} (fuel : nat) (f : Z -> A -> A * bool) (bits : Z) (a : A) : A * bool :=
  match fuel with
  | O => (a, false)
  | S fuel =>
      if bits =? 0 then (a, false)
      else
        let bit := ffs64 bits in
        let '(a, stop) := f bit a in
        if stop then (a, true) else while_bits fuel f (Z.land bits (not32 (BIT32 bit))) a
  end.

Definition flush_irq (v : Z) (lpi : bool) (virq : Z) (w : vgic_world) : vgic_world * bool :=
  let d := irq (vgic w) v virq in
  let c := vctx w v in
  let consume w := if lpi || negb (level d) then vgic_set_pending v virq false w else w in
  if negb (pending d) then (vgic_set_pending v virq false w, false)
  else if negb (vgic_irq_deliverable w v virq) then (w, false)
  else
    let i := find_lr_for_virq c virq in
    if 0 <=? i then (consume (set_ctx v (set_lr i (make_lr virq d) c) w), false)
    else if lr_count (vgic w) <=? used_lrs c then (set_ctx v (c <| hcr := Z.lor (hcr c) ICH_HCR_UIE |>) w, true)
    else (consume (set_ctx v (append_lr (make_lr virq d) c) w), false).

Definition flush_word (v : Z) (word : Z) (w : vgic_world) : vgic_world * bool :=
  while_bits 32 (fun bit => flush_irq v false (word * 32 + bit)) (pending_bitmap (vgic w) v word) w.
Definition flush_lpi_word (v : Z) (word : Z) (w : vgic_world) : vgic_world * bool :=
  while_bits 32 (fun bit => flush_irq v true (ARM64_VGIC_LPI_BASE + word * 32 + bit)) (lpi_pending_bitmap (vgic w) v word) w.

(** A word that sets UIE ends the loop over the words.  UIE is clear before the
    first loop, so it is set exactly when a bit loop was left; before the loop over
    the LPIs it may be set, and then one word of LPIs is still looked at. *)
Definition stop_uie (v : Z) (r : vgic_world * bool) : vgic_world * bool := (r.1, negb (Z.land (hcr (vctx r.1 v)) ICH_HCR_UIE =? 0)).

Definition vgicv3_flush_vcpu (me v : Z) (is_current : bool) (w : vgic_world) : vgic_world :=
  if negb is_current && vgicv3_vcpu_is_running_remote w me v then w
  else
    let w := if is_current || vgicv3_vcpu_is_loaded w me v then vgicv3_sync_live_cpuif me v w else w in
    let w := set_ctx v ((vctx w v) <| hcr := Z.land (hcr (vctx w v)) (not64 ICH_HCR_UIE) |>) w in
    let w := (for_break (fun word w => stop_uie v (flush_word v word w)) (seqZ 0 ARM64_VGIC_WORDS) w).1 in
    let w := if its_enabled (vgic w)
             then (for_break (fun word w => stop_uie v (flush_lpi_word v word w)) (seqZ 0 ARM64_VGIC_LPI_WORDS) w).1 else w in
    vgicv3_write_loaded_lrs me v is_current w.

(** ** Injection and completion *)
Definition vgic_inject_locked (me v virq : Z) (lvl : bool) (w : vgic_world) : Z * vgic_world :=
  if vgic_irq_desc w v virq then
    let w := vgicv3_sync_vcpu me v false w in
    let w := vgic_set_pending v virq true (set_level v virq lvl w) in
    (0, if vgicv3_vcpu_is_loaded w me v then vgicv3_flush_vcpu me v false w else w)
  else (- EINVAL, w).

Definition arm64_vgicv3_inject_irq_to (me v virq : Z) (lvl : bool) (w : vgic_world) : Z * vgic_world :=
  if virq <? ARM64_VGIC_IRQ_NUM then vgic_inject_locked me v virq lvl w else (- EINVAL, w).

Definition arm64_vgicv3_inject_irq (me v virq : Z) (lvl : bool) (w : vgic_world) : Z * vgic_world :=
  if virq <? ARM64_VGIC_IRQ_NUM then vgic_inject_locked me (vgic_irq_target_vcpu v virq w) virq lvl w else (- EINVAL, w).

Definition flush_if_loaded (me v : Z) (w : vgic_world) : vgic_world :=
  if vgicv3_vcpu_is_loaded w me v then vgicv3_flush_vcpu me v false w else w.

Definition arm64_vgicv3_clear_irq (me v virq : Z) (w : vgic_world) : Z * vgic_world :=
  if vgic_irq_desc w v virq then
    let w := vgicv3_sync_vcpu me v false w in
    let i := find_lr_for_virq (vctx w v) virq in
    let w := if 0 <=? i then set_ctx v (remove_lr i (vctx w v)) w else w in
    (0, flush_if_loaded me v (set_active v virq false (vgic_set_pending v virq false w)))
  else (- EINVAL, w).

Definition arm64_vgicv3_deassert_irq (me v virq : Z) (w : vgic_world) : Z * vgic_world :=
  if vgic_irq_desc w v virq then
    let w := vgicv3_sync_vcpu me v false w in
    (0, flush_if_loaded me v (vgic_update_irq_lr v virq (vgic_set_pending v virq false w)))
  else (- EINVAL, w).

Definition arm64_vgicv3_maintenance_irq_handler (me : Z) (w : vgic_world) : vgic_world :=
  match running w me with
  | Some v => vgicv3_flush_vcpu me v true (vgicv3_sync_vcpu me v true w)
  | None => w
  end.

Definition vgicv3_deactivate_irq_locked (me v virq : Z) (w : vgic_world) : vgic_world :=
  if ARM64_VGIC_IRQ_NUM <=? virq then w
  else
    let w := vgicv3_sync_vcpu me v true w in
    if vgic_irq_desc w v virq then
      let d := irq (vgic w) v virq in
      let keep_pending := if vgic_is_vtimer_irq virq && vgicv3_vcpu_is_loaded w me v then cntv_line w v else level d && pending d in
      let i := find_lr_for_virq (vctx w v) virq in
      let w := if 0 <=? i then set_ctx v (remove_lr i (vctx w v)) w else w in
      let w := vgic_set_pending v virq keep_pending (set_active v virq false w) in
      if vgic_is_vtimer_irq virq then arm64_vtimer_set_host_mask me v keep_pending w else w
    else w.

Definition vgicv3_sync_timer_line_locked (me v : Z) (is_current line_asserted : bool) (w : vgic_world) : vgic_world :=
  let virq := ARM64_GIC_PPI_VIRTUAL_TIMER in
  if vgic_irq_desc w v virq then
    let w := vgic_set_pending v virq line_asserted (set_level v virq true w) in
    let c := vctx w v in
    let i := find_lr_for_virq c virq in
    let w :=
      if 0 <=? i then
        let lr_active := lr_active (lr_at (lr c) i) in
        if line_asserted || lr_active then set_ctx v (set_lr i (make_lr_state virq (irq (vgic w) v virq) line_asserted lr_active) c) w
        else set_ctx v (remove_lr i c) w
      else w in
    vgicv3_flush_vcpu me v is_current (arm64_vtimer_set_host_mask me v line_asserted w)
  else w.

Definition arm64_vgicv3_sync_current_timer_line (me v : Z) (lvl : bool) (w : vgic_world) : vgic_world :=
  vgicv3_sync_timer_line_locked me v true lvl (vgicv3_sync_vcpu me v true w).

Definition arm64_vgicv3_refresh_current_level_irq (me virq : Z) (w : vgic_world) : vgic_world :=
  match running w me with
  | Some v =>
      if (virq <? ARM64_VGIC_IRQ_NUM) && vgic_irq_desc w v virq && level (irq (vgic w) v virq) && pending (irq (vgic w) v virq)
      then vgicv3_flush_vcpu me v true (vgicv3_sync_vcpu me v true w) else w
  | None => w
  end.

Fixpoint complete_wfi_lrs (fuel : nat) (me v idx : Z) (w : vgic_world) : vgic_world :=
  match fuel with
  | O => w
  | S fuel =>
      let c := vctx w v in
      if idx <? used_lrs c then
        let l := lr_at (lr c) idx in
        let virq := lr_vintid l in
        let lvl := level (irq (vgic w) v virq) in
        let next := complete_wfi_lrs fuel me v (idx + 1) w in
        if vgic_irq_desc w v virq then
          if negb lvl && (lr_state l =? ICH_LR_STATE_ACTIVE) then
            let w := set_active v virq false w in
            complete_wfi_lrs fuel me v idx (set_ctx v (remove_lr idx (vctx w v)) w)
          else if lvl && vgic_is_vtimer_irq virq && lr_active l then
            match vgicv3_complete_timer_lr me v virq idx w with
            | Some w => complete_wfi_lrs fuel me v idx w
            | None => next
            end
          else next
        else next
      else w
  end.

Definition arm64_vgicv3_complete_wfi_irqs (me v : Z) (w : vgic_world) : vgic_world :=
  let w := vgicv3_sync_vcpu me v true w in
  vgicv3_flush_vcpu me v true (complete_wfi_lrs (Z.to_nat (used_lrs (vctx w v))) me v 0 w).

Definition arm64_vgicv3_load_vcpu (me v : Z) (w : vgic_world) : vgic_world :=
  let c := vctx w v in
  let w := set_cpuif me ((cpuif w me) <| icc_sre := Z.lor (sre c) ICC_SRE_SRE |>) w in
  (vgicv3_write_cpuif me c w) <| running := upd me (Some v) (running w) |>.

Definition arm64_vgicv3_save_vcpu (me v : Z) (w : vgic_world) : vgic_world :=
  let r := cpuif w me in
  let w := set_ctx v ((vctx w v) <| hcr := Z.land (ich_hcr r) (not64 (Z.lor ICH_HCR_EOICOUNT_MASK ICH_HCR_TC)) |>) w in
  let w := vgicv3_sync_live_cpuif me v w in
  let w := set_ctx v ((vctx w v) <| ap0r0 := ich_ap0r0 r |> <| ap1r0 := ich_ap1r0 r |>) w in
  let w := vgicv3_read_lrs me v w in
  (write_ich_hcr_el2 me 0 w) <| running := upd me None (running w) |>.

(** ** Queries *)
Definition lr_any_pending (c : arm64_vgicv3_vcpu_ctx) : bool :=
  existsb (fun i => lr_pending (lr_at (lr c) i)) (seqZ 0 (used_lrs c)).

(** The scan of one word: [true] and the end of the loop when an interrupt is found. *)
Definition scan_word (w : vgic_world) (v : Z) (word : Z) (found : bool) : bool * bool :=
  while_bits 32 (fun bit found =>
    let virq := word * 32 + bit in
    let d := irq (vgic w) v virq in
    let hit := pending d && vgic_irq_deliverable w v virq && (negb (level d) || (find_lr_for_virq (vctx w v) virq <? 0)) in
    (found || hit, hit)) (pending_bitmap (vgic w) v word) found.
Definition scan_lpi_word (w : vgic_world) (v : Z) (word : Z) (found : bool) : bool * bool :=
  while_bits 32 (fun bit found =>
    let virq := ARM64_VGIC_LPI_BASE + word * 32 + bit in
    let hit := pending (irq (vgic w) v virq) && vgic_irq_deliverable w v virq in
    (found || hit, hit)) (lpi_pending_bitmap (vgic w) v word) found.

Definition scan_pending (w : vgic_world) (v : Z) : bool :=
  (for_break (scan_word w v) (seqZ 0 ARM64_VGIC_WORDS) false).1 ||
  its_enabled (vgic w) && (for_break (scan_lpi_word w v) (seqZ 0 ARM64_VGIC_LPI_WORDS) false).1.

Definition arm64_vgicv3_has_pending_irq (me v : Z) (w : vgic_world) : bool * vgic_world :=
  let w := if vgicv3_vcpu_is_loaded w me v then vgicv3_sync_live_cpuif me v w else w in
  (lr_any_pending (vctx w v) || scan_pending w v, w).

Definition vgicv3_pending_lr_blocks_reschedule (w : vgic_world) (me v l : Z) : bool :=
  if lr_pending l then true
  else if lr_active l && vgicv3_vcpu_is_loaded w me v then negb (vgicv3_active_priority_empty w me)
  else false.

Definition arm64_vgicv3_pending_irq_blocks_reschedule (me v : Z) (w : vgic_world) : bool * vgic_world :=
  let w := if vgicv3_vcpu_is_loaded w me v then vgicv3_sync_live_cpuif me v w else w in
  let c := vctx w v in
  (existsb (fun i => vgicv3_pending_lr_blocks_reschedule w me v (lr_at (lr c) i)) (seqZ 0 (used_lrs c)) ||
   vgicv3_vcpu_is_loaded w me v && negb (vgicv3_active_priority_empty w me) || scan_pending w v, w).

(** ** Software generated interrupts *)
Definition ICC_SGI1R_IRM : Z := Z.shiftl 1 40.

Definition sgi1r_targets_vcpu (value source_vcpu_id target_vcpu_id : Z) : bool :=
  if negb (Z.land value ICC_SGI1R_IRM =? 0) then negb (target_vcpu_id =? source_vcpu_id)
  else
    let aff shift := Z.land (Z.shiftr value shift) 0xff in
    (aff 16 =? 0) && (aff 32 =? 0) && (aff 48 =? 0) && negb (Z.land (Z.land value 0xffff) (Z.shiftl 1 target_vcpu_id) =? 0).

(** [offline v]: the vCPU is not started; a kick has no effect on the vGIC. *)
Definition arm64_vgicv3_handle_sgi1r (offline : Z -> bool) (me v value : Z) (w : vgic_world) : vgic_world :=
  let intid := Z.land (Z.shiftr value 24) 0xf in
  foldl (fun w t => if negb (offline t) && sgi1r_targets_vcpu value v t then (arm64_vgicv3_inject_irq_to me t intid false w).2 else w)
    w (seqZ 0 (created_vcpus w)).

(** ** Initialization *)
Definition GIC_PRIORITY_DEFAULT : Z := 0x80.
Definition GIC_PRIORITY_LOWEST : Z := 0xff.
Definition VGIC_CTLR_ARE_NS : Z := Z.shiftl 1 5.
Definition ICH_VMCR_DEFAULT_MASK : Z := Z.shiftl 0xf8 24.

Definition init_irq (idx virq : Z) : arm64_vgic_irq :=
  {| pirq := 0xffff; priority := GIC_PRIORITY_DEFAULT;
     target_vcpu := if vgic_irq_is_lpi virq then idx else if virq <? ARM64_VGIC_LOCAL_IRQ_NUM then idx else 0;
     enabled := false; pending := false; active := false; level := negb (vgic_irq_is_lpi virq) && (ARM64_VGIC_SGI_NUM <=? virq); hw := false |}.

Definition ARM64_VGIC_LPI_IDBITS : Z := 14.
Definition ARM64_VGIC_ITS_DEVICE_NUM : Z := 16.
Definition ARM64_VGIC_ITS_EVENT_NUM : Z := 32.
Definition ARM64_VGIC_ITS_COLLECTION_NUM : Z := ARM64_VGIC_MAX_VCPUS.
Definition ARM64_VGIC_ITS_BASER_NUM : Z := 8.
Definition VGIC_INVALID_VCPU_ID : Z := 0xffff.
Definition GIC_PIDR2_ARCH_GICV3 : Z := Z.shiftl 3 4.
Definition GITS_CTLR_QUIESCENT : Z := Z.shiftl 1 31.

Definition vgic_its_baser_type (type entry_size : Z) : Z := Z.lor (Z.shiftl type 56) (Z.shiftl (entry_size - 1) 48).

(** A table that is not in use is all zero. *)
Definition zero_vits : arm64_vits :=
  {| gits_ctlr := 0; gits_typer := 0; cbaser := 0; cwriter := 0; creadr := 0; baser := fun _ => 0;
     collection := fun _ => {| collection_id := 0; collection_target := 0; collection_valid := false |};
     device := fun _ => {| device_id := 0; itt_addr := 0; event_count := 0; device_valid := false |};
     event := fun _ _ => {| event_device := 0; event_id := 0; event_lpi := 0; event_collection := 0; event_valid := false |} |}.

Definition arm64_vgicv3_its_init (vcpu_count : Z) : arm64_vits :=
  zero_vits <| gits_ctlr := GITS_CTLR_QUIESCENT |>
    <| gits_typer := Z.lor (Z.lor (Z.lor (Z.shiftl 1 0) (Z.shiftl (16 - 1) 4)) (Z.shiftl (ARM64_VGIC_LPI_IDBITS - 1) 8)) (Z.shiftl (15 - 1) 13) |>
    <| baser := fun i => if i =? 0 then vgic_its_baser_type 1 8 else if i =? 1 then vgic_its_baser_type 4 8 else 0 |>
    <| collection := fun i => {| collection_id := i; collection_target := i; collection_valid := i <? vcpu_count |} |>.

(** The number of LRs, from ICH_VTR_EL2, which is published once. *)
Definition arm64_vgicv3_global_init (vtr : Z) : outcome Z :=
  let vgic_lr_count := u32 (Z.land vtr 0x1f + 1) in
  let vgic_lr_count := if ARM64_VGIC_MAX_LRS <? vgic_lr_count then ARM64_VGIC_MAX_LRS else vgic_lr_count in
  if vgic_lr_count =? 0 then Panic "gicv3 virtualization has no list registers" else Ret vgic_lr_count.

(** [vgic_lr_count] is the number of LRs, and [affinity] the set of pCPUs of the VM. *)
Definition arm64_vgicv3_init_vm (vgic_lr_count : Z) (guest_its_size affinity : Z) : outcome arm64_vgicv3 :=
  n ← bitmap_weight affinity;
  let n := Z.min n ARM64_VGIC_MAX_VCPUS in
  let n := if n =? 0 then 1 else n in
  let its_enabled := negb (guest_its_size =? 0) in
  let typer := Z.lor (Z.land (ARM64_VGIC_IRQ_NUM / 32 - 1) 0x1f) (Z.shiftl (Z.land (n - 1) 7) 5) in
  Ret {| its_enabled := its_enabled; vcpu_count := n; rdist_count := n; lr_count := vgic_lr_count;
         gicd_ctlr := Z.lor VGIC_CTLR_ARE_NS VGIC_CTLR_ENABLE_G1;
         gicd_typer := if its_enabled then Z.lor (Z.lor (Z.lor typer (Z.shiftl 12 11)) (Z.shiftl 1 17)) (Z.shiftl (ARM64_VGIC_LPI_IDBITS - 1) 19) else typer;
         gicd_pidr2 := GIC_PIDR2_ARCH_GICV3; rdist_vcpu := fun _ => VGIC_INVALID_VCPU_ID; gicr_waker := fun _ => 0;
         spi_router := fun _ => 0; pending_bitmap := fun _ _ => 0; lpi_pending_bitmap := fun _ _ => 0; irq := init_irq; gicr_ctlr := fun _ => 0;
         gicr_propbaser := fun _ => 0; gicr_pendbaser := fun _ => 0; its := if its_enabled then arm64_vgicv3_its_init n else zero_vits |}.

(** The context after the reset of a vCPU. *)
Definition init_ctx : arm64_vgicv3_vcpu_ctx :=
  {| lr := replicate (Z.to_nat ARM64_VGIC_MAX_LRS) 0; ap0r0 := 0; ap1r0 := 0; vmcr := Z.lor ICH_VMCR_VENG1 ICH_VMCR_DEFAULT_MASK; hcr := ICH_HCR_EN;
     sre := ICC_SRE_SRE; pmr := GIC_PRIORITY_LOWEST; ctlr := 0; used_lrs := 0 |}.
Definition arm64_vgicv3_init_vcpu (v : Z) (w : vgic_world) : vgic_world :=
  let w := set_ctx v init_ctx w in
  let g := vgic w in
  if (v <? ARM64_VGIC_MAX_VCPUS) && (v <? vcpu_count g) then set_vgic (g <| rdist_vcpu := upd v v (rdist_vcpu g) |>) w else w.

(** [arm64_vgicv3_reset_vcpu_boot_state]. *)
Definition vgicv3_clear_vcpu_boot_irqs (v : Z) (w : vgic_world) : vgic_world :=
  let clear w virq := set_active v virq false (vgic_set_pending v virq false w) in
  let w := foldl clear w (seqZ 0 ARM64_VGIC_LOCAL_IRQ_NUM) in
  if its_enabled (vgic w) then foldl clear w (seqZ ARM64_VGIC_LPI_BASE ARM64_VGIC_LPI_NUM) else w.
Definition arm64_vgicv3_reset_vcpu_boot_state (v : Z) (w : vgic_world) : vgic_world :=
  let w := arm64_vgicv3_init_vcpu v w in
  if v <? ARM64_VGIC_MAX_VCPUS then vgicv3_clear_vcpu_boot_irqs v w else w.

(** The vGIC part of [arm64_process_vcpu_requests], before the guest is entered. *)
Definition arm64_process_vcpu_requests (me v : Z) (pending_request : bool) (w : vgic_world) : vgic_world :=
  if pending_request then vgicv3_flush_vcpu me v true (vgicv3_sync_vcpu me v true w) else w.

(** ** Trapped registers of the CPU interface *)
Definition ARM64_VGIC_SYSREG_ICC_PMR_EL1 : Z := 0.
Definition ARM64_VGIC_SYSREG_ICC_CTLR_EL1 : Z := 1.
Definition ARM64_VGIC_SYSREG_ICC_SRE_EL1 : Z := 2.
Definition ARM64_VGIC_SYSREG_ICC_IGRPEN1_EL1 : Z := 3.
Definition ARM64_VGIC_SYSREG_ICC_DIR_EL1 : Z := 4.
Definition ARM64_VGIC_SYSREG_ICC_RPR_EL1 : Z := 5.

Definition vgicv3_write_cpuif_control (me : Z) (c : arm64_vgicv3_vcpu_ctx) (w : vgic_world) : vgic_world :=
  set_cpuif me ((cpuif w me) <| icc_sre := Z.lor (sre c) ICC_SRE_SRE |> <| icc_pmr := pmr c |> <| ich_vmcr := vmcr c |>) w.

(** The result, the register after the access, and the state. *)
Definition arm64_vgicv3_handle_cpuif_sysreg (me v sysreg : Z) (read : bool) (reg : Z) (w : vgic_world) : Z * Z * vgic_world :=
  let c := vctx w v in
  let value x := (0, x, w) in
  let control c :=
    let w := set_ctx v c w in
    let w := if vgicv3_vcpu_is_loaded w me v then vgicv3_write_cpuif_control me c w else w in
    (0, reg, vgicv3_flush_vcpu me v true w) in
  if sysreg =? ARM64_VGIC_SYSREG_ICC_SRE_EL1 then
    if read then value (Z.lor (sre c) ICC_SRE_SRE) else control (c <| sre := Z.lor reg ICC_SRE_SRE |>)
  else if sysreg =? ARM64_VGIC_SYSREG_ICC_PMR_EL1 then
    if read then value (pmr c)
    else
      let p := Z.land reg 0xff in
      control (c <| pmr := p |> <| vmcr := Z.lor (Z.land (vmcr c) (not64 (Z.shiftl 0xff 24))) (Z.shiftl p 24) |>)
  else if sysreg =? ARM64_VGIC_SYSREG_ICC_CTLR_EL1 then
    if read then value (ctlr c) else control (c <| ctlr := 0 |> <| vmcr := Z.land (vmcr c) (not64 ICH_VMCR_EOIM) |>)
  else if sysreg =? ARM64_VGIC_SYSREG_ICC_IGRPEN1_EL1 then
    if read then value (if negb (Z.land (vmcr c) ICH_VMCR_VENG1 =? 0) then 1 else 0)
    else if negb (Z.land reg 1 =? 0) then control (c <| vmcr := Z.lor (vmcr c) ICH_VMCR_VENG1 |>)
    else control (c <| vmcr := Z.land (vmcr c) (not64 ICH_VMCR_VENG1) |>)
  else if sysreg =? ARM64_VGIC_SYSREG_ICC_DIR_EL1 then
    if read then value 0
    else (0, reg, vgicv3_flush_vcpu me v true (vgicv3_deactivate_irq_locked me v (Z.land reg ICH_LR_VINTID_MASK) w))
  else if sysreg =? ARM64_VGIC_SYSREG_ICC_RPR_EL1 then if read then value GIC_PRIORITY_LOWEST else (0, reg, w)
  else (- EINVAL, reg, w).

(** ** The guest's side of the hardware

    What the virtual CPU interface does to an LR: the guest acknowledges a pending
    interrupt, or ends and deactivates an active one. *)
Definition with_state (l state : Z) : Z := Z.lor (Z.land l (Z.ones 62)) (Z.shiftl state 62).
Definition lr_ack (l : Z) : Z := if lr_state l =? ICH_LR_STATE_PENDING then with_state l ICH_LR_STATE_ACTIVE else l.
Definition lr_end (l : Z) : Z :=
  if lr_state l =? ICH_LR_STATE_ACTIVE then with_state l ICH_LR_STATE_INVALID
  else if lr_state l =? ICH_LR_STATE_ACTIVE_PENDING then with_state l ICH_LR_STATE_PENDING else l.

Definition guest_lr (me i : Z) (f : Z -> Z) (w : vgic_world) : vgic_world :=
  let r := cpuif w me in
  if (0 <=? i) && (i <? lr_slots w) then set_cpuif me (r <| ich_lr := <[Z.to_nat i := f (lr_at (ich_lr r) i)]> (ich_lr r) |>) w else w.
