(* ===== verification/VgicInv.v ===== *)
(** * The invariant of the virtual interrupt controller

    The pending bitmaps index exactly the pending descriptors; the LRs of every
    vCPU context and of every pCPU hold each interrupt at most once, in the slots
    in use.  Every operation of [Vgic] and every step of the guest keeps it. *)
From S2P Require Import Prelude Bits Vgic.

(** ** Fields of an LR *)
Lemma land_shift_low x n m : 0 <= n <= m -> Z.land (Z.shiftl x m) (Z.ones n) = 0.
Proof.
  intros H. apply Z.bits_inj'. intros j Hj. rewrite Z.land_spec, Z.bits_0, Z.shiftl_spec by lia.
  destruct (Z.ltb_spec j n); [|rewrite Z.ones_spec_high, andb_false_r by lia; done].
  by rewrite (Z.testbit_neg_r x) by lia.
Qed.

Lemma vintid_lor a b : lr_vintid (Z.lor a b) = Z.lor (lr_vintid a) (lr_vintid b).
Proof. unfold lr_vintid. apply Z.land_lor_distr_l. Qed.
Lemma vintid_shift x m : 32 <= m -> lr_vintid (Z.shiftl x m) = 0.
Proof. intros. unfold lr_vintid. change ICH_LR_VINTID_MASK with (Z.ones 32). apply land_shift_low. lia. Qed.
Lemma vintid_small x : 0 <= x < 2 ^ 32 -> lr_vintid x = x.
Proof. intros. unfold lr_vintid. change ICH_LR_VINTID_MASK with (Z.ones 32). rewrite Z.land_ones by lia. apply Z.mod_small. lia. Qed.

Lemma state_lor a b : lr_state (Z.lor a b) = Z.lor (lr_state a) (lr_state b).
Proof. unfold lr_state. by rewrite Z.shiftr_lor, Z.land_lor_distr_l. Qed.
Lemma state_small x : 0 <= x < 2 ^ 62 -> lr_state x = 0.
Proof. intros. unfold lr_state. by rewrite Z.shiftr_div_pow2, Z.div_small by lia. Qed.
Lemma state_shift s : 0 <= s < 4 -> lr_state (Z.shiftl s 62) = s.
Proof.
  intros. unfold lr_state. rewrite Z.shiftr_shiftl_l by lia. change (62 - 62) with 0. rewrite Z.shiftl_0_r.
  change 3 with (Z.ones 2). rewrite Z.land_ones by lia. apply Z.mod_small. lia.
Qed.

Definition irq_fields_ok (d : arm64_vgic_irq) : Prop := 0 <= priority d < 256 /\ 0 <= pirq d < 65536.

Lemma shiftl_small x n m : 0 <= x < 2 ^ n -> 0 <= n -> 0 <= m -> 0 <= Z.shiftl x m < 2 ^ (n + m).
Proof. intros. rewrite Z.shiftl_mul_pow2, Z.pow_add_r by lia. nia. Qed.

Lemma make_lr_state_state virq d p a : irq_fields_ok d -> 0 <= virq ->
  lr_state (make_lr_state virq d p a) = if a then if p then 3 else 2 else if p then 1 else 0.
Proof.
  intros [Hp Hq] Hv. set (s := if a then if p then 3 else 2 else if p then 1 else 0).
  assert (0 <= Z.land virq ICH_LR_VINTID_MASK < 2 ^ 62) as H1.
  { change ICH_LR_VINTID_MASK with (Z.ones 32). rewrite Z.land_ones by lia. pose proof (Z.mod_pos_bound virq (2 ^ 32)). lia. }
  assert (0 <= Z.shiftl (priority d) 48 < 2 ^ 62) as H2 by (pose proof (shiftl_small (priority d) 8 48); cbn in *; lia).
  assert (0 <= Z.shiftl (pirq d) 32 < 2 ^ 62) as H3 by (pose proof (shiftl_small (pirq d) 16 32); cbn in *; lia).
  unfold make_lr_state.
  replace (if a then if p then ICH_LR_STATE_ACTIVE_PENDING else ICH_LR_STATE_ACTIVE else if p then ICH_LR_STATE_PENDING else ICH_LR_STATE_INVALID)
    with s by (by destruct a, p).
  assert (0 <= s < 4) as Hs by (by destruct a, p).
  destruct (hw d); [|case_match]; rewrite !state_lor, ?(state_small _ H1), ?(state_small _ H2), ?(state_small _ H3), (state_shift s Hs); cbn; by rewrite ?Z.lor_0_r.
Qed.

Lemma make_lr_state_vintid virq d p a : 0 <= virq < 2 ^ 32 -> lr_vintid (make_lr_state virq d p a) = virq.
Proof.
  intros H. unfold make_lr_state.
  assert (lr_vintid (Z.land virq ICH_LR_VINTID_MASK) = virq) as E.
  { fold (lr_vintid virq). by rewrite (vintid_small virq H), (vintid_small virq H). }
  destruct (hw d); [|case_match]; rewrite !vintid_lor, E, !vintid_shift by lia; cbn; by rewrite ?Z.lor_0_r.
Qed.

Definition lr_valid (l : Z) : Prop := lr_state l <> 0.

Lemma lr_state_range l : 0 <= lr_state l < 4.
Proof. unfold lr_state. change 3 with (Z.ones 2). rewrite Z.land_ones by lia. apply Z.mod_pos_bound. lia. Qed.

Lemma lr_state_cases l : lr_state l = (if lr_active l then if lr_pending l then 3 else 2 else if lr_pending l then 1 else 0).
Proof.
  unfold lr_active, lr_pending. pose proof (lr_state_range l).
  assert (lr_state l = 0 \/ lr_state l = 1 \/ lr_state l = 2 \/ lr_state l = 3) as [->|[->|[->| ->]]] by lia; done.
Qed.

Lemma lr_valid_flags l : lr_valid l <-> lr_pending l = true \/ lr_active l = true.
Proof. unfold lr_valid. rewrite lr_state_cases. destruct (lr_active l), (lr_pending l); intuition (try lia; discriminate). Qed.

Lemma make_lr_state_flags virq d p a : irq_fields_ok d -> 0 <= virq ->
  lr_pending (make_lr_state virq d p a) = p /\ lr_active (make_lr_state virq d p a) = a.
Proof. intros H Hv. unfold lr_pending, lr_active. rewrite make_lr_state_state by done. by destruct a, p. Qed.

Lemma with_state_state l s : 0 <= s < 4 -> lr_state (with_state l s) = s.
Proof.
  intros Hs. unfold with_state. rewrite state_lor, state_shift, state_small by (rewrite ?Z.land_ones by lia; try apply Z.mod_pos_bound; lia). done.
Qed.
Lemma with_state_vintid l s : lr_vintid (with_state l s) = lr_vintid l.
Proof.
  unfold with_state. rewrite vintid_lor, vintid_shift, Z.lor_0_r by lia. unfold lr_vintid. rewrite <- Z.land_assoc. reflexivity.
Qed.

Lemma lr_ack_vintid l : lr_vintid (lr_ack l) = lr_vintid l.
Proof. unfold lr_ack. case_match; [apply with_state_vintid|done]. Qed.
Lemma lr_end_vintid l : lr_vintid (lr_end l) = lr_vintid l.
Proof. unfold lr_end. repeat case_match; try apply with_state_vintid; done. Qed.
Lemma lr_ack_valid l : lr_valid (lr_ack l) <-> lr_valid l.
Proof.
  unfold lr_valid, lr_ack. destruct (Z.eqb_spec (lr_state l) ICH_LR_STATE_PENDING) as [E|]; [|done].
  rewrite with_state_state, E by done. done.
Qed.
Lemma lr_end_valid l : lr_valid (lr_end l) -> lr_valid l.
Proof.
  unfold lr_valid, lr_end. destruct (Z.eqb_spec (lr_state l) ICH_LR_STATE_ACTIVE) as [->|]; [done|].
  destruct (Z.eqb_spec (lr_state l) ICH_LR_STATE_ACTIVE_PENDING) as [->|]; done.
Qed.

(** ** Slots *)
#[global] Arguments lr_at : simpl never.
Lemma lr_at_set l i j x : 0 <= i < Z.of_nat (length l) -> 0 <= j -> lr_at (<[Z.to_nat i := x]> l) j = if j =? i then x else lr_at l j.
Proof.
  intros Hi Hj. unfold lr_at. destruct (Z.eqb_spec j i) as [->|Hne].
  - rewrite (nth_lookup _ _ 0), list_lookup_insert_eq by lia. done.
  - rewrite !(nth_lookup _ _ 0), list_lookup_insert_ne by lia. done.
Qed.

(** [n] slots of [l] are in use: the valid entries are among them, no interrupt has
    two, and every one is of an interrupt of the VM. *)
Definition has_irq (its : bool) (k : Z) : Prop := 0 <= k < ARM64_VGIC_IRQ_NUM \/ its = true /\ vgic_irq_is_lpi k = true.

Record lrs_ok (its : bool) (n : Z) (l : list Z) : Prop := {
  lo_length : length l = Z.to_nat ARM64_VGIC_MAX_LRS;
  lo_used i : 0 <= i -> lr_valid (lr_at l i) -> i < n;
  lo_unique i j : 0 <= i -> 0 <= j -> lr_valid (lr_at l i) -> lr_valid (lr_at l j) -> lr_vintid (lr_at l i) = lr_vintid (lr_at l j) -> i = j;
  lo_irq i : 0 <= i -> lr_valid (lr_at l i) -> has_irq its (lr_vintid (lr_at l i));
}.

Definition lr_room (l : list Z) : Z := Z.of_nat (length l).

Lemma lr_at_0 : ~ lr_valid 0.
Proof. intros H. by apply H. Qed.

Lemma lr_at_beyond l i : lr_room l <= i -> lr_at l i = 0.
Proof. intros. unfold lr_at. apply nth_overflow. unfold lr_room in *. lia. Qed.

(** Changing a slot to an entry that is invalid, or of the same interrupt, or of an
    interrupt that no other slot holds. *)
Lemma lrs_ok_set its n l i x : lrs_ok its n l -> 0 <= i < n -> n <= ARM64_VGIC_MAX_LRS ->
  (lr_valid x -> has_irq its (lr_vintid x) /\ forall j, 0 <= j -> j <> i -> lr_valid (lr_at l j) -> lr_vintid (lr_at l j) <> lr_vintid x) ->
  lrs_ok its n (<[Z.to_nat i := x]> l).
Proof.
  intros [H1 H2 H3 H4] Hi Hn Hx. assert (0 <= i < Z.of_nat (length l)) as Hl by (rewrite H1; unfold ARM64_VGIC_MAX_LRS in *; lia).
  split; [by rewrite length_insert|..].
  - intros j Hj. rewrite lr_at_set by lia. destruct (Z.eqb_spec j i); [lia|by apply H2].
  - intros j k Hj Hk. rewrite !lr_at_set by lia. destruct (Z.eqb_spec j i) as [->|], (Z.eqb_spec k i) as [->|]; try done; [..|by apply H3].
    + intros Vx Vk E. destruct (Hx Vx) as [_ Hu]. by destruct (Hu k Hk).
    + intros Vj Vx E. destruct (Hx Vx) as [_ Hu]. by destruct (Hu j Hj).
  - intros j Hj. rewrite lr_at_set by lia. destruct (Z.eqb_spec j i); [|by apply H4]. intros Vx. by apply Hx.
Qed.

Lemma lrs_ok_weaken its n m l : lrs_ok its n l -> n <= m -> lrs_ok its m l.
Proof. intros [H1 H2 H3 H4] Hm. split; auto. intros i Hi Hv. specialize (H2 i Hi Hv). lia. Qed.
Lemma lrs_ok_shrink its n l : lrs_ok its n l -> ~ lr_valid (lr_at l (n - 1)) -> lrs_ok its (n - 1) l.
Proof.
  intros [H1 H2 H3 H4] Hx. split; auto. intros i Hi Hv. specialize (H2 i Hi Hv). destruct (decide (i = n - 1)) as [->|]; [done|lia].
Qed.

(** ** The LR of an interrupt

    Seen from outside, the slots are a map from interrupts to LRs. *)
Definition lr_of (l : list Z) (n k : Z) : option Z :=
  let i := find_lr_from l k 0 (Z.to_nat n) in if 0 <=? i then Some (lr_at l i) else None.

Definition at_slot (l : list Z) (i k x : Z) : Prop := 0 <= i /\ lr_at l i = x /\ lr_valid x /\ lr_vintid x = k.

Lemma find_lr_from_spec l k i n : 0 <= i ->
  (exists x, at_slot l (find_lr_from l k i n) k x /\ i <= find_lr_from l k i n < i + Z.of_nat n) \/
  find_lr_from l k i n = - 1 /\ forall j x, i <= j < i + Z.of_nat n -> ~ at_slot l j k x.
Proof.
  revert i. induction n as [|n IH]; intros i Hi; cbn [find_lr_from].
  - right. split; [done|]. intros. lia.
  - destruct (Z.eqb_spec (lr_state (lr_at l i)) ICH_LR_STATE_INVALID) as [E|E]; cbn [negb andb];
      [|destruct (Z.eqb_spec (lr_vintid (lr_at l i)) k) as [Ek|Ek]; [left; exists (lr_at l i); unfold at_slot; split_and!; done || lia|]].
    all: destruct (IH (i + 1) ltac:(lia)) as [(x & Hx & Hr)|[-> Hn]]; [left; exists x; split; [done|lia]|right; split; [done|]];
      intros j x Hj Hs; destruct (decide (j = i)) as [->|]; [|apply (Hn j x); [lia|done]]; destruct Hs as (_ & <- & Hv & Hk); done.
Qed.

Section Slots.
  Context (its : bool) (n : Z) (l : list Z) (Hok : lrs_ok its n l).

Lemma find_at_slot i k x : at_slot l i k x -> find_lr_from l k 0 (Z.to_nat n) = i.
Proof.
  intros (Hi & Hx & Hv & Hk). pose proof (lo_used _ _ _ Hok i Hi ltac:(by rewrite Hx)).
  destruct (find_lr_from_spec l k 0 (Z.to_nat n) ltac:(lia)) as [(y & (Hj & Hy & Hvy & Hky) & _)|[_ Hno]].
  - apply (lo_unique _ _ _ Hok); rewrite ?Hy, ?Hx; try done. by rewrite Hky.
  - destruct (Hno i x); [lia|done].
Qed.

Lemma lr_of_some k x : lr_of l n k = Some x <-> exists i, at_slot l i k x.
Proof.
  unfold lr_of. split.
  - destruct (find_lr_from_spec l k 0 (Z.to_nat n) ltac:(lia)) as [(y & Hy & _)|[-> _]]; [|done].
    destruct (Z.leb_spec 0 (find_lr_from l k 0 (Z.to_nat n))); [|done]. intros [= <-]. exists (find_lr_from l k 0 (Z.to_nat n)).
    destruct Hy as (Hi & <- & Hv & Hk). done.
  - intros (i & Hs). rewrite (find_at_slot i k x Hs). destruct Hs as (Hi & -> & _). by rewrite (proj2 (Z.leb_le 0 i) Hi).
Qed.

Lemma lr_of_none k : lr_of l n k = None <-> forall i x, ~ at_slot l i k x.
Proof.
  split.
  - intros E i x Hs. assert (lr_of l n k = Some x) by (apply lr_of_some; eauto). congruence.
  - intros Hn. destruct (lr_of l n k) as [x|] eqn:E; [|done]. apply lr_of_some in E as (i & Hs). by destruct (Hn i x).
Qed.

Lemma lr_of_find k : lr_of l n k = None <-> find_lr_from l k 0 (Z.to_nat n) < 0.
Proof. unfold lr_of. destruct (Z.leb_spec 0 (find_lr_from l k 0 (Z.to_nat n))); split; intros; try done; lia. Qed.

Lemma lr_of_valid k x : lr_of l n k = Some x -> lr_valid x /\ lr_vintid x = k /\ has_irq its k.
Proof. intros E. apply lr_of_some in E as (i & Hi & <- & Hv & <-). pose proof (lo_irq _ _ _ Hok i Hi Hv). done. Qed.
End Slots.

(** Two lists whose slots hold the same, in whatever order, are the same map. *)
Lemma lr_of_ext its n l its' n' l' k : lrs_ok its n l -> lrs_ok its' n' l' ->
  (forall x, (exists i, at_slot l i k x) <-> (exists i, at_slot l' i k x)) -> lr_of l n k = lr_of l' n' k.
Proof.
  intros H H' He. apply option_eq. intros x. by rewrite (lr_of_some its n l H), (lr_of_some its' n' l' H').
Qed.

Lemma lr_of_set its n l i x k : lrs_ok its n l -> lrs_ok its n (<[Z.to_nat i := x]> l) -> 0 <= i < lr_room l ->
  lr_of (<[Z.to_nat i := x]> l) n k =
  if bool_decide (lr_valid x /\ lr_vintid x = k) then Some x
  else if bool_decide (lr_valid (lr_at l i) /\ lr_vintid (lr_at l i) = k) then None else lr_of l n k.
Proof.
  intros H H' Hi. unfold lr_room in Hi. case_bool_decide as Hx; [|case_bool_decide as Hy].
  - apply (lr_of_some its n _ H'). exists i. unfold at_slot. rewrite lr_at_set, Z.eqb_refl by lia. split_and!; lia || apply Hx || done.
  - apply (lr_of_none its n _ H'). intros j y (Hj & Hyj & Hv & Hk). rewrite lr_at_set in Hyj by lia.
    destruct (Z.eqb_spec j i) as [->|Hne]; [subst y; by destruct Hx|]. destruct Hne. subst y.
    apply (lo_unique _ _ _ H); [lia|lia|done|apply Hy|]. rewrite Hk. symmetry. apply Hy.
  - apply (lr_of_ext its n _ its n _ k H' H). intros y. split; intros (j & Hj & Hyj & Hv & Hk); exists j.
    + rewrite lr_at_set in Hyj by lia. destruct (Z.eqb_spec j i) as [->|Hne]; [subst y; by destruct Hx|]. done.
    + unfold at_slot. rewrite lr_at_set by lia. destruct (Z.eqb_spec j i) as [->|Hne]; [|done]. subst y. by destruct Hy.
Qed.

(** ** The LRs of a vCPU context *)
Definition ctx_ok (its : bool) (count : Z) (c : arm64_vgicv3_vcpu_ctx) : Prop :=
  lrs_ok its (used_lrs c) (lr c) /\ 0 <= used_lrs c <= count.
Definition ctx_lr (c : arm64_vgicv3_vcpu_ctx) (k : Z) : option Z := lr_of (lr c) (used_lrs c) k.

Section Context_lrs.
  Context (its : bool) (count : Z) (Hcount : count <= ARM64_VGIC_MAX_LRS) (c : arm64_vgicv3_vcpu_ctx) (Hok : ctx_ok its count c).

Lemma ctx_room : lr_room (lr c) = ARM64_VGIC_MAX_LRS.
Proof. unfold lr_room. by rewrite (lo_length _ _ _ (proj1 Hok)). Qed.

Lemma ctx_find k : 0 <= find_lr_for_virq c k ->
  find_lr_for_virq c k < used_lrs c /\ ctx_lr c k = Some (lr_at (lr c) (find_lr_for_virq c k)).
Proof.
  intros H. unfold ctx_lr, lr_of. fold (find_lr_for_virq c k). rewrite (proj2 (Z.leb_le 0 _) H). split; [|done].
  destruct (find_lr_from_spec (lr c) k 0 (Z.to_nat (used_lrs c)) ltac:(lia)) as [(_ & _ & Hr)|[E _]]; unfold find_lr_for_virq in *; destruct Hok; lia.
Qed.
Lemma ctx_no_find k : find_lr_for_virq c k < 0 -> ctx_lr c k = None.
Proof. intros H. by apply lr_of_find. Qed.

(** Overwriting the LR of [k]. *)
Lemma set_lr_ok k x : 0 <= find_lr_for_virq c k -> lr_valid x -> lr_vintid x = k ->
  ctx_ok its count (set_lr (find_lr_for_virq c k) x c) /\
  forall j, ctx_lr (set_lr (find_lr_for_virq c k) x c) j = if j =? k then Some x else ctx_lr c j.
Proof.
  intros Hi Hv Hk. destruct (ctx_find k Hi) as [Hlt Hs]. pose proof (lr_of_valid its _ _ (proj1 Hok) k _ Hs) as (Hva & Hka & Hh).
  pose proof ctx_room as Hroom. unfold lr_room in Hroom. destruct Hok as [Hl Hu].
  assert (lrs_ok its (used_lrs c) (<[Z.to_nat (find_lr_for_virq c k) := x]> (lr c))) as Hn.
  { apply lrs_ok_set; [done|lia|lia|]. intros _. rewrite Hk. split; [done|]. intros j Hj Hne Hvj E. apply Hne.
    apply (lo_unique _ _ _ Hl); try done. congruence. }
  split; [split; done|]. intros j. unfold ctx_lr. cbn. rewrite (lr_of_set its) by (try done; unfold lr_room; lia).
  rewrite Hka, Hk. destruct (Z.eqb_spec j k) as [->|Hne]; [by rewrite bool_decide_true|]. rewrite !bool_decide_false by (intros [_ ?]; congruence). done.
Qed.

(** Appending an LR for an interrupt that has none. *)
Lemma append_lr_ok x : used_lrs c < count -> lr_valid x -> has_irq its (lr_vintid x) -> ctx_lr c (lr_vintid x) = None ->
  ctx_ok its count (append_lr x c) /\ used_lrs (append_lr x c) = used_lrs c + 1 /\
  forall j, ctx_lr (append_lr x c) j = if j =? lr_vintid x then Some x else ctx_lr c j.
Proof.
  intros Hlt Hv Hh Hno. pose proof ctx_room as Hroom. unfold lr_room in Hroom. destruct Hok as [Hl Hu].
  assert (u8 (used_lrs c + 1) = used_lrs c + 1) as Eu by (apply Z.mod_small; unfold ARM64_VGIC_MAX_LRS in *; lia).
  assert (~ lr_valid (lr_at (lr c) (used_lrs c))) as Hfree by (intros Hx; apply (lo_used _ _ _ Hl) in Hx; lia).
  assert (lrs_ok its (used_lrs c + 1) (<[Z.to_nat (used_lrs c) := x]> (lr c))) as Hn.
  { apply lrs_ok_set; [apply (lrs_ok_weaken _ (used_lrs c)); [done|lia]|lia|lia|]. intros _. split; [done|]. intros j Hj Hne Hvj E.
    unfold ctx_lr in Hno. rewrite (lr_of_none its) in Hno by done. apply (Hno j (lr_at (lr c) j)). done. }
  assert (lrs_ok its (used_lrs c + 1) (lr c)) as Hw by (apply (lrs_ok_weaken _ (used_lrs c)); [done|lia]).
  unfold append_lr, ctx_ok, ctx_lr. cbn. rewrite Eu. split_and!; try done; try lia. intros j.
  rewrite (lr_of_set its) by (try done; unfold lr_room; lia).
  rewrite (bool_decide_false (lr_valid (lr_at _ _) /\ _)) by tauto.
  destruct (Z.eqb_spec j (lr_vintid x)) as [->|Hne]; [by rewrite bool_decide_true|]. rewrite bool_decide_false by (intros [_ ?]; congruence).
  by apply (lr_of_ext its _ _ its).
Qed.

(** Removing a slot moves the last one into its place. *)
Lemma remove_lr_ok idx : 0 <= idx < used_lrs c ->
  ctx_ok its count (remove_lr idx c) /\ used_lrs (remove_lr idx c) = used_lrs c - 1 /\
  forall j, ctx_lr (remove_lr idx c) j =
    if bool_decide (lr_valid (lr_at (lr c) idx) /\ lr_vintid (lr_at (lr c) idx) = j) then None else ctx_lr c j.
Proof.
  intros Hidx. pose proof ctx_room as Hroom. unfold lr_room in Hroom. destruct Hok as [Hl Hu].
  set (last := used_lrs c - 1). set (x := lr_at (lr c) last).
  assert (0 <= last < lr_room (lr c) /\ 0 <= idx < lr_room (lr c)) as [Hla Hia] by (unfold lr_room, last; lia).
  assert (lrs_ok its (used_lrs c) (<[Z.to_nat last := 0]> (lr c))) as H0.
  { apply lrs_ok_set; [done|unfold last; lia|lia|]. intros Hv. by destruct lr_at_0. }
  assert (remove_lr idx c = c <| lr := (if idx =? last then id else insert (Z.to_nat idx) x) (<[Z.to_nat last := 0]> (lr c)) |> <| used_lrs := last |>) as ->.
  { unfold remove_lr. rewrite (proj2 (Z.ltb_lt idx (used_lrs c))) by lia. cbv zeta. fold last x.
    destruct (Z.eqb_spec idx last); cbn; [done|]. unfold set_lr. cbn. by rewrite list_insert_insert_ne by lia. }
  assert (lrs_ok its last (<[Z.to_nat last := 0]> (lr c))) as H1.
  { apply lrs_ok_shrink; [done|]. fold last. rewrite lr_at_set, Z.eqb_refl by (unfold lr_room in *; lia). apply lr_at_0. }
  assert (forall j, lr_of (<[Z.to_nat last := 0]> (lr c)) last j =
            if bool_decide (lr_valid x /\ lr_vintid x = j) then None else lr_of (lr c) (used_lrs c) j) as E0.
  { intros j. rewrite (lr_of_ext its last _ its (used_lrs c) (<[Z.to_nat last := 0]> (lr c)) j) by done.
    rewrite (lr_of_set its) by done. rewrite bool_decide_false by (intros [? _]; by destruct lr_at_0). done. }
  unfold ctx_ok, ctx_lr. cbn -[last]. destruct (Z.eqb_spec idx last) as [->|Hne]; cbn [id].
  - split_and!; try done; try (unfold last; lia).
  - assert (lrs_ok its last (<[Z.to_nat idx := x]> (<[Z.to_nat last := 0]> (lr c)))) as H2.
    { apply lrs_ok_set; [done|unfold last in *; lia|unfold last; lia|]. intros Hv. split; [apply (lo_irq _ _ _ Hl last); [lia|done]|].
      intros j Hj Hji Hvj E. rewrite lr_at_set in Hvj, E by (unfold lr_room in *; lia). destruct (Z.eqb_spec j last); [by destruct lr_at_0|].
      assert (j = last); [|done]. apply (lo_unique _ _ _ Hl); try done. lia. }
    split_and!; try done; try (unfold last; lia). intros j. rewrite (lr_of_set its) by (try done; unfold lr_room in *; rewrite length_insert; lia).
    rewrite lr_at_set, E0 by (unfold lr_room in *; lia). destruct (Z.eqb_spec idx last) as [|_]; [done|].
    destruct (decide (lr_valid x /\ lr_vintid x = j)) as [[Hv <-]|Hx].
    + rewrite (bool_decide_true (lr_valid x /\ _)), bool_decide_false by (try done; intros [Hvi E]; apply Hne, (lo_unique _ _ _ Hl); done || lia).
      symmetry. apply (lr_of_some its); [done|]. exists last. split_and!; [lia|done..].
    + by rewrite (bool_decide_false _ Hx).
Qed.
End Context_lrs.

(** ** The LRs of the hardware *)
Lemma seqZ_snoc n : 0 <= n -> seqZ 0 (n + 1) = seqZ 0 n ++ [n].
Proof. intros. rewrite seqZ_app by lia. f_equal. Qed.

Lemma foldl_insert_lr (f : Z -> Z) l n : 0 <= n <= lr_room l ->
  length (foldl (fun l i => <[Z.to_nat i := f i]> l) l (seqZ 0 n)) = length l /\
  forall i, 0 <= i -> lr_at (foldl (fun l i => <[Z.to_nat i := f i]> l) l (seqZ 0 n)) i = if i <? n then f i else lr_at l i.
Proof.
  intros [H0 Hn]. revert Hn. pattern n. apply natlike_ind; [..|done].
  - intros _. split; [done|]. intros i Hi. by rewrite (proj2 (Z.ltb_ge i 0)).
  - intros m Hm IH Hle. rewrite <- Z.add_1_r, seqZ_snoc, foldl_app by done. cbn [foldl].
    destruct IH as [IHl IHa]; [lia|]. split; [by rewrite length_insert|]. intros i Hi. rewrite lr_at_set by (unfold lr_room in *; lia).
    destruct (Z.eqb_spec i m) as [->|]; [by rewrite (proj2 (Z.ltb_lt m (m + 1))) by lia|].
    rewrite IHa by done. destruct (Z.ltb_spec i m), (Z.ltb_spec i (m + 1)); done || lia.
Qed.

Lemma foldl_ctx_lr (hw : list Z) c n : 0 <= n <= ARM64_VGIC_MAX_LRS -> lr_room (lr c) = ARM64_VGIC_MAX_LRS ->
  let c' := foldl (fun c i => let c := set_lr i (lr_at hw i) c in
                              if negb (lr_state (lr_at hw i) =? ICH_LR_STATE_INVALID) then c <| used_lrs := u8 (i + 1) |> else c)
              (c <| used_lrs := 0 |>) (seqZ 0 n) in
  c' = c <| lr := foldl (fun l i => <[Z.to_nat i := lr_at hw i]> l) (lr c) (seqZ 0 n) |> <| used_lrs := used_lrs c' |> /\
  0 <= used_lrs c' <= n /\ (forall i, 0 <= i < n -> lr_valid (lr_at hw i) -> i < used_lrs c') /\
  (0 < used_lrs c' -> lr_valid (lr_at hw (used_lrs c' - 1))).
Proof.
  intros [H0 Hn] Hl. revert Hn. pattern n. apply natlike_ind; [..|done].
  - intros _. change (seqZ 0 0) with (@nil Z). cbn. split_and!; try (intros; lia). by destruct c.
  - intros m Hm IH Hle. cbv zeta in *. rewrite <- Z.add_1_r, seqZ_snoc, !foldl_app by done. cbn [foldl].
    destruct IH as (IHc & IHu & IHa & IHt); [lia|]. set (d := foldl _ (c <| used_lrs := 0 |>) _) in *.
    unfold lr_valid in *. assert (u8 (m + 1) = m + 1) as E by (apply Z.mod_small; unfold ARM64_VGIC_MAX_LRS in *; lia).
    destruct (Z.eqb_spec (lr_state (lr_at hw m)) ICH_LR_STATE_INVALID) as [Ei|Ei]; cbn [negb].
    + split_and!; try (cbn; lia). { rewrite IHc. unfold set_lr. done. }
      { intros i Hi Hv. cbn. destruct (decide (i = m)) as [->|]; [done|]. apply IHa; [lia|done]. }
    + split_and!; try (cbn; rewrite E; lia). { rewrite IHc. unfold set_lr. done. }
      cbn. rewrite E. intros _. replace (m + 1 - 1) with m by lia. done.
Qed.

(** ** What the operations on descriptors leave alone *)
Definition pend_bit (g : arm64_vgicv3) (v k : Z) : bool :=
  if vgic_irq_is_lpi k then Z.testbit (lpi_pending_bitmap g v ((k - ARM64_VGIC_LPI_BASE) / 32)) ((k - ARM64_VGIC_LPI_BASE) mod 32)
  else Z.testbit (pending_bitmap g v (k / 32)) (k mod 32).

Lemma upd2_apply {A} p k (x : A) f q j : upd2 p k x f q j = if (q =? p) && (j =? k) then x else f q j.
Proof. done. Qed.
Lemma upd_eq {A} p (x : A) f : upd p x f p = x.
Proof. unfold upd. by rewrite Z.eqb_refl. Qed.
Lemma upd_ne {A} p (x : A) f q : q <> p -> upd p x f q = f q.
Proof. intros. unfold upd. by rewrite (proj2 (Z.eqb_neq q p)). Qed.

(** What work for vCPU [v] on pCPU [me] leaves alone: the configuration, the other
    vCPUs and the CPU interfaces of the other pCPUs. *)
Record frame (me v : Z) (w w' : vgic_world) : Prop := {
  fr_its : its_enabled (vgic w') = its_enabled (vgic w);
  fr_count : lr_count (vgic w') = lr_count (vgic w);
  fr_vcpus : vcpu_count (vgic w') = vcpu_count (vgic w);
  fr_tables : its (vgic w') = its (vgic w);
  fr_gicd : gicd_ctlr (vgic w') = gicd_ctlr (vgic w);
  fr_gicr : gicr_ctlr (vgic w') = gicr_ctlr (vgic w);
  fr_router : spi_router (vgic w') = spi_router (vgic w);
  fr_running : running w' = running w;
  fr_pcpu : pcpu_of w' = pcpu_of w;
  fr_created : created_vcpus w' = created_vcpus w;
  fr_line : cntv_line w' = cntv_line w;
  fr_fixed u k : let d := irq (vgic w) u k in let d' := irq (vgic w') u k in
    enabled d' = enabled d /\ priority d' = priority d /\ pirq d' = pirq d /\ hw d' = hw d /\ target_vcpu d' = target_vcpu d;
  fr_vcpu u : u <> v -> vctx w' u = vctx w u;
  fr_irq u k : u <> v -> irq (vgic w') u k = irq (vgic w) u k;
  fr_cpuif p : p <> me -> cpuif w' p = cpuif w p;
}.

Section Frame.
  Context (me v : Z).
#[export] Instance frame_preorder : PreOrder (frame me v).
Proof.
  split; [intros w; split; try done; cbn; intros; by split_and!|]. intros w1 w2 w3 [] []. split; try congruence.
  - intros u k. specialize (fr_fixed0 u k). specialize (fr_fixed1 u k). cbn in *. intuition congruence.
  - intros u Hu. rewrite fr_vcpu1 by done. auto.
  - intros u k Hu. rewrite fr_irq1 by done. auto.
  - intros p Hp. rewrite fr_cpuif1 by done. auto.
Qed.

Lemma frame_set_ctx c w : frame me v w (set_ctx v c w).
Proof. split; try done. intros u Hu. cbn. by rewrite upd_ne. Qed.
Lemma frame_set_cpuif r w : frame me v w (set_cpuif me r w).
Proof. split; try done. intros u Hu. cbn. by rewrite upd_ne. Qed.
Lemma frame_mask p b w : frame me v w (arm64_vtimer_set_host_mask p v b w).
Proof. unfold arm64_vtimer_set_host_mask. case_match; [|done]. by split. Qed.

Lemma frame_set_irq k d w : (enabled d = enabled (irq (vgic w) v k) /\ priority d = priority (irq (vgic w) v k) /\ pirq d = pirq (irq (vgic w) v k) /\
    hw d = hw (irq (vgic w) v k) /\ target_vcpu d = target_vcpu (irq (vgic w) v k)) -> frame me v w (set_irq v k d w).
Proof.
  intros Hd. split; try done; intros u j; cbn; rewrite upd2_apply; destruct (Z.eqb_spec u v) as [->|], (Z.eqb_spec j k) as [->|]; cbn; done.
Qed.
Lemma frame_set_active k b w : frame me v w (set_active v k b w).
Proof. by apply frame_set_irq. Qed.
Lemma frame_set_level k b w : frame me v w (set_level v k b w).
Proof. by apply frame_set_irq. Qed.
Lemma frame_set_pending k b w : frame me v w (vgic_set_pending v k b w).
Proof.
  transitivity (set_irq v k ((irq (vgic w) v k) <| pending := b |>) w); [by apply frame_set_irq|].
  unfold vgic_set_pending. cbv zeta. case_match; by split.
Qed.
End Frame.
#[export] Hint Resolve frame_set_ctx frame_set_cpuif frame_mask frame_set_active frame_set_level frame_set_pending : vgic.

(** The descriptors after an update. *)
Lemma irq_set_pending v k b w u j :
  irq (vgic (vgic_set_pending v k b w)) u j = if (u =? v) && (j =? k) then (irq (vgic w) v k) <| pending := b |> else irq (vgic w) u j.
Proof. unfold vgic_set_pending. cbv zeta. by case_match. Qed.
Lemma irq_set_active v k b w u j :
  irq (vgic (set_active v k b w)) u j = if (u =? v) && (j =? k) then (irq (vgic w) v k) <| active := b |> else irq (vgic w) u j.
Proof. done. Qed.
Lemma irq_set_level v k b w u j :
  irq (vgic (set_level v k b w)) u j = if (u =? v) && (j =? k) then (irq (vgic w) v k) <| level := b |> else irq (vgic w) u j.
Proof. done. Qed.
Lemma irq_mask me v b w : vgic (arm64_vtimer_set_host_mask me v b w) = vgic w.
Proof. unfold arm64_vtimer_set_host_mask. by case_match. Qed.

Lemma vctx_set_pending v k b w : vctx (vgic_set_pending v k b w) = vctx w.
Proof. unfold vgic_set_pending. cbv zeta. by case_match. Qed.
Lemma cpuif_set_pending v k b w : cpuif (vgic_set_pending v k b w) = cpuif w.
Proof. unfold vgic_set_pending. cbv zeta. by case_match. Qed.
Lemma vctx_mask me v b w : vctx (arm64_vtimer_set_host_mask me v b w) = vctx w.
Proof. unfold arm64_vtimer_set_host_mask. by case_match. Qed.
Lemma cpuif_mask me v b w : cpuif (arm64_vtimer_set_host_mask me v b w) = cpuif w.
Proof. unfold arm64_vtimer_set_host_mask. by case_match. Qed.
Lemma vctx_set_ctx v c w : vctx (set_ctx v c w) v = c.
Proof. cbn. apply upd_eq. Qed.
Lemma vctx_set_active v k b w : vctx (set_active v k b w) = vctx w.
Proof. done. Qed.
Lemma cpuif_set_active v k b w : cpuif (set_active v k b w) = cpuif w.
Proof. done. Qed.
Lemma vctx_set_level v k b w : vctx (set_level v k b w) = vctx w.
Proof. done. Qed.
#[export] Hint Rewrite irq_set_pending irq_set_active irq_set_level irq_mask vctx_set_pending cpuif_set_pending vctx_mask cpuif_mask vctx_set_ctx
  vctx_set_active cpuif_set_active vctx_set_level : vgic.

(** ** The pending bitmap *)
Lemma u32_bits x j : 0 <= j -> Z.testbit (u32 x) j = Z.testbit x j && (j <? 32).
Proof.
  intros Hj. unfold u32. change 4294967296 with (2 ^ 32). destruct (Z.ltb_spec j 32); [rewrite Z.mod_pow2_bits_low by lia; by rewrite andb_true_r|].
  by rewrite Z.mod_pow2_bits_high, andb_false_r by lia.
Qed.
Lemma BIT32_bits n j : 0 <= n < 32 -> 0 <= j -> Z.testbit (BIT32 n) j = (j =? n).
Proof.
  intros Hn Hj. unfold BIT32. rewrite u32_bits, Z.shiftl_1_l, Z.pow2_bits_eqb, (Z.eqb_sym n j) by lia.
  destruct (Z.eqb_spec j n) as [->|]; [|done]. cbn. apply Z.ltb_lt. lia.
Qed.
Lemma not32_bits x j : 0 <= j < 32 -> Z.testbit (not32 x) j = negb (Z.testbit x j).
Proof. intros. unfold not32. rewrite u32_bits, Z.lnot_spec, (proj2 (Z.ltb_lt j 32)), andb_true_r by lia. done. Qed.
Lemma in_u32_bits x : in_u32 x <-> 0 <= x /\ forall j, 32 <= j -> Z.testbit x j = false.
Proof.
  unfold in_u32. change UINT32_MAX with (2 ^ 32 - 1). split.
  - intros Hx. split; [lia|]. intros j Hj. destruct (Z.eq_dec x 0) as [->|]; [apply Z.bits_0|]. apply Z.bits_above_log2; [lia|].
    apply Z.log2_lt_pow2; [lia|]. apply (Z.lt_le_trans _ (2 ^ 32)); [lia|]. apply Z.pow_le_mono_r; lia.
  - intros [H0 Hb]. split; [done|]. destruct (Z.lt_ge_cases x (2 ^ 32)) as [|Hge]; [lia|]. exfalso.
    pose proof (Z.log2_le_mono _ _ Hge) as Hl. rewrite Z.log2_pow2 in Hl by lia.
    specialize (Hb (Z.log2 x) Hl). rewrite Z.bit_log2 in Hb by lia. done.
Qed.
Lemma bit_to_bits b n x j : 0 <= n < 32 -> 0 <= j < 32 -> Z.testbit (bit_to b (BIT32 n) x) j = if j =? n then b else Z.testbit x j.
Proof.
  intros Hn Hj. unfold bit_to. destruct b; [rewrite Z.lor_spec|rewrite Z.land_spec, not32_bits by lia]; rewrite BIT32_bits by lia;
    destruct (j =? n); cbn; by rewrite ?orb_true_r, ?orb_false_r, ?andb_false_r, ?andb_true_r.
Qed.
Lemma bit_to_u32 b n x : 0 <= n < 32 -> in_u32 x -> in_u32 (bit_to b (BIT32 n) x).
Proof.
  intros Hn Hx. apply in_u32_bits in Hx as [H0 Hb]. apply in_u32_bits. unfold bit_to. destruct b; split.
  - apply Z.lor_nonneg. split; [done|]. unfold BIT32, u32. apply Z.mod_pos_bound. lia.
  - intros j Hj. rewrite Z.lor_spec, Hb, BIT32_bits by lia. cbn. apply Z.eqb_neq. lia.
  - apply Z.land_nonneg. by left.
  - intros j Hj. by rewrite Z.land_spec, Hb.
Qed.

Lemma word_bit_eq k j : 0 <= k -> 0 <= j -> (j / 32 =? k / 32) && (j mod 32 =? k mod 32) = (j =? k).
Proof.
  intros Hk Hj. pose proof (Z.div_mod j 32). pose proof (Z.div_mod k 32).
  destruct (Z.eqb_spec (j / 32) (k / 32)), (Z.eqb_spec (j mod 32) (k mod 32)), (Z.eqb_spec j k); cbn; subst; done || lia.
Qed.

Lemma upd2_bit f (v i u j : Z) (b : bool) : 0 <= i -> 0 <= j ->
  Z.testbit (upd2 v (i / 32) (bit_to b (BIT32 (i mod 32)) (f v (i / 32))) f u (j / 32)) (j mod 32) =
  if (u =? v) && (j =? i) then b else Z.testbit (f u (j / 32)) (j mod 32).
Proof.
  intros Hi Hj. rewrite upd2_apply, <- (word_bit_eq i j Hi Hj).
  destruct (Z.eqb_spec u v) as [->|]; cbn; [|done]. destruct (Z.eqb_spec (j / 32) (i / 32)) as [->|]; cbn; [|done].
  rewrite bit_to_bits by (apply Z.mod_pos_bound; lia). done.
Qed.

Lemma pend_bit_set_pending v k b w u j : 0 <= k -> 0 <= j ->
  pend_bit (vgic (vgic_set_pending v k b w)) u j = if (u =? v) && (j =? k) then b else pend_bit (vgic w) u j.
Proof.
  intros Hk Hj. unfold pend_bit, vgic_set_pending, vgic_irq_word, vgic_irq_bit. cbv zeta.
  assert (forall i, vgic_irq_is_lpi i = true -> 0 <= i - ARM64_VGIC_LPI_BASE) as Hl
    by (intros i Hi; unfold vgic_irq_is_lpi in Hi; apply andb_prop in Hi as [Hi _]; lia).
  destruct (vgic_irq_is_lpi k) eqn:Ek, (vgic_irq_is_lpi j) eqn:Ej; cbn.
  - rewrite upd2_bit by auto. replace (j - _ =? k - _) with (j =? k); [done|]. destruct (Z.eqb_spec j k), (Z.eqb_spec (j - ARM64_VGIC_LPI_BASE) (k - ARM64_VGIC_LPI_BASE)); done || lia.
  - destruct (Z.eqb_spec j k); [congruence|]. by rewrite andb_false_r.
  - destruct (Z.eqb_spec j k); [congruence|]. by rewrite andb_false_r.
  - by rewrite upd2_bit.
Qed.

(** ** The invariant

    A pCPU has [n] LRs; what they hold is the business of the loaded vCPU. *)
Definition hw_shape (n : Z) (l : list Z) : Prop := length l = Z.to_nat ARM64_VGIC_MAX_LRS /\ forall i, n <= i -> ~ lr_valid (lr_at l i).

Record wf (w : vgic_world) : Prop := {
  wf_count : 0 <= lr_count (vgic w) <= ARM64_VGIC_MAX_LRS;
  wf_ctx v : ctx_ok (its_enabled (vgic w)) (lr_count (vgic w)) (vctx w v);
  wf_hw p : hw_shape (lr_count (vgic w)) (ich_lr (cpuif w p));
  wf_bits v k : 0 <= k -> pend_bit (vgic w) v k = pending (irq (vgic w) v k);
  wf_words v i : in_u32 (pending_bitmap (vgic w) v i) /\ in_u32 (lpi_pending_bitmap (vgic w) v i);
  wf_fields v k : irq_fields_ok (irq (vgic w) v k);
}.

Lemma wf_set_ctx v c w : wf w -> ctx_ok (its_enabled (vgic w)) (lr_count (vgic w)) c -> wf (set_ctx v c w).
Proof. intros [] Hc. split; try done. intros u. cbn. unfold upd. by case_match. Qed.
Lemma wf_set_cpuif p r w : wf w -> hw_shape (lr_count (vgic w)) (ich_lr r) -> wf (set_cpuif p r w).
Proof. intros [] Hc. split; try done. intros u. cbn. unfold upd. by case_match. Qed.
Lemma wf_mask me v b w : wf w -> wf (arm64_vtimer_set_host_mask me v b w).
Proof. intros []. unfold arm64_vtimer_set_host_mask. case_match; by split. Qed.
Lemma wf_set_irq v k d w : wf w -> pending d = pending (irq (vgic w) v k) -> irq_fields_ok d -> wf (set_irq v k d w).
Proof.
  intros [] Hp Hd. split; try done; intros u j; cbn; rewrite upd2_apply.
  - intros Hj. transitivity (pend_bit (vgic w) u j); [done|]. rewrite (wf_bits0 u j Hj). destruct (Z.eqb_spec u v) as [->|], (Z.eqb_spec j k) as [->|]; cbn; done.
  - by case_match.
Qed.
Lemma wf_set_active v k b w : wf w -> wf (set_active v k b w).
Proof. intros H. by apply wf_set_irq; [..|apply (wf_fields w H v k)]. Qed.
Lemma wf_set_level v k b w : wf w -> wf (set_level v k b w).
Proof. intros H. by apply wf_set_irq; [..|apply (wf_fields w H v k)]. Qed.
Lemma wf_set_pending v k b w : 0 <= k -> wf w -> wf (vgic_set_pending v k b w).
Proof.
  intros Hk H. pose proof (frame_set_pending 0 v k b w) as Hf. destruct H. split.
  - by rewrite (fr_count _ _ _ _ Hf).
  - intros u. by rewrite (fr_its _ _ _ _ Hf), (fr_count _ _ _ _ Hf), vctx_set_pending.
  - intros p. by rewrite (fr_count _ _ _ _ Hf), cpuif_set_pending.
  - intros u j Hj. rewrite pend_bit_set_pending, irq_set_pending by done. case_match; [done|auto].
  - intros u i. unfold vgic_set_pending. cbv zeta. case_match; cbn; rewrite upd2_apply; case_match; split; try apply wf_words0;
      (apply bit_to_u32; [apply Z.mod_pos_bound; lia|apply wf_words0]).
  - intros u j. rewrite irq_set_pending. case_match; [apply (wf_fields0 v k)|done].
Qed.
#[export] Hint Resolve wf_set_ctx wf_set_cpuif wf_mask wf_set_active wf_set_level wf_set_pending : vgic.
