(* ===== verification/VgicFlow.v ===== *)
(** * Interrupts through the list registers

    [vgicv3_sync_vcpu] takes the LRs back from the hardware and
    [vgicv3_flush_vcpu] fills them: no interrupt that is owed to the guest is lost
    on the way, and the flush either hands over all that can be delivered or fills
    every LR and asks for the underflow interrupt. *)
From S2P Require Import Prelude Bits Vgic VgicInv.

Definition opt_pending (o : option Z) : bool := match o with Some l => lr_pending l | None => false end.
(** The LR that holds [k] in the context of [v], and on pCPU [me]. *)
Definition lr_w (w : vgic_world) (v k : Z) : option Z := ctx_lr (vctx w v) k.
Definition hw_lr (w : vgic_world) (me k : Z) : option Z := lr_of (ich_lr (cpuif w me)) (lr_count (vgic w)) k.
Definition irq_of (w : vgic_world) (v k : Z) : arm64_vgic_irq := irq (vgic w) v k.
(** The guest is still to see [k]: it is pending in its descriptor or in its LR. *)
Definition owed (w : vgic_world) (v k : Z) : bool := pending (irq_of w v k) || opt_pending (lr_w w v k).

(** At rest, the LRs of a pCPU that runs a vCPU of the VM are in order as well. *)
Definition hw_ok (w : vgic_world) (me : Z) : Prop := lrs_ok (its_enabled (vgic w)) (lr_count (vgic w)) (ich_lr (cpuif w me)).

Definition ok_step (me v : Z) (w w' : vgic_world) : Prop := wf w' /\ frame me v w w'.

Lemma ok_step_trans me v w1 w2 w3 : ok_step me v w1 w2 -> (wf w2 -> ok_step me v w2 w3) -> ok_step me v w1 w3.
Proof. intros [H1 H2] H. destruct (H H1) as [H3 H4]. split; [done|by transitivity w2]. Qed.

Lemma frame_desc me v w w' u k : frame me v w w' -> vgic_irq_desc w' u k = vgic_irq_desc w u k.
Proof. intros H. unfold vgic_irq_desc. by rewrite (fr_its _ _ _ _ H). Qed.
Lemma frame_loaded me v w w' p u : frame me v w w' -> vgicv3_vcpu_is_loaded w' p u = vgicv3_vcpu_is_loaded w p u.
Proof. intros H. unfold vgicv3_vcpu_is_loaded. by rewrite (fr_running _ _ _ _ H). Qed.
Lemma frame_remote me v w w' p u : frame me v w w' -> vgicv3_vcpu_is_running_remote w' p u = vgicv3_vcpu_is_running_remote w p u.
Proof. intros H. unfold vgicv3_vcpu_is_running_remote. by rewrite (frame_loaded _ _ _ _ _ _ H), (fr_pcpu _ _ _ _ H). Qed.
Lemma frame_deliverable me v w w' k : frame me v w w' -> vmcr (vctx w' v) = vmcr (vctx w v) ->
  vgic_irq_deliverable w' v k = vgic_irq_deliverable w v k.
Proof.
  intros H E. unfold vgic_irq_deliverable. rewrite (fr_gicd _ _ _ _ H), (fr_gicr _ _ _ _ H), E. by rewrite (proj1 (fr_fixed _ _ _ _ H v k)).
Qed.
Lemma lr_slots_count w : wf w -> lr_slots w = lr_count (vgic w).
Proof. intros H. pose proof (wf_count w H). unfold lr_slots. lia. Qed.
Lemma desc_irq w v k : 0 <= k -> vgic_irq_desc w v k = true -> has_irq (its_enabled (vgic w)) k.
Proof.
  intros Hk H. unfold vgic_irq_desc in H. apply andb_prop in H as [_ H]. apply orb_prop in H as [H|H]; [left; lia|right].
  by apply andb_prop in H.
Qed.
Lemma has_irq_small its k : has_irq its k -> 0 <= k < 2 ^ 32.
Proof. intros [H|[_ H]]; [unfold ARM64_VGIC_IRQ_NUM in H; lia|]. unfold vgic_irq_is_lpi, ARM64_VGIC_LPI_BASE, ARM64_VGIC_LPI_NUM in H. lia. Qed.
Lemma vintid_nonneg l : 0 <= lr_vintid l.
Proof. unfold lr_vintid. apply Z.land_nonneg. by right. Qed.
#[export] Hint Resolve vintid_nonneg : vgic.

Lemma hw_ok_shape its n l : 0 <= n -> lrs_ok its n l -> hw_shape n l.
Proof. intros Hn H. split; [apply (lo_length _ _ _ H)|]. intros i Hi Hv. apply (lo_used _ _ _ H) in Hv; lia. Qed.

(** ** The hardware LRs *)
Lemma write_lrs_ok me v c w : wf w -> ctx_ok (its_enabled (vgic w)) (lr_count (vgic w)) c ->
  ok_step me v w (vgicv3_write_lrs me c w) /\ hw_ok (vgicv3_write_lrs me c w) me /\ vctx (vgicv3_write_lrs me c w) = vctx w /\ vgic (vgicv3_write_lrs me c w) = vgic w /\
  forall k, hw_lr (vgicv3_write_lrs me c w) me k = ctx_lr c k.
Proof.
  intros Hw [Hl Hu]. pose proof (wf_count w Hw) as Hc. destruct (wf_hw w Hw me) as [Hlh Hh].
  unfold vgicv3_write_lrs. rewrite (lr_slots_count w Hw). cbv zeta.
  destruct (foldl_insert_lr (fun i => if i <? used_lrs c then lr_at (lr c) i else 0) (ich_lr (cpuif w me)) (lr_count (vgic w))) as [Hlen Hat];
    [unfold lr_room; by rewrite Hlh|].
  set (l' := foldl _ (ich_lr (cpuif w me)) _) in *.
  assert (forall i, 0 <= i -> lr_valid (lr_at l' i) -> i < used_lrs c /\ lr_at l' i = lr_at (lr c) i) as Hv.
  { intros i Hi. rewrite (Hat i Hi). destruct (Z.ltb_spec i (lr_count (vgic w))); [destruct (Z.ltb_spec i (used_lrs c)); [done|intros Hx; by destruct lr_at_0]|].
    intros Hx. by apply Hh in Hx. }
  assert (lrs_ok (its_enabled (vgic w)) (lr_count (vgic w)) l') as Hok.
  { split.
    - by rewrite Hlen.
    - intros i Hi Hx. destruct (Hv i Hi Hx). lia.
    - intros i j Hi Hj Hx Hy E. destruct (Hv i Hi Hx) as [_ Ei], (Hv j Hj Hy) as [_ Ej]. rewrite Ei in *. rewrite Ej in *. by apply (lo_unique _ _ _ Hl).
    - intros i Hi Hx. destruct (Hv i Hi Hx) as [_ Ei]. rewrite Ei in *. by apply (lo_irq _ _ _ Hl). }
  split_and!; try done; [split; [apply wf_set_cpuif; [done|apply (hw_ok_shape (its_enabled (vgic w))); [lia|done]]|apply frame_set_cpuif]|unfold hw_ok; cbn; by rewrite upd_eq|].
  intros k. unfold hw_lr, ctx_lr. cbn. rewrite upd_eq. cbn. apply (lr_of_ext (its_enabled (vgic w)) _ _ (its_enabled (vgic w))); [done..|].
    intros x. split; intros (i & Hi & Hx & Hvx & Hk); exists i; split_and!; try done.
  - subst x. by destruct (Hv i Hi Hvx).
  - subst x. pose proof (lo_used _ _ _ Hl i Hi Hvx). rewrite (Hat i Hi). destruct (Z.ltb_spec i (lr_count (vgic w))), (Z.ltb_spec i (used_lrs c)); done || lia.
Qed.

Lemma read_lrs_ok q me v w : wf w -> hw_ok w me -> let w' := vgicv3_read_lrs me v w in
  ok_step q v w w' /\ cpuif w' = cpuif w /\ vgic w' = vgic w /\
  vctx w' v = (vctx w v) <| lr := lr (vctx w' v) |> <| used_lrs := used_lrs (vctx w' v) |> /\
  (forall i, 0 <= i < used_lrs (vctx w' v) -> lr_at (lr (vctx w' v)) i = lr_at (ich_lr (cpuif w me)) i) /\
  (forall i, 0 <= i < used_lrs (vctx w' v) -> exists j, i <= j /\ lr_valid (lr_at (ich_lr (cpuif w me)) j)) /\
  forall k, lr_w w' v k = hw_lr w me k.
Proof.
  intros Hw Hh w'. pose proof (wf_count w Hw) as Hc. pose proof (wf_ctx w Hw v) as [Hl Hu].
  assert (lr_room (lr (vctx w v)) = ARM64_VGIC_MAX_LRS) as Hroom by (unfold lr_room; by rewrite (lo_length _ _ _ Hl)).
  destruct (foldl_ctx_lr (ich_lr (cpuif w me)) (vctx w v) (lr_count (vgic w)) Hc Hroom) as (Ec & Hu' & Hv & Ht).
  destruct (foldl_insert_lr (lr_at (ich_lr (cpuif w me))) (lr (vctx w v)) (lr_count (vgic w)) ltac:(lia)) as [Hlen Hat].
  unfold w', vgicv3_read_lrs. rewrite (lr_slots_count w Hw). cbv zeta. set (c' := foldl _ (_ <| used_lrs := 0 |>) _) in *. clear w'.
  set (l' := foldl _ (lr (vctx w v)) _) in *.
  assert (lr c' = l') as El by (rewrite Ec; done).
  assert (forall i, 0 <= i -> lr_valid (lr_at l' i) -> i < lr_count (vgic w)) as Hin.
  { intros i Hi. rewrite (Hat i Hi). destruct (Z.ltb_spec i (lr_count (vgic w))); [done|]. intros Hx. apply (lo_used _ _ _ Hl) in Hx; lia. }
  assert (forall i, 0 <= i < lr_count (vgic w) -> lr_at l' i = lr_at (ich_lr (cpuif w me)) i) as Hsame
    by (intros i Hi; rewrite (Hat i) by lia; by rewrite (proj2 (Z.ltb_lt _ _) (proj2 Hi))).
  assert (lrs_ok (its_enabled (vgic w)) (used_lrs c') l') as Hok.
  { split.
    - rewrite Hlen. apply (lo_length _ _ _ Hl).
    - intros i Hi Hx. pose proof (Hin i Hi Hx). apply Hv; [lia|]. by rewrite <- Hsame.
    - intros i j Hi Hj Hx Hy E. pose proof (Hin i Hi Hx). pose proof (Hin j Hj Hy). rewrite !Hsame in * by lia. by apply (lo_unique _ _ _ Hh).
    - intros i Hi Hx. pose proof (Hin i Hi Hx). rewrite !Hsame in * by lia. by apply (lo_irq _ _ _ Hh). }
  unfold lr_w. rewrite vctx_set_ctx. split_and!; try done.
  - split; [|apply frame_set_ctx]. apply wf_set_ctx; [done|]. split; [by rewrite El|done].
  - rewrite El. exact Ec.
  - intros i Hi. rewrite El. apply Hsame. lia.
  - intros i Hi. exists (used_lrs c' - 1). split; [lia|apply Ht; lia].
  - intros k. unfold ctx_lr, hw_lr. rewrite El. apply (lr_of_ext (its_enabled (vgic w)) _ _ (its_enabled (vgic w))); [done..|].
    intros x. split; intros (i & Hi & Hx & Hvx & Hk); exists i; split_and!; try done; subst x.
    + rewrite Hsame; [done|]. pose proof (Hin i Hi Hvx). lia.
    + rewrite Hsame; [done|]. pose proof (lo_used _ _ _ Hh i Hi Hvx). lia.
Qed.

(** ** Relations between states of one vCPU

    [keeps]: nothing of interrupt [k] changes.  [settles]: its LR and its level stay,
    it is owed as before, and it can only stop being pending in the descriptor. *)
Definition keeps (v k : Z) (w w' : vgic_world) : Prop := irq_of w' v k = irq_of w v k /\ lr_w w' v k = lr_w w v k.
Definition settles (v k : Z) (w w' : vgic_world) : Prop :=
  lr_w w' v k = lr_w w v k /\ level (irq_of w' v k) = level (irq_of w v k) /\ owed w' v k = owed w v k /\
  (pending (irq_of w' v k) = true -> pending (irq_of w v k) = true).

#[export] Instance keeps_preorder v k : PreOrder (keeps v k).
Proof. split; [done|]. intros w1 w2 w3 [] []. split; congruence. Qed.
#[export] Instance settles_preorder v k : PreOrder (settles v k).
Proof. split; [done|]. intros w1 w2 w3 (? & ? & ? & ?) (? & ? & ? & ?). split_and!; try congruence. auto. Qed.
Lemma keeps_settles v k w w' : keeps v k w w' -> settles v k w w'.
Proof. intros [Hi Hl]. unfold settles, owed. rewrite Hi, Hl. done. Qed.

Lemma keeps_set_pending v k j b w : j <> k -> keeps v j w (vgic_set_pending v k b w).
Proof.
  intros Hne. unfold keeps, irq_of, lr_w. rewrite vctx_set_pending, irq_set_pending, (proj2 (Z.eqb_neq j k) Hne), andb_false_r. done.
Qed.
Lemma keeps_set_active v k j b w : j <> k -> keeps v j w (set_active v k b w).
Proof. intros Hne. unfold keeps, irq_of, lr_w. rewrite irq_set_active, (proj2 (Z.eqb_neq j k) Hne), andb_false_r. done. Qed.
Lemma keeps_set_level v k j b w : j <> k -> keeps v j w (set_level v k b w).
Proof. intros Hne. unfold keeps, irq_of, lr_w. rewrite irq_set_level, (proj2 (Z.eqb_neq j k) Hne), andb_false_r. done. Qed.
Lemma keeps_mask me v j b w : keeps v j w (arm64_vtimer_set_host_mask me v b w).
Proof. unfold keeps, irq_of, lr_w. by rewrite vctx_mask, irq_mask. Qed.
Lemma keeps_set_ctx v c j w : ctx_lr c j = ctx_lr (vctx w v) j -> keeps v j w (set_ctx v c w).
Proof. intros H. unfold keeps, irq_of, lr_w. by rewrite vctx_set_ctx. Qed.
Lemma keeps_set_cpuif v p r j w : keeps v j w (set_cpuif p r w).
Proof. done. Qed.
#[export] Hint Resolve keeps_set_pending keeps_set_active keeps_set_level keeps_mask keeps_set_cpuif : vgic.

Lemma settles_set_active v k b w : settles v k w (set_active v k b w).
Proof. unfold settles, owed, irq_of, lr_w. rewrite !irq_set_active, !Z.eqb_refl. cbn. done. Qed.
(** Giving up the pending state of an interrupt whose LR is pending. *)
Lemma settles_consume v k w : opt_pending (lr_w w v k) = true -> settles v k w (vgic_set_pending v k false w).
Proof.
  intros H. unfold settles, owed, irq_of, lr_w in *. rewrite !vctx_set_pending, !irq_set_pending, !Z.eqb_refl, H. cbn. by rewrite !orb_true_r.
Qed.

(** ** Steps that leave the LRs alone *)
Lemma sync_live_ok q me v w : wf w -> let w' := vgicv3_sync_live_cpuif me v w in
  ok_step q v w w' /\ (forall k, keeps v k w w') /\ cpuif w' = cpuif w /\ vgic w' = vgic w /\
  lr (vctx w' v) = lr (vctx w v) /\ used_lrs (vctx w' v) = used_lrs (vctx w v) /\ hcr (vctx w' v) = hcr (vctx w v) /\ vmcr (vctx w' v) = ich_vmcr (cpuif w me).
Proof.
  intros Hw w'. unfold w', vgicv3_sync_live_cpuif. cbv zeta. rewrite vctx_set_ctx. split_and!; try done.
  - split; [|apply frame_set_ctx]. apply wf_set_ctx; [done|]. apply (wf_ctx w Hw v).
  - intros k. by apply keeps_set_ctx.
Qed.

Lemma set_hcr_ok me v x w : wf w -> let w' := set_ctx v ((vctx w v) <| hcr := x |>) w in ok_step me v w w' /\ forall k, keeps v k w w'.
Proof.
  intros Hw w'. split; [split; [|apply frame_set_ctx]; apply wf_set_ctx; [done|]; apply (wf_ctx w Hw v)|]. intros k. by apply keeps_set_ctx.
Qed.
Lemma write_hcr_ok me v x w : wf w -> ok_step me v w (write_ich_hcr_el2 me x w) /\ forall k, keeps v k w (write_ich_hcr_el2 me x w).
Proof. intros Hw. split; [|done]. split; [|apply frame_set_cpuif]. apply wf_set_cpuif; [done|]. apply (wf_hw w Hw me). Qed.

Lemma remove_slot_ok me v idx w : wf w -> 0 <= idx < used_lrs (vctx w v) -> let w' := set_ctx v (remove_lr idx (vctx w v)) w in
  ok_step me v w w' /\ used_lrs (vctx w' v) = used_lrs (vctx w v) - 1 /\
  forall k, (lr_valid (lr_at (lr (vctx w v)) idx) -> lr_vintid (lr_at (lr (vctx w v)) idx) <> k) -> keeps v k w w'.
Proof.
  intros Hw Hi w'. destruct (remove_lr_ok _ _ (proj2 (wf_count w Hw)) _ (wf_ctx w Hw v) idx Hi) as (Hc & Hu & Hl).
  split_and!; [split; [by apply wf_set_ctx|apply frame_set_ctx]|unfold w'; by rewrite vctx_set_ctx|].
  intros k Hk. apply keeps_set_ctx. rewrite Hl, bool_decide_false by (intros [Hv E]; by apply Hk). done.
Qed.

(** ** Giving an interrupt an LR *)
Lemma make_lr_ok w v k p a : wf w -> 0 <= k < 2 ^ 32 -> let l := make_lr_state k (irq_of w v k) p a in
  lr_vintid l = k /\ lr_pending l = p /\ (p || a = true -> lr_valid l).
Proof.
  intros Hw Hk l. destruct (make_lr_state_flags k (irq_of w v k) p a (wf_fields w Hw v k)) as [Hp Ha]; [lia|].
  split_and!; [by apply make_lr_state_vintid|done|]. intros H. apply lr_valid_flags. unfold l. rewrite Hp, Ha. by apply orb_prop in H.
Qed.

Lemma append_ok me v k w : wf w -> has_irq (its_enabled (vgic w)) k -> pending (irq_of w v k) = true ->
  lr_w w v k = None -> used_lrs (vctx w v) < lr_count (vgic w) ->
  let w' := set_ctx v (append_lr (make_lr k (irq_of w v k)) (vctx w v)) w in
  ok_step me v w w' /\ used_lrs (vctx w' v) = used_lrs (vctx w v) + 1 /\ opt_pending (lr_w w' v k) = true /\ forall j, j <> k -> keeps v j w w'.
Proof.
  intros Hw Hk Hp Hno Hlt. cbv zeta. unfold make_lr. rewrite Hp. pose proof (has_irq_small _ _ Hk) as Hk32.
  destruct (make_lr_ok w v k true (active (irq_of w v k)) Hw Hk32) as (Hvi & Hpe & Hva). specialize (Hva eq_refl).
  destruct (append_lr_ok _ _ (proj2 (wf_count w Hw)) _ (wf_ctx w Hw v) _ Hlt Hva) as (Hc & Hu & Hl); [by rewrite Hvi..|].
  split_and!; [split; [by apply wf_set_ctx|apply frame_set_ctx]|by rewrite vctx_set_ctx|..].
  - unfold lr_w. by rewrite vctx_set_ctx, Hl, Hvi, Z.eqb_refl.
  - intros j Hj. apply keeps_set_ctx. by rewrite Hl, Hvi, (proj2 (Z.eqb_neq j k)).
Qed.

Lemma rewrite_ok me v k p a w : wf w -> 0 <= k < 2 ^ 32 -> 0 <= find_lr_for_virq (vctx w v) k -> p || a = true ->
  let w' := set_ctx v (set_lr (find_lr_for_virq (vctx w v) k) (make_lr_state k (irq_of w v k) p a) (vctx w v)) w in
  ok_step me v w w' /\ used_lrs (vctx w' v) = used_lrs (vctx w v) /\ opt_pending (lr_w w' v k) = p /\ forall j, j <> k -> keeps v j w w'.
Proof.
  intros Hw Hk Hf Hpa w'. destruct (make_lr_ok w v k p a Hw Hk) as (Hvi & Hpe & Hva). specialize (Hva Hpa).
  destruct (set_lr_ok _ _ (proj2 (wf_count w Hw)) _ (wf_ctx w Hw v) k _ Hf Hva Hvi) as (Hc & Hl).
  unfold w'. split_and!; [split; [by apply wf_set_ctx|apply frame_set_ctx]|by rewrite vctx_set_ctx|..].
  - unfold lr_w. by rewrite vctx_set_ctx, Hl, Z.eqb_refl.
  - intros j Hj. apply keeps_set_ctx. by rewrite Hl, (proj2 (Z.eqb_neq j k)).
Qed.

(** ** Slots that are free but below one in use

    Such a slot still names the interrupt it held. *)
Definition clean (w : vgic_world) (v k : Z) : Prop :=
  forall i, 0 <= i < used_lrs (vctx w v) -> lr_vintid (lr_at (lr (vctx w v)) i) = k -> lr_valid (lr_at (lr (vctx w v)) i).

Lemma remove_lr_slots c idx i : 0 <= idx < used_lrs c -> used_lrs c <= lr_room (lr c) -> 0 <= i < used_lrs c - 1 ->
  lr_at (lr (remove_lr idx c)) i = lr_at (lr c) (if i =? idx then used_lrs c - 1 else i).
Proof.
  intros Hidx Hr Hi. unfold lr_room in Hr. unfold remove_lr, set_lr. rewrite (proj2 (Z.ltb_lt idx (used_lrs c))) by lia. cbv zeta. cbn.
  destruct (Z.eqb_spec idx (used_lrs c - 1)) as [->|Hne]; cbn; rewrite !lr_at_set by (rewrite ?length_insert; lia);
    rewrite (proj2 (Z.eqb_neq i (used_lrs c - 1))) by lia; [done|]. by case_match.
Qed.

Lemma ctx_len w v : wf w -> used_lrs (vctx w v) <= lr_room (lr (vctx w v)).
Proof. intros Hw. destruct (wf_ctx w Hw v) as [H1 H2]. pose proof (wf_count w Hw). unfold lr_room. rewrite (lo_length _ _ _ H1). unfold ARM64_VGIC_MAX_LRS in *. lia. Qed.

Lemma clean_remove w v k idx : wf w -> 0 <= idx < used_lrs (vctx w v) -> clean w v k -> clean (set_ctx v (remove_lr idx (vctx w v)) w) v k.
Proof.
  intros Hw Hi Hc j. rewrite vctx_set_ctx. destruct (remove_slot_ok 0 v idx w Hw Hi) as (_ & Hu & _). rewrite vctx_set_ctx in Hu. rewrite Hu.
  intros Hj. rewrite remove_lr_slots by (done || apply ctx_len; done). apply Hc. case_match; lia.
Qed.
Lemma clean_append w v k x : wf w -> used_lrs (vctx w v) < lr_count (vgic w) -> lr_valid x -> clean w v k -> clean (set_ctx v (append_lr x (vctx w v)) w) v k.
Proof.
  intros Hw Hlt Hx Hc j. rewrite vctx_set_ctx. unfold append_lr. cbn. pose proof (wf_count w Hw). destruct (wf_ctx w Hw v) as [Hl Hu].
  replace (u8 (used_lrs (vctx w v) + 1)) with (used_lrs (vctx w v) + 1) by (symmetry; apply Z.mod_small; unfold ARM64_VGIC_MAX_LRS in *; lia).
  intros Hj. rewrite lr_at_set by (rewrite ?(lo_length _ _ _ Hl); unfold ARM64_VGIC_MAX_LRS in *; lia). case_match; [done|]. apply Hc. lia.
Qed.
Lemma clean_ctx w w' v k : lr (vctx w' v) = lr (vctx w v) -> used_lrs (vctx w' v) = used_lrs (vctx w v) -> clean w v k -> clean w' v k.
Proof. intros E1 E2 H. unfold clean. by rewrite E1, E2. Qed.

(** A step that is in order, and settles the interrupts of [C]. *)
Definition fine (me v : Z) (C : Z -> Prop) (w w' : vgic_world) : Prop :=
  ok_step me v w w' /\ forall k, C k -> clean w v k -> settles v k w w' /\ clean w' v k.

Lemma fine_trans me v C w1 w2 w3 : fine me v C w1 w2 -> (wf w2 -> fine me v C w2 w3) -> fine me v C w1 w3.
Proof.
  intros [H1 G1] H. destruct (H (proj1 H1)) as [H2 G2]. split; [by apply (ok_step_trans _ _ _ w2)|].
  intros k Hk Hc. destruct (G1 k Hk Hc) as [S1 C1], (G2 k Hk C1) as [S2 C2]. split; [by transitivity w2|done].
Qed.
Lemma fine_refl me v C w : wf w -> fine me v C w w.
Proof. intros Hw. split; [by split|done]. Qed.
Lemma fine_weaken me v (C D : Z -> Prop) w w' : (forall k, D k -> C k) -> fine me v C w w' -> fine me v D w w'.
Proof. intros H [H1 H2]. split; [done|]. intros k Hk. apply H2. auto. Qed.

(** Steps that leave the LRs and the slots alone. *)
Lemma fine_same me v (C : Z -> Prop) w w' : ok_step me v w w' -> lr (vctx w' v) = lr (vctx w v) -> used_lrs (vctx w' v) = used_lrs (vctx w v) ->
  (forall k, C k -> settles v k w w') -> fine me v C w w'.
Proof. intros H E1 E2 Hs. split; [done|]. intros k Hk Hc. split; [auto|]. by apply (clean_ctx w). Qed.

Lemma fine_set_pending me v k b w : 0 <= k -> wf w -> fine me v (fun j => j <> k) w (vgic_set_pending v k b w).
Proof.
  intros Hk Hw. apply fine_same; [split; auto with vgic|by rewrite vctx_set_pending..|]. intros j Hj. by apply keeps_settles, keeps_set_pending.
Qed.
Lemma fine_set_active me v k b w (C : Z -> Prop) : wf w -> fine me v C w (set_active v k b w).
Proof.
  intros Hw. apply fine_same; [split; auto with vgic|done..|]. intros j _. destruct (decide (j = k)) as [->|]; [apply settles_set_active|].
  by apply keeps_settles, keeps_set_active.
Qed.
Lemma fine_mask me p v b w (C : Z -> Prop) : wf w -> fine me v C w (arm64_vtimer_set_host_mask p v b w).
Proof. intros Hw. apply fine_same; [split; auto with vgic|by rewrite vctx_mask..|]. intros j _. apply keeps_settles, keeps_mask. Qed.
Lemma fine_remove me v idx w : wf w -> 0 <= idx < used_lrs (vctx w v) ->
  fine me v (fun k => lr_valid (lr_at (lr (vctx w v)) idx) -> lr_vintid (lr_at (lr (vctx w v)) idx) <> k) w (set_ctx v (remove_lr idx (vctx w v)) w).
Proof.
  intros Hw Hi. destruct (remove_slot_ok me v idx w Hw Hi) as (H1 & H2 & H3). split; [done|]. intros k Hk Hc. split; [by apply keeps_settles, H3|].
  by apply clean_remove.
Qed.
#[export] Hint Resolve fine_refl fine_set_pending fine_set_active fine_mask : vgic.

(** ** Ends of interrupts that the hardware reports *)
Lemma eisr_bits r i : 0 <= i < ARM64_VGIC_MAX_LRS -> (Z.land (read_ich_eisr_el2 r) (Z.shiftl 1 i) =? 0) = negb (lr_eoi (lr_at (ich_lr r) i)).
Proof.
  intros Hi. rewrite Z.shiftl_1_l, land_pow2 by lia. f_equal. unfold read_ich_eisr_el2.
  assert (forall n e, 0 <= n -> Z.testbit (foldl (fun e i => if lr_eoi (lr_at (ich_lr r) i) then Z.lor e (Z.shiftl 1 i) else e) e (seqZ 0 n)) i =
    Z.testbit e i || (i <? n) && lr_eoi (lr_at (ich_lr r) i)) as H.
  { intros n e Hn. revert e. pattern n. apply natlike_ind; [..|done].
    - intros e. change (seqZ 0 0) with (@nil Z). cbn [foldl]. rewrite (proj2 (Z.ltb_ge i 0)) by lia. by rewrite orb_false_r.
    - intros m Hm IH e. rewrite <- Z.add_1_r, seqZ_snoc, foldl_app by done. cbn [foldl].
      destruct (Z.ltb_spec i (m + 1)); destruct (lr_eoi (lr_at (ich_lr r) m)) eqn:Em; rewrite ?Z.shiftl_1_l, ?lor_pow2, IH by lia;
        destruct (Z.ltb_spec i m), (Z.eqb_spec m i); subst; rewrite ?Em, ?orb_false_r, ?orb_true_r; cbn; rewrite ?orb_false_r, ?orb_true_r; done || lia. }
  rewrite H, Z.bits_0 by done. by rewrite (proj2 (Z.ltb_lt i _) (proj2 Hi)).
Qed.

Section Eoi.
  Context (q me v eoi : Z) (hw old : list Z) (old_used : Z).
Let ended (i : Z) : Prop := Z.land eoi (Z.shiftl 1 i) <> 0.
  Context (Heoi : forall i, 0 <= i -> ended i -> ~ lr_valid (lr_at hw i)).

(** The interrupts whose end is not reported. *)
Definition not_ended (k : Z) : Prop := forall i, 0 <= i < old_used -> ended i -> lr_valid (lr_at old i) -> lr_vintid (lr_at old i) <> k.

Definition unread (n : Z) (w : vgic_world) : Prop := forall i, 0 <= i < n -> i < used_lrs (vctx w v) -> lr_at (lr (vctx w v)) i = lr_at hw i.

Lemma complete_eoi_lr_fine i w : wf w -> 0 <= i -> unread (i + 1) w ->
  fine q v not_ended w (complete_eoi_lr me v eoi old old_used w i) /\ unread i (complete_eoi_lr me v eoi old old_used w i).
Proof.
  intros Hw Hi Hun. unfold complete_eoi_lr. cbv zeta.
  assert (unread i w) as Hun' by (intros j Hj; apply Hun; lia).
  destruct (Z.eqb_spec (Z.land eoi (Z.shiftl 1 i)) 0) as [|He]; [by eauto with vgic|]. pose proof (Heoi i Hi He) as Hhw. unfold lr_valid in Hhw.
  assert (i < used_lrs (vctx w v) -> ~ lr_valid (lr_at (lr (vctx w v)) i)) as Hslot by (intros Hlt; rewrite (Hun i) by lia; done).
  set (l0 := if i <? used_lrs (vctx w v) then lr_at (lr (vctx w v)) i else 0).
  assert (lr_state l0 =? ICH_LR_STATE_INVALID = true) as E0.
  { unfold l0. destruct (Z.ltb_spec i (used_lrs (vctx w v))); [|done]. rewrite (Hun i) by lia. apply Z.eqb_eq. by apply dec_stable. }
  rewrite E0. cbn [andb]. set (l := if i <? old_used then lr_at old i else l0).
  destruct (Z.eqb_spec (lr_state l) ICH_LR_STATE_INVALID) as [|Hv]; [by eauto with vgic|].
  assert (forall k, not_ended k -> k <> lr_vintid l) as Hne.
  { intros k Hk. unfold l in *. destruct (Z.ltb_spec i old_used); [|by rewrite (proj1 (Z.eqb_eq _ _) E0) in Hv]. intros ->. apply (Hk i); try done; lia. }
  set (w1 := if vgic_irq_desc w v (lr_vintid l) then _ else w).
  assert (fine q v not_ended w w1 /\ vctx w1 = vctx w) as [Hf1 Ev].
  { unfold w1. destruct (vgic_irq_desc w v (lr_vintid l)); [|by auto with vgic]. set (b := if _ && _ then cntv_line w v else _). split.
    - eapply fine_trans; [eapply fine_weaken; [apply Hne|apply fine_set_pending; auto with vgic]|]. intros Hw1.
      eapply fine_trans; [by apply fine_set_active|]. intros Hw2. case_match; auto with vgic.
    - case_match; autorewrite with vgic; done. }
  rewrite Ev. destruct (Z.ltb_spec i (used_lrs (vctx w v))) as [Hlt|]; [|split; [done|]; unfold unread; by rewrite Ev].
  split.
  - eapply fine_trans; [done|]. intros Hw1. rewrite <- Ev in *. eapply fine_weaken; [|apply fine_remove; [done|lia]]. intros k _ Hv1. by destruct (Hslot Hlt).
  - intros j Hj. rewrite vctx_set_ctx, <- Ev. destruct (remove_slot_ok me v i w1 (proj1 (proj1 Hf1))) as (_ & Hu & _); [rewrite Ev; lia|].
    rewrite vctx_set_ctx in Hu. rewrite Hu. intros Hlt'. rewrite remove_lr_slots by (rewrite ?Ev in *; try apply (ctx_len w v Hw); lia).
    rewrite (proj2 (Z.eqb_neq j i)), Ev by lia. apply Hun; rewrite ?Ev in *; lia.
Qed.

Lemma complete_eoi_lrs_fine n w : wf w -> 0 <= n -> unread n w ->
  fine q v not_ended w (foldl (complete_eoi_lr me v eoi old old_used) w (reverse (seqZ 0 n))).
Proof.
  intros Hw Hn. revert w Hw. pattern n. apply natlike_ind; [..|done].
  - intros w Hw _. by apply fine_refl.
  - intros m Hm IH w Hw Hun. rewrite <- Z.add_1_r, seqZ_snoc, reverse_app by done. cbn [reverse rev_append app foldl].
    destruct (complete_eoi_lr_fine m w Hw Hm) as [Hf Hun']; [by rewrite Z.add_1_r|].
    eapply fine_trans; [done|]. intros Hw'. by apply IH.
Qed.
End Eoi.

(** ** LRs that the hardware no longer holds *)
Lemma hw_shape_set n l i x : hw_shape n l -> 0 <= i < n -> n <= ARM64_VGIC_MAX_LRS -> hw_shape n (<[Z.to_nat i := x]> l).
Proof.
  intros [H1 H2] Hi Hn. split; [by rewrite length_insert|]. intros j Hj. rewrite lr_at_set by (rewrite ?H1; unfold ARM64_VGIC_MAX_LRS in *; lia).
  rewrite (proj2 (Z.eqb_neq j i)) by lia. by apply H2.
Qed.

Lemma write_hcr_fine me v x w (C : Z -> Prop) : wf w -> fine me v C w (write_ich_hcr_el2 me x w).
Proof. intros Hw. destruct (write_hcr_ok me v x w Hw) as [H1 H2]. apply fine_same; [done..|]. intros k _. by apply keeps_settles. Qed.
Lemma set_hcr_fine me v x w (C : Z -> Prop) : wf w -> fine me v C w (set_ctx v ((vctx w v) <| hcr := x |>) w).
Proof.
  intros Hw. destruct (set_hcr_ok me v x w Hw) as [H1 H2]. apply fine_same; [done|by rewrite vctx_set_ctx..|]. intros k _. by apply keeps_settles.
Qed.
#[export] Hint Resolve write_hcr_fine set_hcr_fine : vgic.

Lemma requeue_fine q me v k loaded w : (loaded = true -> q = me) -> wf w -> has_irq (its_enabled (vgic w)) k -> fine q v (fun j => j <> k) w (vgicv3_requeue_lr me v k loaded w).
Proof.
  intros Hq Hw Hk. unfold vgicv3_requeue_lr. cbv zeta. fold (irq_of w v k).
  destruct (pending (irq_of w v k)) eqn:Ep; cbn [negb orb]; [|by apply fine_refl].
  destruct (vgic_irq_deliverable w v k); cbn [negb orb]; [|by apply fine_refl].
  destruct (Z.leb_spec 0 (find_lr_for_virq (vctx w v) k)) as [|Hno]; [by apply fine_refl|].
  destruct (Z.leb_spec (lr_count (vgic w)) (used_lrs (vctx w v))) as [|Hlt].
  - eapply fine_trans; [by apply set_hcr_fine|]. intros Hw1. destruct loaded; [rewrite (Hq eq_refl)|]; auto with vgic.
  - destruct (append_ok q v k w Hw Hk Ep (ctx_no_find _ k Hno) Hlt) as (H1 & H2 & H3 & H4).
    eapply fine_trans; [split; [done|]; intros j Hj Hc; split; [by apply keeps_settles, H4|apply clean_append; try done]|].
    { unfold make_lr. rewrite Ep. by apply (make_lr_ok w v k true _ Hw (has_irq_small _ _ Hk)). }
    intros Hw1. destruct loaded; [|by apply fine_refl]. rewrite (Hq eq_refl). pose proof (proj1 (proj2 (wf_ctx w Hw v))).
    eapply fine_trans; [|intros Hw2; apply write_hcr_fine; done]. apply fine_same; [|done..]. split; [|apply frame_set_cpuif].
    apply wf_set_cpuif; [done|]. cbn. apply hw_shape_set; [apply (wf_hw w Hw me)|lia|apply (wf_count w Hw)].
Qed.

Lemma desc_timer w : has_irq (its_enabled (vgic w)) ARM64_GIC_PPI_VIRTUAL_TIMER.
Proof. left. done. Qed.

(** Each step concerns one old LR: its interrupt, when it is not the timer, has its
    pending state decided anew unless the hardware still holds it. *)
Lemma sync_old_lr_fine q me v loaded eoi old w idx : (loaded = true -> q = me) -> wf w ->
  fine q v (fun k => lr_valid (lr_at old idx) -> lr_vintid (lr_at old idx) = k -> lr_w w v k <> None) w (sync_old_lr me v loaded eoi old w idx).
Proof.
  intros Hq Hw. unfold sync_old_lr. cbv zeta. set (l := lr_at old idx). set (k := lr_vintid l).
  destruct (Z.eqb_spec (lr_state l) ICH_LR_STATE_INVALID) as [|Hv]; cbn [orb]; [by apply fine_refl|].
  destruct (Z.leb_spec 0 (find_lr_for_virq (vctx w v) k)) as [|Hno]; cbn [orb]; [by apply fine_refl|].
  destruct (vgic_irq_desc w v k) eqn:Ed; cbn [negb]; [|by apply fine_refl].
  apply (fine_weaken _ _ (fun j => j <> k)). { intros j Hj ->. by apply (Hj Hv eq_refl), ctx_no_find. }
  pose proof (vintid_nonneg l) as Hk. assert (has_irq (its_enabled (vgic w)) k) as Hirq by (by apply (desc_irq w v)).
  set (sampled := loaded && level _ && _ && _ && _). set (asserted := sampled && _). set (ql := level _ && pending _).
  set (w1 := if sampled then if asserted then _ else _ else if ql then w else _). apply (fine_trans _ _ _ _ w1).
  - unfold w1. clearbody asserted. destruct sampled; [|destruct ql; auto with vgic]. destruct asserted; [|by apply fine_set_pending].
    eapply fine_trans; [by apply (fine_set_pending _ _ _ true)|]. intros Hw1. apply requeue_fine; [done..|]. by rewrite (fr_its _ _ _ _ (frame_set_pending 0 v k _ w)).
  - intros Hw1. eapply fine_trans; [by apply fine_set_active|]. intros Hw2. case_match; auto with vgic.
Qed.

Lemma sync_old_fine q me v loaded eoi old n w : (loaded = true -> q = me) -> wf w -> 0 <= n ->
  fine q v (fun k => forall i, 0 <= i < n -> lr_valid (lr_at old i) -> lr_vintid (lr_at old i) = k -> lr_w w v k <> None) w
    (foldl (sync_old_lr me v loaded eoi old) w (seqZ 0 n)).
Proof.
  intros Hq Hw Hn. pattern n. apply natlike_ind; [by apply fine_refl|..|done].
  intros m Hm IH. rewrite <- Z.add_1_r, seqZ_snoc, foldl_app by done. cbn [foldl].
  set (w1 := foldl _ w _) in *. destruct IH as [H1 G1]. destruct (sync_old_lr_fine q me v loaded eoi old w1 m Hq (proj1 H1)) as [H2 G2].
  split; [by apply (ok_step_trans _ _ _ w1)|]. intros k Hk Hc. destruct (G1 k) as [S1 C1]; [intros i Hi; apply Hk; lia|done|].
  destruct (G2 k) as [S2 C2]; [|done|split; [by transitivity w1|done]]. rewrite (proj1 S1). apply Hk. lia.
Qed.

(** ** LRs in use *)
Definition not_timer (k : Z) : Prop := k <> ARM64_GIC_PPI_VIRTUAL_TIMER.

Lemma slot_lr w v idx : wf w -> 0 <= idx < used_lrs (vctx w v) -> lr_valid (lr_at (lr (vctx w v)) idx) ->
  lr_w w v (lr_vintid (lr_at (lr (vctx w v)) idx)) = Some (lr_at (lr (vctx w v)) idx).
Proof. intros Hw Hi Hv. apply (lr_of_some _ _ _ (proj1 (wf_ctx w Hw v))). exists idx. split_and!; [lia|done..]. Qed.

Lemma consume_fine me v idx w : wf w -> 0 <= idx < used_lrs (vctx w v) ->
  let l := lr_at (lr (vctx w v)) idx in let k := lr_vintid l in let d := irq_of w v k in
  negb (level d) && lr_active l && negb (lr_pending l) = false ->
  fine me v not_timer w (set_active v k (lr_active l)
    (if negb (level d) && (lr_pending l || negb (lr_active l) || negb (pending d)) then vgic_set_pending v k false w else w)).
Proof.
  intros Hw Hi l k d Hbr. eapply fine_trans; [|intros Hw1; by apply fine_set_active].
  destruct (negb (level d)) eqn:El; cbn [andb] in *; [|by apply fine_refl]. case_match; [|by apply fine_refl].
  destruct (fine_set_pending me v k false w (vintid_nonneg l) Hw) as [H1 H2]. split; [done|]. intros j Hj Hc.
  destruct (decide (j = k)) as [->|]; [|by apply H2]. split; [|apply (clean_ctx w); try done; by rewrite vctx_set_pending].
  apply settles_consume. pose proof (Hc idx Hi eq_refl) as Hv. unfold k, l. rewrite slot_lr by done. cbn. fold l.
  apply lr_valid_flags in Hv as [|Ha]; [done|]. fold l in Ha. rewrite Ha in Hbr. cbn in Hbr. by apply negb_false_iff in Hbr.
Qed.

Lemma fine_remove_at me v idx w (C : Z -> Prop) : wf w -> 0 <= idx < used_lrs (vctx w v) ->
  (lr_valid (lr_at (lr (vctx w v)) idx) -> forall k, C k -> lr_vintid (lr_at (lr (vctx w v)) idx) <> k) -> fine me v C w (set_ctx v (remove_lr idx (vctx w v)) w).
Proof. intros Hw Hi H. eapply fine_weaken; [|by apply fine_remove]. intros k Hk Hv. by apply H. Qed.

Lemma complete_timer_lr_fine q me v idx w w' : wf w -> 0 <= idx < used_lrs (vctx w v) ->
  lr_vintid (lr_at (lr (vctx w v)) idx) = ARM64_GIC_PPI_VIRTUAL_TIMER ->
  vgicv3_complete_timer_lr me v ARM64_GIC_PPI_VIRTUAL_TIMER idx w = Some w' ->
  fine q v not_timer w w' /\ used_lrs (vctx w' v) = used_lrs (vctx w v) - 1.
Proof.
  intros Hw Hi Hk. unfold vgicv3_complete_timer_lr. case_match; [done|]. cbv zeta. intros [= <-].
  autorewrite with vgic. split.
  - eapply fine_trans; [by apply fine_set_active|]. intros Hw1. eapply fine_trans; [by apply fine_set_pending|]. intros Hw2.
    eapply fine_trans; [apply fine_remove_at; [done|..]; autorewrite with vgic; [done|by intros _ j Hj <-]|]. intros Hw3. by apply fine_mask.
  - by apply (remove_lr_ok _ _ (proj2 (wf_count w Hw)) _ (wf_ctx w Hw v)).
Qed.

Lemma sync_lrs_fine fuel : forall q me v loaded idx w, wf w -> 0 <= idx -> fine q v not_timer w (sync_lrs fuel me v loaded idx w).
Proof.
  induction fuel as [|fuel IH]; intros q me v loaded idx w Hw Hi; cbn [sync_lrs]; [by apply fine_refl|].
  destruct (Z.ltb_spec idx (used_lrs (vctx w v))) as [Hlt|]; [|by apply fine_refl]. cbv zeta.
  set (l := lr_at (lr (vctx w v)) idx). set (k := lr_vintid l). fold (irq_of w v k). set (d := irq_of w v k).
  assert (forall w', wf w' -> vctx w' = vctx w -> fine q v not_timer w' (if lr_state l =? ICH_LR_STATE_INVALID
            then sync_lrs fuel me v loaded idx (set_ctx v (remove_lr idx (vctx w' v)) w') else sync_lrs fuel me v loaded (idx + 1) w')) as Hfin.
  { intros w' Hw' E. destruct (Z.eqb_spec (lr_state l) ICH_LR_STATE_INVALID) as [Hinv|]; [|apply IH; [done|lia]].
    eapply fine_trans; [apply fine_remove_at; [done|..]; rewrite E; [done|by intros Hv]|]. intros Hw2. by apply IH. }
  destruct (vgic_irq_desc w v k); [|by apply Hfin].
  set (timer := loaded && level d && vgic_is_vtimer_irq k).
  assert (timer = true -> k = ARM64_GIC_PPI_VIRTUAL_TIMER) as Ht by (intros Ht; unfold timer in Ht; apply andb_prop in Ht as [_ Ht]; by apply Z.eqb_eq).
  destruct (negb (level d) && lr_active l && negb (lr_pending l)) eqn:Ebr.
  { eapply fine_trans; [by apply fine_set_active|]. intros Hw1. apply IH; [done|lia]. }
  match goal with |- fine _ _ _ _ (if _ then _ else ?r) => set (rest := r) end.
  assert (fine q v not_timer w rest) as Hrest.
  { unfold rest. destruct (timer && lr_pending l && negb (lr_active l)) eqn:Er.
    - apply andb_prop in Er as [Er _]. apply andb_prop in Er as [Er _]. specialize (Ht Er).
      eapply fine_trans; [eapply fine_weaken; [|by apply (fine_set_pending q v k (cntv_line w v)); [apply vintid_nonneg|]]; intros j Hj; by rewrite Ht|].
      intros Hw1. eapply fine_trans; [by apply (fine_set_active _ _ k false)|]. intros Hw2.
      eapply fine_trans; [by apply (fine_mask q me v (cntv_line w v))|]. intros Hw3. destruct (cntv_line w v); [apply IH; [done|lia]|].
      eapply fine_trans; [apply fine_remove_at; [done|..]; autorewrite with vgic; [done|]|intros Hw4; by apply IH].
      intros _ j Hj. fold l k. rewrite Ht. by apply not_eq_sym.
    - eapply fine_trans; [by apply (consume_fine q v idx w Hw); [lia|]|]. intros Hw1. apply Hfin; [done|]. rewrite vctx_set_active. lazymatch goal with |- vctx (if ?b then _ else _) = _ => destruct b end; [apply vctx_set_pending|done]. }
  destruct (timer && lr_active l) eqn:Et; [|done]. apply andb_prop in Et as [Et _]. specialize (Ht Et).
  destruct (vgicv3_complete_timer_lr me v k idx w) as [w'|] eqn:Ec; [|done]. rewrite Ht in Ec.
  destruct (complete_timer_lr_fine q me v idx w w' Hw) as [Hf _]; [done..|]. eapply fine_trans; [done|]. intros Hw1. by apply IH.
Qed.

(** Each turn of the loop frees a slot or moves on, so as many turns as there are
    LRs in use are enough. *)
Lemma used_remove v idx w : idx < used_lrs (vctx w v) -> used_lrs (vctx (set_ctx v (remove_lr idx (vctx w v)) w) v) = used_lrs (vctx w v) - 1.
Proof. intros H. rewrite vctx_set_ctx. unfold remove_lr. by rewrite (proj2 (Z.ltb_lt _ _) H). Qed.

Lemma complete_timer_used me v k idx w w' : idx < used_lrs (vctx w v) -> vgicv3_complete_timer_lr me v k idx w = Some w' ->
  used_lrs (vctx w' v) = used_lrs (vctx w v) - 1.
Proof.
  intros H. unfold vgicv3_complete_timer_lr. case_match; [done|]. cbv zeta. intros [= <-]. rewrite vctx_mask, used_remove; autorewrite with vgic; done.
Qed.

Lemma sync_lrs_fuel fuel : forall fuel' me v loaded idx w, used_lrs (vctx w v) - idx <= Z.of_nat fuel -> (fuel <= fuel')%nat ->
  sync_lrs fuel' me v loaded idx w = sync_lrs fuel me v loaded idx w.
Proof.
  induction fuel as [|fuel IH]; intros fuel' me v loaded idx w Hf Hle.
  { destruct fuel'; [done|]. cbn [sync_lrs]. by rewrite (proj2 (Z.ltb_ge _ _)) by lia. }
  destruct fuel' as [|fuel']; [lia|]. cbn [sync_lrs]. destruct (Z.ltb_spec idx (used_lrs (vctx w v))) as [Hlt|]; [|done]. cbv zeta.
  set (l := lr_at (lr (vctx w v)) idx). set (k := lr_vintid l).
  assert (forall w', vctx w' = vctx w -> sync_lrs fuel' me v loaded (idx + 1) w' = sync_lrs fuel me v loaded (idx + 1) w') as Hnext
    by (intros w' E; apply IH; [rewrite E|]; lia).
  assert (forall w', vctx w' = vctx w -> sync_lrs fuel' me v loaded idx (set_ctx v (remove_lr idx (vctx w' v)) w') =
            sync_lrs fuel me v loaded idx (set_ctx v (remove_lr idx (vctx w' v)) w')) as Hagain
    by (intros w' E; apply IH; [rewrite used_remove; rewrite E|]; lia).
  destruct (vgic_irq_desc w v k); [|case_match; auto].
  destruct (negb (level (irq (vgic w) v k)) && lr_active l && negb (lr_pending l)); [by apply Hnext|].
  assert (forall w', vctx w' = vctx w -> vctx (set_active v k (lr_active l)
            (if negb (level (irq (vgic w) v k)) && (lr_pending l || negb (lr_active l) || negb (pending (irq (vgic w) v k))) then vgic_set_pending v k false w' else w')) = vctx w) as Hc
    by (intros w' E; rewrite vctx_set_active; case_match; [by rewrite vctx_set_pending|done]).
  destruct (loaded && level (irq (vgic w) v k) && vgic_is_vtimer_irq k && lr_active l).
  1: destruct (vgicv3_complete_timer_lr me v k idx w) as [w'|] eqn:Ec;
       [apply complete_timer_used in Ec; [|done]; apply IH; lia|].
  all: destruct (loaded && level (irq (vgic w) v k) && vgic_is_vtimer_irq k && lr_pending l && negb (lr_active l));
    [destruct (cntv_line w v); [apply Hnext|apply Hagain]; by autorewrite with vgic|destruct (lr_state l =? ICH_LR_STATE_INVALID); [apply Hagain|apply Hnext]; by apply Hc].
Qed.

(** ** Sync *)
Definition live (w : vgic_world) (me v : Z) (cur : bool) : bool := cur || vgicv3_vcpu_is_loaded w me v.
(** The LR that counts: of the hardware while the vCPU is loaded. *)
Definition res_lr (w : vgic_world) (me v : Z) (cur : bool) (k : Z) : option Z := if live w me v cur then hw_lr w me k else lr_w w v k.

(** The guest has not completed [k] since its LRs were last looked at: the LR that
    the context has for [k] is still in its place, and no free slot names [k]. *)
Definition undisturbed (w : vgic_world) (me v : Z) (cur : bool) (k : Z) : Prop :=
  if live w me v cur then
    (forall i, 0 <= i < used_lrs (vctx w v) -> let x := lr_at (lr (vctx w v)) i in let y := lr_at (ich_lr (cpuif w me)) i in
       lr_valid x -> lr_vintid x = k -> lr_valid y /\ lr_vintid y = k) /\
    (forall i j, 0 <= i <= j -> lr_valid (lr_at (ich_lr (cpuif w me)) j) -> lr_vintid (lr_at (ich_lr (cpuif w me)) i) = k ->
       lr_valid (lr_at (ich_lr (cpuif w me)) i))
  else clean w v k.

Section Sync.
  Context (q me v : Z) (cur : bool) (w : vgic_world) (Hq : live w me v cur = true -> q = me) (Hw : wf w) (Hhw : live w me v cur = true -> hw_ok w me).

(** After the LRs and the control registers are read. *)
Let w1 := vgicv3_read_loaded_lrs me v cur w.
Let clear := not64 (Z.lor ICH_HCR_EOICOUNT_MASK ICH_HCR_TC).
Let hcr1 := ich_hcr (cpuif w1 me).
Let w2 :=
  if live w me v cur then
    let w := vgicv3_sync_live_cpuif me v w1 in
    if negb (Z.land hcr1 ICH_HCR_EOICOUNT_MASK =? 0) then
      let c := (vctx w v) <| hcr := Z.land hcr1 clear |> in
      write_ich_hcr_el2 me (vgicv3_control_hcr (hcr c)) (set_ctx v c w)
    else set_ctx v ((vctx w v) <| hcr := Z.land (hcr (vctx w v)) clear |>) w
  else w1.

Lemma sync_read : ok_step q v w w1 /\ cpuif w1 = cpuif w /\ (forall k, irq_of w1 v k = irq_of w v k) /\ (forall k, lr_w w1 v k = res_lr w me v cur k) /\
  (live w me v cur = true -> unread v (ich_lr (cpuif w me)) (lr_count (vgic w)) w1) /\
  (forall k, undisturbed w me v cur k -> clean w1 v k).
Proof.
  unfold w1, vgicv3_read_loaded_lrs, res_lr, undisturbed. fold (live w me v cur). destruct (live w me v cur) eqn:El; [|by split_and!; try done; split].
  destruct (read_lrs_ok q me v w Hw (Hhw eq_refl)) as ([H1 H1'] & H2 & H3 & _ & H4 & H5 & H6). cbv zeta in *.
  split_and!; try done.
  - intros _ i Hi Hlt. apply H4. lia.
  - intros k [_ Hc] i Hi. rewrite H4 by lia. intros Hk. destruct (H5 i Hi) as (j & Hj & Hv). apply (Hc i j); [lia|done..].
Qed.

Lemma sync_regs (C : Z -> Prop) : fine q v C w1 w2 /\ lr (vctx w2 v) = lr (vctx w1 v) /\ used_lrs (vctx w2 v) = used_lrs (vctx w1 v).
Proof.
  destruct sync_read as ([Hw1 _] & _). unfold w2. destruct (live w me v cur); [|by auto with vgic]. cbv zeta. specialize (Hq eq_refl).
  destruct (sync_live_ok q me v w1 Hw1) as (H1 & H2 & _ & _ & H3 & H4 & _). cbv zeta in *. set (w' := vgicv3_sync_live_cpuif me v w1) in *.
  assert (fine q v C w1 w') as Hf by (apply fine_same; [done..|]; intros k _; apply keeps_settles, H2).
  destruct (negb _); rewrite ?vctx_set_ctx; (split; [eapply fine_trans; [exact Hf|]; intros Hw'|]).
  - eapply fine_trans; [by apply set_hcr_fine|]. intros Hw''. rewrite Hq. by apply write_hcr_fine.
  - cbn. rewrite upd_eq. done.
  - by apply set_hcr_fine.
  - done.
Qed.

(** After the ends of interrupts are handled, and the LRs that are gone. *)
Let C (k : Z) : Prop := not_timer k /\ undisturbed w me v cur k.
Let eoi := if live w me v cur then read_ich_eisr_el2 (cpuif w1 me) else 0.
Let w3 := if (Z.land (vmcr (vctx w2 v)) ICH_VMCR_EOIM =? 0) && negb (eoi =? 0)
          then vgicv3_complete_eoi_lrs me v eoi (lr (vctx w v)) (used_lrs (vctx w v)) w2 else w2.
Let w4 := foldl (sync_old_lr me v (live w me v cur) eoi (lr (vctx w v))) w3 (seqZ 0 (used_lrs (vctx w v))).

Lemma sync_eoi : fine q v C w1 w3.
Proof.
  destruct sync_read as ([Hw1 Hf1] & Ecp & _ & _ & Hun & _). destruct (sync_regs C) as (H12 & El & Eu). apply (fine_trans _ _ _ _ w2); [done|]. intros Hw2. unfold w3.
  destruct (_ && _) eqn:Ec; [|by apply fine_refl]. apply andb_prop in Ec as [_ Ec]. revert Ec. unfold eoi.
  destruct (live w me v cur) eqn:Elv; [|done]. intros _. rewrite Ecp. unfold vgicv3_complete_eoi_lrs.
  assert (forall i, 0 <= i -> Z.land (read_ich_eisr_el2 (cpuif w me)) (Z.shiftl 1 i) <> 0 -> ~ lr_valid (lr_at (ich_lr (cpuif w me)) i)) as He.
  { intros i Hi Hb Hv. assert (i < lr_count (vgic w)) as Hlt by (by apply (lo_used _ _ _ (Hhw eq_refl) i)). pose proof (wf_count w Hw).
    apply Z.eqb_neq in Hb. rewrite eisr_bits in Hb by lia. apply negb_false_iff in Hb. unfold lr_eoi in Hb. apply andb_prop in Hb as [Hb _].
    apply andb_prop in Hb as [Hb _]. by apply Hv, Z.eqb_eq. }
  eapply fine_weaken; [|apply (complete_eoi_lrs_fine q me v _ (ich_lr (cpuif w me)) _ _ He); [done|..]].
  - intros k [_ Hu] i Hi Hb Hv Hk. unfold undisturbed in Hu. rewrite Elv in Hu. apply (He i); [lia|done|]. by apply Hu.
  - rewrite lr_slots_count by done. apply (wf_count w2 Hw2).
  - intros i Hi Hlt. rewrite El, Eu, lr_slots_count in * by done. apply Hun; [done|..|done].
    rewrite (fr_count _ _ _ _ (proj2 (proj1 H12))), (fr_count _ _ _ _ Hf1) in Hi. done.
Qed.

Lemma sync_gone : fine q v C w1 w4.
Proof.
  destruct sync_read as (_ & _ & _ & Hlr & _ & Hcl). pose proof sync_eoi as H3. apply (fine_trans _ _ _ _ w3); [done|]. intros Hw3.
  destruct (wf_ctx w Hw v) as [Hl [Hu _]]. eapply fine_weaken; [|by apply sync_old_fine]. intros k [Ht Hk] i Hi Hv E.
  destruct H3 as [_ H3]. destruct (H3 k) as [(-> & _) _]; [by split|by apply Hcl|]. rewrite Hlr. unfold res_lr, undisturbed in *.
  destruct (live w me v cur).
  - destruct Hk as [Hk _]. destruct (Hk i Hi Hv E) as [Hv' E']. intros Hn. unfold hw_lr in Hn.
    rewrite (lr_of_none _ _ _ (Hhw eq_refl)) in Hn. apply (Hn i (lr_at (ich_lr (cpuif w me)) i)). split_and!; done || lia.
  - rewrite <- E, slot_lr by done. done.
Qed.

Let w5 := sync_lrs (Z.to_nat (used_lrs (vctx w4 v))) me v (live w me v cur) 0 w4.
Let timer := ARM64_GIC_PPI_VIRTUAL_TIMER.
Let w6 := if live w me v cur && vgic_irq_desc w5 v timer && level (irq (vgic w5) v timer) && pending (irq (vgic w5) v timer)
          then vgicv3_requeue_lr me v timer true w5 else w5.

Lemma sync_unfold : vgicv3_sync_vcpu me v cur w = if negb cur && vgicv3_vcpu_is_running_remote w me v then w else w6.
Proof. reflexivity. Qed.

Lemma sync_all : fine q v C w1 w6.
Proof.
  apply (fine_trans _ _ _ _ w4); [apply sync_gone|]. intros Hw4. apply (fine_trans _ _ _ _ w5).
  - eapply fine_weaken; [|apply sync_lrs_fine; [done|lia]]. by intros k [Ht _].
  - intros Hw5. unfold w6. destruct (_ && pending _) eqn:Ec; [|by apply fine_refl]. repeat (apply andb_prop in Ec as [Ec _]).
    eapply fine_weaken; [|apply requeue_fine; [intros _; by apply Hq|done|apply desc_timer]]. by intros k [Ht _].
Qed.

(** [vgicv3_sync_vcpu]: the invariant is kept, nothing else is touched, and an
    interrupt that the guest did not complete is owed exactly as before. *)
Lemma sync_vcpu_spec : let w' := vgicv3_sync_vcpu me v cur w in
  ok_step q v w w' /\
  (cur = true \/ vgicv3_vcpu_is_running_remote w me v = false -> forall k, not_timer k -> undisturbed w me v cur k ->
     lr_w w' v k = res_lr w me v cur k /\ level (irq_of w' v k) = level (irq_of w v k) /\
     owed w' v k = pending (irq_of w v k) || opt_pending (res_lr w me v cur k) /\ (pending (irq_of w' v k) = true -> pending (irq_of w v k) = true)).
Proof.
  cbv zeta. rewrite sync_unfold. destruct (negb cur && vgicv3_vcpu_is_running_remote w me v) eqn:Er.
  { apply andb_prop in Er as [Ec Er]. split; [by split|]. intros [->|E]; [done|congruence]. }
  destruct sync_read as (H1 & _ & Hi & Hlr & _ & Hcl), sync_all as [H6 G6]. split; [by apply (ok_step_trans _ _ _ w1)|].
  intros _ k Ht Hu. destruct (G6 k) as [(E1 & E2 & E3 & E4) _]; [by split|by apply Hcl|]. unfold owed in E3 at 2.
  rewrite E1, E2, E3, Hlr, Hi in *. done.
Qed.
End Sync.

(** The CPU interface is only touched for a vCPU that is loaded. *)
Lemma sync_cpuif me v cur w : wf w -> live w me v cur = false -> cpuif (vgicv3_sync_vcpu me v cur w) me = cpuif w me.
Proof.
  intros Hw Hl. destruct (sync_vcpu_spec (me + 1) me v cur w) as [[_ Hf] _]; [by rewrite Hl|done|by rewrite Hl|].
  apply (fr_cpuif _ _ _ _ Hf). lia.
Qed.
