(* ===== verification/VgicFlush.v ===== *)
(** * Filling the list registers

    [vgicv3_flush_vcpu] puts every pending and deliverable interrupt into an LR, or
    fills all LRs and asks for the underflow interrupt; nothing owed to the guest
    gets lost.  The loops over the pending bitmap visit every set bit. *)
From S2P Require Import Prelude Bits Vgic VgicInv VgicFlow.

(** ** Loops that a break leaves *)
Section Loops.
  Context {A : Type} (R : A -> A -> Prop) `{!PreOrder R} (I Q : A -> Prop) (P : Z -> A -> Prop) (f : Z -> A -> A * bool).
  Context (Hstable : forall b a a', R a a' -> P b a -> P b a').

Lemma for_break_spec l : (forall x a, x ∈ l -> I a -> R a (f x a).1 /\ I (f x a).1 /\ if (f x a).2 then Q (f x a).1 else P x (f x a).1) ->
  forall a, I a -> let r := for_break f l a in R a r.1 /\ I r.1 /\ if r.2 then Q r.1 else forall x, x ∈ l -> P x r.1.
Proof.
  induction l as [|x l IH]; intros Hf a Ha; cbn [for_break]; [split_and!; try done; intros x Hx; inversion Hx|].
  destruct (Hf x a) as (HR & HI & HP); [left|done|]. destruct (f x a) as [a' stop]. cbn in *. destruct stop; [done|].
  destruct (IH (fun y b Hy => Hf y b (list_elem_of_further _ _ _ Hy)) a' HI) as (HR' & HI' & HP'). cbn in *. split_and!; [by transitivity a'|done|].
  case_match; [done|]. intros y Hy. apply elem_of_cons in Hy as [->|Hy]; [by apply (Hstable x a')|by apply HP'].
Qed.

Lemma while_bits_from fuel : forall bits m a, in_u32 bits -> 0 <= m -> 32 - m <= Z.of_nat fuel -> (forall b, 0 <= b < m -> Z.testbit bits b = false) ->
  (forall b a, 0 <= b < 32 -> Z.testbit bits b = true -> I a -> R a (f b a).1 /\ I (f b a).1 /\ if (f b a).2 then Q (f b a).1 else P b (f b a).1) ->
  I a -> let r := while_bits fuel f bits a in R a r.1 /\ I r.1 /\ if r.2 then Q r.1 else forall b, 0 <= b < 32 -> Z.testbit bits b = true -> P b r.1.
Proof.
  induction fuel as [|fuel IH]; intros bits m a Hb Hm Hfuel Hlow Hf Ha; cbn [while_bits].
  { split_and!; try done. intros b Hb32 Hbit. rewrite Hlow in Hbit by lia. done. }
  destruct (Z.eqb_spec bits 0) as [->|Hne]; [split_and!; try done; intros b _ Hx; by rewrite Z.bits_0 in Hx|].
  pose proof (proj1 (in_u32_bits bits) Hb) as [H0 Hhigh].
  destruct (ffs_from_spec bits 64 0) as [[_ Hz]|(Hr & Hset & Hmin)]; fold (ffs64 bits) in *.
  { destruct Hne. apply Z.bits_inj'. intros j Hj. rewrite Z.bits_0. destruct (Z.lt_ge_cases j 32); [apply Hz|apply Hhigh]; lia. }
  set (bit := ffs64 bits) in *. clearbody bit. assert (bit < 32) by (destruct (Z.lt_ge_cases bit 32); [done|rewrite Hhigh in Hset; done || lia]).
  assert (m <= bit) by (destruct (Z.lt_ge_cases bit m); [rewrite Hlow in Hset; done || lia|done]).
  destruct (Hf bit a) as (HR & HI & HP); [lia|done..|]. destruct (f bit a) as [a' stop]. cbn in *. destruct stop; [done|].
  assert (forall j, 0 <= j < 32 -> Z.testbit (Z.land bits (not32 (BIT32 bit))) j = Z.testbit bits j && negb (j =? bit)) as Hcl
    by (intros j Hj; rewrite Z.land_spec, not32_bits, BIT32_bits by lia; done).
  destruct (IH (Z.land bits (not32 (BIT32 bit))) (bit + 1) a') as (HR' & HI' & HP'); try done; try lia.
  - apply (bit_to_u32 false); [lia|done].
  - intros j Hj. rewrite Hcl by lia. destruct (Z.eqb_spec j bit) as [->|]; [by rewrite andb_false_r|]. by rewrite Hmin by lia.
  - intros j b Hj Hbj. rewrite Hcl in Hbj by done. apply andb_prop in Hbj as [Hbj _]. by apply Hf.
  - cbn in *. split_and!; [by transitivity a'|done|]. case_match; [done|]. intros j Hj Hbj.
    destruct (decide (j = bit)) as [->|Hjb]; [by apply (Hstable bit a')|]. apply HP'; [done|]. rewrite Hcl by done. by rewrite Hbj, (proj2 (Z.eqb_neq j bit)).
Qed.

(** 32 turns are enough for a word. *)
Lemma while_bits_spec bits a : in_u32 bits ->
  (forall b a, 0 <= b < 32 -> Z.testbit bits b = true -> I a -> R a (f b a).1 /\ I (f b a).1 /\ if (f b a).2 then Q (f b a).1 else P b (f b a).1) ->
  I a -> let r := while_bits 32 f bits a in R a r.1 /\ I r.1 /\ if r.2 then Q r.1 else forall b, 0 <= b < 32 -> Z.testbit bits b = true -> P b r.1.
Proof. intros Hb Hf Ha. apply (while_bits_from 32 bits 0); try done; intros; lia. Qed.
End Loops.

(** ** Steps of the flush *)
Definition uie (w : vgic_world) (v : Z) : bool := negb (Z.land (hcr (vctx w v)) ICH_HCR_UIE =? 0).
Definition full (w : vgic_world) (v : Z) : Prop := lr_count (vgic w) <= used_lrs (vctx w v).
(** [k] needs no more work: it is not for now, or its LR is pending. *)
Definition settled (w : vgic_world) (v k : Z) : Prop :=
  pending (irq_of w v k) = true -> vgic_irq_deliverable w v k = true -> opt_pending (lr_w w v k) = true.

Record flushes (me v : Z) (w w' : vgic_world) : Prop := {
  fl_frame : frame me v w w';
  fl_cpuif : cpuif w' = cpuif w;
  fl_masked : cntv_masked w' = cntv_masked w;
  fl_vmcr : vmcr (vctx w' v) = vmcr (vctx w v);
  fl_used : used_lrs (vctx w v) <= used_lrs (vctx w' v);
  fl_uie : uie w v = true -> uie w' v = true;
  fl_full : uie w' v = true -> uie w v = true \/ full w' v;
  fl_level k : level (irq_of w' v k) = level (irq_of w v k);
  fl_owed k : owed w' v k = owed w v k;
  fl_lr k : opt_pending (lr_w w v k) = true -> opt_pending (lr_w w' v k) = true;
  fl_pending k : pending (irq_of w' v k) = true -> pending (irq_of w v k) = true;
  fl_keep k : level (irq_of w v k) = true -> vgic_irq_is_lpi k = false -> pending (irq_of w' v k) = pending (irq_of w v k);
}.

Lemma full_step me v w w' : flushes me v w w' -> full w v -> full w' v.
Proof. intros H Hf. unfold full in *. rewrite (fr_count _ _ _ _ (fl_frame _ _ _ _ H)). pose proof (fl_used _ _ _ _ H). lia. Qed.

#[export] Instance flushes_preorder me v : PreOrder (flushes me v).
Proof.
  split; [intros w; split; try done; auto|]. intros w1 w2 w3 H1 H2. pose proof (full_step _ _ _ _ H2) as Hfull. destruct H1, H2.
  split; auto; try congruence; [by transitivity w2|lia|..].
  2:{ intros k Hl Hk. rewrite fl_keep1; [auto|by rewrite fl_level0|done]. }
  intros Hu. destruct (fl_full1 Hu) as [Hu2|]; [|by right]. destruct (fl_full0 Hu2); auto.
Qed.
Lemma settled_step me v k w w' : flushes me v w w' -> settled w v k -> settled w' v k.
Proof.
  intros H Hs Hp Hd. apply (fl_lr _ _ _ _ H), Hs; [by apply (fl_pending _ _ _ _ H)|].
  by rewrite <- (frame_deliverable me v w w' k (fl_frame _ _ _ _ H) (fl_vmcr _ _ _ _ H)).
Qed.

Lemma masked_set_pending v k b w : cntv_masked (vgic_set_pending v k b w) = cntv_masked w.
Proof. unfold vgic_set_pending. cbv zeta. by case_match. Qed.

(** The LR of [k] becomes pending, and the descriptor stays or gives its pending state up. *)
Lemma flushes_lr me v k w w' (b : bool) : (b = true -> level (irq_of w v k) = false \/ vgic_irq_is_lpi k = true) ->
  ok_step me v w w' -> cpuif w' = cpuif w -> cntv_masked w' = cntv_masked w -> vmcr (vctx w' v) = vmcr (vctx w v) -> hcr (vctx w' v) = hcr (vctx w v) ->
  used_lrs (vctx w v) <= used_lrs (vctx w' v) -> opt_pending (lr_w w' v k) = true -> pending (irq_of w v k) = true -> 0 <= k ->
  (forall j, irq_of w' v j = irq_of w v j) -> (forall j, j <> k -> keeps v j w w') ->
  let w'' := if b then vgic_set_pending v k false w' else w' in wf w'' /\ flushes me v w w'' /\ settled w'' v k.
Proof.
  intros Hb [Hw Hf] Hcp Hma Hvm Hh Hu Hl Hp Hk Hi Hj w''.
  assert (forall j, opt_pending (lr_w w'' v j) = opt_pending (lr_w w' v j)) as El by (intros j; unfold w'', lr_w; destruct b; by rewrite ?vctx_set_pending).
  assert (vctx w'' = vctx w' /\ cpuif w'' = cpuif w' /\ cntv_masked w'' = cntv_masked w') as (Ev & Ec & Em)
    by (unfold w''; destruct b; by rewrite ?vctx_set_pending, ?cpuif_set_pending, ?masked_set_pending).
  assert (forall j, irq_of w'' v j = if b && (j =? k) then (irq_of w v j) <| pending := false |> else irq_of w v j) as Ei.
  { intros j. unfold w''. destruct b; [|apply Hi]. unfold irq_of in *. rewrite irq_set_pending, Z.eqb_refl, !Hi. cbn. by destruct (Z.eqb_spec j k) as [->|]. }
  assert (frame me v w w'') as Hf'' by (transitivity w'; [done|]; unfold w''; destruct b; [auto with vgic|reflexivity]).
  split_and!; [unfold w''; destruct b; auto with vgic| |intros _ _; by rewrite El].
  split; unfold uie, full; rewrite ?Ev, ?Ec, ?Em, ?Hcp, ?Hma, ?Hvm, ?Hh; auto.
  - intros j. rewrite Ei. by case_match.
  - intros j. unfold owed. rewrite El, Ei. destruct (decide (j = k)) as [->|Hne]; [rewrite Hl, Hp, !orb_true_r; done|].
    rewrite (proj2 (Z.eqb_neq j k) Hne), andb_false_r. by destruct (Hj j Hne) as [_ ->].
  - intros j. rewrite El. destruct (decide (j = k)) as [->|Hne]; [done|]. by destruct (Hj j Hne) as [_ ->].
  - intros j. rewrite Ei. by case_match.
  - intros j Hlv Hlp. rewrite Ei. destruct b; [|done]. destruct (Z.eqb_spec j k) as [->|]; [|done]. destruct (Hb eq_refl); congruence.
Qed.

Lemma irq_eta_pending d b : pending d = b -> d <| pending := b |> = d.
Proof. destruct d. cbn. by intros ->. Qed.

Lemma flushes_pending_same me v k w : wf w -> 0 <= k -> pending (irq_of w v k) = false -> flushes me v w (vgic_set_pending v k false w).
Proof.
  intros Hw Hk Hp. assert (forall j, irq_of (vgic_set_pending v k false w) v j = irq_of w v j) as Ei.
  { intros j. unfold irq_of in *. rewrite irq_set_pending, Z.eqb_refl. cbn. destruct (Z.eqb_spec j k) as [->|]; [by apply irq_eta_pending|done]. }
  split; unfold uie, full, owed, lr_w; rewrite ?vctx_set_pending, ?cpuif_set_pending, ?masked_set_pending; auto with vgic; try done; intros j; rewrite ?Ei; auto.
Qed.

Lemma lor_uie h : negb (Z.land (Z.lor h ICH_HCR_UIE) ICH_HCR_UIE =? 0) = true.
Proof.
  apply negb_true_iff, Z.eqb_neq. intros E. apply (f_equal (fun x => Z.testbit x 1)) in E.
  rewrite Z.land_spec, Z.lor_spec, Z.bits_0 in E. change (Z.testbit ICH_HCR_UIE 1) with true in E. by rewrite orb_true_r in E.
Qed.

Lemma flush_irq_step me v lpi k w : wf w -> has_irq (its_enabled (vgic w)) k -> (lpi = true -> vgic_irq_is_lpi k = true) -> let r := flush_irq v lpi k w in
  flushes me v w r.1 /\ wf r.1 /\ (if r.2 then uie r.1 v = true else settled r.1 v k).
Proof.
  intros Hw Hk Hlpi. pose proof (has_irq_small _ _ Hk) as Hk32. unfold flush_irq. cbv zeta. fold (irq_of w v k).
  assert (lpi || negb (level (irq_of w v k)) = true -> level (irq_of w v k) = false \/ vgic_irq_is_lpi k = true) as Hb
    by (intros Hb; apply orb_prop in Hb as [Hb|Hb]; [right; auto|left; by apply negb_true_iff]).
  destruct (pending (irq_of w v k)) eqn:Ep; cbn [negb].
  2:{ cbn [fst snd]. split_and!; [apply flushes_pending_same; done || lia|apply wf_set_pending; done || lia|].
      intros Hp. unfold irq_of in *. rewrite irq_set_pending, !Z.eqb_refl in Hp. done. }
  destruct (vgic_irq_deliverable w v k) eqn:Ed; cbn [negb]; [|cbn [fst snd]; split_and!; [done..|intros _ Hd; congruence]].
  destruct (Z.leb_spec 0 (find_lr_for_virq (vctx w v) k)) as [Hf|Hno]; [|destruct (Z.leb_spec (lr_count (vgic w)) (used_lrs (vctx w v))) as [Hfull|Hlt]]; cbn [fst snd].
  - assert (make_lr k (irq_of w v k) = make_lr_state k (irq_of w v k) true (active (irq_of w v k))) as -> by (unfold make_lr; by rewrite Ep).
    destruct (rewrite_ok me v k true (active (irq_of w v k)) w Hw Hk32 Hf eq_refl) as (H1 & H2 & H3 & H4). cbv zeta in *.
    destruct (flushes_lr me v k _ _ (lpi || negb (level (irq_of w v k))) Hb H1) as (H5 & H6 & H7); try done; try lia; by rewrite vctx_set_ctx.
  - destruct (set_hcr_ok me v (Z.lor (hcr (vctx w v)) ICH_HCR_UIE) w Hw) as [[H1 H2] H3]. cbv zeta in *.
    set (w' := set_ctx v _ w) in *. assert (uie w' v = true) as Hu by (unfold uie, w'; rewrite vctx_set_ctx; apply lor_uie).
    split_and!; [|done..]. split; try done; unfold w', full; rewrite ?vctx_set_ctx; try done; try lia; [by right|..]; intros j;
      destruct (H3 j) as [E1 E2]; unfold owed; fold w'; by rewrite ?E1, ?E2.
  - destruct (append_ok me v k w Hw Hk Ep (ctx_no_find _ k Hno) Hlt) as (H1 & H2 & H3 & H4). cbv zeta in *.
    destruct (flushes_lr me v k _ _ (lpi || negb (level (irq_of w v k))) Hb H1) as (H5 & H6 & H7); try done; try lia; by rewrite vctx_set_ctx.
Qed.

(** ** Words of the bitmaps *)
Definition irqs_of (word : Z) (P : Z -> Prop) : Prop := forall b, 0 <= b < 32 -> P (word * 32 + b).

Section Words.
  Context (me v : Z).

Lemma flush_bits lpi base bits w : wf w -> in_u32 bits ->
  (forall b, 0 <= b < 32 -> (has_irq (its_enabled (vgic w)) (base + b) /\ (lpi = true -> vgic_irq_is_lpi (base + b) = true)) /\ Z.testbit bits b = pending (irq_of w v (base + b))) ->
  let r := while_bits 32 (fun bit => flush_irq v lpi (base + bit)) bits w in
  flushes me v w r.1 /\ wf r.1 /\ if r.2 then uie r.1 v = true else forall b, 0 <= b < 32 -> settled r.1 v (base + b).
Proof.
  intros Hw Hb Hbits.
  destruct (while_bits_spec (flushes me v) (fun a => wf a /\ its_enabled (vgic a) = its_enabled (vgic w)) (fun a => uie a v = true)
    (fun b a => settled a v (base + b)) (fun bit => flush_irq v lpi (base + bit)) (fun b a a' => settled_step me v (base + b) a a') bits w Hb) as (HR & [HI _] & HP); [|done|].
  - intros b a Hb32 _ [Ha Eits]. destruct (flush_irq_step me v lpi (base + b) a Ha) as (H1 & H2 & H3); [rewrite Eits; by apply Hbits|by apply Hbits|].
    split_and!; try done. by rewrite (fr_its _ _ _ _ (fl_frame _ _ _ _ H1)).
  - cbv zeta. split_and!; [done..|]. case_match; [done|]. intros b Hb32. destruct (Hbits b Hb32) as [_ E].
    destruct (Z.testbit bits b) eqn:Eb; [by apply HP|]. apply (settled_step me v _ w); [done|]. intros Hp. congruence.
Qed.

Lemma bit_of_word word b : 0 <= b < 32 -> (word * 32 + b) / 32 = word /\ (word * 32 + b) mod 32 = b.
Proof.
  intros Hb. split; [rewrite Z.div_add_l by lia; rewrite Z.div_small by lia; lia|]. rewrite Z.add_comm, Z.mod_add by lia. apply Z.mod_small. lia.
Qed.

Lemma flush_word_step word w : wf w -> 0 <= word < ARM64_VGIC_WORDS -> let r := flush_word v word w in
  flushes me v w r.1 /\ wf r.1 /\ if r.2 then uie r.1 v = true else irqs_of word (settled r.1 v).
Proof.
  intros Hw Hword. apply flush_bits; [done|apply (wf_words w Hw)|]. intros b Hb. unfold ARM64_VGIC_WORDS in Hword.
  split; [split; [left; unfold ARM64_VGIC_IRQ_NUM; lia|done]|]. unfold irq_of. rewrite <- (wf_bits w Hw) by lia. unfold pend_bit.
  assert (vgic_irq_is_lpi (word * 32 + b) = false) as -> by (unfold vgic_irq_is_lpi, ARM64_VGIC_LPI_BASE; lia).
  by destruct (bit_of_word word b Hb) as [-> ->].
Qed.

Lemma flush_lpi_word_step word w : wf w -> its_enabled (vgic w) = true -> 0 <= word < ARM64_VGIC_LPI_WORDS -> let r := flush_lpi_word v word w in
  flushes me v w r.1 /\ wf r.1 /\ if r.2 then uie r.1 v = true else irqs_of word (fun i => settled r.1 v (ARM64_VGIC_LPI_BASE + i)).
Proof.
  intros Hw Hits Hword. unfold flush_lpi_word, irqs_of. unfold ARM64_VGIC_LPI_WORDS in Hword.
  destruct (flush_bits true (ARM64_VGIC_LPI_BASE + word * 32) (lpi_pending_bitmap (vgic w) v word) w Hw) as (H1 & H2 & H3); [apply (wf_words w Hw)|..].
  - intros b Hb. assert (vgic_irq_is_lpi (ARM64_VGIC_LPI_BASE + word * 32 + b) = true) as El by (unfold vgic_irq_is_lpi, ARM64_VGIC_LPI_BASE, ARM64_VGIC_LPI_NUM; lia).
    split; [split; [by right|done]|]. unfold irq_of. rewrite <- (wf_bits w Hw) by (unfold ARM64_VGIC_LPI_BASE; lia). unfold pend_bit. rewrite El.
    replace (ARM64_VGIC_LPI_BASE + word * 32 + b - ARM64_VGIC_LPI_BASE) with (word * 32 + b) by lia. by destruct (bit_of_word word b Hb) as [-> ->].
  - split_and!; [done..|]. case_match; [done|]. intros b Hb. rewrite Z.add_assoc. auto.
Qed.

(** The loop over the words of a bitmap. *)
Lemma flush_words (f : Z -> vgic_world -> vgic_world * bool) n (P : Z -> vgic_world -> Prop) (its : bool) w : wf w -> 0 <= n -> its_enabled (vgic w) = its ->
  (forall i a a', flushes me v a a' -> P i a -> P i a') ->
  (forall word a, wf a -> its_enabled (vgic a) = its -> 0 <= word < n ->
     flushes me v a (f word a).1 /\ wf (f word a).1 /\ if (f word a).2 then uie (f word a).1 v = true else irqs_of word (fun i => P i (f word a).1)) ->
  let w' := (for_break (fun word w => stop_uie v (f word w)) (seqZ 0 n) w).1 in
  flushes me v w w' /\ wf w' /\ (uie w' v = false -> forall i, 0 <= i < n * 32 -> P i w').
Proof.
  intros Hw Hn Hits HP Hf.
  destruct (for_break_spec (flushes me v) (fun a => wf a /\ its_enabled (vgic a) = its) (fun a => uie a v = true)
    (fun word a => irqs_of word (fun i => P i a)) (fun word w => stop_uie v (f word w))) with (l := seqZ 0 n) (a := w) as (H1 & [H2 _] & H3); [..|done|].
  - intros word a a' Ha Hi b Hb. apply (HP _ a); [done|]. by apply Hi.
  - intros word a Hword [Ha Eits]. apply elem_of_seqZ in Hword. destruct (Hf word a Ha Eits) as (G1 & G2 & G3); [lia|].
    unfold stop_uie. cbn [fst snd]. fold (uie (f word a).1 v). split_and!; try done; [by rewrite (fr_its _ _ _ _ (fl_frame _ _ _ _ G1))|].
    destruct (f word a) as [a' stop]. cbn in *. destruct (uie a' v) eqn:Eu; [done|]. by destruct stop.
  - cbv zeta. split_and!; [done..|]. intros Hu i Hi. destruct (for_break _ _ w) as [w' stop]. cbn in *. destruct stop; [congruence|].
    rewrite (Z.div_mod i 32) by lia. rewrite (Z.mul_comm 32). apply (H3 (i / 32)); [apply elem_of_seqZ; split; [apply Z.div_pos; lia|]|apply Z.mod_pos_bound; lia].
    apply Z.div_lt_upper_bound; lia.
Qed.
End Words.

(** ** The flush *)
Lemma control_hcr_uie h : Z.land (vgicv3_control_hcr h) ICH_HCR_UIE =? 0 = (Z.land h ICH_HCR_UIE =? 0).
Proof.
  change ICH_HCR_UIE with (2 ^ 1). rewrite !land_pow2 by lia. f_equal. unfold vgicv3_control_hcr.
  rewrite Z.lor_spec, Z.land_spec, not64_bits by lia. change (Z.testbit (Z.lor ICH_HCR_EOICOUNT_MASK ICH_HCR_TC) 1) with false. cbn.
  by rewrite andb_true_r, orb_false_r.
Qed.

Lemma write_lrs_hcr_ok me v w : wf w -> let w' := vgicv3_write_lrs_hcr me (vctx w v) w in
  ok_step me v w w' /\ hw_ok w' me /\ vctx w' = vctx w /\ vgic w' = vgic w /\ (forall k, hw_lr w' me k = lr_w w v k) /\
  ich_hcr (cpuif w' me) = vgicv3_control_hcr (hcr (vctx w v)).
Proof.
  intros Hw. cbv zeta. unfold vgicv3_write_lrs_hcr. destruct (write_lrs_ok me v (vctx w v) w Hw (wf_ctx w Hw v)) as (H1 & H2 & H3 & H4 & H5).
  set (w1 := vgicv3_write_lrs me (vctx w v) w) in *. destruct (write_hcr_ok me v (vgicv3_control_hcr (hcr (vctx w v))) w1 (proj1 H1)) as [G1 _].
  assert (ich_lr (cpuif (write_ich_hcr_el2 me (vgicv3_control_hcr (hcr (vctx w v))) w1) me) = ich_lr (cpuif w1 me)) as El by (cbn; by rewrite upd_eq).
  split_and!; [by apply (ok_step_trans _ _ _ w1)|..].
  - unfold hw_ok in *. by rewrite El.
  - by rewrite <- H3.
  - by rewrite <- H4.
  - intros k. unfold lr_w. rewrite <- H5. unfold hw_lr. by rewrite El.
  - cbn. by rewrite upd_eq.
Qed.

Definition flushed (me v : Z) (cur : bool) (w w' : vgic_world) : Prop :=
  ok_step me v w w' /\ (forall k, level (irq_of w' v k) = level (irq_of w v k) /\ owed w' v k = owed w v k /\
    (opt_pending (lr_w w v k) = true -> opt_pending (lr_w w' v k) = true) /\ (pending (irq_of w' v k) = true -> pending (irq_of w v k) = true) /\
    (level (irq_of w v k) = true -> vgic_irq_is_lpi k = false -> pending (irq_of w' v k) = pending (irq_of w v k))) /\
  cntv_masked w' = cntv_masked w /\
  (if uie w' v then used_lrs (vctx w' v) = lr_count (vgic w') else forall k, has_irq (its_enabled (vgic w)) k -> settled w' v k) /\
  (if live w me v cur then hw_ok w' me /\ (forall k, hw_lr w' me k = lr_w w' v k) /\ negb (Z.land (ich_hcr (cpuif w' me)) ICH_HCR_UIE =? 0) = uie w' v
   else cpuif w' = cpuif w).

Lemma flush_finish me v cur w w2 w4 : ok_step me v w w2 -> (forall k, keeps v k w w2) -> uie w2 v = false -> cpuif w2 = cpuif w -> cntv_masked w2 = cntv_masked w ->
  flushes me v w2 w4 -> wf w4 -> (uie w4 v = false -> forall k, has_irq (its_enabled (vgic w)) k -> settled w4 v k) ->
  flushed me v cur w (vgicv3_write_loaded_lrs me v cur w4).
Proof.
  intros H2 K2 Hu2 Ec2 Em2 F Hw4 S. destruct F as [Ff Fc Fm Fv Fu Fi Fl Flv Fo Fr Fp Fk]. unfold flushed.
  assert (ok_step me v w w4) as H4 by (apply (ok_step_trans _ _ _ w2); [done|]; intros; by split).
  assert (live w4 me v cur = live w me v cur) as El by (unfold live; by rewrite (frame_loaded _ _ _ _ me v (proj2 H4))).
  set (wf' := vgicv3_write_loaded_lrs me v cur w4).
  assert (ok_step me v w wf' /\ vctx wf' = vctx w4 /\ vgic wf' = vgic w4 /\ cntv_masked wf' = cntv_masked w4 /\
    if live w me v cur then hw_ok wf' me /\ (forall k, hw_lr wf' me k = lr_w w4 v k) /\ ich_hcr (cpuif wf' me) = vgicv3_control_hcr (hcr (vctx w4 v)) else cpuif wf' = cpuif w)
    as (H5 & Ev & Eg & Em & H6).
  { unfold wf', vgicv3_write_loaded_lrs. fold (live w4 me v cur). rewrite El. destruct (live w me v cur); [|by rewrite Fc].
    destruct (write_lrs_hcr_ok me v w4 Hw4) as (G1 & G2 & G3 & G4 & G5 & G6). split_and!; try done; by apply (ok_step_trans _ _ _ w4). }
  clearbody wf'. unfold settled, owed, uie, vgic_irq_deliverable, irq_of, lr_w in *. rewrite Ev, Eg. split_and!; [exact H5|..].
  - intros k. destruct (K2 k) as [E1 E2]. unfold irq_of, lr_w in E1, E2. rewrite Flv, Fo, E1, E2. split_and!; try done; [rewrite <- E2; exact (Fr k)|rewrite <- E1; exact (Fp k)|rewrite <- E1; exact (Fk k)].
  - rewrite Em, Fm. exact Em2.
  - destruct (negb (Z.land (hcr (vctx w4 v)) ICH_HCR_UIE =? 0)) eqn:Eu; [|by apply S]. destruct (Fl eq_refl) as [|Hfull]; [congruence|].
    unfold full in Hfull. pose proof (proj2 (wf_ctx w4 Hw4 v)). lia.
  - destruct (live w me v cur); [|done]. destruct H6 as (G1 & G2 & G3). split_and!; [done..|]. by rewrite G3, control_hcr_uie.
Qed.

Section Flush.
  Context (me v : Z) (cur : bool) (w : vgic_world) (Hw : wf w).
Let w1 := if live w me v cur then vgicv3_sync_live_cpuif me v w else w.
Let w2 := set_ctx v ((vctx w1 v) <| hcr := Z.land (hcr (vctx w1 v)) (not64 ICH_HCR_UIE) |>) w1.
Let w3 := (for_break (fun word w => stop_uie v (flush_word v word w)) (seqZ 0 ARM64_VGIC_WORDS) w2).1.
Let w4 := if its_enabled (vgic w3) then (for_break (fun word w => stop_uie v (flush_lpi_word v word w)) (seqZ 0 ARM64_VGIC_LPI_WORDS) w3).1 else w3.

Lemma flush_unfold : vgicv3_flush_vcpu me v cur w =
  if negb cur && vgicv3_vcpu_is_running_remote w me v then w else vgicv3_write_loaded_lrs me v cur w4.
Proof. reflexivity. Qed.

Lemma flush_regs : ok_step me v w w2 /\ (forall k, keeps v k w w2) /\ uie w2 v = false /\ cpuif w2 = cpuif w /\ cntv_masked w2 = cntv_masked w.
Proof.
  assert (ok_step me v w w1 /\ (forall k, keeps v k w w1) /\ cpuif w1 = cpuif w /\ cntv_masked w1 = cntv_masked w) as (H1 & K1 & Ec & Em).
  { unfold w1. destruct (live w me v cur); [|by split_and!; try done; split].
    destruct (sync_live_ok me me v w Hw) as ([G0 G1] & G2 & G3 & _). cbv zeta in *. by split_and!. }
  destruct (set_hcr_ok me v (Z.land (hcr (vctx w1 v)) (not64 ICH_HCR_UIE)) w1 (proj1 H1)) as [H2 K2].
  split_and!; [by apply (ok_step_trans _ _ _ w1)|intros k; transitivity w1; [apply K1|apply K2]| |done|done].
  unfold uie, w2. rewrite vctx_set_ctx. change (hcr (_ <| hcr := ?x |>)) with x. apply negb_false_iff. change ICH_HCR_UIE with (2 ^ 1). rewrite land_pow2 by lia.
  rewrite Z.land_spec, not64_bits by lia. cbn. by rewrite andb_false_r.
Qed.

Lemma flush_loops : flushes me v w2 w4 /\ wf w4 /\ (uie w4 v = false -> forall k, has_irq (its_enabled (vgic w)) k -> settled w4 v k).
Proof.
  destruct flush_regs as ([Hw2 Hf2] & _ & Hu2 & _).
  destruct (flush_words me v (flush_word v) ARM64_VGIC_WORDS (fun i a => settled a v i) (its_enabled (vgic w2)) w2 Hw2) as (F3 & Hw3 & S3); [done|done|..].
  { intros i. apply settled_step. } { intros word a Ha _ Hword. by apply flush_word_step. }
  fold w3 in F3, Hw3, S3. assert (its_enabled (vgic w3) = its_enabled (vgic w)) as E3 by (by rewrite (fr_its _ _ _ _ (fl_frame _ _ _ _ F3)), (fr_its _ _ _ _ Hf2)).
  unfold w4. rewrite E3. destruct (its_enabled (vgic w)) eqn:Eits.
  2:{ split_and!; [done..|]. intros Hu k [Hk|[? _]]; [|done]. by apply (S3 Hu). }
  destruct (flush_words me v (flush_lpi_word v) ARM64_VGIC_LPI_WORDS (fun i a => settled a v (ARM64_VGIC_LPI_BASE + i)) true w3 Hw3) as (F4 & Hw4 & S4); [done|done|..].
  { intros i. apply settled_step. } { intros word a Ha Eits' Hword. by apply flush_lpi_word_step. }
  cbv zeta in *. set (w4' := (for_break _ _ w3).1) in *. split_and!; [by transitivity w3|done|]. intros Hu k Hk.
  assert (uie w3 v = false) as Hu3 by (destruct (uie w3 v) eqn:E; [|done]; apply (fl_uie _ _ _ _ F4) in E; congruence).
  destruct Hk as [Hk|[_ Hk]]; [apply (settled_step me v k w3); [done|]; by apply (S3 Hu3)|].
  unfold vgic_irq_is_lpi in Hk. replace k with (ARM64_VGIC_LPI_BASE + (k - ARM64_VGIC_LPI_BASE)) by lia. apply (S4 Hu).
  unfold ARM64_VGIC_LPI_WORDS, ARM64_VGIC_LPI_NUM in *. lia.
Qed.

(** [vgicv3_flush_vcpu]: see the head of the file. *)
Lemma flush_vcpu_spec : cur = true \/ vgicv3_vcpu_is_running_remote w me v = false -> flushed me v cur w (vgicv3_flush_vcpu me v cur w).
Proof.
  intros Hr. rewrite flush_unfold. assert (negb cur && vgicv3_vcpu_is_running_remote w me v = false) as -> by (destruct Hr as [-> | ->]; [done|by rewrite andb_false_r]).
  destruct flush_regs as (H2 & K2 & Hu2 & Ec2 & Em2), flush_loops as (F & Hw4 & S). by apply (flush_finish me v cur w w2 w4).
Qed.
End Flush.
