(* ===== verification/Its.v ===== *)
(** * The interrupt translation service

    arch/arm64/guest/vgicv3_its.c: the tables that map the events of devices to
    LPIs and collections of LPIs to vCPUs, the command queue in guest memory that
    the guest changes them with, and the registers of the ITS.  Guest memory is the
    one of [GuestMem]; the counters of the ITS are left out. *)
From S2P Require Import Prelude Bits Hooks GuestMem Vgic.

(** ** Constants *)
Definition GITS_CTLR : Z := 0x0000.
Definition GITS_IIDR : Z := 0x0004.
Definition GITS_TYPER : Z := 0x0008.
Definition GITS_MPIDR : Z := 0x0018.
Definition GITS_CBASER : Z := 0x0080.
Definition GITS_CWRITER : Z := 0x0088.
Definition GITS_CREADR : Z := 0x0090.
Definition GITS_BASER : Z := 0x0100.
Definition GITS_TRANSLATER : Z := 0x10040.
Definition GITS_PIDR2 : Z := 0xFFE8.
Definition GITS_CIDR0 : Z := 0xFFF0.
Definition GITS_CIDR1 : Z := 0xFFF4.
Definition GITS_CIDR2 : Z := 0xFFF8.
Definition GITS_CIDR3 : Z := 0xFFFC.
Definition GITS_CTLR_ENABLE : Z := Z.shiftl 1 0.
Definition GITS_CBASER_VALID : Z := Z.shiftl 1 63.
Definition GITS_CBASER_ADDRESS_MASK : Z := 0x0000fffffffff000.
Definition GITS_CBASER_SIZE_MASK : Z := 0xff.
Definition GITS_CMD_ITT_ADDRESS_MASK : Z := 0x000fffffffffff00.
Definition GITS_CMD_SIZE : Z := 32.
Definition GITS_CMD_MAPD : Z := 0x08.
Definition GITS_CMD_MAPC : Z := 0x09.
Definition GITS_CMD_MAPTI : Z := 0x0a.
Definition GITS_CMD_MAPI : Z := 0x0b.
Definition GITS_CMD_MOVI : Z := 0x01.
Definition GITS_CMD_INT : Z := 0x03.
Definition GITS_CMD_CLEAR : Z := 0x04.
Definition GITS_CMD_SYNC : Z := 0x05.
Definition GITS_CMD_INV : Z := 0x0c.
Definition GITS_CMD_INVALL : Z := 0x0d.
Definition GITS_CMD_MOVALL : Z := 0x0e.
Definition GITS_CMD_DISCARD : Z := 0x0f.
Definition GITS_CMD_QUEUE_BUDGET : nat := 1024.
Definition GICR_PROPBASER_ADDRESS_MASK : Z := 0x000FFFFFFFFFF000.
Definition LPI_PROP_PRIO_MASK : Z := 0xfc.
Definition LPI_PROP_ENABLED : Z := 1.
Definition VGIC_ITS_INVALID_VCPU_ID : Z := 0xffff.

(** ** Tables *)
Definition set_its (t : arm64_vits) (w : vgic_world) : vgic_world := set_vgic ((vgic w) <| its := t |>) w.
Definition set_event (d e : Z) (x : arm64_vits_event) (t : arm64_vits) : arm64_vits := t <| event := upd2 d e x (event t) |>.
Definition set_device (d : Z) (x : arm64_vits_device) (t : arm64_vits) : arm64_vits := t <| device := upd d x (device t) |>.

Definition vits_valid_target_vcpu (g : arm64_vgicv3) (target : Z) : Z := if target <? vcpu_count g then target else 0.

(** The searches give the index of what they find. *)
Definition vits_find_collection (t : arm64_vits) (cid : Z) : option Z :=
  find (fun i => collection_id (collection t i) =? cid) (seqZ 0 ARM64_VGIC_ITS_COLLECTION_NUM).
Definition is_device (t : arm64_vits) (did d : Z) : bool := device_valid (device t d) && (device_id (device t d) =? did).
Definition vits_find_device (t : arm64_vits) (did : Z) : option Z := find (is_device t did) (seqZ 0 ARM64_VGIC_ITS_DEVICE_NUM).
Definition vits_alloc_device (t : arm64_vits) (did : Z) : option (Z * arm64_vits) :=
  match find (fun d => negb (device_valid (device t d))) (seqZ 0 ARM64_VGIC_ITS_DEVICE_NUM) with
  | Some d => Some (d, set_device d ((device t d) <| device_id := did |> <| device_valid := true |>) t)
  | None => None
  end.

Definition event_slot (t : arm64_vits) (d eid : Z) : option Z :=
  find (fun e => event_valid (event t d e) && (event_id (event t d e) =? eid)) (seqZ 0 ARM64_VGIC_ITS_EVENT_NUM).
Fixpoint find_event_from (t : arm64_vits) (did eid : Z) (devices : list Z) : option (Z * Z) :=
  match devices with
  | [] => None
  | d :: devices =>
      if is_device t did d then
        match event_slot t d eid with
        | Some e => Some (d, e)
        | None => find_event_from t did eid devices
        end
      else find_event_from t did eid devices
  end.
Definition vits_find_event (t : arm64_vits) (did eid : Z) : option (Z * Z) := find_event_from t did eid (seqZ 0 ARM64_VGIC_ITS_DEVICE_NUM).

Fixpoint alloc_event_from (t : arm64_vits) (did eid : Z) (devices : list Z) : option (Z * Z) :=
  match devices with
  | [] => None
  | d :: devices =>
      if is_device t did d then
        if event_count (device t d) <=? eid then None
        else
          match find (fun e => negb (event_valid (event t d e))) (seqZ 0 ARM64_VGIC_ITS_EVENT_NUM) with
          | Some e => Some (d, e)
          | None => alloc_event_from t did eid devices
          end
      else alloc_event_from t did eid devices
  end.
Definition vits_alloc_event (t : arm64_vits) (did eid : Z) : option (Z * Z * arm64_vits) :=
  match alloc_event_from t did eid (seqZ 0 ARM64_VGIC_ITS_DEVICE_NUM) with
  | Some (d, e) => Some (d, e, set_event d e ((event t d e) <| event_device := did |> <| event_id := eid |> <| event_valid := true |>) t)
  | None => None
  end.

Definition vits_target_vcpu_id (g : arm64_vgicv3) (cid : Z) : Z :=
  match vits_find_collection (its g) cid with
  | Some i => let c := collection (its g) i in if collection_valid c then vits_valid_target_vcpu g (collection_target c) else VGIC_ITS_INVALID_VCPU_ID
  | None => VGIC_ITS_INVALID_VCPU_ID
  end.

(** ** LPIs *)
Section Lpi.
  Context (get_vm_config : Z -> arch_vm_config) (vm : stage2_vm) (host : bytes).

Definition vits_update_lpi_config_locked (target lpi : Z) (w : vgic_world) : bool * vgic_world :=
  let g := vgic w in
  if (vcpu_count g <=? target) || negb (vgic_irq_is_lpi lpi) || (Z.land (gicr_ctlr g target) VGICR_CTLR_ENABLE_LPIS =? 0) then (false, w)
  else
    let propbase := Z.land (gicr_propbaser g target) GICR_PROPBASER_ADDRESS_MASK in
    if propbase =? 0 then (false, w)
    else
      let '(ret, data) := copy_from_gpa get_vm_config vm true (propbase + (lpi - ARM64_VGIC_LPI_BASE)) 1 host in
      if negb (ret =? 0) then (false, w)
      else
        let property := nth 0 data 0 in
        let d := (irq g target lpi) <| target_vcpu := target |> <| priority := Z.land property LPI_PROP_PRIO_MASK |>
                   <| enabled := negb (Z.land property LPI_PROP_ENABLED =? 0) |> in
        (true, vgic_update_irq_row_lr target lpi (set_irq target lpi d w)).

Definition vits_update_event_lpi_config_locked (x : arm64_vits_event) (w : vgic_world) : bool * vgic_world :=
  if negb (event_valid x) || negb (vgic_irq_is_lpi (event_lpi x)) then (false, w)
  else vits_update_lpi_config_locked (vits_target_vcpu_id (vgic w) (event_collection x)) (event_lpi x) w.

Definition clear_lpi (target lpi : Z) (w : vgic_world) : vgic_world :=
  vgic_update_irq_row_lr target lpi (set_active target lpi false (vgic_set_pending target lpi false w)).

Definition vits_clear_event_state_locked (x : arm64_vits_event) (w : vgic_world) : vgic_world :=
  if negb (event_valid x) || negb (vgic_irq_is_lpi (event_lpi x)) then w
  else
    let target := vits_target_vcpu_id (vgic w) (event_collection x) in
    if target <? vcpu_count (vgic w) then clear_lpi target (event_lpi x) w else w.

Definition vits_inject_event_locked (me : Z) (x : arm64_vits_event) (w : vgic_world) : Z * vgic_world :=
  if negb (event_valid x) || negb (vgic_irq_is_lpi (event_lpi x)) then (- EINVAL, w)
  else
    let target := vits_target_vcpu_id (vgic w) (event_collection x) in
    if vcpu_count (vgic w) <=? target then (- ENODEV, w)
    else
      let lpi := event_lpi x in
      vgic_inject_locked me target lpi false (set_irq target lpi ((irq (vgic w) target lpi) <| target_vcpu := target |>) w).

Definition vits_inject_event_by_id_locked (me did eid : Z) (w : vgic_world) : Z * vgic_world :=
  match vits_find_event (its (vgic w)) did eid with
  | Some (d, e) => vits_inject_event_locked me (event (its (vgic w)) d e) w
  | None => (- EINVAL, w)
  end.
Definition arm64_vgicv3_its_inject_msi := vits_inject_event_by_id_locked.
Definition arm64_vgicv3_inject_msi (me did eid : Z) (w : vgic_world) : Z * vgic_world :=
  if its_enabled (vgic w) then arm64_vgicv3_its_inject_msi me did eid w else (- EINVAL, w).

Definition arm64_vgicv3_its_invall_vcpu_locked (v : Z) (w : vgic_world) : bool * vgic_world :=
  if vcpu_count (vgic w) <=? v then (false, w)
  else
    foldl (fun '(updated, w) d => foldl (fun '(updated, w) e =>
        let x := event (its (vgic w)) d e in
        if negb (event_valid x) then (updated, w)
        else if vits_target_vcpu_id (vgic w) (event_collection x) =? v then
          let '(u, w) := vits_update_event_lpi_config_locked x w in (updated || u, w)
        else (updated, w)) (updated, w) (seqZ 0 ARM64_VGIC_ITS_EVENT_NUM))
      (false, w) (seqZ 0 ARM64_VGIC_ITS_DEVICE_NUM).

(** ** Commands *)
Definition vits_drop_device (did : Z) (t : arm64_vits) : arm64_vits :=
  match vits_find_device t did with
  | Some d =>
      set_device d {| device_id := 0; itt_addr := 0; event_count := 0; device_valid := false |}
        (t <| event := fun d' e => if (d' =? d) && (0 <=? e) && (e <? ARM64_VGIC_ITS_EVENT_NUM) then (event t d' e) <| event_valid := false |> else event t d' e |>)
  | None => t
  end.

Definition zero_event : arm64_vits_event := {| event_device := 0; event_id := 0; event_lpi := 0; event_collection := 0; event_valid := false |}.

Definition cmd_mapd (did size_field itt : Z) (valid : bool) (t : arm64_vits) : bool * arm64_vits :=
  if negb valid then (true, vits_drop_device did t)
  else
    match (match vits_find_device t did with Some d => Some (d, t) | None => vits_alloc_device t did end) with
    | None => (false, t)
    | Some (d, t) =>
        let size := size_field + 1 in
        let count := if size <? 16 then Z.shiftl 1 size else ARM64_VGIC_ITS_EVENT_NUM in
        let count := if ARM64_VGIC_ITS_EVENT_NUM <? count then ARM64_VGIC_ITS_EVENT_NUM else count in
        let x := device t d in
        let t := if negb (itt_addr x =? itt) || negb (event_count x =? count)
                 then t <| event := fun d' e => if d' =? d then zero_event else event t d' e |> else t in
        (true, set_device d (x <| itt_addr := itt |> <| event_count := count |>) t)
    end.

Definition cmd_mapc (cid target : Z) (valid : bool) (g : arm64_vgicv3) (t : arm64_vits) : bool * arm64_vits :=
  match vits_find_collection t cid with
  | Some i => (true, t <| collection := upd i ((collection t i) <| collection_valid := valid |> <| collection_target := vits_valid_target_vcpu g target |>) (collection t) |>)
  | None => (false, t)
  end.

(** The entry [cmd_mapti] writes, before the configuration of the LPI is read. *)
Definition mapti_event (did eid lpi cid : Z) (t : arm64_vits) : option (Z * Z * arm64_vits) :=
  match vits_find_device t did, vits_find_collection t cid with
  | Some d, Some i =>
      if negb (vgic_irq_is_lpi lpi) || (event_count (device t d) <=? eid) || negb (collection_valid (collection t i)) then None
      else
        match (match vits_find_event t did eid with Some (d, e) => Some (d, e, t) | None => vits_alloc_event t did eid end) with
        | Some (d, e, t) => Some (d, e, set_event d e ((event t d e) <| event_lpi := lpi |> <| event_collection := cid |>) t)
        | None => None
        end
  | _, _ => None
  end.
Definition cmd_mapti (did eid lpi cid : Z) (w : vgic_world) : bool * vgic_world :=
  match mapti_event did eid lpi cid (its (vgic w)) with
  | Some (d, e, t) => (true, (vits_update_event_lpi_config_locked (event t d e) (set_its t w)).2)
  | None => (false, w)
  end.

Definition cmd_movi (did eid cid : Z) (t : arm64_vits) : bool * arm64_vits :=
  match vits_find_event t did eid, vits_find_collection t cid with
  | Some (d, e), Some i =>
      if collection_valid (collection t i) then (true, set_event d e ((event t d e) <| event_collection := cid |>) t) else (false, t)
  | _, _ => (false, t)
  end.

Definition cmd_discard (did eid : Z) (w : vgic_world) : bool * vgic_world :=
  match vits_find_event (its (vgic w)) did eid with
  | Some (d, e) =>
      let w := vits_clear_event_state_locked (event (its (vgic w)) d e) w in
      let t := its (vgic w) in
      (true, set_its (set_event d e ((event t d e) <| event_valid := false |>) t) w)
  | None => (false, w)
  end.

Definition cmd_clear (did eid : Z) (w : vgic_world) : bool * vgic_world :=
  match vits_find_event (its (vgic w)) did eid with
  | Some (d, e) =>
      let x := event (its (vgic w)) d e in
      if vgic_irq_is_lpi (event_lpi x) then
        let target := vits_target_vcpu_id (vgic w) (event_collection x) in
        (true, if target <? vcpu_count (vgic w) then clear_lpi target (event_lpi x) w else w)
      else (false, w)
  | None => (false, w)
  end.

Definition cmd_inv (did eid : Z) (w : vgic_world) : bool * vgic_world :=
  match vits_find_event (its (vgic w)) did eid with
  | Some (d, e) => vits_update_event_lpi_config_locked (event (its (vgic w)) d e) w
  | None => (false, w)
  end.

Definition cmd_invall (cid : Z) (w : vgic_world) : bool * vgic_world :=
  match vits_find_collection (its (vgic w)) cid with
  | Some i =>
      let c := collection (its (vgic w)) i in
      if collection_valid c then arm64_vgicv3_its_invall_vcpu_locked (collection_target c) w else (false, w)
  | None => (false, w)
  end.

(** A command is four 64-bit words. *)
Record its_cmd := { cmd0 : Z; cmd1 : Z; cmd2 : Z; cmd3 : Z }.

Definition vits_execute_cmd (me : Z) (cmd : its_cmd) (w : vgic_world) : bool * vgic_world :=
  let opcode := Z.land (cmd0 cmd) 0xff in
  let did := u32 (Z.shiftr (cmd0 cmd) 32) in
  let eid := u32 (cmd1 cmd) in
  let lpi := u32 (Z.shiftr (cmd1 cmd) 32) in
  let cid := Z.land (cmd2 cmd) 0xffff in
  let valid := negb (Z.land (cmd2 cmd) (Z.shiftl 1 63) =? 0) in
  let table '(accepted, t) := (accepted : bool, set_its t w) in
  let t := its (vgic w) in
  if opcode =? GITS_CMD_MAPD then table (cmd_mapd did (Z.land (cmd1 cmd) 0x1f) (Z.land (cmd2 cmd) GITS_CMD_ITT_ADDRESS_MASK) valid t)
  else if opcode =? GITS_CMD_MAPC then table (cmd_mapc cid (Z.land (Z.shiftr (cmd2 cmd) 16) 0xffff) valid (vgic w) t)
  else if opcode =? GITS_CMD_MAPI then cmd_mapti did eid (u32 (ARM64_VGIC_LPI_BASE + eid)) cid w
  else if opcode =? GITS_CMD_MAPTI then cmd_mapti did eid lpi cid w
  else if opcode =? GITS_CMD_MOVI then table (cmd_movi did eid cid t)
  else if opcode =? GITS_CMD_DISCARD then cmd_discard did eid w
  else if opcode =? GITS_CMD_INT then let '(ret, w) := vits_inject_event_by_id_locked me did eid w in (ret =? 0, w)
  else if opcode =? GITS_CMD_CLEAR then cmd_clear did eid w
  else if opcode =? GITS_CMD_INV then cmd_inv did eid w
  else if opcode =? GITS_CMD_INVALL then cmd_invall cid w
  else if (opcode =? GITS_CMD_SYNC) || (opcode =? GITS_CMD_MOVALL) then (true, w)
  else (false, w).

(** ** The command queue *)
Definition vits_cmd_queue_base (t : arm64_vits) : Z := Z.land (cbaser t) GITS_CBASER_ADDRESS_MASK.
Definition vits_cmd_queue_size (t : arm64_vits) : Z := (Z.land (cbaser t) GITS_CBASER_SIZE_MASK + 1) * 4096.
Definition vits_offset_aligned (offset : Z) : bool := Z.land offset (GITS_CMD_SIZE - 1) =? 0.

(** A 64-bit word of a copied command. *)
Definition cmd_word (data : list Z) (i : nat) : Z := le64 (take 8 (drop (8 * i) data)).
Definition read_cmd (gpa : Z) : option its_cmd :=
  let '(ret, data) := copy_from_gpa get_vm_config vm true gpa GITS_CMD_SIZE host in
  if ret =? 0 then Some {| cmd0 := cmd_word data 0; cmd1 := cmd_word data 1; cmd2 := cmd_word data 2; cmd3 := cmd_word data 3 |} else None.

(** At most [budget] commands; the position of the reader at the end, and whether a
    command was taken. *)
Fixpoint cmd_loop (budget : nat) (me base size reader writer : Z) (flush : bool) (w : vgic_world) : Z * bool * vgic_world :=
  match budget with
  | O => (reader, flush, w)
  | S budget =>
      if reader =? writer then (reader, flush, w)
      else
        match read_cmd (base + reader) with
        | None => (reader, flush, w)
        | Some cmd =>
            let w := (vits_execute_cmd me cmd w).2 in
            let reader := reader + GITS_CMD_SIZE in
            cmd_loop budget me base size (if size <=? reader then 0 else reader) writer true w
        end
  end.

Definition set_creadr (x : Z) (w : vgic_world) : vgic_world := set_its ((its (vgic w)) <| creadr := x |>) w.

Definition vits_process_command_queue (me : Z) (w : vgic_world) : bool * vgic_world :=
  let t := its (vgic w) in
  let base := vits_cmd_queue_base t in
  let size := vits_cmd_queue_size t in
  let reader := creadr t in
  let writer := cwriter t in
  if (Z.land (gits_ctlr t) GITS_CTLR_ENABLE =? 0) || (Z.land (cbaser t) GITS_CBASER_VALID =? 0) || (size <? GITS_CMD_SIZE) then (false, set_creadr writer w)
  else if (size <=? reader) || (size <=? writer) || negb (vits_offset_aligned reader) || negb (vits_offset_aligned writer) then (false, set_creadr writer w)
  else
    let '(reader, flush, w) := cmd_loop GITS_CMD_QUEUE_BUDGET me base size reader writer false w in
    (flush, set_creadr reader w).

(** ** Registers of the ITS *)
Definition low32 (x : Z) : Z := Z.land x UINT32_MAX.
Definition high32 (x : Z) : Z := Z.shiftr x 32.
Definition set_low32 (x v : Z) : Z := Z.lor (Z.land x 0xffffffff00000000) v.
Definition set_high32 (x v : Z) : Z := Z.lor (Z.land x UINT32_MAX) (u64 (Z.shiftl v 32)).

(** [iidr] and [vmpidr] are the identity of the GIC and the affinity of vCPU 0. *)
Definition vits_mmio_read (me iidr vmpidr offset : Z) (w : vgic_world) : Z * bool * vgic_world :=
  let t := its (vgic w) in
  if (GITS_BASER <=? offset) && (offset <? GITS_BASER + ARM64_VGIC_ITS_BASER_NUM * 8) then
    let x := baser t ((offset - GITS_BASER) / 8) in
    (if Z.land offset 4 =? 0 then low32 x else high32 x, false, w)
  else if offset =? GITS_CTLR then (gits_ctlr t, false, w)
  else if offset =? GITS_IIDR then (iidr, false, w)
  else if offset =? GITS_TYPER then (low32 (gits_typer t), false, w)
  else if offset =? GITS_TYPER + 4 then (high32 (gits_typer t), false, w)
  else if offset =? GITS_MPIDR then (vmpidr, false, w)
  else if offset =? GITS_CBASER then (low32 (cbaser t), false, w)
  else if offset =? GITS_CBASER + 4 then (high32 (cbaser t), false, w)
  else if offset =? GITS_CWRITER then (low32 (cwriter t), false, w)
  else if offset =? GITS_CWRITER + 4 then (high32 (cwriter t), false, w)
  else if offset =? GITS_CREADR then let '(flush, w) := vits_process_command_queue me w in (low32 (creadr (its (vgic w))), flush, w)
  else if offset =? GITS_CREADR + 4 then let '(flush, w) := vits_process_command_queue me w in (high32 (creadr (its (vgic w))), flush, w)
  else if offset =? GITS_PIDR2 then (Z.shiftl 3 4, false, w)
  else if offset =? GITS_CIDR0 then (0x0d, false, w)
  else if offset =? GITS_CIDR1 then (0xf0, false, w)
  else if offset =? GITS_CIDR2 then (0x05, false, w)
  else if offset =? GITS_CIDR3 then (0xb1, false, w)
  else (0, false, w).

Definition vits_mmio_write (me offset value : Z) (w : vgic_world) : bool * vgic_world :=
  let value := low32 value in
  let t := its (vgic w) in
  if (GITS_BASER <=? offset) && (offset <? GITS_BASER + ARM64_VGIC_ITS_BASER_NUM * 8) then
    let i := (offset - GITS_BASER) / 8 in
    (false, set_its (t <| baser := upd i (if Z.land offset 4 =? 0 then set_low32 (baser t i) value else set_high32 (baser t i) value) (baser t) |>) w)
  else if offset =? GITS_CTLR then
    let c := Z.lor (Z.land value GITS_CTLR_ENABLE) (if Z.land value GITS_CTLR_ENABLE =? 0 then GITS_CTLR_QUIESCENT else 0) in
    let w := set_its (t <| gits_ctlr := c |>) w in
    if negb (Z.land c GITS_CTLR_ENABLE =? 0) then vits_process_command_queue me w else (false, w)
  else if offset =? GITS_CBASER then (false, set_its (t <| cbaser := set_low32 (cbaser t) value |> <| creadr := 0 |> <| cwriter := 0 |>) w)
  else if offset =? GITS_CBASER + 4 then (false, set_its (t <| cbaser := set_high32 (cbaser t) value |> <| creadr := 0 |> <| cwriter := 0 |>) w)
  else if offset =? GITS_CWRITER then vits_process_command_queue me (set_its (t <| cwriter := set_low32 (cwriter t) value |>) w)
  else if offset =? GITS_CWRITER + 4 then vits_process_command_queue me (set_its (t <| cwriter := set_high32 (cwriter t) value |>) w)
  else if offset =? GITS_TRANSLATER then (true, (vits_inject_event_by_id_locked me 0 value w).2)
  else (false, w).

Definition vgicv3_flush_vm (me v : Z) (w : vgic_world) : vgic_world :=
  foldl (fun w t => vgicv3_flush_vcpu me t (t =? v) w) w (seqZ 0 (created_vcpus w)).

(** Of the current vCPU [v]: the result, the value read and the state. *)
Definition vits_word_access (offset size : Z) : bool := (size =? 4) && (Z.land offset 3 =? 0).
Definition arm64_vgicv3_its_mmio_access (me v iidr vmpidr offset size : Z) (write : bool) (value : Z) (w : vgic_world) : Z * Z * vgic_world :=
  if negb (vits_word_access offset size) then (- EINVAL, value, w)
  else if write then
    let '(flush, w) := vits_mmio_write me offset value w in (0, value, if flush then vgicv3_flush_vm me v w else w)
  else
    let '(value, flush, w) := vits_mmio_read me iidr vmpidr offset w in (0, value, if flush then vgicv3_flush_vm me v w else w).

(** [None] when the access is not handled here. *)
Definition arm64_vgicv3_its_mmio_access64 (me v offset size : Z) (write : bool) (value : Z) (w : vgic_world) : option (Z * vgic_world) :=
  if (offset =? GITS_CWRITER) && (size =? 8) && write then
    let '(flush, w) := vits_process_command_queue me (set_its ((its (vgic w)) <| cwriter := value |>) w) in
    Some (0, if flush then vgicv3_flush_vm me v w else w)
  else None.
End Lpi.
