(* ===== verification/ItsTable.v ===== *)
(** * The translation tables of the ITS

    The tables as three partial maps, from device ids to their interrupt tables, from
    events to LPIs and collections, and from collections to vCPUs; and the commands as
    updates of the maps. *)
From S2P Require Import Prelude Bits Hooks GuestMem Vgic VgicInv Its.

(** ** Slots *)
Definition device_slot (d : Z) : Prop := 0 <= d < ARM64_VGIC_ITS_DEVICE_NUM.
Definition entry_slot (e : Z) : Prop := 0 <= e < ARM64_VGIC_ITS_EVENT_NUM.
Definition dev_at (t : arm64_vits) (did d : Z) : Prop := device_slot d /\ device_valid (device t d) = true /\ device_id (device t d) = did.
Definition ev_at (t : arm64_vits) (did eid d e : Z) : Prop :=
  dev_at t did d /\ entry_slot e /\ event_valid (event t d e) = true /\ event_id (event t d e) = eid.

Record tables_ok (t : arm64_vits) : Prop := {
  tk_device did d d' : dev_at t did d -> dev_at t did d' -> d = d';
  tk_entry did eid d e e' : ev_at t did eid d e -> ev_at t did eid d e' -> e = e';
  tk_event d e : device_slot d -> entry_slot e -> event_valid (event t d e) = true ->
    device_valid (device t d) = true /\ event_device (event t d e) = device_id (device t d) /\ 0 <= event_id (event t d e) < event_count (device t d);
  tk_count d : 0 <= event_count (device t d) <= ARM64_VGIC_ITS_EVENT_NUM;
  tk_collection i : collection_id (collection t i) = i;
}.

Lemma find_seqZ f n : match find f (seqZ 0 n) with
  | Some i => 0 <= i < n /\ f i = true
  | None => forall i, 0 <= i < n -> f i = false end.
Proof.
  destruct (find f (seqZ 0 n)) as [i|] eqn:E.
  - apply find_some in E as [Hi Hf]. apply list_elem_of_In, elem_of_seqZ in Hi. split; [lia|done].
  - intros i Hi. apply (find_none _ _ E), list_elem_of_In, elem_of_seqZ. lia.
Qed.

Lemma is_device_at t did d : is_device t did d = true <-> device_valid (device t d) = true /\ device_id (device t d) = did.
Proof. unfold is_device. by rewrite andb_true_iff, Z.eqb_eq. Qed.

Lemma find_event_from_spec t did eid l : match find_event_from t did eid l with
  | Some (d, e) => d ∈ l /\ is_device t did d = true /\ entry_slot e /\ event_valid (event t d e) = true /\ event_id (event t d e) = eid
  | None => forall d e, d ∈ l -> is_device t did d = true -> entry_slot e -> event_valid (event t d e) = true -> event_id (event t d e) <> eid end.
Proof.
  induction l as [|d l IH]; cbn [find_event_from]; [by intros d e Hd%elem_of_nil|]. unfold event_slot.
  pose proof (find_seqZ (fun e => event_valid (event t d e) && (event_id (event t d e) =? eid)) ARM64_VGIC_ITS_EVENT_NUM) as Hf. cbv beta in Hf.
  destruct (is_device t did d) eqn:Ed.
  - destruct (find _ _) as [e|].
    + destruct Hf as [He Hf]. rewrite andb_true_iff, Z.eqb_eq in Hf. split_and!; [left|done..|apply Hf|apply Hf].
    + destruct (find_event_from t did eid l) as [[d' e']|]; [destruct IH; split; [by right|done]|].
      intros d' e' Hd' Hd1 He' Hv Hid. apply elem_of_cons in Hd' as [->|Hd']; [|by apply (IH d' e')].
      specialize (Hf e' He'). rewrite Hv, Hid, Z.eqb_refl in Hf. done.
  - destruct (find_event_from t did eid l) as [[d' e']|]; [destruct IH; split; [by right|done]|].
    intros d' e' Hd' Hd1. apply elem_of_cons in Hd' as [->|Hd']; [congruence|by apply IH].
Qed.

(** ** The maps *)
Definition dev_map (t : arm64_vits) (did : Z) : option (Z * Z) := d ← vits_find_device t did; Some (itt_addr (device t d), event_count (device t d)).
Definition ev_map (t : arm64_vits) (did eid : Z) : option (Z * Z) :=
  '(d, e) ← vits_find_event t did eid; Some (event_lpi (event t d e), event_collection (event t d e)).
Definition coll_map (t : arm64_vits) (cid : Z) : option Z :=
  i ← vits_find_collection t cid; if collection_valid (collection t i) then Some (collection_target (collection t i)) else None.

Lemma find_device_spec t did : match vits_find_device t did with Some d => dev_at t did d | None => forall d, ~ dev_at t did d end.
Proof.
  unfold vits_find_device. pose proof (find_seqZ (is_device t did) ARM64_VGIC_ITS_DEVICE_NUM) as H. destruct (find _ _) as [d|].
  - destruct H as [H1 H2]. apply is_device_at in H2. done.
  - intros d (H1 & H2). apply is_device_at in H2. by rewrite H in H2.
Qed.

Lemma find_event_spec t did eid : match vits_find_event t did eid with Some (d, e) => ev_at t did eid d e | None => forall d e, ~ ev_at t did eid d e end.
Proof.
  unfold vits_find_event. pose proof (find_event_from_spec t did eid (seqZ 0 ARM64_VGIC_ITS_DEVICE_NUM)) as H. destruct (find_event_from _ _ _ _) as [[d e]|].
  - destruct H as (H1 & H2 & H3). apply elem_of_seqZ in H1. apply is_device_at in H2. split; [split; [unfold device_slot; lia|done]|done].
  - intros d e ((H1 & H2) & He & Hv & Hid). apply is_device_at in H2. refine (H d e _ H2 He Hv Hid). apply elem_of_seqZ. unfold device_slot in H1. lia.
Qed.

Section Maps.
  Context (t : arm64_vits) (Hok : tables_ok t).

Lemma find_device_at did d : dev_at t did d -> vits_find_device t did = Some d.
Proof. intros H. pose proof (find_device_spec t did) as Hs. destruct (vits_find_device t did) as [d'|]; [f_equal; by apply (tk_device t Hok did)|by destruct (Hs d)]. Qed.
Lemma find_event_at did eid d e : ev_at t did eid d e -> vits_find_event t did eid = Some (d, e).
Proof.
  intros H. pose proof (find_event_spec t did eid) as Hs. destruct (vits_find_event t did eid) as [[d' e']|]; [|by destruct (Hs d e)].
  assert (d' = d) as -> by (by apply (tk_device t Hok did); [apply Hs|apply H]). by rewrite (tk_entry t Hok did eid d e' e).
Qed.
Lemma dev_map_some did x : dev_map t did = Some x <-> exists d, dev_at t did d /\ x = (itt_addr (device t d), event_count (device t d)).
Proof.
  unfold dev_map. split.
  - pose proof (find_device_spec t did) as Hs. destruct (vits_find_device t did) as [d|]; cbn; [|done]. intros [= <-]. eauto.
  - intros (d & H & ->). by rewrite (find_device_at did d H).
Qed.
Lemma ev_map_some did eid x : ev_map t did eid = Some x <-> exists d e, ev_at t did eid d e /\ x = (event_lpi (event t d e), event_collection (event t d e)).
Proof.
  unfold ev_map. split.
  - pose proof (find_event_spec t did eid) as Hs. destruct (vits_find_event t did eid) as [[d e]|]; cbn; [|done]. intros [= <-]. eauto.
  - intros (d & e & H & ->). by rewrite (find_event_at did eid d e H).
Qed.
Lemma find_collection_spec cid : vits_find_collection t cid = if (0 <=? cid) && (cid <? ARM64_VGIC_ITS_COLLECTION_NUM) then Some cid else None.
Proof.
  unfold vits_find_collection. pose proof (find_seqZ (fun i => collection_id (collection t i) =? cid) ARM64_VGIC_ITS_COLLECTION_NUM) as H.
  destruct (find _ _) as [i|]; cbv beta in H.
  - rewrite (tk_collection t Hok), Z.eqb_eq in H. destruct H as [H ->]. by replace ((0 <=? cid) && (cid <? ARM64_VGIC_ITS_COLLECTION_NUM)) with true by lia.
  - destruct (_ && _) eqn:E; [|done]. specialize (H cid ltac:(lia)). rewrite (tk_collection t Hok) in H. lia.
Qed.
End Maps.

Lemma ev_map_same t t' : tables_ok t -> tables_ok t' -> device t' = device t -> event t' = event t -> forall did eid, ev_map t' did eid = ev_map t did eid.
Proof.
  intros Hok Hok' Ed Ee did eid. apply option_eq. intros x. rewrite (ev_map_some t Hok), (ev_map_some t' Hok'). unfold ev_at, dev_at. by rewrite Ed, Ee.
Qed.

(** ** Changes of one entry *)
Lemma event_set d e x t d' e' : event (set_event d e x t) d' e' = if (d' =? d) && (e' =? e) then x else event t d' e'.
Proof. done. Qed.

Section Entry.
  Context (t : arm64_vits) (Hok : tables_ok t) (did eid d e : Z) (x : arm64_vits_event) (Hd : dev_at t did d) (He : entry_slot e) (Hid : event_id x = eid).

Lemma set_event_other did' eid' d' e' : (d', e') <> (d, e) -> ev_at (set_event d e x t) did' eid' d' e' <-> ev_at t did' eid' d' e'.
Proof.
  intros Hne. unfold ev_at, dev_at. rewrite event_set. change (device (set_event d e x t)) with (device t). replace ((d' =? d) && (e' =? e)) with false; [done|].
  destruct (Z.eqb_spec d' d) as [->|], (Z.eqb_spec e' e) as [->|]; done.
Qed.
Lemma set_event_same did' eid' : ev_at (set_event d e x t) did' eid' d e <-> event_valid x = true /\ did' = did /\ eid' = eid.
Proof.
  unfold ev_at, dev_at. rewrite event_set, !Z.eqb_refl. cbn [andb]. change (device (set_event d e x t)) with (device t). destruct Hd as (H1 & H2 & H3). rewrite H3, Hid. split; [intros ((_ & _ & <-) & _ & ? & <-); done|].
  intros (? & -> & ->). done.
Qed.

(** What the slot held before: nothing, or the same event. *)
Context (Hslot : ev_at t did eid d e \/ event_valid (event t d e) = false /\ forall d' e', ~ ev_at t did eid d' e').

Lemma slot_free did' eid' : ev_at t did' eid' d e -> did' = did /\ eid' = eid.
Proof.
  intros H. destruct Hslot as [H1|[E _]]; [|by destruct H as (_ & _ & E' & _); rewrite E in E'].
  destruct H as ((_ & _ & H3) & _ & _ & H4), H1 as ((_ & _ & H5) & _ & _ & H6). split; congruence.
Qed.

Lemma set_event_ok : (event_valid x = true -> event_device x = did /\ 0 <= eid < event_count (device t d)) -> tables_ok (set_event d e x t).
Proof.
  intros Hx. destruct Hok as [K1 K2 K3 K4 K5]. split; [exact K1| |..|exact K4|exact K5].
  - intros did' eid' d' e1 e2 H1 H2. destruct (decide ((d', e1) = (d, e))) as [Q1|N1], (decide ((d', e2) = (d, e))) as [Q2|N2].
    + congruence.
    + injection Q1 as -> ->. apply set_event_same in H1 as (_ & -> & ->). apply set_event_other in H2; [|done]. destruct Hslot as [Hs|[_ Hn]]; [by apply (K2 did eid d)|by destruct (Hn _ _ H2)].
    + injection Q2 as -> ->. apply set_event_same in H2 as (_ & -> & ->). apply set_event_other in H1; [|done]. destruct Hslot as [Hs|[_ Hn]]; [by apply (K2 did eid d)|by destruct (Hn _ _ H1)].
    + apply set_event_other in H1, H2; try done. by apply (K2 did' eid' d').
  - intros d' e' Hd' He'. rewrite event_set. change (device (set_event d e x t)) with (device t). destruct (Z.eqb_spec d' d) as [->|], (Z.eqb_spec e' e) as [->|]; cbn [andb]; try by apply K3.
    intros Hv. destruct (Hx Hv) as [Hdev Hc]. destruct Hd as (_ & H2 & H3). split_and!; [done|congruence|lia..].
Qed.

Lemma set_event_maps : (event_valid x = true -> event_device x = did /\ 0 <= eid < event_count (device t d)) ->
  dev_map (set_event d e x t) = dev_map t /\ coll_map (set_event d e x t) = coll_map t /\
  forall did' eid', ev_map (set_event d e x t) did' eid' =
    if (did' =? did) && (eid' =? eid) then if event_valid x then Some (event_lpi x, event_collection x) else None else ev_map t did' eid'.
Proof.
  intros Hx. pose proof (set_event_ok Hx) as Hok'. split_and!; [done..|]. intros did' eid'. apply option_eq. intros y. rewrite (ev_map_some _ Hok').
  destruct ((did' =? did) && (eid' =? eid)) eqn:E.
  - assert (did' = did /\ eid' = eid) as [-> ->] by lia. split.
    + intros (d' & e' & H & ->). destruct (decide ((d', e') = (d, e))) as [[= -> ->]|N].
      * apply set_event_same in H as (-> & _). by rewrite event_set, !Z.eqb_refl.
      * exfalso. apply set_event_other in H; [|done]. destruct Hslot as [Hs|[_ Hn]]; [|by destruct (Hn _ _ H)]. apply N.
        pose proof (find_event_at t Hok did eid d e Hs) as E1. rewrite (find_event_at t Hok did eid d' e' H) in E1. by injection E1 as -> ->.
    + destruct (event_valid x) eqn:Ev; [|done]. intros [= <-]. exists d, e. rewrite event_set, !Z.eqb_refl. split; [by apply set_event_same|done].
  - rewrite (ev_map_some t Hok). split; intros (d' & e' & H & ->); exists d', e'; destruct (decide ((d', e') = (d, e))) as [[= -> ->]|N].
    + apply set_event_same in H as (_ & -> & ->). lia.
    + pose proof (proj1 (set_event_other _ _ _ _ N) H). rewrite event_set. replace ((d' =? d) && (e' =? e)) with false; [done|].
      destruct (Z.eqb_spec d' d) as [->|], (Z.eqb_spec e' e) as [->|]; done.
    + apply slot_free in H as [-> ->]. lia.
    + split; [by apply set_event_other|]. rewrite event_set. replace ((d' =? d) && (e' =? e)) with false; [done|].
      destruct (Z.eqb_spec d' d) as [->|], (Z.eqb_spec e' e) as [->|]; done.
Qed.
End Entry.

(** ** MAPTI, MOVI and DISCARD *)
Lemma alloc_event_found t did eid d e l : d ∈ l -> (forall d', d' ∈ l -> is_device t did d' = true -> d' = d) -> is_device t did d = true -> eid < event_count (device t d) ->
  find (fun e => negb (event_valid (event t d e))) (seqZ 0 ARM64_VGIC_ITS_EVENT_NUM) = Some e -> alloc_event_from t did eid l = Some (d, e).
Proof.
  intros Hin Hu Hd Hc Hf. induction l as [|d' l IH]; [by apply elem_of_nil in Hin|]. cbn [alloc_event_from]. destruct (is_device t did d') eqn:Ed.
  - assert (d' = d) as -> by (apply Hu; [left|done]). replace (event_count (device t d) <=? eid) with false by lia. by rewrite Hf.
  - apply IH; [|intros d2 H2; apply Hu; by right]. apply elem_of_cons in Hin as [<-|]; [congruence|done].
Qed.

(** Rewriting an entry that is there. *)
Lemma rewrite_event t (Hok : tables_ok t) did eid d e x : ev_at t did eid d e -> event_id x = eid -> (event_valid x = true -> event_device x = event_device (event t d e)) ->
  tables_ok (set_event d e x t) /\ dev_map (set_event d e x t) = dev_map t /\ coll_map (set_event d e x t) = coll_map t /\
  forall did' eid', ev_map (set_event d e x t) did' eid' =
    if (did' =? did) && (eid' =? eid) then if event_valid x then Some (event_lpi x, event_collection x) else None else ev_map t did' eid'.
Proof.
  intros H Hid Hdev. pose proof H as (Hd & He & Hv & Hi). assert (event_valid x = true -> event_device x = did /\ 0 <= eid < event_count (device t d)) as Hx.
  { intros Hvx. rewrite Hdev by done. destruct (tk_event t Hok d e (proj1 Hd) He Hv) as (_ & -> & Hb). rewrite Hi in Hb. split; [apply Hd|done]. }
  split; [by apply (set_event_ok t Hok did eid); auto|]. by apply set_event_maps; auto.
Qed.

Section Commands.
  Context (t : arm64_vits) (Hok : tables_ok t).

(** The entries of a device never run out: the events that are mapped have different
    numbers below the size of its table. *)
Lemma entry_free did eid d : dev_at t did d -> 0 <= eid < event_count (device t d) -> (forall e, ~ ev_at t did eid d e) ->
  exists e, find (fun e => negb (event_valid (event t d e))) (seqZ 0 ARM64_VGIC_ITS_EVENT_NUM) = Some e /\ entry_slot e /\ event_valid (event t d e) = false.
Proof.
  intros Hd Hc Hn. pose proof (find_seqZ (fun e => negb (event_valid (event t d e))) ARM64_VGIC_ITS_EVENT_NUM) as Hf. destruct (find _ _) as [e|].
  { exists e. destruct Hf as [He Hf]. apply negb_true_iff in Hf. done. }
  exfalso. cbv beta in Hf. assert (forall e, e ∈ seqZ 0 ARM64_VGIC_ITS_EVENT_NUM -> ev_at t did (event_id (event t d e)) d e) as Hall.
  { intros e He%elem_of_seqZ. assert (entry_slot e) as He' by (unfold entry_slot; lia). split; [done|]. split; [done|]. split; [|done].
    by apply negb_false_iff, Hf. }
  set (ids := (fun e => event_id (event t d e)) <$> seqZ 0 ARM64_VGIC_ITS_EVENT_NUM).
  assert (NoDup (eid :: ids)) as Hnd.
  { apply NoDup_cons. split; [intros (e & E & He)%list_elem_of_fmap; apply (Hn e); rewrite E; by apply Hall|].
    apply NoDup_fmap_2_strong; [|apply NoDup_seqZ]. intros e1 e2 H1 H2 E. apply (tk_entry t Hok did (event_id (event t d e1)) d); [by apply Hall|rewrite E; by apply Hall]. }
  assert (eid :: ids ⊆ seqZ 0 ARM64_VGIC_ITS_EVENT_NUM) as Hsub.
  { pose proof (tk_count t Hok d). intros y Hy. apply elem_of_cons in Hy as [->|(e & -> & He)%list_elem_of_fmap]; apply elem_of_seqZ; [lia|].
    destruct (Hall e He) as (_ & He' & Hv & _). pose proof (tk_event t Hok d e (proj1 Hd) He' Hv). lia. }
  apply (NoDup_submseteq _ _ Hnd) in Hsub. apply submseteq_length in Hsub. unfold ids in Hsub. rewrite length_cons, length_fmap, length_seqZ in Hsub. lia.
Qed.

Lemma coll_lookup cid : match vits_find_collection t cid with
  | Some i => i = cid /\ coll_map t cid = (if collection_valid (collection t cid) then Some (collection_target (collection t cid)) else None)
  | None => coll_map t cid = None end.
Proof.
  unfold coll_map. rewrite (find_collection_spec t Hok). by destruct (_ && _).
Qed.
Lemma dev_lookup did : match vits_find_device t did with
  | Some d => dev_at t did d /\ dev_map t did = Some (itt_addr (device t d), event_count (device t d))
  | None => dev_map t did = None end.
Proof. unfold dev_map. pose proof (find_device_spec t did) as H. by destruct (vits_find_device t did). Qed.

Definition mapti_allowed (did eid lpi cid : Z) : Prop :=
  (exists itt n, dev_map t did = Some (itt, n) /\ eid < n) /\ vgic_irq_is_lpi lpi = true /\ coll_map t cid <> None.

Lemma mapti_entry did eid d : 0 <= eid -> dev_at t did d -> eid < event_count (device t d) ->
  exists d' e t1, (match vits_find_event t did eid with Some (d, e) => Some (d, e, t) | None => vits_alloc_event t did eid end) = Some (d', e, t1) /\
    tables_ok t1 /\ ev_at t1 did eid d' e /\ dev_map t1 = dev_map t /\ coll_map t1 = coll_map t /\
    forall did' eid', (did', eid') <> (did, eid) -> ev_map t1 did' eid' = ev_map t did' eid'.
Proof.
  intros H0 Hd Hc. pose proof (find_event_spec t did eid) as Hs. destruct (vits_find_event t did eid) as [[d' e]|].
  { exists d', e, t. done. }
  destruct (entry_free did eid d Hd ltac:(lia) (Hs d)) as (e & Ef & He & Ev). set (x := (event t d e) <| event_device := did |> <| event_id := eid |> <| event_valid := true |>).
  assert (vits_alloc_event t did eid = Some (d, e, set_event d e x t)) as ->.
  { unfold vits_alloc_event. rewrite (alloc_event_found t did eid d e); [done|..|done|done].
    - apply elem_of_seqZ. destruct Hd as [Hd _]. unfold device_slot in Hd. lia.
    - intros d2 H2%elem_of_seqZ H3%is_device_at. apply (tk_device t Hok did); [|done]. split; [unfold device_slot; lia|done].
    - by apply is_device_at, Hd. }
  assert (event_valid x = true -> event_device x = did /\ 0 <= eid < event_count (device t d)) as Hx by (intros _; split; [done|lia]).
  assert (ev_at t did eid d e \/ event_valid (event t d e) = false /\ forall d' e', ~ ev_at t did eid d' e') as Hslot by (by right).
  exists d, e, (set_event d e x t). destruct (set_event_maps t Hok did eid d e x Hd He eq_refl Hslot Hx) as (E1 & E2 & E3).
  split_and!; [done|by apply (set_event_ok t Hok did eid)|by apply (set_event_same t did eid d e x Hd He eq_refl)|done|done|].
  intros did' eid' Hne. rewrite E3. destruct (Z.eqb_spec did' did) as [->|], (Z.eqb_spec eid' eid) as [->|]; done.
Qed.

Lemma mapti_refines did eid lpi cid : 0 <= eid ->
  match mapti_event did eid lpi cid t with
  | Some (d, e, t') => mapti_allowed did eid lpi cid /\ tables_ok t' /\ ev_at t' did eid d e /\ event_lpi (event t' d e) = lpi /\ event_collection (event t' d e) = cid /\
      dev_map t' = dev_map t /\ coll_map t' = coll_map t /\
      forall did' eid', ev_map t' did' eid' = if (did' =? did) && (eid' =? eid) then Some (lpi, cid) else ev_map t did' eid'
  | None => ~ mapti_allowed did eid lpi cid
  end.
Proof.
  intros H0. unfold mapti_event, mapti_allowed. pose proof (dev_lookup did) as Hd. pose proof (coll_lookup cid) as Hc.
  destruct (vits_find_device t did) as [d|]; [|intros ((itt & n & E & _) & _); congruence]. destruct Hd as [Hd Ed].
  destruct (vits_find_collection t cid) as [i|]; [|intros (_ & _ & E); congruence]. destruct Hc as [-> Ec].
  destruct (_ || _) eqn:E.
  { rewrite !orb_true_iff, !negb_true_iff in E. intros ((itt & n & E1 & E2) & E3 & E4). rewrite Ed in E1. injection E1 as _ <-.
    destruct E as [[E|E]|E]; [congruence|lia|]. by rewrite Ec, E in E4. }
  rewrite !orb_false_iff, !negb_false_iff in E. destruct E as [[El En] Ev].
  destruct (mapti_entry did eid d H0 Hd ltac:(lia)) as (d' & e & t1 & -> & Hok1 & He & E1 & E2 & E3).
  set (x := (event t1 d' e) <| event_lpi := lpi |> <| event_collection := cid |>). assert (event_valid x = true) as Hvx by apply He.
  destruct (rewrite_event t1 Hok1 did eid d' e x He) as (H1 & F1 & F2 & F3); [apply He|done|]. split_and!; [by exists (itt_addr (device t d)), (event_count (device t d)); split; [|lia]|done|by rewrite Ec, Ev|done|..].
  - apply (set_event_same t1 did eid d' e x (proj1 He) (proj1 (proj2 He))); [apply He|done].
  - by rewrite event_set, !Z.eqb_refl.
  - by rewrite event_set, !Z.eqb_refl.
  - congruence.
  - congruence.
  - intros did' eid'. rewrite F3, Hvx. destruct (_ && _) eqn:E; [done|]. apply E3. intros [= -> ->]. rewrite !Z.eqb_refl in E. done.
Qed.

Lemma movi_refines did eid cid : let '(b, t') := cmd_movi did eid cid t in
  (b = true <-> ev_map t did eid <> None /\ coll_map t cid <> None) /\ tables_ok t' /\ dev_map t' = dev_map t /\ coll_map t' = coll_map t /\
  forall did' eid', ev_map t' did' eid' = if b && (did' =? did) && (eid' =? eid) then (fun p => (p.1, cid)) <$> ev_map t did eid else ev_map t did' eid'.
Proof.
  unfold cmd_movi. pose proof (coll_lookup cid) as Hc. pose proof (find_event_spec t did eid) as Hs.
  destruct (vits_find_event t did eid) as [[d e]|] eqn:Ef.
  2:{ assert (ev_map t did eid = None) as En by (unfold ev_map; by rewrite Ef). split_and!; try done. split; [done|]. intros [H _]. congruence. }
  assert (ev_map t did eid = Some (event_lpi (event t d e), event_collection (event t d e))) as Em by (unfold ev_map; by rewrite Ef).
  destruct (vits_find_collection t cid) as [i|]; [destruct Hc as [-> Hc]|split_and!; try done; split; [done|]; intros [_ H]; congruence].
  destruct (collection_valid (collection t cid)) eqn:Ev; [|split_and!; try done; split; [done|]; intros [_ H]; congruence].
  destruct (rewrite_event t Hok did eid d e ((event t d e) <| event_collection := cid |>) Hs) as (H1 & E1 & E2 & E3); [apply Hs|done|].
  split_and!; [split; [intros _; split; congruence|done]|done..|]. intros did' eid'. rewrite E3, Em. cbn [andb]. destruct ((did' =? did) && (eid' =? eid)); [|done].
  change (event_valid ((event t d e) <| event_collection := cid |>)) with (event_valid (event t d e)). destruct Hs as (_ & _ & -> & _). done.
Qed.

Lemma discard_refines did eid d e : ev_at t did eid d e -> let t' := set_event d e ((event t d e) <| event_valid := false |>) t in
  tables_ok t' /\ dev_map t' = dev_map t /\ coll_map t' = coll_map t /\
  forall did' eid', ev_map t' did' eid' = if (did' =? did) && (eid' =? eid) then None else ev_map t did' eid'.
Proof. intros H. by apply (rewrite_event t Hok did eid d e); [|apply H|]. Qed.

Lemma mapc_refines cid target valid g : let '(b, t') := cmd_mapc cid target valid g t in
  (b = true <-> 0 <= cid < ARM64_VGIC_ITS_COLLECTION_NUM) /\ tables_ok t' /\ dev_map t' = dev_map t /\ (forall did eid, ev_map t' did eid = ev_map t did eid) /\
  forall c, coll_map t' c = if b && (c =? cid) then if valid then Some (vits_valid_target_vcpu g target) else None else coll_map t c.
Proof.
  unfold cmd_mapc. rewrite (find_collection_spec t Hok). destruct (_ && _) eqn:E; [|by split_and!; [split; [done|lia]|..]].
  set (t' := t <| collection := _ |>). assert (tables_ok t') as Hok'.
  { destruct Hok as [K1 K2 K3 K4 K5]. split; [exact K1|exact K2|exact K3|exact K4|]. intros i. cbn. unfold upd. destruct (Z.eqb_spec i cid) as [->|]; [apply K5|apply K5]. }
  split; [by split; [lia|]|]. split; [done|]. split; [reflexivity|]. split; [by apply ev_map_same|]. intros c. unfold coll_map. rewrite (find_collection_spec t Hok), (find_collection_spec t' Hok').
  cbn [andb]. destruct (Z.eqb_spec c cid) as [->|Hne].
  - rewrite E. cbn. by rewrite upd_eq.
  - destruct ((0 <=? c) && (c <? ARM64_VGIC_ITS_COLLECTION_NUM)); [|done]. cbn. unfold upd. by rewrite (proj2 (Z.eqb_neq c cid) Hne).
Qed.
End Commands.

(** ** MAPD *)
Section Device.
  Context (t t' : arm64_vits) (Hok : tables_ok t) (did d : Z) (y : arm64_vits_device) (clear : bool).
  Context (Hd : device_slot d) (Hy : device_valid y = true -> device_id y = did) (Hcount : 0 <= event_count y <= ARM64_VGIC_ITS_EVENT_NUM).
  Context (Hthis : forall did', dev_at t did' d -> did' = did) (Honly : forall d', dev_at t did d' -> d' = d).
  Context (Hdev : forall d', device t' d' = if d' =? d then y else device t d') (Hcoll : collection t' = collection t).
  Context (Hother : forall d' e, d' <> d -> event t' d' e = event t d' e).
  Context (Hrow : if clear then forall e, entry_slot e -> event_valid (event t' d e) = false
                  else dev_at t did d /\ device_valid y = true /\ event_count y = event_count (device t d) /\ forall e, event t' d e = event t d e).

Lemma device_at did' d' : dev_at t' did' d' <-> (d' = d /\ did' = did /\ device_valid y = true) \/ (d' <> d /\ dev_at t did' d').
Proof.
  unfold dev_at. rewrite Hdev. destruct (Z.eqb_spec d' d) as [->|Hne].
  - split; [intros (_ & Hv & <-); left; by rewrite Hy|intros [(_ & -> & Hv)|[]]; [|done]; by split_and!; [..|apply Hy]].
  - split; [by right|]. intros [[]|[]]; done.
Qed.
Lemma entry_at did' eid d' e : ev_at t' did' eid d' e <-> ev_at t did' eid d' e /\ negb ((did' =? did) && clear) = true.
Proof.
  unfold ev_at. rewrite device_at. destruct (decide (d' = d)) as [->|Hne].
  - destruct clear.
    + split; [intros (_ & He & Hv & _); by rewrite Hrow in Hv|]. intros [(H & _) E]. apply Hthis in H as ->. by rewrite Z.eqb_refl in E.
    + destruct Hrow as (H1 & H2 & _ & ->). rewrite andb_false_r. split; [intros ([(_ & -> & _)|[N _]] & Hx); [|done]; done|].
      intros [(H & Hx) _]. pose proof (Hthis did' H) as ->. split; [by left|done].
  - rewrite Hother by done. split.
    + intros ([[]|[_ H]] & Hx); [done|]. split; [done|]. destruct (Z.eqb_spec did' did) as [->|]; [|done]. by apply Honly in H.
    + intros [(H & Hx) _]. split; [by right|done].
Qed.

Lemma device_ok : tables_ok t'.
Proof.
  destruct Hok as [K1 K2 K3 K4 K5]. split.
  - intros did' d1 d2 H1 H2. apply device_at in H1, H2. destruct H1 as [(-> & -> & _)|[N1 H1]], H2 as [(-> & E & _)|[N2 H2]]; try done; [by apply Honly in H2|subst; by apply Honly in H1|by apply (K1 did')].
  - intros did' eid d' e1 e2 H1%entry_at H2%entry_at. by apply (K2 did' eid d' e1 e2); [apply H1|apply H2].
  - intros d' e Hd' He. rewrite Hdev. destruct (Z.eqb_spec d' d) as [->|Hne]; [|rewrite Hother by done; by apply K3].
    destruct clear; [intros Hv; by rewrite Hrow in Hv|]. destruct Hrow as ((_ & _ & Ed) & Hv & -> & ->). intros Hx.
    destruct (K3 d e Hd' He Hx) as (_ & E & Hb). split_and!; [done|rewrite E, Hy by done; done|lia..].
  - intros d'. rewrite Hdev. destruct (d' =? d); [done|apply K4].
  - intros i. rewrite Hcoll. apply K5.
Qed.

Lemma device_maps :
  (forall did', dev_map t' did' = if did' =? did then if device_valid y then Some (itt_addr y, event_count y) else None else dev_map t did') /\
  (forall c, coll_map t' c = coll_map t c) /\ forall did' eid, ev_map t' did' eid = if (did' =? did) && clear then None else ev_map t did' eid.
Proof.
  pose proof device_ok as Hok'. split_and!.
  - intros did'. apply option_eq. intros x. rewrite (dev_map_some t' Hok'). setoid_rewrite device_at. destruct (Z.eqb_spec did' did) as [->|Hne].
    + split.
      * intros (d' & [(-> & _ & Hv)|[N H]] & ->); [rewrite Hv, Hdev, Z.eqb_refl; done|by apply Honly in H].
      * destruct (device_valid y); [|done]. intros [= <-]. exists d. rewrite Hdev, Z.eqb_refl. split; [by left|done].
    + rewrite (dev_map_some t Hok). split; intros (d' & H & ->); exists d'.
      * destruct H as [(_ & E & _)|[N H]]; [done|]. by rewrite Hdev, (proj2 (Z.eqb_neq d' d) N).
      * destruct (decide (d' = d)) as [->|N]; [by apply Hthis in H|]. split; [by right|]. by rewrite Hdev, (proj2 (Z.eqb_neq d' d) N).
  - intros c. unfold coll_map. rewrite (find_collection_spec t Hok), (find_collection_spec t' Hok'). by rewrite Hcoll.
  - intros did' eid. apply option_eq. intros x. rewrite (ev_map_some t' Hok'). setoid_rewrite entry_at. destruct ((did' =? did) && clear) eqn:E; cbn [negb].
    + split; [by intros (? & ? & [_ ?] & _)|done].
    + rewrite (ev_map_some t Hok). split; intros (d' & e & H & ->); exists d', e; [destruct H as [H _]|]; (split; [done|]).
      all: destruct (decide (d' = d)) as [->|N]; [|by rewrite Hother].
      all: destruct clear; [pose proof (Hthis _ (proj1 H)) as ->; by rewrite Z.eqb_refl in E|]; by destruct Hrow as (_ & _ & _ & ->).
Qed.
End Device.

Definition table_size (size_field : Z) : Z :=
  let size := size_field + 1 in
  let count := if size <? 16 then Z.shiftl 1 size else ARM64_VGIC_ITS_EVENT_NUM in if ARM64_VGIC_ITS_EVENT_NUM <? count then ARM64_VGIC_ITS_EVENT_NUM else count.
Lemma table_size_range s : 0 <= s -> 0 <= table_size s <= ARM64_VGIC_ITS_EVENT_NUM.
Proof.
  intros Hs. unfold table_size. cbv zeta. set (c := if _ <? 16 then _ else _). assert (0 <= c) by (unfold c; case_match; [apply Z.shiftl_nonneg; lia|done]).
  destruct (Z.ltb_spec ARM64_VGIC_ITS_EVENT_NUM c); unfold ARM64_VGIC_ITS_EVENT_NUM in *; lia.
Qed.

(** What a MAPD that is accepted makes of the maps. *)
Definition mapd_result (t t' : arm64_vits) (did itt n : Z) (valid : bool) : Prop :=
  (forall did', dev_map t' did' = if did' =? did then if valid then Some (itt, n) else None else dev_map t did') /\
  (forall c, coll_map t' c = coll_map t c) /\
  forall did' eid, ev_map t' did' eid = if (did' =? did) && negb (valid && bool_decide (dev_map t did = Some (itt, n))) then None else ev_map t did' eid.

Lemma drop_refines t did itt n : tables_ok t -> tables_ok (vits_drop_device did t) /\ mapd_result t (vits_drop_device did t) did itt n false.
Proof.
  intros Hok. unfold vits_drop_device, mapd_result. pose proof (dev_lookup t did) as Hl. destruct (vits_find_device t did) as [d|] eqn:Ef.
  - destruct Hl as [Hd _]. set (y := {| device_id := 0; itt_addr := 0; event_count := 0; device_valid := false |}). set (t' := set_device d y _).
    assert (forall did', dev_at t did' d -> did' = did) as H1 by (intros did' (_ & _ & <-); apply Hd).
    assert (forall d', dev_at t did d' -> d' = d) as H2 by (intros d' H; by apply (tk_device t Hok did)).
    assert (forall d' e, d' <> d -> event t' d' e = event t d' e) as H3 by (intros d' e N; cbn; by rewrite (proj2 (Z.eqb_neq d' d) N)).
    assert (forall e, entry_slot e -> event_valid (event t' d e) = false) as H4.
    { intros e [He1 He2]. cbn. by rewrite Z.eqb_refl, (proj2 (Z.leb_le 0 e) He1), (proj2 (Z.ltb_lt e _) He2). }
    destruct (device_maps t t' Hok did d y true (proj1 Hd) ltac:(done) ltac:(done) H1 H2 ltac:(done) eq_refl H3 H4) as (E1 & E2 & E3).
    split; [by apply (device_ok t t' Hok did d y true (proj1 Hd))|done].
  - split; [done|]. split_and!; [|done|]; intros did'; destruct (Z.eqb_spec did' did) as [->|]; try done. intros eid. cbn.
    unfold ev_map. pose proof (find_event_spec t did eid) as Hs. destruct (vits_find_event t did eid) as [[d e]|]; [|done].
    pose proof (find_device_spec t did) as Hn. rewrite Ef in Hn. by destruct (Hn d), Hs.
Qed.

Lemma alloc_device_spec t did : match vits_alloc_device t did with
  | Some (d, t1) => device_slot d /\ device_valid (device t d) = false /\ t1 = set_device d ((device t d) <| device_id := did |> <| device_valid := true |>) t
  | None => forall d, device_slot d -> device_valid (device t d) = true end.
Proof.
  unfold vits_alloc_device. pose proof (find_seqZ (fun d => negb (device_valid (device t d))) ARM64_VGIC_ITS_DEVICE_NUM) as H. destruct (find _ _) as [d|].
  - destruct H as [H1 H2]. by apply negb_true_iff in H2.
  - intros d Hd. by apply negb_false_iff, H.
Qed.

Lemma mapd_known t did d itt n : tables_ok t -> dev_at t did d -> 0 <= n <= ARM64_VGIC_ITS_EVENT_NUM ->
  let x := device t d in
  let t' := set_device d (x <| itt_addr := itt |> <| event_count := n |>)
    (if negb (itt_addr x =? itt) || negb (event_count x =? n) then t <| event := fun d' e => if d' =? d then zero_event else event t d' e |> else t) in
  tables_ok t' /\ mapd_result t t' did itt n true.
Proof.
  intros Hok Hd Hn x t'. set (changed := negb (itt_addr x =? itt) || negb (event_count x =? n)) in *. set (y := x <| itt_addr := itt |> <| event_count := n |>) in *.
  assert (forall did', dev_at t did' d -> did' = did) as H1 by (intros did' (_ & _ & <-); apply Hd).
  assert (forall d', dev_at t did d' -> d' = d) as H2 by (intros d' H; by apply (tk_device t Hok did)).
  assert (forall d', device t' d' = if d' =? d then y else device t d') as H3 by (intros d'; unfold t'; by destruct changed).
  assert (collection t' = collection t) as H4 by (unfold t'; by destruct changed).
  assert (forall d' e, d' <> d -> event t' d' e = event t d' e) as H5 by (intros d' e N; unfold t'; destruct changed; [cbn; by rewrite (proj2 (Z.eqb_neq d' d) N)|done]).
  assert (if changed then forall e, entry_slot e -> event_valid (event t' d e) = false
          else dev_at t did d /\ device_valid y = true /\ event_count y = event_count (device t d) /\ forall e, event t' d e = event t d e) as H6.
  { unfold t'. destruct changed eqn:E; [intros e _; cbn; by rewrite Z.eqb_refl|]. unfold changed in E. split_and!; [done|apply Hd| |done]. cbn. unfold x in E. lia. }
  assert (device_valid y = true -> device_id y = did) as H7 by (intros _; apply Hd).
  destruct (device_maps t t' Hok did d y changed (proj1 Hd) H7 Hn H1 H2 H3 H4 H5 H6) as (E1 & E2 & E3).
  split; [by apply (device_ok t t' Hok did d y changed (proj1 Hd) H7)|]. change (device_valid y) with (device_valid (device t d)) in E1. rewrite (proj1 (proj2 Hd)) in E1.
  split_and!; [done..|]. intros did' eid. rewrite E3. f_equal. f_equal. cbn [andb].
  assert (dev_map t did = Some (itt_addr x, event_count x)) as Em by (apply (dev_map_some t Hok); eauto). rewrite Em. unfold changed.
  case_bool_decide as Eb; [injection Eb as -> ->; by rewrite !Z.eqb_refl|]. cbn.
  destruct (Z.eqb_spec (itt_addr x) itt) as [<-|], (Z.eqb_spec (event_count x) n) as [<-|]; done.
Qed.

Lemma mapd_new t did d itt n : tables_ok t -> device_slot d -> device_valid (device t d) = false -> (forall d', ~ dev_at t did d') -> 0 <= n <= ARM64_VGIC_ITS_EVENT_NUM ->
  let t1 := set_device d ((device t d) <| device_id := did |> <| device_valid := true |>) t in
  let x := device t1 d in
  let t' := set_device d (x <| itt_addr := itt |> <| event_count := n |>)
    (if negb (itt_addr x =? itt) || negb (event_count x =? n) then t1 <| event := fun d' e => if d' =? d then zero_event else event t1 d' e |> else t1) in
  tables_ok t' /\ mapd_result t t' did itt n true.
Proof.
  intros Hok Hd Hv Hnone Hn t1 x t'. set (changed := negb (itt_addr x =? itt) || negb (event_count x =? n)) in *. set (y := x <| itt_addr := itt |> <| event_count := n |>) in *.
  assert (x = (device t d) <| device_id := did |> <| device_valid := true |>) as Ex by (unfold x, t1; cbn; unfold upd; by rewrite Z.eqb_refl).
  assert (forall did', dev_at t did' d -> did' = did) as H1 by (intros did' (_ & E & _); congruence).
  assert (forall d', dev_at t did d' -> d' = d) as H2 by (intros d' H; by destruct (Hnone d')).
  assert (forall d', device t' d' = if d' =? d then y else device t d') as H3 by (intros d'; unfold t'; destruct changed; cbn; unfold upd; by destruct (d' =? d)).
  assert (collection t' = collection t) as H4 by (unfold t'; by destruct changed).
  assert (forall d' e, d' <> d -> event t' d' e = event t d' e) as H5 by (intros d' e N; unfold t'; destruct changed; [cbn; by rewrite (proj2 (Z.eqb_neq d' d) N)|done]).
  assert (forall e, entry_slot e -> event_valid (event t' d e) = false) as H6.
  { intros e He. unfold t'. destruct changed; [cbn; by rewrite Z.eqb_refl|]. change (event_valid (event t d e) = false). destruct (event_valid (event t d e)) eqn:E; [|done].
    destruct (tk_event t Hok d e Hd He E). congruence. }
  assert (device_valid y = true -> device_id y = did) as H7 by (intros _; change (device_id x = did); by rewrite Ex).
  destruct (device_maps t t' Hok did d y true Hd H7 Hn H1 H2 H3 H4 H5 H6) as (E1 & E2 & E3).
  split; [by apply (device_ok t t' Hok did d y true Hd H7)|]. assert (device_valid y = true) as Ey by (change (device_valid x = true); by rewrite Ex). rewrite Ey in E1.
  assert (dev_map t did = None) as Em.
  { destruct (dev_map t did) as [p|] eqn:E; [|done]. apply (dev_map_some t Hok) in E as (d' & H & _). by destruct (Hnone d'). }
  split_and!; [done..|]. intros did' eid. rewrite E3. by rewrite Em.
Qed.

Lemma mapd_refines t did size itt valid : tables_ok t -> 0 <= size -> let '(b, t') := cmd_mapd did size itt valid t in
  tables_ok t' /\ (if b then mapd_result t t' did itt (table_size size) valid
                   else t' = t /\ valid = true /\ dev_map t did = None /\ forall d, device_slot d -> device_valid (device t d) = true).
Proof.
  intros Hok Hs. pose proof (table_size_range size Hs) as Hn. unfold cmd_mapd. destruct valid; cbn [negb]; [|by apply drop_refines].
  pose proof (dev_lookup t did) as Hl. pose proof (find_device_spec t did) as Hf. destruct (vits_find_device t did) as [d|].
  - by apply mapd_known.
  - pose proof (alloc_device_spec t did) as Ha. destruct (vits_alloc_device t did) as [[d t1]|]; [|done]. destruct Ha as (H1 & H2 & ->). by apply mapd_new.
Qed.

(** ** Commands on the whole *)
Lemma tables_same t t' : collection t' = collection t -> device t' = device t -> event t' = event t -> tables_ok t -> tables_ok t'.
Proof. intros E1 E2 E3 [K1 K2 K3 K4 K5]. unfold dev_at, ev_at in *. split; unfold ev_at, dev_at; rewrite ?E1, ?E2, ?E3; done. Qed.

Lemma init_tables_ok n : tables_ok (arm64_vgicv3_its_init n).
Proof. split; [by intros did d d' (_ & H & _)|by intros did eid d e e' ((_ & H & _) & _)|done..]. Qed.

Record its_maps := { m_dev : Z -> option (Z * Z); m_ev : Z -> Z -> option (Z * Z); m_coll : Z -> option Z }.
Definition maps_of (t : arm64_vits) : its_maps := {| m_dev := dev_map t; m_ev := ev_map t; m_coll := coll_map t |}.
#[export] Instance its_maps_equiv : Equiv its_maps := fun m m' =>
  (forall did, m_dev m did = m_dev m' did) /\ (forall did eid, m_ev m did eid = m_ev m' did eid) /\ (forall c, m_coll m c = m_coll m' c).
#[export] Instance its_maps_equivalence : Equivalence (≡@{its_maps}).
Proof.
  split; [by intros m|intros m m' (H1 & H2 & H3); by split_and!|].
  intros m1 m2 m3 (H1 & H2 & H3) (G1 & G2 & G3). split_and!; intros; [by rewrite H1|by rewrite H2|by rewrite H3].
Qed.

(** The commands on the maps. *)
Definition spec_mapd (did itt n : Z) (valid : bool) (m : its_maps) : its_maps :=
  {| m_dev := fun x => if x =? did then if valid then Some (itt, n) else None else m_dev m x;
     m_ev := fun x e => if (x =? did) && negb (valid && bool_decide (m_dev m did = Some (itt, n))) then None else m_ev m x e;
     m_coll := m_coll m |}.
Definition spec_mapc (cid : Z) (target : option Z) (m : its_maps) : its_maps :=
  {| m_dev := m_dev m; m_ev := m_ev m; m_coll := fun c => if c =? cid then target else m_coll m c |}.
Definition spec_event (did eid : Z) (x : option (Z * Z)) (m : its_maps) : its_maps :=
  {| m_dev := m_dev m; m_ev := fun d e => if (d =? did) && (e =? eid) then x else m_ev m d e; m_coll := m_coll m |}.

(** An event can be mapped: it fits the table of its device, and there is a vCPU for it. *)
Definition spec_mapti (did eid lpi cid : Z) (m : its_maps) : its_maps :=
  match m_dev m did, m_coll m cid with
  | Some (_, n), Some _ => if (eid <? n) && vgic_irq_is_lpi lpi then spec_event did eid (Some (lpi, cid)) m else m
  | _, _ => m
  end.

(** [vcpus] is the number of vCPUs; [room] tells that a device slot is free. *)
Definition spec_command (vcpus : Z) (room : bool) (cmd : its_cmd) (m : its_maps) : its_maps :=
  let opcode := Z.land (cmd0 cmd) 0xff in
  let did := u32 (Z.shiftr (cmd0 cmd) 32) in
  let eid := u32 (cmd1 cmd) in
  let cid := Z.land (cmd2 cmd) 0xffff in
  let valid := negb (Z.land (cmd2 cmd) (Z.shiftl 1 63) =? 0) in
  if opcode =? GITS_CMD_MAPD then
    if valid && negb room && bool_decide (m_dev m did = None) then m
    else spec_mapd did (Z.land (cmd2 cmd) GITS_CMD_ITT_ADDRESS_MASK) (table_size (Z.land (cmd1 cmd) 0x1f)) valid m
  else if opcode =? GITS_CMD_MAPC then
    let target := Z.land (Z.shiftr (cmd2 cmd) 16) 0xffff in
    if cid <? ARM64_VGIC_ITS_COLLECTION_NUM then spec_mapc cid (if valid then Some (if target <? vcpus then target else 0) else None) m else m
  else if opcode =? GITS_CMD_MAPI then spec_mapti did eid (u32 (ARM64_VGIC_LPI_BASE + eid)) cid m
  else if opcode =? GITS_CMD_MAPTI then spec_mapti did eid (u32 (Z.shiftr (cmd1 cmd) 32)) cid m
  else if opcode =? GITS_CMD_MOVI then
    match m_ev m did eid, m_coll m cid with
    | Some (lpi, _), Some _ => spec_event did eid (Some (lpi, cid)) m
    | _, _ => m
    end
  else if opcode =? GITS_CMD_DISCARD then spec_event did eid None m
  else m.
