(* ===== verification/VgicOps.v ===== *)
(** * Operations of the virtual interrupt controller

    Every entry point takes the LRs back, changes descriptors and LRs of one vCPU
    and, while the vCPU is loaded, fills the LRs again.  All of them, and all the
    steps of the guest, keep the invariant of [VgicInv] and leave the other vCPUs
    alone. *)
From S2P Require Import Prelude Bits Vgic VgicInv VgicFlow VgicFlush Its ItsTable.

Record inv (w : vgic_world) : Prop := {
  inv_wf : wf w;
  inv_running p v : running w p = Some v -> v < ARM64_VGIC_MAX_VCPUS /\ pcpu_of w v = p /\ hw_ok w p;
  inv_tables : its_enabled (vgic w) = true -> tables_ok (its (vgic w));
  inv_vcpus : vcpu_count (vgic w) <= ARM64_VGIC_MAX_VCPUS;
}.

Lemma hw_ok_frame me v w w' p : frame me v w w' -> ich_lr (cpuif w' p) = ich_lr (cpuif w p) -> hw_ok w p -> hw_ok w' p.
Proof. intros Hf E H. unfold hw_ok in *. by rewrite E, (fr_its _ _ _ _ Hf), (fr_count _ _ _ _ Hf). Qed.

Lemma inv_step me v w w' : inv w -> ok_step me v w w' -> (running w me <> None -> hw_ok w' me) -> inv w'.
Proof.
  intros [Hw Hr Ht Hn] [Hw' Hf] Hme. split; [done| |by rewrite (fr_its _ _ _ _ Hf), (fr_tables _ _ _ _ Hf)|by rewrite (fr_vcpus _ _ _ _ Hf)]. intros p u. rewrite (fr_running _ _ _ _ Hf), (fr_pcpu _ _ _ _ Hf). intros E.
  destruct (Hr p u E) as (Hu & Hp & Hh). split_and!; [done..|]. destruct (decide (p = me)) as [->|Hne]; [apply Hme; by rewrite E|].
  apply (hw_ok_frame me v w w' p Hf); [by rewrite (fr_cpuif _ _ _ _ Hf)|done].
Qed.

Lemma loaded_running w me v : vgicv3_vcpu_is_loaded w me v = true <-> running w me = Some v.
Proof.
  unfold vgicv3_vcpu_is_loaded. destruct (running w me) as [u|]; [|done]. rewrite Z.eqb_eq. split; [by intros ->|by intros [= ->]].
Qed.

(** A vCPU that is loaded here is not running elsewhere. *)
Lemma loaded_not_remote w me v : inv w -> vgicv3_vcpu_is_loaded w me v = true -> vgicv3_vcpu_is_running_remote w me v = false.
Proof.
  intros Hi Hl. apply loaded_running in Hl. destruct (inv_running w Hi me v Hl) as (_ & Hp & _). unfold vgicv3_vcpu_is_running_remote.
  by rewrite Hp, Z.eqb_refl.
Qed.
Lemma cur_live w me v cur : (cur = true -> running w me = Some v) -> live w me v cur = vgicv3_vcpu_is_loaded w me v.
Proof. intros H. unfold live. destruct cur; [|done]. symmetry. by apply loaded_running, H. Qed.

Lemma frame_tables me v w w' : inv w -> frame me v w w' -> its_enabled (vgic w') = true -> tables_ok (its (vgic w')).
Proof. intros Hi Hf. rewrite (fr_its _ _ _ _ Hf), (fr_tables _ _ _ _ Hf). apply (inv_tables w Hi). Qed.

Lemma frame_vcpus me v w w' : inv w -> frame me v w w' -> vcpu_count (vgic w') <= ARM64_VGIC_MAX_VCPUS.
Proof. intros Hi Hf. rewrite (fr_vcpus _ _ _ _ Hf). apply (inv_vcpus w Hi). Qed.

(** The shape of an entry point: sync, an update of the vCPU, flush if loaded. *)
Definition update_ok (me v : Z) (g : vgic_world -> vgic_world) : Prop := forall w, wf w -> ok_step me v w (g w) /\ cpuif (g w) = cpuif w.
Definition op (me v : Z) (cur : bool) (g : vgic_world -> vgic_world) (w : vgic_world) : vgic_world :=
  let w := g (vgicv3_sync_vcpu me v cur w) in if vgicv3_vcpu_is_loaded w me v then vgicv3_flush_vcpu me v cur w else w.

Section Op.
  Context (me v : Z) (cur : bool) (g : vgic_world -> vgic_world) (w : vgic_world).
  Context (Hi : inv w) (Hcur : cur = true -> running w me = Some v) (Hg : update_ok me v g).
Let w1 := vgicv3_sync_vcpu me v cur w.
Let w2 := g w1.

Lemma op_hw : live w me v cur = true -> hw_ok w me.
Proof. rewrite (cur_live w me v cur Hcur). intros Hl. apply loaded_running in Hl. by apply (inv_running w Hi me v). Qed.

Lemma op_sync : ok_step me v w w1.
Proof. apply sync_vcpu_spec; [done|apply (inv_wf w Hi)|apply op_hw]. Qed.

Lemma op_update : ok_step me v w w2.
Proof. apply (ok_step_trans _ _ _ w1); [apply op_sync|]. intros Hw1. by apply Hg. Qed.

Lemma op_flush : vgicv3_vcpu_is_loaded w me v = true -> flushed me v cur w2 (vgicv3_flush_vcpu me v cur w2).
Proof.
  intros Hl. destruct op_update as [Hw2 Hf2]. apply flush_vcpu_spec; [done|]. right. rewrite (frame_remote _ _ _ _ me v Hf2). by apply loaded_not_remote.
Qed.

Lemma op_ok : ok_step me v w (op me v cur g w) /\ inv (op me v cur g w).
Proof.
  destruct op_update as [Hw2 Hf2]. unfold op. fold w1 w2. rewrite (frame_loaded _ _ _ _ me v Hf2).
  destruct (vgicv3_vcpu_is_loaded w me v) eqn:El.
  - destruct (op_flush El) as (H1 & _ & _ & _ & H2). assert (live w2 me v cur = true) as El2
      by (unfold live; by rewrite (frame_loaded _ _ _ _ me v Hf2), El, orb_true_r).
    rewrite El2 in H2. destruct H2 as (H2 & _). assert (ok_step me v w (vgicv3_flush_vcpu me v cur w2)) as H3
      by (apply (ok_step_trans _ _ _ w2); [by split|done]).
    split; [done|]. by apply (inv_step me v w).
  - assert (cpuif w2 me = cpuif w me) as E.
    { unfold w2. rewrite (proj2 (Hg w1 (proj1 op_sync))). apply sync_cpuif; [apply (inv_wf w Hi)|by rewrite cur_live]. }
    split; [by split|]. apply (inv_step me v w); [done|by split|]. intros Hr. apply (hw_ok_frame me v w); [done|by rewrite E|].
    clear Hcur. destruct (running w me) as [u|] eqn:Eu; [|done]. by apply (inv_running w Hi me u).
Qed.

(** What is owed after the update is owed at the end. *)
Lemma op_keeps_owed k : owed (op me v cur g w) v k = owed w2 v k /\ level (irq_of (op me v cur g w) v k) = level (irq_of w2 v k).
Proof.
  destruct op_update as [Hw2 Hf2]. unfold op. fold w1 w2. rewrite (frame_loaded _ _ _ _ me v Hf2). destruct (vgicv3_vcpu_is_loaded w me v) eqn:El; [|done].
  destruct (op_flush El) as (_ & H & _). by destruct (H k) as (-> & -> & _).
Qed.

(** An interrupt that neither the guest nor the update touches. *)
Lemma op_owed k : cur = true \/ vgicv3_vcpu_is_running_remote w me v = false -> not_timer k -> undisturbed w me v cur k -> keeps v k w1 w2 ->
  owed (op me v cur g w) v k = pending (irq_of w v k) || opt_pending (res_lr w me v cur k).
Proof.
  intros Hr Ht Hu Hk. destruct (op_keeps_owed k) as [-> _]. destruct (keeps_settles _ _ _ _ Hk) as (_ & _ & -> & _).
  destruct (sync_vcpu_spec me me v cur w) as [_ H]; [done|apply (inv_wf w Hi)|apply op_hw|]. destruct (H Hr k Ht Hu) as (_ & _ & E & _). exact E.
Qed.

(** For a loaded vCPU: all that can be delivered is in the hardware, or every LR is
    in use and the underflow interrupt is asked for. *)
Definition hw_uie (w : vgic_world) (p : Z) : bool := negb (Z.land (ich_hcr (cpuif w p)) ICH_HCR_UIE =? 0).
Definition delivered (p u : Z) (w : vgic_world) : Prop :=
  (forall k, hw_lr w p k = lr_w w u k) /\
  if hw_uie w p then used_lrs (vctx w u) = lr_count (vgic w)
  else forall k, has_irq (its_enabled (vgic w)) k -> owed w u k = true -> vgic_irq_deliverable w u k = true -> opt_pending (hw_lr w p k) = true.

Lemma flushed_delivered p u c a b : flushed p u c a b -> live a p u c = true -> delivered p u b.
Proof.
  intros ([_ Hf] & _ & _ & H2 & H3) Hl. rewrite Hl in H3. destruct H3 as (_ & H4 & H5). split; [done|]. unfold hw_uie. rewrite H5.
  destruct (uie b u); [done|]. intros k Hk Ho Hd. rewrite H4. rewrite (fr_its _ _ _ _ Hf) in Hk. specialize (H2 k Hk).
  unfold owed in Ho. destruct (pending (irq_of b u k)) eqn:Ep; [by apply H2|done].
Qed.

Lemma op_delivered : vgicv3_vcpu_is_loaded w me v = true -> delivered me v (op me v cur g w).
Proof.
  intros El. destruct op_update as [Hw2 Hf2]. unfold op. fold w1 w2. rewrite (frame_loaded _ _ _ _ me v Hf2), El.
  apply (flushed_delivered me v cur w2); [by apply op_flush|]. unfold live. by rewrite (frame_loaded _ _ _ _ me v Hf2), El, orb_true_r.
Qed.
End Op.

(** ** Updates of one vCPU *)
Lemma update_id me v : update_ok me v (fun w => w).
Proof. intros w Hw. by split; [split|]. Qed.
Lemma update_comp me v g h : update_ok me v g -> update_ok me v h -> update_ok me v (fun w => h (g w)).
Proof.
  intros Hg Hh w Hw. destruct (Hg w Hw) as [H1 E1]. destruct (Hh (g w) (proj1 H1)) as [H2 E2]. split; [by apply (ok_step_trans _ _ _ (g w))|congruence].
Qed.
Lemma update_set_pending me v k b : 0 <= k -> update_ok me v (vgic_set_pending v k b).
Proof. intros Hk w Hw. split; [split; auto with vgic|apply cpuif_set_pending]. Qed.
Lemma update_set_active me v k b : update_ok me v (set_active v k b).
Proof. intros w Hw. split; [split; auto with vgic|done]. Qed.
Lemma update_set_level me v k b : update_ok me v (set_level v k b).
Proof. intros w Hw. split; [split; auto with vgic|done]. Qed.
Lemma update_mask me v b : update_ok me v (arm64_vtimer_set_host_mask me v b).
Proof. intros w Hw. split; [split; auto with vgic|apply cpuif_mask]. Qed.

Lemma ok_remove_found me v k w : wf w -> ok_step me v w (if 0 <=? find_lr_for_virq (vctx w v) k then set_ctx v (remove_lr (find_lr_for_virq (vctx w v) k) (vctx w v)) w else w).
Proof.
  intros Hw. destruct (Z.leb_spec 0 (find_lr_for_virq (vctx w v) k)) as [H|]; [|by split].
  apply remove_slot_ok; [done|]. split; [done|]. by apply (ctx_find _ _ _ (wf_ctx w Hw v)).
Qed.
Lemma update_remove_found me v k :
  update_ok me v (fun w => if 0 <=? find_lr_for_virq (vctx w v) k then set_ctx v (remove_lr (find_lr_for_virq (vctx w v) k) (vctx w v)) w else w).
Proof. intros w Hw. split; [by apply ok_remove_found|by case_match]. Qed.

Lemma update_irq_lr_ok me v k : 0 <= k < 2 ^ 32 -> update_ok me v (vgic_update_irq_lr v k).
Proof.
  intros Hk w Hw. unfold vgic_update_irq_lr. cbv zeta. fold (irq_of w v k). split; [|by repeat case_match].
  pose proof (ok_remove_found me v k w Hw) as Hr. destruct (Z.leb_spec 0 (find_lr_for_virq (vctx w v) k)) as [Hf|]; [|done].
  destruct (_ || active (irq_of w v k)) eqn:E; [|done]. by apply rewrite_ok.
Qed.

Lemma desc_u32 w v k : 0 <= k -> vgic_irq_desc w v k = true -> 0 <= k < 2 ^ 32.
Proof. intros Hk H. by apply (has_irq_small (its_enabled (vgic w))), (desc_irq w v). Qed.

(** ** Entry points *)
Lemma inject_op me v k lvl w : inv w -> 0 <= k -> vgic_irq_desc w v k = true ->
  vgic_inject_locked me v k lvl w = (0, op me v false (fun w => vgic_set_pending v k true (set_level v k lvl w)) w) /\
  update_ok me v (fun w => vgic_set_pending v k true (set_level v k lvl w)).
Proof. intros Hi Hk Hd. split; [unfold vgic_inject_locked; by rewrite Hd|]. apply (update_comp me v _ (vgic_set_pending v k true)); [apply update_set_level|by apply update_set_pending]. Qed.

Definition clear_update (v k : Z) (w : vgic_world) : vgic_world :=
  set_active v k false (vgic_set_pending v k false
    (if 0 <=? find_lr_for_virq (vctx w v) k then set_ctx v (remove_lr (find_lr_for_virq (vctx w v) k) (vctx w v)) w else w)).
Lemma clear_op me v k w : 0 <= k -> vgic_irq_desc w v k = true ->
  arm64_vgicv3_clear_irq me v k w = (0, op me v false (clear_update v k) w) /\ update_ok me v (clear_update v k).
Proof.
  intros Hk Hd. unfold arm64_vgicv3_clear_irq. rewrite Hd. split; [reflexivity|].
  apply (update_comp me v _ (fun w => set_active v k false (vgic_set_pending v k false w))); [apply update_remove_found|].
  apply (update_comp me v _ (set_active v k false)); [by apply update_set_pending|apply update_set_active].
Qed.

Definition deassert_update (v k : Z) (w : vgic_world) : vgic_world := vgic_update_irq_lr v k (vgic_set_pending v k false w).
Lemma deassert_op me v k w : 0 <= k -> vgic_irq_desc w v k = true ->
  arm64_vgicv3_deassert_irq me v k w = (0, op me v false (deassert_update v k) w) /\ update_ok me v (deassert_update v k).
Proof.
  intros Hk Hd. unfold arm64_vgicv3_deassert_irq. rewrite Hd. split; [reflexivity|].
  apply (update_comp me v _ (vgic_update_irq_lr v k)); [by apply update_set_pending|apply update_irq_lr_ok]. by apply (desc_u32 w v).
Qed.

(** The entry points for the current vCPU flush in any case, which is the same. *)
Lemma op_current me v g w : inv w -> running w me = Some v -> update_ok me v g ->
  vgicv3_flush_vcpu me v true (g (vgicv3_sync_vcpu me v true w)) = op me v true g w.
Proof.
  intros Hi Hr Hg. unfold op. destruct (op_update me v true g w Hi (fun _ => Hr) Hg) as [_ Hf]. cbv zeta.
  by rewrite (frame_loaded _ _ _ _ me v Hf), (proj2 (loaded_running w me v) Hr).
Qed.

Lemma maintenance_op me v w : inv w -> running w me = Some v -> arm64_vgicv3_maintenance_irq_handler me w = op me v true (fun w => w) w.
Proof. intros Hi Hr. unfold arm64_vgicv3_maintenance_irq_handler. rewrite Hr. by apply (op_current me v (fun w => w)); [..|apply update_id]. Qed.

(** The line of the virtual timer of the current vCPU. *)
Definition timer_update (me v : Z) (line : bool) (w : vgic_world) : vgic_world :=
  let k := ARM64_GIC_PPI_VIRTUAL_TIMER in
  let w := vgic_set_pending v k line (set_level v k true w) in
  let i := find_lr_for_virq (vctx w v) k in
  let w :=
    if 0 <=? i then
      let a := lr_active (lr_at (lr (vctx w v)) i) in
      if line || a then set_ctx v (set_lr i (make_lr_state k (irq (vgic w) v k) line a) (vctx w v)) w else set_ctx v (remove_lr i (vctx w v)) w
    else w in
  arm64_vtimer_set_host_mask me v line w.

Lemma update_timer me v line : update_ok me v (timer_update me v line).
Proof.
  apply (update_comp me v (fun w => vgic_set_pending v ARM64_GIC_PPI_VIRTUAL_TIMER line (set_level v ARM64_GIC_PPI_VIRTUAL_TIMER true w)) (fun w =>
    arm64_vtimer_set_host_mask me v line (let i := find_lr_for_virq (vctx w v) ARM64_GIC_PPI_VIRTUAL_TIMER in if 0 <=? i then
      let a := lr_active (lr_at (lr (vctx w v)) i) in
      if line || a then set_ctx v (set_lr i (make_lr_state ARM64_GIC_PPI_VIRTUAL_TIMER (irq (vgic w) v ARM64_GIC_PPI_VIRTUAL_TIMER) line a) (vctx w v)) w else set_ctx v (remove_lr i (vctx w v)) w
    else w))).
  { apply (update_comp me v _ (vgic_set_pending v _ line)); [apply update_set_level|by apply update_set_pending]. }
  apply (update_comp me v _ (arm64_vtimer_set_host_mask me v line)); [|apply update_mask]. intros w Hw. split; [|cbv zeta; by repeat case_match].
  pose proof (ok_remove_found me v ARM64_GIC_PPI_VIRTUAL_TIMER w Hw) as Hr. cbv zeta. destruct (Z.leb_spec 0 (find_lr_for_virq (vctx w v) ARM64_GIC_PPI_VIRTUAL_TIMER)); [|done].
  destruct (line || _) eqn:E; [|done]. by apply rewrite_ok.
Qed.

Lemma timer_line_op me v line w : inv w -> running w me = Some v ->
  arm64_vgicv3_sync_current_timer_line me v line w = op me v true (timer_update me v line) w.
Proof.
  intros Hi Hr. rewrite <- op_current by (done || apply update_timer). unfold arm64_vgicv3_sync_current_timer_line, vgicv3_sync_timer_line_locked.
  destruct (inv_running w Hi me v Hr) as [Hv _]. cbv zeta. unfold vgic_irq_desc at 1. by rewrite (proj2 (Z.ltb_lt _ _) Hv).
Qed.

Lemma complete_wfi_lrs_ok fuel : forall me v idx w, wf w -> 0 <= idx ->
  ok_step me v w (complete_wfi_lrs fuel me v idx w) /\ cpuif (complete_wfi_lrs fuel me v idx w) = cpuif w.
Proof.
  induction fuel as [|fuel IH]; intros me v idx w Hw Hi; cbn [complete_wfi_lrs]; [by split; [split|]|].
  destruct (Z.ltb_spec idx (used_lrs (vctx w v))) as [Hlt|]; [|by split; [split|]]. cbv zeta. set (k := lr_vintid (lr_at (lr (vctx w v)) idx)).
  assert (forall w' j, 0 <= j -> ok_step me v w w' -> cpuif w' = cpuif w ->
    ok_step me v w (complete_wfi_lrs fuel me v j w') /\ cpuif (complete_wfi_lrs fuel me v j w') = cpuif w) as Hgo.
  { intros w' j Hj Hs E. destruct (IH me v j w' (proj1 Hs) Hj) as [H1 H2]. split; [by apply (ok_step_trans _ _ _ w')|congruence]. }
  assert (ok_step me v w w) as H0 by (by split).
  destruct (vgic_irq_desc w v k); [|apply Hgo; done || lia].
  destruct (negb _ && _).
  { apply Hgo; [done| |done]. apply (ok_step_trans _ _ _ (set_active v k false w)); [split; auto with vgic|]. intros Hw1. by apply remove_slot_ok. }
  destruct (_ && lr_active _); [|apply Hgo; done || lia]. destruct (vgicv3_complete_timer_lr me v k idx w) as [w'|] eqn:Ec; [|apply Hgo; done || lia].
  unfold vgicv3_complete_timer_lr in Ec. destruct (negb _); [done|]. injection Ec as <-.
  apply Hgo; [done| |rewrite cpuif_mask; cbn; by rewrite cpuif_set_pending].
  apply (ok_step_trans _ _ _ (vgic_set_pending v k (cntv_line w v) (set_active v k false w))).
  { split; [apply wf_set_pending; [apply vintid_nonneg|auto with vgic]|transitivity (set_active v k false w); auto with vgic]. }
  intros Hw1. apply (ok_step_trans _ _ _ (set_ctx v (remove_lr idx (vctx (vgic_set_pending v k (cntv_line w v) (set_active v k false w)) v)) (vgic_set_pending v k (cntv_line w v) (set_active v k false w)))).
  { apply remove_slot_ok; [done|]. by autorewrite with vgic. }
  intros Hw2. split; auto with vgic.
Qed.

Lemma wfi_op me v w : inv w -> running w me = Some v ->
  arm64_vgicv3_complete_wfi_irqs me v w = op me v true (fun w => complete_wfi_lrs (Z.to_nat (used_lrs (vctx w v))) me v 0 w) w.
Proof. intros Hi Hr. rewrite <- op_current; [done..|]. intros w' Hw'. by apply complete_wfi_lrs_ok. Qed.

(** A flush of the current vCPU without a sync before it. *)
Lemma flush_current_inv me v w w' : inv w -> ok_step me v w w' -> running w me = Some v ->
  ok_step me v w (vgicv3_flush_vcpu me v true w') /\ inv (vgicv3_flush_vcpu me v true w').
Proof.
  intros Hi Hs Hr. destruct (flush_vcpu_spec me v true w' (proj1 Hs) (or_introl eq_refl)) as (H1 & _ & _ & _ & H2 & _).
  assert (ok_step me v w (vgicv3_flush_vcpu me v true w')) as H3 by (by apply (ok_step_trans _ _ _ w')). split; [done|]. by apply (inv_step me v w).
Qed.

Lemma deactivate_ok me v k w : inv w -> running w me = Some v -> 0 <= k -> ok_step me v w (vgicv3_deactivate_irq_locked me v k w).
Proof.
  intros Hi Hr Hk. unfold vgicv3_deactivate_irq_locked. destruct (_ <=? k); [split; [apply (inv_wf w Hi)|done]|]. cbv zeta.
  pose proof (op_sync me v true w Hi (fun _ => Hr)) as Hs. set (w1 := vgicv3_sync_vcpu me v true w) in *.
  destruct (vgic_irq_desc w1 v k); [|done]. apply (ok_step_trans _ _ _ w1); [done|]. intros Hw1. set (b := if _ && _ then cntv_line w1 v else _).
  pose proof (ok_remove_found me v k w1 Hw1) as Hr1. set (w2 := if 0 <=? _ then _ else w1) in *.
  assert (ok_step me v w1 (vgic_set_pending v k b (set_active v k false w2))) as H3.
  { apply (ok_step_trans _ _ _ w2); [done|]. intros Hw2. apply (update_comp me v (set_active v k false) (vgic_set_pending v k b)); [apply update_set_active|by apply update_set_pending|done]. }
  destruct (vgic_is_vtimer_irq k); [|done]. apply (ok_step_trans _ _ _ _ _ H3). intros Hw3. split; auto with vgic.
Qed.

Lemma sysreg_ok me v sysreg read reg w : inv w -> running w me = Some v ->
  ok_step me v w (arm64_vgicv3_handle_cpuif_sysreg me v sysreg read reg w).2 /\ inv (arm64_vgicv3_handle_cpuif_sysreg me v sysreg read reg w).2.
Proof.
  intros Hi Hr. pose proof (inv_wf w Hi) as Hw. unfold arm64_vgicv3_handle_cpuif_sysreg. cbv zeta.
  assert (forall c, lr c = lr (vctx w v) -> used_lrs c = used_lrs (vctx w v) ->
    let w' := set_ctx v c w in ok_step me v w (vgicv3_flush_vcpu me v true (if vgicv3_vcpu_is_loaded w' me v then vgicv3_write_cpuif_control me c w' else w')) /\
      inv (vgicv3_flush_vcpu me v true (if vgicv3_vcpu_is_loaded w' me v then vgicv3_write_cpuif_control me c w' else w'))) as Hc.
  { intros c E1 E2 w'. apply flush_current_inv; [done| |done].
    assert (ok_step me v w w') as Hs by (split; [apply wf_set_ctx; [done|]; unfold ctx_ok; rewrite E1, E2; apply (wf_ctx w Hw v)|apply frame_set_ctx]).
    case_match; [|done]. apply (ok_step_trans _ _ _ _ _ Hs). intros Hw1. split; [|apply frame_set_cpuif]. apply wf_set_cpuif; [done|apply (wf_hw w Hw me)]. }
  assert (ok_step me v w w) as H0 by (by split).
  destruct (sysreg =? _); [destruct read; [by split|by apply Hc]|].
  destruct (sysreg =? _); [destruct read; [by split|by apply Hc]|].
  destruct (sysreg =? _); [destruct read; [by split|by apply Hc]|].
  destruct (sysreg =? _); [destruct read; [by split|destruct (negb _); by apply Hc]|].
  destruct (sysreg =? _); [destruct read; [by split|]|destruct (sysreg =? _); [destruct read|]; by split].
  apply flush_current_inv; [done| |done]. apply deactivate_ok; [done..|]. apply vintid_nonneg.
Qed.

(** ** Loading and saving *)
Lemma load_inv me v w : inv w -> pcpu_of w v = me -> v < ARM64_VGIC_MAX_VCPUS -> inv (arm64_vgicv3_load_vcpu me v w).
Proof.
  intros Hi Hp Hv. pose proof (inv_wf w Hi) as Hw. unfold arm64_vgicv3_load_vcpu, vgicv3_write_cpuif. cbv zeta.
  set (wa := set_cpuif me _ (set_cpuif me _ w)).
  assert (ok_step me v w wa) as Ha.
  { split; [|transitivity (set_cpuif me ((cpuif w me) <| icc_sre := Z.lor (sre (vctx w v)) ICC_SRE_SRE |>) w); apply frame_set_cpuif].
    apply wf_set_cpuif; [apply wf_set_cpuif; [done|apply (wf_hw w Hw me)]|]. cbn. rewrite upd_eq. apply (wf_hw w Hw me). }
  destruct (write_lrs_hcr_ok me v wa (proj1 Ha)) as (H1 & H2 & _). change (vctx wa v) with (vctx w v) in *. cbv zeta in *.
  set (w' := vgicv3_write_lrs_hcr me (vctx w v) wa) in *. pose proof (ok_step_trans _ _ _ _ _ Ha (fun _ => H1)) as [Hw' Hf].
  split; [by destruct Hw'; split| |exact (frame_tables me v w w' Hi Hf)|exact (frame_vcpus me v w w' Hi Hf)]. intros p u. change (upd me (Some v) (running w) p = Some u -> u < ARM64_VGIC_MAX_VCPUS /\ pcpu_of w' u = p /\ hw_ok w' p).
  unfold upd. destruct (Z.eqb_spec p me) as [->|Hne].
  - intros [= <-]. by rewrite (fr_pcpu _ _ _ _ Hf).
  - intros E. destruct (inv_running w Hi p u E) as (Hu & Hpu & Hh). rewrite (fr_pcpu _ _ _ _ Hf). split_and!; [done..|].
    apply (hw_ok_frame me v w w' p Hf); [by rewrite (fr_cpuif _ _ _ _ Hf)|done].
Qed.

Lemma save_inv me v w : inv w -> running w me = Some v -> inv (arm64_vgicv3_save_vcpu me v w).
Proof.
  intros Hi Hr. pose proof (inv_wf w Hi) as Hw. destruct (inv_running w Hi me v Hr) as (_ & _ & Hh). unfold arm64_vgicv3_save_vcpu. cbv zeta.
  set (wa := set_ctx v _ w). destruct (set_hcr_ok me v (Z.land (ich_hcr (cpuif w me)) (not64 (Z.lor ICH_HCR_EOICOUNT_MASK ICH_HCR_TC))) w Hw) as [Ha _]. fold wa in Ha.
  destruct (sync_live_ok me me v wa (proj1 Ha)) as (Hb & _ & Ec & Eg & _). cbv zeta in *. set (wb := vgicv3_sync_live_cpuif me v wa) in *.
  set (wc := set_ctx v _ wb). assert (ok_step me v wb wc) as Hc by (split; [apply wf_set_ctx; [apply Hb|apply (wf_ctx wb (proj1 Hb) v)]|apply frame_set_ctx]).
  assert (hw_ok wc me) as Hhc by (change (hw_ok wb me); unfold hw_ok; rewrite Ec, Eg; exact Hh).
  destruct (read_lrs_ok me me v wc (proj1 Hc) Hhc) as (Hd & Ecd & _). set (wd := vgicv3_read_lrs me v wc) in *.
  destruct (write_hcr_ok me v 0 wd (proj1 Hd)) as [He _].
  assert (ok_step me v w (write_ich_hcr_el2 me 0 wd)) as [Hw' Hf].
  { apply (ok_step_trans _ _ _ _ _ Ha); intros _. apply (ok_step_trans _ _ _ _ _ Hb); intros _. apply (ok_step_trans _ _ _ _ _ Hc); intros _.
    by apply (ok_step_trans _ _ _ _ _ Hd); intros _. }
  split; [by destruct Hw'; split| |exact (frame_tables me v w _ Hi Hf)|exact (frame_vcpus me v w _ Hi Hf)]. intros p u. set (we := write_ich_hcr_el2 me 0 wd) in *.
  change (upd me None (running wd) p = Some u -> u < ARM64_VGIC_MAX_VCPUS /\ pcpu_of we u = p /\ hw_ok we p). unfold upd. destruct (Z.eqb_spec p me) as [->|Hne]; [done|].
  rewrite (fr_running _ _ _ _ (proj2 Hd)). intros E. destruct (inv_running w Hi p u E) as (Hu & Hpu & Hhp). rewrite (fr_pcpu _ _ _ _ Hf). split_and!; [done..|].
  apply (hw_ok_frame me v w _ p Hf); [by rewrite (fr_cpuif _ _ _ _ Hf)|done].
Qed.

(** ** Reset, and the guest *)
Lemma clear_boot_ok me v ks w : Forall (fun k => 0 <= k) ks -> wf w ->
  let w' := foldl (fun w k => set_active v k false (vgic_set_pending v k false w)) w ks in ok_step me v w w' /\ cpuif w' = cpuif w.
Proof.
  intros Hks. revert w. induction Hks as [|k ks Hk _ IH]; intros w Hw; cbn [foldl]; [by split; [split|]|].
  destruct (update_comp me v (vgic_set_pending v k false) (set_active v k false) (update_set_pending me v k false Hk) (update_set_active me v k false) w Hw) as [H1 E1].
  destruct (IH _ (proj1 H1)) as [H2 E2]. split; [by apply (ok_step_trans _ _ _ _ _ H1)|]. rewrite E2. exact E1.
Qed.

Lemma seqZ_nonneg m n : 0 <= m -> Forall (fun k => 0 <= k) (seqZ m n).
Proof. intros Hm. apply Forall_forall. intros k Hk. apply elem_of_seqZ in Hk. lia. Qed.

Lemma zero_lrs_free n i : ~ lr_valid (lr_at (replicate n 0) i).
Proof. unfold lr_at. rewrite nth_lookup. destruct (_ !! _) eqn:Ei; [apply lookup_replicate in Ei as [-> _]|]; apply lr_at_0. Qed.

Lemma init_ctx_ok its n : 0 <= n -> ctx_ok its n init_ctx.
Proof.
  intros Hn. pose proof (zero_lrs_free (Z.to_nat ARM64_VGIC_MAX_LRS)) as E.
  split; [|done]. split; cbn [lr used_lrs init_ctx].
  - apply length_replicate.
  - intros i _ Hv. by apply E in Hv.
  - intros i j _ _ Hv. by apply E in Hv.
  - intros i _ Hv. by apply E in Hv.
Qed.

Lemma init_vcpu_ok me v w : wf w -> ok_step me v w (arm64_vgicv3_init_vcpu v w) /\ cpuif (arm64_vgicv3_init_vcpu v w) = cpuif w.
Proof.
  intros Hw. unfold arm64_vgicv3_init_vcpu. cbv zeta. set (w1 := set_ctx v init_ctx w).
  assert (ok_step me v w w1) as H1 by (split; [apply wf_set_ctx; [done|apply init_ctx_ok, (wf_count w Hw)]|apply frame_set_ctx]).
  case_match; [|done]. split; [|done]. destruct H1 as [[] []]. by split; split.
Qed.

Lemma reset_ok me v w : wf w -> ok_step me v w (arm64_vgicv3_reset_vcpu_boot_state v w) /\ cpuif (arm64_vgicv3_reset_vcpu_boot_state v w) = cpuif w.
Proof.
  intros Hw. unfold arm64_vgicv3_reset_vcpu_boot_state, vgicv3_clear_vcpu_boot_irqs. cbv zeta. set (w1 := arm64_vgicv3_init_vcpu v w).
  destruct (init_vcpu_ok me v w Hw) as [H1 E1]. fold w1 in H1, E1.
  case_match; [|done]. destruct (clear_boot_ok me v (seqZ 0 ARM64_VGIC_LOCAL_IRQ_NUM) w1 (seqZ_nonneg 0 _ ltac:(lia)) (proj1 H1)) as [H2 E2]. cbv zeta in *.
  set (w2 := foldl _ w1 _) in *. case_match; [|split; [by apply (ok_step_trans _ _ _ _ _ H1)|by rewrite E2]].
  destruct (clear_boot_ok me v (seqZ ARM64_VGIC_LPI_BASE ARM64_VGIC_LPI_NUM) w2 (seqZ_nonneg ARM64_VGIC_LPI_BASE _ ltac:(done)) (proj1 H2)) as [H3 E3].
  split; [|by rewrite E3, E2]. apply (ok_step_trans _ _ _ _ _ H1). intros _. by apply (ok_step_trans _ _ _ _ _ H2).
Qed.

(** What a step of the guest may do to an LR. *)
Definition lr_step (f : Z -> Z) : Prop := forall l, lr_vintid (f l) = lr_vintid l /\ (lr_valid (f l) -> lr_valid l).
Lemma lr_step_ack : lr_step lr_ack.
Proof. intros l. split; [apply lr_ack_vintid|apply lr_ack_valid]. Qed.
Lemma lr_step_end : lr_step lr_end.
Proof. intros l. split; [apply lr_end_vintid|apply lr_end_valid]. Qed.

Lemma guest_lr_inv me v i f w : inv w -> running w me = Some v -> lr_step f -> inv (guest_lr me i f w).
Proof.
  intros Hi Hr Hf. pose proof (inv_wf w Hi) as Hw. destruct (inv_running w Hi me v Hr) as (_ & _ & Hh). unfold guest_lr. cbv zeta.
  destruct (_ && _) eqn:Eb; [|done]. rewrite lr_slots_count in Eb by done. assert (0 <= i < lr_count (vgic w)) as Hin by lia.
  pose proof (wf_count w Hw) as Hc. set (x := lr_at (ich_lr (cpuif w me)) i). destruct (Hf x) as [Hvi Hva].
  assert (lrs_ok (its_enabled (vgic w)) (lr_count (vgic w)) (<[Z.to_nat i := f x]> (ich_lr (cpuif w me)))) as Hok.
  { apply lrs_ok_set; [done..|lia|]. intros Hv. rewrite Hvi. split; [apply (lo_irq _ _ _ Hh i); [lia|by apply Hva]|].
    intros j Hj Hne Hvj E. apply Hne, (lo_unique _ _ _ Hh); try done; [lia|by apply Hva]. }
  apply (inv_step me v w); [done|split; [|apply frame_set_cpuif]|].
  - apply wf_set_cpuif; [done|]. apply (hw_ok_shape (its_enabled (vgic w))); [lia|done].
  - intros _. unfold hw_ok. cbn. by rewrite upd_eq.
Qed.
