(* ===== verification/VgicMmio.v ===== *)
(** * The registers of the virtual interrupt controller

    The distributor (GICD), redistributor (GICR) and ITS registers that the guest
    programs the vGIC with, from the decoding of an address to the handler that
    synchronizes the LRs around the access: arch/arm64/guest/vgicv3.c from
    [reg_word_index] on. *)
From S2P Require Import Prelude Bits Hooks GuestMem Vgic Its.

(** ** Constants *)
Definition VGICD_CTLR : Z := 0x0000.
Definition VGICD_TYPER : Z := 0x0004.
Definition VGICD_IIDR : Z := 0x0008.
Definition VGICD_IGROUPR : Z := 0x0080.
Definition VGICD_ISENABLER : Z := 0x0100.
Definition VGICD_ICENABLER : Z := 0x0180.
Definition VGICD_ISPENDR : Z := 0x0200.
Definition VGICD_ICPENDR : Z := 0x0280.
Definition VGICD_ISACTIVER : Z := 0x0300.
Definition VGICD_ICACTIVER : Z := 0x0380.
Definition VGICD_IPRIORITYR : Z := 0x0400.
Definition VGICD_ITARGETSR : Z := 0x0800.
Definition VGICD_ICFGR : Z := 0x0C00.
Definition VGICD_IGRPMODR : Z := 0x0D00.
Definition VGICD_IROUTER : Z := 0x6000.
Definition VGICD_PIDR2 : Z := 0xFFE8.
Definition VGICR_CTLR : Z := 0x0000.
Definition VGICR_IIDR : Z := 0x0004.
Definition VGICR_TYPER : Z := 0x0008.
Definition VGICR_WAKER : Z := 0x0014.
Definition VGICR_PROPBASER : Z := 0x0070.
Definition VGICR_PENDBASER : Z := 0x0078.
Definition VGICR_INVLPIR : Z := 0x00A0.
Definition VGICR_INVALLR : Z := 0x00B0.
Definition VGICR_SYNCR : Z := 0x00C0.
Definition VGICR_PIDR2 : Z := 0xFFE8.
Definition VGICR_SGI_BASE : Z := 0x10000.
Definition VGICR_SGI_END : Z := VGICR_SGI_BASE + 0x10000.
Definition VGICR_CTLR_RWP : Z := Z.shiftl 1 3.
Definition VGICD_CTLR_RWP : Z := Z.shiftl 1 31.
Definition VGICR_WAKER_PROCESSOR_SLEEP : Z := Z.shiftl 1 1.
Definition VGICR_WAKER_CHILDREN_ASLEEP : Z := Z.shiftl 1 2.
Definition GIC_IROUTER_IRM : Z := Z.shiftl 1 31.
Definition GIC_IROUTER_LOW_MASK : Z := 0xffffffff.
Definition ARM64_VGIC_SPI_NUM : Z := ARM64_VGIC_IRQ_NUM - ARM64_VGIC_LOCAL_IRQ_NUM.
Definition VGIC_ICFGR_IRQS_PER_REG : Z := 16.
Definition VGIC_INVALID_AFFINITY : Z := 0xff.

(** ** Decoding *)
Definition reg_word_index (offset base : Z) : Z := (offset - base) / 4.
Definition mmio_access_in_range (offset size start stop : Z) : bool := (start <=? offset) && (offset <? stop) && (size <=? stop - offset).
Definition byte_access (size : Z) : bool := (size =? 1) || (size =? 2) || (size =? 4).
Definition vgic_priority_access (offset size : Z) : bool := byte_access size && mmio_access_in_range offset size VGICD_IPRIORITYR VGICD_ITARGETSR.
Definition vgic_target_access (offset size : Z) : bool := byte_access size && mmio_access_in_range offset size VGICD_ITARGETSR VGICD_ICFGR.
Definition vgic_word_access (offset size : Z) : bool := (size =? 4) && (Z.land offset 3 =? 0).

(** The registers with a bit per interrupt. *)
Inductive irq_bit_reg := IGROUPR | ISENABLER | ICENABLER | ISPENDR | ICPENDR | ISACTIVER | ICACTIVER | IGRPMODR.
#[export] Instance irq_bit_reg_eq_dec : EqDecision irq_bit_reg.
Proof. solve_decision. Defined.

(** The selector and the first interrupt of the word. *)
Definition vgic_decode_irq_bit_reg (offset : Z) (local_bank : bool) : option (irq_bit_reg * Z) :=
  let max_words := if local_bank then 1 else ARM64_VGIC_WORDS in
  let within start stop := (start <=? offset) && (offset <? stop) in
  let reg r start := Some (r, reg_word_index offset start * 32) in
  let found :=
    if within VGICD_IGROUPR VGICD_ISENABLER then reg IGROUPR VGICD_IGROUPR
    else if within VGICD_ISENABLER VGICD_ICENABLER then reg ISENABLER VGICD_ISENABLER
    else if within VGICD_ICENABLER VGICD_ISPENDR then reg ICENABLER VGICD_ICENABLER
    else if within VGICD_ISPENDR VGICD_ICPENDR then reg ISPENDR VGICD_ISPENDR
    else if within VGICD_ICPENDR VGICD_ISACTIVER then reg ICPENDR VGICD_ICPENDR
    else if within VGICD_ISACTIVER VGICD_ICACTIVER then reg ISACTIVER VGICD_ISACTIVER
    else if within VGICD_ICACTIVER VGICD_IPRIORITYR then reg ICACTIVER VGICD_ICACTIVER
    else if within VGICD_IGRPMODR (VGICD_IGRPMODR + max_words * 4) then reg IGRPMODR VGICD_IGRPMODR
    else None in
  match found with
  | Some (r, base) => if local_bank && negb (base =? 0) then None else Some (r, if local_bank then 0 else base)
  | None => None
  end.

Definition vgic_decode_irq_config_reg (offset : Z) (local_bank : bool) : option Z :=
  let max_irqs := if local_bank then ARM64_VGIC_LOCAL_IRQ_NUM else ARM64_VGIC_IRQ_NUM in
  let stop := VGICD_ICFGR + max_irqs / VGIC_ICFGR_IRQS_PER_REG * 4 in
  if (VGICD_ICFGR <=? offset) && (offset <? stop) then Some (reg_word_index offset VGICD_ICFGR * VGIC_ICFGR_IRQS_PER_REG) else None.

(** The interrupt and whether it is the high word. *)
Definition vgic_decode_irouter_reg (offset : Z) : option (Z * bool) :=
  if VGICD_IROUTER <=? offset then
    let rel := offset - VGICD_IROUTER in
    let virq := rel / 8 in
    if (ARM64_VGIC_LOCAL_IRQ_NUM <=? virq) && (virq <? ARM64_VGIC_IRQ_NUM) && (Z.land rel 3 =? 0) then Some (virq, negb (Z.land rel 4 =? 0)) else None
  else None.

(** ** Writes to a descriptor, of one vCPU or of all *)
Definition vgic_valid_target_vcpu (g : arm64_vgicv3) (target : Z) : Z := if target <? vcpu_count g then target else 0.

Definition change_irq (v k : Z) (f : arm64_vgic_irq -> arm64_vgic_irq) (w : vgic_world) : vgic_world := set_irq v k (f (irq (vgic w) v k)) w.

(** Of an SPI every row is written, of another interrupt the row of [v]. *)
Definition change_irq_rows (v k : Z) (f : arm64_vgic_irq -> arm64_vgic_irq) (w : vgic_world) : vgic_world :=
  if vgic_irq_is_spi k then foldl (fun w u => vgic_update_irq_row_lr u k (change_irq u k f w)) w (seqZ 0 (vcpu_count (vgic w)))
  else if vgic_irq_desc w v k then vgic_update_irq_lr v k (change_irq v k f w) else w.

(** ** Priorities *)
Definition vgic_read_irq_priority (v irq_base size : Z) (w : vgic_world) : Z :=
  foldl (fun value byte =>
    let virq := irq_base + byte in
    let p := if vgic_irq_is_spi virq then priority (irq (vgic w) 0 virq)
             else if vgic_irq_desc w v virq then priority (irq (vgic w) v virq) else GIC_PRIORITY_DEFAULT in
    Z.lor value (Z.shiftl p (byte * 8))) 0 (seqZ 0 size).

Definition vgic_write_irq_priority (v irq_base size value : Z) (w : vgic_world) : vgic_world :=
  foldl (fun w byte => change_irq_rows v (irq_base + byte) (fun d => d <| priority := Z.land (Z.shiftr value (byte * 8)) 0xff |>) w) w (seqZ 0 size).

(** ** Registers with a bit per interrupt *)
Definition bit_target (v k : Z) (w : vgic_world) : Z :=
  if vgic_irq_is_spi k then vgic_valid_target_vcpu (vgic w) (target_vcpu (irq (vgic w) 0 k)) else v.

(** The row whose descriptor is read; [None] when there is none. *)
Definition vgic_read_irq_bit_desc (v k : Z) (r : irq_bit_reg) (w : vgic_world) : option Z :=
  if ARM64_VGIC_IRQ_NUM <=? k then None
  else
    let t := if vgic_irq_is_spi k then
               match r with
               | ISPENDR | ICPENDR | ISACTIVER | ICACTIVER => vgic_valid_target_vcpu (vgic w) (target_vcpu (irq (vgic w) 0 k))
               | _ => 0
               end
             else v in
    if t <? ARM64_VGIC_MAX_VCPUS then Some t else None.

Definition irq_bit (r : irq_bit_reg) (d : arm64_vgic_irq) : bool :=
  match r with
  | IGROUPR => true
  | ISENABLER | ICENABLER => enabled d
  | ISPENDR | ICPENDR => pending d
  | ISACTIVER | ICACTIVER => active d
  | IGRPMODR => false
  end.

Definition vgic_read_irq_bits (v irq_base : Z) (r : irq_bit_reg) (w : vgic_world) : Z :=
  foldl (fun val bit =>
    match vgic_read_irq_bit_desc v (irq_base + bit) r w with
    | Some t => if irq_bit r (irq (vgic w) t (irq_base + bit)) then Z.lor val (BIT32 bit) else val
    | None => val
    end) 0 (seqZ 0 32).

Definition write_irq_bit (v k : Z) (r : irq_bit_reg) (w : vgic_world) : vgic_world :=
  let t := bit_target v k w in
  match r with
  | IGROUPR | IGRPMODR => w
  | ISENABLER => change_irq_rows v k (fun d => d <| enabled := true |>) w
  | ICENABLER => change_irq_rows v k (fun d => d <| enabled := false |>) w
  | ISPENDR => vgic_update_irq_row_lr t k (vgic_set_pending t k true w)
  | ICPENDR => vgic_update_irq_row_lr t k (vgic_set_pending t k false w)
  | ISACTIVER => vgic_update_irq_row_lr t k (set_active t k true w)
  | ICACTIVER => vgic_update_irq_row_lr t k (set_active t k false w)
  end.

Definition vgic_write_irq_bits (v irq_base : Z) (r : irq_bit_reg) (val : Z) (w : vgic_world) : vgic_world :=
  foldl (fun w bit =>
    if (ARM64_VGIC_IRQ_NUM <=? irq_base + bit) || (Z.land val (BIT32 bit) =? 0) then w else write_irq_bit v (irq_base + bit) r w) w (seqZ 0 32).

(** ** Targets of SPIs *)
Definition vgic_set_spi_target (k target : Z) (w : vgic_world) : vgic_world :=
  if negb (vgic_irq_is_spi k) then w
  else
    let old := vgic_valid_target_vcpu (vgic w) (target_vcpu (irq (vgic w) 0 k)) in
    let new := vgic_valid_target_vcpu (vgic w) target in
    let w :=
      if negb (old =? new) then
        let w := if pending (irq (vgic w) old k) then vgic_set_pending new k true (vgic_set_pending old k false w) else w in
        let w := if active (irq (vgic w) old k) then set_active new k true (set_active old k false w) else w in
        vgic_update_irq_row_lr new k (vgic_update_irq_row_lr old k w)
      else w in
    foldl (fun w u => change_irq u k (fun d => d <| target_vcpu := u8 new |>) w) w (seqZ 0 (vcpu_count (vgic w))).

Definition vgic_read_irq_target (irq_base size : Z) (w : vgic_world) : Z :=
  foldl (fun value byte =>
    let virq := irq_base + byte in
    let target := if vgic_irq_is_spi virq then u8 (Z.shiftl 1 (vgic_valid_target_vcpu (vgic w) (target_vcpu (irq (vgic w) 0 virq)))) else 0 in
    Z.lor value (Z.shiftl target (byte * 8))) 0 (seqZ 0 size).

Definition vgic_write_irq_target (irq_base size value : Z) (w : vgic_world) : vgic_world :=
  foldl (fun w byte =>
    let virq := irq_base + byte in
    let mask := Z.land (Z.shiftr value (byte * 8)) 0xff in
    if negb (vgic_irq_is_spi virq) then w else vgic_set_spi_target virq (if mask =? 0 then 0 else ffs64 mask) w) w (seqZ 0 size).

(** ** Edge and level *)
Definition vgic_irq_configurable (k : Z) : bool := (ARM64_VGIC_SGI_NUM <=? k) && negb (k =? ARM64_GIC_PPI_VIRTUAL_TIMER).

Definition vgic_read_irq_config (v irq_base : Z) (w : vgic_world) : Z :=
  foldl (fun val idx =>
    let virq := irq_base + idx in
    let bit := Z.lor val (BIT32 (idx * 2 + 1)) in
    if ARM64_VGIC_IRQ_NUM <=? virq then val
    else if vgic_irq_is_spi virq then if negb (level (irq (vgic w) 0 virq)) then bit else val
    else if vgic_irq_desc w v virq && negb (level (irq (vgic w) v virq)) then bit else val) 0 (seqZ 0 VGIC_ICFGR_IRQS_PER_REG).

Definition vgic_write_irq_config (v irq_base val : Z) (w : vgic_world) : vgic_world :=
  foldl (fun w idx =>
    let virq := irq_base + idx in
    if ARM64_VGIC_IRQ_NUM <=? virq then w
    else if negb (vgic_irq_configurable virq) then
      if (virq =? ARM64_GIC_PPI_VIRTUAL_TIMER) && vgic_irq_desc w v virq
      then vgic_update_irq_lr v virq (change_irq v virq (fun d => d <| level := true |>) w) else w
    else change_irq_rows v virq (fun d => d <| level := Z.land val (BIT32 (idx * 2 + 1)) =? 0 |>) w) w (seqZ 0 VGIC_ICFGR_IRQS_PER_REG).

(** ** Affinity routing *)
Definition vgic_irouter_target_vcpu (g : arm64_vgicv3) (router : Z) : Z :=
  let aff shift := Z.land (Z.shiftr router shift) 0xff in
  if (Z.land router GIC_IROUTER_IRM =? 0) && (aff 8 =? 0) && (aff 16 =? 0) && (aff 32 =? 0) && (aff 0 <? vcpu_count g) then aff 0 else 0.

Definition vgic_read_irouter_word (k : Z) (high : bool) (g : arm64_vgicv3) : Z :=
  let router := spi_router g (k - ARM64_VGIC_LOCAL_IRQ_NUM) in
  if high then u32 (Z.shiftr router 32) else Z.land router GIC_IROUTER_LOW_MASK.

Definition vgic_write_irouter_word (k : Z) (high : bool) (value : Z) (w : vgic_world) : vgic_world :=
  let g := vgic w in
  let spi := k - ARM64_VGIC_LOCAL_IRQ_NUM in
  let router := spi_router g spi in
  let router := if high then Z.lor (Z.land router GIC_IROUTER_LOW_MASK) (Z.shiftl value 32)
                else Z.lor (Z.land router (not64 GIC_IROUTER_LOW_MASK)) value in
  let w := set_vgic (g <| spi_router := upd spi router (spi_router g) |>) w in
  vgic_set_spi_target k (vgic_irouter_target_vcpu (vgic w) router) w.

(** ** The distributor *)
Definition vgicd_mmio_read (v iidr offset size : Z) (w : vgic_world) : Z :=
  match vgic_decode_irq_bit_reg offset false with
  | Some (r, base) => vgic_read_irq_bits v base r w
  | None =>
      match vgic_decode_irq_config_reg offset false with
      | Some base => vgic_read_irq_config v base w
      | None =>
          if offset =? VGICD_CTLR then gicd_ctlr (vgic w)
          else if offset =? VGICD_TYPER then gicd_typer (vgic w)
          else if offset =? VGICD_IIDR then iidr
          else if (VGICD_ITARGETSR <=? offset) && (offset <? VGICD_ICFGR) then vgic_read_irq_target (offset - VGICD_ITARGETSR) size w
          else if (VGICD_IROUTER <=? offset) && (offset <? VGICD_PIDR2) then
            match vgic_decode_irouter_reg offset with Some (k, high) => vgic_read_irouter_word k high (vgic w) | None => 0 end
          else if offset =? VGICD_PIDR2 then gicd_pidr2 (vgic w)
          else 0
      end
  end.

(** Whether the LRs are to be filled, and the state. *)
Definition vgicd_mmio_write (v offset size value : Z) (w : vgic_world) : bool * vgic_world :=
  match vgic_decode_irq_bit_reg offset false with
  | Some (r, base) => (true, vgic_write_irq_bits v base r (u32 value) w)
  | None =>
      match vgic_decode_irq_config_reg offset false with
      | Some base => (true, vgic_write_irq_config v base (u32 value) w)
      | None =>
          if offset =? VGICD_CTLR then (true, set_vgic ((vgic w) <| gicd_ctlr := Z.land (u32 value) (not32 VGICD_CTLR_RWP) |>) w)
          else if (VGICD_ITARGETSR <=? offset) && (offset <? VGICD_ICFGR) then (true, vgic_write_irq_target (offset - VGICD_ITARGETSR) size value w)
          else if (VGICD_IROUTER <=? offset) && (offset <? VGICD_PIDR2) then
            match vgic_decode_irouter_reg offset with Some (k, high) => (true, vgic_write_irouter_word k high (u32 value) w) | None => (false, w) end
          else (false, w)
      end
  end.

(** An access: the result, the value read and the state.  [v] is the current vCPU, [offset]
    the address in the frame. *)
Definition vgicd_mmio_access (me v iidr offset size : Z) (write : bool) (value : Z) (w : vgic_world) : Z * Z * vgic_world :=
  if vgic_priority_access offset size then
    let irq_base := offset - VGICD_IPRIORITYR in
    if write then (0, value, vgicv3_flush_vm me v (vgic_write_irq_priority v irq_base size value w))
    else (0, vgic_read_irq_priority v irq_base size w, w)
  else if vgic_target_access offset size then
    let irq_base := offset - VGICD_ITARGETSR in
    if write then (0, value, vgicv3_flush_vm me v (vgic_write_irq_target irq_base size value w))
    else (0, vgic_read_irq_target irq_base size w, w)
  else if negb (vgic_word_access offset size) then (- EINVAL, value, w)
  else if write then
    let '(flush, w) := vgicd_mmio_write v offset size value w in (0, value, if flush then vgicv3_flush_vm me v w else w)
  else (0, vgicd_mmio_read v iidr offset size w, w).

(** ** The redistributors

    A frame per slot, with the vCPU that is behind it, if any. *)
Record vgicr_frame := { frame_pcpu : Z; frame_vcpu : option Z; frame_offset : Z }.

Definition vgicr_decode_frame (base stride addr : Z) (w : vgic_world) : option vgicr_frame :=
  let g := vgic w in
  let p := u16 ((addr - base) / stride) in
  if (p <? ARM64_VGIC_MAX_VCPUS) && (p <? rdist_count g) then
    let v := rdist_vcpu g p in
    Some {| frame_pcpu := p; frame_vcpu := if (v =? VGIC_INVALID_VCPU_ID) || (created_vcpus w <=? v) then None else Some v;
            frame_offset := u32 ((addr - base) mod stride) |}
  else None.

Definition vgicr_typer_value (g : arm64_vgicv3) (f : vgicr_frame) : Z :=
  let affinity := default VGIC_INVALID_AFFINITY (frame_vcpu f) in
  let typer := Z.lor (Z.shiftl (frame_pcpu f) 8) (Z.shiftl affinity 32) in
  let typer := if its_enabled g then Z.lor typer (Z.shiftl 1 0) else typer in
  if frame_pcpu f =? rdist_count g - 1 then Z.lor typer (Z.shiftl 1 4) else typer.

Definition vgicr_write_waker (p value : Z) (w : vgic_world) : vgic_world :=
  let waker := if negb (Z.land value VGICR_WAKER_PROCESSOR_SLEEP =? 0) then Z.lor VGICR_WAKER_PROCESSOR_SLEEP VGICR_WAKER_CHILDREN_ASLEEP else 0 in
  set_vgic ((vgic w) <| gicr_waker := upd p waker (gicr_waker (vgic w)) |>) w.

Definition vgicr_sgi_mmio_read (t sgi_offset size : Z) (w : vgic_world) : Z :=
  match vgic_decode_irq_bit_reg sgi_offset true with
  | Some (r, base) => vgic_read_irq_bits t base r w
  | None =>
      match vgic_decode_irq_config_reg sgi_offset true with
      | Some base => vgic_read_irq_config t base w
      | None => if (VGICD_IPRIORITYR <=? sgi_offset) && (sgi_offset <? VGICD_ICFGR)
                then vgic_read_irq_priority t (sgi_offset - VGICD_IPRIORITYR) size w else 0
      end
  end.

Definition vgicr_sgi_mmio_write (t sgi_offset size value : Z) (w : vgic_world) : bool * vgic_world :=
  match vgic_decode_irq_bit_reg sgi_offset true with
  | Some (r, base) => (true, vgic_write_irq_bits t base r (u32 value) w)
  | None =>
      match vgic_decode_irq_config_reg sgi_offset true with
      | Some base => (true, vgic_write_irq_config t base (u32 value) w)
      | None => if (VGICD_IPRIORITYR <=? sgi_offset) && (sgi_offset <? VGICD_ICFGR)
                then (true, vgic_write_irq_priority t (sgi_offset - VGICD_IPRIORITYR) size value w) else (false, w)
      end
  end.

Definition vgicr_mmio_read (iidr : Z) (f : vgicr_frame) (size : Z) (w : vgic_world) : Z :=
  let g := vgic w in
  let p := frame_pcpu f in
  let offset := frame_offset f in
  if offset =? VGICR_CTLR then Z.land (gicr_ctlr g p) (not32 VGICR_CTLR_RWP)
  else if offset =? VGICR_IIDR then iidr
  else if offset =? VGICR_TYPER then low32 (vgicr_typer_value g f)
  else if offset =? VGICR_TYPER + 4 then high32 (vgicr_typer_value g f)
  else if offset =? VGICR_WAKER then Z.land (gicr_waker g p) (Z.lor VGICR_WAKER_PROCESSOR_SLEEP VGICR_WAKER_CHILDREN_ASLEEP)
  else if offset =? VGICR_PROPBASER then low32 (gicr_propbaser g p)
  else if offset =? VGICR_PROPBASER + 4 then high32 (gicr_propbaser g p)
  else if offset =? VGICR_PENDBASER then low32 (gicr_pendbaser g p)
  else if offset =? VGICR_PENDBASER + 4 then high32 (gicr_pendbaser g p)
  else if offset =? VGICR_SYNCR then 0
  else if offset =? VGICR_PIDR2 then GIC_PIDR2_ARCH_GICV3
  else if (VGICR_SGI_BASE <=? offset) && (offset <? VGICR_SGI_END) then
    match frame_vcpu f with Some t => vgicr_sgi_mmio_read t (offset - VGICR_SGI_BASE) size w | None => 0 end
  else 0.

Section Mmio.
  Context (get_vm_config : Z -> arch_vm_config) (vm : stage2_vm) (host : bytes).

Definition vgicr_mmio_write (f : vgicr_frame) (size value : Z) (w : vgic_world) : bool * vgic_world :=
  let g := vgic w in
  let p := frame_pcpu f in
  let offset := frame_offset f in
  let its_only w' := if its_enabled g then (false, w') else (false, w) in
  if offset =? VGICR_CTLR then
    if its_enabled g then
      let was_enabled := negb (Z.land (gicr_ctlr g p) VGICR_CTLR_ENABLE_LPIS =? 0) in
      let now_enabled := negb (Z.land (u32 value) VGICR_CTLR_ENABLE_LPIS =? 0) in
      let w := set_vgic (g <| gicr_ctlr := upd p (Z.land (u32 value) VGICR_CTLR_ENABLE_LPIS) (gicr_ctlr g) |>) w in
      match frame_vcpu f with
      | Some t => (true, if negb was_enabled && now_enabled then (arm64_vgicv3_its_invall_vcpu_locked get_vm_config vm host t w).2 else w)
      | None => (false, w)
      end
    else (false, w)
  else if offset =? VGICR_WAKER then (false, vgicr_write_waker p (u32 value) w)
  else if offset =? VGICR_PROPBASER then its_only (set_vgic (g <| gicr_propbaser := upd p (set_low32 (gicr_propbaser g p) (low32 value)) (gicr_propbaser g) |>) w)
  else if offset =? VGICR_PROPBASER + 4 then its_only (set_vgic (g <| gicr_propbaser := upd p (set_high32 (gicr_propbaser g p) (low32 value)) (gicr_propbaser g) |>) w)
  else if offset =? VGICR_PENDBASER then its_only (set_vgic (g <| gicr_pendbaser := upd p (set_low32 (gicr_pendbaser g p) (low32 value)) (gicr_pendbaser g) |>) w)
  else if offset =? VGICR_PENDBASER + 4 then its_only (set_vgic (g <| gicr_pendbaser := upd p (set_high32 (gicr_pendbaser g p) (low32 value)) (gicr_pendbaser g) |>) w)
  else if offset =? VGICR_INVLPIR then
    match its_enabled g, frame_vcpu f with
    | true, Some t => vits_update_lpi_config_locked get_vm_config vm host t (u32 value) w
    | _, _ => (false, w)
    end
  else if offset =? VGICR_INVALLR then
    match its_enabled g, frame_vcpu f with
    | true, Some t => arm64_vgicv3_its_invall_vcpu_locked get_vm_config vm host t w
    | _, _ => (false, w)
    end
  else if (VGICR_SGI_BASE <=? offset) && (offset <? VGICR_SGI_END) then
    match frame_vcpu f with Some t => vgicr_sgi_mmio_write t (offset - VGICR_SGI_BASE) size value w | None => (false, w) end
  else (false, w).

Definition vgicv3_flush_target_vcpu (me v : Z) (t : option Z) (w : vgic_world) : vgic_world :=
  match t with Some t => vgicv3_flush_vcpu me t (t =? v) w | None => w end.

Definition vgicr_mmio_access (me v iidr base stride addr size : Z) (write : bool) (value : Z) (w : vgic_world) : Z * Z * vgic_world :=
  match vgicr_decode_frame base stride addr w with
  | None => (- EINVAL, value, w)
  | Some f =>
      if (VGICR_SGI_BASE <=? frame_offset f) && vgic_priority_access (frame_offset f - VGICR_SGI_BASE) size then
        let irq_base := frame_offset f - VGICR_SGI_BASE - VGICD_IPRIORITYR in
        match write, frame_vcpu f with
        | false, Some t => (0, vgic_read_irq_priority t irq_base size w, w)
        | false, None => (0, 0, w)
        | true, Some t => (0, value, vgicv3_flush_target_vcpu me v (Some t) (vgic_write_irq_priority t irq_base size value w))
        | true, None => (0, value, w)
        end
      else if negb (vgic_word_access (frame_offset f) size) then (- EINVAL, value, w)
      else if write then
        let '(flush, w) := vgicr_mmio_write f size value w in (0, value, if flush then vgicv3_flush_target_vcpu me v (frame_vcpu f) w else w)
      else (0, vgicr_mmio_read iidr f size w, w)
  end.

(** ** The handler

    Where the guest sees the frames, and the identity registers. *)
Record gic_config := {
  guest_gicd_base : Z; guest_gicd_size : Z;
  guest_gicr_base : Z; guest_gicr_size : Z; guest_gicr_stride : Z;
  guest_its_base : Z; guest_its_size : Z;
  gic_iidr : Z; vmpidr0 : Z;
}.

Definition addr_in_range (addr base size : Z) : bool := negb (size =? 0) && (base <=? addr) && (addr - base <? size).

Definition vgicv3_mmio_dispatch (cfg : gic_config) (me v addr size : Z) (write : bool) (value : Z) (w : vgic_world) : Z * Z * vgic_world :=
  if addr_in_range addr (guest_gicd_base cfg) (guest_gicd_size cfg) then
    vgicd_mmio_access me v (gic_iidr cfg) (u32 (addr - guest_gicd_base cfg)) size write value w
  else if addr_in_range addr (guest_gicr_base cfg) (guest_gicr_size cfg) then
    vgicr_mmio_access me v (gic_iidr cfg) (guest_gicr_base cfg) (guest_gicr_stride cfg) addr size write value w
  else if its_enabled (vgic w) && addr_in_range addr (guest_its_base cfg) (guest_its_size cfg) then
    arm64_vgicv3_its_mmio_access get_vm_config vm host me v (gic_iidr cfg) (vmpidr0 cfg) (u32 (addr - guest_its_base cfg)) size write value w
  else (- ENODEV, value, w).

Definition vgicv3_mmio_dispatch64 (cfg : gic_config) (me v addr : Z) (write : bool) (value : Z) (w : vgic_world) : Z * Z * vgic_world :=
  let split :=
    let '(ret, low, w) := vgicv3_mmio_dispatch cfg me v addr 4 write (if write then low32 value else value) w in
    if ret =? 0 then
      let '(ret, high, w) := vgicv3_mmio_dispatch cfg me v (addr + 4) 4 write (if write then high32 value else value) w in
      (ret, if (ret =? 0) && negb write then Z.lor (low32 low) (u64 (Z.shiftl high 32)) else value, w)
    else (ret, value, w) in
  if its_enabled (vgic w) && addr_in_range addr (guest_its_base cfg) (guest_its_size cfg) then
    match arm64_vgicv3_its_mmio_access64 get_vm_config vm host me v (u32 (addr - guest_its_base cfg)) 8 write value w with
    | Some (ret, w) => (ret, value, w)
    | None => split
    end
  else split.

Definition vgicv3_mmio_access (cfg : gic_config) (me v addr size : Z) (write : bool) (value : Z) (w : vgic_world) : Z * Z * vgic_world :=
  if byte_access size then vgicv3_mmio_dispatch cfg me v addr size write value w
  else if size =? 8 then vgicv3_mmio_dispatch64 cfg me v addr write value w
  else (- EINVAL, value, w).

Definition vgicv3_lrs_changed (c : arm64_vgicv3_vcpu_ctx) (old_lrs : list Z) (old_used_lrs old_hcr : Z) : bool :=
  negb (used_lrs c =? old_used_lrs) || negb (hcr c =? old_hcr) ||
  existsb (fun i => negb (lr_at (lr c) i =? lr_at old_lrs i)) (seqZ 0 ARM64_VGIC_MAX_LRS).

Definition arm64_vgicv3_mmio_handler (cfg : gic_config) (me addr size : Z) (write : bool) (value : Z) (w : vgic_world) : Z * Z * vgic_world :=
  match running w me with
  | None => (- ENODEV, value, w)
  | Some v =>
      let old := vctx w v in
      let '(ret, value, w) := vgicv3_mmio_access cfg me v addr size write value (vgicv3_sync_vcpu me v true w) in
      (ret, value, if vgicv3_lrs_changed (vctx w v) (lr old) (used_lrs old) (hcr old) then vgicv3_flush_vcpu me v true w else w)
  end.
End Mmio.
