(* ===== verification/VgicMmioInv.v ===== *)
(** * Register accesses keep the invariant

    Writes to registers change descriptors, LRs and tables of the VM and leave the
    hardware alone, but for the flushes and injections they end in. *)
From S2P Require Import Prelude Bits Hooks GuestMem Vgic VgicInv VgicFlow VgicFlush VgicOps Its ItsTable VgicMmio.

(** ** Changes of the software state only *)
Record calm (w w' : vgic_world) : Prop := {
  ca_wf : wf w';
  ca_its : its_enabled (vgic w') = its_enabled (vgic w);
  ca_count : lr_count (vgic w') = lr_count (vgic w);
  ca_vcpus : vcpu_count (vgic w') = vcpu_count (vgic w);
  ca_running : running w' = running w;
  ca_pcpu : pcpu_of w' = pcpu_of w;
  ca_created : created_vcpus w' = created_vcpus w;
  ca_cpuif : cpuif w' = cpuif w;
  ca_tables : its (vgic w') = its (vgic w);
}.

Lemma calm_refl w : wf w -> calm w w.
Proof. by split. Qed.
Lemma calm_trans w1 w2 w3 : calm w1 w2 -> (wf w2 -> calm w2 w3) -> calm w1 w3.
Proof. intros H1 H2. destruct (H2 (ca_wf _ _ H1)), H1. split; congruence. Qed.

Lemma calm_step me v w w' : ok_step me v w w' -> cpuif w' = cpuif w -> calm w w'.
Proof. intros [Hw []] Hc. by split. Qed.

Lemma calm_set_pending v k b w : 0 <= k -> wf w -> calm w (vgic_set_pending v k b w).
Proof. intros Hk Hw. destruct (update_set_pending 0 v k b Hk w Hw). by apply (calm_step 0 v). Qed.
Lemma calm_set_active v k b w : wf w -> calm w (set_active v k b w).
Proof. intros Hw. destruct (update_set_active 0 v k b w Hw). by apply (calm_step 0 v). Qed.
Lemma calm_update_irq_lr v k w : 0 <= k < 2 ^ 32 -> wf w -> calm w (vgic_update_irq_lr v k w).
Proof.
  intros Hk Hw. destruct (update_irq_lr_ok 0 v k Hk w Hw). by apply (calm_step 0 v).
Qed.
Lemma calm_update_row v k w : 0 <= k < 2 ^ 32 -> wf w -> calm w (vgic_update_irq_row_lr v k w).
Proof. intros Hk Hw. unfold vgic_update_irq_row_lr. case_match; [by apply calm_update_irq_lr|by apply calm_refl]. Qed.
Lemma calm_set_vgic g w : wf w -> its_enabled g = its_enabled (vgic w) -> lr_count g = lr_count (vgic w) -> vcpu_count g = vcpu_count (vgic w) ->
  irq g = irq (vgic w) -> pending_bitmap g = pending_bitmap (vgic w) -> lpi_pending_bitmap g = lpi_pending_bitmap (vgic w) ->
  its g = its (vgic w) -> calm w (set_vgic g w).
Proof.
  intros [] E1 E2 E3 E4 E5 E6 E7. split; try done. split; cbn; rewrite ?E1, ?E2, ?E4, ?E5, ?E6; try done.
  intros v k Hk. rewrite <- (wf_bits v k Hk). unfold pend_bit. by rewrite E5, E6.
Qed.

(** A change of a descriptor that keeps its pending state. *)
Definition config_change (f : arm64_vgic_irq -> arm64_vgic_irq) : Prop :=
  forall d, irq_fields_ok d -> pending (f d) = pending d /\ irq_fields_ok (f d).
Lemma calm_change_irq v k f w : config_change f -> wf w -> calm w (change_irq v k f w).
Proof.
  intros Hf Hw. destruct (Hf (irq (vgic w) v k) (wf_fields w Hw v k)) as [Hp Hd]. split; try done. by apply wf_set_irq.
Qed.

Lemma calm_foldl {A} (f : vgic_world -> A -> vgic_world) l : (forall w x, x ∈ l -> wf w -> calm w (f w x)) -> forall w, wf w -> calm w (foldl f w l).
Proof.
  induction l as [|x l IH]; intros Hf w Hw; cbn [foldl]; [by apply calm_refl|]. eapply calm_trans; [apply Hf; [left|done]|].
  intros Hw1. apply IH; [|done]. intros w' y Hy. apply Hf. by right.
Qed.

Lemma spi_range k : vgic_irq_is_spi k = true -> 0 <= k < 2 ^ 32.
Proof. unfold vgic_irq_is_spi, ARM64_VGIC_LOCAL_IRQ_NUM, ARM64_VGIC_IRQ_NUM. lia. Qed.
Lemma lpi_range k : vgic_irq_is_lpi k = true -> 0 <= k < 2 ^ 32.
Proof. unfold vgic_irq_is_lpi, ARM64_VGIC_LPI_BASE, ARM64_VGIC_LPI_NUM. lia. Qed.

Lemma calm_change_rows v k f w : 0 <= k -> config_change f -> wf w -> calm w (change_irq_rows v k f w).
Proof.
  intros Hk Hf Hw. unfold change_irq_rows. destruct (vgic_irq_is_spi k) eqn:Es.
  - apply calm_foldl; [|done]. intros w' u _ Hw'. eapply calm_trans; [by apply calm_change_irq|]. intros Hw1. apply calm_update_row; [by apply spi_range|done].
  - destruct (vgic_irq_desc w v k) eqn:Ed; [|by apply calm_refl]. eapply calm_trans; [by apply calm_change_irq|]. intros Hw1.
    apply calm_update_irq_lr; [by apply (desc_u32 w v)|done].
Qed.

Lemma config_enabled b : config_change (fun d => d <| enabled := b |>).
Proof. by intros d. Qed.
Lemma config_level b : config_change (fun d => d <| level := b |>).
Proof. by intros d. Qed.
Lemma config_target t : config_change (fun d => d <| target_vcpu := t |>).
Proof. by intros d. Qed.
Lemma config_priority x : config_change (fun d => d <| priority := Z.land x 0xff |>).
Proof.
  intros d [_ Hq]. split; [done|]. split; [|done]. cbn. change 0xff with (Z.ones 8). rewrite Z.land_ones by lia. apply Z.mod_pos_bound. lia.
Qed.
#[export] Hint Resolve calm_refl calm_set_pending calm_set_active calm_update_irq_lr calm_update_row calm_change_irq calm_change_rows
  config_enabled config_level config_target config_priority spi_range : vgic.

(** ** Register writes *)
Lemma in_seqZ_nonneg x n : x ∈ seqZ 0 n -> 0 <= x.
Proof. intros H. apply elem_of_seqZ in H. lia. Qed.

Lemma calm_write_priority v base size value w : 0 <= base -> wf w -> calm w (vgic_write_irq_priority v base size value w).
Proof. intros Hb Hw. apply calm_foldl; [|done]. intros w' x Hx Hw'. apply in_seqZ_nonneg in Hx. apply calm_change_rows; [lia|apply config_priority|done]. Qed.

Lemma calm_write_bit v k r w : 0 <= k < 2 ^ 32 -> wf w -> calm w (write_irq_bit v k r w).
Proof.
  intros Hk Hw. unfold write_irq_bit. cbv zeta. set (t := bit_target v k w).
  destruct r; try (by apply calm_refl); try (apply calm_change_rows; auto with vgic; lia).
  all: eapply calm_trans; [|intros Hw1; by apply calm_update_row]; auto with vgic.
  all: apply calm_set_pending; [lia|done].
Qed.

Lemma calm_write_bits v base r val w : 0 <= base -> wf w -> calm w (vgic_write_irq_bits v base r val w).
Proof.
  intros Hb Hw. apply calm_foldl; [|done]. intros w' x Hx Hw'. apply in_seqZ_nonneg in Hx. destruct (_ || _) eqn:E; [by apply calm_refl|].
  apply orb_false_iff in E as [E _]. apply calm_write_bit; [|done]. unfold ARM64_VGIC_IRQ_NUM in E. lia.
Qed.

Lemma calm_set_spi_target k target w : wf w -> calm w (vgic_set_spi_target k target w).
Proof.
  intros Hw. unfold vgic_set_spi_target. destruct (vgic_irq_is_spi k) eqn:Es; cbn [negb]; [|by apply calm_refl]. pose proof (spi_range k Es) as Hk. cbv zeta.
  set (old := vgic_valid_target_vcpu _ (target_vcpu _)). set (new := vgic_valid_target_vcpu _ target).
  set (w1 := if negb (old =? new) then _ else w).
  assert (calm w w1) as H1.
  { unfold w1. destruct (negb _); [|by apply calm_refl].
    set (wa := if pending _ then _ else w). assert (calm w wa) as Ha.
    { unfold wa. case_match; [|by apply calm_refl]. apply (calm_trans _ (vgic_set_pending old k false w)); [apply calm_set_pending; [lia|done]|]. intros Hx. apply calm_set_pending; [lia|done]. }
    set (wb := if active _ then _ else wa). assert (calm wa wb) as Hb.
    { pose proof (ca_wf _ _ Ha). unfold wb. case_match; [|by apply calm_refl]. apply (calm_trans _ (set_active old k false wa)); [by apply calm_set_active|]. intros Hx. by apply calm_set_active. }
    eapply calm_trans; [exact Ha|]. intros _. eapply calm_trans; [exact Hb|]. intros Hwb. apply (calm_trans _ (vgic_update_irq_row_lr old k wb)); [by apply calm_update_row|]. intros Hx. by apply calm_update_row. }
  apply (calm_trans _ w1); [done|]. intros Hw1. apply calm_foldl; [|done]. intros w' u _ Hw'. auto with vgic.
Qed.

Lemma calm_write_target base size value w : wf w -> calm w (vgic_write_irq_target base size value w).
Proof. intros Hw. apply calm_foldl; [|done]. intros w' x _ Hw'. cbv zeta. case_match; [by apply calm_refl|by apply calm_set_spi_target]. Qed.

Lemma calm_write_config v base val w : 0 <= base -> wf w -> calm w (vgic_write_irq_config v base val w).
Proof.
  intros Hb Hw. apply calm_foldl; [|done]. intros w' x Hx Hw'. apply in_seqZ_nonneg in Hx. cbv zeta. case_match; [by apply calm_refl|].
  destruct (negb (vgic_irq_configurable _)); [|apply calm_change_rows; auto with vgic; lia].
  case_match; [|by apply calm_refl]. apply (calm_trans _ (change_irq v (base + x) (fun d => d <| level := true |>) w')); [apply calm_change_irq; [apply config_level|done]|].
  intros Hw1. apply calm_update_irq_lr; [|done].
  unfold ARM64_VGIC_IRQ_NUM in *. lia.
Qed.

Lemma calm_write_irouter k high value w : wf w -> calm w (vgic_write_irouter_word k high value w).
Proof.
  intros Hw. unfold vgic_write_irouter_word. cbv zeta. set (w1 := set_vgic _ w). apply (calm_trans _ w1); [by apply calm_set_vgic|]. intros Hw1. by apply calm_set_spi_target.
Qed.

(** ** The ITS *)
Section ItsCalm.
  Context (get_vm_config : Z -> arch_vm_config) (vm : stage2_vm) (host : bytes).

Lemma land_fc x : 0 <= Z.land x LPI_PROP_PRIO_MASK < 256.
Proof.
  assert (Z.land (Z.land x LPI_PROP_PRIO_MASK) 0xff = Z.land x LPI_PROP_PRIO_MASK) as <- by (by rewrite <- Z.land_assoc).
  change 0xff with (Z.ones 8). rewrite Z.land_ones by lia. apply Z.mod_pos_bound. lia.
Qed.

Lemma calm_update_lpi t lpi w : wf w -> calm w (vits_update_lpi_config_locked get_vm_config vm host t lpi w).2.
Proof.
  intros Hw. unfold vits_update_lpi_config_locked. cbv zeta. destruct (_ || _) eqn:E; [by apply calm_refl|].
  apply orb_false_iff in E as [E _]. apply orb_false_iff in E as [_ E]. apply negb_false_iff in E. pose proof (lpi_range lpi E) as Hk.
  case_match; [by apply calm_refl|]. destruct (copy_from_gpa _ _ _ _ _ _) as [ret data]. case_match; [by apply calm_refl|]. cbn [snd].
  set (w1 := set_irq t lpi _ w). apply (calm_trans _ w1); [|intros Hw1; by apply calm_update_row].
  split; try done. apply wf_set_irq; [done..|]. destruct (wf_fields w Hw t lpi) as [_ Hq]. split; [apply land_fc|exact Hq].
Qed.

Lemma calm_update_event x w : wf w -> calm w (vits_update_event_lpi_config_locked get_vm_config vm host x w).2.
Proof. intros Hw. unfold vits_update_event_lpi_config_locked. case_match; [by apply calm_refl|by apply calm_update_lpi]. Qed.

Lemma calm_clear_lpi t lpi w : vgic_irq_is_lpi lpi = true -> wf w -> calm w (clear_lpi t lpi w).
Proof.
  intros Hl Hw. pose proof (lpi_range lpi Hl) as Hk. unfold clear_lpi. set (w1 := vgic_set_pending t lpi false w). set (w2 := set_active t lpi false w1).
  apply (calm_trans _ w1); [apply calm_set_pending; [lia|done]|]. intros Hw1. apply (calm_trans _ w2); [by apply calm_set_active|]. intros Hw2. by apply calm_update_row.
Qed.

Lemma calm_foldl_pair {A} (f : bool * vgic_world -> A -> bool * vgic_world) l :
  (forall b w x, wf w -> calm w (f (b, w) x).2) -> forall b w, wf w -> calm w (foldl f (b, w) l).2.
Proof.
  intros Hf. induction l as [|x l IH]; intros b w Hw; cbn [foldl]; [by apply calm_refl|]. specialize (Hf b w x Hw). destruct (f (b, w) x) as [b' w']. cbn in Hf.
  apply (calm_trans _ w'); [done|]. intros Hw'. by apply IH.
Qed.

Lemma calm_invall v w : wf w -> calm w (arm64_vgicv3_its_invall_vcpu_locked get_vm_config vm host v w).2.
Proof.
  intros Hw. unfold arm64_vgicv3_its_invall_vcpu_locked. case_match; [by apply calm_refl|]. apply calm_foldl_pair; [|done].
  intros b w1 d Hw1. apply calm_foldl_pair; [|done]. intros b' w2 e Hw2. cbv zeta. case_match; [by apply calm_refl|]. case_match; [|by apply calm_refl].
  pose proof (calm_update_event (event (its (vgic w2)) d e) w2 Hw2) as H'. destruct (vits_update_event_lpi_config_locked _ _ _ _ w2). exact H'.
Qed.
End ItsCalm.

(** ** Accesses *)
Section Access.
  Context (me v : Z).

(** Between the sync and the end of an access the LRs of this pCPU may be out of step. *)
Record semi (w : vgic_world) : Prop := {
  se_wf : wf w;
  se_me : running w me = Some v;
  se_running p u : running w p = Some u -> u < ARM64_VGIC_MAX_VCPUS /\ pcpu_of w u = p /\ (p <> me -> hw_ok w p);
  se_tables : its_enabled (vgic w) = true -> tables_ok (its (vgic w));
  se_vcpus : vcpu_count (vgic w) <= ARM64_VGIC_MAX_VCPUS;
}.

Record acc (w w' : vgic_world) : Prop := {
  ac_wf : wf w';
  ac_its : its_enabled (vgic w') = its_enabled (vgic w);
  ac_count : lr_count (vgic w') = lr_count (vgic w);
  ac_vcpus : vcpu_count (vgic w') = vcpu_count (vgic w);
  ac_running : running w' = running w;
  ac_pcpu : pcpu_of w' = pcpu_of w;
  ac_created : created_vcpus w' = created_vcpus w;
  ac_others p : p <> me -> cpuif w' p = cpuif w p;
  ac_tables : tables_ok (its (vgic w)) -> tables_ok (its (vgic w'));
  ac_me : hw_ok w' me \/ ich_lr (cpuif w' me) = ich_lr (cpuif w me);
}.

Lemma acc_refl w : wf w -> acc w w.
Proof. intros Hw. split; auto. Qed.
Lemma acc_calm w w' : calm w w' -> acc w w'.
Proof. intros []. split; try done; [by rewrite ca_cpuif0|by rewrite ca_tables0|right; by rewrite ca_cpuif0]. Qed.
Lemma acc_set_its t w : wf w -> (tables_ok (its (vgic w)) -> tables_ok t) -> acc w (set_its t w).
Proof. intros Hw Ht. split; try done; [|by right]. destruct Hw. by split. Qed.
Lemma acc_regs t w : wf w -> collection t = collection (its (vgic w)) -> device t = device (its (vgic w)) -> event t = event (its (vgic w)) -> acc w (set_its t w).
Proof. intros Hw E1 E2 E3. apply acc_set_its; [done|]. by apply tables_same. Qed.
Lemma semi_acc w w' : semi w -> acc w w' -> semi w'.
Proof.
  intros [Hw Hme Hr Ht Hn] []. split; [done|by rewrite ac_running0| |rewrite ac_its0; auto|by rewrite ac_vcpus0]. intros p u E. rewrite ac_running0 in E. destruct (Hr p u E) as (Hu & Hp & Hh).
  split_and!; [done|by rewrite ac_pcpu0|]. intros Hne. unfold hw_ok in *. rewrite ac_its0, ac_count0, ac_others0 by done. auto.
Qed.
Lemma acc_trans w1 w2 w3 : acc w1 w2 -> acc w2 w3 -> acc w1 w3.
Proof.
  intros H1 H2. destruct H1, H2. split; try congruence; [intros p Hp; rewrite ac_others1 by done; auto|auto|].
  destruct ac_me1 as [|E]; [by left|]. destruct ac_me0 as [Hh|E']; [left|right; congruence]. unfold hw_ok in *. by rewrite ac_its1, ac_count1, E.
Qed.
Lemma acc_hw_ok w w' : acc w w' -> hw_ok w me -> hw_ok w' me.
Proof. intros [] H. destruct ac_me0 as [|E]; [done|]. unfold hw_ok in *. by rewrite ac_its0, ac_count0, E. Qed.

Lemma acc_flush t w : semi w -> acc w (vgicv3_flush_vcpu me t (t =? v) w).
Proof.
  intros Hs. pose proof (se_wf w Hs) as Hw. destruct (Z.eqb_spec t v) as [->|Hne].
  - destruct (flush_vcpu_spec me v true w Hw (or_introl eq_refl)) as ([Hw' []] & _ & _ & _ & H2 & _). split; try done; try (by rewrite fr_tables); auto.
  - destruct (vgicv3_vcpu_is_running_remote w me t) eqn:Er.
    { unfold vgicv3_flush_vcpu. rewrite Er. by apply acc_refl. }
    destruct (flush_vcpu_spec me t false w Hw (or_intror Er)) as ([Hw' []] & _ & _ & _ & H2).
    assert (live w me t false = false) as El.
    { unfold live. destruct (vgicv3_vcpu_is_loaded w me t) eqn:E; [|done]. apply loaded_running in E. rewrite (se_me w Hs) in E. congruence. }
    rewrite El in H2. split; try done; [by rewrite fr_tables|right; by rewrite H2].
Qed.

Lemma acc_foldl {A} (f : vgic_world -> A -> vgic_world) l : (forall w x, semi w -> acc w (f w x)) -> forall w, semi w -> acc w (foldl f w l).
Proof.
  intros Hf. induction l as [|x l IH]; intros w Hs; cbn [foldl]; [apply acc_refl, Hs|].
  pose proof (Hf w x Hs) as H1. apply (acc_trans _ (f w x)); [done|]. apply IH. by apply (semi_acc w).
Qed.
Lemma acc_flush_vm w : semi w -> acc w (vgicv3_flush_vm me v w).
Proof. intros Hs. apply acc_foldl; [|done]. intros w' t Hs'. by apply acc_flush. Qed.
Lemma acc_flush_target t w : semi w -> acc w (vgicv3_flush_target_vcpu me v t w).
Proof. intros Hs. unfold vgicv3_flush_target_vcpu. destruct t; [by apply acc_flush|apply acc_refl, Hs]. Qed.

(** A write followed by a flush. *)
Lemma acc_then (b : bool) w w' (f : vgic_world -> vgic_world) : semi w -> acc w w' -> (forall w, semi w -> acc w (f w)) -> acc w (if b then f w' else w').
Proof. intros Hs H Hf. destruct b; [|done]. apply (acc_trans _ w'); [done|]. apply Hf. by apply (semi_acc w). Qed.

Lemma semi_inv w : semi w -> hw_ok w me -> inv w.
Proof. intros [Hw Hme Hr Ht Hn] Hh. split; [done| |done|done]. intros p u E. destruct (Hr p u E) as (Hu & Hp & Hx). split_and!; [done..|]. destruct (decide (p = me)) as [->|]; auto. Qed.

(** ** The distributor and the redistributors *)
Lemma decode_bit_nonneg offset local r base : vgic_decode_irq_bit_reg offset local = Some (r, base) -> 0 <= base.
Proof.
  unfold vgic_decode_irq_bit_reg. cbv zeta. unfold reg_word_index.
  assert (forall s, s <= offset -> 0 <= (offset - s) / 4 * 32) as H by (intros s Hs; apply Z.mul_nonneg_nonneg; [apply Z.div_pos; lia|lia]).
  match goal with |- match ?x with _ => _ end = _ -> _ => set (found := x) end.
  assert (forall r' b, found = Some (r', b) -> 0 <= b) as Hf.
  { intros r' b. unfold found.
    repeat (lazymatch goal with |- (if ?c then _ else _) = _ -> _ => destruct c eqn:? end; [intros [= _ <-]; apply H; lia|]). done. }
  clearbody found. destruct found as [[r' b]|]; [|done]. specialize (Hf r' b eq_refl). destruct (local && _); [done|]. intros [= _ <-]. destruct local; lia.
Qed.
Lemma decode_config_nonneg offset local base : vgic_decode_irq_config_reg offset local = Some base -> 0 <= base.
Proof.
  unfold vgic_decode_irq_config_reg. cbv zeta. destruct (_ && _) eqn:E; [|done]. intros [= <-]. unfold reg_word_index.
  apply Z.mul_nonneg_nonneg; [apply Z.div_pos; lia|done].
Qed.

Lemma calm_vgicd_write u offset size value w : wf w -> calm w (vgicd_mmio_write u offset size value w).2.
Proof.
  intros Hw. unfold vgicd_mmio_write. destruct (vgic_decode_irq_bit_reg offset false) as [[r base]|] eqn:E1.
  { apply calm_write_bits; [by apply (decode_bit_nonneg offset false r)|done]. }
  destruct (vgic_decode_irq_config_reg offset false) as [base|] eqn:E2; [apply calm_write_config; [by apply (decode_config_nonneg offset false)|done]|].
  destruct (_ =? _); [by apply calm_set_vgic|]. destruct (_ && _); [by apply calm_write_target|]. destruct (_ && _); [|by apply calm_refl].
  destruct (vgic_decode_irouter_reg offset) as [[k high]|]; [by apply calm_write_irouter|by apply calm_refl].
Qed.

Lemma acc_vgicd iidr offset size write value w : semi w -> acc w (vgicd_mmio_access me v iidr offset size write value w).2.
Proof.
  intros Hs. pose proof (se_wf w Hs) as Hw. unfold vgicd_mmio_access. destruct (vgic_priority_access offset size) eqn:Ep.
  { destruct write; [|by apply acc_refl]. cbn [snd]. apply (acc_then true); [done| |apply acc_flush_vm]. apply acc_calm, calm_write_priority; [|done].
    unfold vgic_priority_access, mmio_access_in_range in Ep. lia. }
  destruct (vgic_target_access offset size); [destruct write; [|by apply acc_refl]; cbn [snd]; apply (acc_then true); [done|by apply acc_calm, calm_write_target|apply acc_flush_vm]|].
  destruct (negb _); [by apply acc_refl|]. destruct write; [|by apply acc_refl].
  pose proof (calm_vgicd_write v offset size value w Hw) as Hc. destruct (vgicd_mmio_write v offset size value w) as [flush w']. cbn [snd] in *.
  apply acc_then; [done|by apply acc_calm|apply acc_flush_vm].
Qed.

Lemma calm_sgi_write t offset size value w : wf w -> calm w (vgicr_sgi_mmio_write t offset size value w).2.
Proof.
  intros Hw. unfold vgicr_sgi_mmio_write. destruct (vgic_decode_irq_bit_reg offset true) as [[r base]|] eqn:E1.
  { apply calm_write_bits; [by apply (decode_bit_nonneg offset true r)|done]. }
  destruct (vgic_decode_irq_config_reg offset true) as [base|] eqn:E2; [apply calm_write_config; [by apply (decode_config_nonneg offset true)|done]|].
  destruct (_ && _) eqn:E; [|by apply calm_refl]. apply calm_write_priority; [lia|done].
Qed.

Context (get_vm_config : Z -> arch_vm_config) (vm : stage2_vm) (host : bytes).

Lemma calm_vgicr_write f size value w : wf w -> calm w (vgicr_mmio_write get_vm_config vm host f size value w).2.
Proof.
  intros Hw. unfold vgicr_mmio_write. cbv zeta. destruct (_ =? _).
  { destruct (its_enabled (vgic w)); [|by apply calm_refl]. set (w1 := set_vgic _ w). assert (calm w w1) as H1 by (by apply calm_set_vgic).
    destruct (frame_vcpu f) as [t|]; [|done]. cbn [snd]. case_match; [|done]. apply (calm_trans _ w1); [done|]. intros Hw1. by apply calm_invall. }
  destruct (_ =? _); [by apply calm_set_vgic|].
  do 4 (destruct (_ =? _); [destruct (its_enabled (vgic w)); [by apply calm_set_vgic|by apply calm_refl]|]).
  destruct (_ =? _); [destruct (its_enabled (vgic w)), (frame_vcpu f); try (by apply calm_refl); by apply calm_update_lpi|].
  destruct (_ =? _); [destruct (its_enabled (vgic w)), (frame_vcpu f); try (by apply calm_refl); by apply calm_invall|].
  destruct (_ && _); [|by apply calm_refl]. destruct (frame_vcpu f); [by apply calm_sgi_write|by apply calm_refl].
Qed.

Lemma acc_vgicr iidr base stride addr size write value w : semi w ->
  acc w (vgicr_mmio_access get_vm_config vm host me v iidr base stride addr size write value w).2.
Proof.
  intros Hs. pose proof (se_wf w Hs) as Hw. unfold vgicr_mmio_access. destruct (vgicr_decode_frame base stride addr w) as [f|]; [|by apply acc_refl].
  destruct (_ && _) eqn:Ep.
  { cbv zeta. destruct write, (frame_vcpu f) as [t|]; try (by apply acc_refl). cbn [snd]. apply (acc_then true); [done| |apply acc_flush_target].
    apply acc_calm, calm_write_priority; [|done]. unfold vgic_priority_access, mmio_access_in_range in Ep. lia. }
  destruct (negb _); [by apply acc_refl|]. destruct write; [|by apply acc_refl].
  pose proof (calm_vgicr_write f size value w Hw) as Hc. destruct (vgicr_mmio_write _ _ _ f size value w) as [flush w']. cbn [snd] in *.
  apply acc_then; [done|by apply acc_calm|apply acc_flush_target].
Qed.

(** ** Accesses to the ITS

    An injection starts from LRs that are in order. *)
Definition ready (w : vgic_world) : Prop := semi w /\ hw_ok w me.
Lemma ready_acc w w' : ready w -> acc w w' -> ready w'.
Proof. intros [Hs Hh] H. split; [by apply (semi_acc w)|by apply (acc_hw_ok w)]. Qed.

Lemma acc_inject t k lvl w : ready w -> 0 <= k -> acc w (vgic_inject_locked me t k lvl w).2.
Proof.
  intros [Hs Hh] Hk. pose proof (se_wf w Hs) as Hw. destruct (vgic_irq_desc w t k) eqn:Ed; [|unfold vgic_inject_locked; rewrite Ed; by apply acc_refl].
  pose proof (semi_inv w Hs Hh) as Hi. destruct (inject_op me t k lvl w Hi Hk Ed) as [-> Hg]. cbn [snd].
  destruct (op_ok me t false _ w Hi ltac:(done) Hg) as [[Hw' Hf] Hi']. set (w' := op _ _ _ _ w) in *. clearbody w'.
  pose proof (fr_running _ _ _ _ Hf) as Er. destruct Hf. split; try done; [by rewrite fr_tables|]. left. apply (inv_running w' Hi' me v). by rewrite Er, (se_me w Hs).
Qed.

Lemma acc_inject_event x w : ready w -> acc w (vits_inject_event_locked me x w).2.
Proof.
  intros Hr. pose proof (se_wf w (proj1 Hr)) as Hw. unfold vits_inject_event_locked. destruct (_ || _) eqn:E; [by apply acc_refl|].
  apply orb_false_iff in E as [_ E]. apply negb_false_iff, lpi_range in E. cbv zeta. case_match; [by apply acc_refl|].
  set (w1 := set_irq _ _ _ w). assert (calm w w1) as H1 by (apply (calm_change_irq _ _ (fun d => d <| target_vcpu := _ |>)); [apply config_target|done]).
  apply (acc_trans _ w1); [by apply acc_calm|]. apply acc_inject; [by apply (ready_acc w); [|apply acc_calm]|lia].
Qed.
Lemma acc_inject_by_id did eid w : ready w -> acc w (vits_inject_event_by_id_locked me did eid w).2.
Proof.
  intros Hr. unfold vits_inject_event_by_id_locked. destruct (vits_find_event _ did eid) as [[d e]|]; [by apply acc_inject_event|apply acc_refl, (se_wf w (proj1 Hr))].
Qed.

Lemma acc_mapti did eid lpi cid w : 0 <= eid -> wf w -> acc w (cmd_mapti get_vm_config vm host did eid lpi cid w).2.
Proof.
  intros He Hw. unfold cmd_mapti. destruct (mapti_event _ _ _ _ _) as [[[d e] t]|] eqn:Em; [|by apply acc_refl]. cbn [snd].
  assert (acc w (set_its t w)) as H1.
  { apply acc_set_its; [done|]. intros Hok. pose proof (mapti_refines _ Hok did eid lpi cid He) as H. rewrite Em in H. apply H. }
  apply (acc_trans _ (set_its t w)); [done|]. apply acc_calm, calm_update_event, H1.
Qed.
Lemma acc_discard did eid w : wf w -> acc w (cmd_discard did eid w).2.
Proof.
  intros Hw. unfold cmd_discard. pose proof (find_event_spec (its (vgic w)) did eid) as Hs. destruct (vits_find_event _ did eid) as [[d e]|]; [|by apply acc_refl]. cbn [snd].
  unfold vits_clear_event_state_locked. set (w1 := if _ || _ then w else _). assert (calm w w1) as H1.
  { unfold w1. destruct (_ || _) eqn:E; [by apply calm_refl|]. apply orb_false_iff in E as [_ E]. apply negb_false_iff in E. cbv zeta. case_match; [by apply calm_clear_lpi|by apply calm_refl]. }
  apply (acc_trans _ w1); [by apply acc_calm|]. apply acc_set_its; [apply H1|]. rewrite (ca_tables _ _ H1). intros Hok. exact (proj1 (discard_refines _ Hok did eid d e Hs)).
Qed.
Lemma calm_clear did eid w : wf w -> calm w (cmd_clear did eid w).2.
Proof.
  intros Hw. unfold cmd_clear. destruct (vits_find_event _ did eid) as [[d e]|]; [|by apply calm_refl]. cbv zeta.
  destruct (vgic_irq_is_lpi _) eqn:E; [|by apply calm_refl]. cbn [snd]. case_match; [by apply calm_clear_lpi|by apply calm_refl].
Qed.

Lemma land_nonneg_r x y : 0 <= y -> 0 <= Z.land x y.
Proof. intros H. apply Z.land_nonneg. by right. Qed.

Lemma acc_execute cmd w : ready w -> acc w (vits_execute_cmd get_vm_config vm host me cmd w).2.
Proof.
  intros Hr. pose proof (se_wf w (proj1 Hr)) as Hw. unfold vits_execute_cmd. cbv zeta.
  assert (0 <= u32 (cmd1 cmd)) as He by (apply Z.mod_pos_bound; lia). set (did := u32 (Z.shiftr (cmd0 cmd) 32)). set (t := its (vgic w)).
  destruct (_ =? _).
  { set (itt := Z.land (cmd2 cmd) _). pose proof (fun Hok => mapd_refines t did (Z.land (cmd1 cmd) 0x1f) itt (negb (Z.land (cmd2 cmd) (Z.shiftl 1 63) =? 0)) Hok (land_nonneg_r _ 0x1f ltac:(lia))) as H.
    destruct (cmd_mapd _ _ _ _ _). apply acc_set_its; [done|]. intros Hok. by apply H. }
  destruct (_ =? _).
  { pose proof (fun Hok => mapc_refines t Hok (Z.land (cmd2 cmd) 0xffff) (Z.land (Z.shiftr (cmd2 cmd) 16) 0xffff) (negb (Z.land (cmd2 cmd) (Z.shiftl 1 63) =? 0)) (vgic w)) as H.
    destruct (cmd_mapc _ _ _ _ _). apply acc_set_its; [done|]. intros Hok. by apply H. }
  do 2 (destruct (_ =? _); [by apply acc_mapti|]).
  destruct (_ =? _).
  { pose proof (fun Hok => movi_refines t Hok did (u32 (cmd1 cmd)) (Z.land (cmd2 cmd) 0xffff)) as H. destruct (cmd_movi _ _ _ _). apply acc_set_its; [done|]. intros Hok. by apply H. }
  destruct (_ =? _); [by apply acc_discard|].
  destruct (_ =? _).
  { pose proof (acc_inject_by_id (u32 (Z.shiftr (cmd0 cmd) 32)) (u32 (cmd1 cmd)) w Hr) as H. destruct (vits_inject_event_by_id_locked _ _ _ w). exact H. }
  destruct (_ =? _); [by apply acc_calm, calm_clear|].
  destruct (_ =? _); [unfold cmd_inv; destruct (vits_find_event _ _ _) as [[d e]|]; [by apply acc_calm, calm_update_event|by apply acc_refl]|].
  destruct (_ =? _); [|case_match; by apply acc_refl]. unfold cmd_invall. destruct (vits_find_collection _ _); [|by apply acc_refl]. cbv zeta.
  case_match; [by apply acc_calm, calm_invall|by apply acc_refl].
Qed.

Lemma acc_cmd_loop budget : forall base size reader writer flush w, ready w ->
  acc w (cmd_loop get_vm_config vm host budget me base size reader writer flush w).2.
Proof.
  induction budget as [|budget IH]; intros base size reader writer flush w Hr; pose proof (se_wf w (proj1 Hr)) as Hw; cbn [cmd_loop]; [by apply acc_refl|].
  case_match; [by apply acc_refl|]. destruct (read_cmd _ _ _ _) as [cmd|]; [|by apply acc_refl]. cbv zeta.
  pose proof (acc_execute cmd w Hr) as H1. apply (acc_trans _ (vits_execute_cmd get_vm_config vm host me cmd w).2); [done|]. apply IH. by apply (ready_acc w).
Qed.

Lemma acc_queue w : ready w -> acc w (vits_process_command_queue get_vm_config vm host me w).2.
Proof.
  intros Hr. pose proof (se_wf w (proj1 Hr)) as Hw. unfold vits_process_command_queue. cbv zeta. case_match; [by apply acc_regs|].
  case_match; [by apply acc_regs|].
  pose proof (acc_cmd_loop GITS_CMD_QUEUE_BUDGET (vits_cmd_queue_base (its (vgic w))) (vits_cmd_queue_size (its (vgic w))) (creadr (its (vgic w))) (cwriter (its (vgic w))) false w Hr) as H1.
  destruct (cmd_loop _ _ _ _ _ _ _ _ _ _ w) as [[r f] w']. cbn [snd] in *. apply (acc_trans _ w'); [done|]. by apply acc_regs; [apply H1|..].
Qed.

Lemma acc_set_its_queue t w : ready w -> (tables_ok (its (vgic w)) -> tables_ok t) -> acc w (vits_process_command_queue get_vm_config vm host me (set_its t w)).2.
Proof.
  intros Hr Ht. pose proof (acc_set_its t w (se_wf w (proj1 Hr)) Ht) as H1. apply (acc_trans _ (set_its t w)); [done|]. apply acc_queue. by apply (ready_acc w).
Qed.

Lemma acc_its_read iidr vmpidr offset w : ready w -> acc w (vits_mmio_read get_vm_config vm host me iidr vmpidr offset w).2.
Proof.
  intros Hr. pose proof (se_wf w (proj1 Hr)) as Hw. pose proof (acc_queue w Hr) as Hq. unfold vits_mmio_read. cbv zeta.
  destruct (vits_process_command_queue get_vm_config vm host me w) as [f w'].
  repeat lazymatch goal with |- acc _ (if ?c then _ else _).2 => destruct c; [first [by apply acc_refl|exact Hq]|] end. by apply acc_refl.
Qed.

Lemma acc_its_write offset value w : ready w -> acc w (vits_mmio_write get_vm_config vm host me offset value w).2.
Proof.
  intros Hr. pose proof (se_wf w (proj1 Hr)) as Hw. unfold vits_mmio_write. cbv zeta. case_match; [by apply acc_regs|].
  destruct (_ =? _); [case_match; [apply acc_set_its_queue; [done|by apply tables_same]|by apply acc_regs]|].
  do 2 (destruct (_ =? _); [by apply acc_regs|]). do 2 (destruct (_ =? _); [apply acc_set_its_queue; [done|by apply tables_same]|]).
  destruct (_ =? _); [by apply acc_inject_by_id|by apply acc_refl].
Qed.

Lemma acc_its iidr vmpidr offset size write value w : ready w -> acc w (arm64_vgicv3_its_mmio_access get_vm_config vm host me v iidr vmpidr offset size write value w).2.
Proof.
  intros Hr. pose proof (se_wf w (proj1 Hr)) as Hw. unfold arm64_vgicv3_its_mmio_access. case_match; [by apply acc_refl|]. destruct write.
  - pose proof (acc_its_write offset value w Hr) as H1. destruct (vits_mmio_write _ _ _ _ offset value w) as [f w']. cbn [snd] in *.
    apply acc_then; [apply Hr|done|apply acc_flush_vm].
  - pose proof (acc_its_read iidr vmpidr offset w Hr) as H1. destruct (vits_mmio_read _ _ _ _ iidr vmpidr offset w) as [[x f] w']. cbn [snd] in *.
    apply acc_then; [apply Hr|done|apply acc_flush_vm].
Qed.

Lemma acc_its64 offset size write value w ret w' : ready w -> arm64_vgicv3_its_mmio_access64 get_vm_config vm host me v offset size write value w = Some (ret, w') -> acc w w'.
Proof.
  intros Hr. unfold arm64_vgicv3_its_mmio_access64. case_match; [|done]. set (t := (its (vgic w)) <| cwriter := value |>).
  pose proof (acc_set_its_queue t w Hr (tables_same (its (vgic w)) t eq_refl eq_refl eq_refl)) as H1. destruct (vits_process_command_queue _ _ _ _ _) as [f w1]. cbn [snd] in *. intros [= _ <-].
  apply acc_then; [apply Hr|done|apply acc_flush_vm].
Qed.

(** ** The handler *)
Definition may_access (w : vgic_world) : Prop := semi w /\ (its_enabled (vgic w) = true -> hw_ok w me).

Lemma may_ready w : may_access w -> its_enabled (vgic w) = true -> ready w.
Proof. intros [Hs Hh] E. split; auto. Qed.

Lemma may_acc w w' : may_access w -> acc w w' -> may_access w'.
Proof. intros [Hs Hh] H. split; [by apply (semi_acc w)|]. rewrite (ac_its _ _ H). intros E. apply (acc_hw_ok w); auto. Qed.

Lemma acc_dispatch cfg addr size write value w : may_access w -> acc w (vgicv3_mmio_dispatch get_vm_config vm host cfg me v addr size write value w).2.
Proof.
  intros Hm. unfold vgicv3_mmio_dispatch. destruct (addr_in_range _ _ _); [apply acc_vgicd, Hm|]. destruct (addr_in_range _ _ _); [apply acc_vgicr, Hm|].
  destruct (its_enabled (vgic w)) eqn:Ei; cbn [andb]; [|apply acc_refl, Hm]. destruct (addr_in_range _ _ _); [|apply acc_refl, Hm].
  apply acc_its. by apply may_ready.
Qed.

Lemma acc_dispatch64 cfg addr write value w : may_access w -> acc w (vgicv3_mmio_dispatch64 get_vm_config vm host cfg me v addr write value w).2.
Proof.
  intros Hm. unfold vgicv3_mmio_dispatch64. cbv zeta. set (split := let '(_, _, _) := _ in _).
  assert (acc w split.2) as Hsplit.
  { unfold split. pose proof (acc_dispatch cfg addr 4 write (if write then low32 value else value) w Hm) as H1.
    destruct (vgicv3_mmio_dispatch _ _ _ _ _ _ _ _ _ _ w) as [[ret low] w1]. cbn [snd] in H1. case_match; [|done].
    pose proof (acc_dispatch cfg (addr + 4) 4 write (if write then high32 value else value) w1 (may_acc w w1 Hm H1)) as H2.
    destruct (vgicv3_mmio_dispatch _ _ _ _ _ _ _ _ _ _ w1) as [[ret' high] w2]. cbn [snd] in *. by apply (acc_trans _ w1). }
  clearbody split. destruct (its_enabled (vgic w)) eqn:Ei; cbn [andb]; [|done]. destruct (addr_in_range _ _ _); [|done].
  destruct (arm64_vgicv3_its_mmio_access64 _ _ _ _ _ _ _ _ _ w) as [[ret w']|] eqn:E; [|done]. apply (acc_its64 _ _ _ _ _ _ _ (may_ready w Hm Ei) E).
Qed.

Lemma acc_access cfg addr size write value w : may_access w -> acc w (vgicv3_mmio_access get_vm_config vm host cfg me v addr size write value w).2.
Proof.
  intros Hm. unfold vgicv3_mmio_access. case_match; [by apply acc_dispatch|]. case_match; [by apply acc_dispatch64|apply acc_refl, Hm].
Qed.
End Access.

(** The sync before the access left the LRs of the hardware as they were, or, without
    an ITS, the handler writes them at the end. *)
Definition mmio_in_step (get_vm_config : Z -> arch_vm_config) (vm : stage2_vm) (host : bytes) (cfg : gic_config) (me addr size : Z) (write : bool) (value : Z) (w : vgic_world) : Prop :=
  forall v, running w me = Some v -> let w1 := vgicv3_sync_vcpu me v true w in
    ich_lr (cpuif w1 me) = ich_lr (cpuif w me) \/
    its_enabled (vgic w) = false /\
    vgicv3_lrs_changed (vctx (vgicv3_mmio_access get_vm_config vm host cfg me v addr size write value w1).2 v) (lr (vctx w v)) (used_lrs (vctx w v)) (hcr (vctx w v)) = true.

Lemma mmio_handler_inv get_vm_config vm host cfg me addr size write value w : inv w -> mmio_in_step get_vm_config vm host cfg me addr size write value w ->
  inv (arm64_vgicv3_mmio_handler get_vm_config vm host cfg me addr size write value w).2.
Proof.
  intros Hi Hg. unfold arm64_vgicv3_mmio_handler. destruct (running w me) as [v|] eqn:Hr; [|done]. specialize (Hg v Hr). cbv zeta in *.
  pose proof (op_sync me v true w Hi (fun _ => Hr)) as [Hw1 Hf1]. set (w1 := vgicv3_sync_vcpu me v true w) in *. clearbody w1.
  assert (semi me v w1) as Hs1.
  { split; [done|by rewrite (fr_running _ _ _ _ Hf1)| |exact (frame_tables me v w w1 Hi Hf1)|exact (frame_vcpus me v w w1 Hi Hf1)]. intros p u E. rewrite (fr_running _ _ _ _ Hf1) in E. destruct (inv_running w Hi p u E) as (Hu & Hp & Hh).
    split_and!; [done|by rewrite (fr_pcpu _ _ _ _ Hf1)|]. intros Hne. apply (hw_ok_frame me v w w1 p Hf1); [by rewrite (fr_cpuif _ _ _ _ Hf1)|done]. }
  assert (ich_lr (cpuif w1 me) = ich_lr (cpuif w me) -> hw_ok w1 me) as Hh1 by (intros E; apply (hw_ok_frame me v w w1 me Hf1 E); by apply (inv_running w Hi me v)).
  assert (may_access me v w1) as Hm by (split; [done|]; rewrite (fr_its _ _ _ _ Hf1); intros Ei; destruct Hg as [E|[E _]]; [auto|congruence]).
  pose proof (acc_access me v get_vm_config vm host cfg addr size write value w1 Hm) as Ha. set (r := vgicv3_mmio_access _ _ _ _ _ _ _ _ _ _ w1) in *.
  destruct r as [[ret x] w2]. cbn [snd] in *. pose proof (semi_acc me v _ _ Hs1 Ha) as Hs2.
  destruct (vgicv3_lrs_changed _ _ _ _) eqn:Ech.
  - pose proof (acc_flush me v v w2 Hs2) as Hfl. rewrite Z.eqb_refl in Hfl. apply (semi_inv me v); [by apply (semi_acc me v w2)|].
    by destruct (flush_vcpu_spec me v true w2 (se_wf _ _ _ Hs2) (or_introl eq_refl)) as (_ & _ & _ & _ & H2 & _).
  - destruct Hg as [E|[_ E]]; [|congruence]. apply (semi_inv me v); [done|]. apply (acc_hw_ok me w1); auto.
Qed.
