(* ===== verification/VgicQuery.v ===== *)
(** * What the guest still has to see

    [arm64_vgicv3_has_pending_irq], which decides whether a vCPU may sleep, finds an
    interrupt exactly when there is one to deliver. *)
From S2P Require Import Prelude Bits Vgic VgicInv VgicFlow VgicFlush.

(** ** Scans *)
Section Scan.
  Context (hit : Z -> bool).

(** What a loop that raises a flag may do to it. *)
Definition flag_step (E : Prop) (a a' : bool) : Prop := (a = true -> a' = true) /\ (a' = true -> a = true \/ E).
#[local] Instance flag_step_preorder E : PreOrder (flag_step E).
Proof. split; [intros a; split; auto|]. intros a b c [H1 H2] [H3 H4]. split; [auto|]. intros Hc. destruct (H4 Hc); auto. Qed.

Lemma scan_bits bits found : in_u32 bits ->
  let r := while_bits 32 (fun b found => (found || hit b, hit b)) bits found in let E := exists b, 0 <= b < 32 /\ Z.testbit bits b = true /\ hit b = true in
  flag_step E found r.1 /\ if r.2 then r.1 = true else ~ E.
Proof.
  intros Hb. cbv zeta. set (E := exists b, _).
  destruct (while_bits_spec (flag_step E) (fun _ => True) (fun a => a = true) (fun b _ => hit b = false) (fun b found => (found || hit b, hit b))
    ltac:(done) bits found Hb) as (H1 & _ & H2); [|done|].
  - intros b a Hb32 Hbit _. cbn [fst snd]. split_and!; [|done|destruct (hit b); [apply orb_true_r|done]]. split; [by intros ->|].
    intros H. apply orb_prop in H as [|Hh]; [by left|right; by exists b].
  - split; [done|]. case_match; [done|]. intros (b & Hb32 & Hbit & Hh). rewrite (H2 b Hb32 Hbit) in Hh. done.
Qed.

(** The loop over the words. *)
Lemma scan_words (f : Z -> bool -> bool * bool) (E : Z -> Prop) n :
  (forall word a, 0 <= word < n -> flag_step (E word) a (f word a).1 /\ if (f word a).2 then (f word a).1 = true else ~ E word) ->
  (for_break f (seqZ 0 n) false).1 = true <-> exists word, 0 <= word < n /\ E word.
Proof.
  intros Hf. set (Ex := exists word, _).
  destruct (for_break_spec (flag_step Ex) (fun _ => True) (fun a => a = true) (fun word _ => ~ E word) f ltac:(done) (seqZ 0 n)) with (a := false) as (H1 & _ & H2); [|done|].
  - intros word a Hin _. apply elem_of_seqZ in Hin. destruct (Hf word a) as [[G1 G2] G3]; [lia|]. split_and!; [|done|done].
    split; [done|]. intros Ha. destruct (G2 Ha); [by left|right]. exists word. split; [lia|done].
  - split; [intros Ht; by destruct (proj2 H1 Ht)|]. intros (word & Hw & He). destruct (for_break f (seqZ 0 n) false) as [a stop]. cbn in *.
    destruct stop; [done|]. exfalso. apply (H2 word); [apply elem_of_seqZ; lia|done].
Qed.
End Scan.

(** ** The query *)
Definition spi_hit (w : vgic_world) (v k : Z) : bool :=
  pending (irq_of w v k) && vgic_irq_deliverable w v k && (negb (level (irq_of w v k)) || (find_lr_for_virq (vctx w v) k <? 0)).
Definition lpi_hit (w : vgic_world) (v k : Z) : bool := pending (irq_of w v k) && vgic_irq_deliverable w v k.


Section Query.
  Context (w : vgic_world) (v : Z) (Hw : wf w).

(** One word of either bitmap; [hit] implies that the bit of the interrupt is set. *)
Lemma scan_word_spec (base bits : Z) (hit : Z -> bool) a : in_u32 bits ->
  (forall b, 0 <= b < 32 -> hit (base + b) = true -> Z.testbit bits b = true) ->
  let r := while_bits 32 (fun b found => (found || hit (base + b), hit (base + b))) bits a in
  let E := exists k, base <= k < base + 32 /\ hit k = true in
  flag_step E a r.1 /\ if r.2 then r.1 = true else ~ E.
Proof.
  intros Hu Hb. cbv zeta. destruct (scan_bits (fun b => hit (base + b)) bits a Hu) as [[G1 G2] G3]. cbv zeta in *.
  assert ((exists b, 0 <= b < 32 /\ Z.testbit bits b = true /\ hit (base + b) = true) <-> (exists k, base <= k < base + 32 /\ hit k = true)) as He.
  { split; [intros (b & H & _ & H1); exists (base + b); split; [lia|done]|].
    intros (k & H & H1). exists (k - base). assert (hit (base + (k - base)) = true) as H2 by (by replace (base + (k - base)) with k by lia).
    split_and!; [lia..|apply Hb; [lia|done]|done]. }
  rewrite He in G2. split; [by split|]. case_match; [done|]. by rewrite <- He.
Qed.

Lemma hit_bit k : 0 <= k -> pending (irq_of w v k) = true -> pend_bit (vgic w) v k = true.
Proof. intros Hk H. by rewrite (wf_bits w Hw). Qed.

Lemma scan_spis : (for_break (scan_word w v) (seqZ 0 ARM64_VGIC_WORDS) false).1 = true <->
  exists k, 0 <= k < ARM64_VGIC_IRQ_NUM /\ spi_hit w v k = true.
Proof.
  rewrite (scan_words _ (fun word => exists k, word * 32 <= k < word * 32 + 32 /\ spi_hit w v k = true)).
  - unfold ARM64_VGIC_WORDS, ARM64_VGIC_IRQ_NUM. split.
    + intros (word & H & k & Hk & Hh). exists k. split; [lia|done].
    + intros (k & Hk & Hh). exists (k / 32). pose proof (Z.div_mod k 32 ltac:(lia)). pose proof (Z.mod_pos_bound k 32 ltac:(lia)). split; [lia|]. exists k. split; [lia|done].
  - intros word a Hword. apply (scan_word_spec (word * 32) (pending_bitmap (vgic w) v word) (spi_hit w v) a); [apply (wf_words w Hw v word)|].
    intros b Hb Hh. unfold spi_hit in Hh. rewrite !andb_true_iff in Hh. destruct Hh as [[Hp _] _]. apply hit_bit in Hp; [|lia]. unfold pend_bit in Hp.
    replace (vgic_irq_is_lpi (word * 32 + b)) with false in Hp by (unfold vgic_irq_is_lpi, ARM64_VGIC_LPI_BASE, ARM64_VGIC_WORDS in *; lia).
    destruct (bit_of_word word b Hb) as [E1 E2]. by rewrite E1, E2 in Hp.
Qed.

Lemma scan_lpis : (for_break (scan_lpi_word w v) (seqZ 0 ARM64_VGIC_LPI_WORDS) false).1 = true <->
  exists k, vgic_irq_is_lpi k = true /\ lpi_hit w v k = true.
Proof.
  rewrite (scan_words _ (fun word => exists k, ARM64_VGIC_LPI_BASE + word * 32 <= k < ARM64_VGIC_LPI_BASE + word * 32 + 32 /\ lpi_hit w v k = true)).
  - unfold vgic_irq_is_lpi, ARM64_VGIC_LPI_WORDS, ARM64_VGIC_LPI_NUM, ARM64_VGIC_LPI_BASE. split.
    + intros (word & H & k & Hk & Hh). exists k. split; [lia|done].
    + intros (k & Hk & Hh). exists ((k - 8192) / 32). pose proof (Z.div_mod (k - 8192) 32 ltac:(lia)). pose proof (Z.mod_pos_bound (k - 8192) 32 ltac:(lia)). split; [lia|]. exists k. split; [lia|done].
  - intros word a Hword. apply (scan_word_spec (ARM64_VGIC_LPI_BASE + word * 32) (lpi_pending_bitmap (vgic w) v word) (lpi_hit w v) a); [apply (wf_words w Hw v word)|].
    intros b Hb Hh. unfold lpi_hit in Hh. rewrite !andb_true_iff in Hh. destruct Hh as [Hp _]. apply hit_bit in Hp; [|unfold ARM64_VGIC_LPI_BASE; lia]. unfold pend_bit in Hp.
    replace (vgic_irq_is_lpi (ARM64_VGIC_LPI_BASE + word * 32 + b)) with true in Hp
      by (unfold vgic_irq_is_lpi, ARM64_VGIC_LPI_BASE, ARM64_VGIC_LPI_NUM, ARM64_VGIC_LPI_WORDS in *; lia).
    replace (ARM64_VGIC_LPI_BASE + word * 32 + b - ARM64_VGIC_LPI_BASE) with (word * 32 + b) in Hp by lia.
    destruct (bit_of_word word b Hb) as [E1 E2]. by rewrite E1, E2 in Hp.
Qed.

Lemma scan_pending_spec : scan_pending w v = true <->
  (exists k, 0 <= k < ARM64_VGIC_IRQ_NUM /\ spi_hit w v k = true) \/
  its_enabled (vgic w) = true /\ exists k, vgic_irq_is_lpi k = true /\ lpi_hit w v k = true.
Proof. unfold scan_pending. rewrite orb_true_iff, andb_true_iff. by rewrite scan_spis, scan_lpis. Qed.

Lemma lr_any_pending_spec : lr_any_pending (vctx w v) = true <-> exists k, opt_pending (lr_w w v k) = true.
Proof.
  unfold lr_any_pending. rewrite existsb_exists. split.
  - intros (i & Hi & H). apply list_elem_of_In, elem_of_seqZ in Hi. exists (lr_vintid (lr_at (lr (vctx w v)) i)).
    rewrite slot_lr; [done..|lia|]. intros E. unfold lr_pending in H. by rewrite E in H.
  - intros (k & H). destruct (lr_w w v k) as [x|] eqn:E; [|done]. apply (lr_of_some _ _ _ (proj1 (wf_ctx w Hw v))) in E as (i & Hi & Hx & Hv & _).
    exists i. split; [apply list_elem_of_In, elem_of_seqZ; split; [lia|]|by rewrite Hx]. apply (lo_used _ _ _ (proj1 (wf_ctx w Hw v))); [lia|by rewrite Hx].
Qed.

(** The interrupts that count: pending, deliverable, and of those that mirror a line
    only those without an LR. *)
Definition wakes (k : Z) : Prop :=
  has_irq (its_enabled (vgic w)) k /\ pending (irq_of w v k) = true /\ vgic_irq_deliverable w v k = true /\
  (vgic_irq_is_lpi k = true \/ level (irq_of w v k) = false \/ lr_w w v k = None).

Lemma scan_wakes : scan_pending w v = true <-> exists k, wakes k.
Proof.
  assert (forall k, lr_w w v k = None <-> find_lr_for_virq (vctx w v) k < 0) as Hn by (intros k; apply lr_of_find).
  rewrite scan_pending_spec. unfold wakes, has_irq, spi_hit, lpi_hit. split.
  - intros [(k & Hk & H)|(Hi & k & Hk & H)]; exists k; rewrite !andb_true_iff, ?orb_true_iff in H.
    + destruct H as [[-> ->] H]. split_and!; [by left|done..|right]. rewrite negb_true_iff, Z.ltb_lt, <- Hn in H. done.
    + destruct H as [-> ->]. split_and!; auto.
  - intros (k & [Hk|[Hi Hk]] & Hp & Hd & Hl); [left|right; split; [done|]]; exists k; split; [done| |done|]; rewrite Hp, Hd; [|done]. cbn.
    rewrite orb_true_iff, negb_true_iff, Z.ltb_lt, <- Hn. destruct Hl as [Hl|Hl]; [|done].
    unfold vgic_irq_is_lpi, ARM64_VGIC_LPI_BASE, ARM64_VGIC_IRQ_NUM in *. lia.
Qed.
End Query.
