(* ===== verification/VgicPm.v ===== *)
(** * Suspending a VM with its virtual interrupt controller

    [arm64_vgicv3_suspend_vm] and [arm64_vgicv3_resume_vm] of vgicv3.c: the state of
    the interrupts is kept in the descriptors and contexts while the host sleeps, with
    a summary of it, one per VM. *)
From S2P Require Import Prelude Bits Hooks SchedTypes GuestMem Vgic VgicInv VgicFlow VgicFlush VgicOps.

Record arm64_vgicv3_pm_state := {
  suspend_epoch : Z; priority_checksum : Z; cpuif_checksum : Z; pending_irqs : Z; active_irqs : Z; pm_valid : bool;
}.
#[export] Instance pm_state_eta : Eta arm64_vgicv3_pm_state := fun r => Build_arm64_vgicv3_pm_state
  (suspend_epoch r) (priority_checksum r) (cpuif_checksum r) (pending_irqs r) (active_irqs r) (pm_valid r).

(** The summary of one descriptor, and of one vCPU. *)
Definition capture_irq (d : arm64_vgic_irq) (s : arm64_vgicv3_pm_state) : arm64_vgicv3_pm_state :=
  s <| pending_irqs := u32 (pending_irqs s + Z.b2z (pending d)) |> <| active_irqs := u32 (active_irqs s + Z.b2z (active d)) |>
    <| priority_checksum := Z.lxor (u64 (priority_checksum s * 33)) (priority d) |>.
Definition capture_vcpu (w : vgic_world) (s : arm64_vgicv3_pm_state) (v : Z) : arm64_vgicv3_pm_state :=
  let c := vctx w v in
  let s := s <| cpuif_checksum := Z.lxor (cpuif_checksum s)
    (Z.lxor (Z.lxor (Z.lxor (Z.lxor (Z.lxor (Z.lxor (vmcr c) (hcr c)) (ap0r0 c)) (ap1r0 c)) (sre c)) (pmr c)) (ctlr c)) |> in
  let s := foldl (fun s k => capture_irq (irq (vgic w) v k) s) s (seqZ 0 ARM64_VGIC_IRQ_NUM) in
  if its_enabled (vgic w) then foldl (fun s k => capture_irq (irq (vgic w) v k) s) s (seqZ ARM64_VGIC_LPI_BASE ARM64_VGIC_LPI_NUM) else s.
Definition vgicv3_capture_pm_summary (w : vgic_world) (s : arm64_vgicv3_pm_state) : arm64_vgicv3_pm_state :=
  foldl (capture_vcpu w) (s <| pending_irqs := 0 |> <| active_irqs := 0 |> <| priority_checksum := 0 |> <| cpuif_checksum := 0 |>) (seqZ 0 (created_vcpus w)).

Definition vcpu_runs (w : vgic_world) (v : Z) : bool := vgicv3_vcpu_is_loaded w (pcpu_of w v) v.

(** The loop over the vCPUs under the lock; [None] when one runs. *)
Fixpoint suspend_vcpus (me : Z) (vs : list Z) (w : vgic_world) : option vgic_world * vgic_world :=
  match vs with
  | [] => (Some w, w)
  | v :: vs => if vcpu_runs w v then (None, w) else suspend_vcpus me vs (vgicv3_sync_vcpu me v false w)
  end.

(** [vm_id] and [initialized] are of the VM, [s] is its summary. *)
Definition arm64_vgicv3_suspend_vm (me vm_id epoch : Z) (initialized : bool) (s : arm64_vgicv3_pm_state) (w : vgic_world) : Z * arm64_vgicv3_pm_state * vgic_world :=
  if (CONFIG_MAX_VM_NUM <=? vm_id) || (epoch =? 0) then (- EINVAL, s, w)
  else if negb initialized || (ARM64_VGIC_MAX_VCPUS <? created_vcpus w) then (- ENODEV, s, w)
  else if pm_valid s then (if suspend_epoch s =? epoch then 0 else - EBUSY, s, w)
  else if existsb (vcpu_runs w) (seqZ 0 (created_vcpus w)) then (- EBUSY, s, w)
  else
    match suspend_vcpus me (seqZ 0 (created_vcpus w)) w with
    | (None, w) => (- EBUSY, s, w)
    | (Some _, w) => (0, (vgicv3_capture_pm_summary w (s <| suspend_epoch := epoch |>)) <| pm_valid := true |>, w)
    end.

Definition arm64_vgicv3_resume_vm (vm_id epoch : Z) (s : arm64_vgicv3_pm_state) (w : vgic_world) : Z * arm64_vgicv3_pm_state :=
  if (CONFIG_MAX_VM_NUM <=? vm_id) || (epoch =? 0) then (- EINVAL, s)
  else if negb (pm_valid s) then (0, s)
  else if negb (suspend_epoch s =? epoch) then (- EINVAL, s)
  else if existsb (vcpu_runs w) (seqZ 0 (created_vcpus w)) then (- EBUSY, s)
  else (0, s <| suspend_epoch := 0 |> <| pm_valid := false |>).

(** ** What a suspend keeps *)
Lemma inv_not_running w v p : inv w -> vcpu_runs w v = false -> running w p <> Some v.
Proof.
  intros Hi Hr E. destruct (inv_running w Hi p v E) as (_ & Hp & _). unfold vcpu_runs in Hr. rewrite Hp in Hr. apply loaded_running in E. congruence.
Qed.

Lemma suspend_sync me v w : inv w -> vcpu_runs w v = false -> let w' := vgicv3_sync_vcpu me v false w in
  inv w' /\ frame me v w w' /\ cpuif w' me = cpuif w me /\
  forall k, not_timer k -> clean w v k -> lr_w w' v k = lr_w w v k /\ owed w' v k = owed w v k.
Proof.
  intros Hi Hr w'. pose proof (inv_wf w Hi) as Hw. assert (live w me v false = false) as El.
  { unfold live. destruct (vgicv3_vcpu_is_loaded w me v) eqn:E; [|done]. apply loaded_running in E. by apply (inv_not_running w v me) in E. }
  assert (vgicv3_vcpu_is_running_remote w me v = false) as Er by (unfold vgicv3_vcpu_is_running_remote; fold (vcpu_runs w v); by rewrite Hr, andb_false_r).
  destruct (sync_vcpu_spec me me v false w) as [[Hw' Hf] Hk]; [done|done|by rewrite El|]. pose proof (sync_cpuif me v false w Hw El) as Ec.
  split_and!; [|done|done|].
  - apply (inv_step me v w); [done|by split|]. intros Hne. destruct (running w me) as [u|] eqn:Eu; [|done]. destruct (inv_running w Hi me u Eu) as (_ & _ & Hh).
    apply (hw_ok_frame me v w); [done|unfold w'; by rewrite Ec|done].
  - intros k Ht Hc. destruct (Hk (or_intror Er) k Ht) as (E1 & _ & E3 & _); [unfold undisturbed; by rewrite El|]. unfold res_lr in *. rewrite El in *. done.
Qed.

Lemma frame_runs me v w w' u : frame me v w w' -> vcpu_runs w' u = vcpu_runs w u.
Proof. intros Hf. unfold vcpu_runs. by rewrite (fr_pcpu _ _ _ _ Hf), (frame_loaded _ _ _ _ _ u Hf). Qed.

(** What the loop keeps of a vCPU and an interrupt. *)
Record slept (w w' : vgic_world) : Prop := {
  sl_running : running w' = running w;
  sl_pcpu : pcpu_of w' = pcpu_of w;
  sl_created : created_vcpus w' = created_vcpus w;
  sl_cpuif p : cpuif w' p = cpuif w p;
  sl_owed u k : not_timer k -> clean w u k -> lr_w w' u k = lr_w w u k /\ owed w' u k = owed w u k;
}.

Lemma slept_runs w w' v : slept w w' -> vcpu_runs w' v = vcpu_runs w v.
Proof. intros [E1 E2 _ _ _]. unfold vcpu_runs, vgicv3_vcpu_is_loaded. by rewrite E1, E2. Qed.

Lemma sync_slept me v w : inv w -> vcpu_runs w v = false -> slept w (vgicv3_sync_vcpu me v false w).
Proof.
  intros Hi Hr. destruct (suspend_sync me v w Hi Hr) as (_ & Hf & Ec & Hk). cbv zeta in *. set (w' := vgicv3_sync_vcpu me v false w) in *. clearbody w'.
  split; [apply Hf..|intros p; destruct (decide (p = me)) as [->|]; [done|by apply Hf]|].
  intros u k Ht Hc. destruct (decide (u = v)) as [->|Hne]; [by apply Hk|]. unfold lr_w, owed, irq_of, lr_w. by rewrite (fr_vcpu _ _ _ _ Hf u Hne), (fr_irq _ _ _ _ Hf u k Hne).
Qed.

(** The vCPUs are different, so that each is synced once. *)
Lemma suspend_vcpus_ok me vs : NoDup vs -> forall w, inv w -> (forall v, v ∈ vs -> vcpu_runs w v = false) ->
  exists w', suspend_vcpus me vs w = (Some w', w') /\ inv w' /\ slept w w' /\ forall u k, u ∉ vs -> vctx w' u = vctx w u /\ irq_of w' u k = irq_of w u k.
Proof.
  induction 1 as [|v vs Hv _ IH]; intros w Hi Hr; cbn [suspend_vcpus]; [by exists w|].
  rewrite (Hr v) by left. assert (vcpu_runs w v = false) as Hrv by (apply Hr; left). pose proof (sync_slept me v w Hi Hrv) as Hs.
  destruct (suspend_sync me v w Hi Hrv) as (Hi1 & Hf & _ & _). cbv zeta in *. set (w1 := vgicv3_sync_vcpu me v false w) in *. clearbody w1.
  destruct (IH w1 Hi1) as (w' & E & Hi' & [E1 E2 E3 E4 E6] & E5). { intros u Hu. rewrite (slept_runs w w1 u Hs). apply Hr. by right. }
  exists w'. destruct Hs as [S1 S2 S3 S4 S5]. split_and!; [done|done| |].
  - split; [congruence..|intros p; by rewrite E4|]. intros u k Ht Hc. destruct (S5 u k Ht Hc) as [F1 F2]. destruct (decide (u = v)) as [->|Hne].
    + unfold lr_w, owed, lr_w in *. destruct (E5 v k Hv) as [-> ->]. done.
    + assert (clean w1 u k) as Hc1 by (unfold clean; by rewrite (fr_vcpu _ _ _ _ Hf u Hne)). destruct (E6 u k Ht Hc1) as [-> ->]. done.
  - intros u k Hu. apply not_elem_of_cons in Hu as [Hne Hu]. destruct (E5 u k Hu) as [-> ->]. unfold irq_of. by rewrite (fr_vcpu _ _ _ _ Hf u Hne), (fr_irq _ _ _ _ Hf u k Hne).
Qed.

Lemma none_runs w : existsb (vcpu_runs w) (seqZ 0 (created_vcpus w)) = false -> forall v, v ∈ seqZ 0 (created_vcpus w) -> vcpu_runs w v = false.
Proof.
  intros E v Hv. destruct (vcpu_runs w v) eqn:Er; [|done]. assert (existsb (vcpu_runs w) (seqZ 0 (created_vcpus w)) = true); [|congruence].
  apply existsb_exists. exists v. by rewrite list_elem_of_In in Hv.
Qed.

Lemma suspend_inv me vm_id epoch initialized s w : inv w -> inv (arm64_vgicv3_suspend_vm me vm_id epoch initialized s w).2.
Proof.
  intros Hi. unfold arm64_vgicv3_suspend_vm. do 3 (case_match; [done|]). destruct (existsb _ _) eqn:E; [done|].
  destruct (suspend_vcpus_ok me _ (NoDup_seqZ 0 (created_vcpus w)) w Hi (none_runs w E)) as (w' & -> & Hi' & _). done.
Qed.
