(* ===== verification/VgicRun.v ===== *)
(** * Runs of the virtual interrupt controller

    The vGIC of a VM from its initialization on, under any sequence of injections,
    exits, register accesses, loads and saves of its vCPUs and steps of its guest.
    A register access is a step where [mmio_in_step] holds. *)
From S2P Require Import Prelude Bits Hooks GuestMem Vgic VgicInv VgicFlow VgicFlush VgicOps Its ItsTable VgicMmio VgicMmioInv VgicPm.

(** A VM that is set up: [regs] are the CPU interfaces, with [n] LRs each. *)
Definition vgic_start (g : arm64_vgicv3) (regs : Z -> ich_regs) (pcpus : Z -> Z) (created : Z) : vgic_world :=
  {| vgic := g; vctx := fun _ => init_ctx; cpuif := regs; running := fun _ => None; pcpu_of := pcpus; created_vcpus := created;
     cntv_line := fun _ => false; cntv_masked := fun _ => false |}.

Inductive vstep (w : vgic_world) : vgic_world -> Prop :=
| vs_inject me v k lvl : 0 <= k -> vstep w (vgic_inject_locked me v k lvl w).2
| vs_inject_irq me v k lvl : 0 <= k -> vstep w (arm64_vgicv3_inject_irq me v k lvl w).2
| vs_sgi offline me v value : vstep w (arm64_vgicv3_handle_sgi1r offline me v value w)
| vs_clear me v k : 0 <= k -> vstep w (arm64_vgicv3_clear_irq me v k w).2
| vs_deassert me v k : 0 <= k -> vstep w (arm64_vgicv3_deassert_irq me v k w).2
| vs_maintenance me : vstep w (arm64_vgicv3_maintenance_irq_handler me w)
| vs_requests me v b : running w me = Some v -> vstep w (arm64_process_vcpu_requests me v b w)
| vs_timer me v line : running w me = Some v -> vstep w (arm64_vgicv3_sync_current_timer_line me v line w)
| vs_refresh me k : vstep w (arm64_vgicv3_refresh_current_level_irq me k w)
| vs_wfi me v : running w me = Some v -> vstep w (arm64_vgicv3_complete_wfi_irqs me v w)
| vs_sysreg me v r read x : running w me = Some v -> vstep w (arm64_vgicv3_handle_cpuif_sysreg me v r read x w).2
| vs_query me v : vstep w (arm64_vgicv3_has_pending_irq me v w).2
| vs_load me v : pcpu_of w v = me -> v < ARM64_VGIC_MAX_VCPUS -> vstep w (arm64_vgicv3_load_vcpu me v w)
| vs_save me v : running w me = Some v -> vstep w (arm64_vgicv3_save_vcpu me v w)
| vs_reset v : vstep w (arm64_vgicv3_reset_vcpu_boot_state v w)
| vs_blocks me v : vstep w (arm64_vgicv3_pending_irq_blocks_reschedule me v w).2
| vs_mmio get_vm_config vm host cfg me addr size write value : mmio_in_step get_vm_config vm host cfg me addr size write value w ->
    vstep w (arm64_vgicv3_mmio_handler get_vm_config vm host cfg me addr size write value w).2
| vs_msi me did eid : vstep w (arm64_vgicv3_inject_msi me did eid w).2
| vs_suspend me vm_id epoch initialized s : vstep w (arm64_vgicv3_suspend_vm me vm_id epoch initialized s w).2
| vs_ack me v i : running w me = Some v -> vstep w (guest_lr me i lr_ack w)
| vs_end me v i : running w me = Some v -> vstep w (guest_lr me i lr_end w)
| vs_guest_regs me v r : running w me = Some v -> ich_lr r = ich_lr (cpuif w me) -> vstep w (set_cpuif me r w)
| vs_line lines : vstep w (w <| cntv_line := lines |>).

Inductive vreach (n : Z) : vgic_world -> Prop :=
| vr_start vtr its affinity g regs pcpus created : arm64_vgicv3_global_init vtr = Ret n -> arm64_vgicv3_init_vm n its affinity = Ret g ->
    (forall p, hw_shape n (ich_lr (regs p))) -> vreach n (vgic_start g regs pcpus created)
| vr_step w w' : vreach n w -> vstep w w' -> vreach n w'.

(** There is at least one LR, and at most as many as a context has room for. *)
Lemma global_init_range vtr : exists n, arm64_vgicv3_global_init vtr = Ret n /\ 1 <= n <= ARM64_VGIC_MAX_LRS.
Proof.
  unfold arm64_vgicv3_global_init. cbv zeta. change 0x1f with (Z.ones 5). rewrite Z.land_ones by lia. pose proof (Z.mod_pos_bound vtr (2 ^ 5) ltac:(lia)).
  assert (u32 (vtr mod 2 ^ 5 + 1) = vtr mod 2 ^ 5 + 1) as -> by (apply Z.mod_small; lia). unfold ARM64_VGIC_MAX_LRS.
  destruct (Z.ltb_spec 8 (vtr mod 2 ^ 5 + 1)); [exists 8; split; [done|lia]|]. exists (vtr mod 2 ^ 5 + 1). rewrite (proj2 (Z.eqb_neq _ 0)) by lia. split; [done|lia].
Qed.

#[local] Opaque bitmap_weight.
Lemma start_inv n its affinity g regs pcpus created : 1 <= n <= ARM64_VGIC_MAX_LRS -> arm64_vgicv3_init_vm n its affinity = Ret g ->
  (forall p, hw_shape n (ich_lr (regs p))) -> inv (vgic_start g regs pcpus created).
Proof.
  intros Hn Hg Hr. unfold arm64_vgicv3_init_vm in Hg. destruct (bitmap_weight affinity) as [c|m|m]; [|done..]. injection Hg as <-.
  split; [split|..].
  - change (0 <= n <= ARM64_VGIC_MAX_LRS). lia.
  - intros v. apply init_ctx_ok. change (0 <= n). lia.
  - exact Hr.
  - intros v k Hk. change (pending _) with false. unfold pend_bit. cbn [pending_bitmap lpi_pending_bitmap vgic vgic_start]. rewrite !Z.bits_0. by case_match.
  - intros v i. split; change (in_u32 0); done.
  - intros v k. split; [change (0 <= GIC_PRIORITY_DEFAULT < 256)|change (0 <= 0xffff < 65536)]; done.
  - done.
  - cbn [Vgic.its_enabled Vgic.its vgic vgic_start]. intros ->. apply init_tables_ok.
  - change (vcpu_count _) with (if Z.min c ARM64_VGIC_MAX_VCPUS =? 0 then 1 else Z.min c ARM64_VGIC_MAX_VCPUS). case_match; [done|apply Z.le_min_r].
Qed.

Lemma inject_inv me v k lvl w : inv w -> 0 <= k -> inv (vgic_inject_locked me v k lvl w).2.
Proof.
  intros Hi Hk. destruct (vgic_irq_desc w v k) eqn:Ed; [|unfold vgic_inject_locked; by rewrite Ed].
  destruct (inject_op me v k lvl w Hi Hk Ed) as [-> Hg]. by apply op_ok.
Qed.

Lemma sgi_inv offline me v value w : inv w -> inv (arm64_vgicv3_handle_sgi1r offline me v value w).
Proof.
  intros Hi. unfold arm64_vgicv3_handle_sgi1r. cbv zeta. generalize (seqZ 0 (created_vcpus w)). intros l. revert w Hi.
  induction l as [|t l IH]; intros w Hi; cbn [foldl]; [done|]. apply IH. case_match; [|done]. unfold arm64_vgicv3_inject_irq_to. case_match; [|done].
  apply inject_inv; [done|]. apply Z.land_nonneg. by right.
Qed.

Lemma current_inv me v g w : inv w -> running w me = Some v -> update_ok me v g -> inv (vgicv3_flush_vcpu me v true (g (vgicv3_sync_vcpu me v true w))).
Proof. intros Hi Hr Hg. rewrite op_current by done. by apply op_ok. Qed.

Lemma query_inv me v w : inv w -> inv (if vgicv3_vcpu_is_loaded w me v then vgicv3_sync_live_cpuif me v w else w).
Proof.
  intros Hi. pose proof (inv_wf w Hi) as Hw. destruct (vgicv3_vcpu_is_loaded w me v) eqn:El; [|done].
  destruct (sync_live_ok me me v w Hw) as (H1 & _ & Ec & Eg & _). cbv zeta in *. apply (inv_step me v w); [done..|]. intros _.
  unfold hw_ok. rewrite Ec, Eg. apply loaded_running in El. by apply (inv_running w Hi me v).
Qed.

Lemma calm_inv w w' : inv w -> calm w w' -> inv w'.
Proof.
  intros Hi H. destruct H as [Hw Ei En Ev Er Ep _ Ec Et]. split; [done| |rewrite Ei, Et; apply (inv_tables w Hi)|rewrite Ev; apply (inv_vcpus w Hi)]. intros p v. rewrite Er, Ep. unfold hw_ok. rewrite Ei, En, Ec. apply (inv_running w Hi).
Qed.

Lemma msi_inv me did eid w : inv w -> inv (arm64_vgicv3_its_inject_msi me did eid w).2.
Proof.
  intros Hi. unfold arm64_vgicv3_its_inject_msi, vits_inject_event_by_id_locked. destruct (vits_find_event _ did eid) as [[d e]|]; [|done].
  unfold vits_inject_event_locked. set (x := event _ d e). destruct (_ || _) eqn:E; [done|].
  apply orb_false_iff in E as [_ E]. apply negb_false_iff, lpi_range in E. cbv zeta. case_match; [done|]. apply inject_inv; [|lia].
  apply (calm_inv w); [done|]. apply (calm_change_irq _ _ (fun d => d <| target_vcpu := _ |>)); [apply config_target|apply (inv_wf w Hi)].
Qed.

Lemma vstep_inv w w' : inv w -> vstep w w' -> inv w'.
Proof.
  intros Hi Hs. pose proof (inv_wf w Hi) as Hw. destruct Hs as [me v k lvl Hk|me v k lvl Hk|offline me v value|me v k Hk|me v k Hk|me|me v b Hr|me v line Hr|me k|me v Hr|me v r read x Hr|me v|me v Hp Hv|me v Hr|v|me v|get_vm_config vm host cfg me addr size write value Hm|me did eid|me vm_id epoch initialized s|me v i Hr|me v i Hr|me v r Hr Er|lines].
  - by apply inject_inv.
  - unfold arm64_vgicv3_inject_irq. case_match; [by apply inject_inv|done].
  - by apply sgi_inv.
  - destruct (vgic_irq_desc w v k) eqn:Ed; [|unfold arm64_vgicv3_clear_irq; by rewrite Ed]. destruct (clear_op me v k w Hk Ed) as [-> Hg]. by apply op_ok.
  - destruct (vgic_irq_desc w v k) eqn:Ed; [|unfold arm64_vgicv3_deassert_irq; by rewrite Ed]. destruct (deassert_op me v k w Hk Ed) as [-> Hg]. by apply op_ok.
  - unfold arm64_vgicv3_maintenance_irq_handler. destruct (running w me) as [v|] eqn:Hr; [|done]. apply (current_inv me v (fun w => w)); [done..|apply update_id].
  - unfold arm64_process_vcpu_requests. case_match; [|done]. apply (current_inv me v (fun w => w)); [done..|apply update_id].
  - rewrite timer_line_op by done. apply op_ok; [done..|apply update_timer].
  - unfold arm64_vgicv3_refresh_current_level_irq. destruct (running w me) as [v|] eqn:Hr; [|done]. case_match; [|done].
    apply (current_inv me v (fun w => w)); [done..|apply update_id].
  - rewrite wfi_op by done. apply op_ok; [done..|]. intros w' Hw'. by apply complete_wfi_lrs_ok.
  - by apply sysreg_ok.
  - by apply query_inv.
  - by apply load_inv.
  - by apply save_inv.
  - destruct (reset_ok 0 v w Hw) as [H1 E1]. apply (inv_step 0 v w); [done..|]. intros Hr. destruct (running w 0) as [u|] eqn:Eu; [|done].
    apply (hw_ok_frame 0 v w); [apply H1|by rewrite E1|]. by apply (inv_running w Hi 0 u).
  - by apply query_inv.
  - by apply mmio_handler_inv.
  - unfold arm64_vgicv3_inject_msi. case_match; [by apply msi_inv|done].
  - by apply suspend_inv.
  - apply (guest_lr_inv me v); [done..|apply lr_step_ack].
  - apply (guest_lr_inv me v); [done..|apply lr_step_end].
  - apply (inv_step me v w); [done|split; [|apply frame_set_cpuif]; apply wf_set_cpuif; [done|rewrite Er; apply (wf_hw w Hw me)]|].
    intros _. unfold hw_ok. cbn. rewrite upd_eq, Er. by apply (inv_running w Hi me v).
  - destruct Hi as [[] Hr Ht Hn]. split; [by split|apply Hr|exact Ht|exact Hn].
Qed.

Lemma vreach_inv n w : vreach n w -> inv w.
Proof.
  induction 1 as [vtr its affinity g regs pcpus created H1 H2 H3|w w' _ IH Hs]; [|by apply (vstep_inv w)].
  destruct (global_init_range vtr) as (m & E & Hm). rewrite H1 in E. injection E as <-. by apply (start_inv n its affinity).
Qed.
