(* ===== verification/VgicSpec.v ===== *)
(** * What the virtual interrupt controller promises

    In every state a VM can reach: the bitmaps and the list registers are consistent, an
    injected interrupt is delivered or still owed, exits lose nothing, the timer line
    is level triggered, and the wake-up query is exact. *)
From S2P Require Import Prelude Bits SchedTypes Hooks GuestMem Vgic VgicInv VgicFlow VgicFlush VgicOps Its VgicMmio VgicMmioInv VgicQuery VgicPm VgicRun.

(** ** The timer line *)
Lemma owed_removed v k w : wf w -> 0 <= find_lr_for_virq (vctx w v) k ->
  lr_w (set_ctx v (remove_lr (find_lr_for_virq (vctx w v) k) (vctx w v)) w) v k = None.
Proof.
  intros Hw Hf. destruct (ctx_find _ _ _ (wf_ctx w Hw v) k Hf) as [Hlt Hs]. unfold lr_w. rewrite vctx_set_ctx.
  destruct (remove_lr_ok _ _ (proj2 (wf_count w Hw)) _ (wf_ctx w Hw v) (find_lr_for_virq (vctx w v) k) ltac:(lia)) as (_ & _ & ->).
  destruct (lr_of_valid _ _ _ (proj1 (wf_ctx w Hw v)) k _ Hs) as (H1 & H2 & _). by rewrite bool_decide_true.
Qed.

Lemma timer_update_spec me v line w : wf w -> vgicv3_vcpu_is_loaded w me v = true -> let w' := timer_update me v line w in let k := ARM64_GIC_PPI_VIRTUAL_TIMER in
  pending (irq_of w' v k) = line /\ level (irq_of w' v k) = true /\ (opt_pending (lr_w w' v k) = true -> line = true) /\ cntv_masked w' v = line.
Proof.
  intros Hw Hl. unfold timer_update. cbv zeta. set (k := ARM64_GIC_PPI_VIRTUAL_TIMER). set (wa := vgic_set_pending v k line (set_level v k true w)).
  destruct (update_comp me v (set_level v k true) (vgic_set_pending v k line) (update_set_level me v k true) (update_set_pending me v k line ltac:(done)) w Hw) as [[Ha Hfa] _]. fold wa in Ha, Hfa.
  assert (pending (irq_of wa v k) = line /\ level (irq_of wa v k) = true) as [E1 E2].
  { unfold irq_of, wa. rewrite irq_set_pending, irq_set_level, !Z.eqb_refl. done. }
  assert (vgicv3_vcpu_is_loaded wa me v = true) as Hla by (by rewrite (frame_loaded _ _ _ _ me v Hfa)). clearbody wa.
  set (wb := if _ <=? _ then _ else wa).
  assert (vgic wb = vgic wa /\ running wb = running wa /\ (opt_pending (lr_w wb v k) = true -> line = true)) as (Eg & Er & Ho).
  { unfold wb. destruct (Z.leb_spec 0 (find_lr_for_virq (vctx wa v) k)) as [Hf|Hf]; [|split_and!; [done..|unfold lr_w; by rewrite ctx_no_find]].
    destruct (line || _) eqn:E; (split_and!; [done..|]); [|by rewrite owed_removed].
    destruct (rewrite_ok me v k line _ wa Ha ltac:(done) Hf E) as (_ & _ & H & _). unfold irq_of in H. cbv zeta in H. by rewrite H. }
  clearbody wb. unfold arm64_vtimer_set_host_mask. assert (vgicv3_vcpu_is_loaded wb me v = true) as -> by (unfold vgicv3_vcpu_is_loaded in *; by rewrite Er).
  unfold irq_of in *. cbn. rewrite Eg, upd_eq. done.
Qed.

(** ** A VM with two vCPUs, of which vCPU 1 enables SGI 3, SGI 4 and the timer *)
Definition demo_cpuif : ich_regs :=
  {| ich_lr := replicate 8 0; ich_vmcr := 0; ich_hcr := 0; ich_ap0r0 := 0; ich_ap1r0 := 0; icc_sre := 0; icc_pmr := 0 |}.
Definition ret_of {A} (o : outcome A) : match o with Ret _ => A | _ => unit end := match o with Ret x => x | _ => tt end.
Definition demo_vgic (its_size : Z) : arm64_vgicv3 := ltac:(exact (ret_of (arm64_vgicv3_init_vm 4 its_size 3))).
Definition demo_start (its_size : Z) : vgic_world := vgic_start (demo_vgic its_size) (fun _ => demo_cpuif) (fun v => v) 2.
(** Both vCPUs are reset and loaded, vCPU 0 on pCPU 0, vCPU 1 on pCPU 1. *)
Definition demo_loaded (its_size : Z) : vgic_world :=
  arm64_vgicv3_load_vcpu 1 1 (arm64_vgicv3_load_vcpu 0 0 (arm64_vgicv3_reset_vcpu_boot_state 1 (arm64_vgicv3_reset_vcpu_boot_state 0 (demo_start its_size)))).
Definition demo_map : gic_config :=
  {| guest_gicd_base := 0x8000000; guest_gicd_size := 0x10000; guest_gicr_base := 0x80a0000; guest_gicr_size := 0x100000; guest_gicr_stride := 0x20000;
     guest_its_base := 0x8080000; guest_its_size := 0x20000; gic_iidr := 0; vmpidr0 := 0 |}.
Definition demo_ram (_ : Z) : arch_vm_config := {| guest_ram_start := 0x40000000; guest_ram_size := 0x10000; guest_ram_hpa := 0x1000000 |}.
Definition demo_stage2 : stage2_vm :=
  {| s2_vm_id := 0; root_stg2ptp := 0; cpu_affinity := 3; stage2_update_owner := 0; vm_creating := false; Hooks.created_vcpus := 2 |}.
(** A write of [value] to the register at [addr], by the vCPU that runs on [me]. *)
Definition demo_write (me addr value : Z) (w : vgic_world) : vgic_world :=
  (arm64_vgicv3_mmio_handler demo_ram demo_stage2 (fun _ => 0) demo_map me addr 4 true value w).2.
(** GICR_ISENABLER0 of vCPU 1. *)
Definition demo : vgic_world := demo_write 1 (0x80a0000 + 0x20000 + 0x10100) (Z.shiftl 1 3 + Z.shiftl 1 4 + Z.shiftl 1 27) (demo_loaded 0).

Lemma demo_loaded_reach its_size : its_size = 0 \/ its_size = 0x20000 -> vreach 4 (demo_loaded its_size).
Proof.
  intros H. unfold demo_loaded. do 2 (eapply vr_step; [|apply vs_load; [by destruct H as [-> | ->]|done]]). do 2 (eapply vr_step; [|apply vs_reset]).
  apply (vr_start 4 3 its_size 3 (demo_vgic its_size)); [done|reflexivity|intros p; split; [done|intros i _; apply (zero_lrs_free 8)]].
Qed.

Lemma demo_reach : vreach 4 demo.
Proof.
  unfold demo, demo_write. eapply vr_step; [apply demo_loaded_reach; by left|]. apply vs_mmio. intros v Hr.
  assert (running (demo_loaded 0) 1 = Some 1) as E by reflexivity. rewrite E in Hr. injection Hr as <-. left. vm_compute. reflexivity.
Qed.

(** ** The invariant *)


(** ** Injection *)


(** ** Exits *)
Lemma exit_lossless w me v : inv w -> running w me = Some v -> let w' := op me v true (fun w => w) w in
  delivered me v w' /\ forall j, not_timer j -> undisturbed w me v true j -> owed w' v j = pending (irq_of w v j) || opt_pending (hw_lr w me j).
Proof.
  intros Hi Hr. split; [apply op_delivered; [done..|apply update_id|by apply loaded_running]|]. intros j Ht Hu.
  by apply (op_owed me v true (fun w => w) w Hi (fun _ => Hr) (update_id me v) j); [left|..].
Qed.


(** SGI 3 was sent to vCPU 1 by vCPU 0; the request is not processed yet. *)
Definition demo_sgi : vgic_world := (arm64_vgicv3_inject_irq_to 0 1 3 false demo).2.
Lemma demo_sgi_reach : vreach 4 demo_sgi.
Proof. eapply vr_step; [apply demo_reach|]. apply (vs_inject demo 0 1 3 false). lia. Qed.

(** C13: Once the line of the virtual timer of the current vCPU is propagated, the timer
    interrupt is pending, is owed to the guest and has its host interrupt masked exactly
    if the line is high, and what may be delivered is delivered. *)
Theorem vgic_timer_line_exact n w me v line : vreach n w -> running w me = Some v ->
  let w' := arm64_vgicv3_sync_current_timer_line me v line w in let k := ARM64_GIC_PPI_VIRTUAL_TIMER in
  pending (irq_of w' v k) = line /\ owed w' v k = line /\ cntv_masked w' v = line /\ delivered me v w' /\
  (opt_pending (hw_lr w' me k) = true -> line = true).
Proof.
  intros Hv Hr. pose proof (vreach_inv n w Hv) as Hi. cbv zeta. set (k := ARM64_GIC_PPI_VIRTUAL_TIMER). rewrite (timer_line_op me v line w Hi Hr).
  assert (vgicv3_vcpu_is_loaded w me v = true) as Hl by (by apply loaded_running).
  destruct (op_sync me v true w Hi (fun _ => Hr)) as [Hw1 Hf1]. pose proof (frame_loaded _ _ _ _ me v Hf1) as Hl1. rewrite Hl in Hl1.
  destruct (timer_update_spec me v line _ Hw1 Hl1) as (H1 & H2 & H3 & H4).
  destruct (op_flush me v true (timer_update me v line) w Hi (fun _ => Hr) (update_timer me v line) Hl) as (_ & Hk & Hm & _).
  pose proof (op_delivered me v true (timer_update me v line) w Hi (fun _ => Hr) (update_timer me v line) Hl) as Hd.
  rewrite <- (op_current me v (timer_update me v line) w Hi Hr (update_timer me v line)) in *. fold k in H1, H2, H3.
  set (w2 := timer_update me v line _) in *. set (w' := vgicv3_flush_vcpu me v true w2) in *. destruct (Hk k) as (_ & Eo & _ & _ & Ep).
  assert (owed w' v k = line) as Ho by (rewrite Eo; unfold owed; rewrite H1; destruct line; [done|]; destruct (opt_pending (lr_w w2 v k)); [by specialize (H3 eq_refl)|done]).
  split_and!; [by rewrite Ep|done|by rewrite Hm|done|]. rewrite (proj1 Hd). rewrite <- Ho. unfold owed. intros ->. apply orb_true_r.
Qed.
Lemma vgic_timer_line_exact_witness :
  let w' := arm64_vgicv3_sync_current_timer_line 1 1 true demo in let k := ARM64_GIC_PPI_VIRTUAL_TIMER in owed w' 1 k = true /\ cntv_masked w' 1 = true /\ opt_pending (hw_lr w' 1 k) = true.
Proof.
  destruct (vgic_timer_line_exact 4 demo 1 1 true demo_reach ltac:(vm_compute; reflexivity)) as (_ & H1 & H2 & _).
  split; [exact H1|]. split; [exact H2|]. vm_compute. reflexivity.
Defined.

(** ** The wake-up query *)

(** C14: The query that decides whether a vCPU may sleep answers yes exactly if one of
    its list registers is pending, or some interrupt is pending and may be delivered,
    counting one that mirrors a device line only while it has no list register.  For a
    vCPU that is loaded the group enable of its live interface decides. *)
Theorem vgic_has_pending_exact n w me v : vreach n w -> let r := arm64_vgicv3_has_pending_irq me v w in
  (r.1 = true <-> (exists k, opt_pending (lr_w w v k) = true) \/ exists k, wakes r.2 v k) /\
  vgic r.2 = vgic w /\ cpuif r.2 = cpuif w /\ (forall k, lr_w r.2 v k = lr_w w v k) /\
  vmcr (vctx r.2 v) = (if vgicv3_vcpu_is_loaded w me v then ich_vmcr (cpuif w me) else vmcr (vctx w v)).
Proof.
  intros Hv. pose proof (inv_wf w (vreach_inv n w Hv)) as Hw. cbv zeta. unfold arm64_vgicv3_has_pending_irq. cbn [fst snd].
  set (w' := if vgicv3_vcpu_is_loaded w me v then _ else w).
  assert (wf w' /\ vgic w' = vgic w /\ cpuif w' = cpuif w /\ (forall k, lr_w w' v k = lr_w w v k) /\
    vmcr (vctx w' v) = (if vgicv3_vcpu_is_loaded w me v then ich_vmcr (cpuif w me) else vmcr (vctx w v))) as (Hw' & Eg & Ec & El & Em).
  { unfold w'. destruct (vgicv3_vcpu_is_loaded w me v); [|done]. destruct (sync_live_ok me me v w Hw) as ([H1 _] & H2 & H3 & H4 & _ & _ & _ & H5).
    split_and!; try done. intros k. apply (H2 k). }
  clearbody w'. split_and!; try done. rewrite orb_true_iff, lr_any_pending_spec, scan_wakes by done. by setoid_rewrite El.
Qed.
Lemma vgic_has_pending_exact_witness : (arm64_vgicv3_has_pending_irq 0 1 demo_sgi).1 = true.
Proof.
  destruct (vgic_has_pending_exact 4 demo_sgi 0 1 demo_sgi_reach) as (H & _). apply H. right. exists 3.
  split; [left; unfold ARM64_VGIC_IRQ_NUM; lia|]. split; [vm_compute; reflexivity|]. split; [vm_compute; reflexivity|]. right. left. vm_compute. reflexivity.
Defined.

(** ** Suspend *)
Lemma capture_irqs_keeps g v l s : let s' := foldl (fun s k => capture_irq (irq g v k) s) s l in suspend_epoch s' = suspend_epoch s.
Proof. revert s. induction l as [|k l IH]; intros s; cbn [foldl]; [done|]. cbv zeta in *. by rewrite IH. Qed.
Lemma capture_keeps w s : suspend_epoch (vgicv3_capture_pm_summary w s) = suspend_epoch s.
Proof.
  unfold vgicv3_capture_pm_summary. generalize (seqZ 0 (created_vcpus w)). intros l.
  transitivity (suspend_epoch (s <| pending_irqs := 0 |> <| active_irqs := 0 |> <| priority_checksum := 0 |> <| cpuif_checksum := 0 |>)); [|done].
  generalize (s <| pending_irqs := 0 |> <| active_irqs := 0 |> <| priority_checksum := 0 |> <| cpuif_checksum := 0 |>). clear s. induction l as [|v l IH]; intros s; cbn [foldl]; [done|].
  rewrite IH. unfold capture_vcpu. cbv zeta. destruct (its_enabled (vgic w)); by rewrite !capture_irqs_keeps.
Qed.


(** SGI 3 is pending for vCPU 1, and no vCPU runs. *)
Definition demo_idle : vgic_world := (vgic_inject_locked 0 1 3 false (arm64_vgicv3_reset_vcpu_boot_state 1 (demo_start 0))).2.
Lemma demo_idle_reach : vreach 4 demo_idle.
Proof.
  eapply vr_step; [eapply vr_step; [|apply vs_reset]|apply (vs_inject _ 0 1 3 false); lia].
  apply (vr_start 4 3 0 3 (demo_vgic 0)); [done|reflexivity|intros p; split; [done|intros i _; apply (zero_lrs_free 8)]].
Qed.
Definition pm_none : arm64_vgicv3_pm_state :=
  {| suspend_epoch := 0; priority_checksum := 0; cpuif_checksum := 0; pending_irqs := 0; active_irqs := 0; pm_valid := false |}.

(** ** Widths *)

