(* ===== verification/ItsSpec.v ===== *)
(** * What the interrupt translation service promises

    Commands act on the translation tables as on maps, a message raises exactly the
    interrupt its event is mapped to, and the command queue is worked off. *)
From S2P Require Import Prelude Bits Hooks GuestMem Vgic VgicInv VgicFlow VgicFlush VgicOps Its ItsTable VgicMmio VgicMmioInv VgicQuery VgicRun VgicSpec.

(** ** Commands *)
Definition has_room (t : arm64_vits) : bool := existsb (fun d => negb (device_valid (device t d))) (seqZ 0 ARM64_VGIC_ITS_DEVICE_NUM).

Section Refine.
  Context (get_vm_config : Z -> arch_vm_config) (vm : stage2_vm) (host : bytes) (me : Z) (w : vgic_world) (Hi : inv w) (Hits : its_enabled (vgic w) = true).
Let Hw : wf w := inv_wf w Hi.
Let t : arm64_vits := its (vgic w).
Let Hok : tables_ok t := inv_tables w Hi Hits.

Lemma maps_calm w' : calm w w' -> maps_of (its (vgic w')) ≡ maps_of t.
Proof. intros H. by rewrite (ca_tables _ _ H). Qed.

Lemma mapd_maps did size itt valid : 0 <= size ->
  maps_of (cmd_mapd did size itt valid t).2 ≡
  (if valid && negb (has_room t) && bool_decide (m_dev (maps_of t) did = None) then maps_of t else spec_mapd did itt (table_size size) valid (maps_of t)).
Proof.
  intros Hs. pose proof (mapd_refines t did size itt valid Hok Hs) as H. destruct (cmd_mapd did size itt valid t) as [b t'] eqn:E. cbn [snd]. destruct H as [_ H]. destruct b.
  - destruct (valid && negb (has_room t) && _) eqn:Ec; [|by destruct H as (H1 & H2 & H3)]. exfalso.
    rewrite !andb_true_iff, negb_true_iff, bool_decide_eq_true in Ec. destruct Ec as [[-> Er] En]. cbn in En. unfold cmd_mapd in E. cbn [negb] in E.
    pose proof (dev_lookup t did) as Hl. destruct (vits_find_device t did) as [d|]; [destruct Hl; congruence|].
    pose proof (alloc_device_spec t did) as Ha. destruct (vits_alloc_device t did) as [[d t1]|]; [|done]. destruct Ha as (Hd & Hv & _).
    assert (has_room t = true) as Hroom; [|congruence]. apply existsb_exists. exists d. rewrite Hv. split; [|done]. apply list_elem_of_In, elem_of_seqZ. unfold device_slot in Hd. lia.
  - destruct H as (-> & -> & En & Hall). cbn in En |- *. rewrite bool_decide_true by done. destruct (has_room t) eqn:Er; [|done]. exfalso.
    apply existsb_exists in Er as (d & Hd & Hv). apply list_elem_of_In, elem_of_seqZ in Hd. rewrite Hall in Hv; [done|]. unfold device_slot. lia.
Qed.

Lemma mapc_maps cid target valid : 0 <= cid -> maps_of (cmd_mapc cid target valid (vgic w) t).2 ≡
  (if cid <? ARM64_VGIC_ITS_COLLECTION_NUM then spec_mapc cid (if valid then Some (if target <? vcpu_count (vgic w) then target else 0) else None) (maps_of t) else maps_of t).
Proof.
  intros Hc. pose proof (mapc_refines t Hok cid target valid (vgic w)) as H. destruct (cmd_mapc cid target valid (vgic w) t) as [b t']. destruct H as (Hb & _ & H1 & H2 & H3). cbn [snd].
  destruct (Z.ltb_spec cid ARM64_VGIC_ITS_COLLECTION_NUM).
  - rewrite (proj2 Hb) in H3 by lia. split_and!; cbn [m_dev m_ev m_coll maps_of spec_event spec_mapc]; [by rewrite H1|done|]. intros c. rewrite H3. done.
  - destruct b; [lia|]. split_and!; cbn [m_dev m_ev m_coll maps_of spec_event spec_mapc]; [by rewrite H1|done..].
Qed.

Lemma mapti_maps did eid lpi cid : 0 <= eid -> maps_of (its (vgic (cmd_mapti get_vm_config vm host did eid lpi cid w).2)) ≡ spec_mapti did eid lpi cid (maps_of t).
Proof.
  intros He. unfold cmd_mapti, spec_mapti. pose proof (mapti_refines t Hok did eid lpi cid He) as H. fold t. cbn [m_dev m_coll maps_of].
  assert (mapti_allowed t did eid lpi cid <-> exists itt n v, dev_map t did = Some (itt, n) /\ coll_map t cid = Some v /\ (eid <? n) && vgic_irq_is_lpi lpi = true) as Ha.
  { unfold mapti_allowed. split.
    - intros ((itt & n & E & Hn) & Hl & Hc). destruct (coll_map t cid) as [v|]; [|done]. exists itt, n, v. rewrite Hl. split_and!; [done..|lia].
    - intros (itt & n & v & E & Ec & Hb). apply andb_prop in Hb as [Hb Hl]. split; [exists itt, n; split; [done|lia]|]. rewrite Ec. done. }
  destruct (mapti_event did eid lpi cid t) as [[[d e] t']|].
  - destruct H as (Hall & Hok' & _ & _ & _ & H1 & H2 & H3). apply Ha in Hall as (itt & n & v & -> & -> & ->). cbn [snd].
    assert (wf (set_its t' w)) as Hw' by (destruct Hw; by split).
    rewrite (ca_tables _ _ (calm_update_event get_vm_config vm host (event t' d e) (set_its t' w) Hw')).
    change (its (vgic (set_its t' w))) with t'. split_and!; cbn [m_dev m_ev m_coll maps_of spec_event spec_mapc]; [by rewrite H1|done|by rewrite H2].
  - destruct (dev_map t did) as [[itt n]|] eqn:E1; [|done]. destruct (coll_map t cid) as [v|] eqn:E2; [|done]. destruct (_ && _) eqn:E3; [|done].
    destruct H. apply Ha. by exists itt, n, v.
Qed.

Lemma movi_maps did eid cid : maps_of (cmd_movi did eid cid t).2 ≡
  match m_ev (maps_of t) did eid, m_coll (maps_of t) cid with Some (lpi, _), Some _ => spec_event did eid (Some (lpi, cid)) (maps_of t) | _, _ => maps_of t end.
Proof.
  pose proof (movi_refines t Hok did eid cid) as H. destruct (cmd_movi did eid cid t) as [b t']. destruct H as (Hb & _ & H1 & H2 & H3). cbn [snd m_ev m_coll maps_of].
  destruct (ev_map t did eid) as [[lpi c]|] eqn:E1; [destruct (coll_map t cid) as [v|] eqn:E2|].
  - rewrite (proj2 Hb) in H3 by done. split_and!; cbn [m_dev m_ev m_coll maps_of spec_event spec_mapc]; [by rewrite H1|done|by rewrite H2].
  - destruct b; [by destruct (proj1 Hb eq_refl)|]. split_and!; cbn [m_dev m_ev m_coll maps_of spec_event spec_mapc]; [by rewrite H1|done|by rewrite H2].
  - destruct b; [by destruct (proj1 Hb eq_refl)|]. split_and!; cbn [m_dev m_ev m_coll maps_of spec_event spec_mapc]; [by rewrite H1|done|by rewrite H2].
Qed.

Lemma discard_maps did eid : maps_of (its (vgic (cmd_discard did eid w).2)) ≡ spec_event did eid None (maps_of t).
Proof.
  unfold cmd_discard. fold t. pose proof (find_event_spec t did eid) as Hs. destruct (vits_find_event t did eid) as [[d e]|] eqn:Ef.
  - cbn [snd]. set (w1 := vits_clear_event_state_locked (event t d e) w). assert (calm w w1) as H1.
    { unfold w1, vits_clear_event_state_locked. destruct (_ || _) eqn:E; [by apply calm_refl|]. apply orb_false_iff in E as [_ E]. apply negb_false_iff in E. cbv zeta.
      case_match; [by apply calm_clear_lpi|by apply calm_refl]. }
    rewrite (ca_tables _ _ H1). fold t. destruct (discard_refines t Hok did eid d e Hs) as (_ & E1 & E2 & E3). clearbody w1.
    change (maps_of (set_event d e ((event t d e) <| event_valid := false |>) t) ≡ spec_event did eid None (maps_of t)).
    split_and!; cbn [m_dev m_ev m_coll maps_of spec_event]; [by rewrite E1|done|by rewrite E2].
  - cbn [snd]. split_and!; [done| |done]. intros did' eid'. cbn. destruct (_ && _) eqn:E; [|done]. assert (did' = did /\ eid' = eid) as [-> ->] by lia.
    fold t. unfold ev_map. by rewrite Ef.
Qed.
End Refine.

Lemma inject_tables me v k lvl w : inv w -> 0 <= k -> its (vgic (vgic_inject_locked me v k lvl w).2) = its (vgic w).
Proof.
  intros Hi Hk. destruct (vgic_irq_desc w v k) eqn:Ed; [|unfold vgic_inject_locked; by rewrite Ed].
  destruct (inject_op me v k lvl w Hi Hk Ed) as [-> Hg]. apply (fr_tables me v), op_ok; done.
Qed.
Lemma retarget_calm v k w : inv w -> let w1 := set_irq v k ((irq (vgic w) v k) <| target_vcpu := v |>) w in calm w w1 /\ inv w1.
Proof.
  intros Hi w1. assert (calm w w1) as H1 by (apply (calm_change_irq _ _ (fun d => d <| target_vcpu := v |>)); [apply config_target|apply (inv_wf w Hi)]).
  split; [done|by apply (calm_inv w)].
Qed.
Lemma msi_tables me did eid w : inv w -> its (vgic (vits_inject_event_by_id_locked me did eid w).2) = its (vgic w).
Proof.
  intros Hi. unfold vits_inject_event_by_id_locked. destruct (vits_find_event _ did eid) as [[d e]|]; [|done].
  unfold vits_inject_event_locked. destruct (_ || _) eqn:E; [done|]. apply orb_false_iff in E as [_ E]. apply negb_false_iff, lpi_range in E. cbv zeta. case_match; [done|].
  set (v := vits_target_vcpu_id _ _). destruct (retarget_calm v (event_lpi (event (its (vgic w)) d e)) w Hi) as [H1 Hi1].
  rewrite inject_tables by (done || lia). apply (ca_tables _ _ H1).
Qed.

(** C10: A command, executed in any state a VM with an ITS can reach, changes the
    translation tables as the corresponding update of three maps: MAPD binds a device to
    an interrupt table and forgets its events unless the binding is the same, MAPC binds a
    collection to a vCPU, MAPTI and MAPI bind an event, whenever its device has such an event, its LPI
    exists and its collection is bound, so entries never run out; MOVI moves it, DISCARD
    forgets it, and every other command leaves the maps as they are.  Only a MAPD of a
    new device is refused for lack of room. *)
Theorem its_commands_refine n w get_vm_config vm host me cmd : vreach n w -> its_enabled (vgic w) = true ->
  maps_of (its (vgic (vits_execute_cmd get_vm_config vm host me cmd w).2)) ≡
  spec_command (vcpu_count (vgic w)) (has_room (its (vgic w))) cmd (maps_of (its (vgic w))).
Proof.
  intros Hv Hits. pose proof (vreach_inv n w Hv) as Hi. pose proof (inv_wf w Hi) as Hw. unfold vits_execute_cmd, spec_command. cbv zeta.
  set (did := u32 (Z.shiftr (cmd0 cmd) 32)). set (eid := u32 (cmd1 cmd)). assert (0 <= eid) as He by (apply Z.mod_pos_bound; lia).
  assert (0 <= Z.land (cmd2 cmd) 0xffff) as Hc by (by apply land_nonneg_r). assert (0 <= Z.land (cmd1 cmd) 0x1f) as Hs by (by apply land_nonneg_r).
  destruct (_ =? GITS_CMD_MAPD); [rewrite <- (mapd_maps w Hi Hits did) by done; by destruct (cmd_mapd _ _ _ _ _)|].
  destruct (_ =? GITS_CMD_MAPC); [rewrite <- (mapc_maps w Hi Hits) by done; by destruct (cmd_mapc _ _ _ _ _)|].
  destruct (_ =? GITS_CMD_MAPI); [by apply mapti_maps|]. destruct (_ =? GITS_CMD_MAPTI); [by apply mapti_maps|].
  destruct (_ =? GITS_CMD_MOVI); [rewrite <- (movi_maps w Hi Hits did eid); by destruct (cmd_movi _ _ _ _)|].
  destruct (_ =? GITS_CMD_DISCARD); [by apply discard_maps|].
  destruct (_ =? GITS_CMD_INT).
  { pose proof (msi_tables me did eid w Hi) as E. destruct (vits_inject_event_by_id_locked me did eid w). cbn [snd] in *. by rewrite E. }
  destruct (_ =? GITS_CMD_CLEAR); [apply maps_calm, calm_clear, Hw|].
  destruct (_ =? GITS_CMD_INV); [unfold cmd_inv; destruct (vits_find_event _ _ _) as [[d e]|]; [apply maps_calm, calm_update_event, Hw|done]|].
  destruct (_ =? GITS_CMD_INVALL); [|by case_match]. unfold cmd_invall. destruct (vits_find_collection _ _); [|done]. cbv zeta. case_match; [apply maps_calm, calm_invall, Hw|done].
Qed.

(** ** Messages *)
Lemma target_spec w cid : inv w -> its_enabled (vgic w) = true ->
  match coll_map (its (vgic w)) cid with
  | Some v => vits_target_vcpu_id (vgic w) cid = vits_valid_target_vcpu (vgic w) v
  | None => vcpu_count (vgic w) <= vits_target_vcpu_id (vgic w) cid end.
Proof.
  intros Hi Hits. unfold vits_target_vcpu_id, coll_map. pose proof (inv_vcpus w Hi). destruct (vits_find_collection _ _) as [i|]; cbn; [destruct (collection_valid _); [done|]|];
    unfold VGIC_ITS_INVALID_VCPU_ID, ARM64_VGIC_MAX_VCPUS in *; lia.
Qed.

(** C11: A message with a device and an event id is translated by the tables: without an ITS, or unless the
    event is mapped to an LPI that the VM has, it is refused; unless its collection is bound to a
    vCPU, there is no device; and otherwise the LPI becomes owed, as an edge, to exactly
    the vCPU its collection is bound to, or vCPU 0 if there is no such vCPU.  Nothing else
    changes for other vCPUs, and the tables stay the same. *)
Theorem its_msi_translates n w me did eid : vreach n w -> 0 < vcpu_count (vgic w) ->
  let r := arm64_vgicv3_inject_msi me did eid w in
  if negb (its_enabled (vgic w)) then r = (- EINVAL, w) else
  match ev_map (its (vgic w)) did eid with
  | None => r = (- EINVAL, w)
  | Some (lpi, cid) =>
      if vgic_irq_is_lpi lpi then
        match coll_map (its (vgic w)) cid with
        | None => r = (- ENODEV, w)
        | Some v => let t := vits_valid_target_vcpu (vgic w) v in
            r.1 = 0 /\ owed r.2 t lpi = true /\ level (irq_of r.2 t lpi) = false /\ its (vgic r.2) = its (vgic w) /\
            forall u k, u <> t -> vctx r.2 u = vctx w u /\ irq_of r.2 u k = irq_of w u k
        end
      else r = (- EINVAL, w)
  end.
Proof.
  intros Hv Hn. pose proof (vreach_inv n w Hv) as Hi. cbv zeta. unfold arm64_vgicv3_inject_msi. destruct (its_enabled (vgic w)) eqn:Hits; cbn [negb]; [|done]. pose proof (msi_tables me did eid w Hi) as Et. unfold arm64_vgicv3_its_inject_msi.
  unfold ev_map, vits_inject_event_by_id_locked in *. pose proof (find_event_spec (its (vgic w)) did eid) as Hs.
  destruct (vits_find_event (its (vgic w)) did eid) as [[d e]|]; cbn [mbind option_bind]; [|done]. set (x := event (its (vgic w)) d e) in *.
  unfold vits_inject_event_locked in *. destruct Hs as (_ & _ & Hva & _). fold x in Hva. rewrite Hva in *. cbn [negb orb] in *.
  destruct (vgic_irq_is_lpi (event_lpi x)) eqn:El; cbn [negb] in *; [|done]. cbv zeta in *. pose proof (target_spec w (event_collection x) Hi Hits) as Ht.
  destruct (coll_map (its (vgic w)) (event_collection x)) as [v|]; [|by rewrite (proj2 (Z.leb_le _ _) Ht)]. rewrite Ht in *. set (t := vits_valid_target_vcpu (vgic w) v) in *.
  assert (t < vcpu_count (vgic w)) as Hlt by (unfold t, vits_valid_target_vcpu; destruct (Z.ltb_spec v (vcpu_count (vgic w))); lia). rewrite (proj2 (Z.leb_gt _ _) Hlt) in *.
  destruct (retarget_calm t (event_lpi x) w Hi) as [H1 Hi1]. cbv zeta in *. set (w1 := set_irq _ _ _ w) in *.
  pose proof (lpi_range _ El) as Hk. assert (vgic_irq_desc w1 t (event_lpi x) = true) as Hd.
  { unfold vgic_irq_desc. rewrite (ca_its _ _ H1), Hits, El. pose proof (inv_vcpus w Hi). rewrite orb_true_r, andb_true_r. apply Z.ltb_lt. lia. }
  destruct (inject_op me t (event_lpi x) false w1 Hi1 ltac:(lia) Hd) as [E Hg]. rewrite E in *. cbn [fst snd] in *.
  destruct (op_keeps_owed me t false _ w1 Hi1 ltac:(done) Hg (event_lpi x)) as [Eo Eq]. destruct (op_ok me t false _ w1 Hi1 ltac:(done) Hg) as [[_ Hf] _].
  split_and!; [done|rewrite Eo|rewrite Eq|done|].
  - unfold owed, irq_of. rewrite irq_set_pending, !Z.eqb_refl. done.
  - unfold irq_of. rewrite irq_set_pending, irq_set_level, !Z.eqb_refl. done.
  - intros u k Hu. rewrite (fr_vcpu _ _ _ _ Hf u Hu). split; [done|]. unfold irq_of. rewrite (fr_irq _ _ _ _ Hf u k Hu). cbn. by rewrite upd2_apply, (proj2 (Z.eqb_neq u t) Hu).
Qed.

(** ** The command queue *)
Section Queue.
  Context (get_vm_config : Z -> arch_vm_config) (vm : stage2_vm) (host : bytes) (me base : Z).

(** The effect of the command at an offset of the queue. *)
Definition run_cmd (w : vgic_world) (offset : Z) : vgic_world :=
  match read_cmd get_vm_config vm host (base + offset) with Some cmd => (vits_execute_cmd get_vm_config vm host me cmd w).2 | None => w end.
(** The offsets of [n] commands, from entry [r] on in a queue with [s] entries. *)
Definition queue_slots (s r n : Z) : list Z := (fun i => GITS_CMD_SIZE * ((r + i) mod s)) <$> seqZ 0 n.

Lemma queue_slots_cons s r n : 0 <= r < s -> 0 <= n -> queue_slots s r (1 + n) = GITS_CMD_SIZE * r :: queue_slots s ((r + 1) mod s) n.
Proof.
  intros Hr Hn. unfold queue_slots. rewrite Z.add_comm, seqZ_cons by lia. cbn. f_equal; [by rewrite Z.add_0_r, Z.mod_small by lia|].
  replace (Z.pred (n + 1)) with n by lia. change (Z.succ 0) with (1 + 0). rewrite <- (fmap_add_seqZ 1 0 n), <- list_fmap_compose. apply list_fmap_ext. intros i j _. cbn [compose]. f_equal.
  rewrite Zplus_mod_idemp_l. f_equal. lia.
Qed.

Lemma queue_next s r x : 0 <= r < s -> 0 <= x < s -> r <> x -> (x - r) mod s = 1 + (x - (r + 1) mod s) mod s.
Proof.
  intros Hr Hx Hne. rewrite Zminus_mod_idemp_r. destruct (Z.lt_ge_cases r x) as [H|H].
  - rewrite !Z.mod_small by lia. lia.
  - replace (x - r) with (x - r + s + -1 * s) by lia. replace (x - (r + 1)) with (x - (r + 1) + s + -1 * s) by lia. rewrite !Z_mod_plus_full, !Z.mod_small by lia. lia.
Qed.

Lemma cmd_loop_spec s x budget : 0 <= x < s -> (forall i, 0 <= i < s -> read_cmd get_vm_config vm host (base + GITS_CMD_SIZE * i) <> None) ->
  forall r flush w, 0 <= r < s -> let k := Z.min ((x - r) mod s) (Z.of_nat budget) in
  cmd_loop get_vm_config vm host budget me base (GITS_CMD_SIZE * s) (GITS_CMD_SIZE * r) (GITS_CMD_SIZE * x) flush w =
    (GITS_CMD_SIZE * ((r + k) mod s), flush || (0 <? k), foldl run_cmd w (queue_slots s r k)).
Proof.
  intros Hx Hread. induction budget as [|budget IH]; intros r flush w Hr; cbv zeta; pose proof (Z.mod_pos_bound (x - r) s ltac:(lia)) as Hm; cbn [cmd_loop].
  { rewrite Z.min_r by lia. cbn. by rewrite orb_false_r, Z.add_0_r, Z.mod_small by lia. }
  unfold GITS_CMD_SIZE at 1 2. destruct (Z.eqb_spec (32 * r) (32 * x)) as [E|Hne].
  { assert (r = x) as -> by lia. rewrite Z.sub_diag, Z.mod_0_l by lia. cbn. by rewrite orb_false_r, Z.add_0_r, Z.mod_small by lia. }
  assert (r <> x) as Hne' by (intros ->; done). pose proof (queue_next s r x Hr Hx Hne') as En.
  destruct (read_cmd _ _ _ (base + _ * r)) as [cmd|] eqn:Ec; [|by destruct (Hread r Hr)]. cbv zeta.
  assert ((if GITS_CMD_SIZE * s <=? GITS_CMD_SIZE * r + GITS_CMD_SIZE then 0 else GITS_CMD_SIZE * r + GITS_CMD_SIZE) = GITS_CMD_SIZE * ((r + 1) mod s)) as ->.
  { unfold GITS_CMD_SIZE. destruct (Z.leb_spec (32 * s) (32 * r + 32)); [assert (r + 1 = s) as -> by lia; rewrite Z.mod_same by lia; lia|rewrite Z.mod_small by lia; lia]. }
  pose proof (Z.mod_pos_bound (r + 1) s ltac:(lia)) as Hr'. pose proof (Z.mod_pos_bound (x - (r + 1) mod s) s ltac:(lia)) as Hm'.
  rewrite (IH ((r + 1) mod s) true _ Hr'). cbv zeta. set (k' := Z.min ((x - (r + 1) mod s) mod s) (Z.of_nat budget)).
  replace (Z.min ((x - r) mod s) (Z.of_nat (S budget))) with (1 + k') by lia. assert (0 <= k') by lia. rewrite queue_slots_cons by lia. cbn [foldl].
  replace (run_cmd w (GITS_CMD_SIZE * r)) with (vits_execute_cmd get_vm_config vm host me cmd w).2 by (unfold run_cmd; by rewrite Ec).
  replace (0 <? 1 + k') with true by lia. rewrite orb_true_r, Zplus_mod_idemp_l. by replace (r + 1 + k') with (r + (1 + k')) by lia.
Qed.
End Queue.

Lemma aligned_mul x : 0 <= x -> vits_offset_aligned x = true -> x = GITS_CMD_SIZE * (x / GITS_CMD_SIZE).
Proof.
  intros Hx H. unfold vits_offset_aligned in H. apply Z.eqb_eq in H. change (GITS_CMD_SIZE - 1) with (Z.ones 5) in H. rewrite Z.land_ones in H by lia.
  change (2 ^ 5) with GITS_CMD_SIZE in H. rewrite (Z.div_mod x GITS_CMD_SIZE) at 1 by done. rewrite H. lia.
Qed.

(** C12: With the ITS and its queue enabled, and commands that can be read, the queue is
    worked off from the reader on in its cyclic order, up to the writer but never more
    than 1024 commands at a time; the reader then stands behind the last command that
    was executed, at the writer if it was at most 1024 commands away. *)
Theorem its_queue_drains get_vm_config vm host me w : let t := its (vgic w) in let base := vits_cmd_queue_base t in let size := vits_cmd_queue_size t in
  Z.land (gits_ctlr t) GITS_CTLR_ENABLE <> 0 -> Z.land (cbaser t) GITS_CBASER_VALID <> 0 ->
  0 <= creadr t < size -> 0 <= cwriter t < size -> vits_offset_aligned (creadr t) = true -> vits_offset_aligned (cwriter t) = true ->
  (forall i, 0 <= i < size / GITS_CMD_SIZE -> read_cmd get_vm_config vm host (base + GITS_CMD_SIZE * i) <> None) ->
  let r := creadr t / GITS_CMD_SIZE in let s := size / GITS_CMD_SIZE in
  let n := Z.min ((cwriter t / GITS_CMD_SIZE - r) mod s) 1024 in
  let w' := (vits_process_command_queue get_vm_config vm host me w).2 in
  w' = set_creadr (GITS_CMD_SIZE * ((r + n) mod s)) (foldl (run_cmd get_vm_config vm host me base) w (queue_slots s r n)) /\
  ((cwriter t / GITS_CMD_SIZE - r) mod s <= 1024 -> creadr (its (vgic w')) = cwriter t).
Proof.
  cbv zeta. set (t := its (vgic w)). intros He Hv Hr Hx Ar Ax Hread. set (size := vits_cmd_queue_size t) in *. set (s := size / GITS_CMD_SIZE) in *.
  assert (size = GITS_CMD_SIZE * s) as Es.
  { unfold s, size, vits_cmd_queue_size, GITS_CMD_SIZE. replace ((Z.land (cbaser t) GITS_CBASER_SIZE_MASK + 1) * 4096) with ((Z.land (cbaser t) GITS_CBASER_SIZE_MASK + 1) * 128 * 32) by lia.
    rewrite Z.div_mul; lia. }
  set (r := creadr t / GITS_CMD_SIZE). set (x := cwriter t / GITS_CMD_SIZE). pose proof (aligned_mul _ (proj1 Hr) Ar) as Er. pose proof (aligned_mul _ (proj1 Hx) Ax) as Ex. fold r in Er. fold x in Ex.
  assert (0 <= r < s /\ 0 <= x < s) as [Hrs Hxs] by (unfold GITS_CMD_SIZE in *; lia).
  pose proof (cmd_loop_spec get_vm_config vm host me (vits_cmd_queue_base t) s x GITS_CMD_QUEUE_BUDGET Hxs Hread r false w Hrs) as Hl. cbv zeta in Hl. rewrite <- Es, <- Er, <- Ex in Hl.
  change (Z.of_nat GITS_CMD_QUEUE_BUDGET) with 1024 in Hl. set (n := Z.min ((x - r) mod s) 1024) in *.
  assert ((vits_process_command_queue get_vm_config vm host me w).2 =
    set_creadr (GITS_CMD_SIZE * ((r + n) mod s)) (foldl (run_cmd get_vm_config vm host me (vits_cmd_queue_base t)) w (queue_slots s r n))) as Eq.
  { unfold vits_process_command_queue. fold t size. cbv zeta. rewrite (proj2 (Z.eqb_neq _ _) He), (proj2 (Z.eqb_neq _ _) Hv), Ar, Ax.
    replace (size <? GITS_CMD_SIZE) with false by (unfold GITS_CMD_SIZE in *; lia). replace (size <=? creadr t) with false by lia. replace (size <=? cwriter t) with false by lia.
    cbn [orb negb]. by rewrite Hl. }
  split; [done|]. intros Hn. rewrite Eq. change (creadr _) with (GITS_CMD_SIZE * ((r + n) mod s)). rewrite Ex. f_equal.
  unfold n. rewrite Z.min_l by done. rewrite Zplus_mod_idemp_r. replace (r + (x - r)) with x by lia. by apply Z.mod_small.
Qed.

(** ** A guest that maps an event

    MAPD of device 5 with 32 events, MAPTI of its event 2 to LPI 8199 in collection 1, in a queue at
    0x40000000; the LPI is enabled in the table at 0x40001000. *)
Definition demo_words : list Z :=
  [0x08 + Z.shiftl 5 32; 4; Z.shiftl 1 63 + 0x40002000; 0; 0x0a + Z.shiftl 5 32; 2 + Z.shiftl 8199 32; 1; 0].
Definition demo_bytes (a : Z) : Z :=
  let offset := a - 0x1000000 in
  if offset <? 0x1000 then Z.land (Z.shiftr (nth (Z.to_nat (offset / 8)) demo_words 0) (8 * (offset mod 8))) 0xff else 0xa1.
Definition its_write (addr value : Z) (w : vgic_world) : vgic_world :=
  (arm64_vgicv3_mmio_handler demo_ram demo_stage2 demo_bytes demo_map 1 addr 4 true value w).2.
(** GICR_PROPBASER and GICR_CTLR of vCPU 1; GITS_CBASER, GITS_CTLR and, last, GITS_CWRITER. *)
Definition demo_queue : vgic_world :=
  its_write 0x8080000 1 (its_write 0x8080084 0x80000000 (its_write 0x8080080 0x40000000
    (its_write 0x80c0000 1 (its_write 0x80c0070 0x40001000 (demo_loaded 0x20000))))).
Definition demo_its : vgic_world := its_write 0x8080088 64 demo_queue.

Lemma its_write_reach addr value w : vreach 4 w -> running w 1 = Some 1 -> ich_lr (cpuif (vgicv3_sync_vcpu 1 1 true w) 1) = ich_lr (cpuif w 1) -> vreach 4 (its_write addr value w).
Proof. intros Hr E1 E2. eapply vr_step; [exact Hr|]. apply vs_mmio. intros v E. rewrite E1 in E. injection E as <-. by left. Qed.
Lemma demo_queue_reach : vreach 4 demo_queue.
Proof. unfold demo_queue. repeat (apply its_write_reach; [|vm_compute; reflexivity..]). apply demo_loaded_reach. by right. Qed.
Lemma demo_its_reach : vreach 4 demo_its.
Proof. apply its_write_reach; [apply demo_queue_reach|vm_compute; reflexivity..]. Qed.

Lemma its_msi_translates_witness : let r := arm64_vgicv3_inject_msi 1 5 2 demo_its in r.1 = 0 /\ owed r.2 1 8199 = true.
Proof.
  pose proof (its_msi_translates 4 demo_its 1 5 2 demo_its_reach ltac:(vm_compute; reflexivity)) as H. cbv zeta in *.
  replace (negb (its_enabled (vgic demo_its))) with false in H by (vm_compute; reflexivity).
  replace (ev_map (its (vgic demo_its)) 5 2) with (Some (8199, 1)) in H by (vm_compute; reflexivity).
  replace (vgic_irq_is_lpi 8199) with true in H by reflexivity. replace (coll_map (its (vgic demo_its)) 1) with (Some 1) in H by (vm_compute; reflexivity).
  replace (vits_valid_target_vcpu (vgic demo_its) 1) with 1 in H by (vm_compute; reflexivity). destruct H as (H1 & H2 & _). split; [exact H1|exact H2].
Defined.

Lemma its_commands_refine_witness : let cmd := {| cmd0 := 0x08 + Z.shiftl 5 32; cmd1 := 4; cmd2 := Z.shiftl 1 63 + 0x40002000; cmd3 := 0 |} in
  m_dev (maps_of (its (vgic (vits_execute_cmd demo_ram demo_stage2 demo_bytes 1 cmd demo_queue).2))) 5 = Some (0x40002000, 32).
Proof.
  destruct (its_commands_refine 4 demo_queue demo_ram demo_stage2 demo_bytes 1
    {| cmd0 := 0x08 + Z.shiftl 5 32; cmd1 := 4; cmd2 := Z.shiftl 1 63 + 0x40002000; cmd3 := 0 |} demo_queue_reach ltac:(vm_compute; reflexivity)) as (H & _).
  cbv zeta. rewrite (H 5). vm_compute. reflexivity.
Defined.

(** The queue of the guest before the writer's move is seen. *)
Definition demo_written : vgic_world := set_its ((its (vgic demo_queue)) <| cwriter := 64 |>) demo_queue.
Lemma demo_readable i : 0 <= i < 128 -> read_cmd demo_ram demo_stage2 demo_bytes (0x40000000 + GITS_CMD_SIZE * i) <> None.
Proof.
  intros Hi. assert (forallb (fun i => match read_cmd demo_ram demo_stage2 demo_bytes (0x40000000 + GITS_CMD_SIZE * i) with Some _ => true | None => false end) (seqZ 0 128) = true) as H
    by (vm_compute; reflexivity).
  rewrite forallb_forall in H. specialize (H i). cbv beta in H. destruct (read_cmd _ _ _ _); [done|]. assert (false = true); [|done]. apply H, list_elem_of_In, elem_of_seqZ. lia.
Qed.
Lemma its_queue_drains_witness : creadr (its (vgic (vits_process_command_queue demo_ram demo_stage2 demo_bytes 1 demo_written).2)) = 64.
Proof.
  assert (vits_cmd_queue_base (its (vgic demo_written)) = 0x40000000 /\ vits_cmd_queue_size (its (vgic demo_written)) = 4096 /\ creadr (its (vgic demo_written)) = 0 /\
    cwriter (its (vgic demo_written)) = 64) as (E1 & E2 & E3 & E4) by (vm_compute; repeat split).
  destruct (its_queue_drains demo_ram demo_stage2 demo_bytes 1 demo_written) as [_ H]; rewrite ?E1, ?E2, ?E3, ?E4.
  - vm_compute. discriminate.
  - vm_compute. discriminate.
  - lia.
  - lia.
  - reflexivity.
  - reflexivity.
  - exact demo_readable.
  - rewrite E2, E3, E4 in H. apply H. vm_compute. discriminate.
Defined.
