(* ===== verification/VgicRegs.v ===== *)
(** * What register writes do to interrupts

    The enable registers read back what was written, and re-routing an SPI moves its
    state to the new vCPU. *)
From S2P Require Import Prelude Bits Hooks GuestMem Vgic VgicInv VgicFlow VgicFlush VgicOps Its ItsTable VgicMmio VgicMmioInv VgicQuery VgicRun VgicSpec.

Lemma foldl_same {A B} (f g : A -> B -> A) l : (forall a b, f a b = g a b) -> forall a, foldl f a l = foldl g a l.
Proof. intros H. induction l as [|b l IH]; intros a; cbn [foldl]; [done|]. by rewrite H. Qed.

(** ** Words of bits *)
Lemma fold_bits (P : Z -> bool) l : Forall (fun b => 0 <= b < 32) l -> forall a j, 0 <= j ->
  Z.testbit (foldl (fun val b => if P b then Z.lor val (BIT32 b) else val) a l) j = Z.testbit a j || (bool_decide (j ∈ l) && P j).
Proof.
  induction 1 as [|b l Hb _ IH]; intros a j Hj; cbn [foldl]; [by rewrite orb_false_r|]. rewrite IH by done.
  assert (Z.testbit (if P b then Z.lor a (BIT32 b) else a) j = Z.testbit a j || ((j =? b) && P b)) as ->.
  { destruct (P b); [by rewrite Z.lor_spec, BIT32_bits, andb_true_r by lia|by rewrite andb_false_r, orb_false_r]. }
  rewrite <- orb_assoc. f_equal. destruct (Z.eqb_spec j b) as [->|Hne].
  - rewrite (bool_decide_true (b ∈ b :: l)) by left. by destruct (P b), (bool_decide (b ∈ l)).
  - cbn [andb orb]. f_equal. apply bool_decide_ext. rewrite elem_of_cons. naive_solver.
Qed.

Lemma seq32_range : Forall (fun b => 0 <= b < 32) (seqZ 0 32).
Proof. apply Forall_forall. intros b Hb%elem_of_seqZ. lia. Qed.
Lemma in_seq32 j : bool_decide (j ∈ seqZ 0 32) = (0 <=? j) && (j <? 32).
Proof. case_bool_decide as H; rewrite elem_of_seqZ in H; lia. Qed.

Lemma read_bits_spec v base r w j : 0 <= j -> Z.testbit (vgic_read_irq_bits v base r w) j =
  (j <? 32) && match vgic_read_irq_bit_desc v (base + j) r w with Some t => irq_bit r (irq_of w t (base + j)) | None => false end.
Proof.
  intros Hj. unfold vgic_read_irq_bits.
  set (P := fun b => match vgic_read_irq_bit_desc v (base + b) r w with Some t => irq_bit r (irq_of w t (base + b)) | None => false end).
  transitivity (Z.testbit (foldl (fun val b => if P b then Z.lor val (BIT32 b) else val) 0 (seqZ 0 32)) j).
  - f_equal. apply foldl_same. intros val b. unfold P, irq_of. by destruct (vgic_read_irq_bit_desc v (base + b) r w).
  - rewrite fold_bits by (apply seq32_range || done). rewrite Z.bits_0, in_seq32. by rewrite (proj2 (Z.leb_le 0 j) Hj).
Qed.

(** ** Rows of descriptors *)
Lemma vgic_update_row u k w : vgic (vgic_update_irq_row_lr u k w) = vgic w.
Proof. unfold vgic_update_irq_row_lr, vgic_update_irq_lr. cbv zeta. by repeat case_match. Qed.
Lemma vgic_update_lr u k w : vgic (vgic_update_irq_lr u k w) = vgic w.
Proof. unfold vgic_update_irq_lr. cbv zeta. by repeat case_match. Qed.

(** The rows a write to [k] of vCPU [v] goes to. *)
Definition row_of (w : vgic_world) (v k t : Z) : bool :=
  if vgic_irq_is_spi k then (0 <=? t) && (t <? vcpu_count (vgic w)) else (t =? v) && vgic_irq_desc w v k.

Lemma rows_fold f k l : NoDup l -> forall w t j, let w' := foldl (fun w u => vgic_update_irq_row_lr u k (change_irq u k f w)) w l in
  irq_of w' t j = (if (j =? k) && bool_decide (t ∈ l) then f (irq_of w t k) else irq_of w t j) /\
  vcpu_count (vgic w') = vcpu_count (vgic w) /\ its_enabled (vgic w') = its_enabled (vgic w).
Proof.
  induction 1 as [|u l Hu _ IH]; intros w t j; cbv zeta; cbn [foldl]; [by rewrite andb_false_r|].
  destruct (IH (vgic_update_irq_row_lr u k (change_irq u k f w)) t j) as (-> & -> & ->). rewrite vgic_update_row. split; [|done].
  assert (forall i, irq_of (vgic_update_irq_row_lr u k (change_irq u k f w)) t i = if (t =? u) && (i =? k) then f (irq_of w t k) else irq_of w t i) as E.
  { intros i. unfold irq_of. rewrite vgic_update_row. cbn. rewrite upd2_apply. destruct (decide (t = u)) as [->|Hne]; [rewrite Z.eqb_refl; done|by rewrite (proj2 (Z.eqb_neq t u) Hne)]. }
  rewrite !E. destruct (Z.eqb_spec j k) as [->|]; cbn [andb]; [|by rewrite andb_false_r]. rewrite Z.eqb_refl, andb_true_r.
  destruct (decide (t = u)) as [->|Hne]; [rewrite Z.eqb_refl|rewrite (proj2 (Z.eqb_neq t u) Hne)].
  - rewrite (bool_decide_false (u ∈ l)), (bool_decide_true (u ∈ u :: l)); [done|left|done].
  - assert (bool_decide (t ∈ u :: l) = bool_decide (t ∈ l)) as -> by (apply bool_decide_ext; rewrite elem_of_cons; naive_solver). done.
Qed.

Lemma change_rows_irq v k f w t j : let w' := change_irq_rows v k f w in
  irq_of w' t j = (if (j =? k) && row_of w v k t then f (irq_of w t k) else irq_of w t j) /\
  vcpu_count (vgic w') = vcpu_count (vgic w) /\ its_enabled (vgic w') = its_enabled (vgic w).
Proof.
  cbv zeta. unfold change_irq_rows, row_of. destruct (vgic_irq_is_spi k).
  - destruct (rows_fold f k (seqZ 0 (vcpu_count (vgic w))) (NoDup_seqZ _ _) w t j) as (-> & -> & ->). split; [|done].
    assert (bool_decide (t ∈ seqZ 0 (vcpu_count (vgic w))) = (0 <=? t) && (t <? vcpu_count (vgic w))) as -> by (case_bool_decide as H; rewrite elem_of_seqZ in H; lia). done.
  - destruct (vgic_irq_desc w v k); [|by rewrite !andb_false_r]. rewrite vgic_update_lr. split; [|done]. unfold irq_of. rewrite vgic_update_lr. cbn.
    rewrite upd2_apply, andb_true_r, (andb_comm (j =? k)). destruct (decide (t = v)) as [->|Hne]; [done|by rewrite (proj2 (Z.eqb_neq t v) Hne)].
Qed.

(** ** Enable registers *)
Definition enable_reg (on : bool) : irq_bit_reg := if on then ISENABLER else ICENABLER.

Lemma write_enable_fold v base val on l : Forall (fun b => 0 <= b < 32) l -> forall w t j,
  let w' := foldl (fun w bit => if (ARM64_VGIC_IRQ_NUM <=? base + bit) || (Z.land val (BIT32 bit) =? 0) then w else write_irq_bit v (base + bit) (enable_reg on) w) w l in
  irq_of w' t j = (if bool_decide (j - base ∈ l) && (j <? ARM64_VGIC_IRQ_NUM) && Z.testbit val (j - base) && row_of w v j t
                   then (irq_of w t j) <| enabled := on |> else irq_of w t j) /\
  vcpu_count (vgic w') = vcpu_count (vgic w) /\ its_enabled (vgic w') = its_enabled (vgic w).
Proof.
  induction 1 as [|b l Hb _ IH]; intros w t j; cbv zeta; cbn [foldl]; [done|]. set (w1 := if _ || _ then w else _).
  assert (irq_of w1 t j = (if (j =? base + b) && (j <? ARM64_VGIC_IRQ_NUM) && Z.testbit val b && row_of w v j t then (irq_of w t j) <| enabled := on |> else irq_of w t j) /\
    vcpu_count (vgic w1) = vcpu_count (vgic w) /\ its_enabled (vgic w1) = its_enabled (vgic w)) as (E1 & E2 & E3).
  { unfold w1. assert ((Z.land val (BIT32 b) =? 0) = negb (Z.testbit val b)) as ->.
    { assert (Z.land val (BIT32 b) = if Z.testbit val b then BIT32 b else 0) as ->.
      { apply Z.bits_inj'. intros i Hi'. rewrite Z.land_spec, BIT32_bits by lia. destruct (Z.eqb_spec i b) as [->|]; [rewrite andb_true_r|rewrite andb_false_r];
          destruct (Z.testbit val b); rewrite ?Z.bits_0, ?BIT32_bits, ?Z.eqb_refl by lia; try done. symmetry. by apply Z.eqb_neq. }
      destruct (Z.testbit val b); [|done]. apply Z.eqb_neq. intros E. pose proof (BIT32_bits b b Hb ltac:(lia)) as H. by rewrite E, Z.bits_0, Z.eqb_refl in H. }
    destruct (Z.leb_spec ARM64_VGIC_IRQ_NUM (base + b)) as [H|H]; cbn [orb].
    - split; [|done]. destruct (Z.eqb_spec j (base + b)) as [->|]; [|done]. by replace (base + b <? ARM64_VGIC_IRQ_NUM) with false by lia.
    - destruct (Z.testbit val b); cbn [negb]; [|by rewrite andb_false_r]. unfold write_irq_bit, enable_reg. cbv zeta.
      assert (forall f, (forall d, f d = d <| enabled := on |>) -> let w' := change_irq_rows v (base + b) f w in
        irq_of w' t j = (if (j =? base + b) && (j <? ARM64_VGIC_IRQ_NUM) && true && row_of w v j t then (irq_of w t j) <| enabled := on |> else irq_of w t j) /\
        vcpu_count (vgic w') = vcpu_count (vgic w) /\ its_enabled (vgic w') = its_enabled (vgic w)) as G.
      { intros f Hf. destruct (change_rows_irq v (base + b) f w t j) as (E & G1 & G2). cbv zeta in *. split; [|done]. rewrite E.
        destruct (Z.eqb_spec j (base + b)) as [->|]; [|done]. replace (base + b <? ARM64_VGIC_IRQ_NUM) with true by lia. cbn [andb]. by rewrite Hf. }
      destruct on; by apply G. }
  destruct (IH w1 t j) as (-> & -> & ->). split; [|done]. rewrite E1. assert (row_of w1 v j t = row_of w v j t) as -> by (unfold row_of, vgic_irq_desc; by rewrite E2, E3).
  destruct (Z.eqb_spec j (base + b)) as [->|Hne].
  - replace (base + b - base) with b by lia. rewrite (bool_decide_true (b ∈ b :: l)) by left. cbn [andb].
    destruct (_ <? _), (Z.testbit val b), (row_of w v (base + b) t), (bool_decide (b ∈ l)); done.
  - assert (bool_decide (j - base ∈ b :: l) = bool_decide (j - base ∈ l)) as ->; [|done]. apply bool_decide_ext. rewrite elem_of_cons. split; [|auto]. intros [E|]; [lia|done].
Qed.


(** ** Routes of SPIs *)
Definition spi_target (w : vgic_world) (k : Z) : Z := vgic_valid_target_vcpu (vgic w) (target_vcpu (irq (vgic w) 0 k)).

(** The pending and active state moves from [old] to [new]. *)
Definition move_spi (old new k : Z) (w : vgic_world) : vgic_world :=
  let w := if pending (irq (vgic w) old k) then vgic_set_pending new k true (vgic_set_pending old k false w) else w in
  if active (irq (vgic w) old k) then set_active new k true (set_active old k false w) else w.

Lemma move_spi_calm old new k w : 0 <= k -> wf w -> calm w (move_spi old new k w) /\ vctx (move_spi old new k w) = vctx w.
Proof.
  intros Hk Hw. unfold move_spi. cbv zeta. set (wa := if pending _ then _ else w). assert (calm w wa /\ vctx wa = vctx w) as [Ha Ea].
  { unfold wa. case_match; [|by split; [apply calm_refl|]]. split; [|by rewrite !vctx_set_pending].
    apply (calm_trans _ (vgic_set_pending old k false w)); [by apply calm_set_pending|]. intros Hx. by apply calm_set_pending. }
  clearbody wa. case_match; [|done]. split; [|done]. apply (calm_trans _ wa); [done|]. intros Hx.
  apply (calm_trans _ (set_active old k false wa)); [by apply calm_set_active|]. intros Hy. by apply calm_set_active.
Qed.

Ltac simp_eqb := repeat (rewrite Z.eqb_refl in * ||
  match goal with
  | H : ?a <> ?b |- context [?a =? ?b] => rewrite (proj2 (Z.eqb_neq a b) H)
  | H : ?a <> ?b |- context [?b =? ?a] => rewrite (proj2 (Z.eqb_neq b a) (not_eq_sym H))
  | H : ?a <> ?b, H' : context [?a =? ?b] |- _ => rewrite (proj2 (Z.eqb_neq a b) H) in H'
  | H : ?a <> ?b, H' : context [?b =? ?a] |- _ => rewrite (proj2 (Z.eqb_neq b a) (not_eq_sym H)) in H'
  end); cbn [andb orb negb] in *.

Lemma move_spi_irq old new k w u j : old <> new -> let d := irq_of w u j in let d' := irq_of (move_spi old new k w) u j in
  if (j =? k) && (u =? old) then pending d' = false /\ active d' = false
  else if (j =? k) && (u =? new) then pending d' = pending (irq_of w old k) || pending d /\ active d' = active (irq_of w old k) || active d
  else d' = d.
Proof.
  intros Hne. cbv zeta. unfold move_spi. cbv zeta. set (wa := if pending _ then _ else w).
  assert (forall x i, pending (irq_of wa x i) = (if (i =? k) && (x =? old) then false else if (i =? k) && (x =? new) then pending (irq_of w old k) || pending (irq_of w x i) else pending (irq_of w x i)) /\
    active (irq_of wa x i) = active (irq_of w x i) /\ (negb ((i =? k) && ((x =? old) || (x =? new))) = true -> irq_of wa x i = irq_of w x i)) as Ha.
  { intros x i. unfold wa, irq_of. destruct (pending (irq (vgic w) old k)) eqn:Ep.
    - rewrite !irq_set_pending. destruct (decide (i = k)), (decide (x = old)), (decide (x = new)); simplify_eq; try done; simp_eqb; done.
    - destruct (decide (i = k)), (decide (x = old)), (decide (x = new)); simplify_eq; try done; simp_eqb; done. }
  clearbody wa. destruct (Ha old k) as (_ & Eo & _). destruct (Ha u j) as (E1 & E2 & E3). unfold irq_of in Eo at 1. rewrite Eo.
  destruct (active (irq_of w old k)) eqn:Eac.
  - unfold irq_of in *. rewrite !irq_set_active.
    destruct (decide (j = k)), (decide (u = old)), (decide (u = new)); simplify_eq; try done; simp_eqb; auto.
  - destruct (decide (j = k)), (decide (u = old)), (decide (u = new)); simplify_eq; try done; simp_eqb; auto.
Qed.

Lemma targets_fold k x l : NoDup l -> forall w u j, let w' := foldl (fun w u => change_irq u k (fun d => d <| target_vcpu := x |>) w) w l in
  irq_of w' u j = (if (j =? k) && bool_decide (u ∈ l) then (irq_of w u k) <| target_vcpu := x |> else irq_of w u j) /\ vctx w' = vctx w.
Proof.
  induction 1 as [|t l Ht _ IH]; intros w u j; cbv zeta; cbn [foldl]; [by rewrite andb_false_r|].
  destruct (IH (change_irq t k (fun d => d <| target_vcpu := x |>) w) u j) as (-> & ->). split; [|done].
  assert (forall i, irq_of (change_irq t k (fun d => d <| target_vcpu := x |>) w) u i = if (u =? t) && (i =? k) then (irq_of w u k) <| target_vcpu := x |> else irq_of w u i) as E.
  { intros i. unfold irq_of. cbn. rewrite upd2_apply. destruct (decide (u = t)) as [->|Hne]; [by rewrite Z.eqb_refl|by rewrite (proj2 (Z.eqb_neq u t) Hne)]. }
  rewrite !E. destruct (Z.eqb_spec j k) as [->|]; cbn [andb]; [|by rewrite andb_false_r]. rewrite Z.eqb_refl, andb_true_r.
  destruct (decide (u = t)) as [->|Hne]; [rewrite Z.eqb_refl|rewrite (proj2 (Z.eqb_neq u t) Hne)].
  - rewrite (bool_decide_false (t ∈ l)), (bool_decide_true (t ∈ t :: l)); [done|left|done].
  - assert (bool_decide (u ∈ t :: l) = bool_decide (u ∈ l)) as -> by (apply bool_decide_ext; rewrite elem_of_cons; naive_solver). done.
Qed.

(** Rebuilding the LR of an interrupt that is neither pending nor active removes it. *)
Lemma update_row_gone u k w : wf w -> u < created_vcpus w -> pending (irq_of w u k) = false -> active (irq_of w u k) = false ->
  lr_w (vgic_update_irq_row_lr u k w) u k = None.
Proof.
  intros Hw Hu Hp Ha. unfold vgic_update_irq_row_lr. rewrite (proj2 (Z.ltb_lt _ _) Hu). unfold vgic_update_irq_lr. cbv zeta. unfold irq_of in *. rewrite Hp, Ha, andb_false_r. cbn [orb].
  destruct (Z.leb_spec 0 (find_lr_for_virq (vctx w u) k)); [by apply owed_removed|]. unfold lr_w. by apply ctx_no_find.
Qed.
Lemma update_row_other u k w x : x <> u -> vctx (vgic_update_irq_row_lr u k w) x = vctx w x.
Proof.
  intros Hx. unfold vgic_update_irq_row_lr, vgic_update_irq_lr. cbv zeta. repeat case_match; try done; cbn; unfold upd; by rewrite (proj2 (Z.eqb_neq x u) Hx).
Qed.


Definition demo_spi : vgic_world := (vgic_inject_locked 0 0 40 false demo).2.
Lemma demo_spi_reach : vreach 4 demo_spi.
Proof. eapply vr_step; [apply demo_reach|]. apply (vs_inject demo 0 0 40 false). lia. Qed.
