(* ===== verification/VgicRaces.v ===== *)
(** * Interrupts that get lost or come back

    Runs of the virtual interrupt controller in which an interrupt that the guest is
    still to see is dropped, or one that was cleared is delivered.  They mark the limits
    of what [VgicSpec] promises: an interrupt that the guest completes while it is sent
    again, register writes to an interrupt that sits in a list register, and a clear from
    another pCPU. *)
From S2P Require Import Prelude Bits Hooks GuestMem Vgic VgicInv VgicFlow VgicFlush VgicOps Its ItsTable VgicMmio VgicMmioInv VgicQuery VgicRun VgicSpec ItsSpec.

(** SGI 3 is in the first LR of vCPU 1, ready to be taken. *)
Definition sgi_resident : vgic_world := arm64_process_vcpu_requests 1 1 true demo_sgi.
Lemma sgi_resident_reach : vreach 4 sgi_resident.
Proof. eapply vr_step; [apply demo_sgi_reach|]. apply vs_requests. vm_compute. reflexivity. Qed.

(** The guest takes and completes it, and vCPU 0 sends it once more before the
    maintenance interrupt is handled. *)
Definition sgi_again : vgic_world := (arm64_vgicv3_inject_irq_to 0 1 3 false (guest_lr 1 0 lr_end (guest_lr 1 0 lr_ack sgi_resident))).2.
Lemma sgi_again_reach : vreach 4 sgi_again.
Proof.
  unfold sgi_again. eapply vr_step; [|apply (vs_inject _ 0 1 3 false); lia].
  eapply vr_step; [|apply (vs_end _ 1 1 0); vm_compute; reflexivity]. eapply vr_step; [|apply (vs_ack _ 1 1 0); vm_compute; reflexivity]. apply sgi_resident_reach.
Qed.

(** The completion of the first SGI clears the pending state that the second one set:
    the second SGI is never delivered. *)
Lemma eoi_drops_second_sgi : vreach 4 sgi_again /\ pending (irq_of sgi_again 1 3) = true /\ vgic_irq_deliverable sgi_again 1 3 = true /\
  let w' := arm64_vgicv3_maintenance_irq_handler 1 sgi_again in owed w' 1 3 = false /\ hw_lr w' 1 3 = None.
Proof. split; [apply sgi_again_reach|vm_compute; repeat split]. Qed.

(** Writing the priority of an edge interrupt that is in an LR, and that the guest has not
    taken yet, drops it: the LR is rebuilt from the descriptor, whose pending state moved
    into the LR. *)
Lemma priority_write_drops_sgi : vreach 4 sgi_resident /\ opt_pending (hw_lr sgi_resident 1 3) = true /\
  let w' := demo_write 1 (0x80a0000 + 0x20000 + 0x10400) 0x80808080 sgi_resident in owed w' 1 3 = false /\ hw_lr w' 1 3 = None.
Proof. split; [apply sgi_resident_reach|vm_compute; repeat split]. Qed.

(** Clearing an interrupt of a vCPU that runs on another pCPU leaves its hardware LR: at
    the next exit the interrupt is back. *)
Lemma remote_clear_comes_back : vreach 4 sgi_resident /\ let r := arm64_vgicv3_clear_irq 0 1 3 sgi_resident in
  r.1 = 0 /\ owed r.2 1 3 = false /\ opt_pending (hw_lr (arm64_process_vcpu_requests 1 1 true r.2) 1 3) = true.
Proof. split; [apply sgi_resident_reach|vm_compute; repeat split]. Qed.

(** The SGI frame of a redistributor gives access to the priorities of SPIs. *)
Lemma sgi_frame_reaches_spi : vreach 4 demo /\ priority (irq_of demo 0 100) = GIC_PRIORITY_DEFAULT /\
  priority (irq_of (demo_write 1 (0x80a0000 + 0x20000 + 0x10400 + 100) 0x40404040 demo) 0 100) = 0x40.
Proof. split; [apply demo_reach|vm_compute; repeat split]. Qed.

(** Moving an event to another vCPU leaves the configuration of its LPI behind: there it
    is not enabled, although its entry in the table of the guest says so, and a message is
    not delivered. *)
Definition movi_cmd : its_cmd := {| cmd0 := 0x01 + Z.shiftl 5 32; cmd1 := 2; cmd2 := 0; cmd3 := 0 |}.
Definition lpis_on_0 : vgic_world := its_write 0x80a0000 1 (its_write 0x80a0070 0x40001000 demo_its).
Lemma movi_leaves_config : vreach 4 lpis_on_0 /\ vgic_irq_deliverable lpis_on_0 1 8199 = true /\
  let w' := (arm64_vgicv3_inject_msi 0 5 2 (vits_execute_cmd demo_ram demo_stage2 demo_bytes 1 movi_cmd lpis_on_0).2).2 in
  owed w' 0 8199 = true /\ vgic_irq_deliverable w' 0 8199 = false.
Proof.
  split; [|vm_compute; repeat split]. unfold lpis_on_0. do 2 (apply its_write_reach; [|vm_compute; reflexivity..]). apply demo_its_reach.
Qed.
